(* ===== verification/_CoqProject ===== *)
-Q . S2P
Prelude.v
Vector.v
Aggregate.v
Api.v
Platform.v
Words.v
Floats.v
AggregateProps.v
Callf.v
X64.v
X64Proofs.v
X64Props.v
X64Aggr.v
X64Struct.v
X64Examples.v
X86.v
X86Proofs.v
X86Props.v
X86Examples.v
Arm64.v
Arm64Proofs.v
Arm64Props.v
Arm32.v
Arm32Proofs.v
Armhf.v
ArmhfProofs.v
Arm32Props.v
ArmExamples.v
Sparc32.v
Sparc32Proofs.v
Sparc32Props.v
Sparc64.v
Sparc64Proofs.v
Sparc64Props.v
SparcExamples.v
Ppc64.v
Ppc64Proofs.v
Ppc64Props.v
Ppc32.v
Ppc32Proofs.v
Ppc32Props.v
PpcExamples.v
Mips.v
MipsO32.v
MipsO32Proofs.v
MipsO32Props.v
MipsEabi.v
MipsEabiProofs.v
MipsEabiProps.v
Mips64.v
Mips64Proofs.v
Mips64Props.v
MipsExamples.v
DynloadElf.v
DynloadPe.v
DynloadMacho.v
DynloadPath.v
LibSymbols.v
CallbackAlloc.v
Perl.v
Marshal.v
MarshalProofs.v
MarshalProps.v
Pointer.v
PointerProps.v
PerlModel.v
PointerExamples.v
MarshalAggr.v
StructType.v
TypeObject.v
MarshalExamples.v
Fiction.v
FictionProofs.v
FictionProps.v
FictionX64.v
FictionArm64.v
Library.v
Pin.v
Boot.v
FictionExamples.v
