(* ===== verification/Prelude.v ===== *)
(** * A verification of Affix and dyncall

    Affix is a foreign function interface for Perl: [lib/Affix.cxx] binds the
    functions of a library to Perl subs, [lib/Affix/marshal.cxx] converts values,
    and dyncall ([src/dyncall]) makes the calls: [dyncall] builds the argument
    list of a call at run time, [dyncallback] turns a handler into a function
    pointer, [dynload] finds libraries and their symbols.

    ** How the parts interact

    A Perl call runs [Fiction_trigger]: it resets a call VM, pushes each
    argument as its type says (through [sv2ptr] where it is a pointer,
    through [_aggregate] where it is a struct), and calls the entry point
    through the call kernel of the platform, an assembly routine that loads
    registers and stack from the VM.  A callback is code in executable memory
    whose thunk saves registers for an argument reader ([DCArgs]); its handler
    [cbHandlerXXXXX] reads the arguments, calls a Perl sub and stores the result
    in a [DCValue].  The VM side and the reader side are written separately for
    each platform; that they agree is what most of dyncall's correctness is.

    ** The files

    Each [X.v] models code, [XProofs.v] holds its lemmas, [XProps.v] its
    theorems, [XExamples.v] the theorems at concrete inputs (as does [Module Examples] of a file).

    - [Prelude]: C integers, byte encodings, reads and writes in byte lists.
    - [Vector]: the argument vector (dyncall_vector.c).  Appending fits or has no
      effect.
    - [Aggregate], [AggregateProps]: aggregate descriptions and the System V
      classification (dyncall_aggregate.c, dyncall_aggregate_x64.c).
      Descriptions are well formed; the classification of aligned structs is
      that of the ABI, packed structs go to memory, and nested structs of
      alignment below eight are misclassified.
    - [Api]: the VM's function table and dyncall_api.c; the interface [CallConv]
      between a VM and its argument reader, and the round trip of argument
      lists that follows from its one-step law.
    - [Platform]: platform detection (dyncall_macros.h) and the files that choose an
      implementation.  A platform is described by what its compilers predefine
      ([runs_on], [compiles_for]) and the files it needs ([backend_of],
      [system_files]); the header and the choosing files give it these files, and
      the byte order of the compiler, except for a version of the PowerPC ABI.
    - [Callf]: calls by signature (dyncall_callf.c); a formatted call does what
      the calls by hand do, with the call function of the result type.
    - [X64], [X86], [Arm64], [Arm32] and [Armhf]: the VMs with their tables and
      modes, the call kernels as functions from a finished VM to the registers
      and the stack of the callee, the thunks, argument readers and results of
      callbacks; System V and Windows, five conventions on x86, Unix, Windows
      and Apple on ARM64, ARM, Thumb and hard float on 32-bit ARM.  For each:
      scalar calls are transparent from end to end; arguments are where the ABI
      says; for x64, aggregates by value as well ([X64Aggr]), for structs with
      the layout of C ([X64Struct]; those of at most 16 bytes with nested structs at
      multiples of eight), and
      calls are memory safe in any order; for x86, callee cleanup is balanced.
      The error theorems show where the code is wrong.
    - [Words], [Floats]: what the word-oriented platforms share: runs of words, values
      of two words, the places of arguments by counting registers; conversions
      between [float] and [double].
    - [Sparc32], [Sparc64], [Ppc32], [Ppc64], [Mips] with [MipsO32], [MipsEabi] and
      [Mips64]: the same for SPARC (32 and 64 bits), PowerPC (System V and Darwin on
      32 bits, both versions of the ELF ABI on 64) and MIPS (o32, EABI, n64 and n32,
      both byte orders, hardware and software floating point).  For each: the
      callee of a scalar call has its arguments where the ABI says, and a callback
      entered like this reads them and returns its result - within the limits the
      theorem names where the two sides disagree.
    - [DynloadElf], [DynloadPe], [DynloadMacho], [DynloadPath]: symbol tables of ELF,
      PE and Mach-O files, library paths on Unix and Windows.  Reading the symbols
      leaves the loader's counts balanced, tables are found where they are mapped.
      Paths are those of the manual, except where the system reports an empty name.
      [LibSymbols]: [list_symbols] and [find_symbol] over them; all named symbols
      are listed.
    - [CallbackAlloc]: creation and release of callbacks in executable memory,
      as a transition system; live callbacks keep their memory, and nothing is
      ever writable and executable where [mprotect] is there.  The fallback to
      /dev/zero leaves no descriptor open.
    - [Perl]: the Perl API, C memory and the effects of the C++ code (exceptions,
      running out of memory, undefined behaviour) as a monad.
    - [Marshal], [MarshalProofs], [MarshalProps], [MarshalAggr], [StructType]: types,
      [sv2ptr], [ptr2sv], [_aggregate], [Struct], [Union].  Values survive the way to C
      and back; [Struct] makes well-formed types, and the
      offsets and C types of its fields are what dyncall is told (for types without
      [Bool], [WChar] and [SChar] fields).  [TypeObject]: the type objects and their
      queries.
    - [Pointer], [PointerProps], [PointerExamples]: pointer objects and the memory
      functions ([malloc], [calloc], [realloc], [free], [memcpy] and the like): calls
      keep the table of blocks, what is allocated can be freed, [realloc] keeps the
      contents, [calloc] registers no block that could be freed.
    - [Fiction], [FictionProofs], [FictionProps], [FictionX64], [FictionArm64]:
      [affix], calls and the handler of callbacks, over the interface [Machine]
      of a backend, which x64 and ARM64 implement.  A call of an affixed
      function that is a Perl callback reaches the sub with scalars that mean
      what the caller passed, and the result comes back.
    - [Boot]: what loading the module defines and exports, the constants of
      Platform.cxx, and the lifetime of the call VM; every exported name is defined.
    - [Library]: the libraries of bound functions, as the reference counts of the
      loader; [Pin]: pinned variables.
    - [PerlModel], [MarshalExamples], [FictionExamples]: a concrete Perl, and
      the theorems run on it.

    ** Conventions

    C integers are [Z] with their wrap-around written out ([wrapU], [wrapS],
    [conv]); floating-point values are their bit patterns, and conversions
    between [float] and [double] are those of [Floats], or parameters where it does
    not matter.  Objects are lists of bytes.
    [None] and [Fault] stand for undefined behaviour: a NULL entry of a table, a
    failed assertion, an access outside an object.  VMs are passed as state;
    [#if] branches are parameters ([win], [os], [sysv]).

    Parameters stand for code that is not part of the repository: the system's
    memory and loader functions, the Perl API with the laws perlapi documents,
    the allocator (new memory of the size asked for, or none), and what
    registers and stack hold before anybody writes to them ([junk], [cpu0]).
    Every property with such a parameter has a witness with a concrete one.

    ** Fuel

    [DynloadElf.traverse] has one step per section header; the loop of
    [DynloadPath] ten, enough for the doubling of a buffer up to the limit;
    [DynloadPe] searches one step per exported name.  [Perl.scan] and
    [Marshal.ptr2sv_pointers] have one step per allocated byte and one more:
    each step reads another address, so that they find the terminator or leave
    the allocated memory.  All other recursion is structural.

    ** Not modelled

    - What the system does in a system call.
    - Dead code: [Affix_affix] with [Affix_trigger] and [cbHandler], [sv2ptrx] and
      [ptr2svx], which nothing registers or calls ([affix] and [wrap] are bound to
      [Affix_fiction]); [locate_lib] and [mangle], which only these call; the
      operators of pointer objects and the tie methods of aggregates that are not
      registered.
    - Warnings, debugging output, reference counts and [Affix::ABI]'s name
      mangling; the Perl modules besides [Struct], [Union], [offsetof] and
      [padding_needed_for];
      build system, examples and tests.
    - Perls whose IV is narrower than 64 bits, and alignments that differ from
      sizes (as [double] has on 32-bit Linux) in the types of Affix. *)

From stdpp Require Export base list list_numbers option numbers.
From Stdlib Require Export ZArith Lia.
#[global] Open Scope Z_scope.
#[export] Set Default Goal Selector "!".

(** ** C integer conversions

    [wrapU w] is conversion to an unsigned [w]-bit type, [wrapS w] to the
    two's-complement signed [w]-bit type of the same width. *)

Definition wrapU (w z : Z) : Z := z mod 2 ^ w.

Definition wrapS (w z : Z) : Z := (z + 2 ^ (w - 1)) mod 2 ^ w - 2 ^ (w - 1).

Definition in_u (w z : Z) : Prop := 0 <= z < 2 ^ w.
Definition in_s (w z : Z) : Prop := - 2 ^ (w - 1) <= z < 2 ^ (w - 1).

Lemma pow2_pos w : 0 <= w -> 0 < 2 ^ w.
Proof. intros; apply Z.pow_pos_nonneg; lia. Qed.

Lemma pow2_split w : 0 < w -> 2 ^ w = 2 * 2 ^ (w - 1).
Proof. intros. rewrite <- Z.pow_succ_r by lia. f_equal; lia. Qed.

Lemma wrapU_range w z : 0 <= w -> in_u w (wrapU w z).
Proof. intros; apply Z.mod_pos_bound, pow2_pos; lia. Qed.

Lemma wrapU_id w z : in_u w z -> wrapU w z = z.
Proof. apply Z.mod_small. Qed.

Lemma wrapS_range w z : 0 < w -> in_s w (wrapS w z).
Proof.
  intros Hw. unfold in_s, wrapS.
  pose proof (Z.mod_pos_bound (z + 2 ^ (w - 1)) (2 ^ w) (pow2_pos w ltac:(lia))).
  pose proof (pow2_split w Hw). lia.
Qed.

Lemma wrapS_id w z : 0 < w -> in_s w z -> wrapS w z = z.
Proof.
  intros Hw [Hl Hu]. unfold wrapS. rewrite Z.mod_small; [lia|].
  pose proof (pow2_split w Hw). lia.
Qed.

(** Narrowing forgets what a wider unsigned conversion kept. *)
Lemma wrapU_wrapU w w' z : 0 <= w <= w' -> wrapU w (wrapU w' z) = wrapU w z.
Proof.
  intros. unfold wrapU.
  apply Z.mod_mod_divide.
  exists (2 ^ (w' - w)). rewrite <- Z.pow_add_r by lia. f_equal. lia.
Qed.

Lemma wrapS_wrapU w w' z : 0 < w <= w' -> wrapS w (wrapU w' z) = wrapS w z.
Proof.
  intros. unfold wrapS. f_equal.
  pose proof (wrapU_wrapU w w' z ltac:(lia)) as E. unfold wrapU in *.
  rewrite Z.add_mod, E, <- Z.add_mod by (pose proof (pow2_pos w); lia). done.
Qed.

Lemma wrapU_wrapS w w' z : 0 <= w <= w' -> 0 < w' -> wrapU w (wrapS w' z) = wrapU w z.
Proof.
  intros. rewrite <- (wrapU_wrapU w w'), <- (wrapU_wrapU w w' z) by lia. f_equal.
  unfold wrapU, wrapS. rewrite Zminus_mod_idemp_l. f_equal. lia.
Qed.

Lemma wrapS_wrapS w w' z : 0 < w <= w' -> wrapS w (wrapS w' z) = wrapS w z.
Proof.
  intros. rewrite <- (wrapS_wrapU w w'), wrapU_wrapS, wrapS_wrapU by lia. done.
Qed.

Lemma wrapU_eq_mod w a b : wrapU w a = wrapU w b -> a mod 2 ^ w = b mod 2 ^ w.
Proof. done. Qed.

(** ** Bytes and object representations *)

Inductive endian := LittleEndian | BigEndian.

(** Least significant byte first. *)
Fixpoint le_split (n : nat) (z : Z) : list Z :=
  match n with
  | O => []
  | S n => z mod 256 :: le_split n (z / 256)
  end.

Fixpoint le_join (bs : list Z) : Z :=
  match bs with
  | [] => 0
  | b :: bs => b + 256 * le_join bs
  end.

(** Object representation of an [n]-byte value. *)
Definition enc (e : endian) (n : nat) (z : Z) : list Z :=
  match e with LittleEndian => le_split n z | BigEndian => rev (le_split n z) end.

Definition dec (e : endian) (bs : list Z) : Z :=
  match e with LittleEndian => le_join bs | BigEndian => le_join (rev bs) end.

#[global] Arguments enc : simpl never.
#[global] Arguments dec : simpl never.

Lemma length_le_split n z : length (le_split n z) = n.
Proof. revert z; induction n; intros; simpl; [done|]. by rewrite IHn. Qed.

Lemma length_enc e n z : length (enc e n z) = n.
Proof. unfold enc. destruct e; rewrite ?length_rev; apply length_le_split. Qed.

Lemma le_join_split n z : le_join (le_split n z) = wrapU (8 * Z.of_nat n) z.
Proof.
  revert z; induction n as [|n IH]; intros z.
  - change (0 = z mod 1). by rewrite Z.mod_1_r.
  - cbn [le_split le_join]. rewrite IH. unfold wrapU.
    replace (2 ^ (8 * Z.of_nat (S n))) with (256 * 2 ^ (8 * Z.of_nat n)).
    + rewrite Z.rem_mul_r; [done|lia|apply pow2_pos; lia].
    + change 256 with (2 ^ 8). rewrite <- Z.pow_add_r by lia. f_equal. lia.
Qed.

Lemma dec_enc e n z : dec e (enc e n z) = wrapU (8 * Z.of_nat n) z.
Proof. unfold enc, dec. destruct e; rewrite ?rev_involutive; apply le_join_split. Qed.

Lemma le_split_wrapU n z : le_split n (wrapU (8 * Z.of_nat n) z) = le_split n z.
Proof.
  revert z; induction n as [|n IH]; intros z; [done|]. cbn [le_split]. unfold wrapU.
  replace (2 ^ (8 * Z.of_nat (S n))) with (256 * 2 ^ (8 * Z.of_nat n)).
  - f_equal.
    + apply Z.mod_mod_divide. apply Z.divide_factor_l.
    + rewrite Z.rem_mul_r; [|lia|apply pow2_pos; lia].
      rewrite (Z.mul_comm 256), Z.div_add by lia.
      rewrite (Z.div_small (z mod 256)) by (apply Z.mod_pos_bound; lia). apply IH.
  - change 256 with (2 ^ 8). rewrite <- Z.pow_add_r by lia. f_equal. lia.
Qed.

(** An object representation only depends on the value modulo its width. *)
Lemma enc_wrapU e n z : enc e n (wrapU (8 * Z.of_nat n) z) = enc e n z.
Proof. unfold enc. by rewrite le_split_wrapU. Qed.

(** Splitting a representation: the first [n] bytes of a little-endian object
    are its value truncated. *)
Lemma le_split_app n m z : le_split (n + m) z = le_split n z ++ le_split m (z / 2 ^ (8 * Z.of_nat n)).
Proof.
  revert z; induction n as [|n IH]; intros z.
  - simpl. by rewrite Z.div_1_r.
  - cbn [le_split Nat.add app]. rewrite IH, Z.div_div; [|lia|apply pow2_pos; lia].
    do 3 f_equal. change 256 with (2 ^ 8). rewrite <- Z.pow_add_r by lia. do 2 f_equal. lia.
Qed.

Lemma take_le_split n m z : (n <= m)%nat -> take n (le_split m z) = le_split n z.
Proof.
  intros. replace m with (n + (m - n))%nat by lia. rewrite le_split_app.
  apply take_app_length'. by rewrite length_le_split.
Qed.

Lemma drop_le_split n m z :
  (n <= m)%nat -> drop n (le_split m z) = le_split (m - n) (z / 2 ^ (8 * Z.of_nat n)).
Proof.
  intros. replace m with (n + (m - n))%nat at 1 by lia. rewrite le_split_app.
  apply drop_app_length'. by rewrite length_le_split.
Qed.

Lemma le_join_app a b : le_join (a ++ b) = le_join a + 2 ^ (8 * Z.of_nat (length a)) * le_join b.
Proof.
  induction a as [|x a IH]; [cbn [app le_join length]; lia|].
  cbn [app le_join length]. rewrite IH.
  replace (2 ^ (8 * Z.of_nat (S (length a)))) with (256 * 2 ^ (8 * Z.of_nat (length a)))
    by (change 256 with (2 ^ 8); rewrite <- Z.pow_add_r by lia; f_equal; lia).
  ring.
Qed.

(** The low bytes of a little-endian object decide its value modulo their width. *)
Lemma dec_low n x rest :
  wrapU (8 * Z.of_nat n) (dec LittleEndian (enc LittleEndian n x ++ rest)) = wrapU (8 * Z.of_nat n) x.
Proof.
  unfold dec, enc. rewrite le_join_app, length_le_split, le_join_split.
  unfold wrapU. rewrite (Z.mul_comm _ (le_join rest)).
  pose proof (pow2_pos (8 * Z.of_nat n) ltac:(lia)).
  rewrite Z.mod_add by lia. apply Z.mod_mod. lia.
Qed.

Definition is_byte (b : Z) : Prop := 0 <= b < 256.

Lemma le_split_bytes n z : Forall is_byte (le_split n z).
Proof. revert z; induction n; intros; constructor; [apply Z.mod_pos_bound; lia|done]. Qed.

Lemma enc_bytes e n z : Forall is_byte (enc e n z).
Proof.
  unfold enc. destruct e; [apply le_split_bytes|].
  apply List.Forall_rev, le_split_bytes.
Qed.

Lemma le_split_join bs : Forall is_byte bs -> le_split (length bs) (le_join bs) = bs.
Proof.
  induction 1 as [|b bs Hb _ IH]; [done|]. unfold is_byte in Hb. cbn [length le_split le_join].
  rewrite (Z.mul_comm 256), Z.mod_add, Z.mod_small, Z.div_add, Z.div_small by lia.
  f_equal. exact IH.
Qed.

(** Decoding then encoding restores the bytes of an object. *)
Lemma enc_dec e bs : Forall is_byte bs -> enc e (length bs) (dec e bs) = bs.
Proof.
  unfold enc, dec. destruct e; intros H; [by apply le_split_join|].
  rewrite <- (length_rev bs), le_split_join by (by apply List.Forall_rev).
  apply rev_involutive.
Qed.

Lemma enc_wrapS e n z : 0 < Z.of_nat n -> enc e n (wrapS (8 * Z.of_nat n) z) = enc e n z.
Proof. intros. rewrite <- enc_wrapU, wrapU_wrapS, enc_wrapU by lia. done. Qed.

Lemma enc_dec_n e n bs : Forall is_byte bs -> length bs = n -> enc e n (dec e bs) = bs.
Proof. intros H <-. by apply enc_dec. Qed.

(** ** Memory blocks

    A block is the list of its bytes.  Accesses outside it are undefined
    behaviour in C and [None] here. *)

Definition rd (off : Z) (n : nat) (m : list Z) : option (list Z) :=
  if 0 <=? off then sublist_lookup (Z.to_nat off) n m else None.

Definition wr (off : Z) (bs m : list Z) : option (list Z) :=
  if (0 <=? off) && (off + Z.of_nat (length bs) <=? Z.of_nat (length m))
  then Some (take (Z.to_nat off) m ++ bs ++ drop (Z.to_nat off + length bs) m) else None.

(** Arrays of machine words indexed by a C integer. *)
Definition aget (i : Z) (a : list Z) : option Z :=
  if 0 <=? i then a !! Z.to_nat i else None.

Definition aset (i : Z) (x : Z) (a : list Z) : option (list Z) :=
  if (0 <=? i) && (i <? Z.of_nat (length a)) then Some (<[Z.to_nat i := x]> a) else None.

#[global] Arguments rd : simpl never.
#[global] Arguments wr : simpl never.
#[global] Arguments aget : simpl never.
#[global] Arguments aset : simpl never.

Lemma length_wr off bs m m' : wr off bs m = Some m' -> length m' = length m.
Proof.
  unfold wr. destruct (_ && _) eqn:E; [|done]. intros [= <-].
  apply andb_prop in E as [?%Z.leb_le ?%Z.leb_le].
  rewrite !length_app, length_take, length_drop. lia.
Qed.

Lemma wr_Some off bs m :
  0 <= off -> off + Z.of_nat (length bs) <= Z.of_nat (length m) ->
  wr off bs m = Some (take (Z.to_nat off) m ++ bs ++ drop (Z.to_nat off + length bs) m).
Proof. intros. unfold wr. by rewrite (proj2 (Z.leb_le _ _)), (proj2 (Z.leb_le _ _)). Qed.

(** Reading from a prefix of the block is reading from the block. *)
Lemma rd_prefix off n m m' bs : prefix m m' -> rd off n m = Some bs -> rd off n m' = Some bs.
Proof.
  intros [k ->]. unfold rd. destruct (0 <=? off); [|done].
  rewrite !sublist_lookup_Some'. intros [-> ?]. rewrite length_app. split; [|lia].
  rewrite drop_app_le, take_app_le by (rewrite ?length_drop; lia). done.
Qed.

Lemma rd_app off n m bs :
  off = Z.of_nat (length m) -> n = length bs -> rd off n (m ++ bs) = Some bs.
Proof.
  intros -> ->. unfold rd. rewrite (proj2 (Z.leb_le _ _)) by lia. rewrite Nat2Z.id.
  apply sublist_lookup_Some'. rewrite drop_app_length, take_ge by lia.
  rewrite length_app. split; [done|lia].
Qed.

Lemma rd0_app bs rest n : length bs = n -> rd 0 n (bs ++ rest) = Some bs.
Proof.
  intros <-. unfold rd. cbn [Z.leb Z.compare]. apply sublist_lookup_Some'.
  rewrite drop_0, take_app_length, length_app. split; [done|lia].
Qed.

Lemma rd_length off n m bs : rd off n m = Some bs -> length bs = n.
Proof. unfold rd. destruct (0 <=? off); [|done]. apply sublist_lookup_length. Qed.

(** Reading back a store, and reading past it. *)
Lemma rd_wr_same off bs m m' n :
  wr off bs m = Some m' -> n = length bs -> rd off n m' = Some bs.
Proof.
  unfold wr, rd. intros H ->. destruct (_ && _) eqn:E in H; [|done]. injection H as <-.
  apply andb_prop in E as [H1%Z.leb_le H2%Z.leb_le]. rewrite (proj2 (Z.leb_le _ _)) by lia.
  apply sublist_lookup_Some'. rewrite drop_app_length' by (rewrite length_take; lia).
  rewrite take_app_length, !length_app, length_take, length_drop. split; [done|lia].
Qed.

Lemma rd_wr_other off bs m m' off' n :
  wr off bs m = Some m' -> off' + Z.of_nat n <= off \/ off + Z.of_nat (length bs) <= off' ->
  rd off' n m' = rd off' n m.
Proof.
  intros H Ho. pose proof (length_wr _ _ _ _ H) as Hl. unfold wr in H. unfold rd.
  destruct (_ && _) eqn:E in H; [|done]. injection H as <-.
  apply andb_prop in E as [H1%Z.leb_le H2%Z.leb_le]. destruct (Z.leb_spec 0 off'); [|done].
  unfold sublist_lookup. rewrite Hl. case_guard; [|done]. cbn. f_equal.
  destruct Ho.
  - rewrite drop_app_le by (rewrite length_take; lia).
    rewrite take_app_le by (rewrite length_drop, length_take; lia).
    rewrite !take_drop_commute, take_take.
    replace ((Z.to_nat off' + n) `min` Z.to_nat off)%nat with (Z.to_nat off' + n)%nat by lia. done.
  - rewrite app_assoc, drop_app_ge by (rewrite length_app, length_take; lia).
    rewrite length_app, length_take, drop_drop. do 2 f_equal. lia.
Qed.

Lemma rd_Some off n m :
  0 <= off -> off + Z.of_nat n <= Z.of_nat (length m) ->
  exists bs, rd off n m = Some bs /\ length bs = n /\ bs = take n (drop (Z.to_nat off) m).
Proof.
  intros H1 H2. unfold rd. rewrite (proj2 (Z.leb_le _ _)) by lia.
  exists (take n (drop (Z.to_nat off) m)). split_and!; [|rewrite length_take, length_drop; lia|done].
  apply sublist_lookup_Some'. split; [done|lia].
Qed.

(** Reading only looks at the part of the block from the offset on. *)
Lemma rd_drop k off n m m' :
  Z.of_nat k <= off -> length m = length m' -> drop k m = drop k m' -> rd off n m = rd off n m'.
Proof.
  intros Hk Hl Hd. unfold rd. destruct (0 <=? off); [|done].
  unfold sublist_lookup. rewrite Hl. case_guard; [|done]. cbn. do 2 f_equal.
  replace (Z.to_nat off) with (k + (Z.to_nat off - k))%nat by lia.
  by rewrite <- !drop_drop, Hd.
Qed.

Lemma rd_bound off n m bs :
  rd off n m = Some bs -> 0 <= off /\ off + Z.of_nat n <= Z.of_nat (length m).
Proof.
  unfold rd. destruct (Z.leb_spec 0 off); [|done]. rewrite sublist_lookup_Some'. lia.
Qed.

Lemma rd_cons off n m b bs :
  rd off (S n) m = Some (b :: bs) -> rd off 1 m = Some [b] /\ rd (off + 1) n m = Some bs.
Proof.
  unfold rd. destruct (Z.leb_spec 0 off); [|done]. rewrite (proj2 (Z.leb_le _ _)) by lia.
  rewrite !sublist_lookup_Some'. replace (Z.to_nat (off + 1)) with (Z.to_nat off + 1)%nat by lia.
  intros [Hb Hl]. rewrite <- drop_drop. destruct (drop (Z.to_nat off) m) as [|c l] eqn:E; [done|].
  cbn in Hb. injection Hb as -> ->. cbn. split; split; [done|lia|done|lia].
Qed.

Lemma rd_take off n k m : off + Z.of_nat n <= Z.of_nat k -> rd off n (take k m) = rd off n m.
Proof.
  intros H. unfold rd. destruct (Z.leb_spec 0 off); [|done].
  apply option_eq. intros bs. rewrite !sublist_lookup_Some'.
  rewrite length_take, !take_drop_commute, take_take.
  replace ((Z.to_nat off + n) `min` k)%nat with (Z.to_nat off + n)%nat by lia. split; intros [? ?]; (split; [done|lia]).
Qed.

Lemma wr_all bs m : length bs = length m -> wr 0 bs m = Some bs.
Proof.
  intros H. rewrite wr_Some by lia. change (Z.to_nat 0) with 0%nat. rewrite take_0. cbn [app Nat.add].
  by rewrite drop_ge, app_nil_r by lia.
Qed.

(** A long read is two short ones. *)
Lemma rd_split n m off bs k :
  rd off (n + m) k = Some bs -> rd off n k = Some (take n bs) /\ rd (off + Z.of_nat n) m k = Some (drop n bs).
Proof.
  unfold rd. destruct (Z.leb_spec 0 off); [|done]. rewrite (proj2 (Z.leb_le _ _)) by lia.
  rewrite !sublist_lookup_Some'. intros [-> Hl].
  replace (Z.to_nat (off + Z.of_nat n)) with (Z.to_nat off + n)%nat by lia.
  rewrite take_take, Nat.min_l by lia. split; (split; [|lia]); [done|].
  rewrite <- drop_drop, skipn_firstn_comm. do 2 f_equal. lia.
Qed.

(** Clearing the low bits of an integer. *)
Lemma land_neg_pow2_Z z k : 0 <= k -> Z.land z (- 2 ^ k) = z / 2 ^ k * 2 ^ k.
Proof.
  intros. replace (- 2 ^ k) with (Z.lnot (Z.ones k)) by (unfold Z.lnot; rewrite Z.ones_equiv; lia).
  rewrite <- Z.ldiff_land, Z.ldiff_ones_r by lia.
  by rewrite Z.shiftl_mul_pow2, Z.shiftr_div_pow2 by lia.
Qed.

Lemma aset_Some i x a :
  0 <= i < Z.of_nat (length a) -> aset i x a = Some (<[Z.to_nat i := x]> a).
Proof. intros. unfold aset. by rewrite (proj2 (Z.leb_le _ _)), (proj2 (Z.ltb_lt _ _)) by lia. Qed.

Lemma aget_insert_eq i x a :
  0 <= i < Z.of_nat (length a) -> aget i (<[Z.to_nat i := x]> a) = Some x.
Proof.
  intros. unfold aget. rewrite (proj2 (Z.leb_le _ _)) by lia.
  apply list_lookup_insert_eq. lia.
Qed.

Lemma aget_insert_ne i k x a : 0 <= i -> k <> i -> aget k (<[Z.to_nat i := x]> a) = aget k a.
Proof.
  intros. unfold aget. destruct (0 <=? k) eqn:E; [|done]. apply Z.leb_le in E.
  apply list_lookup_insert_ne. lia.
Qed.

Lemma aget_Some i a : 0 <= i < Z.of_nat (length a) -> exists x, aget i a = Some x.
Proof.
  intros. unfold aget. rewrite (proj2 (Z.leb_le _ _)) by lia.
  apply lookup_lt_is_Some_2. lia.
Qed.

Lemma aget_0 x a : aget 0 (x :: a) = Some x.
Proof. done. Qed.

Lemma aset_0 x y a : aset 0 y (x :: a) = Some (y :: a).
Proof. unfold aset. cbn [length]. rewrite (proj2 (Z.ltb_lt _ _)) by lia. done. Qed.

(** ** State with failure

    Operations that read a cursor return [None] on undefined behaviour. *)

Definition SO (S A : Type) : Type := S -> option (A * S).

#[export] Instance SO_ret {S} : MRet (SO S) := fun A a s => Some (a, s).
#[export] Instance SO_bind {S} : MBind (SO S) :=
  fun A B k m s => match m s with Some (a, s') => k a s' | None => None end.

Definition so_lift {S A} (o : option A) : SO S A := fun s => a ← o; Some (a, s).

(** C pre-increment of a cursor, array updates and the like are state
    transformers that may fail. *)
Definition foldM {A B} (f : B -> A -> option B) : B -> list A -> option B :=
  fix go b l := match l with [] => Some b | a :: l => b' ← f b a; go b' l end.

Lemma foldM_app {A B} (f : B -> A -> option B) b l1 l2 :
  foldM f b (l1 ++ l2) = (b' ← foldM f b l1; foldM f b' l2).
Proof.
  revert b; induction l1 as [|a l1 IH]; intros b; [done|].
  simpl. destruct (f b a); simpl; [apply IH|done].
Qed.
