(* ===== verification/Vector.v ===== *)
(** * The argument vector (dyncall/dyncall_vector.h, dyncall_vector.c)

    [DCVecHead] is the growable-looking, fixed-capacity byte buffer every call
    VM uses for the stack part of a call.  The C object is a header followed by
    the bytes that were allocated with it; [vec_data] is those bytes, so
    [mTotal] (the capacity the owner declared) may be smaller than the
    allocation.  A store outside the allocation is [None]. *)

From S2P Require Export Prelude.

(** ** The data model of a platform *)

Class DataModel := {
  dm_endian : endian;
  dm_size_bits : Z;      (** width of [size_t] and of pointers *)
  dm_long_bits : Z;      (** width of [long] *)
  dm_char_signed : bool; (** signedness of plain [char] *)
}.

Record DCVecHead := {
  mTotal : Z;
  mSize : Z;
  vec_data : list Z;
}.

Section Vector.
Context {DM : DataModel}.

Definition size_t (z : Z) : Z := wrapU dm_size_bits z.

Definition dcVecInit (alloc : list Z) (size : Z) : DCVecHead :=
  {| mTotal := size; mSize := 0; vec_data := alloc |}.

Definition dcVecResize (p : DCVecHead) (size : Z) : DCVecHead :=
  {| mTotal := mTotal p; mSize := size; vec_data := vec_data p |}.

Definition dcVecReset (p : DCVecHead) : DCVecHead := dcVecResize p 0.

Definition dcVecSkip (p : DCVecHead) (size : Z) : DCVecHead :=
  dcVecResize p (size_t (mSize p + size)).

Definition dcVecSize (p : DCVecHead) : Z := mSize p.

(** [dcVecAlign(p,align)]: [(mSize + align-1) & -align], all in [size_t]. *)
Definition dcVecAlign (p : DCVecHead) (align : Z) : DCVecHead :=
  dcVecResize p (Z.land (size_t (mSize p + align - 1)) (size_t (- align))).

(** A store through a pointer into the data area ([dcVecAt] or [dst]). *)
Definition dcVecStore (p : DCVecHead) (off : Z) (bs : list Z) : option DCVecHead :=
  d ← wr off bs (vec_data p);
  Some {| mTotal := mTotal p; mSize := mSize p; vec_data := d |}.

(** [dcVecAppend]: the sizes that have their own [case] are copied by typed
    stores (two of them, high half first, for 8 bytes), all others by memcpy;
    an element that does not fit is dropped. *)
Definition dcVecAppend (pHead : DCVecHead) (pData : list Z) (size : Z) : option DCVecHead :=
  let newSize := size_t (mSize pHead + size) in
  if newSize <=? mTotal pHead then
    let dst := mSize pHead in
    p ← (if size =? 1 then bs ← rd 0 1 pData; dcVecStore pHead dst bs
         else if size =? 2 then bs ← rd 0 2 pData; dcVecStore pHead dst bs
         else if size =? 4 then bs ← rd 0 4 pData; dcVecStore pHead dst bs
         else if size =? 8 then
           hi ← rd 4 4 pData;
           p ← dcVecStore pHead (dst + 4) hi;
           lo ← rd 0 4 pData;
           dcVecStore p dst lo
         else bs ← rd 0 (Z.to_nat size) pData; dcVecStore pHead dst bs);
    Some (dcVecResize p newSize)
  else Some pHead.

(** ** Abstraction: the bytes pushed so far *)

Definition vec_bytes (p : DCVecHead) : list Z := take (Z.to_nat (mSize p)) (vec_data p).

(** A vector whose declared capacity lies inside its allocation and whose
    sizes are [size_t] values. *)
Record vec_wf (p : DCVecHead) : Prop := {
  vwf_size : 0 <= mSize p;
  vwf_total : mTotal p <= Z.of_nat (length (vec_data p));
  vwf_width : 0 < dm_size_bits /\ mTotal p < 2 ^ dm_size_bits;
}.

(** [n] more bytes fit. *)
Definition vec_room (p : DCVecHead) (n : Z) : Prop := mSize p + n <= mTotal p.

#[export] Instance vec_room_dec p n : Decision (vec_room p n).
Proof. unfold vec_room. apply _. Defined.

Lemma size_t_id z : in_u dm_size_bits z -> size_t z = z.
Proof. apply wrapU_id. Qed.

Lemma length_vec_bytes p :
  vec_wf p -> vec_room p 0 -> Z.of_nat (length (vec_bytes p)) = mSize p.
Proof. intros [] H. unfold vec_room, vec_bytes in *. rewrite length_take. lia. Qed.

Lemma dcVecStore_ok p off bs :
  0 <= off -> off + Z.of_nat (length bs) <= Z.of_nat (length (vec_data p)) ->
  dcVecStore p off bs =
  Some {| mTotal := mTotal p; mSize := mSize p;
          vec_data := take (Z.to_nat off) (vec_data p) ++ bs
                      ++ drop (Z.to_nat off + length bs) (vec_data p) |}.
Proof. intros. unfold dcVecStore. by rewrite wr_Some. Qed.

(** A store inside the bytes pushed so far. *)
Lemma dcVecStore_inside p off bs :
  vec_wf p -> vec_room p 0 -> 0 <= off -> off + Z.of_nat (length bs) <= mSize p ->
  exists w, dcVecStore p off bs = Some w /\ vec_wf w /\ mTotal w = mTotal p /\ mSize w = mSize p /\
    length (vec_data w) = length (vec_data p) /\
    rd off (length bs) (vec_bytes w) = Some bs /\
    forall off' n, off' + Z.of_nat n <= off \/ off + Z.of_nat (length bs) <= off' ->
      rd off' n (vec_bytes w) = rd off' n (vec_bytes p).
Proof.
  intros [H1 H2 H3] H0 Ho Hb. unfold vec_room in H0.
  destruct (wr off bs (vec_data p)) as [d|] eqn:Hd; [|by rewrite wr_Some in Hd by lia].
  pose proof (length_wr _ _ _ _ Hd) as Hl. unfold dcVecStore. rewrite Hd. eexists. split; [done|].
  assert (Hlen : forall m : list Z, length m = length (vec_data p) -> length (take (Z.to_nat (mSize p)) m) = Z.to_nat (mSize p))
    by (intros; rewrite length_take; lia).
  split_and!; try done.
  - constructor; cbn; try done. by rewrite Hl.
  - unfold vec_bytes; cbn. rewrite rd_take by lia. by eapply rd_wr_same.
  - intros off' n Hd'. unfold vec_bytes; cbn.
    destruct (decide (off' + Z.of_nat n <= mSize p)).
    + rewrite !rd_take by lia. by eapply rd_wr_other.
    + destruct (rd off' n (take _ d)) eqn:E1; [apply rd_bound in E1; rewrite Hlen in E1; lia|].
      destruct (rd off' n (take _ (vec_data p))) eqn:E2; [apply rd_bound in E2; rewrite Hlen in E2; lia|done].
Qed.

(** The two half stores of the 8-byte case amount to one 8-byte copy. *)
Lemma dcVecStore_halves p off bs :
  length bs = 8%nat -> 0 <= off -> off + 8 <= Z.of_nat (length (vec_data p)) ->
  (p' ← dcVecStore p (off + 4) (drop 4 bs); dcVecStore p' off (take 4 bs)) = dcVecStore p off bs.
Proof.
  intros Hb Ho Hl.
  rewrite dcVecStore_ok by (rewrite ?length_drop; lia). cbn [mbind option_bind].
  rewrite !dcVecStore_ok; cbn [mTotal mSize vec_data];
    rewrite ?length_app, ?length_take, ?length_drop; try lia.
  do 2 f_equal. rewrite Hb. replace (4 `min` 8)%nat with 4%nat by lia.
  replace (Z.to_nat (off + 4)) with (Z.to_nat off + 4)%nat by lia.
  rewrite take_app_le, take_take, Nat.min_l by (rewrite ?length_take; lia).
  f_equal. rewrite drop_app_ge by (rewrite ?length_take; lia).
  rewrite length_take, Nat.min_l, Nat.sub_diag, drop_0 by lia.
  rewrite (app_assoc (take 4 bs)), take_drop. f_equal. f_equal. lia.
Qed.

Lemma dcVecAppend_ok p bs size :
  vec_wf p -> size = Z.of_nat (length bs) -> vec_room p size ->
  exists p', dcVecAppend p bs size = Some p' /\ vec_wf p' /\
    mTotal p' = mTotal p /\ mSize p' = mSize p + size /\
    length (vec_data p') = length (vec_data p) /\
    vec_bytes p' = vec_bytes p ++ bs /\
    drop (Z.to_nat (mSize p')) (vec_data p') = drop (Z.to_nat (mSize p')) (vec_data p).
Proof.
  intros [Hs Ht Hw] -> Hr. unfold vec_room in Hr.
  set (d := take (Z.to_nat (mSize p)) (vec_data p) ++ bs
            ++ drop (Z.to_nat (mSize p) + length bs) (vec_data p)).
  assert (Hd : length d = length (vec_data p)).
  { unfold d. rewrite !length_app, length_take, length_drop. lia. }
  exists {| mTotal := mTotal p; mSize := mSize p + Z.of_nat (length bs); vec_data := d |}.
  assert (Hwhole : forall n, n = length bs -> rd 0 n bs = Some bs)
    by (intros n ->; apply (rd_app 0 _ [] bs); done).
  split_and!; cbn; try done; [|constructor; cbn; lia| |].
  - unfold dcVecAppend. rewrite size_t_id by (unfold in_u; lia).
    rewrite (proj2 (Z.leb_le _ _)) by lia.
    assert (E : dcVecStore p (mSize p) bs
                = Some {| mTotal := mTotal p; mSize := mSize p; vec_data := d |})
      by (apply dcVecStore_ok; lia).
    repeat case_match;
      try (rewrite Hwhole by lia; cbn [mbind option_bind]; rewrite E; done).
    assert (Hb : length bs = 8%nat) by lia.
    assert (rd 4 4 bs = Some (drop 4 bs)) as ->.
    { unfold rd. cbn [Z.leb]. apply sublist_lookup_Some'.
      rewrite take_ge by (rewrite length_drop; lia). split; [done|lia]. }
    assert (rd 0 4 bs = Some (take 4 bs)) as Hlo.
    { apply sublist_lookup_Some'. split; [done|lia]. }
    cbn [mbind option_bind].
    transitivity (p0 ← (p' ← dcVecStore p (mSize p + 4) (drop 4 bs);
                        dcVecStore p' (mSize p) (take 4 bs));
                  Some (dcVecResize p0 (mSize p + Z.of_nat (length bs)))).
    { destruct (dcVecStore p (mSize p + 4) (drop 4 bs)); cbn; by rewrite ?Hlo. }
    rewrite dcVecStore_halves by lia. by rewrite E.
  - unfold vec_bytes; cbn. unfold d.
    rewrite app_assoc, take_app_le by (rewrite length_app, length_take; lia).
    apply take_ge. rewrite length_app, length_take. lia.
  - unfold d. rewrite app_assoc, drop_app_ge by (rewrite length_app, length_take; lia).
    rewrite length_app, length_take, drop_drop. f_equal. lia.
Qed.

(** Only the first [size] bytes behind the data pointer matter. *)
Lemma dcVecAppend_take p bs size :
  0 <= size -> dcVecAppend p bs size = dcVecAppend p (take (Z.to_nat size) bs) size.
Proof.
  intros H. unfold dcVecAppend. destruct (_ <=? _); [|done]. f_equal.
  repeat case_match; rewrite !rd_take by lia; done.
Qed.

Lemma dcVecAppend_full p bs size :
  vec_wf p -> 0 <= size -> mSize p + size < 2 ^ dm_size_bits -> ~ vec_room p size ->
  dcVecAppend p bs size = Some p.
Proof.
  intros [] ?? Hr. unfold vec_room, dcVecAppend in *. rewrite size_t_id by (unfold in_u; lia).
  by rewrite (proj2 (Z.leb_gt _ _)) by lia.
Qed.

(** Whatever happens, an append never moves the fill level by more than its
    size and never changes the capacity. *)
Lemma dcVecAppend_size p bs size p' :
  0 <= mSize p -> 0 <= size -> 0 <= dm_size_bits -> dcVecAppend p bs size = Some p' ->
  mTotal p' = mTotal p /\ mSize p' <= mSize p + size /\ length (vec_data p') = length (vec_data p) /\
  0 <= mSize p'.
Proof.
  intros Hs Hn Hb. unfold dcVecAppend, size_t, wrapU.
  pose proof (pow2_pos _ Hb) as Hw. generalize dependent (2 ^ dm_size_bits). intros w Hw.
  pose proof (Z.mod_le (mSize p + size) w ltac:(lia) ltac:(lia)).
  pose proof (Z.mod_pos_bound (mSize p + size) w ltac:(lia)).
  assert (Hst : forall q off b q', dcVecStore q off b = Some q' ->
            mTotal q' = mTotal q /\ length (vec_data q') = length (vec_data q)).
  { intros q off b q' (d & Hd%length_wr & [= <-])%bind_Some. done. }
  destruct (_ <=? _); [|intros [= <-]; lia].
  intros (q & Hq & [= <-])%bind_Some. cbn.
  enough (mTotal q = mTotal p /\ length (vec_data q) = length (vec_data p)) as [-> ->] by lia.
  repeat case_match;
    repeat match goal with H : (_ ≫= _) = Some _ |- _ => apply bind_Some in H as (? & ? & H) end;
    repeat match goal with H : dcVecStore _ _ _ = Some _ |- _ => apply Hst in H as [??] end;
    split; congruence.
Qed.

(** Moving the size forward exposes whatever bytes the buffer held. *)
Lemma dcVecResize_forward p n :
  vec_wf p -> mSize p <= n <= mTotal p ->
  vec_wf (dcVecResize p n) /\ prefix (vec_bytes p) (vec_bytes (dcVecResize p n)).
Proof.
  intros [] ?. split; [constructor; cbn; lia|]. unfold vec_bytes; cbn.
  exists (drop (Z.to_nat (mSize p)) (take (Z.to_nat n) (vec_data p))).
  rewrite <- (take_drop (Z.to_nat (mSize p)) (take (Z.to_nat n) (vec_data p))) at 1.
  f_equal. rewrite take_take. f_equal. lia.
Qed.

Lemma dcVecSkip_ok p n :
  vec_wf p -> 0 <= n -> vec_room p n ->
  dcVecSkip p n = dcVecResize p (mSize p + n).
Proof.
  intros [] ? Hr. unfold vec_room, dcVecSkip in *. by rewrite size_t_id by (unfold in_u; lia).
Qed.

(** Rounding up to a power of two. *)
Definition align_up (z a : Z) : Z := (z + a - 1) / a * a.

Lemma align_up_bounds z a : 0 < a -> z <= align_up z a < z + a.
Proof.
  intros. unfold align_up. pose proof (Z.div_mod (z + a - 1) a ltac:(lia)).
  pose proof (Z.mod_pos_bound (z + a - 1) a ltac:(lia)). lia.
Qed.

Lemma align_up_least z a m : 0 < a -> (a | m) -> z <= m -> align_up z a <= m.
Proof.
  intros Ha [q ->] Hz. unfold align_up. apply Z.mul_le_mono_nonneg_r; [lia|].
  apply Z.lt_succ_r, Z.div_lt_upper_bound; lia.
Qed.

Lemma align_up_id z a : 0 < a -> z mod a = 0 -> align_up z a = z.
Proof.
  intros Ha Hz. apply Z.le_antisymm; [|apply align_up_bounds; lia].
  apply align_up_least; [lia| |lia]. apply Z.mod_divide; lia.
Qed.

Lemma align_up_mod z a : 0 < a -> align_up z a mod a = 0.
Proof. intros. unfold align_up. apply Z.mod_mul. lia. Qed.

Lemma land_neg_pow2 z w k :
  0 <= k <= w -> in_u w z -> Z.land z (wrapU w (- 2 ^ k)) = z / 2 ^ k * 2 ^ k.
Proof.
  intros Hk Hz. rewrite <- Z.shiftl_mul_pow2, <- Z.shiftr_div_pow2 by lia.
  apply Z.bits_inj'. intros i Hi. rewrite Z.land_spec, Z.shiftl_spec by lia.
  unfold wrapU. destruct (decide (w <= i)) as [Hwi|Hwi].
  - rewrite Z.mod_pow2_bits_high, andb_false_r by lia.
    destruct (decide (i < k)); [lia|]. rewrite Z.shiftr_spec by lia.
    replace (i - k + k) with i by lia. symmetry.
    destruct (decide (z = 0)) as [->|]; [apply Z.bits_0|].
    apply Z.bits_above_log2; [unfold in_u in Hz; lia|].
    apply Z.log2_lt_pow2; [unfold in_u in Hz; lia|].
    apply Z.lt_le_trans with (2 ^ w); [apply Hz|apply Z.pow_le_mono_r; lia].
  - rewrite Z.mod_pow2_bits_low by lia.
    replace (- 2 ^ k) with (Z.lnot (Z.ones k)) by (unfold Z.lnot; rewrite Z.ones_equiv; lia).
    rewrite Z.lnot_spec by lia. destruct (decide (i < k)).
    + rewrite Z.ones_spec_low by lia. rewrite andb_false_r. symmetry.
      apply Z.testbit_neg_r. lia.
    + rewrite Z.ones_spec_high, andb_true_r, Z.shiftr_spec by lia. f_equal. lia.
Qed.

(** Room for one more object of up to eight bytes with natural alignment. *)
Definition fits (v : DCVecHead) : Prop := align_up (mSize v) 8 + 8 <= mTotal v.

Lemma dcVecAlign_ok p k :
  vec_wf p -> 0 <= k < dm_size_bits -> vec_room p (2 ^ k) ->
  dcVecAlign p (2 ^ k) = dcVecResize p (align_up (mSize p) (2 ^ k)).
Proof.
  intros [] Hk Hr. unfold dcVecAlign, vec_room in *. f_equal.
  pose proof (pow2_pos k ltac:(lia)).
  rewrite size_t_id by (unfold in_u; lia). unfold size_t.
  rewrite land_neg_pow2 by (unfold in_u; lia). done.
Qed.

(** Alignment of 64-bit values among words: [size & 4]. *)
Lemma land_4 z : z mod 4 = 0 -> Z.land z 4 = z mod 8.
Proof.
  intros H. pose proof (Z.div_mod z 4 ltac:(lia)) as Hz. rewrite H, Z.add_0_r in Hz.
  set (q := z / 4) in *. clearbody q. subst z.
  replace (4 * q) with (Z.shiftl q 2) by (rewrite Z.shiftl_mul_pow2 by lia; lia).
  change 4 with (Z.shiftl 1 2). rewrite <- Z.shiftl_land, !Z.shiftl_mul_pow2 by lia.
  change (2 ^ 2) with 4. change 1 with (Z.ones 1). rewrite Z.land_ones by lia. change (2 ^ 1) with 2.
  change 8 with (2 * 4). rewrite Z.mul_mod_distr_r by lia. done.
Qed.

Lemma align_up_8 s : s mod 4 = 0 -> align_up s 8 = s + s mod 8.
Proof.
  intros H. apply Z.le_antisymm.
  - apply align_up_least; [lia| |pose proof (Z.mod_pos_bound s 8); lia].
    apply Z.mod_divide; [lia|]. pose proof (Z.div_mod s 4 ltac:(lia)).
    pose proof (Z.div_mod s 8 ltac:(lia)). pose proof (Z.mod_pos_bound s 8 ltac:(lia)).
    assert (s mod 8 = 0 \/ s mod 8 = 4) as [E|E] by lia; rewrite E in *.
    + by rewrite Z.add_0_r.
    + replace (s + 4) with ((s / 8 + 1) * 8) by lia. apply Z.mod_mul. lia.
  - pose proof (align_up_bounds s 8 ltac:(lia)). pose proof (align_up_mod s 8 ltac:(lia)).
    pose proof (Z.div_mod s 8 ltac:(lia)). pose proof (Z.mod_pos_bound s 8 ltac:(lia)).
    pose proof (Z.div_mod (align_up s 8) 8 ltac:(lia)). pose proof (Z.div_mod s 4 ltac:(lia)). lia.
Qed.

Lemma skip_to_8 v :
  vec_wf v -> fits v -> mSize v mod 4 = 0 ->
  dcVecSkip v (Z.land (dcVecSize v) 4) = dcVecResize v (align_up (mSize v) 8).
Proof.
  intros Hw Hf Hm. unfold fits in Hf. pose proof (Z.mod_pos_bound (mSize v) 8 ltac:(lia)).
  rewrite align_up_8 in * by done. unfold dcVecSize. rewrite land_4 by done.
  apply dcVecSkip_ok; [done|lia|]. unfold vec_room. lia.
Qed.

(** C7: for a well-formed argument vector, [dcVecAppend] is total.  If the
    element fits it is appended to the bytes pushed so far, whichever of the
    five copy variants was taken, and nothing behind it changes; otherwise the
    element is dropped and the vector is untouched. *)
Theorem dcVecAppend_fits_or_drops p bs size :
  vec_wf p -> size = Z.of_nat (length bs) -> mSize p + size < 2 ^ dm_size_bits ->
  exists p', dcVecAppend p bs size = Some p' /\ vec_wf p' /\ mTotal p' = mTotal p /\
    if decide (vec_room p size) then
      mSize p' = mSize p + size /\ vec_bytes p' = vec_bytes p ++ bs /\
      drop (Z.to_nat (mSize p')) (vec_data p') = drop (Z.to_nat (mSize p')) (vec_data p)
    else p' = p.
Proof.
  intros Hw Hl Hb. destruct (decide (vec_room p size)) as [Hr|Hr].
  - destruct (dcVecAppend_ok p bs size Hw Hl Hr) as (p' & ? & ? & ? & ? & _ & ? & ?).
    exists p'. done.
  - exists p. split_and!; try done. apply dcVecAppend_full; (done || lia).
Qed.

End Vector.

Lemma dcVecAppend_fits_or_drops_witness :
  let dm := {| dm_endian := LittleEndian; dm_size_bits := 64; dm_long_bits := 64;
               dm_char_signed := true |} in
  let p := dcVecInit [0;0;0;0;0;0;0;0;0;0] 9 in
  exists p', dcVecAppend (DM := dm) p [1;2;3;4;5;6;7;8] 8 = Some p' /\
    vec_wf (DM := dm) p' /\ mTotal p' = 9 /\
    mSize p' = 8 /\ vec_bytes p' = [1;2;3;4;5;6;7;8] /\ drop 8 (vec_data p') = [0;0].
Proof.
  intros dm p.
  destruct (@dcVecAppend_fits_or_drops dm p [1;2;3;4;5;6;7;8] 8
              ltac:(constructor; cbn; lia) eq_refl ltac:(cbn; lia)) as (p' & Hp & Hw & Ht & _).
  exists p'. split_and!; try done; vm_compute in Hp; by injection Hp as <-.
Defined.
