(* ===== verification/Aggregate.v ===== *)
(** * Aggregate descriptions (dyncall/dyncall_aggregate.{h,c},
      dyncall_aggregate_x64.c, dyncall_signature.h)

    [DCaggr] describes a struct or union passed by value: its fields with
    offset, size, alignment and array length, and, on x86-64 System V, the
    classification of its eightbytes.  A nested aggregate is held by value:
    the C code keeps a pointer to a closed, no longer modified description. *)

From S2P Require Export Vector.
From Stdlib Require Export Ascii String.
From stdpp Require Export strings.
#[global] Open Scope Z_scope.

(** ** Signature characters (dyncall_signature.h) *)

Definition DCsigchar := ascii.

Definition DC_SIGCHAR_VOID : DCsigchar := "v"%char.
Definition DC_SIGCHAR_BOOL : DCsigchar := "B"%char.
Definition DC_SIGCHAR_CHAR : DCsigchar := "c"%char.
Definition DC_SIGCHAR_UCHAR : DCsigchar := "C"%char.
Definition DC_SIGCHAR_SHORT : DCsigchar := "s"%char.
Definition DC_SIGCHAR_USHORT : DCsigchar := "S"%char.
Definition DC_SIGCHAR_INT : DCsigchar := "i"%char.
Definition DC_SIGCHAR_UINT : DCsigchar := "I"%char.
Definition DC_SIGCHAR_LONG : DCsigchar := "j"%char.
Definition DC_SIGCHAR_ULONG : DCsigchar := "J"%char.
Definition DC_SIGCHAR_LONGLONG : DCsigchar := "l"%char.
Definition DC_SIGCHAR_ULONGLONG : DCsigchar := "L"%char.
Definition DC_SIGCHAR_FLOAT : DCsigchar := "f"%char.
Definition DC_SIGCHAR_DOUBLE : DCsigchar := "d"%char.
Definition DC_SIGCHAR_POINTER : DCsigchar := "p"%char.
Definition DC_SIGCHAR_STRING : DCsigchar := "Z"%char.
Definition DC_SIGCHAR_AGGREGATE : DCsigchar := "A"%char.
Definition DC_SIGCHAR_ENDARG : DCsigchar := ")"%char.

(** The scalar types a signature can name; [DC_SIGCHAR_VOID], [AGGREGATE] and
    [ENDARG] are not scalar. *)
Inductive cty :=
  | TBool | TChar | TUChar | TShort | TUShort | TInt | TUInt | TLong | TULong
  | TLongLong | TULongLong | TFloat | TDouble | TPointer | TString.

#[export] Instance cty_eq_dec : EqDecision cty.
Proof. solve_decision. Defined.

Definition sigchar_of (t : cty) : DCsigchar :=
  match t with
  | TBool => DC_SIGCHAR_BOOL | TChar => DC_SIGCHAR_CHAR | TUChar => DC_SIGCHAR_UCHAR
  | TShort => DC_SIGCHAR_SHORT | TUShort => DC_SIGCHAR_USHORT | TInt => DC_SIGCHAR_INT
  | TUInt => DC_SIGCHAR_UINT | TLong => DC_SIGCHAR_LONG | TULong => DC_SIGCHAR_ULONG
  | TLongLong => DC_SIGCHAR_LONGLONG | TULongLong => DC_SIGCHAR_ULONGLONG
  | TFloat => DC_SIGCHAR_FLOAT | TDouble => DC_SIGCHAR_DOUBLE
  | TPointer => DC_SIGCHAR_POINTER | TString => DC_SIGCHAR_STRING
  end.

(** The [switch] over a signature character, as far as scalars go. *)
Definition cty_of_sigchar (c : DCsigchar) : option cty :=
  match c with
  | "B"%char => Some TBool | "c"%char => Some TChar | "C"%char => Some TUChar
  | "s"%char => Some TShort | "S"%char => Some TUShort | "i"%char => Some TInt
  | "I"%char => Some TUInt | "j"%char => Some TLong | "J"%char => Some TULong
  | "l"%char => Some TLongLong | "L"%char => Some TULongLong | "f"%char => Some TFloat
  | "d"%char => Some TDouble | "p"%char => Some TPointer | "Z"%char => Some TString
  | _ => None
  end.

Lemma cty_of_sigchar_of t : cty_of_sigchar (sigchar_of t) = Some t.
Proof. by destruct t. Qed.

Section Sizes.
Context {DM : DataModel}.

(** [sizeof] of the C types behind the signature characters. *)
Definition sizeof_cty (t : cty) : Z :=
  match t with
  | TBool => 4
  | TChar | TUChar => 1
  | TShort | TUShort => 2
  | TInt | TUInt => 4
  | TLong | TULong => dm_long_bits / 8
  | TLongLong | TULongLong => 8
  | TFloat => 4
  | TDouble => 8
  | TPointer | TString => dm_size_bits / 8
  end.
End Sizes.

(** ** Descriptions *)

Inductive DCfield := mkField {
  f_offset : Z; f_size : Z; f_alignment : Z; f_array_len : Z;
  f_type : DCsigchar;
  f_sub_aggr : option DCaggr
}
with DCaggr := mkAggr {
  ag_size : Z; ag_n_fields : Z; ag_alignment : Z;
  ag_sysv_classes : list Z;
  ag_fields : list DCfield;
  ag_max : Z (** fields allocated by [dcNewAggr] *)
}.

(** *** x86-64 System V classes (dyncall_aggregate.h) *)

Definition SYSVC_NONE : Z := 0.
Definition SYSVC_INTEGER : Z := 1.
Definition SYSVC_SSE : Z := 2.
Definition SYSVC_MEMORY : Z := 64.
Definition DC_SYSV_MAX_NUM_CLASSES : Z := 8.

Definition dc_merge_sysv_classes (clz new_class : Z) : Z :=
  if clz =? SYSVC_NONE then new_class
  else if new_class =? SYSVC_NONE then clz
  else if (clz =? SYSVC_MEMORY) || (new_class =? SYSVC_MEMORY) then SYSVC_MEMORY
  else if (clz =? SYSVC_INTEGER) || (new_class =? SYSVC_INTEGER) then SYSVC_INTEGER
  else SYSVC_SSE.

(** [int] and the 64-bit [DCsize] of this architecture. *)
Definition int32 (z : Z) : Z := wrapS 32 z.
Definition u64 (z : Z) : Z := wrapU 64 z.

(** [dc_get_sysv_class_for_8byte]: the class of eightbyte [index] of [ag]
    placed at [base_offset].  [None] is a failed assertion or a NULL
    dereference.  Sums and differences of [DCsize] wrap, and [j], [k] and the
    recursive [base_offset] are truncated to [int], as in C. *)
Fixpoint dc_get_sysv_class_for_8byte (ag : DCaggr) (index base_offset : Z) {struct ag} : option Z :=
  let qword_offset := index * 8 in
  let fix fields (fs : list DCfield) (clz : Z) {struct fs} : option Z :=
    match fs with
    | [] => Some clz
    | mkField foff fsize falign flen ftype fsub :: fs =>
      let offset := u64 (base_offset + foff) in
      if (u64 (qword_offset + 8) <=? offset) || (u64 (offset + fsize * flen) <=? u64 qword_offset)
      then fields fs clz
      else if negb (Z.land falign (falign - 1) =? 0) then None
      else if negb (falign =? 0) && negb (Z.land offset (falign - 1) =? 0)
      then Some SYSVC_MEMORY
      else
        new_class ← match cty_of_sigchar ftype with
          | Some (TFloat | TDouble) => Some SYSVC_SSE
          | Some _ => Some SYSVC_INTEGER
          | None =>
            if Ascii.eqb ftype DC_SIGCHAR_AGGREGATE then
              if fsize =? 0 then Some SYSVC_NONE
              else match fsub with
                | None => None
                | Some sub =>
                  let j := int32 (u64 (qword_offset - offset) / fsize) in
                  let k := int32 (8 / fsize + j + 1) in
                  let k := if flen <? u64 k then int32 flen else k in
                  let fix elems (n : nat) (j acc : Z) {struct n} : option Z :=
                    match n with
                    | O => Some acc
                    | S n =>
                      c ← dc_get_sysv_class_for_8byte sub index (int32 (offset + fsize * j));
                      elems n (j + 1) (dc_merge_sysv_classes acc c)
                    end in
                  elems (Z.to_nat (k - j)) j SYSVC_NONE
                end
            else Some SYSVC_NONE
          end;
        if clz =? new_class then fields fs clz
        else fields fs (dc_merge_sysv_classes clz new_class)
    end in
  fields (ag_fields ag) SYSVC_NONE.

(** [dc_get_sysv_classes_for_aggr], the version that is compiled; entries it
    does not reach keep what [malloc] left in them. *)
Definition dc_get_sysv_classes_for_aggr (ag : DCaggr) (classes : list Z) : option (list Z) :=
  if 16 <? ag_size ag then aset 0 SYSVC_MEMORY classes
  else
    c0 ← dc_get_sysv_class_for_8byte ag 0 0;
    classes ← aset 0 c0 classes;
    if negb (c0 =? SYSVC_MEMORY) then
      c1 ← dc_get_sysv_class_for_8byte ag 1 0;
      classes ← aset 1 c1 classes;
      if c1 =? SYSVC_MEMORY then aset 0 SYSVC_MEMORY classes
      else aset 2 SYSVC_NONE classes
    else Some classes.

Section Api.
Context {DM : DataModel}.

(** Whether the build has the System V classification
    ([DC__Arch_AMD64 && DC_UNIX]). *)
Variable sysv : bool.

Definition dcFinishAggr (ag : DCaggr) : option DCaggr :=
  if sysv then
    classes ← dc_get_sysv_classes_for_aggr ag (ag_sysv_classes ag);
    Some (mkAggr (ag_size ag) (ag_n_fields ag) (ag_alignment ag) classes (ag_fields ag) (ag_max ag))
  else Some ag.

(** [junk] is the initial content of the class array. *)
Definition dcNewAggr (junk : list Z) (maxFieldCount size : Z) : DCaggr :=
  mkAggr size 0 0 junk [] maxFieldCount.

(** [dcAggrField]; [sub] is the variadic argument.  [None]: the field does not
    fit the allocation, the type is not handled ([assert(0)]) or the nested
    description is missing.  The offset, an [int] in the API and a [DCsize] in the
    field, is kept as it is given: whatever reads it adds it to another [DCsize]
    and reduces the sum ([u64] above), so that a negative one counts as the number
    it is converted to. *)
Definition dcAggrField (ag : DCaggr) (type : DCsigchar) (offset array_len : Z)
    (sub : option DCaggr) : option DCaggr :=
  if ag_n_fields ag <? ag_max ag then
    '(size, alignment, sub_aggr) ← match cty_of_sigchar type with
      | Some t => Some (sizeof_cty t, sizeof_cty t, None)
      | None =>
        if Ascii.eqb type DC_SIGCHAR_AGGREGATE then
          s ← sub; Some (ag_size s, ag_alignment s, Some s)
        else None
      end;
    let f := mkField offset size alignment array_len type sub_aggr in
    Some (mkAggr (ag_size ag) (ag_n_fields ag + 1)
                 (if ag_alignment ag <? alignment then alignment else ag_alignment ag)
                 (ag_sysv_classes ag) (ag_fields ag ++ [f]) (ag_max ag))
  else None.

Definition dcCloseAggr (ag : DCaggr) : option DCaggr := dcFinishAggr ag.

End Api.
