(* ===== verification/Api.v ===== *)
(** * The call VM interface and public API
      (dyncall/dyncall.h, dyncall_callvm.h, dyncall_callvm_base.c,
       dyncall_api.c)

    A call VM is a state with a virtual function table.  The table is held by
    name and looked up ([deref]), since in C the tables are global constants
    and a VM stores a pointer to one of them.  Operations return [None] where
    the C code would run into undefined behaviour: a NULL table entry, a
    failed assertion, a store outside an object. *)

From S2P Require Export Aggregate.

(** ** Modes and error codes (dyncall.h) *)

Definition DC_CALL_C_DEFAULT : Z := 0.
Definition DC_CALL_C_DEFAULT_THIS : Z := 99.
Definition DC_CALL_C_ELLIPSIS : Z := 100.
Definition DC_CALL_C_ELLIPSIS_VARARGS : Z := 101.
Definition DC_CALL_C_X86_CDECL : Z := 1.
Definition DC_CALL_C_X86_WIN32_STD : Z := 2.
Definition DC_CALL_C_X86_WIN32_FAST_MS : Z := 3.
Definition DC_CALL_C_X86_WIN32_FAST_GNU : Z := 4.
Definition DC_CALL_C_X86_WIN32_THIS_MS : Z := 5.
Definition DC_CALL_C_X86_WIN32_THIS_GNU : Z := DC_CALL_C_X86_CDECL.
Definition DC_CALL_C_X64_WIN64 : Z := 7.
Definition DC_CALL_C_X64_WIN64_THIS : Z := 70.
Definition DC_CALL_C_X64_SYSV : Z := 8.
Definition DC_CALL_C_ARM_ARM_EABI : Z := 10.
Definition DC_CALL_C_ARM_THUMB_EABI : Z := 11.
Definition DC_CALL_C_ARM_ARMHF : Z := 30.
Definition DC_CALL_C_ARM_ARM : Z := 14.
Definition DC_CALL_C_ARM_THUMB : Z := 15.
Definition DC_CALL_C_X86_PLAN9 : Z := 19.
Definition DC_CALL_C_ARM64 : Z := 22.
Definition DC_CALL_SYS_DEFAULT : Z := 200.
Definition DC_CALL_SYS_X86_INT80H_LINUX : Z := 201.
Definition DC_CALL_SYS_X86_INT80H_BSD : Z := 202.
Definition DC_CALL_SYS_X64_SYSCALL_SYSV : Z := 204.

Definition DC_ERROR_NONE : Z := 0.
Definition DC_ERROR_UNSUPPORTED_MODE : Z := -1.

(** Calling convention characters (dyncall_signature.h). *)
Definition DC_SIGCHAR_CC_PREFIX : DCsigchar := "_"%char.
Definition DC_SIGCHAR_CC_DEFAULT : DCsigchar := ":"%char.
Definition DC_SIGCHAR_CC_THISCALL : DCsigchar := "*"%char.
Definition DC_SIGCHAR_CC_ELLIPSIS : DCsigchar := "e"%char.
Definition DC_SIGCHAR_CC_ELLIPSIS_VARARGS : DCsigchar := "."%char.
Definition DC_SIGCHAR_CC_CDECL : DCsigchar := "c"%char.
Definition DC_SIGCHAR_CC_STDCALL : DCsigchar := "s"%char.
Definition DC_SIGCHAR_CC_FASTCALL_MS : DCsigchar := "F"%char.
Definition DC_SIGCHAR_CC_FASTCALL_GNU : DCsigchar := "f"%char.
Definition DC_SIGCHAR_CC_THISCALL_MS : DCsigchar := "+"%char.
Definition DC_SIGCHAR_CC_THISCALL_GNU : DCsigchar := "#"%char.
Definition DC_SIGCHAR_CC_ARM_ARM : DCsigchar := "A"%char.
Definition DC_SIGCHAR_CC_ARM_THUMB : DCsigchar := "a"%char.
Definition DC_SIGCHAR_CC_SYSCALL : DCsigchar := "$"%char.

Definition dcGetModeFromCCSigChar (sig_char : DCsigchar) : Z :=
  match sig_char with
  | ":"%char => DC_CALL_C_DEFAULT
  | "*"%char => DC_CALL_C_DEFAULT_THIS
  | "e"%char => DC_CALL_C_ELLIPSIS
  | "."%char => DC_CALL_C_ELLIPSIS_VARARGS
  | "c"%char => DC_CALL_C_X86_CDECL
  | "s"%char => DC_CALL_C_X86_WIN32_STD
  | "F"%char => DC_CALL_C_X86_WIN32_FAST_MS
  | "f"%char => DC_CALL_C_X86_WIN32_FAST_GNU
  | "+"%char => DC_CALL_C_X86_WIN32_THIS_MS
  | "#"%char => DC_CALL_C_X86_WIN32_THIS_GNU
  | "A"%char => DC_CALL_C_ARM_ARM
  | "a"%char => DC_CALL_C_ARM_THUMB
  | "$"%char => DC_CALL_SYS_DEFAULT
  | _ => DC_ERROR_UNSUPPORTED_MODE
  end.

(** ** Values

    Integers and pointers are mathematical integers in the range of their C
    type; a [float] or [double] is the unsigned integer with its bit pattern. *)

Section Values.
Context {DM : DataModel}.

(** Conversion to a type, applied to an integer (for the floating types: to
    a bit pattern). *)
Definition conv (t : cty) (z : Z) : Z :=
  match t with
  | TBool | TInt => wrapS 32 z
  | TChar => if dm_char_signed then wrapS 8 z else wrapU 8 z
  | TUChar => wrapU 8 z
  | TShort => wrapS 16 z
  | TUShort => wrapU 16 z
  | TUInt => wrapU 32 z
  | TLong => wrapS dm_long_bits z
  | TULong => wrapU dm_long_bits z
  | TLongLong => wrapS 64 z
  | TULongLong => wrapU 64 z
  | TFloat => wrapU 32 z
  | TDouble => wrapU 64 z
  | TPointer | TString => wrapU dm_size_bits z
  end.

(** The values of a type; a [DCbool] is [DC_TRUE] or [DC_FALSE]. *)
Definition val_ok (t : cty) (z : Z) : Prop :=
  match t with
  | TBool => z = 0 \/ z = 1
  | _ => conv t z = z
  end.

Definition ty_bits (t : cty) : Z :=
  match t with
  | TBool | TInt | TUInt | TFloat => 32
  | TChar | TUChar => 8
  | TShort | TUShort => 16
  | TLong | TULong => dm_long_bits
  | TLongLong | TULongLong | TDouble => 64
  | TPointer | TString => dm_size_bits
  end.

Class DataModelOk : Prop := {
  dm_long_ok : dm_long_bits = 32 \/ dm_long_bits = 64;
  dm_size_ok : dm_size_bits = 32 \/ dm_size_bits = 64;
}.

Context {OK : DataModelOk}.

Lemma ty_bits_pos t : 0 < ty_bits t <= 64.
Proof. destruct OK, t; cbn; lia. Qed.

(** Conversion only looks at the low bits, however wide the register or stack
    slot the value went through. *)
Lemma conv_wrapU t w z : ty_bits t <= w -> conv t (wrapU w z) = conv t z.
Proof.
  pose proof (ty_bits_pos t). intros. destruct t; cbn in *; try case_match;
    first [apply wrapS_wrapU | apply wrapU_wrapU]; lia.
Qed.

Lemma conv_wrapS t w z : ty_bits t <= w -> conv t (wrapS w z) = conv t z.
Proof.
  pose proof (ty_bits_pos t). intros. destruct t; cbn in *; try case_match;
    first [apply wrapS_wrapS | apply wrapU_wrapS]; lia.
Qed.

Lemma conv_conv t t' z : ty_bits t <= ty_bits t' -> conv t (conv t' z) = conv t z.
Proof.
  intros. destruct t'; cbn [conv ty_bits] in *; try case_match;
    first [by apply conv_wrapS | by apply conv_wrapU].
Qed.

Lemma val_ok_conv t z : val_ok t z -> conv t z = z.
Proof. destruct t; cbn; try done. by intros [-> | ->]. Qed.

End Values.

Definition is_float (t : cty) : bool :=
  match t with TFloat | TDouble => true | _ => false end.

(** A pointer argument together with the object it points to, for the
    operations that copy from it. *)
Record objptr := { op_addr : Z; op_obj : list Z }.

(** ** The virtual function table (dyncall_callvm.h)

    [K] is what a VM hands to its call kernel (the assembly routine that fills
    registers and stack and jumps), [R] the return registers. *)

Record DCCallVM_vt (VM K R : Type) := {
  vt_free : VM -> unit;
  vt_reset : VM -> option VM;
  vt_mode : VM -> Z -> option VM;
  vt_argBool : VM -> Z -> option VM;
  vt_argChar : VM -> Z -> option VM;
  vt_argShort : VM -> Z -> option VM;
  vt_argInt : VM -> Z -> option VM;
  vt_argLong : VM -> Z -> option VM;
  vt_argLongLong : VM -> Z -> option VM;
  vt_argFloat : VM -> Z -> option VM;
  vt_argDouble : VM -> Z -> option VM;
  vt_argPointer : VM -> Z -> option VM;
  vt_argAggr : option (VM -> option DCaggr -> objptr -> option VM);
  vt_callVoid : VM -> Z -> K;
  vt_callBool : VM -> Z -> K;
  vt_callChar : VM -> Z -> K;
  vt_callShort : VM -> Z -> K;
  vt_callInt : VM -> Z -> K;
  vt_callLong : VM -> Z -> K;
  vt_callLongLong : VM -> Z -> K;
  vt_callFloat : VM -> Z -> K;
  vt_callDouble : VM -> Z -> K;
  vt_callPointer : VM -> Z -> K;
  vt_callAggr : option ((K -> option R) -> VM -> Z -> option DCaggr -> Z -> option (list Z));
  vt_beginAggr : option (VM -> option DCaggr -> option VM);
}.

Arguments Build_DCCallVM_vt {VM K R}.
Arguments vt_free {VM K R}. Arguments vt_reset {VM K R}. Arguments vt_mode {VM K R}.
Arguments vt_argBool {VM K R}. Arguments vt_argChar {VM K R}. Arguments vt_argShort {VM K R}.
Arguments vt_argInt {VM K R}. Arguments vt_argLong {VM K R}. Arguments vt_argLongLong {VM K R}.
Arguments vt_argFloat {VM K R}. Arguments vt_argDouble {VM K R}.
Arguments vt_argPointer {VM K R}. Arguments vt_argAggr {VM K R}.
Arguments vt_callVoid {VM K R}. Arguments vt_callBool {VM K R}. Arguments vt_callChar {VM K R}.
Arguments vt_callShort {VM K R}. Arguments vt_callInt {VM K R}. Arguments vt_callLong {VM K R}.
Arguments vt_callLongLong {VM K R}. Arguments vt_callFloat {VM K R}.
Arguments vt_callDouble {VM K R}. Arguments vt_callPointer {VM K R}.
Arguments vt_callAggr {VM K R}. Arguments vt_beginAggr {VM K R}.

(** What the API needs of a VM: the common header [DCCallVM_] (table pointer
    and error code) and the tables themselves. *)
Class CallVM (VM VT K R : Type) := {
  mVTpointer : VM -> VT;
  mError : VM -> Z;
  deref : VT -> DCCallVM_vt VM K R;
}.

(** ** The public API (dyncall_api.c) *)

Section Api.
Context {VM VT K R : Type} {C : CallVM VM VT K R}.

Definition vtable (vm : VM) : DCCallVM_vt VM K R := deref (mVTpointer vm).

Definition dcReset (vm : VM) : option VM := vt_reset (vtable vm) vm.
Definition dcFree (vm : VM) : unit := vt_free (vtable vm) vm.
Definition dcMode (vm : VM) (mode : Z) : option VM := vt_mode (vtable vm) vm mode.
Definition dcArgBool (vm : VM) (x : Z) : option VM := vt_argBool (vtable vm) vm x.
Definition dcArgChar (vm : VM) (x : Z) : option VM := vt_argChar (vtable vm) vm x.
Definition dcArgShort (vm : VM) (x : Z) : option VM := vt_argShort (vtable vm) vm x.
Definition dcArgInt (vm : VM) (x : Z) : option VM := vt_argInt (vtable vm) vm x.
Definition dcArgLong (vm : VM) (x : Z) : option VM := vt_argLong (vtable vm) vm x.
Definition dcArgLongLong (vm : VM) (x : Z) : option VM := vt_argLongLong (vtable vm) vm x.
Definition dcArgFloat (vm : VM) (x : Z) : option VM := vt_argFloat (vtable vm) vm x.
Definition dcArgDouble (vm : VM) (x : Z) : option VM := vt_argDouble (vtable vm) vm x.
Definition dcArgPointer (vm : VM) (x : Z) : option VM := vt_argPointer (vtable vm) vm x.
Definition dcArgAggr (vm : VM) (ag : option DCaggr) (x : objptr) : option VM :=
  f ← vt_argAggr (vtable vm); f vm ag x.

Definition dcCallVoid (vm : VM) (funcptr : Z) : K := vt_callVoid (vtable vm) vm funcptr.
Definition dcCallBool (vm : VM) (funcptr : Z) : K := vt_callBool (vtable vm) vm funcptr.
Definition dcCallChar (vm : VM) (funcptr : Z) : K := vt_callChar (vtable vm) vm funcptr.
Definition dcCallShort (vm : VM) (funcptr : Z) : K := vt_callShort (vtable vm) vm funcptr.
Definition dcCallInt (vm : VM) (funcptr : Z) : K := vt_callInt (vtable vm) vm funcptr.
Definition dcCallLong (vm : VM) (funcptr : Z) : K := vt_callLong (vtable vm) vm funcptr.
Definition dcCallLongLong (vm : VM) (funcptr : Z) : K := vt_callLongLong (vtable vm) vm funcptr.
Definition dcCallFloat (vm : VM) (funcptr : Z) : K := vt_callFloat (vtable vm) vm funcptr.
Definition dcCallDouble (vm : VM) (funcptr : Z) : K := vt_callDouble (vtable vm) vm funcptr.
Definition dcCallPointer (vm : VM) (funcptr : Z) : K := vt_callPointer (vtable vm) vm funcptr.

(** The call function for each result type. *)
Definition dcCall_as (t : cty) : VM -> Z -> K :=
  match t with
  | TBool => dcCallBool
  | TChar | TUChar => dcCallChar
  | TShort | TUShort => dcCallShort
  | TInt | TUInt => dcCallInt
  | TLong | TULong => dcCallLong
  | TLongLong | TULongLong => dcCallLongLong
  | TFloat => dcCallFloat
  | TDouble => dcCallDouble
  | TPointer | TString => dcCallPointer
  end.

(** [dcBeginCallAggr] tolerates a VM without aggregate support,
    [dcCallAggr] does not. *)
Definition dcBeginCallAggr (vm : VM) (ag : option DCaggr) : option VM :=
  match vt_beginAggr (vtable vm) with
  | Some f => f vm ag
  | None => Some vm
  end.

Definition dcCallAggr (run : K -> option R) (vm : VM) (funcptr : Z) (ag : option DCaggr)
    (ret : Z) : option (Z * list Z) :=
  f ← vt_callAggr (vtable vm);
  out ← f run vm funcptr ag ret;
  Some (ret, out).

Definition dcGetError (vm : VM) : Z := mError vm.

End Api.

(** ** Scalar arguments, by type

    How client code passes a value of each type: the unsigned types and
    strings go through the function of their signed or pointer counterpart
    (dyncall_callf.c spells the casts out). *)

Record arg := Arg { a_ty : cty; a_val : Z }.

Section Args.
Context {DM : DataModel} {VM VT K R : Type} {C : CallVM VM VT K R}.

Definition push_arg (vm : VM) (a : arg) : option VM :=
  let x := a_val a in
  match a_ty a with
  | TBool => dcArgBool vm x
  | TChar => dcArgChar vm x
  | TUChar => dcArgChar vm (conv TChar x)
  | TShort => dcArgShort vm x
  | TUShort => dcArgShort vm (conv TShort x)
  | TInt => dcArgInt vm x
  | TUInt => dcArgInt vm (conv TInt x)
  | TLong => dcArgLong vm x
  | TULong => dcArgLong vm (conv TLong x)
  | TLongLong => dcArgLongLong vm x
  | TULongLong => dcArgLongLong vm (conv TLongLong x)
  | TFloat => dcArgFloat vm x
  | TDouble => dcArgDouble vm x
  | TPointer | TString => dcArgPointer vm x
  end.

(** The values handed to the operations: unsigned types are reinterpreted as
    their signed counterpart, which keeps the value at its own width. *)
Definition api_value (t : cty) (x : Z) : Z :=
  match t with
  | TUChar => conv TChar x
  | TUShort => conv TShort x
  | TUInt => conv TInt x
  | TULong => conv TLong x
  | TULongLong => conv TLongLong x
  | _ => x
  end.

Definition push_args (vm : VM) (l : list arg) : option VM := foldM push_arg vm l.

Definition arg_ok (a : arg) : Prop := val_ok (a_ty a) (a_val a).

(** Argument lists with aggregates: [ag] is the description, or none for a
    non-trivial C++ object, which is passed by pointer. *)
Inductive item :=
  | IScalar (a : arg)
  | IAggr (ag : option DCaggr) (x : objptr).

Definition push_item (vm : VM) (it : item) : option VM :=
  match it with
  | IScalar a => push_arg vm a
  | IAggr ag x => dcArgAggr vm ag x
  end.

Definition push_items (vm : VM) (l : list item) : option VM := foldM push_item vm l.

(** The calls a client makes to set up a call, in any order. *)
Inductive api_op := OpReset | OpMode (mode : Z) | OpArg (a : arg).

Definition run_op (vm : VM) (o : api_op) : option VM :=
  match o with
  | OpReset => dcReset vm
  | OpMode mode => dcMode vm mode
  | OpArg a => push_arg vm a
  end.

Definition run_ops (vm : VM) (l : list api_op) : option VM := foldM run_op vm l.

(** An invariant that each operation keeps while succeeding holds after any
    sequence of operations, which succeeds. *)
Lemma run_ops_inv (I : VM -> Prop) :
  (forall vm o, I vm -> exists vm', run_op vm o = Some vm' /\ I vm') ->
  forall l vm, I vm -> exists vm', run_ops vm l = Some vm' /\ I vm'.
Proof.
  intros HI l. induction l as [|o l IH]; intros vm Hvm; [by exists vm|].
  destruct (HI vm o Hvm) as (vm1 & H1 & Hvm1). destruct (IH vm1 Hvm1) as (vm2 & H2 & ?).
  exists vm2. split; [|done]. unfold run_ops in *. simpl. by rewrite H1.
Qed.

End Args.

Lemma conv_api_value {DM : DataModel} {OK : DataModelOk} t x : conv t (api_value t x) = conv t x.
Proof. destruct t; cbn [api_value]; try done; apply conv_conv; cbn; lia. Qed.

(** ** The argument reader of a callback (dyncallback/dyncall_args.h) *)

Class ArgReader (ARGS : Type) := {
  dcbArg : cty -> SO ARGS Z;
}.

Section Read.
Context {ARGS : Type} {RD : ArgReader ARGS}.

Fixpoint read_args (ts : list cty) (s : ARGS) : option (list arg * ARGS) :=
  match ts with
  | [] => Some ([], s)
  | t :: ts =>
    '(z, s) ← dcbArg t s;
    '(l, s) ← read_args ts s;
    Some (Arg t z :: l, s)
  end.

Lemma read_args_app ts1 ts2 : forall s,
  read_args (ts1 ++ ts2) s =
    ('(l1, s) ← read_args ts1 s; '(l2, s) ← read_args ts2 s; Some (l1 ++ l2, s)).
Proof.
  induction ts1 as [|t ts1 IH]; intros s; cbn [app read_args].
  - cbn [mbind option_bind]. by destruct (read_args ts2 s) as [[]|].
  - destruct (dcbArg t s) as [[z s']|]; [|done]. cbn [mbind option_bind]. rewrite IH.
    destruct (read_args ts1 s') as [[l1 s1]|]; [|done]. cbn [mbind option_bind].
    by destruct (read_args ts2 s1) as [[]|].
Qed.
End Read.

(** ** The contract between a call VM and the matching argument reader

    [cc_at vm vf p]: the reader [p] is positioned where [vm] was, over the
    registers and stack that the finished VM [vf] handed to the callee.  A
    backend proves the one-step laws; the round trip for whole argument lists
    follows. *)

Class CallConv (VM ARGS : Type) {DM : DataModel} {VT K R : Type} `{CallVM VM VT K R}
    `{ArgReader ARGS} := {
  cc_inv : VM -> Prop;             (** well-formed VM states *)
  cc_room : VM -> arg -> Prop;     (** the next argument finds a place *)
  cc_ext : VM -> VM -> Prop;       (** later state keeps what was placed *)
  cc_at : VM -> VM -> ARGS -> Prop;
  cc_ext_refl : forall vm, cc_ext vm vm;
  cc_ext_trans : forall a b c, cc_ext a b -> cc_ext b c -> cc_ext a c;
  cc_step : forall vm a, cc_inv vm -> cc_room vm a -> arg_ok a ->
    exists vm', push_arg vm a = Some vm' /\ cc_inv vm' /\ cc_ext vm vm' /\
      forall vf p, cc_inv vf -> cc_ext vm' vf -> cc_at vm vf p ->
        exists p', dcbArg (a_ty a) p = Some (a_val a, p') /\ cc_at vm' vf p';
}.

Section RoundTrip.
Context `{CC : CallConv VM ARGS}.

(** All arguments of a list find a place, one after the other. *)
Fixpoint room_for (vm : VM) (l : list arg) : Prop :=
  match l with
  | [] => True
  | a :: l => cc_room vm a /\ forall vm', push_arg vm a = Some vm' -> room_for vm' l
  end.

Lemma push_args_inv vm l :
  cc_inv vm -> room_for vm l -> Forall arg_ok l ->
  exists vf, push_args vm l = Some vf /\ cc_inv vf /\ cc_ext vm vf /\
    forall p, cc_at vm vf p -> exists p', read_args (map a_ty l) p = Some (l, p') /\ cc_at vf vf p'.
Proof.
  intros Hi Hr Hl. revert vm Hi Hr. induction Hl as [|a l Ha _ IH]; intros vm Hi Hr.
  - exists vm. split_and!; try done; [apply cc_ext_refl|]. intros p Hp. by exists p.
  - destruct Hr as [Hroom Hr].
    destruct (cc_step vm a Hi Hroom Ha) as (vm1 & Hp & Hi1 & Hx1 & Hread).
    destruct (IH vm1 Hi1 (Hr _ Hp)) as (vf & Hpf & Hif & Hxf & Hrf).
    exists vf. split_and!.
    + unfold push_args. simpl. rewrite Hp. exact Hpf.
    + done.
    + by eapply cc_ext_trans.
    + intros p Hat. destruct (Hread vf p Hif Hxf Hat) as (p1 & Hp1 & Hat1).
      destruct (Hrf p1 Hat1) as (p2 & Hp2 & Hat2). exists p2. split; [|done].
      simpl. rewrite Hp1. simpl. rewrite Hp2. by destruct a.
Qed.

(** A budget that pays for one argument of any type at a time. *)
Lemma room_for_budget (B : nat -> VM -> Prop) :
  (forall n vm a, arg_ok a -> B (S n) vm ->
     cc_room vm a /\ forall vm', push_arg vm a = Some vm' -> B n vm') ->
  forall l vm, Forall arg_ok l -> B (length l) vm -> room_for vm l.
Proof.
  intros HB l. induction l as [|a l IH]; intros vm Hok Hl; [done|].
  apply Forall_cons in Hok as [Ha Hok].
  destruct (HB _ _ a Ha Hl) as [Hr Hn]. split; [done|]. intros vm' Hp. by apply IH, Hn.
Qed.

End RoundTrip.
