(* ===== verification/Platform.v ===== *)
(** * Which implementation a platform gets (dyncall_macros.h, dyncall_config.h and the files
      that only choose others: dyncall_callvm.c, dyncall_call.S, dyncall_callback.c,
      dyncall_args.c, dyncall_thunk.c, dyncall_thunk.h, dyncall_callback_arch.S,
      dyncall_alloc_wx.c, dynload.c, dynload_syms.c)

    dyncall_macros.h turns what a compiler predefines into macros of its own, with
    one of each group defined; such a group is an inductive type here.  Every file
    that chooses does so by conditions of its own on these macros. *)

From S2P Require Export Prelude.
From stdpp Require Export gmap strings.
#[local] Open Scope string_scope.
#[global] Open Scope Z_scope.

(** What the compiler predefines: a macro with the integer it is in a condition.
    None of them is one of dyncall's own. *)
Definition env := gmap string Z.

Definition defined (e : env) (m : string) : bool := bool_decide (is_Some (e !! m)).
Definition any_defined (e : env) (ms : list string) : bool := existsb (defined e) ms.

(** A macro's value in a condition, where an undefined one is 0. *)
Definition value (e : env) (m : string) : Z := default 0 (e !! m).

Lemma value_defined e m : value e m <> 0 -> defined e m = true.
Proof. unfold value, defined. destruct (e !! m); [done|by intros []]. Qed.

Lemma value_undefined e m : defined e m = false -> value e m = 0.
Proof. unfold value, defined. destruct (e !! m); [by rewrite bool_decide_true by eauto|done]. Qed.

(** ** Operating system and compiler *)

Inductive os :=
  | Win64 | Win32 | IPhone | MacOSX | Linux | FreeBSD | OpenBSD | NetBSD | DragonFlyBSD
  | SunOS | NDS | PSP | BeOS | Plan9 | VMS | Minix | OS_UNKNOWN.

#[export] Instance os_eq_dec : EqDecision os.
Proof. solve_decision. Defined.

Definition detect_os (e : env) : os :=
  if any_defined e ["WIN64"; "_WIN64"; "__WIN64__"] then Win64
  else if any_defined e ["WIN32"; "_WIN32"; "__WIN32__"; "__NT__"; "__WINDOWS__"; "_WINDOWS"] then Win32
  else if any_defined e ["__APPLE__"; "__Darwin__"] then
    if defined e "__ENVIRONMENT_IPHONE_OS_VERSION_MIN_REQUIRED__" then IPhone else MacOSX
  else if any_defined e ["__linux__"; "__linux"; "__gnu_linux__"] then Linux
  else if any_defined e ["__FreeBSD__"; "__FreeBSD_kernel__"] then FreeBSD
  else if defined e "__OpenBSD__" then OpenBSD
  else if defined e "__NetBSD__" then NetBSD
  else if defined e "__DragonFly__" then DragonFlyBSD
  else if any_defined e ["__sun__"; "__sun"; "sun"] then SunOS
  else if defined e "__nds__" then NDS
  else if any_defined e ["__psp__"; "PSP"] then PSP
  else if defined e "__HAIKU__" then BeOS
  else if any_defined e ["Plan9"; "__Plan9__"] then Plan9
  else if defined e "__vms" then VMS
  else if defined e "__minix" then Minix
  else OS_UNKNOWN.

Definition windows (o : os) : bool := match o with Win64 | Win32 => true | _ => false end.

(** [DC__OS_Darwin] comes with either of the two. *)
Definition darwin (o : os) : bool := match o with IPhone | MacOSX => true | _ => false end.

Inductive win_env := Cygwin | MinGW.

Definition detect_win_env (e : env) (o : os) : option win_env :=
  if windows o then
    if defined e "__CYGWIN__" then Some Cygwin
    else if any_defined e ["__MINGW32__"; "__MINGW64__"] then Some MinGW
    else None
  else None.

Inductive compiler := C_Intel | C_MSVC | C_CLANG | C_GNU | C_WATCOM | C_PCC | C_SUNPRO | C_UNKNOWN.

#[export] Instance compiler_eq_dec : EqDecision compiler.
Proof. solve_decision. Defined.

Definition detect_compiler (e : env) : compiler :=
  if defined e "__INTEL_COMPILER" then C_Intel
  else if defined e "_MSC_VER" then C_MSVC
  else if any_defined e ["__clang__"; "__llvm__"] then C_CLANG
  else if defined e "__GNUC__" then C_GNU
  else if defined e "__WATCOMC__" then C_WATCOM
  else if defined e "__PCC__" then C_PCC
  else if defined e "__SUNPRO_C" then C_SUNPRO
  else C_UNKNOWN.

(** ** Architecture and ABI *)

Inductive arch :=
  | AMD64 | Intel_x86 | Itanium | PPC64 | PPC32 | MIPS64 | MIPS | ARM | ARM64 | SuperH | Sparc64 | Sparc.

#[export] Instance arch_eq_dec : EqDecision arch.
Proof. solve_decision. Defined.

Definition detect_arch (e : env) : option arch :=
  if any_defined e ["_M_X64_"; "_M_AMD64"; "__amd64__"; "__amd64"; "__x86_64__"; "__x86_64"] then Some AMD64
  else if any_defined e ["_M_IX86"; "__i386__"; "__i486__"; "__i586__"; "__i686__"; "__386__"; "__i386"] then Some Intel_x86
  else if any_defined e ["_M_IA64"; "__ia64__"] then Some Itanium
  else if any_defined e ["_M_PPC"; "__powerpc__"; "__powerpc"; "__POWERPC__"; "__ppc__"; "__power__"] then
    if any_defined e ["__ppc64__"; "_ARCH_PPC64"; "__power64__"; "__powerpc64__"] then Some PPC64 else Some PPC32
  else if any_defined e ["__mips64__"; "__mips64"] then Some MIPS64
  else if any_defined e ["_M_MRX000"; "__mips__"; "__mips"; "_mips"] then Some MIPS
  else if defined e "__arm__" then Some ARM
  else if any_defined e ["_M_ARM64"; "__aarch64__"; "__arm64"; "__arm64__"] then Some ARM64
  else if defined e "__sh__" then Some SuperH
  else if any_defined e ["__sparc"; "__sparc__"] then
    if any_defined e ["__sparcv9"; "__sparc_v9__"; "__sparc64__"; "__arch64__"] then Some Sparc64 else Some Sparc
  else None.

Inductive arm_mode := ARM_ARM | ARM_THUMB.
Inductive arm_abi := ARM_HF | ARM_EABI | ARM_OABI.

Definition detect_arm_mode (e : env) : option arm_mode :=
  if defined e "__arm__" && negb (defined e "__thumb__") then Some ARM_ARM
  else if defined e "__arm__" && defined e "__thumb__" then Some ARM_THUMB
  else None.

Definition detect_arm_abi (e : env) (o : os) (m : option arm_mode) : option arm_abi :=
  match m with
  | Some _ =>
    if defined e "__ARM_EABI__" || bool_decide (o = NDS) then
      if defined e "__ARM_PCS_VFP" && (value e "__ARM_PCS_VFP" =? 1) then Some ARM_HF else Some ARM_EABI
    else if defined e "__APCS_32__" then Some ARM_OABI
    else None
  | None => None
  end.

Inductive mips_abi := MIPS_O32 | MIPS_N64 | MIPS_N32 | MIPS_EABI.

#[export] Instance mips_abi_eq_dec : EqDecision mips_abi.
Proof. solve_decision. Defined.

Definition is_mips (a : option arch) : bool := match a with Some MIPS | Some MIPS64 => true | _ => false end.

Definition detect_mips_abi (e : env) (a : option arch) : option mips_abi :=
  if is_mips a then
    if any_defined e ["_ABIO32"; "__mips_o32"; "_MIPS_ARCH_MIPS1"; "_MIPS_ARCH_MIPS2"] then Some MIPS_O32
    else if any_defined e ["_ABI64"; "__mips_n64"] then Some MIPS_N64
    else if defined e "_ABIN32" then Some MIPS_N32
    else Some MIPS_EABI
  else None.

(** [DC__ABI_HARDFLOAT] or [DC__ABI_SOFTFLOAT], on MIPS only. *)
Definition detect_hardfloat (e : env) (a : option arch) : option bool :=
  if is_mips a then
    Some ((defined e "__mips_hard_float" && (value e "__mips_hard_float" =? 1))
          || negb (defined e "__mips_soft_float") || negb (value e "__mips_soft_float" =? 1))
  else None.

Definition detect_elf_v (e : env) (a : option arch) : option Z :=
  match a with
  | Some PPC64 => Some (if defined e "_CALL_ELF" then value e "_CALL_ELF" else 0)
  | _ => None
  end.

(** ** Byte order, object format, features *)

#[export] Instance endian_eq_dec : EqDecision endian.
Proof. solve_decision. Defined.

(** [m] is defined, and [order] is what it is. *)
Definition order_is (e : env) (order m : string) : bool := defined e m && (value e order =? value e m).

(** Without an answer, neither macro is defined. *)
Definition detect_endian (e : env) (a : option arch) : option endian :=
  if bool_decide (a = Some Intel_x86 \/ a = Some AMD64) then Some LittleEndian
  else if bool_decide (a = Some Sparc) then Some BigEndian
  else if bool_decide (detect_elf_v e a = Some 1)
    || any_defined e ["MIPSEB"; "_MIPSEB"; "__MIPSEB"; "__MIPSEB__"; "__ARMEB__"; "__AARCH64EB__"] then Some BigEndian
  else if bool_decide (detect_elf_v e a = Some 2)
    || any_defined e ["MIPSEL"; "_MIPSEL"; "__MIPSEL"; "__MIPSEL__"; "__ARMEL__"; "__AARCH64EL__"] then Some LittleEndian
  else if bool_decide (a = Some Sparc64) && negb (defined e "__BYTE_ORDER__") then Some BigEndian
  else if any_defined e ["BYTE_ORDER"; "_BYTE_ORDER"; "__BYTE_ORDER__"] then
    if order_is e "BYTE_ORDER" "BIG_ENDIAN" || order_is e "_BYTE_ORDER" "_BIG_ENDIAN"
      || order_is e "__BYTE_ORDER__" "__ORDER_BIG_ENDIAN__" then Some BigEndian
    else if order_is e "BYTE_ORDER" "LITTLE_ENDIAN" || order_is e "_BYTE_ORDER" "_LITTLE_ENDIAN"
      || order_is e "__BYTE_ORDER__" "__ORDER_LITTLE_ENDIAN__" then Some LittleEndian
    else None
  else if (defined e "_BIG_ENDIAN" && (value e "_BIG_ENDIAN" =? 1))
    || (defined e "__BIG_ENDIAN__" && (value e "__BIG_ENDIAN__" =? 1)) then Some BigEndian
  else if (defined e "_LITTLE_ENDIAN" && (value e "_LITTLE_ENDIAN" =? 1))
    || (defined e "__LITTLE_ENDIAN__" && (value e "__LITTLE_ENDIAN__" =? 1)) then Some LittleEndian
  else None.

Inductive os_class := WINDOWS | PLAN9 | OTHER | UNIX.

#[export] Instance os_class_eq_dec : EqDecision os_class.
Proof. solve_decision. Defined.

Definition classify_os (o : os) : os_class :=
  match o with
  | Win32 | Win64 => WINDOWS
  | Plan9 => PLAN9
  | NDS | PSP => OTHER
  | _ => UNIX
  end.

(** [DC__Obj_ELF] comes with its width. *)
Inductive obj_format := Obj_PE | Obj_Mach | Obj_ELF64 | Obj_ELF32 | Obj_Unknown.

Definition detect_obj (e : env) (o : os) (w : option win_env) : obj_format :=
  if windows o || (match w with Some _ => true | None => false end) then Obj_PE
  else if darwin o then Obj_Mach
  else if negb (bool_decide (o = Minix)) || defined e "__ELF__" then
    if any_defined e ["__LP64__"; "_LP64"] then Obj_ELF64 else Obj_ELF32
  else Obj_Unknown.

Definition feature_syscall (o : os) (a : option arch) : bool :=
  match a with
  | Some Intel_x86 | Some PPC32 | Some PPC64 => true
  | Some AMD64 => bool_decide (classify_os o = UNIX)
  | _ => false
  end && negb (match o with MacOSX | Plan9 | NDS | PSP | Minix | SunOS | BeOS => true | _ => false end).

Definition feature_aggr_by_val (a : option arch) : bool := bool_decide (a = Some AMD64).

(** ** The configuration: what dyncall_macros.h defines *)

Record config := {
  c_os : os;
  c_win_env : option win_env;
  c_compiler : compiler;
  c_arch : option arch;
  c_msvcrt : bool;
  c_obj : obj_format;
  c_arm : option arm_mode;
  c_arm_abi : option arm_abi;
  c_mips_abi : option mips_abi;
  c_hardfloat : option bool;
  c_elf_v : option Z;
  c_endian : option endian;
}.

Definition config_of (e : env) : config :=
  let o := detect_os e in
  let a := detect_arch e in
  let w := detect_win_env e o in
  let m := detect_arm_mode e in
  {| c_os := o; c_win_env := w; c_compiler := detect_compiler e; c_arch := a;
     c_msvcrt := defined e "__MSVCRT__"; c_obj := detect_obj e o w;
     c_arm := m; c_arm_abi := detect_arm_abi e o m;
     c_mips_abi := detect_mips_abi e a; c_hardfloat := detect_hardfloat e a;
     c_elf_v := detect_elf_v e a; c_endian := detect_endian e a |}.

(** ** The files that choose *)

(** A file that is included, no file, or an [#error]. *)
Inductive inclusion := Include (file : string) | Nothing | Error.

Definition hf (c : config) : bool := match c_arm_abi c with Some ARM_HF => true | _ => false end.

(** [DC__Arch_RiscV], which no configuration defines, is left out. *)
Definition dyncall_callvm_c (c : config) : inclusion :=
  match c_arch c with
  | Some Intel_x86 => Include "dyncall_callvm_x86.c"
  | Some AMD64 => Include "dyncall_callvm_x64.c"
  | Some PPC32 => Include "dyncall_callvm_ppc32.c"
  | Some PPC64 => Include "dyncall_callvm_ppc64.c"
  | Some MIPS | Some MIPS64 =>
    match c_mips_abi c with
    | Some MIPS_EABI => Include "dyncall_callvm_mips_eabi.c"
    | Some MIPS_O32 => Include "dyncall_callvm_mips_o32.c"
    | Some MIPS_N64 => Include "dyncall_callvm_mips_n64.c"
    | Some MIPS_N32 => Include "dyncall_callvm_mips_n32.c"
    | None => Error
    end
  | a =>
    match c_arm c with
    | Some ARM_ARM => Include (if hf c then "dyncall_callvm_arm32_arm_armhf.c" else "dyncall_callvm_arm32_arm.c")
    | Some ARM_THUMB => Include (if hf c then "dyncall_callvm_arm32_arm_armhf.c" else "dyncall_callvm_arm32_thumb.c")
    | None =>
      match a with
      | Some ARM64 => Include (if darwin (c_os c) then "dyncall_callvm_arm64_apple.c" else "dyncall_callvm_arm64.c")
      | Some Sparc => Include "dyncall_callvm_sparc.c"
      | Some Sparc64 => Include "dyncall_callvm_sparc64.c"
      | _ => Error
      end
    end
  end.

Definition dyncall_call_S (c : config) : inclusion :=
  if bool_decide (c_os c = Plan9) then
    if bool_decide (c_arch c = Some Intel_x86) then Include "dyncall_call_x86_8a.s" else Error
  else if bool_decide (c_compiler c = C_MSVC) then
    match c_os c with
    | Win32 => Include "dyncall_call_x86_generic_masm.asm"
    | Win64 => Include "dyncall_call_x64_generic_masm.asm"
    | _ => Nothing
    end
  else
    match c_arch c with
    | Some Intel_x86 => Include "dyncall_call_x86.S"
    | Some AMD64 => Include "dyncall_call_x64.S"
    | a =>
      match c_arm c with
      | Some ARM_ARM => Include (if hf c then "dyncall_call_arm32_arm_armhf.S" else "dyncall_call_arm32_arm.S")
      | Some ARM_THUMB =>
        Include (if darwin (c_os c) then "dyncall_call_arm32_thumb_apple.s"
                 else if hf c then "dyncall_call_arm32_thumb_armhf.S" else "dyncall_call_arm32_thumb_gas.s")
      | None =>
        match a with
        | Some ARM64 => Include "dyncall_call_arm64.S"
        | Some PPC32 => Include "dyncall_call_ppc32.S"
        | Some PPC64 => Include "dyncall_call_ppc64.S"
        | Some MIPS | Some MIPS64 =>
          Include match c_mips_abi c with
                  | Some MIPS_O32 => "dyncall_call_mips_o32.S"
                  | Some MIPS_N64 => "dyncall_call_mips_n64.S"
                  | Some MIPS_N32 => "dyncall_call_mips_n32.S"
                  | _ => "dyncall_call_mips_eabi_gas.s"
                  end
        | Some Sparc64 => Include "dyncall_call_sparc64.s"
        | Some Sparc => Include "dyncall_call_sparc.s"
        | _ => Error
        end
      end
    end.

Definition dyncall_callback_c (c : config) : inclusion :=
  match c_arch c with
  | Some Intel_x86 => Include "dyncall_callback_x86.c"
  | Some AMD64 => Include "dyncall_callback_x64.c"
  | Some PPC32 => Include "dyncall_callback_ppc32.c"
  | Some PPC64 => Include "dyncall_callback_ppc64.c"
  | Some ARM => Include "dyncall_callback_arm32.c"
  | Some MIPS | Some MIPS64 => Include "dyncall_callback_mips.c"
  | Some Sparc => Include "dyncall_callback_sparc32.c"
  | Some Sparc64 => Include "dyncall_callback_sparc64.c"
  | Some ARM64 => Include "dyncall_callback_arm64.c"
  | _ => Error
  end.

Definition dyncall_args_c (c : config) : inclusion :=
  match c_arch c with
  | Some Intel_x86 => Include "dyncall_args_x86.c"
  | Some AMD64 => Include "dyncall_args_x64.c"
  | Some PPC32 => Include (if darwin (c_os c) then "dyncall_args_ppc32.c" else "dyncall_args_ppc32_sysv.c")
  | Some PPC64 => Include "dyncall_args_ppc64.c"
  | Some ARM => Include "dyncall_args_arm32.c"
  | Some MIPS => Include match c_mips_abi c with Some MIPS_O32 => "dyncall_args_mips_o32.c" | _ => "dyncall_args_mips.c" end
  | Some MIPS64 => Include "dyncall_args_mips64.c"
  | Some Sparc => Include "dyncall_args_sparc32.c"
  | Some Sparc64 => Include "dyncall_args_sparc64.c"
  | Some ARM64 => Include (if darwin (c_os c) then "dyncall_args_arm64_apple.c" else "dyncall_args_arm64.c")
  | _ => Nothing
  end.

Definition dyncall_thunk_c (c : config) : inclusion :=
  match c_arch c with
  | Some Intel_x86 => Include "dyncall_thunk_x86.c"
  | Some AMD64 => Include "dyncall_thunk_x64.c"
  | Some PPC32 => Include (if darwin (c_os c) then "dyncall_thunk_ppc32.c" else "dyncall_thunk_ppc32_sysv.c")
  | Some PPC64 => Include "dyncall_thunk_ppc64.c"
  | Some ARM => Include "dyncall_thunk_arm32.c"
  | Some MIPS => Include "dyncall_thunk_mips.c"
  | Some MIPS64 => Include "dyncall_thunk_mips64.c"
  | Some Sparc => Include "dyncall_thunk_sparc32.c"
  | Some Sparc64 => Include "dyncall_thunk_sparc64.c"
  | Some ARM64 => Include "dyncall_thunk_arm64.c"
  | _ => Nothing
  end.

Definition dyncall_thunk_h (c : config) : inclusion :=
  match c_arch c with
  | Some Intel_x86 => Include "dyncall_thunk_x86.h"
  | Some AMD64 => Include "dyncall_thunk_x64.h"
  | Some PPC32 => Include "dyncall_thunk_ppc32.h"
  | Some PPC64 => Include "dyncall_thunk_ppc64.h"
  | Some ARM => Include "dyncall_thunk_arm32.h"
  | Some MIPS => Include "dyncall_thunk_mips.h"
  | Some MIPS64 => Include "dyncall_thunk_mips64.h"
  | Some Sparc => Include "dyncall_thunk_sparc32.h"
  | Some Sparc64 => Include "dyncall_thunk_sparc64.h"
  | Some ARM64 => Include "dyncall_thunk_arm64.h"
  | _ => Nothing
  end.

(** The entry of callbacks on Darwin, and elsewhere. *)
Definition callback_arch_darwin (c : config) : inclusion :=
  match c_arch c with
  | Some PPC32 => Include "dyncall_callback_ppc32_apple.s"
  | a =>
    match c_arm c with
    | Some ARM_ARM => Include "dyncall_callback_arm32_arm_apple.s"
    | Some ARM_THUMB => Include "dyncall_callback_arm32_thumb_apple.S"
    | None =>
      match a with
      | Some AMD64 => Include "dyncall_callback_x64.S"
      | Some Intel_x86 => Include "dyncall_callback_x86.S"
      | Some ARM64 => Include "dyncall_callback_arm64.S"
      | _ => Error
      end
    end
  end.

Definition callback_arch_other (c : config) : inclusion :=
  match c_arch c with
  | Some Intel_x86 => Include "dyncall_callback_x86.S"
  | Some AMD64 => Include "dyncall_callback_x64.S"
  | Some PPC32 => Include "dyncall_callback_ppc32.S"
  | Some PPC64 => Include "dyncall_callback_ppc64.S"
  | Some MIPS | Some MIPS64 =>
    match c_mips_abi c with
    | Some MIPS_O32 => Include "dyncall_callback_mips_o32.S"
    | Some MIPS_N64 => Include "dyncall_callback_mips_n64.S"
    | Some MIPS_N32 => Include "dyncall_callback_mips_n32.S"
    | Some MIPS_EABI => Include "dyncall_callback_mips_eabi_gas.s"
    | None => Error
    end
  | a =>
    match c_arm c with
    | Some ARM_ARM => Include "dyncall_callback_arm32_arm_gas.S"
    | Some ARM_THUMB => Include "dyncall_callback_arm32_thumb_gas.S"
    | None =>
      match a with
      | Some Sparc => Include "dyncall_callback_sparc32.s"
      | Some Sparc64 => Include "dyncall_callback_sparc64.s"
      | Some ARM64 => Include "dyncall_callback_arm64.S"
      | _ => Nothing
      end
    end
  end.

Definition dyncall_callback_arch_S (c : config) : inclusion :=
  if bool_decide (c_compiler c = C_MSVC) then
    match c_os c with
    | Win32 => Include "dyncall_callback_x86_masm.asm"
    | Win64 => Include "dyncall_callback_x64_masm.asm"
    | _ => Nothing
    end
  else if bool_decide (c_os c = Plan9) then
    if bool_decide (c_arch c = Some Intel_x86) then Include "dyncall_callback_x86_8a.s" else Error
  else if darwin (c_os c) then callback_arch_darwin c
  else callback_arch_other c.

Definition dyncall_alloc_wx_c (c : config) : inclusion :=
  match classify_os (c_os c) with
  | WINDOWS => Include "dyncall_alloc_wx_win32.c"
  | UNIX => Include "dyncall_alloc_wx_mmap.c"
  | _ => Include "dyncall_alloc_wx_malloc.c"
  end.

Definition dynload_c (c : config) : inclusion :=
  match classify_os (c_os c) with
  | WINDOWS => Include "dynload_windows.c"
  | UNIX => Include "dynload_unix.c"
  | _ => Nothing
  end.

Definition dynload_syms_c (c : config) : inclusion :=
  match c_obj c with
  | Obj_PE => Include "dynload_syms_pe.c"
  | Obj_Mach => Include "dynload_syms_mach-o.c"
  | Obj_ELF64 | Obj_ELF32 => Include "dynload_syms_elf.c"
  | Obj_Unknown => Nothing
  end.

#[export] Instance inclusion_eq_dec : EqDecision inclusion.
Proof. solve_decision. Defined.

(** ** Backends

    The parts of a backend - call VM, call kernel, callbacks, argument reader, thunk
    with its header, callback entry - that are written for each other.  There is none
    for n32 on MIPS: the callback entry in dyncall_callback_mips_n32.S is a label
    without an instruction, and dyncall_args_mips64.c says that n32 is untested. *)
Definition backend_x86 : list string :=
  ["dyncall_callvm_x86.c"; "dyncall_call_x86.S"; "dyncall_callback_x86.c"; "dyncall_args_x86.c";
   "dyncall_thunk_x86.c"; "dyncall_thunk_x86.h"; "dyncall_callback_x86.S"].
Definition backend_x86_plan9 : list string :=
  ["dyncall_callvm_x86.c"; "dyncall_call_x86_8a.s"; "dyncall_callback_x86.c"; "dyncall_args_x86.c";
   "dyncall_thunk_x86.c"; "dyncall_thunk_x86.h"; "dyncall_callback_x86_8a.s"].
Definition backend_x86_msvc : list string :=
  ["dyncall_callvm_x86.c"; "dyncall_call_x86_generic_masm.asm"; "dyncall_callback_x86.c"; "dyncall_args_x86.c";
   "dyncall_thunk_x86.c"; "dyncall_thunk_x86.h"; "dyncall_callback_x86_masm.asm"].
Definition backend_x64 : list string :=
  ["dyncall_callvm_x64.c"; "dyncall_call_x64.S"; "dyncall_callback_x64.c"; "dyncall_args_x64.c";
   "dyncall_thunk_x64.c"; "dyncall_thunk_x64.h"; "dyncall_callback_x64.S"].
Definition backend_x64_msvc : list string :=
  ["dyncall_callvm_x64.c"; "dyncall_call_x64_generic_masm.asm"; "dyncall_callback_x64.c"; "dyncall_args_x64.c";
   "dyncall_thunk_x64.c"; "dyncall_thunk_x64.h"; "dyncall_callback_x64_masm.asm"].
Definition backend_ppc32_darwin : list string :=
  ["dyncall_callvm_ppc32.c"; "dyncall_call_ppc32.S"; "dyncall_callback_ppc32.c"; "dyncall_args_ppc32.c";
   "dyncall_thunk_ppc32.c"; "dyncall_thunk_ppc32.h"; "dyncall_callback_ppc32_apple.s"].
Definition backend_ppc32 : list string :=
  ["dyncall_callvm_ppc32.c"; "dyncall_call_ppc32.S"; "dyncall_callback_ppc32.c"; "dyncall_args_ppc32_sysv.c";
   "dyncall_thunk_ppc32_sysv.c"; "dyncall_thunk_ppc32.h"; "dyncall_callback_ppc32.S"].
Definition backend_ppc64 : list string :=
  ["dyncall_callvm_ppc64.c"; "dyncall_call_ppc64.S"; "dyncall_callback_ppc64.c"; "dyncall_args_ppc64.c";
   "dyncall_thunk_ppc64.c"; "dyncall_thunk_ppc64.h"; "dyncall_callback_ppc64.S"].
Definition backend_mips_o32 : list string :=
  ["dyncall_callvm_mips_o32.c"; "dyncall_call_mips_o32.S"; "dyncall_callback_mips.c"; "dyncall_args_mips_o32.c";
   "dyncall_thunk_mips.c"; "dyncall_thunk_mips.h"; "dyncall_callback_mips_o32.S"].
Definition backend_mips_eabi : list string :=
  ["dyncall_callvm_mips_eabi.c"; "dyncall_call_mips_eabi_gas.s"; "dyncall_callback_mips.c"; "dyncall_args_mips.c";
   "dyncall_thunk_mips.c"; "dyncall_thunk_mips.h"; "dyncall_callback_mips_eabi_gas.s"].
Definition backend_mips_n64 : list string :=
  ["dyncall_callvm_mips_n64.c"; "dyncall_call_mips_n64.S"; "dyncall_callback_mips.c"; "dyncall_args_mips64.c";
   "dyncall_thunk_mips64.c"; "dyncall_thunk_mips64.h"; "dyncall_callback_mips_n64.S"].
Definition backend_arm : list string :=
  ["dyncall_callvm_arm32_arm.c"; "dyncall_call_arm32_arm.S"; "dyncall_callback_arm32.c"; "dyncall_args_arm32.c";
   "dyncall_thunk_arm32.c"; "dyncall_thunk_arm32.h"; "dyncall_callback_arm32_arm_gas.S"].
Definition backend_arm_darwin : list string :=
  ["dyncall_callvm_arm32_arm.c"; "dyncall_call_arm32_arm.S"; "dyncall_callback_arm32.c"; "dyncall_args_arm32.c";
   "dyncall_thunk_arm32.c"; "dyncall_thunk_arm32.h"; "dyncall_callback_arm32_arm_apple.s"].
Definition backend_thumb : list string :=
  ["dyncall_callvm_arm32_thumb.c"; "dyncall_call_arm32_thumb_gas.s"; "dyncall_callback_arm32.c"; "dyncall_args_arm32.c";
   "dyncall_thunk_arm32.c"; "dyncall_thunk_arm32.h"; "dyncall_callback_arm32_thumb_gas.S"].
Definition backend_thumb_darwin : list string :=
  ["dyncall_callvm_arm32_thumb.c"; "dyncall_call_arm32_thumb_apple.s"; "dyncall_callback_arm32.c"; "dyncall_args_arm32.c";
   "dyncall_thunk_arm32.c"; "dyncall_thunk_arm32.h"; "dyncall_callback_arm32_thumb_apple.S"].
Definition backend_armhf : list string :=
  ["dyncall_callvm_arm32_arm_armhf.c"; "dyncall_call_arm32_arm_armhf.S"; "dyncall_callback_arm32.c"; "dyncall_args_arm32.c";
   "dyncall_thunk_arm32.c"; "dyncall_thunk_arm32.h"; "dyncall_callback_arm32_arm_gas.S"].
Definition backend_thumbhf : list string :=
  ["dyncall_callvm_arm32_arm_armhf.c"; "dyncall_call_arm32_thumb_armhf.S"; "dyncall_callback_arm32.c"; "dyncall_args_arm32.c";
   "dyncall_thunk_arm32.c"; "dyncall_thunk_arm32.h"; "dyncall_callback_arm32_thumb_gas.S"].
Definition backend_arm64 : list string :=
  ["dyncall_callvm_arm64.c"; "dyncall_call_arm64.S"; "dyncall_callback_arm64.c"; "dyncall_args_arm64.c";
   "dyncall_thunk_arm64.c"; "dyncall_thunk_arm64.h"; "dyncall_callback_arm64.S"].
Definition backend_arm64_darwin : list string :=
  ["dyncall_callvm_arm64_apple.c"; "dyncall_call_arm64.S"; "dyncall_callback_arm64.c"; "dyncall_args_arm64_apple.c";
   "dyncall_thunk_arm64.c"; "dyncall_thunk_arm64.h"; "dyncall_callback_arm64.S"].
Definition backend_sparc : list string :=
  ["dyncall_callvm_sparc.c"; "dyncall_call_sparc.s"; "dyncall_callback_sparc32.c"; "dyncall_args_sparc32.c";
   "dyncall_thunk_sparc32.c"; "dyncall_thunk_sparc32.h"; "dyncall_callback_sparc32.s"].
Definition backend_sparc64 : list string :=
  ["dyncall_callvm_sparc64.c"; "dyncall_call_sparc64.s"; "dyncall_callback_sparc64.c"; "dyncall_args_sparc64.c";
   "dyncall_thunk_sparc64.c"; "dyncall_thunk_sparc64.h"; "dyncall_callback_sparc64.s"].

Definition backends : list (list string) :=
  [backend_x86; backend_x86_plan9; backend_x86_msvc; backend_x64; backend_x64_msvc;
   backend_ppc32_darwin; backend_ppc32; backend_ppc64; backend_mips_o32; backend_mips_eabi;
   backend_mips_n64; backend_arm; backend_arm_darwin; backend_thumb; backend_thumb_darwin;
   backend_armhf; backend_thumbhf; backend_arm64; backend_arm64_darwin; backend_sparc;
   backend_sparc64].

(** What the seven files choose, each on its own. *)
Definition selection (c : config) : list inclusion :=
  [dyncall_callvm_c c; dyncall_call_S c; dyncall_callback_c c; dyncall_args_c c; dyncall_thunk_c c; dyncall_thunk_h c;
   dyncall_callback_arch_S c].

(** The files for the memory of callbacks, for libraries and for their symbols. *)
Definition system_selection (c : config) : list inclusion := [dyncall_alloc_wx_c c; dynload_c c; dynload_syms_c c].

(** ** Platforms

    A platform is a system, a processor with its ABI, and whether the tools are
    those of Microsoft.  What the compilers for it predefine, and which files it
    needs, is said here without the header. *)
Inductive cpu :=
  | C_x86 | C_x64 | C_ia64 | C_ppc (wide : bool) | C_mips (wide : bool) (abi : mips_abi)
  | C_arm (thumb hard_float : bool) | C_arm64 | C_sh | C_sparc (wide : bool).

Inductive family := F_x64 | F_x86 | F_ia64 | F_ppc | F_mips | F_arm | F_arm64 | F_sh | F_sparc.

#[export] Instance family_eq_dec : EqDecision family.
Proof. solve_decision. Defined.

Definition family_of (c : cpu) : family :=
  match c with
  | C_x86 => F_x86 | C_x64 => F_x64 | C_ia64 => F_ia64 | C_ppc _ => F_ppc | C_mips _ _ => F_mips
  | C_arm _ _ => F_arm | C_arm64 => F_arm64 | C_sh => F_sh | C_sparc _ => F_sparc
  end.

(** The macros by which compilers tell the family of the processor; and those of
    the 64-bit members of a family. *)
Definition wide_ppc : list string := ["__ppc64__"; "_ARCH_PPC64"; "__power64__"; "__powerpc64__"].
Definition wide_mips : list string := ["__mips64__"; "__mips64"].
Definition wide_sparc : list string := ["__sparcv9"; "__sparc_v9__"; "__sparc64__"; "__arch64__"].

Definition family_macros (f : family) : list string :=
  match f with
  | F_x64 => ["_M_X64_"; "_M_AMD64"; "__amd64__"; "__amd64"; "__x86_64__"; "__x86_64"]
  | F_x86 => ["_M_IX86"; "__i386__"; "__i486__"; "__i586__"; "__i686__"; "__386__"; "__i386"]
  | F_ia64 => ["_M_IA64"; "__ia64__"]
  | F_ppc => ["_M_PPC"; "__powerpc__"; "__powerpc"; "__POWERPC__"; "__ppc__"; "__power__"]
  | F_mips => wide_mips ++ ["_M_MRX000"; "__mips__"; "__mips"; "_mips"]
  | F_arm => ["__arm__"]
  | F_arm64 => ["_M_ARM64"; "__aarch64__"; "__arm64"; "__arm64__"]
  | F_sh => ["__sh__"]
  | F_sparc => ["__sparc"; "__sparc__"]
  end.

Definition mips_abi_macros (abi : mips_abi) : list string :=
  match abi with
  | MIPS_O32 => ["_ABIO32"; "__mips_o32"; "_MIPS_ARCH_MIPS1"; "_MIPS_ARCH_MIPS2"]
  | MIPS_N64 => ["_ABI64"; "__mips_n64"]
  | MIPS_N32 => ["_ABIN32"]
  | MIPS_EABI => []
  end.

(** A compiler for a processor: a macro of its family and none of another one,
    and the macros of its width, ABI and instruction set. *)
Record compiles_for (e : env) (c : cpu) : Prop := {
  cf_family : any_defined e (family_macros (family_of c)) = true;
  cf_others : forall f, f <> family_of c -> any_defined e (family_macros f) = false;
  cf_variant : match c with
    | C_ppc w => any_defined e wide_ppc = w
    | C_sparc w => any_defined e wide_sparc = w
    | C_mips w abi => any_defined e wide_mips = w /\
        (abi <> MIPS_EABI -> any_defined e (mips_abi_macros abi) = true) /\
        forall abi', abi' <> abi -> any_defined e (mips_abi_macros abi') = false
    | C_arm thumb hf => defined e "__thumb__" = thumb /\ defined e "__ARM_EABI__" = true /\
        (value e "__ARM_PCS_VFP" =? 1) = hf
    | _ => True
    end;
}.

Definition os_macros (o : os) : list string :=
  match o with
  | Win64 => ["WIN64"; "_WIN64"; "__WIN64__"]
  | Win32 => ["WIN32"; "_WIN32"; "__WIN32__"; "__NT__"; "__WINDOWS__"; "_WINDOWS"]
  | IPhone | MacOSX => ["__APPLE__"; "__Darwin__"]
  | Linux => ["__linux__"; "__linux"; "__gnu_linux__"]
  | FreeBSD => ["__FreeBSD__"; "__FreeBSD_kernel__"]
  | OpenBSD => ["__OpenBSD__"] | NetBSD => ["__NetBSD__"] | DragonFlyBSD => ["__DragonFly__"]
  | SunOS => ["__sun__"; "__sun"; "sun"]
  | NDS => ["__nds__"] | PSP => ["__psp__"; "PSP"] | BeOS => ["__HAIKU__"] | Plan9 => ["Plan9"; "__Plan9__"]
  | VMS => ["__vms"] | Minix => ["__minix"]
  | OS_UNKNOWN => []
  end.

(** A compiler for a system: 64-bit Windows may have the macros of 32 bits as
    well, and Minix is one with ELF. *)
Record runs_on (e : env) (o : os) : Prop := {
  ro_os : o <> OS_UNKNOWN -> any_defined e (os_macros o) = true;
  ro_others : forall o', os_macros o' <> os_macros o -> (o, o') <> (Win64, Win32) -> any_defined e (os_macros o') = false;
  ro_iphone : darwin o = true -> defined e "__ENVIRONMENT_IPHONE_OS_VERSION_MIN_REQUIRED__" = bool_decide (o = IPhone);
  ro_minix : o = Minix -> defined e "__ELF__" = true;
}.

Definition microsoft (e : env) : bool := negb (defined e "__INTEL_COMPILER") && defined e "_MSC_VER".

(** The backend of a platform.  The assembler of Microsoft knows Windows on x86 and
    x64; Plan 9 is x86 only; on Darwin there are no 64-bit PowerPC, MIPS and SPARC
    and no hard float on 32-bit ARM; on MIPS the ABI has to be one of the
    architecture's width, and EABI is for 32 bits. *)
Definition backend_of (msvc : bool) (o : os) (c : cpu) : option (list string) :=
  if msvc then
    match c, o with
    | C_x86, Win32 => Some backend_x86_msvc
    | C_x64, Win64 => Some backend_x64_msvc
    | _, _ => None
    end
  else match o with
  | Plan9 => match c with C_x86 => Some backend_x86_plan9 | _ => None end
  | IPhone | MacOSX =>
    match c with
    | C_x86 => Some backend_x86
    | C_x64 => Some backend_x64
    | C_ppc false => Some backend_ppc32_darwin
    | C_arm thumb false => Some (if thumb : bool then backend_thumb_darwin else backend_arm_darwin)
    | C_arm64 => Some backend_arm64_darwin
    | _ => None
    end
  | _ =>
    match c with
    | C_x86 => Some backend_x86
    | C_x64 => Some backend_x64
    | C_ppc w => Some (if w : bool then backend_ppc64 else backend_ppc32)
    | C_mips false MIPS_O32 => Some backend_mips_o32
    | C_mips false MIPS_EABI => Some backend_mips_eabi
    | C_mips true MIPS_N64 => Some backend_mips_n64
    | C_arm false hf => Some (if hf : bool then backend_armhf else backend_arm)
    | C_arm true hf => Some (if hf : bool then backend_thumbhf else backend_thumb)
    | C_arm64 => Some backend_arm64
    | C_sparc w => Some (if w : bool then backend_sparc64 else backend_sparc)
    | _ => None
    end
  end.

(** The files for the memory of callbacks, libraries and symbols; none where
    libraries cannot be loaded.  Other systems are taken for Unix with ELF. *)
Definition system_files (o : os) : option (list string) :=
  match o with
  | Win64 | Win32 => Some ["dyncall_alloc_wx_win32.c"; "dynload_windows.c"; "dynload_syms_pe.c"]
  | IPhone | MacOSX => Some ["dyncall_alloc_wx_mmap.c"; "dynload_unix.c"; "dynload_syms_mach-o.c"]
  | Plan9 | NDS | PSP => None
  | _ => Some ["dyncall_alloc_wx_mmap.c"; "dynload_unix.c"; "dynload_syms_elf.c"]
  end.

(** *** What the header makes of a platform *)

Lemma any_defined_app e l l' : any_defined e (l ++ l') = any_defined e l || any_defined e l'.
Proof. apply existsb_app. Qed.

Lemma detect_os_macros e :
  detect_os e
  = if any_defined e (os_macros Win64) then Win64
    else if any_defined e (os_macros Win32) then Win32
    else if any_defined e (os_macros MacOSX) then
      if defined e "__ENVIRONMENT_IPHONE_OS_VERSION_MIN_REQUIRED__" then IPhone else MacOSX
    else if any_defined e (os_macros Linux) then Linux
    else if any_defined e (os_macros FreeBSD) then FreeBSD
    else if any_defined e (os_macros OpenBSD) then OpenBSD
    else if any_defined e (os_macros NetBSD) then NetBSD
    else if any_defined e (os_macros DragonFlyBSD) then DragonFlyBSD
    else if any_defined e (os_macros SunOS) then SunOS
    else if any_defined e (os_macros NDS) then NDS
    else if any_defined e (os_macros PSP) then PSP
    else if any_defined e (os_macros BeOS) then BeOS
    else if any_defined e (os_macros Plan9) then Plan9
    else if any_defined e (os_macros VMS) then VMS
    else if any_defined e (os_macros Minix) then Minix
    else OS_UNKNOWN.
Proof. unfold detect_os, any_defined. cbn [os_macros existsb]. by rewrite !orb_false_r. Qed.

Lemma os_detected e o : runs_on e o -> detect_os e = o.
Proof.
  intros [Ho Hn Hi _].
  assert (H : forall o', o' <> OS_UNKNOWN -> (o, o') <> (Win64, Win32) ->
            any_defined e (os_macros o') = bool_decide (os_macros o' = os_macros o)).
  { intros o' Hu Hw. destruct (decide (os_macros o' = os_macros o)) as [E|E].
    - rewrite bool_decide_eq_true_2, E by done. apply Ho. intros ->. by destruct o'.
    - rewrite bool_decide_eq_false_2 by done. by apply Hn. }
  rewrite detect_os_macros. destruct o; try specialize (Hi eq_refl); rewrite ?H, ?Hi by done; vm_compute; reflexivity.
Qed.

Definition arch_of (c : cpu) : arch :=
  match c with
  | C_x86 => Intel_x86 | C_x64 => AMD64 | C_ia64 => Itanium | C_ppc w => if w : bool then PPC64 else PPC32
  | C_mips w _ => if w : bool then MIPS64 else MIPS | C_arm _ _ => ARM | C_arm64 => ARM64 | C_sh => SuperH
  | C_sparc w => if w : bool then Sparc64 else Sparc
  end.

Lemma detect_arch_macros e :
  detect_arch e
  = if any_defined e (family_macros F_x64) then Some AMD64
    else if any_defined e (family_macros F_x86) then Some Intel_x86
    else if any_defined e (family_macros F_ia64) then Some Itanium
    else if any_defined e (family_macros F_ppc) then if any_defined e wide_ppc then Some PPC64 else Some PPC32
    else if any_defined e (family_macros F_mips) then if any_defined e wide_mips then Some MIPS64 else Some MIPS
    else if any_defined e (family_macros F_arm) then Some ARM
    else if any_defined e (family_macros F_arm64) then Some ARM64
    else if any_defined e (family_macros F_sh) then Some SuperH
    else if any_defined e (family_macros F_sparc) then if any_defined e wide_sparc then Some Sparc64 else Some Sparc
    else None.
Proof.
  unfold detect_arch. cbn [family_macros]. rewrite any_defined_app.
  fold wide_ppc wide_mips wide_sparc. destruct (any_defined e wide_mips); cbn [orb]; unfold any_defined; cbn [existsb];
    by rewrite !orb_false_r.
Qed.

Lemma families e c f : compiles_for e c -> any_defined e (family_macros f) = bool_decide (f = family_of c).
Proof. intros [Hf Ho _]. case_bool_decide as E; [by rewrite E|by apply Ho]. Qed.

Lemma arch_detected e c : compiles_for e c -> detect_arch e = Some (arch_of c).
Proof.
  intros H. rewrite detect_arch_macros, !(families e c) by done. destruct H as [_ _ Hv].
  destruct c as [| | |w|w abi|thumb hf| | |w]; cbn in Hv |- *; try done;
    [rewrite Hv|destruct Hv as [-> _]|rewrite Hv]; by destruct w.
Qed.

Lemma arm_detected e c : compiles_for e c ->
  detect_arm_mode e = match c with C_arm thumb _ => Some (if thumb : bool then ARM_THUMB else ARM_ARM) | _ => None end.
Proof.
  intros H. pose proof (families e c F_arm H) as Ha. unfold any_defined in Ha. cbn [family_macros existsb] in Ha.
  rewrite orb_false_r in Ha. unfold detect_arm_mode. rewrite Ha. destruct H as [_ _ Hv].
  destruct c; cbn in Hv |- *; try done. destruct Hv as [-> _]. by destruct thumb.
Qed.

Lemma mips_detected e c : compiles_for e c ->
  detect_mips_abi e (detect_arch e) = match c with C_mips _ abi => Some abi | _ => None end.
Proof.
  intros H. rewrite (arch_detected e c H). destruct H as [_ _ Hv].
  destruct c as [| | |[]|w abi|thumb hf| | |[]]; try done. destruct Hv as (_ & Ht & Hf).
  unfold detect_mips_abi. replace (is_mips _) with true by (by destruct w). cbn [orb].
  assert (H : forall abi', abi' <> MIPS_EABI -> any_defined e (mips_abi_macros abi') = bool_decide (abi' = abi)).
  { intros abi' Hne. case_bool_decide as E; [subst; by apply Ht|by apply Hf]. }
  pose proof (H MIPS_O32 ltac:(done)) as H1. pose proof (H MIPS_N64 ltac:(done)) as H2. pose proof (H MIPS_N32 ltac:(done)) as H3.
  cbn [mips_abi_macros] in H1, H2, H3. unfold any_defined at 1 in H3. cbn [existsb] in H3. rewrite orb_false_r in H3.
  rewrite H1, H2, H3. by destruct abi.
Qed.

Lemma hf_detected e c : compiles_for e c -> hf (config_of e) = match c with C_arm _ hard => hard | _ => false end.
Proof.
  intros H. pose proof (arm_detected e _ H) as Hm. destruct H as [_ _ Hv].
  unfold hf, config_of. cbn [c_arm_abi]. rewrite Hm. destruct c; try done. destruct Hv as (_ & He & Hv).
  unfold detect_arm_abi. rewrite He. cbn [orb]. rewrite Hv.
  destruct (defined e "__ARM_PCS_VFP") eqn:Hd; cbn [andb]; [by destruct hard_float|].
  rewrite (value_undefined _ _ Hd) in Hv. by subst hard_float.
Qed.

Lemma compiler_detected e : bool_decide (detect_compiler e = C_MSVC) = microsoft e.
Proof. unfold detect_compiler, microsoft. destruct (defined e "__INTEL_COMPILER"); [done|]. by repeat case_match. Qed.

(** The choice depends on these parts of the configuration. *)
Lemma selection_depends cf cf' :
  bool_decide (c_compiler cf = C_MSVC) = bool_decide (c_compiler cf' = C_MSVC) ->
  c_os cf = c_os cf' -> c_arch cf = c_arch cf' -> c_arm cf = c_arm cf' -> hf cf = hf cf' ->
  c_mips_abi cf = c_mips_abi cf' -> selection cf = selection cf'.
Proof.
  intros Hc Ho Ha Hm Hh Hp. unfold selection, dyncall_call_S, dyncall_callback_arch_S, callback_arch_darwin, callback_arch_other,
    dyncall_callvm_c, dyncall_callback_c, dyncall_args_c, dyncall_thunk_c, dyncall_thunk_h.
  by rewrite Hc, Ho, Ha, Hm, Hh, Hp.
Qed.

(** The configuration of a platform, and that it selects the right files. *)
Definition platform_config (msvc : bool) (o : os) (c : cpu) : config :=
  {| c_os := o; c_win_env := None; c_compiler := if msvc then C_MSVC else C_GNU; c_arch := Some (arch_of c);
     c_msvcrt := false; c_obj := Obj_Unknown;
     c_arm := match c with C_arm thumb _ => Some (if thumb : bool then ARM_THUMB else ARM_ARM) | _ => None end;
     c_arm_abi := match c with C_arm _ true => Some ARM_HF | _ => None end;
     c_mips_abi := match c with C_mips _ abi => Some abi | _ => None end;
     c_hardfloat := None; c_elf_v := None; c_endian := None |}.

Definition selects_backend (msvc : bool) (o : os) (c : cpu) : bool :=
  let chosen := selection (platform_config msvc o c) in
  match backend_of msvc o c with
  | Some files => bool_decide (chosen = map Include files)
  | None => negb (existsb (fun files => bool_decide (chosen = map Include files)) backends)
  end.

Lemma all_platforms msvc o c : selects_backend msvc o c = true.
Proof.
  destruct msvc, c as [| | |[]|[] []|[] []| | |[]], o; vm_compute; reflexivity.
Qed.

Lemma selects_backend_spec msvc o c :
  match backend_of msvc o c with
  | Some files => selection (platform_config msvc o c) = map Include files
  | None => selection (platform_config msvc o c) ∉ map (map Include) backends
  end.
Proof.
  pose proof (all_platforms msvc o c) as H. unfold selects_backend in H. cbv zeta in H.
  destruct (backend_of msvc o c); [by apply bool_decide_eq_true in H|].
  intros (files & E & Hin)%list_elem_of_In%in_map_iff. apply negb_true_iff, not_true_iff_false in H. apply H.
  apply existsb_exists. exists files. split; [done|]. by apply bool_decide_eq_true.
Qed.


(** ** Byte order *)

(** What GCC and clang predefine on a platform of byte order [b]: the three macros,
    and of the macros for one order at most those for [b]. *)
Record gnu_byte_order (e : env) (b : endian) : Prop := {
  gnu_order : value e "__BYTE_ORDER__" = match b with LittleEndian => 1234 | BigEndian => 4321 end;
  gnu_little : defined e "__ORDER_LITTLE_ENDIAN__" = true /\ value e "__ORDER_LITTLE_ENDIAN__" = 1234;
  gnu_big : defined e "__ORDER_BIG_ENDIAN__" = true /\ value e "__ORDER_BIG_ENDIAN__" = 4321;
  gnu_no_header : any_defined e ["BYTE_ORDER"; "_BYTE_ORDER"; "BIG_ENDIAN"; "LITTLE_ENDIAN"] = false;
  gnu_flags : forall m, defined e m = true -> m ∈ ["_BIG_ENDIAN"; "_LITTLE_ENDIAN"] -> value e m <> 0;
  gnu_eb : any_defined e ["MIPSEB"; "_MIPSEB"; "__MIPSEB"; "__MIPSEB__"; "__ARMEB__"; "__AARCH64EB__"] = true -> b = BigEndian;
  gnu_el : any_defined e ["MIPSEL"; "_MIPSEL"; "__MIPSEL"; "__MIPSEL__"; "__ARMEL__"; "__AARCH64EL__"] = true -> b = LittleEndian;
}.

(** The byte orders the code takes for granted. *)
Definition fixed_order (e : env) : option endian :=
  match detect_arch e with
  | Some Intel_x86 | Some AMD64 => Some LittleEndian
  | Some Sparc => Some BigEndian
  | Some PPC64 => if value e "_CALL_ELF" =? 1 then Some BigEndian else if value e "_CALL_ELF" =? 2 then Some LittleEndian else None
  | _ => None
  end.

(** Without [_CALL_ELF], the version is 0. *)
Lemma detect_elf_v_value e a :
  detect_elf_v e a = match a with Some PPC64 => Some (value e "_CALL_ELF") | _ => None end.
Proof.
  unfold detect_elf_v. destruct a as [[]|]; try done. destruct (defined e "_CALL_ELF") eqn:H; [done|].
  by rewrite value_undefined.
Qed.

Lemma order_is_header e b order m :
  gnu_byte_order e b -> order ∈ ["BYTE_ORDER"; "_BYTE_ORDER"] ->
  m ∈ ["BIG_ENDIAN"; "_BIG_ENDIAN"; "LITTLE_ENDIAN"; "_LITTLE_ENDIAN"] -> order_is e order m = false.
Proof.
  intros [_ _ _ Hh Hf _ _] Ho Hm. unfold any_defined in Hh. cbn [existsb] in Hh. rewrite !orb_false_iff in Hh.
  destruct Hh as (H1 & H2 & H3 & H4 & _). rewrite !elem_of_cons, elem_of_nil in Ho. rewrite !elem_of_cons, elem_of_nil in Hm.
  assert (value e order = 0) as Hz by (apply value_undefined; destruct Ho as [->|[->|[]]]; done).
  unfold order_is. rewrite Hz. destruct (defined e m) eqn:Hd; [|done]. cbn [andb].
  assert (value e m <> 0); [|by apply Z.eqb_neq, not_eq_sym].
  apply Hf; [done|]. rewrite !elem_of_cons, elem_of_nil. destruct Hm as [->|[->|[->|[->|[]]]]]; auto; congruence.
Qed.

(** The test of [__BYTE_ORDER__]. *)
Lemma order_is_gnu e b :
  gnu_byte_order e b ->
  order_is e "__BYTE_ORDER__" "__ORDER_BIG_ENDIAN__" = bool_decide (b = BigEndian) /\
  order_is e "__BYTE_ORDER__" "__ORDER_LITTLE_ENDIAN__" = bool_decide (b = LittleEndian).
Proof. intros [Ho [Hl Hl'] [Hb Hb'] _ _ _ _]. unfold order_is. rewrite Ho, Hl, Hl', Hb, Hb'. by destruct b. Qed.

(** The header finds the byte order on every architecture.  Where GCC or clang
    say it, as they do everywhere, the macro that is defined is that of the actual
    order, provided that 32-bit SPARC and version 1 of the 64-bit PowerPC ABI are
    big-endian, and x86 and version 2 of that ABI are not. *)
Theorem byte_order_detected e b :
  gnu_byte_order e b -> default b (fixed_order e) = b -> c_endian (config_of e) = Some b.
Proof.
  intros H Hfix. destruct (order_is_gnu e b H) as [Hob Hol].
  pose proof (fun o m => order_is_header e b o m H) as Hhd. destruct H as [Ho _ _ _ _ Heb Hel].
  assert (defined e "__BYTE_ORDER__" = true) as Hd by (apply value_defined; rewrite Ho; by destruct b).
  assert (any_defined e ["BYTE_ORDER"; "_BYTE_ORDER"; "__BYTE_ORDER__"] = true) as Hany
    by (cbn [any_defined existsb]; rewrite Hd, !orb_true_r; done).
  cbn [config_of c_endian]. unfold detect_endian. rewrite Hob, Hol, Hany, Hd, !Hhd by (rewrite !elem_of_cons; naive_solver).
  cbn [orb negb]. rewrite andb_false_r, detect_elf_v_value. revert Hfix. unfold fixed_order.
  destruct (any_defined e ["MIPSEB"; _; _; _; _; _]); [rewrite (Heb eq_refl)|];
    (destruct (any_defined e ["MIPSEL"; _; _; _; _; _]); [try rewrite (Hel eq_refl)|]);
    destruct (detect_arch e) as [[]|]; try (by destruct b).
  all: destruct (Z.eqb_spec (value e "_CALL_ELF") 1) as [->|H1]; [by destruct b|].
  all: destruct (Z.eqb_spec (value e "_CALL_ELF") 2) as [->|H2]; [by destruct b|].
  all: rewrite (bool_decide_eq_false_2 (Some (value e "_CALL_ELF") = Some 1)) by congruence;
    rewrite (bool_decide_eq_false_2 (Some (value e "_CALL_ELF") = Some 2)) by congruence; by destruct b.
Qed.

(** The order of 64-bit PowerPC follows from the version of the ABI alone, although
    version 2 exists in both (as on FreeBSD, which is big-endian). *)
Theorem ppc64_elfv2_is_little e :
  detect_arch e = Some PPC64 -> value e "_CALL_ELF" = 2 ->
  any_defined e ["MIPSEB"; "_MIPSEB"; "__MIPSEB"; "__MIPSEB__"; "__ARMEB__"; "__AARCH64EB__"] = false ->
  c_endian (config_of e) = Some LittleEndian.
Proof. intros Ha Hv Heb. cbn [config_of c_endian]. unfold detect_endian. by rewrite detect_elf_v_value, Ha, Hv, Heb. Qed.

(** The 64-bit EABI of MIPS gets the VM and the kernel of the 32-bit one, but the
    argument reader and the thunk of n64. *)
Theorem mips64_eabi_mixed c :
  c_arch c = Some MIPS64 -> c_mips_abi c = Some MIPS_EABI ->
  dyncall_callvm_c c = Include "dyncall_callvm_mips_eabi.c" /\ dyncall_args_c c = Include "dyncall_args_mips64.c" /\
  dyncall_thunk_c c = Include "dyncall_thunk_mips64.c".
Proof. intros Ha Hm. unfold dyncall_callvm_c, dyncall_args_c, dyncall_thunk_c. by rewrite Ha, Hm. Qed.

(** Libraries and their symbols are read with the functions of the same system. *)
Theorem loader_matches_symbols e :
  dynload_c (config_of e) = Include "dynload_windows.c" <-> dynload_syms_c (config_of e) = Include "dynload_syms_pe.c".
Proof.
  unfold dynload_c, dynload_syms_c, config_of, detect_obj, detect_win_env. cbn [c_os c_obj].
  destruct (detect_os e); cbn [windows classify_os darwin]; repeat case_match; try done; naive_solver.
Qed.

(** ** Concrete platforms *)
Module Examples.

Definition predefine (ms : list (string * Z)) : env := list_to_map ms.

(** What GCC predefines for the order [o], without _CALL_ELF and the like. *)
Definition gcc (o : Z) (ms : list (string * Z)) : env :=
  predefine (ms ++ [("__GNUC__", 13); ("__BYTE_ORDER__", o); ("__ORDER_LITTLE_ENDIAN__", 1234); ("__ORDER_BIG_ENDIAN__", 4321)]).

Definition linux_armhf : env :=
  gcc 1234 [("__linux__", 1); ("__arm__", 1); ("__thumb__", 1); ("__ARM_EABI__", 1); ("__ARM_PCS_VFP", 1); ("__ARMEL__", 1); ("__ELF__", 1)].
Definition linux_ppc64le : env := gcc 1234 [("__linux__", 1); ("__powerpc64__", 1); ("__powerpc__", 1); ("_CALL_ELF", 2); ("_LITTLE_ENDIAN", 1)].
Definition freebsd_ppc64 : env := gcc 4321 [("__FreeBSD__", 14); ("__powerpc64__", 1); ("__powerpc__", 1); ("_CALL_ELF", 2); ("_BIG_ENDIAN", 1)].

Lemma linux_armhf_platform : runs_on linux_armhf Linux /\ compiles_for linux_armhf (C_arm true true).
Proof.
  split; constructor; try done.
  - intros o' Hne _. by destruct o'.
  - intros f Hne. by destruct f.
Qed.


Lemma byte_order_detected_witness : c_endian (config_of linux_ppc64le) = Some LittleEndian.
Proof.
  apply (byte_order_detected linux_ppc64le LittleEndian); [|vm_compute; reflexivity].
  constructor; try (split; vm_compute; reflexivity); try (vm_compute; reflexivity).
  - intros m Hd Hm. rewrite !elem_of_cons, elem_of_nil in Hm.
    destruct Hm as [->|[->|[]]]; [vm_compute in Hd; discriminate|vm_compute; discriminate].
  - vm_compute. discriminate.
Defined.

Example freebsd_ppc64_order : c_endian (config_of freebsd_ppc64) = Some LittleEndian /\ value freebsd_ppc64 "__BYTE_ORDER__" = 4321.
Proof. split; vm_compute; reflexivity. Qed.

Example linux_x64_files :
  let c := config_of (gcc 1234 [("__linux__", 1); ("__x86_64__", 1); ("__LP64__", 1); ("__ELF__", 1)]) in
  selection c = map Include ["dyncall_callvm_x64.c"; "dyncall_call_x64.S"; "dyncall_callback_x64.c"; "dyncall_args_x64.c";
                             "dyncall_thunk_x64.c"; "dyncall_thunk_x64.h"; "dyncall_callback_x64.S"] /\
  dyncall_alloc_wx_c c = Include "dyncall_alloc_wx_mmap.c" /\ dynload_c c = Include "dynload_unix.c" /\
  dynload_syms_c c = Include "dynload_syms_elf.c" /\ feature_syscall (c_os c) (c_arch c) = true.
Proof. repeat split; vm_compute; reflexivity. Qed.

(** PowerPC G5 on Darwin: there is a VM and a kernel, but no callback entry. *)
Example darwin_ppc64 :
  let c := config_of (gcc 4321 [("__APPLE__", 1); ("__ppc64__", 1); ("__POWERPC__", 1)]) in
  dyncall_callvm_c c = Include "dyncall_callvm_ppc64.c" /\ dyncall_callback_arch_S c = Error.
Proof. repeat split; vm_compute; reflexivity. Qed.

End Examples.
