(* ===== verification/Words.v ===== *)
(** * Words in memory

    What call kernels and thunks do with registers: load a run of machine words
    from memory, and store one.  Arguments that take one or two words, and the
    two halves of a value in two words, for the 32-bit targets. *)

From S2P Require Export Api.

(** ** Parts of a block *)

(** What lies behind the first bytes of a block. *)
Lemma rd_beyond n off k m bs :
  Z.of_nat n <= off -> rd off k m = Some bs -> rd (off - Z.of_nat n) k (drop n m) = Some bs.
Proof.
  intros Ho H. pose proof (rd_bound _ _ _ _ H). destruct (rd_Some off k m) as (b & H' & _ & E); [lia..|].
  rewrite H in H'. injection H' as <-.
  destruct (rd_Some (off - Z.of_nat n) k (drop n m)) as (b & -> & _ & E'); [rewrite ?length_drop; lia..|].
  rewrite E, E', drop_drop. do 3 f_equal. lia.
Qed.

(** What lies behind a prefix. *)
Lemma rd_app_r off n m l bs : rd off n l = Some bs -> rd (Z.of_nat (length m) + off) n (m ++ l) = Some bs.
Proof.
  intros H. pose proof (rd_bound _ _ _ _ H). destruct (rd_Some off n l) as (b & H' & _ & E); [lia..|].
  rewrite H in H'. injection H' as <-.
  destruct (rd_Some (Z.of_nat (length m) + off) n (m ++ l)) as (b & -> & _ & E'); [rewrite ?length_app; lia..|].
  rewrite E, E', drop_app_ge by lia. do 3 f_equal. lia.
Qed.

Lemma take_prefix_take {A} n m (l : list A) : (n <= m)%nat -> prefix (take n l) (take m l).
Proof. intros H. replace n with (n `min` m)%nat by lia. rewrite <- take_take. apply prefix_take. Qed.

(** ** Runs of words *)

(** [n] loads of [w]-byte words. *)
Fixpoint load_words (e : endian) (w n : nat) (off : Z) (m : list Z) : option (list Z) :=
  match n with
  | O => Some []
  | S n =>
    bs ← rd off w m;
    ws ← load_words e w n (off + Z.of_nat w) m;
    Some (dec e bs :: ws)
  end.

(** The bytes that storing them one behind the other leaves. *)
Definition store_words (e : endian) (w : nat) (ws : list Z) : list Z := concat (map (enc e w) ws).

Lemma length_store_words e w ws : length (store_words e w ws) = (length ws * w)%nat.
Proof. induction ws as [|x ws IH]; [done|]. unfold store_words in *. cbn. rewrite length_app, length_enc, IH. lia. Qed.

Lemma store_words_app e w l1 l2 : store_words e w (l1 ++ l2) = store_words e w l1 ++ store_words e w l2.
Proof. unfold store_words. by rewrite map_app, concat_app. Qed.

(** Storing what was loaded copies memory. *)
Lemma load_words_copy e w n : forall off m,
  Forall is_byte m -> 0 <= off -> off + Z.of_nat (n * w) <= Z.of_nat (length m) ->
  exists ws, load_words e w n off m = Some ws /\ length ws = n /\
    store_words e w ws = take (n * w) (drop (Z.to_nat off) m).
Proof.
  induction n as [|n IH]; intros off m Hb Ho Hl; [by exists []|].
  destruct (rd_Some off w m) as (bs & Hrd & Hn & E); [lia..|].
  destruct (IH (off + Z.of_nat w) m Hb ltac:(lia) ltac:(lia)) as (ws & Hws & Hk & Hst).
  exists (dec e bs :: ws). cbn [load_words]. rewrite Hrd. cbn [mbind option_bind]. rewrite Hws.
  split_and!; [done|cbn; by rewrite Hk|]. unfold store_words in *. cbn [map concat]. rewrite Hst.
  assert (Forall is_byte bs) as Hbs by (subst bs; by apply Forall_take, Forall_drop).
  rewrite enc_dec_n by done. rewrite E.
  replace (Z.to_nat (off + Z.of_nat w)) with (Z.to_nat off + w)%nat by lia.
  rewrite <- drop_drop. change (S n * w)%nat with (w + n * w)%nat.
  rewrite <- (take_take_drop (drop (Z.to_nat off) m) w (n * w)). done.
Qed.

Lemma load_words_aget e w n k : forall off m ws,
  load_words e w n off m = Some ws -> 0 <= k < Z.of_nat n ->
  exists bs, rd (off + Z.of_nat w * k) w m = Some bs /\ aget k ws = Some (dec e bs).
Proof.
  revert k. induction n as [|n IH]; intros k off m ws H Hk; [lia|]. cbn [load_words] in H.
  apply bind_Some in H as (bs & Hrd & H). apply bind_Some in H as (ws' & Hws & [= <-]).
  destruct (decide (k = 0)) as [->|Hk0].
  - exists bs. rewrite Z.mul_0_r, Z.add_0_r. done.
  - destruct (IH (k - 1) _ _ _ Hws ltac:(lia)) as (bs' & Hrd' & Ha). exists bs'.
    replace (off + Z.of_nat w + Z.of_nat w * (k - 1)) with (off + Z.of_nat w * k) in Hrd' by lia. split; [done|].
    unfold aget in *. rewrite (proj2 (Z.leb_le 0 (k - 1))) in Ha by lia. rewrite (proj2 (Z.leb_le 0 k)) by lia.
    by replace (Z.to_nat k) with (S (Z.to_nat (k - 1))) by lia.
Qed.

(** ** Values of one or two 32-bit words *)

(** The type characters of floating-point types, which callback entries look at. *)
Lemma sigchar_float t : Ascii.eqb (sigchar_of t) DC_SIGCHAR_FLOAT = match t with TFloat => true | _ => false end.
Proof. by destruct t. Qed.
Lemma sigchar_double t : Ascii.eqb (sigchar_of t) DC_SIGCHAR_DOUBLE = match t with TDouble => true | _ => false end.
Proof. by destruct t. Qed.

Definition is_wide (t : cty) : bool :=
  match t with TLongLong | TULongLong | TDouble => true | _ => false end.
Definition arg_size (t : cty) : Z := if is_wide t then 8 else 4.

Lemma arg_size_cases t : arg_size t = 4 \/ arg_size t = 8.
Proof. unfold arg_size. destruct (is_wide t); auto. Qed.

Lemma dword_join y : wrapU 32 y + 2 ^ 32 * wrapU 32 (y / 2 ^ 32) = wrapU 64 y.
Proof. unfold wrapU. change (2 ^ 64) with (2 ^ 32 * 2 ^ 32). by rewrite Z.rem_mul_r by lia. Qed.

(** Putting two words together by shifting. *)
Lemma shiftl_lor hi lo : in_u 32 lo -> Z.lor (Z.shiftl hi 32) lo = lo + 2 ^ 32 * hi.
Proof.
  intros Hlo. assert (E : Z.land lo (Z.shiftl hi 32) = 0).
  { apply Z.bits_inj'. intros i Hb. rewrite Z.land_spec, Z.bits_0, Z.shiftl_spec by lia.
    destruct (Z.lt_ge_cases i 32); [by rewrite (Z.testbit_neg_r _ (i - 32)), andb_false_r by lia|].
    rewrite <- (wrapU_id 32 lo Hlo). unfold wrapU. by rewrite Z.mod_pow2_bits_high by lia. }
  rewrite Z.lor_comm. pose proof (Z.add_lor_land lo (Z.shiftl hi 32)) as A. rewrite E, Z.shiftl_mul_pow2 in * by lia. lia.
Qed.

(** Big-endian halves: the high part comes first. *)
Lemma dec_be_app a b : dec BigEndian (a ++ b) = dec BigEndian b + 2 ^ (8 * Z.of_nat (length b)) * dec BigEndian a.
Proof. unfold dec. by rewrite rev_app_distr, le_join_app, length_rev. Qed.

Lemma enc_be_app n m y :
  enc BigEndian (n + m) y = enc BigEndian n (y / 2 ^ (8 * Z.of_nat m)) ++ enc BigEndian m y.
Proof. unfold enc. by rewrite Nat.add_comm, le_split_app, rev_app_distr. Qed.

(** The bytes of memory stay bytes. *)
Lemma wr_bytes off bs m m' : wr off bs m = Some m' -> Forall is_byte m -> Forall is_byte bs -> Forall is_byte m'.
Proof.
  unfold wr. destruct (_ && _); [|done]. intros [= <-] Hm Hb.
  apply Forall_app_2; [by apply Forall_take|]. apply Forall_app_2; [done|by apply Forall_drop].
Qed.

Lemma rd_bytes off n m bs : rd off n m = Some bs -> Forall is_byte m -> Forall is_byte bs.
Proof.
  intros H Hm. pose proof (rd_bound _ _ _ _ H). destruct (rd_Some off n m) as (bs' & H' & _ & E); [lia..|].
  rewrite H in H'. injection H' as <-. subst. by apply Forall_take, Forall_drop.
Qed.

Lemma dcVecAppend_bytes {DM : DataModel} v bs size v' :
  dcVecAppend v bs size = Some v' -> Forall is_byte (vec_data v) -> Forall is_byte bs ->
  Forall is_byte (vec_data v').
Proof.
  intros H Hv Hb. unfold dcVecAppend in H. destruct (_ <=? _); [|by injection H as <-].
  assert (Hst : forall q off b q', dcVecStore q off b = Some q' -> Forall is_byte (vec_data q) -> Forall is_byte b ->
            Forall is_byte (vec_data q')).
  { intros q off b q' (d & Hd & [= <-])%bind_Some ? ?. by eapply wr_bytes. }
  apply bind_Some in H as (q & Hq & [= <-]). cbn.
  repeat case_match; repeat match goal with H : (_ ≫= _) = Some _ |- _ => apply bind_Some in H as (? & ? & H) end;
    repeat (eapply Hst; [eassumption| |]); try done; by eapply rd_bytes.
Qed.

(** ** Places of arguments

    The next integer and floating-point register, and the bytes on the stack. *)

Record counters := { c_int : Z; c_float : Z; c_stack : Z }.

Inductive place := InGpr (k : Z) | InFpr (k : Z) | OnStack (off : Z).

Definition on_stack (t : cty) (ic : Z) (c : counters) : place * counters :=
  let off := align_up (c_stack c) (arg_size t) in
  (OnStack off, {| c_int := ic; c_float := c_float c; c_stack := off + arg_size t |}).

(** [fp]: the types that go to floating-point registers. *)
Definition next_place (fp : cty -> bool) (t : cty) (c : counters) : place * counters :=
  if fp t then
    if c_float c <? 8
    then (InFpr (c_float c), {| c_int := c_int c; c_float := c_float c + 1; c_stack := c_stack c |})
    else on_stack t (c_int c) c
  else if is_wide t then
    let k := align_up (c_int c) 2 in
    if k <? 8
    then (InGpr k, {| c_int := k + 2; c_float := c_float c; c_stack := c_stack c |})
    else on_stack t 8 c
  else
    if c_int c <? 8
    then (InGpr (c_int c), {| c_int := c_int c + 1; c_float := c_float c; c_stack := c_stack c |})
    else on_stack t 8 c.

Record counters_ok (c : counters) : Prop := {
  co_int : 0 <= c_int c <= 8;
  co_float : 0 <= c_float c <= 8;
  co_stack : 0 <= c_stack c /\ c_stack c mod 4 = 0;
}.

(** An argument takes eight bytes of the stack, with alignment, at most. *)
Lemma next_place_stack fp t c :
  counters_ok c -> align_up (c_stack (next_place fp t c).2) 8 <= align_up (c_stack c) 8 + 8.
Proof.
  intros [_ _ [Hs Hm]].
  assert (Hst : forall ic, align_up (c_stack (on_stack t ic c).2) 8 <= align_up (c_stack c) 8 + 8).
  { intros ic. unfold on_stack. cbn [snd c_stack]. apply align_up_least; [lia| |].
    - destruct (Z.mod_divide (align_up (c_stack c) 8) 8) as [H _]; [lia|]. destruct H as [q Hq]; [by apply align_up_mod|].
      exists (q + 1). lia.
    - pose proof (align_up_bounds (c_stack c) 8). destruct (arg_size_cases t) as [-> | ->]; [|lia].
      rewrite align_up_id by (done || lia). lia. }
  assert (H0 : align_up (c_stack c) 8 <= align_up (c_stack c) 8 + 8) by lia.
  unfold next_place. repeat case_match; cbn [snd c_stack]; first [apply Hst|exact H0].
Qed.

(** The places of a whole list of arguments. *)
Fixpoint places (fp : cty -> bool) (ts : list cty) (c : counters) : list place :=
  match ts with
  | [] => []
  | t :: ts => let '(pl, c) := next_place fp t c in pl :: places fp ts c
  end.

(** [(n + 1) & -2], and the [odd] test of the VM. *)
Lemma align2 n : 0 <= n <= 8 -> align_up n 2 = n + (if Z.odd n then 1 else 0) /\ Z.land (n + 1) (-2) = align_up n 2.
Proof.
  intros H. assert (n = 0 \/ n = 1 \/ n = 2 \/ n = 3 \/ n = 4 \/ n = 5 \/ n = 6 \/ n = 7 \/ n = 8) as Hn by lia.
  repeat destruct Hn as [-> | Hn]; try done. by subst.
Qed.

(** The words of a stack of [size] bytes. *)
Lemma load_stack_ok e size k :
  Forall is_byte k -> 0 <= size <= Z.of_nat (length k) -> size < 2 ^ 32 -> size mod 4 = 0 ->
  exists ws, load_words e 4 (Z.to_nat (wrapU 32 size / 4)) 0 k = Some ws /\
    store_words e 4 ws = take (Z.to_nat size) k.
Proof.
  intros Hb Hs Hsm Hm. rewrite wrapU_id by (unfold in_u; lia).
  pose proof (Z.div_mod size 4 ltac:(lia)) as Hd.
  destruct (load_words_copy e 4 (Z.to_nat (size / 4)) 0 k Hb) as (ws & -> & _ & Hst); [lia..|].
  exists ws. split; [done|]. rewrite Hst. change (Z.to_nat 0) with 0%nat. rewrite drop_0. f_equal. lia.
Qed.

(** [(size + 7) & -8], where the next multiple of 8 is still a 32-bit number. *)
Lemma round_up_8 size :
  0 <= size -> align_up size 8 < 2 ^ 32 -> Z.land (wrapU 32 (size + 7)) (wrapU 32 (-8)) = align_up size 8.
Proof.
  intros Hs Ha. pose proof (align_up_bounds size 8 ltac:(lia)).
  destruct (decide (size + 7 < 2 ^ 32)).
  - rewrite (wrapU_id 32 (size + 7)) by (unfold in_u; lia). change (-8) with (- 2 ^ 3).
    rewrite land_neg_pow2 by (unfold in_u; lia). unfold align_up. do 2 f_equal. lia.
  - exfalso. pose proof (align_up_mod size 8 ltac:(lia)) as [q Hq]%Z.mod_divide; lia.
Qed.
