(* ===== verification/Floats.v ===== *)
(** * Conversions between [float] and [double]

    C's conversions on bit patterns, as IEEE 754 defines them for binary32 and
    binary64: widening is exact, narrowing rounds to nearest, ties to even, and
    both make NaNs quiet. *)

From S2P Require Export Api.

(** A finite value is [M * 2 ^ E]. *)
Definition round_half_even (M : Z) (shift : Z) : Z :=
  if shift <=? 0 then M * 2 ^ (- shift)
  else
    let q := M / 2 ^ shift in
    let r := M mod 2 ^ shift in
    let half := 2 ^ (shift - 1) in
    if (half <? r) || ((r =? half) && Z.odd q) then q + 1 else q.

Definition f2d (x : Z) : Z :=
  let s := x / 2 ^ 31 in
  let e := (x / 2 ^ 23) mod 2 ^ 8 in
  let m := x mod 2 ^ 23 in
  s * 2 ^ 63 +
  (if e =? 255 then if m =? 0 then 2047 * 2 ^ 52 else Z.lor (2047 * 2 ^ 52 + 2 ^ 51) (m * 2 ^ 29)
   else
     let M := if e =? 0 then m else m + 2 ^ 23 in
     let E := Z.max e 1 - 150 in
     if M =? 0 then 0
     else let k := Z.log2 M + 1 in (E + k - 53 + 1074) * 2 ^ 52 + M * 2 ^ (53 - k)).

Definition d2f (x : Z) : Z :=
  let s := x / 2 ^ 63 in
  let e := (x / 2 ^ 52) mod 2 ^ 11 in
  let m := x mod 2 ^ 52 in
  s * 2 ^ 31 +
  (if e =? 2047 then if m =? 0 then 255 * 2 ^ 23 else Z.lor (255 * 2 ^ 23 + 2 ^ 22) (m / 2 ^ 29)
   else
     let M := if e =? 0 then m else m + 2 ^ 52 in
     let E := Z.max e 1 - 1075 in
     if M =? 0 then 0
     else
       let q := Z.max (E + Z.log2 M + 1 - 24) (-149) in
       Z.min (255 * 2 ^ 23) ((q + 149) * 2 ^ 23 + round_half_even M (q - E))).

(** 1.5, the smallest subnormal, infinity; 0.1 is rounded. *)
Example f2d_values : map f2d [0x3fc00000; 0x80000001; 0x7f800000; 0] = [0x3ff8000000000000; 0xb6a0000000000000; 0x7ff0000000000000; 0].
Proof. by vm_compute. Qed.
Example d2f_values :
  map d2f [0x3fb999999999999a; 0x7fefffffffffffff; 0x36a0000000000000; 0x3690000000000000; 0x8000000000000000]
  = [0x3dcccccd; 0x7f800000; 1; 0; 0x80000000].
Proof. by vm_compute. Qed.

Definition is_nan32 (x : Z) : Prop := (x / 2 ^ 23) mod 2 ^ 8 = 255 /\ x mod 2 ^ 23 <> 0.

#[export] Instance is_nan32_dec x : Decision (is_nan32 x).
Proof. unfold is_nan32. apply _. Defined.

(** The fields of a pattern that was put together from them. *)
Lemma fields_of s e m we wm :
  0 <= wm -> 0 <= we -> 0 <= e < 2 ^ we -> 0 <= m < 2 ^ wm ->
  let x := s * 2 ^ (we + wm) + (e * 2 ^ wm + m) in
  x / 2 ^ (we + wm) = s /\ (x / 2 ^ wm) mod 2 ^ we = e /\ x mod 2 ^ wm = m.
Proof.
  intros Hwm Hwe He Hm x. pose proof (pow2_pos we Hwe). pose proof (pow2_pos wm Hwm).
  assert (Hp : 2 ^ (we + wm) = 2 ^ we * 2 ^ wm) by (by rewrite Z.pow_add_r).
  assert (Hx : x = (s * 2 ^ we + e) * 2 ^ wm + m) by (unfold x; rewrite Hp; ring).
  assert (Hd : x / 2 ^ wm = s * 2 ^ we + e) by (symmetry; apply Z.div_unique with m; lia).
  split_and!.
  - symmetry. apply Z.div_unique with (e * 2 ^ wm + m); [left; rewrite Hp; nia|unfold x; ring].
  - rewrite Hd, Z.add_comm, Z.mod_add by lia. by apply Z.mod_small.
  - symmetry. apply Z.mod_unique with (s * 2 ^ we + e); lia.
Qed.

Lemma fields_32 x :
  in_u 32 x -> x = x / 2 ^ 31 * 2 ^ 31 + ((x / 2 ^ 23) mod 2 ^ 8 * 2 ^ 23 + x mod 2 ^ 23) /\ 0 <= x / 2 ^ 31 <= 1.
Proof.
  unfold in_u. intros H. split; [|split; [apply Z.div_pos; lia|apply Z.lt_succ_r, Z.div_lt_upper_bound; lia]].
  pose proof (Z.div_mod x (2 ^ 23) ltac:(lia)). pose proof (Z.div_mod (x / 2 ^ 23) (2 ^ 8) ltac:(lia)).
  rewrite Z.div_div in H1 by lia. change (2 ^ 23 * 2 ^ 8) with (2 ^ 31) in H1. lia.
Qed.

(** Halving a significand that was doubled changes nothing. *)
Lemma round_exact M k : 0 <= k -> round_half_even (M * 2 ^ k) k = M.
Proof.
  intros Hk. unfold round_half_even. pose proof (pow2_pos k Hk). destruct (Z.leb_spec k 0) as [|Hp].
  - replace k with 0 by lia. cbn. lia.
  - rewrite Z.div_mul, Z.mod_mul by lia. pose proof (pow2_pos (k - 1) ltac:(lia)).
    rewrite (proj2 (Z.ltb_ge _ _)), (proj2 (Z.eqb_neq _ _)) by lia. done.
Qed.

(** A [float] survives the way through a [double]; a NaN stays one. *)
Lemma d2f_f2d x : in_u 32 x -> ~ is_nan32 x -> d2f (f2d x) = x.
Proof.
  intros Hx Hn. destruct (fields_32 x Hx) as [E Hs]. unfold is_nan32 in Hn.
  set (s := x / 2 ^ 31) in *. set (e := (x / 2 ^ 23) mod 2 ^ 8) in *. set (m := x mod 2 ^ 23) in *.
  assert (He : 0 <= e < 256) by apply (Z.mod_pos_bound _ (2 ^ 8) eq_refl).
  assert (Hm : 0 <= m < 2 ^ 23) by apply (Z.mod_pos_bound _ (2 ^ 23) eq_refl).
  unfold f2d. fold s e m. cbv zeta.
  destruct (Z.eqb_spec e 255) as [E255|E255].
  { destruct (Z.eqb_spec m 0) as [Em|]; [|by destruct Hn].
    destruct (fields_of s 2047 0 11 52) as (F1 & F2 & F3); [lia..|].
    change (11 + 52) with 63 in *. rewrite Z.add_0_r in *. unfold d2f. rewrite F1, F2, F3. cbv zeta.
    change (2047 =? 2047) with true. change (0 =? 0) with true. cbv iota. lia. }
  set (M := if e =? 0 then m else m + 2 ^ 23).
  destruct (Z.eqb_spec M 0) as [EM|EM].
  { assert (e = 0 /\ m = 0) as [E0 Em] by (unfold M in EM; destruct (Z.eqb_spec e 0); lia).
    destruct (fields_of s 0 0 11 52) as (F1 & F2 & F3); [lia..|].
    change (11 + 52) with 63 in *. change (0 * 2 ^ 52 + 0) with 0 in *. unfold d2f. rewrite F1, F2, F3. cbn. lia. }
  assert (HM : 0 < M < 2 ^ 24) by (unfold M in *; destruct (Z.eqb_spec e 0); lia).
  set (E1 := Z.max e 1 - 150). set (k := Z.log2 M + 1).
  assert (Hk : 1 <= k <= 24).
  { unfold k. pose proof (Z.log2_nonneg M). pose proof (proj1 (Z.log2_lt_pow2 M 24 ltac:(lia)) ltac:(lia)). lia. }
  assert (HMk : 2 ^ 52 <= M * 2 ^ (53 - k) < 2 ^ 53).
  { destruct (Z.log2_spec M ltac:(lia)) as [Hlo Hhi]. replace (Z.succ (Z.log2 M)) with k in Hhi by (unfold k; lia).
    replace (Z.log2 M) with (k - 1) in Hlo by (unfold k; lia). pose proof (pow2_pos (53 - k) ltac:(lia)).
    assert (2 ^ 52 = 2 ^ (k - 1) * 2 ^ (53 - k)) as -> by (rewrite <- Z.pow_add_r by lia; f_equal; lia).
    assert (2 ^ 53 = 2 ^ k * 2 ^ (53 - k)) as -> by (rewrite <- Z.pow_add_r by lia; f_equal; lia). nia. }
  set (M' := M * 2 ^ (53 - k)) in *. set (q := E1 + k - 53).
  destruct (fields_of s (q + 1075) (M' - 2 ^ 52) 11 52) as (F1 & F2 & F3); [lia|lia|unfold q, E1; lia|lia|].
  change (11 + 52) with 63 in *.
  replace ((q + 1075) * 2 ^ 52 + (M' - 2 ^ 52)) with ((q + 1074) * 2 ^ 52 + M') in * by lia.
  unfold d2f. rewrite F1, F2, F3. cbv zeta. clear F1 F2 F3.
  rewrite (proj2 (Z.eqb_neq (q + 1075) 2047)), (proj2 (Z.eqb_neq (q + 1075) 0)) by (unfold q, E1; lia).
  replace (M' - 2 ^ 52 + 2 ^ 52) with M' by lia. rewrite (proj2 (Z.eqb_neq M' 0)) by lia.
  assert (Hl : Z.log2 M' = 52) by (apply Z.log2_unique; lia). rewrite Hl.
  replace (Z.max (q + 1075) 1 - 1075) with q by (unfold q, E1; lia).
  assert (Hq : Z.max (q + 52 + 1 - 24) (-149) = E1).
  { unfold q. destruct (Z.eqb_spec e 0) as [E0|E0]; [unfold E1; lia|].
    assert (k = 24); [|unfold E1; lia]. unfold k.
    assert (Z.log2 M = 23) as ->; [|done]. apply Z.log2_unique; [lia|]. unfold M.
    cbv iota. lia. }
  rewrite Hq. replace (E1 - q) with (53 - k) by (unfold q; lia). unfold M'. rewrite round_exact by lia.
  rewrite Z.min_r; unfold E1, M in *; destruct (Z.eqb_spec e 0); lia.
Qed.
