(* ===== verification/AggregateProps.v ===== *)
(** * Aggregate descriptions: what the field and classification code promises

    The specification of the System V classification is by scalar leaves: an
    eightbyte is INTEGER when an integer or pointer overlaps it, SSE when only
    floating point numbers do, and NONE when nothing does. *)

From S2P Require Export Aggregate Api.

(** ** Descriptions as the API builds them *)

Fixpoint DCaggr_nested_ind (P : DCaggr -> Prop)
    (step : forall ag, Forall (fun f => forall s, f_sub_aggr f = Some s -> P s) (ag_fields ag) -> P ag)
    (ag : DCaggr) {struct ag} : P ag.
Proof.
  apply step. destruct ag as [size n al cls fs mx]. cbn [ag_fields].
  induction fs as [|[o sz a len ty sub] fs IH]; constructor; [|exact IH].
  intros s Hs. cbn [f_sub_aggr] in Hs. destruct sub as [s'|]; [|discriminate].
  injection Hs as <-. apply DCaggr_nested_ind, step.
Defined.

Definition max_alignment (fs : list DCfield) : Z := fold_left Z.max (map f_alignment fs) 0.

Section Desc.
Context {DM : DataModel} {OK : DataModelOk}.

Definition field_wf (f : DCfield) : Prop :=
  match cty_of_sigchar (f_type f) with
  | Some t => f_size f = sizeof_cty t /\ f_alignment f = sizeof_cty t /\ f_sub_aggr f = None
  | None => f_type f = DC_SIGCHAR_AGGREGATE /\
      exists s, f_sub_aggr f = Some s /\ f_size f = ag_size s /\ f_alignment f = ag_alignment s
  end.

(** Fields agree with their types, the counter with the fields, and the
    alignment is the strictest one of any field: 0 or 1, 2, 4, 8. *)
Record level_wf (ag : DCaggr) : Prop := {
  lw_fields : Forall field_wf (ag_fields ag);
  lw_count : ag_n_fields ag = Z.of_nat (length (ag_fields ag)) /\ ag_n_fields ag <= Z.max 0 (ag_max ag);
  lw_align : ag_alignment ag = max_alignment (ag_fields ag);
  lw_pow2 : In (ag_alignment ag) [0; 1; 2; 4; 8];
  lw_size : 0 <= ag_size ag;
}.

Inductive desc_wf (ag : DCaggr) : Prop :=
  | DescWf : level_wf ag ->
      (forall f s, In f (ag_fields ag) -> f_sub_aggr f = Some s -> desc_wf s) -> desc_wf ag.

Lemma desc_level ag : desc_wf ag -> level_wf ag.
Proof. by intros []. Qed.

Lemma desc_sub ag f s : desc_wf ag -> In f (ag_fields ag) -> f_sub_aggr f = Some s -> desc_wf s.
Proof. intros [_ H]. apply H. Qed.

Lemma sizeof_cty_pow2 t : In (sizeof_cty t) [1; 2; 4; 8].
Proof.
  destruct OK as [Hl Hs].
  destruct t; cbn [sizeof_cty]; try (cbn; tauto);
    (destruct Hl as [-> | ->] || destruct Hs as [-> | ->]); cbn; tauto.
Qed.

Lemma sizeof_cty_range t : 1 <= sizeof_cty t <= 8.
Proof. destruct (sizeof_cty_pow2 t) as [<-|[<-|[<-|[<-|[]]]]]; lia. Qed.

Lemma max_alignment_snoc fs f : max_alignment (fs ++ [f]) = Z.max (max_alignment fs) (f_alignment f).
Proof. unfold max_alignment. by rewrite map_app, fold_left_app. Qed.

Lemma new_wf junk n size : 0 <= size -> desc_wf (dcNewAggr junk n size).
Proof.
  intros Hs. constructor; [|done]. constructor; cbn; [constructor|split; [done|lia]|done|tauto|done].
Qed.

(** Programs that describe an aggregate: the fields in order. *)
Definition field_decl := (DCsigchar * Z * Z * option DCaggr)%type.
Definition add_fields (ag : DCaggr) (ds : list field_decl) : option DCaggr :=
  foldM (fun ag '(ty, off, len, sub) => dcAggrField ag ty off len sub) ag ds.

(** A field declaration the API accepts: a scalar type, or an aggregate with its
    description. *)
Definition decl_wf (d : field_decl) : Prop :=
  let '(ty, _, _, sub) := d in
  match cty_of_sigchar ty with
  | Some _ => True
  | None => ty = DC_SIGCHAR_AGGREGATE /\ exists s, sub = Some s /\ desc_wf s
  end.

Lemma field_added ag type off len sub ag' :
  desc_wf ag -> decl_wf (type, off, len, sub) ->
  dcAggrField ag type off len sub = Some ag' ->
  desc_wf ag' /\ ag_n_fields ag' = ag_n_fields ag + 1 /\ exists f, ag_fields ag' = ag_fields ag ++ [f] /\ f_offset f = off /\ f_array_len f = len /\
    f_type f = type /\ field_wf f /\ ag_size ag' = ag_size ag /\ ag_max ag' = ag_max ag /\
    ag_alignment ag' = Z.max (ag_alignment ag) (f_alignment f) /\ ag_sysv_classes ag' = ag_sysv_classes ag.
Proof.
  intros [[Hf [Hn Hm] Ha Hp Hz] Hs] Hsub H. unfold dcAggrField in H. cbn [decl_wf] in Hsub.
  destruct (Z.ltb_spec (ag_n_fields ag) (ag_max ag)) as [Hlt|]; [|done].
  apply bind_Some in H as (((size & al) & sa) & Hsw & [= <-]).
  set (f := mkField off size al len type sa).
  assert (Hfw : field_wf f /\ In al [0; 1; 2; 4; 8] /\ forall s, sa = Some s -> desc_wf s).
  { unfold field_wf. cbn. destruct (cty_of_sigchar type) as [t|].
    - injection Hsw as <- <- <-. split; [done|split; [right; apply sizeof_cty_pow2|done]].
    - destruct Hsub as (-> & s & -> & Hw). injection Hsw as <- <- <-.
      split; [split; [done|eauto]|split; [apply (desc_level _ Hw)|]]. by intros s' [= <-]. }
  destruct Hfw as (Hfw & Hal & Hsa).
  assert (Emax : (if ag_alignment ag <? al then al else ag_alignment ag) = Z.max (ag_alignment ag) al)
    by (destruct (Z.ltb_spec (ag_alignment ag) al); lia).
  split.
  - constructor; [constructor|]; cbn [ag_fields ag_n_fields ag_max ag_alignment].
    + apply Forall_app. split; [done|]. by constructor.
    + rewrite length_app. cbn. lia.
    + rewrite max_alignment_snoc, <- Ha. exact Emax.
    + by destruct (_ <? _).
    + done.
    + intros g s [Hin|[<-|[]]]%in_app_iff Hg; [by apply (Hs g)|by apply Hsa].
  - split; [done|]. exists f. split_and!; try done.
Qed.

(** What every description keeps: closing it only writes the classes. *)
Lemma close_level sysv ag ag' :
  dcCloseAggr sysv ag = Some ag' ->
  ag_size ag' = ag_size ag /\ ag_n_fields ag' = ag_n_fields ag /\ ag_alignment ag' = ag_alignment ag /\
  ag_fields ag' = ag_fields ag /\ ag_max ag' = ag_max ag.
Proof.
  unfold dcCloseAggr, dcFinishAggr. destruct sysv; [|by intros [= <-]].
  intros (cls & _ & [= <-])%bind_Some. done.
Qed.

Lemma close_wf sysv ag ag' : desc_wf ag -> dcCloseAggr sysv ag = Some ag' -> desc_wf ag'.
Proof.
  intros [[Hf Hn Ha Hp Hz] Hs] (E1 & E2 & E3 & E4 & E5)%close_level.
  constructor; [constructor|]; rewrite ?E1, ?E2, ?E3, ?E4, ?E5; done.
Qed.

Lemma field_accepted ag d :
  decl_wf d -> ag_n_fields ag < ag_max ag ->
  exists ag', (let '(ty, off, len, sub) := d in dcAggrField ag ty off len sub) = Some ag'.
Proof.
  destruct d as [[[ty off] len] sub]. cbn [decl_wf]. intros Hd Hn. unfold dcAggrField.
  rewrite (proj2 (Z.ltb_lt _ _) Hn). destruct (cty_of_sigchar ty); [by eexists|].
  destruct Hd as (-> & s & -> & _). by eexists.
Qed.

Lemma add_fields_wf ds : forall ag,
  desc_wf ag -> Forall decl_wf ds -> ag_n_fields ag + Z.of_nat (length ds) <= ag_max ag ->
  exists ag', add_fields ag ds = Some ag' /\
  desc_wf ag' /\ ag_size ag' = ag_size ag /\ ag_max ag' = ag_max ag /\
  ag_sysv_classes ag' = ag_sysv_classes ag /\
  map (fun f => (f_type f, f_offset f, f_array_len f)) (ag_fields ag')
  = map (fun f => (f_type f, f_offset f, f_array_len f)) (ag_fields ag) ++ map fst ds.
Proof.
  induction ds as [|[[[ty off] len] sub] ds IH]; intros ag Hw Hd Hn.
  { exists ag. by rewrite app_nil_r. }
  apply Forall_cons in Hd as [Hd Hds]. unfold add_fields in *. cbn [foldM length] in *.
  destruct (field_accepted ag (ty, off, len, sub) Hd) as (ag1 & H1); [lia|]. rewrite H1. cbn [mbind option_bind].
  destruct (field_added _ _ _ _ _ _ Hw Hd H1) as (Hw1 & Hn1 & f & Hf & <- & <- & <- & _ & Hs & Hm & _ & Hc).
  destruct (IH ag1 Hw1 Hds) as (ag' & H' & Hw' & Hs' & Hm' & Hc' & E); [lia|].
  exists ag'. split_and!; [done|done|congruence|congruence|congruence|].
  by rewrite E, Hf, map_app, <- app_assoc.
Qed.

End Desc.

(** ** The classification

    [sysv_fields] is the field loop of [dc_get_sysv_class_for_8byte], with the
    recursive call as a parameter. *)

Section Loop.
Variable rec : DCaggr -> Z -> option Z.

Section Elems.
Variables (sub : DCaggr) (offset fsize : Z).
Fixpoint sysv_elems (n : nat) (j acc : Z) {struct n} : option Z :=
  match n with
  | O => Some acc
  | S n => c ← rec sub (int32 (offset + fsize * j));
           sysv_elems n (j + 1) (dc_merge_sysv_classes acc c)
  end.
End Elems.

Definition sysv_new_class (qword_offset offset fsize flen : Z) (ftype : DCsigchar)
    (fsub : option DCaggr) : option Z :=
  match cty_of_sigchar ftype with
  | Some (TFloat | TDouble) => Some SYSVC_SSE
  | Some _ => Some SYSVC_INTEGER
  | None =>
    if Ascii.eqb ftype DC_SIGCHAR_AGGREGATE then
      if fsize =? 0 then Some SYSVC_NONE
      else match fsub with
        | None => None
        | Some sub =>
          let j := int32 (u64 (qword_offset - offset) / fsize) in
          let k := int32 (8 / fsize + j + 1) in
          let k := if flen <? u64 k then int32 flen else k in
          sysv_elems sub offset fsize (Z.to_nat (k - j)) j SYSVC_NONE
        end
    else Some SYSVC_NONE
  end.

Section Fields.
Variables qword_offset base_offset : Z.
Fixpoint sysv_fields (fs : list DCfield) (clz : Z) {struct fs} : option Z :=
  match fs with
  | [] => Some clz
  | mkField foff fsize falign flen ftype fsub :: fs =>
    let offset := u64 (base_offset + foff) in
    if (u64 (qword_offset + 8) <=? offset) || (u64 (offset + fsize * flen) <=? u64 qword_offset)
    then sysv_fields fs clz
    else if negb (Z.land falign (falign - 1) =? 0) then None
    else if negb (falign =? 0) && negb (Z.land offset (falign - 1) =? 0)
    then Some SYSVC_MEMORY
    else
      new_class ← sysv_new_class qword_offset offset fsize flen ftype fsub;
      if clz =? new_class then sysv_fields fs clz
      else sysv_fields fs (dc_merge_sysv_classes clz new_class)
  end.
End Fields.
End Loop.

Lemma sysv_class_unfold ag index base_offset :
  dc_get_sysv_class_for_8byte ag index base_offset
  = sysv_fields (fun sub => dc_get_sysv_class_for_8byte sub index) (index * 8) base_offset (ag_fields ag) SYSVC_NONE.
Proof. by destruct ag. Qed.

Definition known_class (c : Z) : Prop := In c [SYSVC_NONE; SYSVC_INTEGER; SYSVC_SSE; SYSVC_MEMORY].

Lemma merge_known a b : known_class a -> known_class b -> known_class (dc_merge_sysv_classes a b).
Proof.
  intros [<-|[<-|[<-|[<-|[]]]]] [<-|[<-|[<-|[<-|[]]]]]; unfold known_class; cbn; tauto.
Qed.

Lemma elems_total rec sub offset fsize n : (forall b, exists c, rec sub b = Some c /\ known_class c) ->
  forall j acc, known_class acc -> exists c, sysv_elems rec sub offset fsize n j acc = Some c /\ known_class c.
Proof.
  intros Hrec. induction n as [|n IH]; intros j acc Ha; [by exists acc|].
  destruct (Hrec (int32 (offset + fsize * j))) as (c & E & Hc). cbn [sysv_elems]. rewrite E.
  cbn [mbind option_bind]. by apply IH, merge_known.
Qed.

Section Classes.
Context {DM : DataModel} {OK : DataModelOk}.

Lemma field_alignment f ag : desc_wf ag -> In f (ag_fields ag) -> In (f_alignment f) [0; 1; 2; 4; 8].
Proof.
  intros Hw Hin. destruct (desc_level _ Hw) as [Hf _ _ _ _]. rewrite List.Forall_forall in Hf.
  specialize (Hf f Hin). unfold field_wf in Hf. destruct (cty_of_sigchar (f_type f)).
  - destruct Hf as (_ & -> & _). right. apply sizeof_cty_pow2.
  - destruct Hf as (_ & s & Hs & _ & ->). by apply (desc_level _ (desc_sub _ _ _ Hw Hin Hs)).
Qed.

Lemma new_class_total index qw offset f :
  field_wf f ->
  (forall s, f_sub_aggr f = Some s ->
     forall b, exists c, dc_get_sysv_class_for_8byte s index b = Some c /\ known_class c) ->
  exists c, sysv_new_class (fun sub => dc_get_sysv_class_for_8byte sub index) qw offset
              (f_size f) (f_array_len f) (f_type f) (f_sub_aggr f) = Some c /\ known_class c.
Proof.
  unfold field_wf, sysv_new_class, known_class. intros Hf Hs. destruct (cty_of_sigchar (f_type f)) as [t|].
  - destruct t; eexists; split; (done || (cbn; tauto)).
  - destruct Hf as (-> & s & E & _). cbn [Ascii.eqb]. rewrite E. destruct (_ =? 0); [eexists; split; [done|cbn; tauto]|].
    apply elems_total; [|cbn; tauto]. by apply Hs.
Qed.

(** No assertion of the classification can fail on a well-formed description. *)
Lemma class_total ag : desc_wf ag -> forall index base,
  exists c, dc_get_sysv_class_for_8byte ag index base = Some c /\ known_class c.
Proof.
  induction ag as [ag IH] using DCaggr_nested_ind. intros Hw index base. rewrite sysv_class_unfold.
  assert (Hal : forall f, In f (ag_fields ag) -> In (f_alignment f) [0; 1; 2; 4; 8])
    by (intros f; by apply field_alignment).
  assert (Hn : forall f, In f (ag_fields ag) -> forall qw offset,
     exists c, sysv_new_class (fun sub => dc_get_sysv_class_for_8byte sub index) qw offset
              (f_size f) (f_array_len f) (f_type f) (f_sub_aggr f) = Some c /\ known_class c).
  { intros f Hin qw offset. apply new_class_total.
    - destruct (desc_level _ Hw) as [Hf _ _ _ _]. rewrite List.Forall_forall in Hf. by apply Hf.
    - intros s Hs b. rewrite List.Forall_forall in IH. apply (IH f Hin s Hs). by apply (desc_sub _ _ _ Hw Hin). }
  assert (H0 : known_class SYSVC_NONE) by (unfold known_class; cbn; tauto).
  revert H0. generalize SYSVC_NONE as clz. clear Hw IH. generalize dependent (ag_fields ag). intros fs.
  induction fs as [|[o sz a len ty sub] fs IH]; intros Hal Hn clz Hc; [by exists clz|].
  assert (IH' : forall clz, known_class clz -> exists c, sysv_fields (fun sub => dc_get_sysv_class_for_8byte sub index)
             (index * 8) base fs clz = Some c /\ known_class c).
  { intros. apply IH; [..|done]; intros; [apply Hal|apply Hn]; by right. }
  cbn [sysv_fields]. destruct (_ || _); [by apply IH'|].
  specialize (Hal _ (or_introl eq_refl)). cbn [f_alignment] in Hal.
  assert (Z.land a (a - 1) = 0) as -> by (by destruct Hal as [<-|[<-|[<-|[<-|[<-|[]]]]]]).
  cbn [negb Z.eqb]. destruct (_ && _); [exists SYSVC_MEMORY; split; [done|unfold known_class; cbn; tauto]|].
  destruct (Hn _ (or_introl eq_refl) (index * 8) (u64 (base + o))) as (c & E & Hkc).
  cbn [f_size f_array_len f_type f_sub_aggr] in E. rewrite E. cbn [mbind option_bind].
  destruct (_ =? _); apply IH'; [done|by apply merge_known].
Qed.

Lemma close_total sysv ag : desc_wf ag -> (3 <= length (ag_sysv_classes ag))%nat ->
  exists ag', dcCloseAggr sysv ag = Some ag'.
Proof.
  intros Hw Hl. unfold dcCloseAggr, dcFinishAggr. destruct sysv; [|by eexists].
  unfold dc_get_sysv_classes_for_aggr. rewrite aset_Some by lia. destruct (16 <? ag_size ag); [by eexists|].
  destruct (class_total ag Hw 0 0) as (c0 & -> & _). cbn [mbind option_bind]. rewrite aset_Some by lia.
  cbn [mbind option_bind]. destruct (negb (c0 =? SYSVC_MEMORY)); [|by eexists].
  destruct (class_total ag Hw 1 0) as (c1 & -> & _). cbn [mbind option_bind].
  rewrite aset_Some by (rewrite length_insert; lia). cbn [mbind option_bind].
  destruct (c1 =? SYSVC_MEMORY); rewrite aset_Some by (rewrite !length_insert; lia); by eexists.
Qed.

End Classes.

(** ** The specification by leaves *)

Section Spec.
Context {DM : DataModel} {OK : DataModelOk}.

(** The scalars of an aggregate placed at [base], with their offsets. *)
Fixpoint leaves (ag : DCaggr) (base : Z) {struct ag} : list (Z * cty) :=
  (fix fields (fs : list DCfield) : list (Z * cty) :=
     match fs with
     | [] => []
     | mkField off size _ len type sub :: fs =>
       concat (map (fun i => match cty_of_sigchar type, sub with
                             | Some t, _ => [(base + off + size * i, t)]
                             | None, Some s => leaves s (base + off + size * i)
                             | None, None => []
                             end) (seqZ 0 len)) ++ fields fs
     end) (ag_fields ag).


Definition hits (index : Z) (l : Z * cty) : bool :=
  (l.1 <? 8 * index + 8) && (8 * index <? l.1 + sizeof_cty l.2).

Definition abi_class (index : Z) (ls : list (Z * cty)) : Z :=
  if existsb (fun l => hits index l && negb (is_float l.2)) ls then SYSVC_INTEGER
  else if existsb (hits index) ls then SYSVC_SSE
  else SYSVC_NONE.

(** Offsets as a C compiler lays them out: fields inside the aggregate and
    aligned; a nested aggregate, in addition, starts at a multiple of eight
    bytes of the outermost one. *)
Fixpoint lay_ok (ag : DCaggr) (base : Z) {struct ag} : bool :=
  (fix fields (fs : list DCfield) : bool :=
     match fs with
     | [] => true
     | mkField off size _ len type sub :: fs =>
       (0 <=? off) && (1 <=? len) && (off + size * len <=? ag_size ag) &&
       match cty_of_sigchar type, sub with
       | Some t, _ => (base + off) mod size =? 0
       | None, Some s => ((base + off) mod 8 =? 0) &&
                         forallb (fun i => lay_ok s (base + off + size * i)) (seqZ 0 len)
       | None, None => false
       end && fields fs
     end) (ag_fields ag).

Definition elem_leaves (f : DCfield) (o : Z) : list (Z * cty) :=
  match cty_of_sigchar (f_type f), f_sub_aggr f with
  | Some t, _ => [(o, t)]
  | None, Some s => leaves s o
  | None, None => []
  end.
Definition field_leaves (base : Z) (f : DCfield) : list (Z * cty) :=
  concat (map (fun i => elem_leaves f (base + f_offset f + f_size f * i)) (seqZ 0 (f_array_len f))).

Definition field_lay (size base : Z) (f : DCfield) : Prop :=
  0 <= f_offset f /\ 1 <= f_array_len f /\ f_offset f + f_size f * f_array_len f <= size /\
  match cty_of_sigchar (f_type f), f_sub_aggr f with
  | Some t, _ => (base + f_offset f) mod f_size f = 0
  | None, Some s => (base + f_offset f) mod 8 = 0 /\
      forall i, 0 <= i < f_array_len f -> lay_ok s (base + f_offset f + f_size f * i) = true
  | None, None => False
  end.

Lemma leaves_unfold ag base : leaves ag base = concat (map (field_leaves base) (ag_fields ag)).
Proof.
  destruct ag as [size n al cls fs mx]. cbn [ag_fields leaves].
  induction fs as [|[o sz a len ty sub] fs IH]; [done|]. cbn [map concat]. by rewrite <- IH.
Qed.

Lemma lay_ok_fields ag base :
  lay_ok ag base = true -> Forall (field_lay (ag_size ag) base) (ag_fields ag).
Proof.
  destruct ag as [size n al cls fs mx]. cbn [ag_fields ag_size lay_ok].
  induction fs as [|[o sz a len ty sub] fs IH]; [constructor|].
  intros H. apply andb_prop in H as [H Hr]. constructor; [|by apply IH].
  apply andb_prop in H as [H Ht]. apply andb_prop in H as [H H3]. apply andb_prop in H as [H1 H2].
  unfold field_lay. cbn. split_and!; [lia|lia|lia|].
  destruct (cty_of_sigchar ty); [by apply Z.eqb_eq|]. destruct sub as [s|]; [|done].
  apply andb_prop in Ht as [Hm Hf]. split; [by apply Z.eqb_eq|].
  intros i Hi. rewrite forallb_forall in Hf. apply Hf. apply list_elem_of_In, elem_of_seqZ. lia.
Qed.

(** Leaves lie inside their aggregate. *)
Definition within (lo hi : Z) (l : Z * cty) : Prop := lo <= l.1 /\ l.1 + sizeof_cty l.2 <= hi.

Lemma leaves_within ag : desc_wf ag -> forall base, lay_ok ag base = true ->
  forall l, In l (leaves ag base) -> within base (base + ag_size ag) l.
Proof.
  induction ag as [ag IH] using DCaggr_nested_ind. intros Hw base Hl l Hin.
  rewrite leaves_unfold in Hin. apply in_concat in Hin as (ls & (f & <- & Hf)%in_map_iff & Hin).
  apply lay_ok_fields in Hl. rewrite List.Forall_forall in IH, Hl.
  destruct (Hl f Hf) as (H0 & H1 & H2 & Ht). clear Hl.
  unfold field_leaves in Hin. apply in_concat in Hin as (ls & (i & <- & Hi)%in_map_iff & Hin).
  apply list_elem_of_In, elem_of_seqZ in Hi.
  destruct (desc_level _ Hw) as [Hfw _ _ _ _]. rewrite List.Forall_forall in Hfw. specialize (Hfw f Hf).
  unfold field_wf, elem_leaves, within in *. destruct (cty_of_sigchar (f_type f)) as [t|].
  - destruct Hfw as (Hs & _ & _). destruct Hin as [<-|[]]. cbn. rewrite <- Hs in *. pose proof (sizeof_cty_range t). nia.
  - destruct Hfw as (_ & s & Es & Hs & _). rewrite Es in *. destruct Ht as [_ Ht].
    destruct (IH f Hf s Es (desc_sub _ _ _ Hw Hf Es) _ (Ht i ltac:(lia)) l Hin) as [Hlo Hhi].
    rewrite <- Hs in Hhi.
    assert (0 <= f_size f) by (pose proof (sizeof_cty_range l.2); lia). nia.
Qed.

Lemma abi_class_known index ls : In (abi_class index ls) [SYSVC_NONE; SYSVC_INTEGER; SYSVC_SSE].
Proof. unfold abi_class. destruct (existsb _ ls); [cbn; tauto|]. destruct (existsb _ ls); cbn; tauto. Qed.

Lemma abi_class_app index l1 l2 :
  abi_class index (l1 ++ l2) = dc_merge_sysv_classes (abi_class index l1) (abi_class index l2).
Proof.
  unfold abi_class. rewrite !existsb_app.
  assert (H : forall ls, existsb (fun l => hits index l && negb (is_float l.2)) ls = true -> existsb (hits index) ls = true).
  { intros ls (l & Hin & [Hh _]%andb_prop)%existsb_exists. apply existsb_exists. by exists l. }
  pose proof (H l1) as H1. pose proof (H l2) as H2. clear H.
  destruct (existsb (fun l => hits index l && _) l1), (existsb (fun l => hits index l && _) l2),
    (existsb (hits index) l1), (existsb (hits index) l2); try done;
    first [by specialize (H1 eq_refl)|by specialize (H2 eq_refl)].
Qed.

Lemma abi_class_outside index lo hi ls :
  (forall l, In l ls -> within lo hi l) -> 8 * index + 8 <= lo \/ hi <= 8 * index ->
  abi_class index ls = SYSVC_NONE.
Proof.
  intros Hw Ho. unfold abi_class.
  assert (H : forall l, In l ls -> hits index l = false).
  { intros l Hin. destruct (Hw l Hin) as [H1 H2]. unfold hits. apply andb_false_iff.
    pose proof (sizeof_cty_range l.2).
    destruct Ho; [left; apply Z.ltb_ge; lia|right; apply Z.ltb_ge; lia]. }
  assert (existsb (fun l => hits index l && negb (is_float l.2)) ls = false) as ->.
  { apply not_true_is_false. intros (l & Hin & [Hh _]%andb_prop)%existsb_exists. by rewrite H in Hh. }
  assert (existsb (hits index) ls = false) as ->; [|done].
  apply not_true_is_false. intros (l & Hin & Hh)%existsb_exists. by rewrite H in Hh.
Qed.

Lemma u64_small x : 0 <= x < 2 ^ 64 -> u64 x = x.
Proof. intros. unfold u64. apply wrapU_id. unfold in_u. lia. Qed.

Lemma int32_small x : 0 <= x < 2 ^ 31 -> int32 x = x.
Proof. intros. unfold int32. apply wrapS_id; [lia|]. unfold in_s. lia. Qed.

Lemma land_pow2 x a : In a [1; 2; 4; 8] -> Z.land x (a - 1) = x mod a.
Proof.
  intros [<-|[<-|[<-|[<-|[]]]]]; [apply (Z.land_ones x 0)|apply (Z.land_ones x 1)|apply (Z.land_ones x 2)
    |apply (Z.land_ones x 3)]; lia.
Qed.

Lemma mod8_aligned o a : o mod 8 = 0 -> In a [1; 2; 4; 8] -> o mod a = 0.
Proof.
  intros H%Z.mod_divide Ha; [|lia]. apply Z.mod_divide; [by destruct Ha as [<-|[<-|[<-|[<-|[]]]]]|].
  apply (Z.divide_trans _ 8); [|done].
  destruct Ha as [<-|[<-|[<-|[<-|[]]]]]; [by exists 8|by exists 4|by exists 2|by exists 1].
Qed.

(** An array of scalars overlaps an eightbyte when its extent does. *)
Lemma scalar_array_class index o t len :
  1 <= len -> o < 8 * index + 8 -> 8 * index < o + sizeof_cty t * len ->
  abi_class index (concat (map (fun i => [(o + sizeof_cty t * i, t)]) (seqZ 0 len)))
  = if is_float t then SYSVC_SSE else SYSVC_INTEGER.
Proof.
  intros Hl H1 H2. pose proof (sizeof_cty_range t) as Hs. set (s := sizeof_cty t) in *.
  assert (Hi : exists i, 0 <= i < len /\ o + s * i < 8 * index + 8 /\ 8 * index < o + s * i + s).
  { destruct (Z.lt_ge_cases (8 * index) o) as [H|H]; [exists 0; lia|].
    exists ((8 * index - o) / s). pose proof (Z.div_mod (8 * index - o) s ltac:(lia)).
    pose proof (Z.mod_pos_bound (8 * index - o) s ltac:(lia)).
    assert (0 <= (8 * index - o) / s) by (apply Z.div_pos; lia). split_and!; nia. }
  destruct Hi as (i & Hi & Ha & Hb). set (ls := concat _).
  assert (Hin : In (o + s * i, t) ls).
  { subst ls. apply in_concat. exists [(o + s * i, t)]. split; [|by left]. apply in_map_iff. exists i.
    split; [done|]. apply list_elem_of_In, elem_of_seqZ. lia. }
  assert (Hty : forall l, In l ls -> l.2 = t).
  { subst ls. intros l (x & (k & <- & _)%in_map_iff & Hx)%in_concat. by destruct Hx as [<-|[]]. }
  assert (Hh : hits index (o + s * i, t) = true).
  { unfold hits. cbn. apply andb_true_intro. fold s. split; apply Z.ltb_lt; lia. }
  unfold abi_class. destruct (is_float t) eqn:Ef.
  - assert (existsb (fun l => hits index l && negb (is_float l.2)) ls = false) as ->.
    { apply not_true_is_false. intros (l & Hl' & Hx)%existsb_exists. rewrite (Hty l Hl'), Ef, andb_false_r in Hx. done. }
    assert (existsb (hits index) ls = true) as ->; [|done]. apply existsb_exists. by eexists.
  - assert (existsb (fun l => hits index l && negb (is_float l.2)) ls = true) as ->; [|done].
    apply existsb_exists. eexists. split; [exact Hin|]. rewrite Hh. cbn. by rewrite Ef.
Qed.

Lemma merge_assoc_abi a b c :
  In a [SYSVC_NONE; SYSVC_INTEGER; SYSVC_SSE] -> In b [SYSVC_NONE; SYSVC_INTEGER; SYSVC_SSE] ->
  In c [SYSVC_NONE; SYSVC_INTEGER; SYSVC_SSE] ->
  dc_merge_sysv_classes (dc_merge_sysv_classes a b) c = dc_merge_sysv_classes a (dc_merge_sysv_classes b c).
Proof. by intros [<-|[<-|[<-|[]]]] [<-|[<-|[<-|[]]]] [<-|[<-|[<-|[]]]]. Qed.

Lemma merge_abi a b :
  In a [SYSVC_NONE; SYSVC_INTEGER; SYSVC_SSE] -> In b [SYSVC_NONE; SYSVC_INTEGER; SYSVC_SSE] ->
  In (dc_merge_sysv_classes a b) [SYSVC_NONE; SYSVC_INTEGER; SYSVC_SSE].
Proof. intros [<-|[<-|[<-|[]]]] [<-|[<-|[<-|[]]]]; cbn; tauto. Qed.

Lemma merge_none_r a : dc_merge_sysv_classes a SYSVC_NONE = a.
Proof. unfold dc_merge_sysv_classes. destruct (Z.eqb_spec a SYSVC_NONE) as [->|]; done. Qed.

(** The element loop merges the elements it visits. *)
Lemma elems_class rec sub o sz index n : forall j acc,
  In acc [SYSVC_NONE; SYSVC_INTEGER; SYSVC_SSE] ->
  (forall i, j <= i < j + Z.of_nat n -> rec sub (int32 (o + sz * i)) = Some (abi_class index (leaves sub (o + sz * i)))) ->
  sysv_elems rec sub o sz n j acc
  = Some (dc_merge_sysv_classes acc (abi_class index (concat (map (fun i => leaves sub (o + sz * i)) (seqZ j (Z.of_nat n)))))).
Proof.
  induction n as [|n IH]; intros j acc Ha Hr.
  { cbn. by rewrite merge_none_r. }
  cbn [sysv_elems]. rewrite (Hr j) by lia. cbn [mbind option_bind].
  rewrite IH; [|apply merge_abi; [done|apply abi_class_known]|intros; apply Hr; lia].
  rewrite (seqZ_cons j (Z.of_nat (S n))) by lia. cbn [map concat]. rewrite abi_class_app.
  f_equal. replace (Z.pred (Z.of_nat (S n))) with (Z.of_nat n) by lia. rewrite Z.add_1_r.
  apply merge_assoc_abi; [done|apply abi_class_known..].
Qed.

Lemma abi_class_range sub o sz index a n :
  (forall i, a <= i < a + n -> forall l, In l (leaves sub (o + sz * i)) -> within (o + sz * i) (o + sz * i + sz) l) ->
  (forall i, a <= i < a + n -> 8 * index + 8 <= o + sz * i \/ o + sz * i + sz <= 8 * index) ->
  abi_class index (concat (map (fun i => leaves sub (o + sz * i)) (seqZ a n))) = SYSVC_NONE.
Proof.
  intros Hw Ho.
  assert (H : forall m a, (forall i, a <= i < a + Z.of_nat m -> abi_class index (leaves sub (o + sz * i)) = SYSVC_NONE) ->
            abi_class index (concat (map (fun i => leaves sub (o + sz * i)) (seqZ a (Z.of_nat m)))) = SYSVC_NONE).
  { induction m as [|m IH]; intros b Hb; [done|].
    rewrite (seqZ_cons b (Z.of_nat (S m))) by lia. cbn [map concat]. rewrite abi_class_app, Hb by lia.
    replace (Z.pred (Z.of_nat (S m))) with (Z.of_nat m) by lia. apply IH. intros. apply Hb. lia. }
  destruct (Z.le_ge_cases n 0) as [Hn|Hn].
  { rewrite (seqZ_nil a n) by lia. done. }
  replace n with (Z.of_nat (Z.to_nat n)) by lia. apply H. intros i Hi.
  apply (abi_class_outside index (o + sz * i) (o + sz * i + sz)); [apply Hw; lia|apply Ho; lia].
Qed.

(** The bounds of the element loop: everything it leaves out lies outside the
    eightbyte, provided the array starts at a multiple of eight bytes. *)
Lemma elem_bounds index o sz len :
  0 <= index <= 1 -> o mod 8 = 0 -> 0 <= o -> 0 < sz -> 1 <= len -> o + sz * len <= 16 ->
  o < 8 * index + 8 -> 8 * index < o + sz * len ->
  let j := int32 (u64 (index * 8 - o) / sz) in
  let k := int32 (8 / sz + j + 1) in
  let k := if len <? u64 k then int32 len else k in
  0 <= j < k /\ k <= len /\
  (forall i, 0 <= i < j -> o + sz * i + sz <= 8 * index) /\
  (forall i, k <= i < len -> 8 * index + 8 <= o + sz * i).
Proof.
  intros Hix Ho8 Ho Hsz Hlen Hfit Hlt Hgt.
  assert (Hd : index * 8 - o = 0 \/ index * 8 - o = 8).
  { assert (o = 0 \/ o = 8) by (apply Z.div_exact in Ho8; [|lia]; lia). lia. }
  pose proof (Z.div_mod 8 sz ltac:(lia)) as D8. pose proof (Z.mod_pos_bound 8 sz ltac:(lia)) as B8.
  assert (P8 : 0 <= 8 / sz <= 8) by (split; [apply Z.div_pos; lia|apply Z.div_le_upper_bound; nia]).
  assert (Hl16 : len <= 16) by nia.
  set (a := 8 / sz) in *. cbv zeta. rewrite (u64_small (index * 8 - o)) by lia.
  assert (Hj : int32 ((index * 8 - o) / sz) = if decide (index * 8 - o = 0) then 0 else a).
  { case_decide as E; [rewrite E, Z.div_0_l by lia|replace (index * 8 - o) with 8 by lia; fold a];
      apply int32_small; lia. }
  rewrite Hj. case_decide as E.
  - rewrite (int32_small (a + 0 + 1)), u64_small, int32_small by lia.
    destruct (Z.ltb_spec len (a + 0 + 1)); split_and!; try lia; intros i Hi; nia.
  - rewrite (int32_small (a + a + 1)), u64_small, int32_small by lia.
    destruct (Z.ltb_spec len (a + a + 1)); split_and!; try lia; try nia; intros i Hi; nia.
Qed.

Lemma nested_array_class rec sub o sz len index :
  0 <= index <= 1 -> o mod 8 = 0 -> 0 <= o -> 0 < sz -> 1 <= len -> o + sz * len <= 16 ->
  o < 8 * index + 8 -> 8 * index < o + sz * len ->
  (forall i, 0 <= i < len -> rec sub (int32 (o + sz * i)) = Some (abi_class index (leaves sub (o + sz * i)))) ->
  (forall i, 0 <= i < len -> forall l, In l (leaves sub (o + sz * i)) -> within (o + sz * i) (o + sz * i + sz) l) ->
  let j := int32 (u64 (index * 8 - o) / sz) in
  let k := int32 (8 / sz + j + 1) in
  let k := if len <? u64 k then int32 len else k in
  sysv_elems rec sub o sz (Z.to_nat (k - j)) j SYSVC_NONE
  = Some (abi_class index (concat (map (fun i => leaves sub (o + sz * i)) (seqZ 0 len)))).
Proof.
  intros Hix Ho8 Ho Hsz Hlen Hfit Hlt Hgt Hrec Hw.
  pose proof (elem_bounds index o sz len Hix Ho8 Ho Hsz Hlen Hfit Hlt Hgt) as Hb. cbv zeta in Hb |- *.
  set (j := int32 (u64 (index * 8 - o) / sz)) in *.
  set (k := if len <? u64 (int32 (8 / sz + j + 1)) then int32 len else int32 (8 / sz + j + 1)) in *.
  clearbody j k. destruct Hb as (Hj & Hk & Hlo & Hhi).
  rewrite (elems_class _ _ _ _ index); [|cbn; tauto|intros; apply Hrec; lia].
  rewrite Z2Nat.id by lia. f_equal.
  replace len with (j + ((k - j) + (len - k))) at 1 by lia.
  rewrite (seqZ_app 0 j), Z.add_0_l, (seqZ_app j (k - j)), !map_app, !concat_app, !abi_class_app by lia.
  rewrite (abi_class_range sub o sz index 0 j); [|intros i Hi l Hin'; apply (Hw i); [lia|done]|intros; right; apply Hlo; lia].
  rewrite (abi_class_range sub o sz index (j + (k - j)) (len - k));
    [|intros i Hi l Hin'; apply (Hw i); [lia|done]|intros; left; apply Hhi; lia].
  by rewrite merge_none_r.
Qed.

(** One field, seen from the field loop. *)
Lemma field_class index base ag f :
  0 <= index <= 1 -> 0 <= base -> base + ag_size ag <= 16 -> desc_wf ag -> In f (ag_fields ag) ->
  field_lay (ag_size ag) base f ->
  (forall s, f_sub_aggr f = Some s -> forall b, 0 <= b -> b + ag_size s <= 16 -> lay_ok s b = true ->
     dc_get_sysv_class_for_8byte s index b = Some (abi_class index (leaves s b))) ->
  let offset := base + f_offset f in
  (8 * index + 8 <= offset \/ offset + f_size f * f_array_len f <= 8 * index ->
   abi_class index (field_leaves base f) = SYSVC_NONE) /\
  (offset < 8 * index + 8 -> 8 * index < offset + f_size f * f_array_len f ->
   (f_alignment f <> 0 -> Z.land offset (f_alignment f - 1) = 0) /\
   sysv_new_class (fun sub => dc_get_sysv_class_for_8byte sub index) (index * 8) offset (f_size f)
     (f_array_len f) (f_type f) (f_sub_aggr f)
   = Some (abi_class index (field_leaves base f))).
Proof.
  intros Hix Hb Hfit Hw Hin (H0 & H1 & H2 & Ht) IH offset.
  destruct (desc_level _ Hw) as [Hfw _ _ _ _]. rewrite List.Forall_forall in Hfw. specialize (Hfw f Hin).
  pose proof (field_alignment f ag Hw Hin) as Hal.
  unfold field_wf in Hfw. unfold field_leaves, elem_leaves, sysv_new_class. fold offset.
  destruct (cty_of_sigchar (f_type f)) as [t|].
  - destruct Hfw as (Hs & Ha & _). rewrite Ha, Hs in *. pose proof (sizeof_cty_range t) as Hr.
    split.
    + intros Ho. apply (abi_class_outside index offset (offset + sizeof_cty t * f_array_len f)); [|done].
      intros l (x & (i & <- & Hi)%in_map_iff & Hx)%in_concat. apply list_elem_of_In, elem_of_seqZ in Hi.
      destruct Hx as [<-|[]]. unfold within. cbn. nia.
    + intros Hlt Hgt. split; [intros _; rewrite land_pow2; [done|apply sizeof_cty_pow2]|].
      rewrite scalar_array_class by lia. by destruct t.
  - destruct Hfw as (-> & s & Es & Hs & Ha). rewrite Es in *. destruct Ht as [Hm Hl].
    pose proof (desc_sub _ _ _ Hw Hin Es) as Hws. pose proof (lw_size _ (desc_level _ Hws)) as Hz.
    rewrite <- Hs in Hz.
    assert (Hwi : forall i, 0 <= i < f_array_len f -> forall l, In l (leaves s (offset + f_size f * i)) ->
              within (offset + f_size f * i) (offset + f_size f * i + f_size f) l).
    { intros i Hi l Hil. pose proof (leaves_within s Hws _ (Hl i Hi) l Hil) as Hx. by rewrite <- Hs in Hx. }
    split.
    + intros Ho. apply (abi_class_range s offset (f_size f) index 0 (f_array_len f)); [intros i Hi l Hin'; apply (Hwi i); [lia|done]|].
      intros i Hi. nia.
    + intros Hlt Hgt. split.
      * clear Hwi. intros Hne. rewrite land_pow2; [apply mod8_aligned; [done|]|]; (destruct Hal as [E|Hal]; [by rewrite <- E in Hne|done]).
      * cbn [Ascii.eqb]. assert (0 < f_size f).
        { destruct (Z.eq_dec (f_size f) 0) as [E|]; [|lia]. rewrite E in Hgt. fold offset in Hm.
          pose proof (Z.div_mod offset 8 ltac:(lia)). lia. }
        rewrite (proj2 (Z.eqb_neq _ _)) by lia.
        apply nested_array_class; try done; try lia.
        intros i Hi. assert (0 <= f_size f * i /\ f_size f * i + f_size f <= f_size f * f_array_len f) by nia.
        rewrite int32_small by lia. apply IH; [done|lia|lia|]. apply Hl. lia.
Qed.

(** The field loop computes the class of the leaves. *)
Lemma sysv_fields_class rec index base fs : forall clz,
  0 <= index <= 1 -> 0 <= base ->
  In clz [SYSVC_NONE; SYSVC_INTEGER; SYSVC_SSE] ->
  Forall (fun f => In (f_alignment f) [0; 1; 2; 4; 8] /\
    0 <= f_offset f /\ 0 <= f_size f * f_array_len f /\ base + f_offset f + f_size f * f_array_len f <= 16 /\
    (8 * index + 8 <= base + f_offset f \/ base + f_offset f + f_size f * f_array_len f <= 8 * index ->
     abi_class index (field_leaves base f) = SYSVC_NONE) /\
    (base + f_offset f < 8 * index + 8 -> 8 * index < base + f_offset f + f_size f * f_array_len f ->
     (f_alignment f <> 0 -> Z.land (base + f_offset f) (f_alignment f - 1) = 0) /\
     sysv_new_class rec (index * 8) (base + f_offset f) (f_size f) (f_array_len f) (f_type f) (f_sub_aggr f)
     = Some (abi_class index (field_leaves base f)))) fs ->
  sysv_fields rec (index * 8) base fs clz
  = Some (dc_merge_sysv_classes clz (abi_class index (concat (map (field_leaves base) fs)))).
Proof.
  induction fs as [|f fs IH]; intros clz Hix Hb Hc Hf; [cbn; by rewrite merge_none_r|].
  apply Forall_cons in Hf as [(Hal & H0 & Hl0 & H16 & Hout & Hin) Hf].
  assert (IH' : forall c, In c [SYSVC_NONE; SYSVC_INTEGER; SYSVC_SSE] -> sysv_fields rec (index * 8) base fs c
     = Some (dc_merge_sysv_classes c (abi_class index (concat (map (field_leaves base) fs))))) by (intros; by apply IH).
  cbn [map concat]. rewrite abi_class_app.
  destruct f as [o sz a len ty sub]. cbn [sysv_fields].
  cbn [f_alignment f_offset f_size f_array_len f_type f_sub_aggr] in *.
  rewrite (u64_small (base + o)), (u64_small (index * 8 + 8)), (u64_small (index * 8)), (u64_small (_ + _)) by lia.
  destruct (Z.leb_spec (index * 8 + 8) (base + o)) as [Hle|Hlt]; cbn [orb].
  { rewrite Hout, IH' by (done || lia). done. }
  destruct (Z.leb_spec (base + o + sz * len) (index * 8)) as [Hle|Hgt].
  { rewrite Hout, IH' by (done || lia). done. }
  destruct (Hin ltac:(lia) ltac:(lia)) as [Hland Hnew].
  assert (Z.land a (a - 1) = 0) as -> by (by destruct Hal as [<-|[<-|[<-|[<-|[<-|[]]]]]]).
  cbn [negb Z.eqb]. destruct (Z.eqb_spec a 0) as [->|Hne]; cbn [negb andb].
  - rewrite Hnew. cbn [mbind option_bind]. destruct (Z.eqb_spec clz (abi_class index (field_leaves base (mkField o sz 0 len ty sub)))) as [E|_].
    + rewrite IH' by done. rewrite <- E, <- merge_assoc_abi by (done || apply abi_class_known).
      f_equal. f_equal. by destruct Hc as [<-|[<-|[<-|[]]]].
    + rewrite IH' by (apply merge_abi; [done|apply abi_class_known]).
      by rewrite merge_assoc_abi by (done || apply abi_class_known).
  - rewrite (Hland Hne), Hnew. cbn [mbind option_bind negb Z.eqb].
    destruct (Z.eqb_spec clz (abi_class index (field_leaves base (mkField o sz a len ty sub)))) as [E|_].
    + rewrite IH' by done. rewrite <- E, <- merge_assoc_abi by (done || apply abi_class_known).
      f_equal. f_equal. by destruct Hc as [<-|[<-|[<-|[]]]].
    + rewrite IH' by (apply merge_abi; [done|apply abi_class_known]).
      by rewrite merge_assoc_abi by (done || apply abi_class_known).
Qed.

Lemma class_8byte_spec ag : desc_wf ag -> forall index base,
  0 <= index <= 1 -> 0 <= base -> base + ag_size ag <= 16 -> lay_ok ag base = true ->
  dc_get_sysv_class_for_8byte ag index base = Some (abi_class index (leaves ag base)).
Proof.
  induction ag as [ag IH] using DCaggr_nested_ind. intros Hw index base Hix Hb Hfit Hl.
  rewrite sysv_class_unfold, leaves_unfold. apply lay_ok_fields in Hl.
  rewrite List.Forall_forall in IH, Hl. rewrite sysv_fields_class; [done|done|done|cbn; tauto|].
  apply List.Forall_forall. intros f Hin. pose proof (Hl f Hin) as Hlf.
  destruct (field_class index base ag f Hix Hb Hfit Hw Hin Hlf) as [Hout Hcls].
  { intros s Es b Hb0 Hb16 Hlb. exact (IH f Hin s Es (desc_sub _ _ _ Hw Hin Es) index b Hix Hb0 Hb16 Hlb). }
  destruct Hlf as (H0 & H1 & H2 & _). split; [by apply (field_alignment f ag)|].
  split; [lia|]. split; [|split; [lia|split; [exact Hout|exact Hcls]]].
  destruct (desc_level _ Hw) as [Hfw _ _ _ _]. rewrite List.Forall_forall in Hfw. specialize (Hfw f Hin).
  assert (0 <= f_size f); [|nia]. unfold field_wf in Hfw. destruct (cty_of_sigchar (f_type f)) as [t|].
  - destruct Hfw as (-> & _). pose proof (sizeof_cty_range t). lia.
  - destruct Hfw as (_ & s & Es & -> & _). apply (desc_level _ (desc_sub _ _ _ Hw Hin Es)).
Qed.

(** C15: descriptions made by [dcNewAggr], [dcAggrField] and [dcCloseAggr] are
    well formed.  Every sequence of valid fields within the allocated number is
    accepted, in order; each field gets the size and alignment of its type, the
    alignment of the aggregate is the strictest of its fields' (0, 1, 2, 4 or
    8), and closing - on System V the classification of both eightbytes, nested
    descriptions included - never fails an assertion and only writes the
    classes. *)
Theorem description_well_formed sysv junk max size ds :
  0 <= size -> (3 <= length junk)%nat -> Forall decl_wf ds -> Z.of_nat (length ds) <= max ->
  exists ag ag', add_fields (dcNewAggr junk max size) ds = Some ag /\ dcCloseAggr sysv ag = Some ag' /\
    desc_wf ag' /\ ag_size ag' = size /\
    map (fun f => (f_type f, f_offset f, f_array_len f)) (ag_fields ag') = map fst ds.
Proof.
  intros Hs Hj Hd Hn.
  destruct (add_fields_wf ds _ (new_wf junk max size Hs) Hd) as (ag & Ha & Hw & Esz & _ & Ec & Ef); [done|].
  destruct (close_total sysv ag Hw) as (ag' & Hc); [by rewrite Ec|].
  destruct (close_level _ _ _ Hc) as (E1 & _ & _ & E4 & _).
  exists ag, ag'. split_and!; [done|done|by apply (close_wf _ _ _ Hw Hc)|by rewrite E1, Esz|by rewrite E4, Ef].
Qed.

Lemma finish_small ag c0 c1 :
  ag_size ag <= 16 -> (3 <= length (ag_sysv_classes ag))%nat ->
  dc_get_sysv_class_for_8byte ag 0 0 = Some c0 -> dc_get_sysv_class_for_8byte ag 1 0 = Some c1 ->
  exists ag', dcCloseAggr true ag = Some ag' /\
    ag_sysv_classes ag'
    = if c0 =? SYSVC_MEMORY then <[0%nat := c0]> (ag_sysv_classes ag)
      else if c1 =? SYSVC_MEMORY then <[0%nat := SYSVC_MEMORY]> (<[1%nat := c1]> (<[0%nat := c0]> (ag_sysv_classes ag)))
      else <[2%nat := SYSVC_NONE]> (<[1%nat := c1]> (<[0%nat := c0]> (ag_sysv_classes ag))).
Proof.
  intros Hs Hl H0 H1. unfold dcCloseAggr, dcFinishAggr, dc_get_sysv_classes_for_aggr.
  rewrite (proj2 (Z.ltb_ge _ _)), H0 by lia. cbn [mbind option_bind]. rewrite aset_Some by lia.
  cbn [mbind option_bind]. destruct (c0 =? SYSVC_MEMORY); cbn [negb]; [by eexists|].
  rewrite H1. cbn [mbind option_bind]. rewrite aset_Some by (rewrite length_insert; lia). cbn [mbind option_bind].
  destruct (c1 =? SYSVC_MEMORY); rewrite aset_Some by (rewrite !length_insert; lia); by eexists.
Qed.

Lemma finish_large ag :
  16 < ag_size ag -> (1 <= length (ag_sysv_classes ag))%nat ->
  exists ag', dcCloseAggr true ag = Some ag' /\ aget 0 (ag_sysv_classes ag') = Some SYSVC_MEMORY.
Proof.
  intros Hs Hl. unfold dcCloseAggr, dcFinishAggr, dc_get_sysv_classes_for_aggr.
  rewrite (proj2 (Z.ltb_lt _ _)), aset_Some by lia. cbn [mbind option_bind]. eexists. split; [done|].
  apply (aget_insert_eq 0). lia.
Qed.

Lemma finish_laid_out ag :
  desc_wf ag -> (3 <= length (ag_sysv_classes ag))%nat -> lay_ok ag 0 = true -> ag_size ag <= 16 ->
  exists ag' rest, dcCloseAggr true ag = Some ag' /\
    ag_sysv_classes ag' = abi_class 0 (leaves ag 0) :: abi_class 1 (leaves ag 0) :: SYSVC_NONE :: rest.
Proof.
  intros Hw Hl Hlay Hsz.
  destruct (finish_small ag (abi_class 0 (leaves ag 0)) (abi_class 1 (leaves ag 0))) as (ag' & Hc & E);
    [lia|done|by apply class_8byte_spec; [..|lia|]|by apply class_8byte_spec; [..|lia|]|].
  assert (Hm : forall i, (abi_class i (leaves ag 0) =? SYSVC_MEMORY) = false)
    by (intros i; by destruct (abi_class_known i (leaves ag 0)) as [<-|[<-|[<-|[]]]]).
  rewrite !Hm in E. destruct (ag_sysv_classes ag) as [|x0 [|x1 [|x2 xs]]]; cbn in Hl; try lia.
  exists ag', xs. split; [exact Hc|exact E].
Qed.

(** C14: the classification of the System V ABI.  For every well-formed
    description - arrays and nested aggregates to any depth - whose fields are
    laid out inside it, aligned, with nested aggregates at multiples of eight
    bytes, [dcCloseAggr] computes: MEMORY for more than 16 bytes; otherwise for
    each of the two eightbytes INTEGER when an integer or pointer leaf overlaps
    it, SSE when only floating point leaves do, NONE when none does. *)
Theorem sysv_classification_correct ag :
  desc_wf ag -> (3 <= length (ag_sysv_classes ag))%nat -> lay_ok ag 0 = true ->
  exists ag', dcCloseAggr true ag = Some ag' /\
    if decide (16 < ag_size ag) then aget 0 (ag_sysv_classes ag') = Some SYSVC_MEMORY
    else aget 0 (ag_sysv_classes ag') = Some (abi_class 0 (leaves ag 0)) /\
         aget 1 (ag_sysv_classes ag') = Some (abi_class 1 (leaves ag 0)) /\
         aget 2 (ag_sysv_classes ag') = Some SYSVC_NONE.
Proof.
  intros Hw Hl Hlay. case_decide as Hsz.
  - apply finish_large; lia.
  - destruct (finish_laid_out ag Hw Hl Hlay) as (ag' & rest & Hc & E); [lia|]. exists ag'. by rewrite E.
Qed.

Lemma misaligned_memory rec index size fs f :
  0 <= index <= 1 -> size <= 16 ->
  Forall (fun g => field_wf g /\ f_sub_aggr g = None /\ 0 <= f_offset g /\ 1 <= f_array_len g /\
                   f_offset g + f_size g * f_array_len g <= size) fs ->
  In f fs -> f_offset f mod f_size f <> 0 ->
  f_offset f < 8 * index + 8 -> 8 * index < f_offset f + f_size f * f_array_len f ->
  forall clz, sysv_fields rec (index * 8) 0 fs clz = Some SYSVC_MEMORY.
Proof.
  intros Hix Hsz Hfs Hin Hmis Hlt Hgt. induction fs as [|g fs IH]; [done|]. intros clz.
  apply Forall_cons in Hfs as [(Hw & Hsub & H0 & H1 & H2) Hfs]. unfold field_wf in Hw.
  destruct (cty_of_sigchar (f_type g)) as [t|] eqn:Et; [|destruct Hw as (_ & s & E & _); congruence].
  destruct Hw as (Es & Ea & _). pose proof (sizeof_cty_range t) as Ht. pose proof (sizeof_cty_pow2 t) as Hp.
  rewrite <- Es in Ht, Hp. rewrite <- Es in Ea. clear Es.
  assert (IH' : g <> f -> forall clz, sysv_fields rec (index * 8) 0 fs clz = Some SYSVC_MEMORY).
  { intros Hne. apply IH; [done|]. by destruct Hin as [->|]. }
  destruct g as [o sz a len ty sub]. cbn [sysv_fields f_offset f_size f_alignment f_array_len f_type f_sub_aggr] in *.
  subst a sub. rewrite (u64_small (0 + o)), (u64_small (index * 8 + 8)), (u64_small (index * 8)), (u64_small (_ + _)) by nia.
  rewrite Z.add_0_l.
  destruct (Z.leb_spec (index * 8 + 8) o) as [Hle|Ho1]; cbn [orb]; [apply IH'; intros <-; cbn in *; lia|].
  destruct (Z.leb_spec (o + sz * len) (index * 8)) as [Hle|Ho2]; [apply IH'; intros <-; cbn in *; lia|].
  assert (Z.land sz (sz - 1) = 0) as -> by (by destruct Hp as [<-|[<-|[<-|[<-|[]]]]]).
  rewrite land_pow2 by done. cbn [negb Z.eqb]. rewrite (proj2 (Z.eqb_neq sz 0)) by lia. cbn [negb andb].
  destruct (Z.eqb_spec (o mod sz) 0) as [Hal|Hal]; cbn [negb]; [|done].
  assert (Hc : exists c, sysv_new_class rec (index * 8) o sz len ty None = Some c)
    by (unfold sysv_new_class; rewrite Et; destruct t; by eexists).
  destruct Hc as (c & ->). cbn [mbind option_bind].
  assert (mkField o sz sz len ty None <> f) by (intros <-; cbn in *; done).
  destruct (clz =? c); by apply IH'.
Qed.

(** Packed structs go to memory.  A description of scalars and arrays of
    scalars with a field that is not aligned to its size, wherever it lies in
    the first sixteen bytes, is classified MEMORY. *)
Theorem packed_struct_in_memory ag f :
  desc_wf ag -> (3 <= length (ag_sysv_classes ag))%nat -> ag_size ag <= 16 ->
  Forall (fun g => f_sub_aggr g = None /\ 0 <= f_offset g /\ 1 <= f_array_len g /\
                   f_offset g + f_size g * f_array_len g <= ag_size ag) (ag_fields ag) ->
  In f (ag_fields ag) -> f_offset f mod f_size f <> 0 ->
  exists ag', dcCloseAggr true ag = Some ag' /\ aget 0 (ag_sysv_classes ag') = Some SYSVC_MEMORY.
Proof.
  intros Hw Hlen Hsz Hfs Hin Hmis.
  destruct (class_total ag Hw 0 0) as (c0 & H0 & _), (class_total ag Hw 1 0) as (c1 & H1 & _).
  destruct (finish_small ag c0 c1 Hsz Hlen H0 H1) as (ag' & Hc & E). exists ag'. split; [done|]. rewrite E.
  cut (c0 = SYSVC_MEMORY \/ c1 = SYSVC_MEMORY).
  { intros Hor. destruct (Z.eqb_spec c0 SYSVC_MEMORY) as [->|]; [apply (aget_insert_eq 0); lia|].
    destruct (Z.eqb_spec c1 SYSVC_MEMORY) as [->|]; [|tauto]. apply (aget_insert_eq 0).
    rewrite !length_insert. lia. }
  destruct (desc_level _ Hw) as [Hfw _ _ _ _].
  assert (Hall : Forall (fun g => field_wf g /\ f_sub_aggr g = None /\ 0 <= f_offset g /\ 1 <= f_array_len g /\
                   f_offset g + f_size g * f_array_len g <= ag_size ag) (ag_fields ag)).
  { rewrite List.Forall_forall in Hfw, Hfs. apply List.Forall_forall. auto. }
  pose proof Hall as Hf. rewrite List.Forall_forall in Hf. destruct (Hf f Hin) as (Hff & _ & F0 & F1 & F2). clear Hf.
  assert (0 < f_size f) as Hs.
  { unfold field_wf in Hff. rewrite List.Forall_forall in Hfs. destruct (Hfs f Hin) as (Hn & _).
    destruct (cty_of_sigchar (f_type f)) as [t|]; [|destruct Hff as (_ & s & E' & _); congruence].
    destruct Hff as (-> & _). pose proof (sizeof_cty_range t). lia. }
  rewrite !sysv_class_unfold in H0, H1.
  destruct (Z.lt_ge_cases (f_offset f) 8) as [Hlt|Hge].
  - left. rewrite (misaligned_memory _ 0 (ag_size ag) (ag_fields ag) f) in H0; try done; [congruence|lia..|nia].
  - right. rewrite (misaligned_memory _ 1 (ag_size ag) (ag_fields ag) f) in H1; try done; [congruence|lia..|nia|nia].
Qed.

(** [struct { float a; <sub> s; }] with [s] at offset 4. *)
Definition float_then (junk : list Z) (sub : DCaggr) : option DCaggr :=
  add_fields (dcNewAggr junk 2 (4 + ag_size sub)) [(DC_SIGCHAR_FLOAT, 0, 1, None); (DC_SIGCHAR_AGGREGATE, 4, 1, Some sub)].

(** A nested aggregate that does not start at a multiple of eight bytes
    is misclassified.  The index [j] of its first element in the eightbyte is
    an unsigned difference that wraps around when the aggregate starts behind
    the eightbyte's start.  In [struct {float a; struct {float b; int c;} s;}]
    a phantom element in front of [s] makes the first eightbyte INTEGER, and in
    [struct {float a; struct {char c[3];} s;}] the loop runs over no element
    at all, which makes it SSE; both are the opposite of what their leaves say. *)
Theorem nested_struct_misclassified j :
  let junk := replicate 8 j in
  exists s1 a1 a1' s2 a2 a2',
    add_fields (dcNewAggr junk 2 8) [(DC_SIGCHAR_FLOAT, 0, 1, None); (DC_SIGCHAR_INT, 4, 1, None)] = Some s1 /\
    float_then junk s1 = Some a1 /\ dcCloseAggr true a1 = Some a1' /\
    aget 0 (ag_sysv_classes a1') = Some SYSVC_INTEGER /\ abi_class 0 (leaves a1 0) = SYSVC_SSE /\
    add_fields (dcNewAggr junk 1 3) [(DC_SIGCHAR_CHAR, 0, 3, None)] = Some s2 /\
    float_then junk s2 = Some a2 /\ dcCloseAggr true a2 = Some a2' /\
    aget 0 (ag_sysv_classes a2') = Some SYSVC_SSE /\ abi_class 0 (leaves a2 0) = SYSVC_INTEGER.
Proof.
  intros js. eexists _, _, _, _, _, _.
  split; [reflexivity|]. split; [reflexivity|]. split; [vm_compute; reflexivity|].
  split; [vm_compute; reflexivity|]. split; [vm_compute; reflexivity|].
  split; [reflexivity|]. split; [reflexivity|]. split; [vm_compute; reflexivity|].
  split; vm_compute; reflexivity.
Qed.

End Spec.

(** ** Descriptions, exactly *)

Section Exact.
Context {DM : DataModel}.

Definition field_of (d : field_decl) : DCfield :=
  let '(ty, off, len, sub) := d in
  match cty_of_sigchar ty with
  | Some t => mkField off (sizeof_cty t) (sizeof_cty t) len ty None
  | None => mkField off (default 0 (ag_size <$> sub)) (default 0 (ag_alignment <$> sub)) len ty sub
  end.

Lemma add_field_exact ag ty off len sub ag' :
  dcAggrField ag ty off len sub = Some ag' -> ag_fields ag' = ag_fields ag ++ [field_of (ty, off, len, sub)].
Proof.
  unfold dcAggrField, field_of. destruct (_ <? _); [|done].
  destruct (cty_of_sigchar ty); [by intros [= <-]|]. destruct (Ascii.eqb _ _); [|done].
  destruct sub; [|done]. by intros [= <-].
Qed.

Lemma add_fields_exact ds : forall ag ag',
  add_fields ag ds = Some ag' -> ag_fields ag' = ag_fields ag ++ map field_of ds.
Proof.
  induction ds as [|[[[ty off] len] sub] ds IH]; intros ag ag' H; cbn in H.
  - injection H as <-. by rewrite app_nil_r.
  - apply bind_Some in H as (ag1 & H1 & H). apply add_field_exact in H1. apply IH in H.
    by rewrite H, H1, <- app_assoc.
Qed.

Lemma lay_ok_intro ag base :
  Forall (field_lay (ag_size ag) base) (ag_fields ag) -> lay_ok ag base = true.
Proof.
  destruct ag as [size n al cls fs mx]. cbn [ag_fields ag_size lay_ok].
  induction 1 as [|[o sz a len ty sub] fs (H0 & H1 & H2 & Ht) _ IH]; [done|].
  cbn [f_offset f_size f_array_len f_type f_sub_aggr] in *. rewrite IH, andb_true_r.
  rewrite (proj2 (Z.leb_le _ _)), (proj2 (Z.leb_le _ _)), (proj2 (Z.leb_le _ _)) by lia. cbn [andb].
  destruct (cty_of_sigchar ty); [by apply Z.eqb_eq|]. destruct sub as [s|]; [|done].
  destruct Ht as [Hm Hs]. rewrite (proj2 (Z.eqb_eq _ _)) by done. apply forallb_forall.
  intros i Hi%list_elem_of_In%elem_of_seqZ. apply Hs. lia.
Qed.
End Exact.
