(* ===== verification/Callf.v ===== *)
(** * Formatted calls (dyncall/dyncall_callf.{h,c}, dyncall_value.h)

    The interpreter of signature strings: arguments are taken from a
    [va_list] as the signature says, calling convention prefixes switch the
    mode, and the character after [')'] selects the call.  It works on any call
    VM of Api.v. *)

From S2P Require Export Api.

(** ** Variable argument lists

    The items of a [va_list], by promoted type.  [va_arg] with another type
    than the item's, or past the end, is undefined. *)

Inductive va :=
  | VInt (z : Z)              (** [DCint], also for the smaller types *)
  | VLong (z : Z)
  | VLongLong (z : Z)
  | VDouble (z : Z)           (** bit pattern *)
  | VPointer (z : Z)
  | VAggr (ag : option DCaggr)  (** a [DCaggr*] *)
  | VObj (x : objptr).        (** a pointer to an object *)

(** The rest of a signature a pointer points to; none when the pointer has
    moved past the terminating NUL. *)
Definition sigptr := option (list DCsigchar).

Section Callf.
Context {DM : DataModel} {VM VT K R : Type} {C : CallVM VM VT K R}.

(** The conversion from [double] to [float] on bit patterns. *)
Variable double_to_float : Z -> Z.

(** [handle_mode]: [sig] starts at the mode character.  The character is only
    consumed when another one follows it; looking behind the NUL is undefined. *)
Definition handle_mode (vm : VM) (sig : list DCsigchar) : option (VM * list DCsigchar) :=
  match sig with
  | [] => None
  | [_] => Some (vm, sig)
  | m :: rest =>
    let mode := dcGetModeFromCCSigChar m in
    vm ← (if mode =? DC_ERROR_UNSUPPORTED_MODE then Some vm else dcMode vm mode);
    Some (vm, rest)
  end.

(** One [case] of the type [switch] of [dcArgF_impl]. *)
Definition dcArgF_type (vm : VM) (t : cty) (args : list va) : option (VM * list va) :=
  match t, args with
  | TBool, VInt z :: args => vm ← dcArgBool vm (conv TBool z); Some (vm, args)
  | TChar, VInt z :: args => vm ← dcArgChar vm (conv TChar z); Some (vm, args)
  | TUChar, VInt z :: args => vm ← dcArgChar vm (conv TChar (conv TUChar z)); Some (vm, args)
  | TShort, VInt z :: args => vm ← dcArgShort vm (conv TShort z); Some (vm, args)
  | TUShort, VInt z :: args => vm ← dcArgShort vm (conv TShort (conv TUShort z)); Some (vm, args)
  | TInt, VInt z :: args => vm ← dcArgInt vm (conv TInt z); Some (vm, args)
  | TUInt, VInt z :: args => vm ← dcArgInt vm (conv TInt (conv TUInt z)); Some (vm, args)
  | TLong, VLong z :: args => vm ← dcArgLong vm (conv TLong z); Some (vm, args)
  | TULong, VLong z :: args => vm ← dcArgLong vm (conv TLong (conv TULong z)); Some (vm, args)
  | TLongLong, VLongLong z :: args => vm ← dcArgLongLong vm (conv TLongLong z); Some (vm, args)
  | TULongLong, VLongLong z :: args =>
    vm ← dcArgLongLong vm (conv TLongLong (conv TULongLong z)); Some (vm, args)
  | TFloat, VDouble z :: args => vm ← dcArgFloat vm (double_to_float z); Some (vm, args)
  | TDouble, VDouble z :: args => vm ← dcArgDouble vm z; Some (vm, args)
  | (TPointer | TString), VPointer z :: args => vm ← dcArgPointer vm z; Some (vm, args)
  | _, _ => None
  end.

Fixpoint dcArgF_impl (vm : VM) (sig : list DCsigchar) (args : list va) {struct sig}
    : option (VM * sigptr * list va) :=
  match sig with
  | [] => Some (vm, None, args)
  | ch :: sig =>
    if Ascii.eqb ch DC_SIGCHAR_ENDARG then Some (vm, Some sig, args)
    else if Ascii.eqb ch DC_SIGCHAR_CC_PREFIX then
      match sig with
      | [] => None
      | [_] => dcArgF_impl vm sig args
      | m :: rest =>
        let mode := dcGetModeFromCCSigChar m in
        vm ← (if mode =? DC_ERROR_UNSUPPORTED_MODE then Some vm else dcMode vm mode);
        dcArgF_impl vm rest args
      end
    else match cty_of_sigchar ch with
    | Some t => '(vm, args) ← dcArgF_type vm t args; dcArgF_impl vm sig args
    | None =>
      if Ascii.eqb ch DC_SIGCHAR_AGGREGATE then
        match args with
        | VAggr ag :: VObj x :: args => vm ← dcArgAggr vm ag x; dcArgF_impl vm sig args
        | _ => None
        end
      else dcArgF_impl vm sig args
    end
  end.

(** [dcArgF] and [dcVArgF] only differ in who owns the [va_list]. *)
Definition dcVArgF (vm : VM) (signature : list DCsigchar) (args : list va) : option VM :=
  '(vm, _, _) ← dcArgF_impl vm signature args; Some vm.
Definition dcArgF := dcVArgF.

(** The preparatory scan of [dcVCallF]: modes are applied, the [va_list] copy
    is walked, and the last aggregate seen is the result's. *)
Fixpoint prescan (vm : VM) (sig : list DCsigchar) (args : list va)
    (ret_ag : option DCaggr) (ret : option objptr) {struct sig}
    : option (VM * option DCaggr * option objptr) :=
  match sig with
  | [] => Some (vm, ret_ag, ret)
  | ch :: sig =>
    if Ascii.eqb ch DC_SIGCHAR_CC_PREFIX then
      match sig with
      | [] => None
      | [_] => prescan vm sig args ret_ag ret
      | m :: rest =>
        let mode := dcGetModeFromCCSigChar m in
        vm ← (if mode =? DC_ERROR_UNSUPPORTED_MODE then Some vm else dcMode vm mode);
        prescan vm rest args ret_ag ret
      end
    else match cty_of_sigchar ch with
    | Some t =>
      match t, args with
      | (TBool | TChar | TUChar | TShort | TUShort | TInt | TUInt), VInt _ :: args
      | (TLong | TULong), VLong _ :: args
      | (TLongLong | TULongLong), VLongLong _ :: args
      | (TFloat | TDouble), VDouble _ :: args
      | (TPointer | TString), VPointer _ :: args => prescan vm sig args ret_ag ret
      | _, _ => None
      end
    | None =>
      if Ascii.eqb ch DC_SIGCHAR_AGGREGATE then
        match args with
        | VAggr ag :: VObj x :: args => prescan vm sig args ag (Some x)
        | _ => None
        end
      else prescan vm sig args ret_ag ret
    end
  end.

(** The loop that advances [ptr] while a character follows: the last character,
    if any. *)
Definition last_sigchar (sig : list DCsigchar) : option DCsigchar := last sig.

(** What a call stores in [*result]. *)
Inductive call_result :=
  | CRVoid
  | CRValue (t : cty) (z : Z)
  | CRAggr (ret : Z) (bytes : list Z)
  | CRUnchanged.

(** [run] carries out a call, [retval] is the value a C function of the given
    type returns. *)
Variable run : K -> option R.
Variable retval : cty -> R -> Z.

Definition dcCallF_type (vm : VM) (t : cty) (funcptr : Z) : option call_result :=
  let value t' k := r ← run k; Some (CRValue t (conv t (retval t' r))) in
  match t with
  | TBool => value TBool (dcCallBool vm funcptr)
  | TChar | TUChar => value TChar (dcCallChar vm funcptr)
  | TShort | TUShort => value TShort (dcCallShort vm funcptr)
  | TInt | TUInt => value TInt (dcCallInt vm funcptr)
  | TLong | TULong => value TLong (dcCallLong vm funcptr)
  | TLongLong | TULongLong => value TLongLong (dcCallLongLong vm funcptr)
  | TFloat => value TFloat (dcCallFloat vm funcptr)
  | TDouble => value TDouble (dcCallDouble vm funcptr)
  | TPointer | TString => value TPointer (dcCallPointer vm funcptr)
  end.

Definition dcVCallF (vm : VM) (funcptr : Z) (signature : list DCsigchar) (args : list va)
    : option (VM * call_result) :=
  '(vm, ret_ag, ret) ←
    match last_sigchar signature with
    | Some c =>
      if Ascii.eqb c DC_SIGCHAR_AGGREGATE then
        '(vm, ret_ag, ret) ← prescan vm signature args None None;
        vm ← dcBeginCallAggr vm ret_ag;
        Some (vm, ret_ag, ret)
      else Some (vm, None, None)
    | None => Some (vm, None, None)
    end;
  '(vm, ptr, _) ← dcArgF_impl vm signature args;
  sig ← ptr;
  res ←
    match sig with
    | [] => Some CRUnchanged
    | ch :: _ =>
      if Ascii.eqb ch DC_SIGCHAR_VOID then _ ← run (dcCallVoid vm funcptr); Some CRVoid
      else match cty_of_sigchar ch with
      | Some t => dcCallF_type vm t funcptr
      | None =>
        if Ascii.eqb ch DC_SIGCHAR_AGGREGATE then
          x ← ret;
          '(p, bytes) ← dcCallAggr run vm funcptr ret_ag (op_addr x);
          Some (CRAggr p bytes)
        else Some CRUnchanged
      end
    end;
  Some (vm, res).
Definition dcCallF := dcVCallF.

(** ** The signature of a call and the arguments a client passes for it *)

(** [float_to_double]: the default argument promotion. *)
Variable float_to_double : Z -> Z.

Definition va_of_arg (a : arg) : va :=
  let z := a_val a in
  match a_ty a with
  | TBool | TChar | TUChar | TShort | TUShort | TInt => VInt z
  | TUInt => VInt (conv TInt z)
  | TLong => VLong z
  | TULong => VLong (conv TLong z)
  | TLongLong => VLongLong z
  | TULongLong => VLongLong (conv TLongLong z)
  | TFloat => VDouble (float_to_double z)
  | TDouble => VDouble z
  | TPointer | TString => VPointer z
  end.

Definition va_of_item (it : item) : list va :=
  match it with
  | IScalar a => [va_of_arg a]
  | IAggr ag x => [VAggr ag; VObj x]
  end.

Definition sigchar_of_item (it : item) : DCsigchar :=
  match it with
  | IScalar a => sigchar_of (a_ty a)
  | IAggr _ _ => DC_SIGCHAR_AGGREGATE
  end.

Inductive result_type := RTVoid | RTScalar (t : cty) | RTAggr (ag : option DCaggr) (ret : objptr).

Definition sigchar_of_result (rt : result_type) : DCsigchar :=
  match rt with
  | RTVoid => DC_SIGCHAR_VOID
  | RTScalar t => sigchar_of t
  | RTAggr _ _ => DC_SIGCHAR_AGGREGATE
  end.

Definition va_of_result (rt : result_type) : list va :=
  match rt with RTAggr ag ret => [VAggr ag; VObj ret] | _ => [] end.

Definition prefix_of (cc : option DCsigchar) : list DCsigchar :=
  match cc with Some c => [DC_SIGCHAR_CC_PREFIX; c] | None => [] end.

Definition signature_of (cc : option DCsigchar) (l : list item) (rt : result_type)
    : list DCsigchar :=
  prefix_of cc ++ map sigchar_of_item l ++ [DC_SIGCHAR_ENDARG; sigchar_of_result rt].

Definition va_of_call (l : list item) (rt : result_type) : list va :=
  concat (map va_of_item l) ++ va_of_result rt.

(** The call a client would write by hand with the unformatted API. *)
Definition set_mode (vm : VM) (cc : option DCsigchar) : option VM :=
  match cc with
  | Some c =>
    let mode := dcGetModeFromCCSigChar c in
    if mode =? DC_ERROR_UNSUPPORTED_MODE then Some vm else dcMode vm mode
  | None => Some vm
  end.

(** The C type the call function of a result type ([dcCall_as]) returns: there is
    none for the unsigned types and strings, their values come as the signed
    type or pointer and are converted by the assignment. *)
Definition called_cty (t : cty) : cty :=
  match t with
  | TUChar => TChar | TUShort => TShort | TUInt => TInt | TULong => TLong
  | TULongLong => TLongLong | TString => TPointer
  | t => t
  end.

Definition call_by_hand (vm : VM) (funcptr : Z) (cc : option DCsigchar) (l : list item)
    (rt : result_type) : option (VM * call_result) :=
  vm ← set_mode vm cc;
  match rt with
  | RTVoid =>
    vm ← push_items vm l;
    _ ← run (dcCallVoid vm funcptr); Some (vm, CRVoid)
  | RTScalar t =>
    vm ← push_items vm l;
    r ← run (dcCall_as t vm funcptr);
    Some (vm, CRValue t (conv t (retval (called_cty t) r)))
  | RTAggr ag ret =>
    vm ← dcBeginCallAggr vm ag;
    vm ← set_mode vm cc;
    vm ← push_items vm l;
    '(p, bytes) ← dcCallAggr run vm funcptr ag (op_addr ret); Some (vm, CRAggr p bytes)
  end.

Definition item_scalar_ok (it : item) : Prop :=
  match it with
  | IScalar a => arg_ok a /\ (a_ty a = TFloat -> double_to_float (float_to_double (a_val a)) = a_val a)
  | IAggr _ _ => True
  end.

Context {OK : DataModelOk}.

Lemma dcArgF_type_push vm a args :
  item_scalar_ok (IScalar a) ->
  dcArgF_type vm (a_ty a) (va_of_arg a :: args) = (vm ← push_arg vm a; Some (vm, args)).
Proof.
  destruct a as [t z]. intros [Hz Hf]. unfold arg_ok in Hz; cbn [a_ty a_val] in *.
  pose proof (val_ok_conv _ _ Hz) as Hc. unfold va_of_arg, push_arg; cbn [a_ty a_val].
  destruct t; cbn [dcArgF_type]; rewrite ?Hc; try done.
  - by rewrite (conv_conv TUInt TInt), Hc by (cbn; lia).
  - by rewrite (conv_conv TULong TLong), Hc by (cbn; lia).
  - by rewrite (conv_conv TULongLong TLongLong), Hc by (cbn; lia).
  - by rewrite Hf.
Qed.

(** Both loops continue where [handle_mode] leaves the pointer. *)
Lemma dcArgF_impl_mode vm sig args :
  dcArgF_impl vm (DC_SIGCHAR_CC_PREFIX :: sig) args
  = ('(vm, sig) ← handle_mode vm sig; dcArgF_impl vm sig args).
Proof.
  destruct sig as [|m [|c rest]]; [done|done|]. unfold handle_mode.
  cbn [dcArgF_impl]. change (Ascii.eqb DC_SIGCHAR_CC_PREFIX DC_SIGCHAR_ENDARG) with false.
  change (Ascii.eqb DC_SIGCHAR_CC_PREFIX DC_SIGCHAR_CC_PREFIX) with true. cbn beta iota zeta.
  by destruct (_ =? _); cbn [mbind option_bind]; [|destruct (dcMode vm _)].
Qed.

Lemma prescan_mode vm sig args ra ret :
  prescan vm (DC_SIGCHAR_CC_PREFIX :: sig) args ra ret
  = ('(vm, sig) ← handle_mode vm sig; prescan vm sig args ra ret).
Proof.
  destruct sig as [|m [|c rest]]; [done|done|]. unfold handle_mode.
  cbn [prescan]. change (Ascii.eqb DC_SIGCHAR_CC_PREFIX DC_SIGCHAR_CC_PREFIX) with true.
  cbn beta iota zeta. by destruct (_ =? _); cbn [mbind option_bind]; [|destruct (dcMode vm _)].
Qed.

Lemma handle_mode_set vm m c rest :
  handle_mode vm (m :: c :: rest) = (vm ← set_mode vm (Some m); Some (vm, c :: rest)).
Proof. done. Qed.

Lemma sigchar_cases t :
  Ascii.eqb (sigchar_of t) DC_SIGCHAR_ENDARG = false /\
  Ascii.eqb (sigchar_of t) DC_SIGCHAR_CC_PREFIX = false /\
  Ascii.eqb (sigchar_of t) DC_SIGCHAR_AGGREGATE = false /\
  Ascii.eqb (sigchar_of t) DC_SIGCHAR_VOID = false.
Proof. by destruct t. Qed.

(** Arguments by signature are arguments by hand. *)
Lemma dcArgF_impl_items l : forall vm sig args,
  Forall item_scalar_ok l ->
  dcArgF_impl vm (map sigchar_of_item l ++ sig) (concat (map va_of_item l) ++ args)
  = (vm ← push_items vm l; dcArgF_impl vm sig args).
Proof.
  induction l as [|it l IH]; intros vm sig args Hl; [done|].
  apply Forall_cons in Hl as [Hit Hl]. unfold push_items in *. cbn [map concat app foldM dcArgF_impl].
  destruct it as [a|ag x]; cbn [sigchar_of_item va_of_item push_item app].
  - destruct (sigchar_cases (a_ty a)) as (-> & -> & _). rewrite cty_of_sigchar_of.
    rewrite dcArgF_type_push by done. destruct (push_arg vm a) as [vm'|]; cbn [mbind option_bind]; [|done].
    by apply IH.
  - change (Ascii.eqb DC_SIGCHAR_AGGREGATE DC_SIGCHAR_ENDARG) with false.
    change (Ascii.eqb DC_SIGCHAR_AGGREGATE DC_SIGCHAR_CC_PREFIX) with false.
    change (cty_of_sigchar DC_SIGCHAR_AGGREGATE) with (@None cty).
    change (Ascii.eqb DC_SIGCHAR_AGGREGATE DC_SIGCHAR_AGGREGATE) with true. cbn beta iota.
    destruct (dcArgAggr vm ag x) as [vm'|]; cbn [mbind option_bind]; [|done]. by apply IH.
Qed.

Lemma prefix_step {A} (f : VM -> list DCsigchar -> option A) vm cc sig :
  sig <> [] ->
  (forall vm m rest, rest <> [] ->
     f vm (DC_SIGCHAR_CC_PREFIX :: m :: rest)
     = ('(vm, sig) ← handle_mode vm (m :: rest); f vm sig)) ->
  f vm (prefix_of cc ++ sig) = (vm ← set_mode vm cc; f vm sig).
Proof.
  intros Hs Hf. destruct cc as [m|]; [|done]. destruct sig as [|c rest]; [done|].
  cbn [prefix_of app]. rewrite Hf, handle_mode_set by done. by destruct (set_mode vm (Some m)).
Qed.

Lemma prescan_items l : forall vm sig args ra ret,
  exists ra' ret',
  prescan vm (map sigchar_of_item l ++ sig) (concat (map va_of_item l) ++ args) ra ret
  = prescan vm sig args ra' ret'.
Proof.
  induction l as [|it l IH]; intros vm sig args ra ret; [by exists ra, ret|].
  cbn [map concat app prescan]. destruct it as [a|ag x]; cbn [sigchar_of_item va_of_item app].
  - destruct (sigchar_cases (a_ty a)) as (_ & -> & _). rewrite cty_of_sigchar_of.
    destruct (IH vm sig args ra ret) as (ra' & ret' & E). exists ra', ret'. rewrite <- E.
    unfold va_of_arg. by destruct (a_ty a).
  - destruct (IH vm sig args ag (Some x)) as (ra' & ret' & E). exists ra', ret'. by rewrite <- E.
Qed.

Lemma last_signature cc l rt : last (signature_of cc l rt) = Some (sigchar_of_result rt).
Proof. unfold signature_of. rewrite !app_assoc. change [DC_SIGCHAR_ENDARG; sigchar_of_result rt]
    with ([DC_SIGCHAR_ENDARG] ++ [sigchar_of_result rt]). rewrite app_assoc. apply last_snoc. Qed.

Lemma dcArgF_signature vm cc l rt args :
  Forall item_scalar_ok l ->
  dcArgF_impl vm (signature_of cc l rt) (concat (map va_of_item l) ++ args)
  = (vm ← set_mode vm cc; vm ← push_items vm l; Some (vm, Some [sigchar_of_result rt], args)).
Proof.
  intros Hl. unfold signature_of.
  rewrite (prefix_step (fun vm sig => dcArgF_impl vm sig (concat (map va_of_item l) ++ args))).
  - destruct (set_mode vm cc) as [vm'|]; cbn [mbind option_bind]; [|done]. by rewrite dcArgF_impl_items.
  - by destruct (map sigchar_of_item l).
  - intros vm' m rest _. apply dcArgF_impl_mode.
Qed.

Lemma prescan_signature vm cc l ag x :
  prescan vm (signature_of cc l (RTAggr ag x)) (va_of_call l (RTAggr ag x)) None None
  = (vm ← set_mode vm cc; Some (vm, ag, Some x)).
Proof.
  unfold signature_of, va_of_call.
  rewrite (prefix_step (fun vm sig => prescan vm sig (concat (map va_of_item l) ++ va_of_result (RTAggr ag x)) None None)).
  - destruct (set_mode vm cc) as [vm'|]; cbn [mbind option_bind]; [|done].
    by destruct (prescan_items l vm' [DC_SIGCHAR_ENDARG; sigchar_of_result (RTAggr ag x)]
              (va_of_result (RTAggr ag x)) None None) as (ra & ret & ->).
  - by destruct (map sigchar_of_item l).
  - intros vm' m rest _. apply prescan_mode.
Qed.

(** The [switch] over the result type makes the call of that type. *)
Lemma dcCallF_type_by_hand vm t funcptr :
  dcCallF_type vm t funcptr
  = (r ← run (dcCall_as t vm funcptr); Some (CRValue t (conv t (retval (called_cty t) r)))).
Proof. by destruct t. Qed.

(** C17: a formatted call is the call written by hand.  For every VM, calling
    convention, argument list (scalars and aggregates) and result type,
    [dcCallF] with the signature string and the promoted arguments does exactly
    what the unformatted API calls do in order: switch the mode, announce an
    aggregate result, pass each argument with its own type ([push_items]), make
    the call with the API function of the result type ([dcCall_as]: [dcCallShort]
    for [short] and [unsigned short], and so on) and convert what it returns to
    the result type. *)
Theorem dcCallF_by_hand vm funcptr cc l rt :
  Forall item_scalar_ok l ->
  dcCallF vm funcptr (signature_of cc l rt) (va_of_call l rt)
  = call_by_hand vm funcptr cc l rt.
Proof.
  intros Hl. unfold dcCallF, dcVCallF, call_by_hand, last_sigchar. rewrite last_signature.
  destruct rt as [|t|ag x]; cbn [sigchar_of_result].
  - cbn [Ascii.eqb]. change (Ascii.eqb DC_SIGCHAR_VOID DC_SIGCHAR_AGGREGATE) with false.
    cbn [mbind option_bind]. unfold va_of_call. rewrite dcArgF_signature by done.
    destruct (set_mode vm cc) as [vm1|]; cbn [mbind option_bind]; [|done].
    destruct (push_items vm1 l) as [vm2|]; cbn [mbind option_bind]; [|done].
    cbn. by destruct (run _).
  - destruct (sigchar_cases t) as (_ & _ & Ha & Hv). rewrite Ha. cbn [mbind option_bind].
    unfold va_of_call. rewrite dcArgF_signature by done.
    destruct (set_mode vm cc) as [vm1|]; cbn [mbind option_bind]; [|done].
    destruct (push_items vm1 l) as [vm2|]; cbn [mbind option_bind sigchar_of_result]; [|done].
    rewrite Hv, cty_of_sigchar_of, dcCallF_type_by_hand. by destruct (run _).
  - change (Ascii.eqb DC_SIGCHAR_AGGREGATE DC_SIGCHAR_AGGREGATE) with true. cbn beta iota.
    rewrite prescan_signature. destruct (set_mode vm cc) as [vm1|]; cbn [mbind option_bind]; [|done].
    destruct (dcBeginCallAggr vm1 ag) as [vm2|]; cbn [mbind option_bind]; [|done].
    unfold va_of_call. rewrite dcArgF_signature by done.
    destruct (set_mode vm2 cc) as [vm3|]; cbn [mbind option_bind]; [|done].
    destruct (push_items vm3 l) as [vm4|]; cbn [mbind option_bind sigchar_of_result]; [|done].
    change (Ascii.eqb DC_SIGCHAR_AGGREGATE DC_SIGCHAR_VOID) with false.
    change (cty_of_sigchar DC_SIGCHAR_AGGREGATE) with (@None cty).
    change (Ascii.eqb DC_SIGCHAR_AGGREGATE DC_SIGCHAR_AGGREGATE) with true. cbn beta iota.
    by destruct (dcCallAggr _ _ _ _ _) as [[p bs]|].
Qed.

(** A signature that only names a calling convention does not select it.
    [handle_mode] requires a character after the mode character, so ["_s"]
    leaves the mode alone and the mode character is read as an argument type:
    a [short] is taken from the argument list and pushed. *)
Theorem dcArgF_mode_only_ignored vm z args :
  dcArgF vm [DC_SIGCHAR_CC_PREFIX; DC_SIGCHAR_CC_STDCALL] (VInt z :: args)
  = dcArgShort vm (conv TShort z) /\
  dcArgF vm [DC_SIGCHAR_CC_PREFIX; DC_SIGCHAR_CC_STDCALL] [] = None.
Proof.
  split; [|done]. unfold dcArgF, dcVArgF. cbn. by destruct (dcArgShort vm _).
Qed.

End Callf.
