(* ===== verification/X64.v ===== *)
(** * x86-64: System V and Windows
      (dyncall/dyncall_callvm_x64.{h,c}, dyncall_call_x64.S,
       dyncallback/dyncall_args_x64.{h,c}, dyncall_callback_x64.{c,S},
       dyncall_thunk_x64.{h,c})

    One state for both systems; [win] selects the [#if defined(DC_WINDOWS)]
    branches, otherwise the [DC_UNIX] ones are taken. *)

From S2P Require Export Api.

Definition x64_dm (win : bool) : DataModel := {|
  dm_endian := LittleEndian;
  dm_size_bits := 64;
  dm_long_bits := if win then 32 else 64;
  dm_char_signed := true
|}.

#[export] Instance x64_dm_ok win : DataModelOk (DM := x64_dm win).
Proof. split; destruct win; cbn; auto. Qed.

(** ** State (dyncall_callvm_x64.h) *)

Inductive x64_vt := gVT_x64_p | gVT_x64_win64_this_p | gVT_x64_syscall_sysv_p.

(** Register counters and register data are a [struct] of an integer and a
    floating point part on Unix and a [union] of them on Windows. *)
Record DCRegCount_x64 := { rc_i : Z; rc_f : Z }.
Record DCRegData_x64 := { rd_i : list Z; rd_f : list Z }.

Record DCCallVM_x64 := {
  x_vt : x64_vt;
  x_mError : Z;
  mAggrReturnReg : Z;
  mpAggrVecCopies : Z;    (** address; Windows only *)
  mRegCount : DCRegCount_x64;
  mRegData : DCRegData_x64;
  mVecHead : DCVecHead;
  mVecAddr : Z;           (** address of [dcVecData(&mVecHead)] *)
}.

Section X64.
Variable win : bool.
#[local] Hint Extern 0 DataModel => exact (x64_dm win) : typeclass_instances.

Definition numIntRegs : Z := if win then 4 else 6.
Definition numFloatRegs : Z := if win then 4 else 8.

#[global] Arguments numIntRegs : simpl never.
#[global] Arguments numFloatRegs : simpl never.

Definition set_count_i (n : Z) (c : DCRegCount_x64) : DCRegCount_x64 :=
  if win then {| rc_i := n; rc_f := n |} else {| rc_i := n; rc_f := rc_f c |}.
Definition set_count_f (n : Z) (c : DCRegCount_x64) : DCRegCount_x64 :=
  if win then {| rc_i := n; rc_f := n |} else {| rc_i := rc_i c; rc_f := n |}.

(** Registers hold 64-bit patterns. *)
Definition set_reg_i (k x : Z) (d : DCRegData_x64) : option DCRegData_x64 :=
  a ← aset k (u64 x) (rd_i d);
  Some (if win then {| rd_i := a; rd_f := a |} else {| rd_i := a; rd_f := rd_f d |}).
Definition set_reg_f (k x : Z) (d : DCRegData_x64) : option DCRegData_x64 :=
  a ← aset k (u64 x) (rd_f d);
  Some (if win then {| rd_i := a; rd_f := a |} else {| rd_i := rd_i d; rd_f := a |}).

Definition with_vt (v : x64_vt) (e : Z) (s : DCCallVM_x64) : DCCallVM_x64 :=
  {| x_vt := v; x_mError := e; mAggrReturnReg := mAggrReturnReg s;
     mpAggrVecCopies := mpAggrVecCopies s; mRegCount := mRegCount s; mRegData := mRegData s;
     mVecHead := mVecHead s; mVecAddr := mVecAddr s |}.
Definition with_aggr_reg (r : Z) (s : DCCallVM_x64) : DCCallVM_x64 :=
  {| x_vt := x_vt s; x_mError := x_mError s; mAggrReturnReg := r;
     mpAggrVecCopies := mpAggrVecCopies s; mRegCount := mRegCount s; mRegData := mRegData s;
     mVecHead := mVecHead s; mVecAddr := mVecAddr s |}.
Definition with_copies (a : Z) (s : DCCallVM_x64) : DCCallVM_x64 :=
  {| x_vt := x_vt s; x_mError := x_mError s; mAggrReturnReg := mAggrReturnReg s;
     mpAggrVecCopies := a; mRegCount := mRegCount s; mRegData := mRegData s;
     mVecHead := mVecHead s; mVecAddr := mVecAddr s |}.
Definition with_count (c : DCRegCount_x64) (s : DCCallVM_x64) : DCCallVM_x64 :=
  {| x_vt := x_vt s; x_mError := x_mError s; mAggrReturnReg := mAggrReturnReg s;
     mpAggrVecCopies := mpAggrVecCopies s; mRegCount := c; mRegData := mRegData s;
     mVecHead := mVecHead s; mVecAddr := mVecAddr s |}.
Definition with_data (d : DCRegData_x64) (s : DCCallVM_x64) : DCCallVM_x64 :=
  {| x_vt := x_vt s; x_mError := x_mError s; mAggrReturnReg := mAggrReturnReg s;
     mpAggrVecCopies := mpAggrVecCopies s; mRegCount := mRegCount s; mRegData := d;
     mVecHead := mVecHead s; mVecAddr := mVecAddr s |}.
Definition with_vec (v : DCVecHead) (s : DCCallVM_x64) : DCCallVM_x64 :=
  {| x_vt := x_vt s; x_mError := x_mError s; mAggrReturnReg := mAggrReturnReg s;
     mpAggrVecCopies := mpAggrVecCopies s; mRegCount := mRegCount s; mRegData := mRegData s;
     mVecHead := v; mVecAddr := mVecAddr s |}.

(** ** Operations (dyncall_callvm_x64.c) *)

Definition dc_callvm_free_x64 (_ : DCCallVM_x64) : unit := tt.

Definition dc_callvm_reset_x64 (self : DCCallVM_x64) : option DCCallVM_x64 :=
  let self := with_vec (dcVecReset (mVecHead self)) self in
  let self := with_count {| rc_i := 0; rc_f := 0 |} self in
  let self := with_aggr_reg (-1) self in
  Some (if win then with_copies (mVecAddr self + mTotal (mVecHead self)) self else self).

(** [c += (c == self->mAggrReturnReg)]: step over the register that will hold
    the address of the returned aggregate. *)
Definition skip_aggr_reg (r c : Z) : Z := c + (if c =? r then 1 else 0).

Definition dc_callvm_argLongLong_x64 (self : DCCallVM_x64) (x : Z) : option DCCallVM_x64 :=
  let c := skip_aggr_reg (mAggrReturnReg self) (rc_i (mRegCount self)) in
  let self := with_count (set_count_i c (mRegCount self)) self in
  if c <? numIntRegs then
    d ← set_reg_i c x (mRegData self);
    Some (with_data d (with_count (set_count_i (c + 1) (mRegCount self)) self))
  else
    v ← dcVecAppend (mVecHead self) (enc LittleEndian 8 x) 8;
    Some (with_vec v self).

Definition dc_callvm_argBool_x64 (self : DCCallVM_x64) (x : Z) := dc_callvm_argLongLong_x64 self x.
Definition dc_callvm_argChar_x64 (self : DCCallVM_x64) (x : Z) := dc_callvm_argLongLong_x64 self x.
Definition dc_callvm_argShort_x64 (self : DCCallVM_x64) (x : Z) := dc_callvm_argLongLong_x64 self x.
Definition dc_callvm_argInt_x64 (self : DCCallVM_x64) (x : Z) := dc_callvm_argLongLong_x64 self x.
Definition dc_callvm_argLong_x64 (self : DCCallVM_x64) (x : Z) := dc_callvm_argLongLong_x64 self x.

Definition dc_callvm_argDouble_x64 (self : DCCallVM_x64) (x : Z) : option DCCallVM_x64 :=
  let c := rc_f (mRegCount self) in
  let c := if win then skip_aggr_reg (mAggrReturnReg self) c else c in
  let self := with_count (set_count_f c (mRegCount self)) self in
  if c <? numFloatRegs then
    d ← set_reg_f c x (mRegData self);
    Some (with_data d (with_count (set_count_f (c + 1) (mRegCount self)) self))
  else
    v ← dcVecAppend (mVecHead self) (enc LittleEndian 8 x) 8;
    Some (with_vec v self).

(** A float goes through a [union] with a double whose upper half is never
    written: [float_junk] is what the four bytes happen to hold. *)
Variable float_junk : DCCallVM_x64 -> Z.

Definition dc_callvm_argFloat_x64 (self : DCCallVM_x64) (x : Z) : option DCCallVM_x64 :=
  dc_callvm_argDouble_x64 self (wrapU 32 x + 2 ^ 32 * wrapU 32 (float_junk self)).

Definition dc_callvm_argPointer_x64 (self : DCCallVM_x64) (x : Z) : option DCCallVM_x64 :=
  let c := skip_aggr_reg (mAggrReturnReg self) (rc_i (mRegCount self)) in
  let self := with_count (set_count_i c (mRegCount self)) self in
  if c <? numIntRegs then
    d ← set_reg_i c x (mRegData self);
    Some (with_data d (with_count (set_count_i (c + 1) (mRegCount self)) self))
  else
    v ← dcVecAppend (mVecHead self) (enc LittleEndian 8 x) 8;
    Some (with_vec v self).

(** The non-zero prefix [classes[0..i)] the C loops
    [for(i=0; classes[i] && i<DC_SYSV_MAX_NUM_CLASSES; ++i)] run over. *)
Fixpoint classes_run (fuel : nat) (cs : list Z) : list Z :=
  match fuel, cs with
  | S n, c :: cs => if c =? SYSVC_NONE then [] else c :: classes_run n cs
  | _, _ => []
  end.

Definition classes_of (ag : DCaggr) : list Z :=
  classes_run (Z.to_nat DC_SYSV_MAX_NUM_CLASSES) (ag_sysv_classes ag).

(** Registers of each kind in use once the eightbytes [cs] are in registers. *)
Definition count_classes (c : DCRegCount_x64) (cs : list Z) : DCRegCount_x64 :=
  fold_left (fun n clz => {| rc_i := rc_i n + (if clz =? SYSVC_INTEGER then 1 else 0);
                             rc_f := rc_f n + (if clz =? SYSVC_SSE then 1 else 0) |}) cs c.

Fixpoint argAggr_regs (self : DCCallVM_x64) (x : list Z) (i : Z) (cs : list Z)
    : option DCCallVM_x64 :=
  match cs with
  | [] => Some self
  | clz :: cs =>
    self ← (if clz =? SYSVC_INTEGER then
              bs ← rd (8 * i) 8 x; dc_callvm_argLongLong_x64 self (wrapS 64 (dec LittleEndian bs))
            else if clz =? SYSVC_SSE then
              bs ← rd (8 * i) 8 x; dc_callvm_argDouble_x64 self (dec LittleEndian bs)
            else Some self);
    argAggr_regs self x (i + 1) cs
  end.

Definition dc_callvm_argAggr_x64 (self : DCCallVM_x64) (ag : option DCaggr) (x : objptr)
    : option DCCallVM_x64 :=
  match ag with
  | None => dc_callvm_argPointer_x64 self (op_addr x)
  | Some ag =>
    if negb win then
      class0 ← aget 0 (ag_sysv_classes ag);
      let n_regs := if negb (class0 =? SYSVC_MEMORY)
                    then count_classes (mRegCount self) (classes_of ag) else mRegCount self in
      if (class0 =? SYSVC_MEMORY) || (numIntRegs <? rc_i n_regs) || (numFloatRegs <? rc_f n_regs)
      then
        v ← dcVecAppend (mVecHead self) (op_obj x) (ag_size ag);
        Some (with_vec (dcVecSkip v (Z.land (u64 (ag_size ag + 7)) (u64 (-8)) - ag_size ag)) self)
      else argAggr_regs self (op_obj x) 0 (classes_of ag)
    else
      if ag_size ag =? 1 then
        bs ← rd 0 1 (op_obj x); dc_callvm_argChar_x64 self (conv TChar (dec LittleEndian bs))
      else if ag_size ag =? 2 then
        bs ← rd 0 2 (op_obj x); dc_callvm_argShort_x64 self (conv TShort (dec LittleEndian bs))
      else if ag_size ag =? 4 then
        bs ← rd 0 4 (op_obj x); dc_callvm_argLong_x64 self (conv TLong (dec LittleEndian bs))
      else if ag_size ag =? 8 then
        bs ← rd 0 8 (op_obj x); dc_callvm_argLongLong_x64 self (conv TLongLong (dec LittleEndian bs))
      else
        let copies := Z.land (mpAggrVecCopies self - ag_size ag) (-16) in
        let self := with_copies copies self in
        bs ← rd 0 (Z.to_nat (ag_size ag)) (op_obj x);
        v ← dcVecStore (mVecHead self) (copies - mVecAddr self) bs;
        dc_callvm_argPointer_x64 (with_vec v self) copies
  end.

(** ** Calls

    What each call kernel of dyncall_call_x64.S receives, and the return
    registers it leaves. *)

Inductive x64_kernel :=
  | dcCall_x64_sysv (stack reg_i reg_f : list Z) (target : Z)
  | dcCall_x64_sysv_aggr (stack reg_i reg_f : list Z) (target : Z)
  | dcCall_x64_win64 (stack reg_i : list Z) (target : Z)
  | dcCall_x64_win64_aggr (stack reg_i : list Z) (target : Z)
  | dcCall_x64_syscall_sysv (reg_i : list Z) (target : Z).

Record x64_ret := { ret_rax : Z; ret_rdx : Z; ret_xmm0 : Z; ret_xmm1 : Z }.

Definition dc_callvm_call_x64 (self : DCCallVM_x64) (target : Z) : x64_kernel :=
  if win then dcCall_x64_win64 (vec_bytes (mVecHead self)) (rd_i (mRegData self)) target
  else dcCall_x64_sysv (vec_bytes (mVecHead self)) (rd_i (mRegData self))
                       (rd_f (mRegData self)) target.

(** The [assert] that no argument was pushed yet. *)
Definition no_args_yet (self : DCCallVM_x64) : bool :=
  (rc_i (mRegCount self) =? 0) && (rc_f (mRegCount self) =? 0).

(** Whether the callee returns the aggregate through a hidden pointer. *)
Definition returns_hidden (ag : option DCaggr) : option bool :=
  match ag with
  | None => Some true
  | Some ag =>
    if negb win then c ← aget 0 (ag_sysv_classes ag); Some (c =? SYSVC_MEMORY)
    else Some ((8 <? ag_size ag) || negb (Z.land (ag_size ag) (ag_size ag - 1) =? 0))
  end.

Definition dc_callvm_begin_aggr_x64 (self : DCCallVM_x64) (ag : option DCaggr)
    : option DCCallVM_x64 :=
  if no_args_yet self then
    h ← returns_hidden ag;
    Some (if h : bool then with_aggr_reg 0 self else self)
  else None.

Definition dc_callvm_begin_aggr_x64_win64_this (self : DCCallVM_x64) (ag : option DCaggr)
    : option DCCallVM_x64 :=
  if no_args_yet self then Some (with_aggr_reg 1 self) else None.

(** [while(ll-- && st_size--) *dst++ = *( *src)++;] over the 32 bytes of
    [ret_regs]; [st_size] wraps when the test finds it 0. *)
Fixpoint copy_ret_reg (ll : nat) (st_size src : Z) (regs dst : list Z)
    : option (Z * Z * list Z) :=
  match ll with
  | O => Some (st_size, src, dst)
  | S ll =>
    if st_size =? 0 then Some (u64 (-1), src, dst)
    else b ← rd src 1 regs; copy_ret_reg ll (st_size - 1) (src + 1) regs (dst ++ b)
  end.

Fixpoint reassemble (cs : list Z) (st_size src_i src_f : Z) (regs dst : list Z)
    : option (list Z) :=
  match cs with
  | [] => Some dst
  | clz :: cs =>
    if clz =? SYSVC_INTEGER then
      '(st_size, src_i, dst) ← copy_ret_reg 8 st_size src_i regs dst;
      reassemble cs st_size src_i src_f regs dst
    else if clz =? SYSVC_SSE then
      '(st_size, src_f, dst) ← copy_ret_reg 8 st_size src_f regs dst;
      reassemble cs st_size src_i src_f regs dst
    else None (* [src] uninitialised *)
  end.

Definition ret_regs (r : x64_ret) : list Z :=
  enc LittleEndian 8 (ret_rax r) ++ enc LittleEndian 8 (ret_rdx r)
  ++ enc LittleEndian 8 (ret_xmm0 r) ++ enc LittleEndian 8 (ret_xmm1 r).

(** The bytes the VM itself writes to [*ret]: none when the callee writes
    through the hidden pointer. *)
Definition dc_callvm_call_x64_aggr (run : x64_kernel -> option x64_ret) (self : DCCallVM_x64)
    (target : Z) (ag : option DCaggr) (ret : Z) : option (list Z) :=
  if negb (mAggrReturnReg self =? -1) then
    d ← set_reg_i (mAggrReturnReg self) ret (mRegData self);
    _ ← run (dc_callvm_call_x64 (with_data d self) target);
    Some []
  else
    ag ← ag;
    if negb win then
      r ← run (dcCall_x64_sysv_aggr (vec_bytes (mVecHead self)) (rd_i (mRegData self))
                                   (rd_f (mRegData self)) target);
      reassemble (classes_of ag) (ag_size ag) 0 16 (ret_regs r) []
    else
      r ← run (dcCall_x64_win64_aggr (vec_bytes (mVecHead self)) (rd_i (mRegData self)) target);
      rd 0 (Z.to_nat (ag_size ag)) (enc LittleEndian 8 (ret_rax r)).

Definition dc_callvm_call_x64_syscall_sysv (self : DCCallVM_x64) (target : Z) : x64_kernel :=
  dcCall_x64_syscall_sysv (rd_i (mRegData self)) target.

(** ** Modes and tables *)

Definition dc_callvm_mode_x64 (self : DCCallVM_x64) (mode : Z) : option DCCallVM_x64 :=
  let unsupported := with_vt (x_vt self) DC_ERROR_UNSUPPORTED_MODE self in
  let base_init vt := with_vt vt DC_ERROR_NONE self in
  Some
    (if (mode =? DC_CALL_C_DEFAULT)
        || (negb win && ((mode =? DC_CALL_C_DEFAULT_THIS) || (mode =? DC_CALL_C_X64_SYSV)))
        || (win && (mode =? DC_CALL_C_X64_WIN64))
        || (mode =? DC_CALL_C_ELLIPSIS) || (mode =? DC_CALL_C_ELLIPSIS_VARARGS)
     then base_init gVT_x64_p
     else if win && ((mode =? DC_CALL_C_DEFAULT_THIS) || (mode =? DC_CALL_C_X64_WIN64_THIS))
     then base_init gVT_x64_win64_this_p
     else if mode =? DC_CALL_SYS_DEFAULT
     then (if negb win then base_init gVT_x64_syscall_sysv_p else unsupported)
     else if negb win && (mode =? DC_CALL_SYS_X64_SYSCALL_SYSV)
     then base_init gVT_x64_syscall_sysv_p
     else unsupported).

Definition gVT_x64 : DCCallVM_vt DCCallVM_x64 x64_kernel x64_ret := Build_DCCallVM_vt
  dc_callvm_free_x64
  dc_callvm_reset_x64
  dc_callvm_mode_x64
  dc_callvm_argBool_x64
  dc_callvm_argChar_x64
  dc_callvm_argShort_x64
  dc_callvm_argInt_x64
  dc_callvm_argLong_x64
  dc_callvm_argLongLong_x64
  dc_callvm_argFloat_x64
  dc_callvm_argDouble_x64
  dc_callvm_argPointer_x64
  (Some dc_callvm_argAggr_x64)
  dc_callvm_call_x64
  dc_callvm_call_x64
  dc_callvm_call_x64
  dc_callvm_call_x64
  dc_callvm_call_x64
  dc_callvm_call_x64
  dc_callvm_call_x64
  dc_callvm_call_x64
  dc_callvm_call_x64
  dc_callvm_call_x64
  (Some dc_callvm_call_x64_aggr)
  (Some dc_callvm_begin_aggr_x64).

Definition gVT_x64_win64_this : DCCallVM_vt DCCallVM_x64 x64_kernel x64_ret := Build_DCCallVM_vt
  dc_callvm_free_x64
  dc_callvm_reset_x64
  dc_callvm_mode_x64
  dc_callvm_argBool_x64
  dc_callvm_argChar_x64
  dc_callvm_argShort_x64
  dc_callvm_argInt_x64
  dc_callvm_argLong_x64
  dc_callvm_argLongLong_x64
  dc_callvm_argFloat_x64
  dc_callvm_argDouble_x64
  dc_callvm_argPointer_x64
  (Some dc_callvm_argAggr_x64)
  dc_callvm_call_x64
  dc_callvm_call_x64
  dc_callvm_call_x64
  dc_callvm_call_x64
  dc_callvm_call_x64
  dc_callvm_call_x64
  dc_callvm_call_x64
  dc_callvm_call_x64
  dc_callvm_call_x64
  dc_callvm_call_x64
  (Some dc_callvm_call_x64_aggr)
  (Some dc_callvm_begin_aggr_x64_win64_this).

Definition gVT_x64_syscall_sysv : DCCallVM_vt DCCallVM_x64 x64_kernel x64_ret := Build_DCCallVM_vt
  dc_callvm_free_x64
  dc_callvm_reset_x64
  dc_callvm_mode_x64
  dc_callvm_argBool_x64
  dc_callvm_argChar_x64
  dc_callvm_argShort_x64
  dc_callvm_argInt_x64
  dc_callvm_argLong_x64
  dc_callvm_argLongLong_x64
  dc_callvm_argFloat_x64
  dc_callvm_argDouble_x64
  dc_callvm_argPointer_x64
  None
  dc_callvm_call_x64_syscall_sysv
  dc_callvm_call_x64_syscall_sysv
  dc_callvm_call_x64_syscall_sysv
  dc_callvm_call_x64_syscall_sysv
  dc_callvm_call_x64_syscall_sysv
  dc_callvm_call_x64_syscall_sysv
  dc_callvm_call_x64_syscall_sysv
  dc_callvm_call_x64_syscall_sysv
  dc_callvm_call_x64_syscall_sysv
  dc_callvm_call_x64_syscall_sysv
  None
  None.

#[export] Instance x64_CallVM : CallVM DCCallVM_x64 x64_vt x64_kernel x64_ret := {
  mVTpointer := x_vt;
  mError := x_mError;
  deref v := match v with
             | gVT_x64_p => gVT_x64
             | gVT_x64_win64_this_p => gVT_x64_win64_this
             | gVT_x64_syscall_sysv_p => gVT_x64_syscall_sysv
             end;
}.

(** [dcNewCallVM]: [mem] is the uninitialised header and [alloc] the [size]
    bytes after it, as [malloc] delivered them ([None]: it failed).  The
    capacity leaves out the bytes of the register data, unless that makes it
    negative as a [long]. *)
Definition sizeof_RegData : Z := if win then 32 else 112.

Definition dcNewCallVM (mem : DCCallVM_x64) (alloc : option (list Z)) (size : Z)
    : option DCCallVM_x64 :=
  alloc ← alloc;
  p ← dc_callvm_mode_x64 mem DC_CALL_C_DEFAULT;
  let size := u64 (size - sizeof_RegData) in
  let size := if wrapS dm_long_bits size <? 0 then 0 else size in
  dc_callvm_reset_x64 (with_vec (dcVecInit alloc size) p).

(** ** The call kernels (dyncall_call_x64.S)

    The machine state the callee is entered with.  [cpu_stack] is the part of
    the stack that holds arguments, above the return address (and, on Windows,
    the 32-byte spill area, filled from the same four registers).  The kernels
    round the copied size up; that tail is not argument data and left out. *)

Record x64_cpu := {
  rdi : Z; rsi : Z; rdx : Z; rcx : Z; r8 : Z; r9 : Z;
  xmm : list Z;
  cpu_stack : list Z;
}.

Definition kernel_enter (cpu0 : x64_cpu) (k : x64_kernel) : option x64_cpu :=
  match k with
  | dcCall_x64_sysv stack reg_i reg_f _ | dcCall_x64_sysv_aggr stack reg_i reg_f _ =>
    a0 ← aget 0 reg_i; a1 ← aget 1 reg_i; a2 ← aget 2 reg_i;
    a3 ← aget 3 reg_i; a4 ← aget 4 reg_i; a5 ← aget 5 reg_i;
    Some {| rdi := a0; rsi := a1; rdx := a2; rcx := a3; r8 := a4; r9 := a5;
            xmm := take 8 reg_f; cpu_stack := stack |}
  | dcCall_x64_win64 stack reg_i _ | dcCall_x64_win64_aggr stack reg_i _ =>
    a0 ← aget 0 reg_i; a1 ← aget 1 reg_i; a2 ← aget 2 reg_i; a3 ← aget 3 reg_i;
    Some {| rdi := rdi cpu0; rsi := rsi cpu0; rdx := a1; rcx := a0; r8 := a2; r9 := a3;
            xmm := [a0; a1; a2; a3]; cpu_stack := stack |}
  | dcCall_x64_syscall_sysv _ _ => None (* enters the operating system *)
  end.

(** ** Callbacks (dyncall_callback_x64.c) *)

Record DCCallback := {
  cb_handler : Z;
  cb_userdata : Z;
  cb_aggr_return_register : Z;
  cb_aggrs : list (option DCaggr);
}.

Fixpoint count_aggrs (ch : list DCsigchar) : Z :=
  match ch with
  | [] => 0
  | c :: ch => (if Ascii.eqb c DC_SIGCHAR_AGGREGATE then 1 else 0) + count_aggrs ch
  end.

(** [dcbInitCallback2]; the signature is its characters without the NUL. *)
Definition dcbInitCallback2 (signature : list DCsigchar) (handler userdata : Z)
    (aggrs : list (option DCaggr)) : option DCCallback :=
  '(mode, ch) ← match signature with
    | c :: rest =>
      if Ascii.eqb c DC_SIGCHAR_CC_PREFIX then
        match rest with
        | m :: ch => Some (dcGetModeFromCCSigChar m, ch)
        | [] => None (* skips the terminating NUL *)
        end
      else Some (DC_CALL_C_DEFAULT, signature)
    | [] => Some (DC_CALL_C_DEFAULT, signature)
    end;
  let num_aggrs := count_aggrs ch in
  if num_aggrs =? 0 then Some (Build_DCCallback handler userdata (-2) [])
  else if match last ch with
          | Some c => Ascii.eqb c DC_SIGCHAR_AGGREGATE
          | None => false
          end
  then
    ag ← aggrs !! Z.to_nat (num_aggrs - 1);
    if win && (mode =? DC_CALL_C_DEFAULT_THIS) then Some (Build_DCCallback handler userdata 1 aggrs)
    else
      h ← returns_hidden ag;
      Some (Build_DCCallback handler userdata (if h : bool then 0 else -1) aggrs)
  else Some (Build_DCCallback handler userdata (-2) aggrs).

(** ** Argument access in a callback (dyncall_args_x64.{h,c})

    [stack_ptr] is the offset of the next stack slot in [args_stack]; memory
    behind other pointers is read with [args_mem]. *)

Record DCArgs := {
  stack_ptr : Z;
  reg_count : DCRegCount_x64;
  aggr_return_register : Z;
  aggrs : list (option DCaggr);
  reg_i : list Z;
  reg_f : list Z;
  args_stack : list Z;
  args_mem : Z -> nat -> option (list Z);
}.

(** The thunk entry of dyncall_callback_x64.S spills the argument registers
    into a [DCArgs]. *)
Definition dcCallback_x64 (cb : DCCallback) (mem : Z -> nat -> option (list Z)) (cpu : x64_cpu)
    : DCArgs := {|
  stack_ptr := 0;
  reg_count := {| rc_i := 0; rc_f := 0 |};
  aggr_return_register := cb_aggr_return_register cb;
  aggrs := cb_aggrs cb;
  reg_i := if win then [rcx cpu; rdx cpu; r8 cpu; r9 cpu]
           else [rdi cpu; rsi cpu; rdx cpu; rcx cpu; r8 cpu; r9 cpu];
  reg_f := xmm cpu;
  args_stack := cpu_stack cpu;
  args_mem := mem
|}.

Definition args_with_count (c : DCRegCount_x64) (p : DCArgs) : DCArgs :=
  {| stack_ptr := stack_ptr p; reg_count := c; aggr_return_register := aggr_return_register p;
     aggrs := aggrs p; reg_i := reg_i p; reg_f := reg_f p; args_stack := args_stack p;
     args_mem := args_mem p |}.
Definition args_with_stack (sp : Z) (p : DCArgs) : DCArgs :=
  {| stack_ptr := sp; reg_count := reg_count p; aggr_return_register := aggr_return_register p;
     aggrs := aggrs p; reg_i := reg_i p; reg_f := reg_f p; args_stack := args_stack p;
     args_mem := args_mem p |}.
Definition args_next_aggr (l : list (option DCaggr)) (p : DCArgs) : DCArgs :=
  {| stack_ptr := stack_ptr p; reg_count := reg_count p;
     aggr_return_register := aggr_return_register p;
     aggrs := l; reg_i := reg_i p; reg_f := reg_f p; args_stack := args_stack p;
     args_mem := args_mem p |}.

(** [arg_i64], [arg_f64] return a pointer to the eight bytes of the argument;
    here, those bytes. *)
Definition arg_i64 : SO DCArgs (list Z) := fun args =>
  let c := skip_aggr_reg (aggr_return_register args) (rc_i (reg_count args)) in
  let args := args_with_count (set_count_i c (reg_count args)) args in
  if c <? numIntRegs then
    x ← aget c (reg_i args);
    Some (enc LittleEndian 8 x, args_with_count (set_count_i (c + 1) (reg_count args)) args)
  else
    bs ← rd (stack_ptr args) 8 (args_stack args);
    Some (bs, args_with_stack (stack_ptr args + 8) args).

Definition arg_f64 : SO DCArgs (list Z) := fun args =>
  let c := rc_f (reg_count args) in
  let c := if win then skip_aggr_reg (aggr_return_register args) c else c in
  let args := args_with_count (set_count_f c (reg_count args)) args in
  if c <? numFloatRegs then
    x ← aget c (reg_f args);
    Some (enc LittleEndian 8 x, args_with_count (set_count_f (c + 1) (reg_count args)) args)
  else
    bs ← rd (stack_ptr args) 8 (args_stack args);
    Some (bs, args_with_stack (stack_ptr args + 8) args).

Definition dcbArgLongLong : SO DCArgs Z :=
  bs ← arg_i64; mret (conv TLongLong (dec LittleEndian bs)).
Definition dcbArgInt : SO DCArgs Z := x ← dcbArgLongLong; mret (conv TInt x).
Definition dcbArgLong : SO DCArgs Z := x ← dcbArgLongLong; mret (conv TLong x).
Definition dcbArgChar : SO DCArgs Z := x ← dcbArgLongLong; mret (conv TChar x).
Definition dcbArgShort : SO DCArgs Z := x ← dcbArgLongLong; mret (conv TShort x).
Definition dcbArgBool : SO DCArgs Z := x ← dcbArgInt; mret (if x =? 0 then 0 else 1).
Definition dcbArgUInt : SO DCArgs Z := x ← dcbArgInt; mret (conv TUInt x).
Definition dcbArgUChar : SO DCArgs Z := x ← dcbArgChar; mret (conv TUChar x).
Definition dcbArgUShort : SO DCArgs Z := x ← dcbArgShort; mret (conv TUShort x).
Definition dcbArgULong : SO DCArgs Z := x ← dcbArgLong; mret (conv TULong x).
Definition dcbArgULongLong : SO DCArgs Z := x ← dcbArgLongLong; mret (conv TULongLong x).
Definition dcbArgPointer : SO DCArgs Z := x ← dcbArgLongLong; mret (conv TPointer x).
Definition dcbArgDouble : SO DCArgs Z := bs ← arg_f64; mret (dec LittleEndian bs).
Definition dcbArgFloat : SO DCArgs Z := bs ← arg_f64; mret (dec LittleEndian (take 4 bs)).

#[export] Instance x64_ArgReader : ArgReader DCArgs := {
  dcbArg t := match t with
    | TBool => dcbArgBool | TChar => dcbArgChar | TUChar => dcbArgUChar
    | TShort => dcbArgShort | TUShort => dcbArgUShort | TInt => dcbArgInt
    | TUInt => dcbArgUInt | TLong => dcbArgLong | TULong => dcbArgULong
    | TLongLong => dcbArgLongLong | TULongLong => dcbArgULongLong
    | TFloat => dcbArgFloat | TDouble => dcbArgDouble
    | TPointer | TString => dcbArgPointer
    end;
}.

(** *** Aggregates

    [target] is the object the aggregate is stored to; the result is its new
    content ([inl]) or, for a non-trivial C++ aggregate, a pointer ([inr]). *)

Fixpoint dcbArgAggr_regs (i : Z) (cs : list Z) (size : Z) (target : list Z)
    : SO DCArgs (list Z) :=
  match cs with
  | [] => mret target
  | clz :: cs =>
    let s := u64 (size - i * 8) in
    let s := if s <? 8 then s else 8 in
    target ← (if clz =? SYSVC_INTEGER then
                l ← dcbArgLongLong;
                so_lift (wr (8 * i) (take (Z.to_nat s) (enc LittleEndian 8 l)) target)
              else if clz =? SYSVC_SSE then
                if s =? 8 then
                  d ← dcbArgDouble; so_lift (wr (8 * i) (enc LittleEndian 8 d) target)
                else if s =? 4 then
                  f ← dcbArgFloat; so_lift (wr (8 * i) (enc LittleEndian 4 f) target)
                else so_lift None
              else so_lift None);
    dcbArgAggr_regs (i + 1) cs size target
  end.

Definition dcbArgAggr (target : list Z) : SO DCArgs (list Z + Z) := fun p =>
  match aggrs p with
  | [] => None
  | None :: l => (x ← dcbArgPointer; mret (inr x)) (args_next_aggr l p)
  | Some ag :: l =>
    let p := args_next_aggr l p in
    if negb win then
      class0 ← aget 0 (ag_sysv_classes ag);
      let n_regs := if negb (class0 =? SYSVC_MEMORY)
                    then count_classes (reg_count p) (classes_of ag) else reg_count p in
      if (class0 =? SYSVC_MEMORY) || (numIntRegs <? rc_i n_regs) || (numFloatRegs <? rc_f n_regs)
      then
        bs ← rd (stack_ptr p) (Z.to_nat (ag_size ag)) (args_stack p);
        t ← wr 0 bs target;
        Some (inl t, args_with_stack (stack_ptr p + 8 * Z.shiftr (u64 (ag_size ag + 7)) 3) p)
      else (t ← dcbArgAggr_regs 0 (classes_of ag) (ag_size ag) target; mret (inl t)) p
    else
      (t ← (if ag_size ag =? 1 then
              x ← dcbArgChar; so_lift (wr 0 (enc LittleEndian 1 x) target)
            else if ag_size ag =? 2 then
              x ← dcbArgShort; so_lift (wr 0 (enc LittleEndian 2 x) target)
            else if ag_size ag =? 4 then
              x ← dcbArgLong; so_lift (wr 0 (enc LittleEndian 4 x) target)
            else if ag_size ag =? 8 then
              x ← dcbArgLongLong; so_lift (wr 0 (enc LittleEndian 8 x) target)
            else
              x ← dcbArgPointer;
              so_lift (bs ← args_mem p x (Z.to_nat (ag_size ag)); wr 0 bs target));
       mret (inl t)) p
  end.

(** [dcbReturnAggr]: [result] is the return slot the thunk entry loads the
    return registers from (two integer and two SSE eightbytes on System V, one
    eightbyte on Windows).  The results are the advanced arguments, the store
    through the hidden pointer if there is one (address and bytes), and the
    new slot. *)
Fixpoint return_regs (i : Z) (cs : list Z) (ret : list Z) (pi pf : Z) (result : list Z)
    : option (list Z) :=
  match cs with
  | [] => Some result
  | clz :: cs =>
    if clz =? SYSVC_INTEGER then
      bs ← rd (8 * i) 8 ret; result ← wr pi bs result;
      return_regs (i + 1) cs ret (pi + 8) pf result
    else if clz =? SYSVC_SSE then
      bs ← rd (8 * i) 8 ret; result ← wr pf bs result;
      return_regs (i + 1) cs ret pi (pf + 8) result
    else None
  end.

Definition dcbReturnAggr (args : DCArgs) (result : list Z) (ret : list Z)
    : option (DCArgs * option (Z * list Z) * list Z) :=
  match aggrs args with
  | [] => None
  | ag :: l =>
    let args' := args_next_aggr l args in
    if 0 <=? aggr_return_register args then
      dest ← aget (aggr_return_register args) (reg_i args);
      bs ← match ag with
           | Some ag => rd 0 (Z.to_nat (ag_size ag)) ret
           | None => Some []
           end;
      result ← wr 0 (enc LittleEndian 8 dest) result;
      Some (args', Some (dest, bs), result)
    else
      ag ← ag;
      if negb win then
        result ← return_regs 0 (classes_run 2 (ag_sysv_classes ag)) ret 0 16 result;
        Some (args', None, result)
      else
        if ag_size ag <=? 8 then
          bs ← rd 0 (Z.to_nat (ag_size ag)) ret;
          result ← wr 0 bs result;
          Some (args', None, result)
        else None
  end.

(** *** Leaving the callback

    The handler stores a scalar result through the member of [DCValue] for its
    type; the thunk entry then loads the return registers from the slot
    ([r0]: what registers it does not load happen to hold). *)
Definition dcvalue_set (t : cty) (x : Z) (result : list Z) : option (list Z) :=
  wr 0 (enc LittleEndian (Z.to_nat (sizeof_cty t)) x) result.

Definition callback_exit (cb : DCCallback) (r0 : x64_ret) (result : list Z) : option x64_ret :=
  q0 ← rd 0 8 result;
  let rax := dec LittleEndian q0 in
  if win || (cb_aggr_return_register cb =? -2) then
    Some {| ret_rax := rax; ret_rdx := ret_rdx r0; ret_xmm0 := rax; ret_xmm1 := ret_xmm1 r0 |}
  else
    q1 ← rd 8 8 result; q2 ← rd 16 8 result; q3 ← rd 24 8 result;
    Some {| ret_rax := rax; ret_rdx := dec LittleEndian q1;
            ret_xmm0 := dec LittleEndian q2; ret_xmm1 := dec LittleEndian q3 |}.

(** What [dcCallInt], [dcCallDouble], ... return: the kernel is called through
    a pointer with that return type. *)
Definition ret_value (t : cty) (r : x64_ret) : Z :=
  match t with
  | TFloat | TDouble => conv t (ret_xmm0 r)
  | _ => conv t (ret_rax r)
  end.

(** [return_slot]: the stack area passed to the handler as its [DCValue]. *)
Definition sizeof_return_slot : nat := if win then 16 else 32.

(** [dcbInitThunk] (dyncall_thunk_x64.c): the code words and the entry. *)
Definition dcbInitThunk (entry : Z) : list Z :=
  enc LittleEndian 8 0xfffffffff9058d48 ++ enc LittleEndian 8 0x9090900000000325
  ++ enc LittleEndian 8 entry.

End X64.
