(* ===== verification/X64Proofs.v ===== *)
(** * x86-64: the call VM and the argument reader agree *)

From S2P Require Export X64.

Section Proofs.
Variable win : bool.
Variable float_junk : DCCallVM_x64 -> Z.
Variable cb : DCCallback.
Variable mem : Z -> nat -> option (list Z).
#[local] Hint Extern 0 DataModel => exact (x64_dm win) : typeclass_instances.
#[local] Existing Instance x64_CallVM.
#[local] Existing Instance x64_ArgReader.

Abbreviation numIntRegs := (numIntRegs win).
Abbreviation numFloatRegs := (numFloatRegs win).

(** The hidden-pointer register of the VM and of the callback either agree or
    are both absent (the C code uses -1 and -2). *)
Definition same_aggr_reg (r r' : Z) : Prop := r = r' \/ (r < 0 /\ r' < 0).

Lemma skip_same r r' c : same_aggr_reg r r' -> 0 <= c -> skip_aggr_reg r c = skip_aggr_reg r' c.
Proof.
  unfold skip_aggr_reg. intros [->|[]] ?; [done|].
  by rewrite !(proj2 (Z.eqb_neq _ _)) by lia.
Qed.

Lemma nums : 4 <= numIntRegs /\ 4 <= numFloatRegs /\ (win = true -> numIntRegs = numFloatRegs).
Proof. unfold X64.numIntRegs, X64.numFloatRegs. destruct (sumbool_of_bool win) as [E|E]; rewrite E; lia. Qed.

Record x64_inv (vm : DCCallVM_x64) : Prop := {
  xi_vt : x_vt vm <> gVT_x64_syscall_sysv_p;
  xi_vec : vec_wf (mVecHead vm) /\ vec_room (mVecHead vm) 0;
  xi_reg : -1 <= mAggrReturnReg vm <= 1 /\ same_aggr_reg (mAggrReturnReg vm) (cb_aggr_return_register cb);
  xi_i : 0 <= rc_i (mRegCount vm) <= numIntRegs;
  xi_f : 0 <= rc_f (mRegCount vm) <= numFloatRegs;
  xi_len_i : Z.of_nat (length (rd_i (mRegData vm))) = numIntRegs;
  xi_len_f : Z.of_nat (length (rd_f (mRegData vm))) = numFloatRegs;
  xi_union : win = true -> rd_i (mRegData vm) = rd_f (mRegData vm)
                           /\ rc_i (mRegCount vm) = rc_f (mRegCount vm);
}.

(** The register index the next argument of each kind would use. *)
Definition next_i (vm : DCCallVM_x64) : Z :=
  skip_aggr_reg (mAggrReturnReg vm) (rc_i (mRegCount vm)).
Definition next_f (vm : DCCallVM_x64) : Z :=
  if win then skip_aggr_reg (mAggrReturnReg vm) (rc_f (mRegCount vm)) else rc_f (mRegCount vm).

Definition x64_room (vm : DCCallVM_x64) (t : cty) : Prop :=
  (if is_float t then next_f vm < numFloatRegs else next_i vm < numIntRegs)
  \/ vec_room (mVecHead vm) 8.

Record x64_ext (a b : DCCallVM_x64) : Prop := {
  xe_reg : mAggrReturnReg b = mAggrReturnReg a;
  xe_vec : prefix (vec_bytes (mVecHead a)) (vec_bytes (mVecHead b));
  xe_i : rc_i (mRegCount a) <= rc_i (mRegCount b) /\
    forall k, 0 <= k < rc_i (mRegCount a) -> k <> mAggrReturnReg a ->
    aget k (rd_i (mRegData b)) = aget k (rd_i (mRegData a));
  xe_f : rc_f (mRegCount a) <= rc_f (mRegCount b) /\
    forall k, 0 <= k < rc_f (mRegCount a) -> (win = true -> k <> mAggrReturnReg a) ->
    aget k (rd_f (mRegData b)) = aget k (rd_f (mRegData a));
}.

Definition x64_view (vm vf : DCCallVM_x64) : DCArgs := {|
  stack_ptr := mSize (mVecHead vm);
  reg_count := mRegCount vm;
  aggr_return_register := cb_aggr_return_register cb;
  aggrs := cb_aggrs cb;
  reg_i := rd_i (mRegData vf);
  reg_f := rd_f (mRegData vf);
  args_stack := vec_bytes (mVecHead vf);
  args_mem := mem
|}.

Lemma x64_ext_refl vm : x64_ext vm vm.
Proof. by constructor. Qed.

Lemma x64_ext_trans a b c : x64_ext a b -> x64_ext b c -> x64_ext a c.
Proof.
  intros [R1 V1 [C1 I1] [D1 F1]] [R2 V2 [C2 I2] [D2 F2]]. constructor.
  - congruence.
  - by etrans.
  - split; [lia|]. intros k Hk Hr. rewrite I2, I1 by (lia || congruence). done.
  - split; [lia|]. intros k Hk Hr. rewrite F2, F1; [done|lia|done|lia|]. rewrite R1. done.
Qed.

(** *** Placing one integer or one SSE argument

    The eight bytes pushed are the eight bytes the reader finds, from every
    final state that extends the one right after the push. *)

Lemma skip_bounds r c : -1 <= r -> 0 <= c -> c <= skip_aggr_reg r c <= c + 1 /\ skip_aggr_reg r c <> r.
Proof. intros. unfold skip_aggr_reg. destruct (Z.eqb_spec c r); lia. Qed.

Lemma skip_le r c n : r <= 1 -> 4 <= n -> c <= n -> skip_aggr_reg r c <= n.
Proof. unfold skip_aggr_reg. destruct (Z.eqb_spec c r); lia. Qed.

Lemma vec_append_ext vm vm' bs v :
  vec_wf (mVecHead vm) -> vec_room (mVecHead vm) 0 -> vec_room (mVecHead vm) 8 ->
  dcVecAppend (mVecHead vm) bs 8 = Some v -> length bs = 8%nat -> mVecHead vm' = v ->
  vec_wf v /\ vec_room v 0 /\ mSize v = mSize (mVecHead vm) + 8 /\
  prefix (vec_bytes (mVecHead vm)) (vec_bytes v) /\
  forall vf, x64_ext vm' vf -> rd (mSize (mVecHead vm)) 8 (vec_bytes (mVecHead vf)) = Some bs.
Proof.
  intros Hw H0 Hr Hv Hl Hm.
  destruct (dcVecAppend_ok _ bs 8 Hw ltac:(lia) Hr) as (v' & Hv' & Hw' & Ht & Hs & _ & Hb & _).
  rewrite Hv in Hv'. injection Hv' as <-. split_and!; try done.
  - unfold vec_room in *. lia.
  - rewrite Hb. by apply prefix_app_r.
  - intros vf [_ Hp _ _]. eapply rd_prefix; [exact Hp|]. rewrite Hm, Hb. apply rd_app; [|lia].
    rewrite length_vec_bytes; [done|done|]. done.
Qed.

(** Both kinds of argument go through the same steps with their own counter,
    register file and number of registers; the reader mirrors them. *)
Definition place (isf : bool) (c : Z) (vm : DCCallVM_x64) (x : Z) : option DCCallVM_x64 :=
  let set_count := if isf then set_count_f win else set_count_i win in
  let vm := with_count (set_count c (mRegCount vm)) vm in
  if c <? (if isf then numFloatRegs else numIntRegs) then
    d ← (if isf then set_reg_f win else set_reg_i win) c x (mRegData vm);
    Some (with_data d (with_count (set_count (c + 1) (mRegCount vm)) vm))
  else
    v ← dcVecAppend (mVecHead vm) (enc LittleEndian 8 x) 8;
    Some (with_vec v vm).

Definition fetch (isf : bool) (c : Z) (args : DCArgs) : option (list Z * DCArgs) :=
  let set_count := if isf then set_count_f win else set_count_i win in
  let args := args_with_count (set_count c (reg_count args)) args in
  if c <? (if isf then numFloatRegs else numIntRegs) then
    x ← aget c ((if isf then reg_f else reg_i) args);
    Some (enc LittleEndian 8 x, args_with_count (set_count (c + 1) (reg_count args)) args)
  else
    bs ← rd (stack_ptr args) 8 (args_stack args);
    Some (bs, args_with_stack (stack_ptr args + 8) args).

Definition next (isf : bool) (vm : DCCallVM_x64) : Z := if isf then next_f vm else next_i vm.

Lemma argLongLong_place vm x : dc_callvm_argLongLong_x64 win vm x = place false (next false vm) vm x.
Proof. done. Qed.

Lemma argDouble_place vm x : dc_callvm_argDouble_x64 win vm x = place true (next true vm) vm x.
Proof. done. Qed.

Lemma next_bounds (isf : bool) vm :
  -1 <= mAggrReturnReg vm <= 1 ->
  0 <= rc_i (mRegCount vm) <= numIntRegs -> 0 <= rc_f (mRegCount vm) <= numFloatRegs ->
  let n := (if isf then rc_f else rc_i) (mRegCount vm) in
  n <= next isf vm <= n + 1 /\ next isf vm <= (if isf then numFloatRegs else numIntRegs) /\
  (isf = false \/ win = true -> next isf vm <> mAggrReturnReg vm).
Proof.
  intros Hr Hi Hf. pose proof nums as (N1 & N2 & N3).
  pose proof (skip_bounds (mAggrReturnReg vm) (rc_i (mRegCount vm)) ltac:(lia) ltac:(lia)).
  pose proof (skip_bounds (mAggrReturnReg vm) (rc_f (mRegCount vm)) ltac:(lia) ltac:(lia)).
  pose proof (skip_le (mAggrReturnReg vm) (rc_i (mRegCount vm)) numIntRegs ltac:(lia) ltac:(lia) ltac:(lia)).
  pose proof (skip_le (mAggrReturnReg vm) (rc_f (mRegCount vm)) numFloatRegs ltac:(lia) ltac:(lia) ltac:(lia)).
  unfold next, next_i, next_f.
  destruct isf, (sumbool_of_bool win) as [E|E]; rewrite ?E in *; cbn beta iota in *; cbn zeta; split_and!;
    try lia; intros [|]; try done; tauto.
Qed.

(** Which reader call finds the argument. *)
Lemma fetch_next (isf : bool) vm vf :
  -1 <= mAggrReturnReg vm <= 1 -> same_aggr_reg (mAggrReturnReg vm) (cb_aggr_return_register cb) ->
  0 <= rc_i (mRegCount vm) -> 0 <= rc_f (mRegCount vm) ->
  (if isf then arg_f64 win else arg_i64 win) (x64_view vm vf) = fetch isf (next isf vm) (x64_view vm vf).
Proof.
  intros Hr Hsame Hi Hf. unfold arg_i64, arg_f64, fetch, next, next_i, next_f, x64_view.
  cbn [aggr_return_register reg_count].
  rewrite !(skip_same _ _ _ Hsame) by lia. by destruct isf.
Qed.

Lemma place_reg (isf : bool) c vm x vm' :
  x64_inv vm -> 0 <= c < (if isf then numFloatRegs else numIntRegs) ->
  (if isf then rc_f else rc_i) (mRegCount vm) <= c ->
  (isf = false \/ win = true -> c <> mAggrReturnReg vm) -> place isf c vm x = Some vm' ->
  x64_inv vm' /\ x64_ext vm vm' /\ mVecHead vm' = mVecHead vm /\
  (forall vf, x64_ext vm' vf ->
     fetch isf c (x64_view vm vf) = Some (enc LittleEndian 8 x, x64_view vm' vf)).
Proof.
  intros [Hvt Hvec [Hr Hsame] Hi Hf Hli Hlf Hu] Hc Hn Hne. pose proof nums as (N1 & N2 & N3).
  unfold place, fetch. rewrite (proj2 (Z.ltb_lt _ _)) by lia. intros (d & Hd & [= <-])%bind_Some.
  assert (Hg : forall a, 0 <= c < Z.of_nat (length a) -> aget c (<[Z.to_nat c := u64 x]> a) = Some (u64 x))
    by (intros; by apply aget_insert_eq).
  destruct isf; [unfold set_reg_f in Hd|unfold set_reg_i in Hd];
    cbn [mRegData with_count] in Hd; rewrite aset_Some in Hd by lia; cbn in Hd; injection Hd as <-;
    unfold set_count_i, set_count_f;
    (split_and!; [| | done |]);
    try (constructor; cbn; try done; destruct (sumbool_of_bool win) as [E|E]; rewrite ?E in *; cbn;
         rewrite ?length_insert; try lia; try done);
    try (split; [lia|]; intros k Hk ?; try done; rewrite aget_insert_ne by lia; try done;
         destruct Hu as [-> _]; done).
  - intros vf [_ _ _ [_ Ef]]. cbn in *. rewrite Ef.
    + destruct (sumbool_of_bool win) as [E|E]; rewrite ?E in *; cbn; rewrite Hg by lia; cbn;
        by rewrite <- (enc_wrapU _ 8 x).
    + destruct win; cbn; lia.
    + intros E. auto.
  - intros vf [_ _ [_ Ei] _]. cbn in *. rewrite Ei.
    + destruct (sumbool_of_bool win) as [E|E]; rewrite ?E in *; cbn; rewrite Hg by lia; cbn;
        by rewrite <- (enc_wrapU _ 8 x).
    + destruct win; cbn; lia.
    + auto.
Qed.

Lemma place_vec (isf : bool) c vm x vm' :
  x64_inv vm -> (if isf then numFloatRegs else numIntRegs) <= c ->
  (if isf then rc_f else rc_i) (mRegCount vm) <= c ->
  c <= (if isf then numFloatRegs else numIntRegs) ->
  vec_room (mVecHead vm) 8 -> place isf c vm x = Some vm' ->
  x64_inv vm' /\ x64_ext vm vm' /\
  (forall vf, x64_ext vm' vf ->
     fetch isf c (x64_view vm vf) = Some (enc LittleEndian 8 x, x64_view vm' vf)).
Proof.
  intros [Hvt [Hw H0] [Hr Hsame] Hi Hf Hli Hlf Hu] Hc Hn Hcn Hroom. pose proof nums as (N1 & N2 & N3).
  unfold place, fetch. rewrite (proj2 (Z.ltb_ge _ _)) by lia. intros (v & Hv & [= <-])%bind_Some.
  destruct (vec_append_ext vm
              (with_vec v (with_count ((if isf then set_count_f win else set_count_i win) c (mRegCount vm)) vm))
              _ v Hw H0 Hroom Hv (length_enc _ _ _) eq_refl) as (Hw' & H0' & Hs' & Hp' & Hrd).
  unfold set_count_i, set_count_f in *. split_and!.
  - constructor; cbn; try done; destruct isf; destruct (sumbool_of_bool win) as [E|E];
      rewrite ?E in *; cbn; try lia; try done; intros _; by destruct Hu.
  - constructor; cbn; try done; destruct isf; destruct (sumbool_of_bool win) as [E|E];
      rewrite ?E in *; cbn; (split; [lia|]); done.
  - intros vf Hx. specialize (Hrd vf Hx). cbn. rewrite Hrd.
    unfold x64_view; cbn. by rewrite Hs'.
Qed.

(** The eight bytes pushed are the eight bytes the reader finds. *)
Lemma place_step (isf : bool) vm x :
  x64_inv vm ->
  (next isf vm < (if isf then numFloatRegs else numIntRegs) \/ vec_room (mVecHead vm) 8) ->
  exists vm', place isf (next isf vm) vm x = Some vm' /\ x64_inv vm' /\ x64_ext vm vm' /\
    forall vf, x64_inv vf -> x64_ext vm' vf ->
      (if isf then arg_f64 win else arg_i64 win) (x64_view vm vf)
      = Some (enc LittleEndian 8 x, x64_view vm' vf).
Proof.
  intros Hinv Hroom. pose proof Hinv as [_ Hvec [Hr Hsame] Hi Hf Hli Hlf _].
  destruct (next_bounds isf vm Hr Hi Hf) as (Hn & Hle & Hne).
  assert (Hex : exists vm', place isf (next isf vm) vm x = Some vm').
  { unfold place. destruct (Z.ltb_spec (next isf vm) (if isf then numFloatRegs else numIntRegs)).
    - destruct isf; [unfold set_reg_f|unfold set_reg_i]; cbn [mRegData with_count];
        rewrite aset_Some by lia; eauto.
    - destruct Hroom as [|Hroom]; [lia|]. destruct Hvec as [Hw _].
      destruct (dcVecAppend_ok (mVecHead vm) (enc LittleEndian 8 x) 8 Hw
                  ltac:(by rewrite length_enc) Hroom) as (v & Hv & _).
      cbn [mVecHead with_count]. rewrite Hv. eauto. }
  destruct Hex as (vm' & Hp). exists vm'. split; [done|].
  assert (x64_inv vm' /\ x64_ext vm vm' /\ forall vf, x64_ext vm' vf ->
     fetch isf (next isf vm) (x64_view vm vf) = Some (enc LittleEndian 8 x, x64_view vm' vf))
    as (? & ? & Hfetch).
  { destruct (decide (next isf vm < (if isf then numFloatRegs else numIntRegs))) as [Hlt|Hge].
    - destruct (place_reg isf (next isf vm) vm x vm' Hinv) as (? & ? & _ & ?); try done; destruct isf; lia.
    - destruct Hroom as [|Hroom]; [lia|]. eapply place_vec; try done; lia. }
  split_and!; try done. intros vf _ Hx. rewrite fetch_next by (done || lia). by apply Hfetch.
Qed.

(** *** One argument of any scalar type *)

Lemma arg_i64_read vm vm' vf x :
  arg_i64 win (x64_view vm vf) = Some (enc LittleEndian 8 x, x64_view vm' vf) ->
  dcbArgLongLong win (x64_view vm vf) = Some (conv TLongLong x, x64_view vm' vf).
Proof.
  intros H. unfold dcbArgLongLong, mbind, SO_bind. rewrite H. cbn.
  rewrite dec_enc. unfold mret, SO_ret. do 2 f_equal. apply (wrapS_wrapU 64 64). lia.
Qed.

Ltac conv_norm := rewrite ?conv_conv by (cbn; try destruct win; cbn; lia).

Lemma read_int vm vm' vf t x y :
  is_float t = false -> val_ok t x -> conv t y = conv t x ->
  arg_i64 win (x64_view vm vf) = Some (enc LittleEndian 8 y, x64_view vm' vf) ->
  dcbArg (ArgReader := x64_ArgReader win) t (x64_view vm vf) = Some (x, x64_view vm' vf).
Proof.
  intros Ht Hx Hy H%arg_i64_read. pose proof (val_ok_conv _ _ Hx) as Hcx.
  destruct t; try done; cbn [dcbArg x64_ArgReader];
    unfold dcbArgBool, dcbArgUInt, dcbArgUChar, dcbArgUShort, dcbArgULong, dcbArgULongLong,
      dcbArgPointer, dcbArgChar, dcbArgShort, dcbArgLong, dcbArgInt, mbind, SO_bind, mret, SO_ret;
    rewrite H; conv_norm; rewrite ?Hy, ?Hcx; try done.
  - change (conv TInt y) with (conv TBool y). rewrite Hy, Hcx. by destruct Hx as [-> | ->].
  - change (conv TPointer y) with (conv TString y). by rewrite Hy, Hcx.
Qed.

(** The 64 bits that are placed for an argument, in every mode. *)
Definition pushed_bits (vm : DCCallVM_x64) (t : cty) (x : Z) : Z :=
  match t with
  | TFloat => wrapU 32 x + 2 ^ 32 * wrapU 32 (float_junk vm)
  | TUChar => conv TChar x | TUShort => conv TShort x | TUInt => conv TInt x
  | TULong => conv TLong x | TULongLong => conv TLongLong x
  | _ => x
  end.

Lemma push_arg_place vm a :
  let isf := is_float (a_ty a) in
  push_arg (C := x64_CallVM win float_junk) vm a
  = place isf (next isf vm) vm (pushed_bits vm (a_ty a) (a_val a)).
Proof.
  destruct a as [t x]. unfold push_arg, dcArgBool, dcArgChar, dcArgShort, dcArgInt, dcArgLong,
    dcArgLongLong, dcArgPointer, dcArgFloat, dcArgDouble, vtable; cbn.
  destruct t; by destruct (x_vt vm).
Qed.

Lemma conv_pushed_bits vm t x : val_ok t x -> conv t (pushed_bits vm t x) = x.
Proof.
  intros Hx%val_ok_conv. destruct t; cbn [pushed_bits]; try done;
    try (etrans; [apply conv_conv; cbn; destruct win; cbn; lia|done]).
  cbn [conv]. unfold wrapU. rewrite (Z.mul_comm (2 ^ 32)), Z.mod_add, Z.mod_mod by lia. exact Hx.
Qed.

(** What is pushed for an argument: eight bytes whose low part is the value. *)
Lemma x64_step_raw vm a :
  x64_inv vm -> x64_room vm (a_ty a) -> arg_ok (DM := x64_dm win) a ->
  exists vm' y, push_arg (C := x64_CallVM win float_junk) vm a = Some vm' /\ x64_inv vm' /\
    x64_ext vm vm' /\ conv (a_ty a) y = a_val a /\
    forall vf, x64_inv vf -> x64_ext vm' vf ->
      (if is_float (a_ty a) then arg_f64 win else arg_i64 win) (x64_view vm vf)
      = Some (enc LittleEndian 8 y, x64_view vm' vf).
Proof.
  intros Hi Hroom Hx. rewrite push_arg_place.
  destruct (place_step (is_float (a_ty a)) vm (pushed_bits vm (a_ty a) (a_val a)) Hi) as (vm' & ? & ? & ? & ?).
  { unfold x64_room in Hroom. by destruct (is_float (a_ty a)). }
  exists vm', (pushed_bits vm (a_ty a) (a_val a)). split_and!; try done. by apply conv_pushed_bits.
Qed.

Lemma x64_step vm a :
  x64_inv vm -> x64_room vm (a_ty a) -> arg_ok (DM := x64_dm win) a ->
  exists vm', push_arg (C := x64_CallVM win float_junk) vm a = Some vm' /\ x64_inv vm' /\
    x64_ext vm vm' /\
    forall vf, x64_inv vf -> x64_ext vm' vf ->
      dcbArg (ArgReader := x64_ArgReader win) (a_ty a) (x64_view vm vf)
      = Some (a_val a, x64_view vm' vf).
Proof.
  intros Hi Hroom Hx. destruct (x64_step_raw vm a Hi Hroom Hx) as (vm' & y & Hp & Hi' & He & Hy & Hread).
  exists vm'. split_and!; try done. intros vf Hvf Hxf. specialize (Hread vf Hvf Hxf).
  destruct a as [t x]; cbn [a_ty a_val] in *. unfold arg_ok in Hx; cbn in Hx.
  destruct (is_float t) eqn:Ht.
  - destruct t; try done; cbn [dcbArg x64_ArgReader];
      unfold dcbArgDouble, dcbArgFloat, mbind, SO_bind, mret, SO_ret; rewrite Hread; cbn beta iota.
    + change (enc LittleEndian 8) with (le_split 8). rewrite take_le_split by lia.
      change (le_split 4) with (enc LittleEndian 4). rewrite dec_enc. by rewrite <- Hy.
    + rewrite dec_enc. by rewrite <- Hy.
  - eapply read_int; [done|done| |exact Hread]. rewrite Hy. symmetry. by apply val_ok_conv.
Qed.

#[export, refine] Instance x64_CallConv : CallConv DCCallVM_x64 DCArgs
    (DM := x64_dm win) (H := x64_CallVM win float_junk) (H0 := x64_ArgReader win) := {
  cc_inv := x64_inv;
  cc_room vm a := x64_room vm (a_ty a);
  cc_ext := x64_ext;
  cc_at vm vf p := p = x64_view vm vf;
  cc_ext_refl := x64_ext_refl;
  cc_ext_trans := x64_ext_trans;
}.
Proof.
  intros vm a Hi Hr Ha. destruct (x64_step vm a Hi Hr Ha) as (vm' & Hp & Hi' & Hx & Hread).
  exists vm'. split_and!; try done. intros vf p Hvf Hxf ->. eauto.
Defined.

(** *** From the finished VM into the callback *)

(** The call kernel and the thunk entry together hand the registers and the
    stack of the VM to the reader, positioned at the first argument. *)
Lemma x64_handover vm vf target cpu0 :
  x64_inv vf -> mRegCount vm = {| rc_i := 0; rc_f := 0 |} -> mSize (mVecHead vm) = 0 ->
  exists cpu, kernel_enter cpu0 (dc_callvm_call_x64 win vf target) = Some cpu /\
    dcCallback_x64 win cb mem cpu = x64_view vm vf.
Proof.
  intros [_ _ _ _ _ Hli Hlf Hu] Hc Hs. unfold dc_callvm_call_x64, x64_view, dcCallback_x64.
  rewrite Hc, Hs. unfold X64.numIntRegs, X64.numFloatRegs in *.
  destruct (sumbool_of_bool win) as [E|E]; rewrite E in *.
  - destruct (rd_i (mRegData vf)) as [|? [|? [|? [|? [|]]]]] eqn:Ei; cbn in Hli; try lia.
    destruct Hu as [<- _]; [done|]. eexists. by split.
  - destruct (rd_i (mRegData vf)) as [|? [|? [|? [|? [|? [|? [|]]]]]]] eqn:Ei; cbn in Hli; try lia.
    eexists. split; [done|]. cbn [kernel_enter xmm]. f_equal. apply take_ge. lia.
Qed.

End Proofs.
