(* ===== verification/X64Props.v ===== *)
(** * x86-64: properties of whole calls

    Memory safety of call set-up, placement of arguments according to the ABI,
    and the round trips from a caller's argument list to the arguments a
    callback reads and back to the caller's result. *)

From S2P Require Export X64Proofs.

(** ** Where the ABIs put scalar arguments

    Written from the calling conventions, not from the code: System V counts
    integer and SSE registers separately, Windows counts argument positions. *)

Inductive x64_loc := LInt (n : Z) | LSse (n : Z) | LStack (off : Z).

Fixpoint abi_sysv (gpr sse stk : Z) (ts : list cty) : list x64_loc :=
  match ts with
  | [] => []
  | t :: ts =>
    if is_float t then
      if sse <? 8 then LSse sse :: abi_sysv gpr (sse + 1) stk ts
      else LStack stk :: abi_sysv gpr sse (stk + 8) ts
    else
      if gpr <? 6 then LInt gpr :: abi_sysv (gpr + 1) sse stk ts
      else LStack stk :: abi_sysv gpr sse (stk + 8) ts
  end.

Fixpoint abi_win64 (pos stk : Z) (ts : list cty) : list x64_loc :=
  match ts with
  | [] => []
  | t :: ts =>
    if pos <? 4 then (if is_float t then LSse pos else LInt pos) :: abi_win64 (pos + 1) stk ts
    else LStack stk :: abi_win64 pos (stk + 8) ts
  end.

Definition loc_value (win : bool) (cpu : x64_cpu) (l : x64_loc) : option Z :=
  match l with
  | LInt n => if win then aget n [rcx cpu; rdx cpu; r8 cpu; r9 cpu]
              else aget n [rdi cpu; rsi cpu; rdx cpu; rcx cpu; r8 cpu; r9 cpu]
  | LSse n => aget n (xmm cpu)
  | LStack off => bs ← rd off 8 (cpu_stack cpu); Some (dec LittleEndian bs)
  end.

(** An argument is where it should be: the place holds it in its low bits. *)
Definition arg_at (win : bool) (cpu : x64_cpu) (a : arg) (l : x64_loc) : Prop :=
  exists v, loc_value win cpu l = Some v /\ conv (DM := x64_dm win) (a_ty a) v = a_val a.

(** ** Allocation invariant

    What holds of a call VM from [dcNewCallVM] on, whatever was called. *)
Record x64_alloc (win : bool) (vm : DCCallVM_x64) : Prop := {
  xa_vec : vec_wf (DM := x64_dm win) (mVecHead vm);
  xa_fill : mSize (mVecHead vm) <= mTotal (mVecHead vm) < 2 ^ 63;
  xa_reg : -1 <= mAggrReturnReg vm <= 1;
  xa_i : 0 <= rc_i (mRegCount vm) <= numIntRegs win;
  xa_f : 0 <= rc_f (mRegCount vm) <= numFloatRegs win;
  xa_len_i : Z.of_nat (length (rd_i (mRegData vm))) = numIntRegs win;
  xa_len_f : Z.of_nat (length (rd_f (mRegData vm))) = numFloatRegs win;
  xa_union : win = true -> rd_i (mRegData vm) = rd_f (mRegData vm)
                           /\ rc_i (mRegCount vm) = rc_f (mRegCount vm);
}.

(** A VM that is about to take the first argument of a call. *)
Record x64_fresh (vm : DCCallVM_x64) : Prop := {
  xf_size : mSize (mVecHead vm) = 0;
  xf_count : mRegCount vm = {| rc_i := 0; rc_f := 0 |};
}.

Section Props.
Variable win : bool.
Variable float_junk : DCCallVM_x64 -> Z.
#[local] Hint Extern 0 DataModel => exact (x64_dm win) : typeclass_instances.
#[local] Existing Instance x64_CallVM.
#[local] Existing Instance x64_ArgReader.
#[local] Existing Instance x64_CallConv.

(** *** The allocation invariant is kept *)

Lemma append_8 vm x :
  x64_alloc win vm ->
  exists v, dcVecAppend (mVecHead vm) (enc LittleEndian 8 x) 8 = Some v /\
    vec_wf v /\ mTotal v = mTotal (mVecHead vm) /\ mSize v <= mTotal v /\
    mSize v <= mSize (mVecHead vm) + 8.
Proof.
  intros [Hw Hf]. destruct (decide (vec_room (mVecHead vm) 8)) as [Hr|Hr].
  - destruct (dcVecAppend_ok _ (enc LittleEndian 8 x) 8 Hw ltac:(by rewrite length_enc) Hr)
      as (v & ? & ? & Ht & Hs & _). exists v. unfold vec_room in *. split_and!; (done || lia).
  - exists (mVecHead vm). rewrite dcVecAppend_full; try done; [|cbn; lia].
    split_and!; (done || lia).
Qed.

(** What an operation leaves of the parts of the state a client relies on. *)
Record x64_advance (vm vm' : DCCallVM_x64) : Prop := {
  xadv_alloc : x64_alloc win vm';
  xadv_vt : x_vt vm' = x_vt vm;
  xadv_reg : mAggrReturnReg vm' = mAggrReturnReg vm;
  xadv_total : mTotal (mVecHead vm') = mTotal (mVecHead vm);
  xadv_size : mSize (mVecHead vm') <= mSize (mVecHead vm) + 8;
}.

Lemma place_total (isf : bool) vm x :
  x64_alloc win vm ->
  exists vm', place win isf (next win isf vm) vm x = Some vm' /\ x64_advance vm vm'.
Proof.
  intros Ha. destruct (append_8 vm x Ha) as (v & Hv & Hw & Ht & Hfill & Hsz).
  destruct Ha as [Hwf Hf Hr Hi Hff Hli Hlf Hu]. pose proof (nums win) as (N1 & N2 & N3).
  destruct (next_bounds win isf vm Hr Hi Hff) as (Hn & Hle & _).
  unfold place. set (c := next win isf vm) in *. clearbody c.
  destruct (Z.ltb_spec c (if isf then numFloatRegs win else numIntRegs win)).
  - destruct isf; [unfold set_reg_f|unfold set_reg_i]; cbn [mRegData with_count];
      rewrite aset_Some by lia; cbn [mbind option_bind]; (eexists; split; [done|]);
      unfold set_count_i, set_count_f; (constructor; cbn; try done; [|lia]);
      constructor; cbn; try done; destruct (sumbool_of_bool win) as [E|E]; rewrite ?E in *; cbn;
      rewrite ?length_insert; try lia; try done.
  - cbn [mVecHead with_count]. rewrite Hv. cbn [mbind option_bind].
    eexists; split; [done|]. unfold set_count_i, set_count_f. constructor; cbn; try done.
    constructor; cbn; try done; try lia; destruct isf, (sumbool_of_bool win) as [E|E];
      rewrite ?E in *; cbn; try lia; try done; intros _; by destruct Hu.
Qed.

Lemma push_arg_total vm a :
  x64_alloc win vm ->
  exists vm', push_arg (C := x64_CallVM win float_junk) vm a = Some vm' /\ x64_advance vm vm'.
Proof.
  intros Ha. rewrite push_arg_place. by apply place_total.
Qed.

Lemma reset_total vm :
  x64_alloc win vm ->
  exists vm', dcReset (C := x64_CallVM win float_junk) vm = Some vm' /\ x64_alloc win vm' /\
    x64_fresh vm' /\ x_vt vm' = x_vt vm /\ mAggrReturnReg vm' = -1 /\
    mTotal (mVecHead vm') = mTotal (mVecHead vm).
Proof.
  intros [[] ? Hr Hi Hf Hli Hlf Hu]. pose proof (nums win) as (N1 & N2 & N3).
  unfold dcReset, vtable. cbn in *.
  assert (E : forall f : DCCallVM_x64 -> option DCCallVM_x64, f = dc_callvm_reset_x64 win ->
    exists vm', f vm = Some vm' /\ x64_alloc win vm' /\ x64_fresh vm' /\ x_vt vm' = x_vt vm /\
      mAggrReturnReg vm' = -1 /\ mTotal (mVecHead vm') = mTotal (mVecHead vm)).
  { intros f ->. eexists; split; [done|].
    destruct (sumbool_of_bool win) as [E|E]; rewrite ?E in *; cbn; split_and!; try done;
      constructor; cbn; try done; try lia; try (constructor; cbn; (done || lia)).
    all: intros _; split; [by apply Hu|done]. }
  apply E. by destruct (x_vt vm).
Qed.

Lemma mode_total vm m :
  x64_alloc win vm ->
  exists vm', dcMode (C := x64_CallVM win float_junk) vm m = Some vm' /\ x64_alloc win vm' /\
    mTotal (mVecHead vm') = mTotal (mVecHead vm).
Proof.
  intros [].
  assert (E : forall f : DCCallVM_x64 -> Z -> option DCCallVM_x64, f = dc_callvm_mode_x64 win ->
    exists vm', f vm m = Some vm' /\ x64_alloc win vm' /\
      mTotal (mVecHead vm') = mTotal (mVecHead vm)).
  { intros f ->. unfold dc_callvm_mode_x64. eexists; split; [done|]. repeat case_match; done. }
  unfold dcMode, vtable. apply E. cbn. by destruct (x_vt vm).
Qed.

(** *** From a fresh VM to a finished one *)

Lemma fresh_inv cb vm :
  x64_alloc win vm -> x_vt vm <> gVT_x64_syscall_sysv_p ->
  same_aggr_reg (mAggrReturnReg vm) (cb_aggr_return_register cb) -> x64_inv win cb vm.
Proof. intros [] ??. constructor; try done. split; [done|]. unfold vec_room. lia. Qed.

Lemma budget_room (cb : DCCallback) (mem : Z -> nat -> option (list Z)) l vm :
  x64_alloc win vm -> mSize (mVecHead vm) + 8 * Z.of_nat (length l) <= mTotal (mVecHead vm) ->
  Forall arg_ok l -> room_for (CC := x64_CallConv win float_junk cb mem) vm l.
Proof.
  intros Ha Hb Hok.
  apply (room_for_budget (fun n vm => x64_alloc win vm /\
    mSize (mVecHead vm) + 8 * Z.of_nat n <= mTotal (mVecHead vm))); [|done|done].
  clear. intros n vm a _ [Ha Hn]. split.
  - right. unfold vec_room. lia.
  - intros vm' Hp. destruct (push_arg_total vm a Ha) as (v & Hp' & []).
    rewrite Hp in Hp'. injection Hp' as <-. split; [done|]. lia.
Qed.

(** A whole argument list, from the freshly reset VM into the callee. *)
Lemma fresh_call cb mem cpu0 vm l target :
  x64_alloc win vm -> x64_fresh vm -> x_vt vm <> gVT_x64_syscall_sysv_p ->
  same_aggr_reg (mAggrReturnReg vm) (cb_aggr_return_register cb) ->
  8 * Z.of_nat (length l) <= mTotal (mVecHead vm) -> Forall arg_ok l ->
  exists vf cpu, push_args (C := x64_CallVM win float_junk) vm l = Some vf /\
    x64_inv win cb vf /\ x64_ext win vm vf /\
    kernel_enter cpu0 (dc_callvm_call_x64 win vf target) = Some cpu /\
    dcCallback_x64 win cb mem cpu = x64_view cb mem vm vf /\
    read_args (RD := x64_ArgReader win) (map a_ty l) (dcCallback_x64 win cb mem cpu)
    = Some (l, x64_view cb mem vf vf).
Proof.
  intros Ha [Hs Hc] Hvt Hsame Hroom Hl.
  pose proof (fresh_inv cb vm Ha Hvt Hsame) as Hi.
  destruct (push_args_inv (CC := x64_CallConv win float_junk cb mem) vm l Hi
              (budget_room cb mem l vm Ha ltac:(lia) Hl) Hl) as (vf & Hp & Hif & Hxf & Hr).
  destruct (x64_handover win cb mem vm vf target cpu0 Hif Hc Hs) as (cpu & Hk & Hv).
  exists vf, cpu. rewrite Hv. destruct (Hr _ eq_refl) as (p & Hp' & ->). split_and!; done.
Qed.

Lemma call_kernel vm t target :
  x_vt vm <> gVT_x64_syscall_sysv_p ->
  dcCall_as (C := x64_CallVM win float_junk) t vm target = dc_callvm_call_x64 win vm target.
Proof.
  intros Hvt. unfold dcCall_as, dcCallBool,
    dcCallChar, dcCallShort, dcCallInt, dcCallLong,
    dcCallLongLong, dcCallFloat, dcCallDouble, dcCallPointer, vtable. cbn.
  destruct t, (x_vt vm); done.
Qed.

Lemma inv_vt cb vm : x64_inv win cb vm -> x_vt vm <> gVT_x64_syscall_sysv_p.
Proof. by intros []. Qed.

(** *** Placement *)

(** The place the code uses for the next argument. *)
Definition loc_at (isf : bool) (c stk : Z) : x64_loc :=
  if c <? (if isf then numFloatRegs win else numIntRegs win)
  then (if isf then LSse c else LInt c) else LStack stk.

Lemma fetch_loc cb mem cpu vm0 vm vf (isf : bool) c y p' :
  dcCallback_x64 win cb mem cpu = x64_view cb mem vm0 vf ->
  fetch win isf c (x64_view cb mem vm vf) = Some (enc LittleEndian 8 y, p') ->
  exists v, loc_value win cpu (loc_at isf c (mSize (mVecHead vm))) = Some v /\
    wrapU 64 v = wrapU 64 y.
Proof.
  unfold dcCallback_x64, x64_view, fetch, loc_at. intros [= _ _ Hi Hf Hs].
  destruct (Z.ltb_spec c (if isf then numFloatRegs win else numIntRegs win)); cbn.
  - intros (v & Hv & E)%bind_Some. exists v.
    assert (He : enc LittleEndian 8 v = enc LittleEndian 8 y) by congruence. split.
    + destruct isf; cbn in *; [by rewrite Hf|]. rewrite <- Hi in Hv. by destruct win.
    + apply (f_equal (dec LittleEndian)) in He. rewrite !dec_enc in He. exact He.
  - intros (bs & Hbs & [= -> _])%bind_Some. rewrite Hs, Hbs. cbn. rewrite dec_enc.
    eexists; split; [done|]. apply (wrapU_wrapU 64 64). lia.
Qed.

(** How one argument moves the places of the following ones. *)
Lemma place_next cb vm (isf : bool) x vm' :
  x64_inv win cb vm -> mAggrReturnReg vm <= 0 -> vec_room (mVecHead vm) 8 ->
  place win isf (next win isf vm) vm x = Some vm' ->
  let c := next win isf vm in
  let in_reg := c <? (if isf then numFloatRegs win else numIntRegs win) in
  next win isf vm' = (if in_reg then c + 1 else c) /\
  next win (negb isf) vm' = (if win then next win isf vm' else next win (negb isf) vm) /\
  (win = true -> next win (negb isf) vm = c) /\
  mSize (mVecHead vm') = (if in_reg then mSize (mVecHead vm) else mSize (mVecHead vm) + 8) /\
  mAggrReturnReg vm' = mAggrReturnReg vm.
Proof.
  intros [_ [Hw _] [Hr _] Hi Hf Hli Hlf Hu] Hr0 Hroom Hp. pose proof (nums win) as (N1 & N2 & N3).
  destruct (next_bounds win isf vm Hr Hi Hf) as (Hn & Hle & Hne). cbn zeta in *.
  assert (Hwc : win = true -> next win (negb isf) vm = next win isf vm).
  { intros E. destruct (Hu E) as [_ E2]. unfold next, next_i, next_f. rewrite E, E2. by destruct isf. }
  assert (Hskip : forall k, 0 < k -> skip_aggr_reg (mAggrReturnReg vm) k = k).
  { intros k Hk. unfold skip_aggr_reg. destruct (Z.eqb_spec k (mAggrReturnReg vm)); lia. }
  assert (Hsame : next win isf vm <> mAggrReturnReg vm ->
            skip_aggr_reg (mAggrReturnReg vm) (next win isf vm) = next win isf vm).
  { intros. unfold skip_aggr_reg. destruct (Z.eqb_spec (next win isf vm) (mAggrReturnReg vm)); lia. }
  revert Hp. unfold place. remember (next win isf vm) as c eqn:Ec.
  destruct (Z.ltb_spec c (if isf then numFloatRegs win else numIntRegs win)) as [Hlt|Hge].
  - intros (d & _ & [= <-])%bind_Some. split_and!; [ | |exact Hwc|done|done];
      unfold set_count_i, set_count_f, next, next_i, next_f;
      destruct isf, (sumbool_of_bool win) as [E|E]; rewrite ?E in *; cbn; rewrite ?Hskip by lia; done.
  - destruct (dcVecAppend_ok (mVecHead vm) (enc LittleEndian 8 x) 8 Hw ltac:(by rewrite length_enc) Hroom)
      as (v & Hv & _ & _ & Hs & _).
    cbn [mVecHead with_count]. rewrite Hv. intros [= <-].
    split_and!; [ | |exact Hwc|exact Hs|done]; unfold set_count_i, set_count_f, next, next_i, next_f;
      destruct isf, (sumbool_of_bool win) as [E|E]; rewrite ?E in *; cbn; rewrite ?Hskip by lia; done.
Qed.

Definition abi_locs (vm : DCCallVM_x64) (ts : list cty) : list x64_loc :=
  if win then abi_win64 (next win false vm) (mSize (mVecHead vm)) ts
  else abi_sysv (next win false vm) (next win true vm) (mSize (mVecHead vm)) ts.

Lemma abi_locs_cons cb vm t ts x vm' :
  x64_inv win cb vm -> mAggrReturnReg vm <= 0 -> vec_room (mVecHead vm) 8 ->
  place win (is_float t) (next win (is_float t) vm) vm x = Some vm' ->
  abi_locs vm (t :: ts)
  = loc_at (is_float t) (next win (is_float t) vm) (mSize (mVecHead vm)) :: abi_locs vm' ts.
Proof.
  intros Hi Hr Hroom Hp. destruct (place_next cb vm _ x vm' Hi Hr Hroom Hp) as (H1 & H2 & H3 & H4 & _).
  unfold abi_locs, loc_at. cbn [abi_win64 abi_sysv]. unfold numFloatRegs, numIntRegs in *.
  destruct (sumbool_of_bool win) as [E|E]; rewrite E in *; destruct (is_float t); cbn [negb] in *;
    rewrite ?(H3 eq_refl), ?H2, ?H1, ?H4; repeat case_match; congruence.
Qed.

Lemma push_args_placed cb mem cpu vm0 l : forall vm vf,
  x64_alloc win vm -> x64_inv win cb vm -> mAggrReturnReg vm <= 0 ->
  mSize (mVecHead vm) + 8 * Z.of_nat (length l) <= mTotal (mVecHead vm) -> Forall arg_ok l ->
  push_args (C := x64_CallVM win float_junk) vm l = Some vf ->
  dcCallback_x64 win cb mem cpu = x64_view cb mem vm0 vf ->
  Forall2 (arg_at win cpu) l (abi_locs vm (map a_ty l)).
Proof.
  induction l as [|a l IH]; intros vm vf Ha Hi Hr Hb Hl Hp Hcpu.
  { unfold abi_locs. destruct win; constructor. }
  inversion Hl as [|?? Hoa Hol]; subst. cbn [length] in Hb.
  unfold push_args in Hp. cbn in Hp. apply bind_Some in Hp as (vm1 & Hp1 & Hp).
  assert (Hroom : vec_room (mVecHead vm) 8) by (unfold vec_room; lia).
  destruct (push_arg_total vm a Ha) as (vm1' & Hp1' & [Ha1 _ Hr1 Ht1 Hs1]).
  rewrite Hp1 in Hp1'. injection Hp1' as <-.
  destruct (x64_step win float_junk cb mem vm a Hi (or_intror Hroom) Hoa) as (vm1' & Hp1' & Hi1 & _).
  rewrite Hp1 in Hp1'. injection Hp1' as <-.
  destruct (push_args_inv (CC := x64_CallConv win float_junk cb mem) vm1 l Hi1
              (budget_room cb mem l vm1 Ha1 ltac:(lia) Hol) Hol) as (vf' & Hp' & Hif & Hxf & _).
  unfold push_args in Hp'. rewrite Hp in Hp'. injection Hp' as <-.
  rewrite push_arg_place in Hp1. cbn [map].
  rewrite (abi_locs_cons cb vm _ _ _ _ Hi Hr Hroom Hp1).
  constructor; [|apply (IH vm1 vf); done || lia].
  destruct (place_step win cb mem (is_float (a_ty a)) vm (pushed_bits win float_junk vm (a_ty a) (a_val a))
              Hi (or_intror Hroom)) as (vm1' & Hp1' & _ & _ & Hread).
  rewrite Hp1 in Hp1'. injection Hp1' as <-. specialize (Hread vf Hif Hxf).
  pose proof Hi as [_ _ [??] ?? _ _ _].
  rewrite fetch_next in Hread by (done || lia).
  destruct (fetch_loc cb mem cpu vm0 vm vf _ _ _ _ Hcpu Hread) as (v & Hv & Hw).
  exists v. split; [done|].
  rewrite <- (conv_wrapU _ 64) by (apply ty_bits_pos). rewrite Hw, conv_wrapU by (apply ty_bits_pos).
  by apply conv_pushed_bits.
Qed.

(** *** Results *)

Lemma scalar_exit cb r0 slot0 t x :
  length slot0 = sizeof_return_slot win -> win || (cb_aggr_return_register cb =? -2) = true ->
  exists slot r, dcvalue_set win t x slot0 = Some slot /\ length slot = length slot0 /\
    callback_exit win cb r0 slot = Some r /\ ret_value win t r = conv t x.
Proof.
  intros Hl Hs. unfold dcvalue_set.
  set (n := Z.to_nat (sizeof_cty t)).
  assert (Hn : (n <= 8)%nat /\ 8 * Z.of_nat n = ty_bits t)
    by (subst n; destruct t, win; vm_compute; split; first [done | lia | repeat constructor]).
  clearbody n.
  assert (Hsl : (16 <= length slot0)%nat) by (rewrite Hl; unfold sizeof_return_slot; destruct win; lia).
  rewrite wr_Some by (rewrite ?length_enc; lia). cbn [take Z.to_nat app Nat.add].
  rewrite length_enc, take_0. cbn [app].
  set (slot := enc LittleEndian n x ++ drop n slot0).
  assert (Hlen : length slot = length slot0)
    by (unfold slot; rewrite length_app, length_enc, length_drop; lia).
  assert (Hq : rd 0 8 slot = Some (enc LittleEndian n x ++ take (8 - n) (drop n slot0))).
  { unfold slot. rewrite <- (take_drop (8 - n) (drop n slot0)) at 1.
    rewrite app_assoc. apply rd0_app. rewrite length_app, length_enc, length_take, length_drop. lia. }
  exists slot. unfold callback_exit. rewrite Hq, Hs. cbn [mbind option_bind].
  eexists; split_and!; try done.
  assert (Hd : conv t (dec LittleEndian (enc LittleEndian n x ++ take (8 - n) (drop n slot0))) = conv t x).
  { rewrite <- (conv_wrapU t (8 * Z.of_nat n)) by lia. rewrite dec_low. apply conv_wrapU. lia. }
  destruct t; exact Hd.
Qed.

(** A handler that reads scalar arguments and returns a scalar, and a callback
    entered by a call kernel that runs a handler. *)
Definition scalar_handler (ts : list cty) (rt : cty) (f : list arg -> Z) (p : DCArgs)
    (slot : list Z) : option (list Z) :=
  '(l, _) ← read_args (RD := x64_ArgReader win) ts p;
  dcvalue_set win rt (f l) slot.

Definition run_callback (cb : DCCallback) (mem : Z -> nat -> option (list Z)) (cpu0 : x64_cpu)
    (r0 : x64_ret) (handler : DCArgs -> list Z -> option (list Z)) (slot0 : list Z)
    (k : x64_kernel) : option x64_ret :=
  cpu ← kernel_enter cpu0 k;
  slot ← handler (dcCallback_x64 win cb mem cpu) slot0;
  callback_exit win cb r0 slot.

(** C8: scalar calls are transparent from end to end.  For every list of scalar
    arguments that fits the VM, every callback without aggregate result and
    every function [f] of the arguments: resetting the VM, passing the
    arguments in order and calling the callback through the call kernel gives
    the callback exactly those arguments, and the caller gets [f]'s result. *)
Theorem x64_scalar_call_end_to_end cb mem cpu0 r0 slot0 vm0 l rt f target :
  x64_alloc win vm0 -> x_vt vm0 <> gVT_x64_syscall_sysv_p ->
  8 * Z.of_nat (length l) <= mTotal (mVecHead vm0) -> Forall arg_ok l ->
  cb_aggr_return_register cb = -2 -> length slot0 = sizeof_return_slot win -> val_ok rt (f l) ->
  exists vm vf r,
    dcReset (C := x64_CallVM win float_junk) vm0 = Some vm /\
    push_args (C := x64_CallVM win float_junk) vm l = Some vf /\
    run_callback cb mem cpu0 r0 (scalar_handler (map a_ty l) rt f) slot0
      (dcCall_as (C := x64_CallVM win float_junk) rt vf target)
    = Some r /\ ret_value win rt r = f l.
Proof.
  intros Ha Hvt Hroom Hl Hcb Hslot Hf.
  destruct (reset_total vm0 Ha) as (vm & Hreset & Ha' & Hfresh & Hvt' & Hreg & Htot).
  destruct (fresh_call cb mem cpu0 vm l target Ha' Hfresh ltac:(congruence)) as
    (vf & cpu & Hp & Hi & _ & Hk & _ & Hread).
  { right. rewrite Hreg, Hcb. lia. }
  { lia. }
  { done. }
  destruct (scalar_exit cb r0 slot0 rt (f l) Hslot) as (slot & r & Hset & _ & Hexit & Hret).
  { rewrite Hcb. apply orb_true_r. }
  exists vm, vf, r. split_and!; try done; [|rewrite Hret; by apply val_ok_conv].
  unfold run_callback, scalar_handler. rewrite call_kernel by (by eapply inv_vt).
  rewrite Hk. cbn [mbind option_bind]. rewrite Hread. cbn [mbind option_bind]. by rewrite Hset.
Qed.

(** C9: arguments are where the platform ABI says.  After the arguments are
    passed, the machine state the callee is entered with holds each argument in
    the register or stack slot the calling convention assigns it - also behind
    a hidden first argument for a returned aggregate ([mAggrReturnReg] 0). *)
Theorem x64_args_at_abi_locations cpu0 vm0 vm l target :
  x64_alloc win vm0 -> x_vt vm0 <> gVT_x64_syscall_sysv_p ->
  8 * Z.of_nat (length l) <= mTotal (mVecHead vm0) -> Forall arg_ok l ->
  (exists vm1, dcReset (C := x64_CallVM win float_junk) vm0 = Some vm1 /\
     (vm = vm1 \/ vm = with_aggr_reg 0 vm1)) ->
  exists vf cpu,
    push_args (C := x64_CallVM win float_junk) vm l = Some vf /\
    kernel_enter cpu0 (dcCallVoid (C := x64_CallVM win float_junk) vf target) = Some cpu /\
    let first := if mAggrReturnReg vm =? 0 then 1 else 0 in
    Forall2 (arg_at win cpu) l
      (if win then abi_win64 first 0 (map a_ty l) else abi_sysv first 0 0 (map a_ty l)).
Proof.
  intros Ha Hvt Hroom Hl (vm1 & Hreset & Hvm).
  destruct (reset_total vm0 Ha) as (vm1' & Hreset' & Ha1 & [Hs1 Hc1] & Hvt1 & Hreg1 & Htot1).
  rewrite Hreset in Hreset'. injection Hreset' as <-.
  set (cb := Build_DCCallback 0 0 (mAggrReturnReg vm) []).
  set (mem := fun (_ : Z) (_ : nat) => @None (list Z)).
  assert (Hvm' : x64_alloc win vm /\ x64_fresh vm /\ x_vt vm = x_vt vm0 /\
            mTotal (mVecHead vm) = mTotal (mVecHead vm0) /\ mAggrReturnReg vm <= 0 /\
            next win false vm = (if mAggrReturnReg vm =? 0 then 1 else 0) /\
            (win = false -> next win true vm = 0)).
  { unfold next, next_i, next_f. destruct Hvm as [-> | ->]; cbn; rewrite ?Hreg1, ?Hc1; cbn.
    - split_and!; try done. by intros ->.
    - split_and!; try done; [|by intros ->]. by destruct Ha1. }
  destruct Hvm' as (Ha' & Hfr & Hvt' & Htot & Hr0 & Hnext & Hnextf).
  destruct (fresh_call cb mem cpu0 vm l target Ha' Hfr ltac:(congruence) (or_introl eq_refl) ltac:(lia) Hl)
    as (vf & cpu & Hp & Hi & _ & Hk & Hcpu & _).
  exists vf, cpu. split_and!; [done| |].
  - rewrite <- Hk. f_equal.
    unfold dcCallVoid, vtable. cbn. pose proof (inv_vt _ _ Hi). by destruct (x_vt vf).
  - pose proof (fresh_inv cb vm Ha' ltac:(congruence) (or_introl eq_refl)) as Hinv.
    destruct Hfr as [Hs _].
    pose proof (push_args_placed cb mem cpu vm l vm vf Ha' Hinv Hr0 ltac:(lia) Hl Hp Hcpu) as Hpl.
    unfold abi_locs in Hpl. rewrite Hs, Hnext in Hpl.
    destruct (sumbool_of_bool win) as [E|E]; rewrite ?E in *; [done|].
    by rewrite (Hnextf eq_refl) in Hpl.
Qed.

(** C10: call set-up is memory safe.  From any allocated VM, every sequence of
    resets, mode changes (supported or not) and scalar arguments - also more
    than fit - runs without undefined behaviour and keeps the allocation
    invariant and the capacity. *)
Theorem x64_api_memory_safe vm0 ops :
  x64_alloc win vm0 ->
  exists vm, run_ops (C := x64_CallVM win float_junk) vm0 ops = Some vm /\
    x64_alloc win vm /\ mTotal (mVecHead vm) = mTotal (mVecHead vm0).
Proof.
  intros Ha.
  apply (run_ops_inv (fun vm => x64_alloc win vm /\ mTotal (mVecHead vm) = mTotal (mVecHead vm0)));
    [|done].
  clear Ha. intros vm o [Ha <-]. destruct o as [|m|a]; cbn [run_op].
  - destruct (reset_total vm Ha) as (vm' & ? & ? & _ & _ & _ & ?). eauto.
  - destruct (mode_total vm m Ha) as (vm' & ? & ? & ?). eauto.
  - destruct (push_arg_total vm a Ha) as (vm' & ? & []). eauto.
Qed.

(** The capacity [dcNewCallVM] gives the argument vector. *)
Definition new_capacity (size : Z) : Z :=
  let c := size - sizeof_RegData win in
  if (c <? 0) || (win && (2 ^ 31 <=? c mod 2 ^ 32)) then 0 else c.

Lemma new_capacity_ok size :
  0 <= size < 2 ^ 63 ->
  (if wrapS dm_long_bits (u64 (size - sizeof_RegData win)) <? 0 then 0
   else u64 (size - sizeof_RegData win)) = new_capacity size /\
  0 <= new_capacity size <= size.
Proof.
  intros Hsz. unfold new_capacity, u64. unfold sizeof_RegData.
    destruct (sumbool_of_bool win) as [E|E]; rewrite ?E in *; cbn [dm_long_bits x64_dm andb].
    - destruct (Z.ltb_spec (size - 32) 0); cbn [orb].
      + assert (size - 32 = -32 + size) as -> by lia.
        assert (wrapU 64 (-32 + size) = 2 ^ 64 + (-32 + size)) as ->.
        { unfold wrapU. rewrite <- (Z.mod_small (2 ^ 64 + _) (2 ^ 64)) by lia.
          rewrite <- (Z.mod_add _ 1) by lia. f_equal. lia. }
        unfold wrapS. replace (2 ^ 64 + (-32 + size) + 2 ^ (32 - 1))
          with ((2 ^ 31 - 32 + size) + 2 ^ 32 * 2 ^ 32) by lia.
        rewrite Z.mod_add, Z.mod_small by lia.
        rewrite (proj2 (Z.ltb_lt _ _)) by lia. lia.
      + rewrite wrapU_id by (unfold in_u; lia). unfold wrapS. change (2 ^ (32 - 1)) with (2 ^ 31).
        pose proof (Z.div_mod (size - 32) (2 ^ 32) ltac:(lia)).
        pose proof (Z.mod_pos_bound (size - 32) (2 ^ 32) ltac:(lia)).
        set (q := (size - 32) / 2 ^ 32) in *. set (r := (size - 32) mod 2 ^ 32) in *.
        replace (size - 32 + 2 ^ 31) with (r + 2 ^ 31 + q * 2 ^ 32) by lia.
        rewrite Z.mod_add by lia. destruct (Z.leb_spec (2 ^ 31) r).
        * replace (r + 2 ^ 31) with (r - 2 ^ 31 + 1 * 2 ^ 32) by lia.
          rewrite Z.mod_add, Z.mod_small by lia. rewrite (proj2 (Z.ltb_lt _ _)) by lia. lia.
        * rewrite Z.mod_small by lia. rewrite (proj2 (Z.ltb_ge _ _)) by lia. lia.
    - destruct (Z.ltb_spec (size - 112) 0); cbn [orb].
      + rewrite wrapS_wrapU, wrapS_id by (unfold in_s; lia).
        rewrite (proj2 (Z.ltb_lt _ _)) by lia. lia.
      + rewrite wrapU_id by (unfold in_u; lia). rewrite wrapS_id by (unfold in_s; lia).
        rewrite (proj2 (Z.ltb_ge _ _)) by lia. lia.
Qed.

(** C11: [dcNewCallVM] delivers an allocated VM in default mode, without error,
    ready for the first argument; its capacity is the requested size less the
    register data.  On Windows the capacity is 0 whenever that difference,
    truncated to the 32-bit [long], is negative. *)
Theorem x64_dcNewCallVM_ready header alloc size :
  Z.of_nat (length alloc) = size -> size < 2 ^ 63 ->
  Z.of_nat (length (rd_i (mRegData header))) = numIntRegs win ->
  Z.of_nat (length (rd_f (mRegData header))) = numFloatRegs win ->
  (win = true -> rd_i (mRegData header) = rd_f (mRegData header)) ->
  exists vm, dcNewCallVM win header (Some alloc) size = Some vm /\
    x64_alloc win vm /\ x64_fresh vm /\ x_vt vm = gVT_x64_p /\
    dcGetError (C := x64_CallVM win float_junk) vm = DC_ERROR_NONE /\
    mAggrReturnReg vm = -1 /\ mTotal (mVecHead vm) = new_capacity size.
Proof.
  intros Hl Hsz Hli Hlf Hu. unfold dcNewCallVM. cbn [mbind option_bind].
  destruct (new_capacity_ok size ltac:(lia)) as [-> Hcap].
  set (cap := new_capacity size) in *.
  clearbody cap. pose proof (nums win) as (N1 & N2 & N3).
  eexists; split; [unfold dc_callvm_mode_x64; cbn; reflexivity|].
  destruct (sumbool_of_bool win) as [E|E]; rewrite ?E in *; cbn; split_and!; try done;
    constructor; cbn; try done; try lia; try (constructor; cbn; lia).
  intros _. split; [by apply Hu|done].
Qed.

End Props.
