(* ===== verification/X64Aggr.v ===== *)
(** * x86-64: aggregates by value

    Structs and unions as arguments, mixed with scalars in any order, and as
    results: in registers, on the stack, behind a caller-made copy (Windows),
    or through a hidden pointer. *)

From S2P Require Export X64Props.

(** ** Argument lists with aggregates *)

(** What a callback finds: a scalar, the bytes of an object, or (for a
    non-trivial C++ object) a pointer to it. *)
Inductive x64_rval := RScalar (z : Z) | RObj (bs : list Z) | RPtr (a : Z).

Definition item_value (it : item) : x64_rval :=
  match it with
  | IScalar a => RScalar (a_val a)
  | IAggr None x => RPtr (op_addr x)
  | IAggr (Some ag) x => RObj (take (Z.to_nat (ag_size ag)) (op_obj x))
  end.

Definition item_aggrs (l : list item) : list (option DCaggr) :=
  omap (fun it => match it with IScalar _ => None | IAggr ag _ => Some ag end) l.

Definition set_aggrs (cb : DCCallback) (l : list (option DCaggr)) : DCCallback :=
  {| cb_handler := cb_handler cb; cb_userdata := cb_userdata cb;
     cb_aggr_return_register := cb_aggr_return_register cb; cb_aggrs := l |}.

(** The memory a callback sees through the pointers it gets: on Windows, the
    copies the caller placed at the end of its argument vector. *)
Definition vec_mem (vf : DCCallVM_x64) (a : Z) (n : nat) : option (list Z) :=
  rd (a - mVecAddr vf) n (vec_data (mVecHead vf)).

(** A closed description whose eightbytes are all INTEGER or SSE, with a class
    for every started eightbyte; a last SSE eightbyte is a float or a double. *)
Definition class_ok (c : Z) : Prop := c = SYSVC_INTEGER \/ c = SYSVC_SSE.

Record reg_classes (ag : DCaggr) : Prop := {
  rcl_class : Forall class_ok (classes_of ag);
  rcl_size : 8 * Z.of_nat (length (classes_of ag)) - 8 < ag_size ag
             <= 8 * Z.of_nat (length (classes_of ag));
  rcl_last : last (classes_of ag) = Some SYSVC_SSE ->
             ag_size ag mod 8 = 0 \/ ag_size ag mod 8 = 4;
}.

(** Requirements on an aggregate argument: its object is as large as the
    description says; the code reads whole eightbytes of objects passed in
    registers. *)
Record aggr_arg_ok (win : bool) (ag : DCaggr) (x : objptr) : Prop := {
  ao_bytes : Forall is_byte (op_obj x);
  ao_pos : 0 < ag_size ag < 2 ^ 31;
  ao_len : ag_size ag <= Z.of_nat (length (op_obj x));
  ao_regs : win = false -> exists c, aget 0 (ag_sysv_classes ag) = Some c /\
    (c = SYSVC_MEMORY \/
     reg_classes ag /\ 8 * Z.of_nat (length (classes_of ag)) <= Z.of_nat (length (op_obj x)));
}.

Definition item_ok (win : bool) (it : item) : Prop :=
  match it with
  | IScalar a => arg_ok (DM := x64_dm win) a
  | IAggr None x => in_u 64 (op_addr x)
  | IAggr (Some ag) x => aggr_arg_ok win ag x
  end.

(** Bytes of the argument vector an item may take. *)
Definition item_cost (win : bool) (it : item) : Z :=
  match it with
  | IAggr (Some ag) _ => ag_size ag + (if win then 24 else 8)
  | _ => 8
  end.

Definition items_cost (win : bool) (l : list item) : Z :=
  fold_right (fun it n => item_cost win it + n) 0 l.

Section Aggr.
Variable win : bool.
Variable float_junk : DCCallVM_x64 -> Z.
#[local] Hint Extern 0 DataModel => exact (x64_dm win) : typeclass_instances.
#[local] Existing Instance x64_CallVM.
#[local] Existing Instance x64_ArgReader.

Abbreviation push_item := (Api.push_item (C := x64_CallVM win float_junk)).
Abbreviation push_items := (Api.push_items (C := x64_CallVM win float_junk)).

(** [buf ag]: the object the callback passes to [dcbArgAggr]. *)
Variable buf : DCaggr -> list Z.

Definition read_item (it : item) : SO DCArgs x64_rval := fun p =>
  match it with
  | IScalar a => '(z, p) ← dcbArg (ArgReader := x64_ArgReader win) (a_ty a) p; Some (RScalar z, p)
  | IAggr ag _ =>
    '(r, p) ← dcbArgAggr win (match ag with Some ag => buf ag | None => [] end) p;
    Some (match r with inl bs => RObj bs | inr a => RPtr a end, p)
  end.

Fixpoint read_items (l : list item) (p : DCArgs) : option (list x64_rval * DCArgs) :=
  match l with
  | [] => Some ([], p)
  | it :: l => '(v, p) ← read_item it p; '(vs, p) ← read_items l p; Some (v :: vs, p)
  end.

(** ** Invariant and extension *)

Record item_inv (cb : DCCallback) (vm : DCCallVM_x64) : Prop := {
  ii_inv : x64_inv win cb vm;
  ii_total : mTotal (mVecHead vm) < 2 ^ 63;
  ii_copies : win = true -> 0 <= mVecAddr vm /\ mVecAddr vm + mTotal (mVecHead vm) < 2 ^ 64 /\
    mVecAddr vm + mSize (mVecHead vm) <= mpAggrVecCopies vm <= mVecAddr vm + mTotal (mVecHead vm);
}.

Record item_ext (a b : DCCallVM_x64) : Prop := {
  ie_ext : x64_ext win a b;
  ie_addr : mVecAddr b = mVecAddr a;
  ie_copies : win = true -> mpAggrVecCopies b <= mpAggrVecCopies a /\
    forall p n, mpAggrVecCopies a <= p -> vec_mem b p n = vec_mem a p n;
}.

(** Bytes left between the pushed arguments and the copies. *)
Definition gap (vm : DCCallVM_x64) : Z :=
  (if win then mpAggrVecCopies vm - mVecAddr vm else mTotal (mVecHead vm)) - mSize (mVecHead vm).

Lemma item_ext_refl vm : item_ext vm vm.
Proof. by constructor. Qed.

Lemma item_ext_trans a b c : item_ext a b -> item_ext b c -> item_ext a c.
Proof.
  intros [X1 A1 C1] [X2 A2 C2]. constructor; [by eapply x64_ext_trans|congruence|].
  intros E. destruct (C1 E) as [L1 R1], (C2 E) as [L2 R2]. split; [lia|].
  intros p n Hp. rewrite R2 by lia. by apply R1.
Qed.

Lemma set_aggrs_inv cb l vm : item_inv cb vm -> item_inv (set_aggrs cb l) vm.
Proof. intros [[] ??]. by constructor. Qed.

Lemma gap_room cb vm n : item_inv cb vm -> n <= gap vm -> vec_room (mVecHead vm) n.
Proof.
  intros [_ _ Hc] Hg. unfold gap, vec_room in *. destruct (sumbool_of_bool win) as [E|E].
  - rewrite E in Hg. specialize (Hc E). lia.
  - rewrite E in Hg. lia.
Qed.

(** *** Placing one eightbyte keeps the copies *)

Lemma place_frame (isf : bool) cb vm x vm' :
  item_inv cb vm -> 8 <= gap vm -> place win isf (next win isf vm) vm x = Some vm' ->
  x64_inv win cb vm' -> x64_ext win vm vm' ->
  item_inv cb vm' /\ item_ext vm vm' /\ gap vm - 8 <= gap vm' /\ x_vt vm' = x_vt vm.
Proof.
  intros Hi Hg Hp Hi' Hx'. pose proof (gap_room cb vm 8 Hi Hg) as Hroom.
  destruct Hi as [[Hvt [Hw H0] ? ? ? ? ? ?] Ht Hc]. revert Hp. unfold place.
  destruct (_ <? _).
  - intros (d & Hd & [= <-])%bind_Some. split_and!; try done; first [by constructor | unfold gap in *; cbn; lia].
  - destruct (dcVecAppend_ok (mVecHead vm) (enc LittleEndian 8 x) 8 Hw ltac:(by rewrite length_enc) Hroom)
      as (v & Hv & Hw' & Htot & Hs & Hlen & _ & Hdrop).
    cbn [mVecHead with_count]. rewrite Hv. intros [= <-].
    unfold gap, vec_room in *. split_and!; try done.
    + constructor; cbn; try done; [congruence|]. intros E. rewrite E in Hg. specialize (Hc E). lia.
    + constructor; try done. intros E. rewrite E in Hg. specialize (Hc E). cbn. split; [lia|].
      intros p n Hpn. unfold vec_mem; cbn. destruct Hw. eapply rd_drop; [|done|exact Hdrop]. lia.
    + cbn. destruct win; lia.
Qed.

Lemma place_item (isf : bool) cb vm x :
  item_inv cb vm -> 8 <= gap vm ->
  exists vm', place win isf (next win isf vm) vm x = Some vm' /\ item_inv cb vm' /\
    item_ext vm vm' /\ gap vm - 8 <= gap vm' /\ x_vt vm' = x_vt vm /\
    forall mem l vf, x64_inv win cb vf -> x64_ext win vm' vf ->
      (if isf then arg_f64 win else arg_i64 win) (x64_view (set_aggrs cb l) mem vm vf)
      = Some (enc LittleEndian 8 x, x64_view (set_aggrs cb l) mem vm' vf).
Proof.
  intros Hi Hg. pose proof (gap_room cb vm 8 Hi Hg) as Hroom.
  destruct (place_step win cb (fun _ _ => None) isf vm x (ii_inv _ _ Hi) (or_intror Hroom))
    as (vm' & Hp & Hi' & Hx' & _).
  destruct (place_frame isf cb vm x vm' Hi Hg Hp Hi' Hx') as (? & ? & ? & ?).
  exists vm'. split_and!; try done. intros mem l vf Hvf Hxf.
  pose proof (set_aggrs_inv cb l vm Hi) as Hil.
  destruct (place_step win (set_aggrs cb l) mem isf vm x (ii_inv _ _ Hil) (or_intror Hroom))
    as (vm'' & Hp' & _ & _ & Hread).
  rewrite Hp in Hp'. injection Hp' as <-. apply Hread; [|done]. by destruct Hvf.
Qed.

(** *** Eightbytes in registers *)

(** The reader's accesses to one placed eightbyte. *)
Lemma read_eightbyte_int (p p' : DCArgs) y :
  arg_i64 win p = Some (enc LittleEndian 8 y, p') ->
  dcbArgLongLong win p = Some (wrapS 64 y, p').
Proof.
  intros H. unfold dcbArgLongLong, mbind, SO_bind. rewrite H, dec_enc. unfold mret, SO_ret.
  do 2 f_equal. apply (wrapS_wrapU 64 64). lia.
Qed.

Lemma read_eightbyte_sse (p p' : DCArgs) y :
  arg_f64 win p = Some (enc LittleEndian 8 y, p') ->
  dcbArgDouble win p = Some (wrapU 64 y, p') /\ dcbArgFloat win p = Some (wrapU 32 y, p').
Proof.
  intros H. unfold dcbArgDouble, dcbArgFloat, mbind, SO_bind. rewrite H. unfold mret, SO_ret.
  split; [by rewrite dec_enc|].
  change (enc LittleEndian 8 y) with (le_split 8 y). rewrite take_le_split by lia.
  change (le_split 4) with (enc LittleEndian 4). by rewrite dec_enc.
Qed.

(** Storing (part of) one eightbyte into the target object. *)
Lemma store_eightbyte (i s : nat) (bs target : list Z) :
  length bs = 8%nat -> (s <= 8)%nat -> (8 * i + s <= length target)%nat ->
  wr (8 * Z.of_nat i) (take s bs) target
  = Some (take (8 * i) target ++ take s bs ++ drop (8 * i + s) target).
Proof.
  intros Hb Hs Hl. rewrite wr_Some by (rewrite ?length_take; lia).
  rewrite length_take. do 2 f_equal; [f_equal; lia|]. do 2 f_equal. lia.
Qed.

Lemma read_class (i : nat) c s (bs target : list Z) (p p' : DCArgs) :
  Forall is_byte bs -> length bs = 8%nat ->
  (c = SYSVC_INTEGER /\ arg_i64 win p = Some (enc LittleEndian 8 (wrapS 64 (dec LittleEndian bs)), p') \/
   c = SYSVC_SSE /\ arg_f64 win p = Some (enc LittleEndian 8 (dec LittleEndian bs), p') /\
     (s = 4 \/ s = 8)) ->
  0 <= s <= 8 -> 8 * Z.of_nat i + s <= Z.of_nat (length target) ->
  (if c =? SYSVC_INTEGER then
     l ← dcbArgLongLong win;
     so_lift (wr (8 * Z.of_nat i) (take (Z.to_nat s) (enc LittleEndian 8 l)) target)
   else if c =? SYSVC_SSE then
     if s =? 8 then
       d ← dcbArgDouble win; so_lift (wr (8 * Z.of_nat i) (enc LittleEndian 8 d) target)
     else if s =? 4 then
       f ← dcbArgFloat win; so_lift (wr (8 * Z.of_nat i) (enc LittleEndian 4 f) target)
     else so_lift None
   else so_lift None) p
  = Some (take (8 * i) target ++ take (Z.to_nat s) bs ++ drop (8 * i + Z.to_nat s) target, p').
Proof.
  intros Hb Hl Hc Hs Ht.
  assert (Hst := store_eightbyte i (Z.to_nat s) bs target Hl ltac:(lia) ltac:(lia)).
  destruct Hc as [[-> Hr]|(-> & Hr & Hs48)]; cbn [Z.eqb SYSVC_INTEGER SYSVC_SSE Pos.eqb].
  - apply read_eightbyte_int in Hr. unfold mbind, SO_bind, so_lift. rewrite Hr.
    rewrite (enc_wrapS _ 8), (enc_wrapS _ 8), enc_dec_n by (done || lia). by rewrite Hst.
  - apply read_eightbyte_sse in Hr as [Hd Hf].
    destruct Hs48 as [-> | ->]; unfold mbind, SO_bind, so_lift; cbn [Z.eqb Pos.eqb].
    + rewrite Hf, (enc_wrapU _ 4).
      assert (enc LittleEndian 4 (dec LittleEndian bs) = take (Z.to_nat 4) bs) as ->
        by (rewrite <- (enc_dec_n LittleEndian 8 bs) at 2 by done; symmetry; apply take_le_split; lia).
      by rewrite Hst.
    + rewrite Hd. rewrite (enc_wrapU _ 8), enc_dec_n by done.
      rewrite (take_ge bs) in Hst |- * by lia. by rewrite Hst.
Qed.

(** The bytes of the object from eightbyte [i] on, put over the target. *)
Definition overlay (i : nat) (size : Z) (obj target : list Z) : list Z :=
  take (8 * i) target ++ take (Z.to_nat size - 8 * i) (drop (8 * i) obj).

Lemma overlay_step (i s : nat) size (obj target bs : list Z) :
  bs = take 8 (drop (8 * i) obj) -> (8 * i + 8 <= length obj)%nat ->
  length target = Z.to_nat size ->
  s = Nat.min (Z.to_nat size - 8 * i) 8 -> (8 * i < Z.to_nat size)%nat ->
  overlay (S i) size obj (take (8 * i) target ++ take s bs ++ drop (8 * i + s) target)
  = overlay i size obj target.
Proof.
  intros -> Ho Ht Hs Hi. unfold overlay.
  assert (Hbs : length (take 8 (drop (8 * i) obj)) = 8%nat) by (rewrite length_take, length_drop; lia).
  destruct (decide (s = 8)%nat) as [E|E].
  - rewrite (take_ge (take 8 _)) by lia.
    rewrite app_assoc, take_app_le by (rewrite length_app, length_take; lia).
    rewrite take_ge by (rewrite length_app, length_take; lia). rewrite <- app_assoc. f_equal.
    replace (Z.to_nat size - 8 * i)%nat with (8 + (Z.to_nat size - 8 * S i))%nat by lia.
    rewrite <- (take_drop 8 (drop (8 * i) obj)) at 2. rewrite drop_drop.
    rewrite take_app_ge by lia. rewrite Hbs. do 2 f_equal; [lia|f_equal; lia].
  - replace (Z.to_nat size - 8 * S i)%nat with 0%nat by lia.
    rewrite take_0, app_nil_r. rewrite (drop_ge target) by lia. rewrite app_nil_r.
    rewrite take_ge by (rewrite length_app, !length_take; lia).
    f_equal. rewrite take_take. f_equal. lia.
Qed.

Lemma argAggr_regs_step cb obj size cs : forall (i : nat) vm,
  Forall is_byte obj -> Forall class_ok cs -> item_inv cb vm ->
  8 * Z.of_nat (length cs) <= gap vm ->
  8 * (Z.of_nat i + Z.of_nat (length cs)) <= Z.of_nat (length obj) ->
  8 * (Z.of_nat i + Z.of_nat (length cs)) - 8 < size <= 8 * (Z.of_nat i + Z.of_nat (length cs)) ->
  (last cs = Some SYSVC_SSE -> size mod 8 = 0 \/ size mod 8 = 4) -> 0 < size < 2 ^ 31 ->
  exists vm', argAggr_regs win vm obj (Z.of_nat i) cs = Some vm' /\ item_inv cb vm' /\
    item_ext vm vm' /\ gap vm - 8 * Z.of_nat (length cs) <= gap vm' /\ x_vt vm' = x_vt vm /\
    forall mem l vf target, x64_inv win cb vf -> x64_ext win vm' vf -> length target = Z.to_nat size ->
      dcbArgAggr_regs win (Z.of_nat i) cs size target (x64_view (set_aggrs cb l) mem vm vf)
      = Some (overlay i size obj target, x64_view (set_aggrs cb l) mem vm' vf).
Proof.
  induction cs as [|c cs IH]; intros i vm Hb Hc Hi Hg Ho Hs Hlast Hpos; cbn [length] in *.
  { exists vm. split_and!; [done|done|apply item_ext_refl|lia|done|].
    intros mem l vf target _ _ Ht. cbn [dcbArgAggr_regs]. unfold overlay, mret, SO_ret.
    replace (Z.to_nat size - 8 * i)%nat with 0%nat by lia.
    by rewrite take_0, app_nil_r, take_ge by lia. }
  apply Forall_cons in Hc as [Hc Hcs].
  destruct (rd_Some (8 * Z.of_nat i) 8 obj ltac:(lia) ltac:(lia)) as (bs & Hbs & Hlbs & Ebs).
  assert (Hbb : Forall is_byte bs) by (rewrite Ebs; by apply Forall_take, Forall_drop).
  replace (Z.to_nat (8 * Z.of_nat i)) with (8 * i)%nat in Ebs by lia.
  set (y := if c =? SYSVC_INTEGER then wrapS 64 (dec LittleEndian bs) else dec LittleEndian bs).
  destruct (place_item (negb (c =? SYSVC_INTEGER)) cb vm y Hi ltac:(lia))
    as (vm1 & Hp & Hi1 & Hx1 & Hg1 & Hvt1 & Hread1).
  destruct (IH (S i) vm1 Hb Hcs Hi1 ltac:(lia) ltac:(lia) ltac:(lia)) as (vm2 & Hp2 & Hi2 & Hx2 & Hg2 & Hvt2 & Hread2).
  { intros H. apply Hlast. destruct cs; done. }
  { done. }
  replace (Z.of_nat (S i)) with (Z.of_nat i + 1) in * by lia.
  exists vm2. split_and!; [|done|by eapply item_ext_trans|lia|congruence|].
  - cbn [argAggr_regs]. subst y. rewrite Hbs. cbn [mbind option_bind].
    destruct Hc as [-> | ->]; cbn [Z.eqb SYSVC_INTEGER SYSVC_SSE Pos.eqb negb] in *;
      rewrite ?argLongLong_place, ?argDouble_place, Hp; exact Hp2.
  - intros mem l vf target Hvf Hxf Ht. cbn [dcbArgAggr_regs].
    assert (Hx1f : x64_ext win vm1 vf) by (eapply x64_ext_trans; [apply Hx2|done]).
    specialize (Hread1 mem l vf Hvf Hx1f).
    set (s := if u64 (size - Z.of_nat i * 8) <? 8 then u64 (size - Z.of_nat i * 8) else 8).
    assert (Es : s = Z.min (size - 8 * Z.of_nat i) 8).
    { unfold s. unfold u64. rewrite wrapU_id by (unfold in_u; lia).
      destruct (Z.ltb_spec (size - Z.of_nat i * 8) 8); lia. }
    clearbody s. unfold mbind at 1, SO_bind at 1.
    rewrite (read_class i c s bs target _ (x64_view (set_aggrs cb l) mem vm1 vf)); try done; [|..].
    + specialize (Hread2 mem l vf (take (8 * i) target ++ take (Z.to_nat s) bs ++ drop (8 * i + Z.to_nat s) target)
                    Hvf Hxf). rewrite Hread2.
      * do 2 f_equal. apply overlay_step; (done || lia).
      * rewrite !length_app, !length_take, length_drop. lia.
    + subst y. destruct Hc as [-> | ->]; [left; done|right]. split_and!; [done|exact Hread1|].
      destruct cs as [|? ?]; [|right; cbn [length] in *; lia].
      cbn [length] in *. destruct (Hlast eq_refl) as [Hm|Hm]; [right|left].
      * pose proof (Z.div_mod size 8 ltac:(lia)). lia.
      * pose proof (Z.div_mod size 8 ltac:(lia)). lia.
    + lia.
    + lia.
Qed.

(** *** Aggregates in memory (System V) *)

Lemma argAggr_memory_step cb vm obj size :
  win = false -> item_inv cb vm -> 0 < size < 2 ^ 31 -> size <= Z.of_nat (length obj) ->
  align_up size 8 <= gap vm ->
  exists v, dcVecAppend (mVecHead vm) obj size = Some v /\
    let vm' := with_vec (dcVecSkip v (Z.land (u64 (size + 7)) (u64 (-8)) - size)) vm in
    item_inv cb vm' /\ item_ext vm vm' /\ gap vm' = gap vm - align_up size 8 /\ x_vt vm' = x_vt vm /\
    mSize (mVecHead vm') = mSize (mVecHead vm) + align_up size 8 /\
    forall vf, x64_ext win vm' vf ->
      rd (mSize (mVecHead vm)) (Z.to_nat size) (vec_bytes (mVecHead vf)) = Some (take (Z.to_nat size) obj).
Proof.
  intros Hwin Hi Hs Hl Hg. pose proof (align_up_bounds size 8 ltac:(lia)) as Hup.
  pose proof (gap_room cb vm _ Hi Hg) as Hroom.
  destruct Hi as [[Hvt [Hw H0] Hr Hci Hcf Hli Hlf Hu] Ht Hc].
  rewrite dcVecAppend_take by lia.
  assert (Htl : size = Z.of_nat (length (take (Z.to_nat size) obj))) by (rewrite length_take; lia).
  assert (Hroom' : vec_room (mVecHead vm) size) by (unfold vec_room in *; lia).
  destruct (dcVecAppend_ok _ _ _ Hw Htl Hroom') as (v & Hv & Hwv & Htot & Hsz & Hlen & Hbytes & _).
  exists v. split; [done|].
  assert (Hal : Z.land (u64 (size + 7)) (u64 (-8)) = align_up size 8).
  { unfold u64. rewrite (wrapU_id 64 (size + 7)) by (unfold in_u; lia). change (-8) with (- 2 ^ 3).
    rewrite land_neg_pow2 by (unfold in_u; lia). unfold align_up. do 2 f_equal. lia. }
  rewrite Hal. unfold vec_room in *. rewrite dcVecSkip_ok by (done || lia || (unfold vec_room; lia)).
  destruct (dcVecResize_forward v (mSize v + (align_up size 8 - size)) Hwv ltac:(lia)) as [Hwr Hpr].
  assert (Hx : x64_ext win vm (with_vec (dcVecResize v (mSize v + (align_up size 8 - size))) vm)).
  { constructor; cbn; try done. etrans; [|exact Hpr]. rewrite Hbytes. by apply prefix_app_r. }
  split_and!.
  - constructor; cbn; [constructor; cbn; try done; split; [done|unfold vec_room; cbn; lia]|lia|congruence].
  - constructor; cbn; try done. congruence.
  - unfold gap. rewrite Hwin. cbn. lia.
  - done.
  - cbn. lia.
  - intros vf [_ Hp _ _]. cbn in Hp. eapply rd_prefix; [exact Hp|]. eapply rd_prefix; [exact Hpr|].
    rewrite Hbytes. apply rd_app; [|lia]. rewrite length_vec_bytes; [done|done|]. done.
Qed.

(** *** Caller-made copies (Windows) *)

Lemma argAggr_copy_step cb vm obj size :
  win = true -> item_inv cb vm -> 0 < size < 2 ^ 31 -> size <= Z.of_nat (length obj) ->
  size + 16 <= gap vm ->
  let copies := Z.land (mpAggrVecCopies vm - size) (-16) in
  exists bs v, rd 0 (Z.to_nat size) obj = Some bs /\ bs = take (Z.to_nat size) obj /\
    dcVecStore (mVecHead vm) (copies - mVecAddr vm) bs = Some v /\ mSize v = mSize (mVecHead vm) /\
    let vm' := with_vec v (with_copies copies vm) in
    item_inv cb vm' /\ item_ext vm vm' /\ gap vm - size - 16 <= gap vm' /\ x_vt vm' = x_vt vm /\
    in_u 64 copies /\
    forall vf, item_ext vm' vf -> vec_mem vf copies (Z.to_nat size) = Some bs.
Proof.
  intros Hwin [[Hvt [Hw H0] Hr Hci Hcf Hli Hlf Hu] Ht Hc] Hs Hl Hg copies.
  destruct (Hc Hwin) as (Ha0 & Ha1 & Hcp).
  assert (Hcop : mpAggrVecCopies vm - size - 15 <= copies <= mpAggrVecCopies vm - size).
  { unfold copies. change (-16) with (- 2 ^ 4). rewrite land_neg_pow2_Z by lia.
    pose proof (Z.div_mod (mpAggrVecCopies vm - size) (2 ^ 4) ltac:(lia)).
    pose proof (Z.mod_pos_bound (mpAggrVecCopies vm - size) (2 ^ 4) ltac:(lia)). lia. }
  clearbody copies. unfold gap in Hg. rewrite Hwin in Hg.
  destruct (rd_Some 0 (Z.to_nat size) obj ltac:(lia) ltac:(lia)) as (bs & Hbs & Hlb & Ebs).
  destruct Hw as [Hw1 Hw2 Hw3].
  set (off := copies - mVecAddr vm) in *.
  assert (Hoff : mSize (mVecHead vm) <= off /\ off + size <= mTotal (mVecHead vm)) by (unfold off; lia).
  destruct (wr off bs (vec_data (mVecHead vm))) as [d|] eqn:Hd; cycle 1.
  { rewrite wr_Some in Hd by lia. done. }
  pose proof (length_wr _ _ _ _ Hd) as Hdl.
  exists bs. unfold dcVecStore. rewrite Hd. cbn [mbind option_bind].
  eexists. do 4 (split; [done|]).
  assert (Hsame : take (Z.to_nat (mSize (mVecHead vm))) d
                  = take (Z.to_nat (mSize (mVecHead vm))) (vec_data (mVecHead vm))).
  { rewrite wr_Some in Hd by lia. injection Hd as <-.
    rewrite take_app_le, take_take by (rewrite length_take; lia). f_equal. lia. }
  split_and!.
  - constructor; cbn; [|done|intros _; unfold off in *; lia].
    constructor; cbn; try done. split; [constructor; cbn; lia|exact H0].
  - constructor; cbn; try done.
    + constructor; cbn; try done. unfold vec_bytes; cbn. by rewrite Hsame.
    + intros _. split; [lia|]. intros p n Hp. unfold vec_mem; cbn.
      eapply rd_wr_other; [done|right]. unfold off. lia.
  - unfold gap. rewrite Hwin. cbn. lia.
  - done.
  - unfold in_u, off in *. lia.
  - intros vf [_ Had Hcv]. destruct (Hcv Hwin) as [_ Hmem]. rewrite Hmem by (cbn; lia).
    unfold vec_mem; cbn. eapply rd_wr_same; [exact Hd|done].
Qed.

(** ** One item of any kind *)

Hypothesis buf_size : forall ag, length (buf ag) = Z.to_nat (ag_size ag).

Record step_ok (cb : DCCallback) (it : item) (vm vm' : DCCallVM_x64) : Prop := {
  so_push : push_item vm it = Some vm';
  so_inv : item_inv cb vm';
  so_ext : item_ext vm vm';
  so_gap : gap vm - item_cost win it <= gap vm';
  so_read : forall l vf, item_inv cb vf -> item_ext vm' vf ->
    read_item it (x64_view (set_aggrs cb (item_aggrs [it] ++ l)) (vec_mem vf) vm vf)
    = Some (item_value it, x64_view (set_aggrs cb l) (vec_mem vf) vm' vf);
}.

Lemma dcArgAggr_x64 vm ag x :
  x_vt vm <> gVT_x64_syscall_sysv_p ->
  dcArgAggr (C := x64_CallVM win float_junk) vm ag x = dc_callvm_argAggr_x64 win vm ag x.
Proof. intros. unfold dcArgAggr, vtable. cbn. by destruct (x_vt vm). Qed.

Lemma read_pointer (p p' : DCArgs) y :
  in_u 64 y -> arg_i64 win p = Some (enc LittleEndian 8 y, p') ->
  dcbArgPointer win p = Some (y, p').
Proof.
  intros Hy H%read_eightbyte_int. unfold dcbArgPointer, mbind, SO_bind. rewrite H.
  unfold mret, SO_ret. do 2 f_equal. etrans; [apply (wrapU_wrapS 64 64); lia|]. by apply wrapU_id.
Qed.

Lemma scalar_item_step cb vm a :
  item_inv cb vm -> 8 <= gap vm -> arg_ok a -> exists vm', step_ok cb (IScalar a) vm vm'.
Proof.
  intros Hi Hg Ha. pose proof (gap_room cb vm 8 Hi Hg) as Hroom.
  destruct (place_item (is_float (a_ty a)) cb vm (pushed_bits win float_junk vm (a_ty a) (a_val a)) Hi Hg)
    as (vm' & Hp & Hi' & Hx & Hg' & _ & _).
  exists vm'. constructor; try done; [by cbn; rewrite push_arg_place|].
  intros l vf Hvf Hxf. cbn [item_aggrs omap list_omap app read_item].
  destruct (x64_step win float_junk (set_aggrs cb l) (vec_mem vf) vm a
              (ii_inv _ _ (set_aggrs_inv _ _ _ Hi)) (or_intror Hroom) Ha) as (vm1 & Hp1 & _ & _ & Hread).
  rewrite push_arg_place, Hp in Hp1. injection Hp1 as <-.
  rewrite Hread; [done|by apply set_aggrs_inv|apply Hxf].
Qed.

Lemma pointer_item_step cb vm x :
  item_inv cb vm -> 8 <= gap vm -> in_u 64 (op_addr x) ->
  exists vm', step_ok cb (IAggr None x) vm vm'.
Proof.
  intros Hi Hg Hx. destruct (place_item false cb vm (op_addr x) Hi Hg)
    as (vm' & Hp & Hi' & He & Hg' & _ & Hread).
  exists vm'. constructor; try done.
  - cbn. rewrite dcArgAggr_x64 by apply Hi. exact Hp.
  - intros l vf Hvf Hxf. cbn [item_aggrs omap list_omap app read_item].
    unfold dcbArgAggr. cbn [aggrs x64_view set_aggrs cb_aggrs].
    specialize (Hread (vec_mem vf) l vf (ii_inv _ _ Hvf) (ie_ext _ _ Hxf)).
    apply read_pointer in Hread; [|done].
    unfold mbind at 2, SO_bind. unfold args_next_aggr. cbn. unfold x64_view, set_aggrs in Hread. cbn in Hread.
    rewrite Hread. done.
Qed.

(** The test caller and callee share: pass in memory or in registers. *)
Definition in_memory (c : Z) (cnt : DCRegCount_x64) (ag : DCaggr) : bool :=
  let n_regs := if negb (c =? SYSVC_MEMORY) then count_classes cnt (classes_of ag) else cnt in
  (c =? SYSVC_MEMORY) || (numIntRegs win <? rc_i n_regs) || (numFloatRegs win <? rc_f n_regs).

Lemma sysv_memory_item_step cb vm ag x c :
  win = false -> item_inv cb vm -> ag_size ag + 8 <= gap vm -> aggr_arg_ok win ag x ->
  aget 0 (ag_sysv_classes ag) = Some c -> in_memory c (mRegCount vm) ag = true ->
  exists vm', step_ok cb (IAggr (Some ag) x) vm vm'.
Proof.
  intros Hwin Hi Hg [Hb Hpos Hlen _] Hc Hm.
  pose proof (align_up_bounds (ag_size ag) 8 ltac:(lia)) as Hup.
  destruct (argAggr_memory_step cb vm (op_obj x) (ag_size ag) Hwin Hi Hpos Hlen ltac:(lia))
    as (v & Hv & Hi' & Hx & Hg' & Hvt & Hs & Hread).
  set (vm' := with_vec _ vm) in *. exists vm'. constructor; try done.
  - cbn [Api.push_item]. rewrite dcArgAggr_x64 by apply Hi. unfold dc_callvm_argAggr_x64, in_memory in *.
    rewrite Hwin in Hm, Hv |- *. cbn [negb]. rewrite Hc. cbn [mbind option_bind].
    rewrite Hm, Hv. done.
  - cbn [item_cost]. rewrite Hwin. lia.
  - intros l vf Hvf Hxf. cbn [item_aggrs omap list_omap app read_item].
    unfold dcbArgAggr. cbn [aggrs x64_view set_aggrs cb_aggrs]. unfold in_memory in Hm.
    rewrite Hwin in Hm |- *. cbn [negb]. rewrite Hc. cbn [mbind option_bind].
    unfold args_next_aggr; cbn [reg_count x64_view stack_ptr args_stack set_aggrs].
    rewrite Hm. rewrite (Hread vf (ie_ext _ _ Hxf)). cbn [mbind option_bind].
    rewrite wr_all by (rewrite length_take, buf_size; lia). cbn [mbind option_bind].
    unfold item_value, x64_view. do 3 f_equal. unfold args_with_stack; cbn. f_equal.
    etrans; [|symmetry; exact Hs]. f_equal.
    unfold u64. rewrite wrapU_id by (unfold in_u; lia).
    rewrite Z.shiftr_div_pow2 by lia. unfold align_up.
    replace (ag_size ag + 8 - 1) with (ag_size ag + 7) by lia. apply Z.mul_comm.
Qed.

Lemma sysv_regs_item_step cb vm ag x c :
  win = false -> item_inv cb vm -> ag_size ag + 8 <= gap vm -> aggr_arg_ok win ag x ->
  aget 0 (ag_sysv_classes ag) = Some c -> in_memory c (mRegCount vm) ag = false ->
  exists vm', step_ok cb (IAggr (Some ag) x) vm vm'.
Proof.
  intros Hwin Hi Hg [Hb Hpos Hlen Hcls] Hc Hm.
  destruct (Hcls Hwin) as (c' & Hc' & Hcase). rewrite Hc in Hc'. injection Hc' as <-.
  destruct Hcase as [-> | [[Hcl Hsz Hlast] Hobj]]; [done|].
  destruct (argAggr_regs_step cb (op_obj x) (ag_size ag) (classes_of ag) 0 vm)
    as (vm' & Hp & Hi' & Hx & Hg' & _ & Hread); try done; try lia.
  exists vm'. constructor; try done.
  - cbn [Api.push_item]. rewrite dcArgAggr_x64 by apply Hi. unfold dc_callvm_argAggr_x64, in_memory in *.
    rewrite Hwin in Hm, Hp |- *. cbn [negb]. rewrite Hc. cbn [mbind option_bind]. rewrite Hm. exact Hp.
  - cbn [item_cost]. rewrite Hwin. lia.
  - intros l vf Hvf Hxf. cbn [item_aggrs omap list_omap app read_item].
    unfold dcbArgAggr. cbn [aggrs x64_view set_aggrs cb_aggrs]. unfold in_memory in Hm.
    rewrite Hwin in Hm |- *. cbn [negb]. rewrite Hc. cbn [mbind option_bind].
    unfold args_next_aggr; cbn [reg_count x64_view set_aggrs]. rewrite Hm.
    specialize (Hread (vec_mem vf) l vf (buf ag) (ii_inv _ _ Hvf) (ie_ext _ _ Hxf) (buf_size ag)).
    change (Z.of_nat 0) with 0 in Hread. rewrite Hwin in Hread.
    unfold x64_view, set_aggrs in Hread |- *. cbn in Hread |- *.
    unfold mbind at 2, SO_bind. rewrite Hread. unfold mret, SO_ret. cbn.
    unfold overlay. change (8 * 0)%nat with 0%nat. by rewrite ?take_0, ?drop_0, ?Nat.sub_0_r.
Qed.

(** *** Windows: power-of-two sizes in a register, others copied *)

(** The type an aggregate of that size travels as. *)
Definition small_type (size : Z) : option cty :=
  if size =? 1 then Some TChar else if size =? 2 then Some TShort
  else if size =? 4 then Some TLong else if size =? 8 then Some TLongLong else None.

Lemma small_roundtrip t size bs (p p' : DCArgs) :
  win = true -> small_type size = Some t -> Forall is_byte bs -> length bs = Z.to_nat size ->
  arg_i64 win p = Some (enc LittleEndian 8 (conv t (dec LittleEndian bs)), p') ->
  (x ← dcbArg (ArgReader := x64_ArgReader win) t; mret (enc LittleEndian (Z.to_nat size) x)) p
  = Some (bs, p').
Proof.
  intros Hwin Ht Hb Hl H. apply read_eightbyte_int in H.
  unfold mbind, SO_bind, mret, SO_ret. unfold small_type in Ht.
  repeat match type of Ht with context [size =? ?k] => destruct (Z.eqb_spec size k) as [->|] end;
    try done; injection Ht as <-;
    cbn [dcbArg x64_ArgReader]; unfold dcbArgChar, dcbArgShort, dcbArgLong, mbind, SO_bind, mret, SO_ret;
    rewrite H; do 2 f_equal; cbn [conv]; cbn [dm_long_bits dm_char_signed x64_dm]; rewrite ?Hwin;
    rewrite ?wrapS_wrapS by lia;
    (etrans; [first [apply (enc_wrapS _ 1) | apply (enc_wrapS _ 2) | apply (enc_wrapS _ 4) | apply (enc_wrapS _ 8)]; lia|]);
    by apply enc_dec_n.
Qed.

Ltac small_nats H :=
  change (Z.to_nat 1) with 1%nat in H; change (Z.to_nat 2) with 2%nat in H;
  change (Z.to_nat 4) with 4%nat in H; change (Z.to_nat 8) with 8%nat in H.

Lemma win_small_item_step cb vm ag x t :
  win = true -> item_inv cb vm -> ag_size ag + 24 <= gap vm -> aggr_arg_ok win ag x ->
  small_type (ag_size ag) = Some t ->
  exists vm', step_ok cb (IAggr (Some ag) x) vm vm'.
Proof.
  intros Hwin Hi Hg [Hb Hpos Hlen _] Ht.
  destruct (rd_Some 0 (Z.to_nat (ag_size ag)) (op_obj x) ltac:(lia) ltac:(lia)) as (bs & Hbs & Hlb & Ebs).
  rewrite drop_0 in Ebs.
  destruct (place_item false cb vm (conv t (dec LittleEndian bs)) Hi ltac:(lia))
    as (vm' & Hp & Hi' & Hx & Hg' & _ & Hread).
  exists vm'. constructor; try done.
  - cbn [Api.push_item]. rewrite dcArgAggr_x64 by apply Hi. rewrite <- Hp.
    unfold dc_callvm_argAggr_x64, small_type in *. rewrite Hwin. cbn [negb]. rewrite <- Hwin.
    repeat match type of Ht with context [ag_size ag =? ?k] => destruct (Z.eqb_spec (ag_size ag) k) as [E|] end;
      try done; injection Ht as <-; rewrite E in Hbs; small_nats Hbs;
      rewrite Hbs; done.
  - cbn [item_cost]. rewrite Hwin. lia.
  - intros l vf Hvf Hxf. cbn [item_aggrs omap list_omap app read_item].
    specialize (Hread (vec_mem vf) l vf (ii_inv _ _ Hvf) (ie_ext _ _ Hxf)).
    assert (Hbb : Forall is_byte bs) by (rewrite Ebs; by apply Forall_take).
    pose proof (small_roundtrip t (ag_size ag) bs _ _ Hwin Ht Hbb Hlb Hread) as Hrt.
    assert (Hwr : wr 0 bs (buf ag) = Some bs) by (apply wr_all; rewrite buf_size; lia).
    unfold dcbArgAggr, item_value. cbn [aggrs x64_view set_aggrs cb_aggrs]. rewrite <- Ebs.
    unfold small_type in Ht. rewrite Hwin. cbn [negb]. rewrite <- Hwin.
    unfold mbind, SO_bind, mret, SO_ret, so_lift, option_bind in *.
    unfold x64_view, set_aggrs, args_next_aggr in *. cbn in Hrt |- *.
    repeat match type of Ht with context [ag_size ag =? ?k] => destruct (Z.eqb_spec (ag_size ag) k) as [E|] end;
      try done; injection Ht as <-; rewrite E in Hrt; cbn [dcbArg x64_ArgReader] in Hrt;
      match type of Hrt with match ?e with _ => _ end = _ => destruct e as [[z d]|]; [|done] end;
      injection Hrt as Hz ->; small_nats Hz; rewrite Hz, Hwr; done.
Qed.

Lemma win_copy_item_step cb vm ag x :
  win = true -> item_inv cb vm -> ag_size ag + 24 <= gap vm -> aggr_arg_ok win ag x ->
  small_type (ag_size ag) = None ->
  exists vm', step_ok cb (IAggr (Some ag) x) vm vm'.
Proof.
  intros Hwin Hi Hg [Hb Hpos Hlen _] Ht.
  destruct (argAggr_copy_step cb vm (op_obj x) (ag_size ag) Hwin Hi Hpos Hlen ltac:(lia))
    as (bs & v & Hbs & Ebs & Hv & Hsv & Hi1 & Hx1 & Hg1 & _ & Hcop & Hmem).
  set (copies := Z.land _ _) in *. set (vm1 := with_vec v (with_copies copies vm)) in *.
  destruct (place_item false cb vm1 copies Hi1 ltac:(lia)) as (vm' & Hp & Hi' & Hx & Hg' & _ & Hread).
  exists vm'. constructor; try done.
  - cbn [Api.push_item]. rewrite dcArgAggr_x64 by apply Hi. rewrite <- Hp.
    unfold dc_callvm_argAggr_x64, small_type in *. rewrite Hwin. cbn [negb]. rewrite <- Hwin.
    repeat match type of Ht with context [ag_size ag =? ?k] => destruct (Z.eqb_spec (ag_size ag) k) end;
      try done. fold copies. rewrite Hbs. cbn [mbind option_bind mVecHead with_copies mVecAddr].
    by rewrite Hv.
  - by eapply item_ext_trans.
  - cbn [item_cost]. rewrite Hwin. lia.
  - intros l vf Hvf Hxf. cbn [item_aggrs omap list_omap app read_item].
    specialize (Hread (vec_mem vf) l vf (ii_inv _ _ Hvf) (ie_ext _ _ Hxf)).
    apply read_pointer in Hread; [|done].
    assert (Hm : vec_mem vf copies (Z.to_nat (ag_size ag)) = Some bs)
      by (apply Hmem; by eapply item_ext_trans).
    assert (Hwr : wr 0 bs (buf ag) = Some bs)
      by (apply wr_all; rewrite buf_size, Ebs, length_take; lia).
    assert (x64_view (set_aggrs cb l) (vec_mem vf) vm1 vf = x64_view (set_aggrs cb l) (vec_mem vf) vm vf)
      as Hview by (unfold x64_view, vm1; cbn; by rewrite Hsv).
    rewrite Hview in Hread. clear Hview.
    unfold dcbArgAggr, item_value. cbn [aggrs x64_view set_aggrs cb_aggrs]. rewrite <- Ebs.
    unfold small_type in Ht. rewrite Hwin. cbn [negb]. rewrite <- Hwin.
    unfold mbind, SO_bind, mret, SO_ret, so_lift, option_bind in *.
    unfold x64_view, set_aggrs, args_next_aggr in *. cbn in Hread |- *.
    repeat match type of Ht with context [ag_size ag =? ?k] => destruct (Z.eqb_spec (ag_size ag) k) end;
      try done. rewrite Hread, Hm, Hwr. done.
Qed.

Lemma item_step cb vm it :
  item_inv cb vm -> item_cost win it <= gap vm -> item_ok win it -> exists vm', step_ok cb it vm vm'.
Proof.
  intros Hi Hg Hok. destruct it as [a|[ag|] x]; cbn [item_cost item_ok] in *.
  - by apply scalar_item_step.
  - destruct (sumbool_of_bool win) as [E|E].
    + rewrite E in Hg. destruct (small_type (ag_size ag)) eqn:Et;
        [by eapply win_small_item_step|by apply win_copy_item_step].
    + rewrite E in Hg. destruct (ao_regs _ _ _ Hok E) as (c & Hc & _).
      destruct (in_memory c (mRegCount vm) ag) eqn:Em;
        [by eapply sysv_memory_item_step|by eapply sysv_regs_item_step].
  - by apply pointer_item_step.
Qed.

Lemma items_step cb rest l : forall vm,
  item_inv cb vm -> items_cost win l <= gap vm -> Forall (item_ok win) l ->
  exists vf, push_items vm l = Some vf /\ item_inv cb vf /\ item_ext vm vf /\
    forall w, item_inv cb w -> item_ext vf w ->
    read_items l (x64_view (set_aggrs cb (item_aggrs l ++ rest)) (vec_mem w) vm w)
    = Some (map item_value l, x64_view (set_aggrs cb rest) (vec_mem w) vf w).
Proof.
  induction l as [|it l IH]; intros vm Hi Hg Hok.
  { exists vm. split_and!; done. }
  apply Forall_cons in Hok as [Hit Hok]. cbn [items_cost fold_right] in Hg. fold (items_cost win l) in Hg.
  assert (Hnn : 0 <= items_cost win l).
  { clear -Hok. unfold items_cost. induction Hok as [|it' l' Ho _ IHl]; cbn; [lia|].
    assert (0 <= item_cost win it'); [|lia].
    destruct it' as [|[ag|]]; cbn; try lia. destruct Ho. destruct win; lia. }
  destruct (item_step cb vm it Hi ltac:(lia) Hit) as (vm1 & [Hp Hi1 Hx1 Hg1 Hr1]).
  destruct (IH vm1 Hi1 ltac:(lia) Hok) as (vf & Hpf & Hif & Hxf & Hrf).
  exists vf. split_and!; [|done|by eapply item_ext_trans|].
  - unfold Api.push_items in *. cbn [foldM]. rewrite Hp. exact Hpf.
  - intros w Hiw Hxw. cbn [read_items map].
    replace (item_aggrs (it :: l) ++ rest) with (item_aggrs [it] ++ (item_aggrs l ++ rest)).
    + rewrite (Hr1 _ w Hiw (item_ext_trans _ _ _ Hxf Hxw)). cbn [mbind option_bind].
      by rewrite (Hrf w Hiw Hxw).
    + unfold item_aggrs. destruct it; done.
Qed.

(** ** Aggregate results in registers *)

Lemma copy_ret_reg_spec ll : forall st src regs dst q,
  rd src ll regs = Some q -> 0 <= st ->
  copy_ret_reg ll st src regs dst
  = Some (if Z.of_nat ll <=? st then (st - Z.of_nat ll, src + Z.of_nat ll, dst ++ q)
          else (u64 (-1), src + st, dst ++ take (Z.to_nat st) q)).
Proof.
  induction ll as [|ll IH]; intros st src regs dst q Hq Hst.
  { pose proof (rd_length _ _ _ _ Hq) as Hl. destruct q; [|done].
    rewrite (proj2 (Z.leb_le _ _)) by lia. cbn. by rewrite app_nil_r, Z.sub_0_r, Z.add_0_r. }
  pose proof (rd_length _ _ _ _ Hq) as Hl. destruct q as [|b q]; [done|].
  apply rd_cons in Hq as [Hb Hq]. cbn [copy_ret_reg].
  destruct (Z.eqb_spec st 0) as [->|].
  - rewrite (proj2 (Z.leb_gt _ _)) by lia. change (Z.to_nat 0) with 0%nat.
    rewrite take_0, app_nil_r, Z.add_0_r. done.
  - rewrite Hb. cbn [mbind option_bind]. rewrite (IH _ _ _ _ q) by (done || lia).
    destruct (Z.leb_spec (Z.of_nat ll) (st - 1)); destruct (Z.leb_spec (Z.of_nat (S ll)) st); try lia.
    + rewrite <- app_assoc. replace (st - 1 - Z.of_nat ll) with (st - Z.of_nat (S ll)) by lia.
      replace (src + 1 + Z.of_nat ll) with (src + Z.of_nat (S ll)) by lia. done.
    + rewrite <- app_assoc. replace (Z.to_nat st) with (S (Z.to_nat (st - 1))) by lia.
      cbn [take app]. replace (src + 1 + (st - 1)) with (src + st) by lia. done.
Qed.

Lemma length_ret_regs r : length (ret_regs r) = 32%nat.
Proof. unfold ret_regs. by rewrite !length_app, !length_enc. Qed.

(** The return registers carry the eightbytes of the slot. *)
Lemma callback_exit_regs cb r0 slot :
  win = false -> cb_aggr_return_register cb <> -2 -> length slot = 32%nat ->
  exists r, callback_exit win cb r0 slot = Some r /\
    forall o q, o = 0 \/ o = 8 \/ o = 16 \/ o = 24 -> rd o 8 slot = Some q -> Forall is_byte q ->
      rd o 8 (ret_regs r) = Some q.
Proof.
  intros Hwin Hcb Hl. unfold callback_exit. rewrite Hwin, (proj2 (Z.eqb_neq _ _)) by done.
  destruct (rd_Some 0 8 slot) as (q0 & E0 & L0 & _); [lia..|].
  destruct (rd_Some 8 8 slot) as (q1 & E1 & L1 & _); [lia..|].
  destruct (rd_Some 16 8 slot) as (q2 & E2 & L2 & _); [lia..|].
  destruct (rd_Some 24 8 slot) as (q3 & E3 & L3 & _); [lia..|].
  rewrite E0, E1, E2, E3. cbn [mbind option_bind orb]. eexists; split; [done|].
  unfold ret_regs; cbn [ret_rax ret_rdx ret_xmm0 ret_xmm1].
  intros o q Ho Hq Hb.
  assert (Henc : enc LittleEndian 8 (dec LittleEndian q) = q)
    by (apply enc_dec_n; [done|by apply rd_length in Hq]).
  set (e0 := enc LittleEndian 8 (dec LittleEndian q0)) in *.
  set (e1 := enc LittleEndian 8 (dec LittleEndian q1)) in *.
  set (e2 := enc LittleEndian 8 (dec LittleEndian q2)) in *.
  set (e3 := enc LittleEndian 8 (dec LittleEndian q3)) in *.
  assert (length e0 = 8 /\ length e1 = 8 /\ length e2 = 8 /\ length e3 = 8)%nat as (M0 & M1 & M2 & M3)
    by (unfold e0, e1, e2, e3; by rewrite !length_enc).
  destruct Ho as [-> | [-> | [-> | ->]]].
  - rewrite E0 in Hq. injection Hq as <-. fold e0 in Henc. rewrite Henc. by apply rd0_app.
  - rewrite E1 in Hq. injection Hq as <-. fold e1 in Henc. rewrite Henc.
    eapply rd_prefix; [|apply (rd_app 8 8 e0 q1); lia]. exists (e2 ++ e3). by rewrite <- app_assoc.
  - rewrite E2 in Hq. injection Hq as <-. fold e2 in Henc. rewrite Henc.
    eapply rd_prefix; [|apply (rd_app 16 8 (e0 ++ e1) q2); rewrite ?length_app; lia].
    exists e3. by rewrite <- !app_assoc.
  - rewrite E3 in Hq. injection Hq as <-. fold e3 in Henc. rewrite Henc.
    rewrite !app_assoc. apply rd_app; rewrite ?length_app; lia.
Qed.

Lemma wr_rd8 o q m : length q = 8%nat -> 0 <= o -> o + 8 <= Z.of_nat (length m) ->
  exists m', wr o q m = Some m' /\ length m' = length m /\ rd o 8 m' = Some q /\
    forall o', o' + 8 <= o \/ o + 8 <= o' -> rd o' 8 m' = rd o' 8 m.
Proof.
  intros Hq H0 Hl. destruct (wr o q m) as [m'|] eqn:E.
  - exists m'. split_and!; [done|by eapply length_wr|by eapply rd_wr_same|].
    intros o' Ho. eapply rd_wr_other; [done|]. lia.
  - rewrite wr_Some in E by lia. done.
Qed.

Lemma reassemble_one c size regs q :
  class_ok c -> 0 < size <= 8 -> rd (if c =? SYSVC_INTEGER then 0 else 16) 8 regs = Some q ->
  reassemble [c] size 0 16 regs [] = Some (take (Z.to_nat size) q).
Proof.
  intros Hc Hs Hq. pose proof (rd_length _ _ _ _ Hq) as Hl. cbn [reassemble].
  destruct Hc as [-> | ->]; cbn [Z.eqb SYSVC_INTEGER SYSVC_SSE Pos.eqb] in *;
    rewrite (copy_ret_reg_spec _ _ _ _ _ _ Hq) by lia; change (Z.of_nat 8) with 8;
    (destruct (Z.leb_spec 8 size); cbn; [|done]); by rewrite take_ge by lia.
Qed.

Lemma reassemble_two c0 c1 size regs q0 q1 :
  class_ok c0 -> class_ok c1 -> 8 < size <= 16 ->
  rd (if c0 =? SYSVC_INTEGER then 0 else 16) 8 regs = Some q0 ->
  rd (if c1 =? SYSVC_INTEGER then (if c0 =? SYSVC_INTEGER then 8 else 0)
      else (if c0 =? SYSVC_INTEGER then 16 else 24)) 8 regs = Some q1 ->
  reassemble [c0; c1] size 0 16 regs [] = Some (take (Z.to_nat size) (q0 ++ q1)).
Proof.
  intros Hc0 Hc1 Hs H0 H1. pose proof (rd_length _ _ _ _ H0) as L0. pose proof (rd_length _ _ _ _ H1) as L1.
  assert (Ht : take (Z.to_nat size) (q0 ++ q1) = q0 ++ take (Z.to_nat (size - 8)) q1).
  { rewrite take_app_ge by lia. do 2 f_equal. lia. }
  cbn [reassemble].
  destruct Hc0 as [-> | ->], Hc1 as [-> | ->]; cbn [Z.eqb SYSVC_INTEGER SYSVC_SSE Pos.eqb] in *;
    rewrite (copy_ret_reg_spec _ _ _ _ _ _ H0) by lia; change (Z.of_nat 8) with 8;
    rewrite (proj2 (Z.leb_le _ _)) by lia; cbn [mbind option_bind app];
    rewrite (copy_ret_reg_spec _ _ _ _ _ _ H1) by lia; change (Z.of_nat 8) with 8;
    (destruct (Z.leb_spec 8 (size - 8)); cbn; rewrite Ht; [|done]); by rewrite (take_ge q1) by lia.
Qed.

(** An object returned in registers arrives unchanged. *)
Lemma sysv_regs_result cb r0 obj slot0 ag :
  win = false -> reg_classes ag -> 0 < ag_size ag <= 16 -> Forall is_byte obj ->
  8 * Z.of_nat (length (classes_of ag)) <= Z.of_nat (length obj) -> length slot0 = 32%nat ->
  cb_aggr_return_register cb <> -2 ->
  exists slot r, return_regs 0 (classes_of ag) obj 0 16 slot0 = Some slot /\
    callback_exit win cb r0 slot = Some r /\
    reassemble (classes_of ag) (ag_size ag) 0 16 (ret_regs r) [] = Some (take (Z.to_nat (ag_size ag)) obj).
Proof.
  intros Hwin [Hcl Hsz _] Hs Hb Hl Hslot Hcb.
  remember (classes_of ag) as cs. clear Heqcs. destruct cs as [|c0 [|c1 [|]]]; cbn [length] in *; try lia.
  - pose proof (proj1 (Forall_singleton _ _) Hcl) as Hc0.
    destruct (rd_Some 0 8 obj) as (q & Hq & Lq & Eq); [lia..|].
    assert (Bq : Forall is_byte q) by (rewrite Eq; by apply Forall_take, Forall_drop).
    set (o := if c0 =? SYSVC_INTEGER then 0 else 16).
    destruct (wr_rd8 o q slot0 Lq) as (slot & Hw & Lw & Hr & _); [unfold o; case_match; lia..|].
    destruct (callback_exit_regs cb r0 slot Hwin Hcb ltac:(lia)) as (r & He & Hregs).
    exists slot, r. split_and!; [|done|].
    + cbn [return_regs]. change (8 * 0) with 0. rewrite Hq. cbn [mbind option_bind].
      destruct Hc0 as [-> | ->]; cbn in o |- *; subst o; by rewrite Hw.
    + rewrite (reassemble_one c0 (ag_size ag) _ q Hc0 ltac:(lia)).
      * rewrite Eq, drop_0, take_take. do 2 f_equal. lia.
      * apply Hregs; [|done|done]. fold o. unfold o. case_match; lia.
  - apply Forall_cons in Hcl as [Hc0 Hc1]. apply (proj1 (Forall_singleton _ _)) in Hc1.
    destruct (rd_Some 0 8 obj) as (q0 & Hq0 & Lq0 & Eq0); [lia..|].
    destruct (rd_Some 8 8 obj) as (q1 & Hq1 & Lq1 & Eq1); [lia..|].
    assert (Bq0 : Forall is_byte q0) by (rewrite Eq0; by apply Forall_take, Forall_drop).
    assert (Bq1 : Forall is_byte q1) by (rewrite Eq1; by apply Forall_take, Forall_drop).
    set (o0 := if c0 =? SYSVC_INTEGER then 0 else 16).
    set (o1 := if c1 =? SYSVC_INTEGER then (if c0 =? SYSVC_INTEGER then 8 else 0)
               else (if c0 =? SYSVC_INTEGER then 16 else 24)).
    assert (Ho : 0 <= o0 /\ o0 + 8 <= 32 /\ 0 <= o1 /\ o1 + 8 <= 32 /\ (o0 + 8 <= o1 \/ o1 + 8 <= o0) /\
              (o0 = 0 \/ o0 = 8 \/ o0 = 16 \/ o0 = 24) /\ (o1 = 0 \/ o1 = 8 \/ o1 = 16 \/ o1 = 24)).
    { unfold o0, o1. destruct (c0 =? _), (c1 =? _); lia. }
    destruct Ho as (? & ? & ? & ? & Hdis & Ho0 & Ho1).
    destruct (wr_rd8 o0 q0 slot0 Lq0) as (s1 & Hw1 & Lw1 & Hr1 & _); [lia..|].
    destruct (wr_rd8 o1 q1 s1 Lq1) as (s2 & Hw2 & Lw2 & Hr2 & Hfr); [lia..|].
    destruct (callback_exit_regs cb r0 s2 Hwin Hcb ltac:(lia)) as (r & He & Hregs).
    exists s2, r. split_and!; [|done|].
    + cbn [return_regs]. change (8 * 0) with 0. change (8 * (0 + 1)) with 8. rewrite Hq0, Hq1.
      cbn [mbind option_bind]. destruct Hc0 as [-> | ->], Hc1 as [-> | ->];
        cbn in o0, o1 |- *; subst o0 o1; rewrite Hw1; cbn [mbind option_bind];
        change (0 + 8) with 8; change (16 + 8) with 24; by rewrite Hw2.
    + rewrite (reassemble_two c0 c1 (ag_size ag) _ q0 q1 Hc0 Hc1 ltac:(lia)).
      * rewrite Eq0, Eq1. change (Z.to_nat 8) with 8%nat. change (Z.to_nat 0) with 0%nat. rewrite drop_0.
        f_equal. rewrite take_take_drop, take_take. f_equal. lia.
      * apply Hregs; [done| |done]. rewrite <- Hr1. apply Hfr. lia.
      * apply Hregs; done.
Qed.

(** ** Whole calls *)

(** The object's address range makes sense (it matters on Windows only, where
    addresses of copies are passed). *)
Definition vec_addr_ok (vm : DCCallVM_x64) : Prop :=
  win = true -> 0 <= mVecAddr vm /\ mVecAddr vm + mTotal (mVecHead vm) < 2 ^ 64.

Lemma reset_items vm0 :
  x64_alloc win vm0 -> vec_addr_ok vm0 -> x_vt vm0 <> gVT_x64_syscall_sysv_p ->
  exists vm, dcReset (C := x64_CallVM win float_junk) vm0 = Some vm /\
    x64_fresh vm /\ x_vt vm = x_vt vm0 /\ mAggrReturnReg vm = -1 /\ gap vm = mTotal (mVecHead vm0) /\
    forall cb r, -1 <= r <= 1 -> same_aggr_reg r (cb_aggr_return_register cb) ->
      item_inv cb (with_aggr_reg r vm).
Proof.
  intros Ha Haddr Hvt.
  destruct (reset_total win float_junk vm0 Ha) as (vm & Hr & Ha' & Hf & Hvt' & Hreg & Htot).
  exists vm. split_and!; try done.
  - destruct Hf as [Hs _]. unfold gap. rewrite Hs, Htot.
    unfold dcReset, vtable in Hr. cbn in Hr. destruct (x_vt vm0); try done; injection Hr as <-;
      destruct win; cbn; lia.
  - intros cb r Hb Hs. constructor.
    + apply fresh_inv; [|cbn; congruence|done]. destruct Ha'. by constructor.
    + cbn. apply Ha'.
    + intros E. specialize (Haddr E). cbn.
      assert (mpAggrVecCopies vm = mVecAddr vm0 + mTotal (mVecHead vm0) /\ mVecAddr vm = mVecAddr vm0
              /\ mTotal (mVecHead vm) = mTotal (mVecHead vm0)) as (-> & -> & ->).
      { unfold dcReset, vtable in Hr. cbn in Hr. destruct (x_vt vm0); try done; injection Hr as <-;
          unfold dc_callvm_reset_x64; rewrite E; done. }
      destruct Hf as [-> _]. pose proof (xa_fill _ _ Ha). pose proof (vwf_size _ (xa_vec _ _ Ha)). lia.
Qed.

(** C13: aggregates by value are transparent.  Scalars, structs and unions and
    non-trivial C++ objects, mixed in any order, arrive in the callback as the
    values the caller passed: whether an aggregate went through registers, the
    stack or (on Windows) a caller-made copy, the callback obtains the bytes of
    the object. *)
Theorem x64_aggr_args_roundtrip cb cpu0 vm0 l rest target :
  x64_alloc win vm0 -> vec_addr_ok vm0 -> x_vt vm0 <> gVT_x64_syscall_sysv_p ->
  items_cost win l <= mTotal (mVecHead vm0) -> Forall (item_ok win) l ->
  cb_aggr_return_register cb < 0 -> cb_aggrs cb = item_aggrs l ++ rest ->
  exists vm vf cpu p,
    dcReset (C := x64_CallVM win float_junk) vm0 = Some vm /\ push_items vm l = Some vf /\
    kernel_enter cpu0 (dcCallVoid (C := x64_CallVM win float_junk) vf target) = Some cpu /\
    read_items l (dcCallback_x64 win cb (vec_mem vf) cpu) = Some (map item_value l, p).
Proof.
  intros Ha Haddr Hvt Hroom Hok Hcb Hag.
  destruct (reset_items vm0 Ha Haddr Hvt) as (vm & Hr & [Hs Hc] & Hvt' & Hreg & Hgap & Hinv).
  assert (Hi : item_inv cb vm).
  { specialize (Hinv cb (-1) ltac:(lia) (or_intror (conj eq_refl Hcb))).
    replace (with_aggr_reg (-1) vm) with vm in Hinv; [done|]. rewrite <- Hreg. by destruct vm. }
  destruct (items_step cb rest l vm Hi ltac:(lia) Hok) as (vf & Hp & Hif & Hxf & Hread).
  destruct (x64_handover win cb (vec_mem vf) vm vf target cpu0 (ii_inv _ _ Hif) Hc Hs) as (cpu & Hk & Hv).
  exists vm, vf, cpu. eexists. split_and!; try done.
  - rewrite <- Hk. f_equal. unfold dcCallVoid, vtable. cbn.
    pose proof (inv_vt _ _ _ (ii_inv _ _ Hif)). by destruct (x_vt vf).
  - rewrite Hv. rewrite <- (Hread vf Hif (item_ext_refl vf)). f_equal. unfold x64_view; cbn. by rewrite Hag.
Qed.

(** *** Results *)

Lemma begin_aggr_hidden vm ag h :
  x_vt vm = gVT_x64_p -> x64_fresh vm -> returns_hidden win ag = Some h ->
  dcBeginCallAggr (C := x64_CallVM win float_junk) vm ag = Some (if h then with_aggr_reg 0 vm else vm).
Proof.
  intros Hvt [_ Hc] Hh. unfold dcBeginCallAggr, vtable. cbn. rewrite Hvt. cbn.
  unfold dc_callvm_begin_aggr_x64, no_args_yet. rewrite Hc. cbn. rewrite Hh. done.
Qed.

Lemma dcCallAggr_x64 run vm target ag ret :
  x_vt vm <> gVT_x64_syscall_sysv_p ->
  dcCallAggr (C := x64_CallVM win float_junk) run vm target ag ret
  = (out ← dc_callvm_call_x64_aggr win run vm target ag ret; Some (ret, out)).
Proof. intros. unfold dcCallAggr, vtable. cbn. by destruct (x_vt vm). Qed.

(** A handler that reads its arguments and returns the object [f] makes. *)
Definition aggr_handler (l : list item) (f : list x64_rval -> list Z) (p : DCArgs)
    (slot : list Z) : option (list Z) :=
  '(vs, p) ← read_items l p;
  '(_, _, slot) ← dcbReturnAggr win p slot (f vs);
  Some slot.

(** On Windows an object of up to 8 bytes travels in RAX. *)
Lemma win_reg_result cb r0 obj slot0 size :
  win = true -> Forall is_byte obj -> 0 < size <= 8 -> size <= Z.of_nat (length obj) ->
  length slot0 = 16%nat ->
  exists bs slot r, rd 0 (Z.to_nat size) obj = Some bs /\ wr 0 bs slot0 = Some slot /\
    callback_exit win cb r0 slot = Some r /\
    rd 0 (Z.to_nat size) (enc LittleEndian 8 (ret_rax r)) = Some (take (Z.to_nat size) obj).
Proof.
  intros Hwin Hb Hs Hl Hslot.
  destruct (rd_Some 0 (Z.to_nat size) obj) as (bs & Hbs & Lbs & Ebs); [lia..|].
  change (Z.to_nat 0) with 0%nat in Ebs. rewrite drop_0 in Ebs.
  assert (Bbs : Forall is_byte bs) by (rewrite Ebs; by apply Forall_take).
  exists bs. rewrite wr_Some by lia. change (Z.to_nat 0) with 0%nat. rewrite take_0. cbn [app Nat.add].
  exists (bs ++ drop (length bs) slot0). unfold callback_exit. rewrite Hwin. cbn [orb].
  assert (Hrest : bs ++ drop (length bs) slot0
                  = (bs ++ take (8 - length bs) (drop (length bs) slot0)) ++ drop 8 slot0).
  { rewrite <- app_assoc. f_equal. rewrite <- (take_drop (8 - length bs) (drop (length bs) slot0)) at 1.
    rewrite drop_drop. replace (length bs + (8 - length bs))%nat with 8%nat by lia. done. }
  rewrite Hrest, rd0_app by (rewrite length_app, length_take, length_drop; lia).
  cbn [mbind option_bind]. eexists. split_and!; [done|done|done|]. cbn [ret_rax].
  set (z := dec LittleEndian _).
  change (enc LittleEndian 8 z) with (le_split 8 z).
  rewrite <- (take_drop (Z.to_nat size) (le_split 8 z)), take_le_split by lia.
  rewrite rd0_app by apply length_le_split. f_equal.
  change (le_split (Z.to_nat size) z) with (enc LittleEndian (Z.to_nat size) z).
  rewrite <- enc_wrapU. subst z.
  rewrite <- (enc_dec_n LittleEndian (Z.to_nat size) bs) at 1 by done.
  rewrite dec_low, enc_wrapU, <- Ebs. by apply enc_dec_n.
Qed.

(** The requirements on an object returned in registers: on System V classes
    as [dcCloseAggr] computes them and, since the callback reads whole
    eightbytes, an object padded to eightbytes. *)
Definition reg_result_ok (ag : DCaggr) (obj : list Z) : Prop :=
  Forall is_byte obj /\ 0 < ag_size ag <= (if win then 8 else 16) /\
  ag_size ag <= Z.of_nat (length obj) /\
  (win = false -> reg_classes ag /\ 8 * Z.of_nat (length (classes_of ag)) <= Z.of_nat (length obj)).

Lemma classes_run_le n m cs : (length (classes_run n cs) <= m)%nat -> (m <= n)%nat ->
  classes_run m cs = classes_run n cs.
Proof.
  revert m cs. induction n as [|n IH]; intros m cs Hl Hm.
  - by destruct m; [|lia].
  - destruct m as [|m], cs as [|c cs]; cbn in *; try done.
    + revert Hl. destruct (c =? SYSVC_NONE); cbn; [done|lia].
    + revert Hl. destruct (c =? SYSVC_NONE); [done|]. cbn. intros. f_equal. apply IH; lia.
Qed.

Lemma reg_result cb r0 p slot0 ag obj rest :
  reg_result_ok ag obj -> length slot0 = sizeof_return_slot win -> cb_aggr_return_register cb = -1 ->
  aggrs p = Some ag :: rest -> aggr_return_register p = -1 ->
  exists p' slot r, dcbReturnAggr win p slot0 obj = Some (p', None, slot) /\
    callback_exit win cb r0 slot = Some r /\
    (if win then rd 0 (Z.to_nat (ag_size ag)) (enc LittleEndian 8 (ret_rax r))
     else reassemble (classes_of ag) (ag_size ag) 0 16 (ret_regs r) [])
    = Some (take (Z.to_nat (ag_size ag)) obj).
Proof.
  intros (Hb & Hs & Hl & Hc) Hslot Hcb Hp Hpr. unfold dcbReturnAggr. rewrite Hp, Hpr. cbn [Z.leb Z.compare].
  cbn [mbind option_bind]. unfold sizeof_return_slot in Hslot.
  destruct (sumbool_of_bool win) as [E|E]; rewrite E in Hs, Hslot |- *; cbn [negb].
  - destruct (win_reg_result cb r0 obj slot0 (ag_size ag) E Hb Hs Hl Hslot) as (bs & slot & r & H1 & H2 & H3 & H4).
    rewrite (proj2 (Z.leb_le _ _)) by lia. rewrite H1. cbn [mbind option_bind]. rewrite H2. cbn [mbind option_bind].
    rewrite E in H3. by eexists _, slot, r.
  - destruct (Hc E) as [Hrc Hol]. pose proof (rcl_size _ Hrc) as Hcs.
    destruct (sysv_regs_result cb r0 obj slot0 ag E Hrc Hs Hb Hol Hslot ltac:(lia)) as (slot & r & H1 & H2 & H3).
    rewrite (classes_run_le 8 2) by (unfold classes_of in Hcs; change (Z.to_nat DC_SYSV_MAX_NUM_CLASSES) with 8%nat in Hcs; lia).
    fold (classes_of ag). rewrite E in H2. unfold classes_of in *.
    change (Z.to_nat DC_SYSV_MAX_NUM_CLASSES) with 8%nat in *. rewrite H1. cbn [mbind option_bind]. by eexists _, slot, r.
Qed.

(** Aggregates returned in registers are transparent from end to end.  When
    the description says the callee returns the object in registers, a call
    that announces the result ([dcBeginCallAggr]), passes any mix of scalars and
    aggregates and is answered by a callback returning [f] of what it read,
    stores exactly the bytes of that object through the caller's pointer. *)
Theorem x64_aggr_register_result cb cpu0 r0 slot0 vm0 l ag f ret target :
  x64_alloc win vm0 -> vec_addr_ok vm0 -> x_vt vm0 = gVT_x64_p ->
  items_cost win l <= mTotal (mVecHead vm0) -> Forall (item_ok win) l ->
  returns_hidden win (Some ag) = Some false ->
  reg_result_ok ag (f (map item_value l)) ->
  cb_aggr_return_register cb = -1 -> cb_aggrs cb = item_aggrs l ++ [Some ag] ->
  length slot0 = sizeof_return_slot win ->
  exists vm vm1 vf,
    dcReset (C := x64_CallVM win float_junk) vm0 = Some vm /\
    dcBeginCallAggr (C := x64_CallVM win float_junk) vm (Some ag) = Some vm1 /\
    push_items vm1 l = Some vf /\
    dcCallAggr (C := x64_CallVM win float_junk)
      (run_callback win cb (vec_mem vf) cpu0 r0 (aggr_handler l f) slot0) vf target (Some ag) ret
    = Some (ret, take (Z.to_nat (ag_size ag)) (f (map item_value l))).
Proof.
  intros Ha Haddr Hvt Hroom Hok Hh Hobj Hcb Hag Hslot.
  destruct (reset_items vm0 Ha Haddr ltac:(congruence)) as (vm & Hr & Hfr & Hvt' & Hreg & Hgap & Hinv).
  assert (Hi : item_inv cb vm).
  { specialize (Hinv cb (-1) ltac:(lia)). replace (with_aggr_reg (-1) vm) with vm in Hinv
      by (rewrite <- Hreg; by destruct vm). apply Hinv. left. congruence. }
  destruct (items_step cb [Some ag] l vm Hi ltac:(lia) Hok) as (vf & Hp & Hif & Hxf & Hread).
  specialize (Hread vf Hif (item_ext_refl vf)). rewrite <- Hag in Hread.
  replace (set_aggrs cb (cb_aggrs cb)) with cb in Hread by (by destruct cb).
  pose proof (xe_reg _ _ _ (ie_ext _ _ Hxf)) as Hreg'. rewrite Hreg in Hreg'.
  destruct Hfr as [Hs Hc].
  destruct (x64_handover win cb (vec_mem vf) vm vf target cpu0 (ii_inv _ _ Hif) Hc Hs) as (cpu & Hk & Hv).
  destruct (reg_result cb r0 (x64_view (set_aggrs cb [Some ag]) (vec_mem vf) vf vf) slot0 ag
              (f (map item_value l)) [] Hobj Hslot Hcb eq_refl Hcb) as (p' & slot & r & Hret & Hexit & Hout).
  exists vm, vm, vf. split_and!; [done| |done|].
  { by rewrite (begin_aggr_hidden vm (Some ag) false) by (done || congruence). }
  rewrite dcCallAggr_x64 by apply Hif. unfold dc_callvm_call_x64_aggr.
  rewrite Hreg'. cbn [Z.eqb negb mbind option_bind].
  assert (Hrun : forall k, kernel_enter cpu0 k = Some cpu ->
    run_callback win cb (vec_mem vf) cpu0 r0 (aggr_handler l f) slot0 k = Some r).
  { intros k Hk'. unfold run_callback, aggr_handler. rewrite Hk'. cbn [mbind option_bind].
    rewrite Hv, Hread. cbn [mbind option_bind]. rewrite Hret. cbn [mbind option_bind]. exact Hexit. }
  unfold dc_callvm_call_x64 in Hk.
  destruct (sumbool_of_bool win) as [E|E]; rewrite E in Hk, Hout.
  - replace (negb win) with false by (by rewrite E). rewrite Hrun by exact Hk. cbn [mbind option_bind].
    by rewrite Hout.
  - replace (negb win) with true by (by rewrite E). rewrite Hrun by exact Hk. cbn [mbind option_bind].
    by rewrite Hout.
Qed.

(** The caller stores the hidden pointer where no argument went. *)
Lemma store_ret_reg cb vf ret :
  item_inv cb vf -> mAggrReturnReg vf = 0 ->
  exists d, set_reg_i win 0 ret (mRegData vf) = Some d /\ item_inv cb (with_data d vf) /\
    item_ext vf (with_data d vf) /\ aget 0 (rd_i d) = Some (u64 ret).
Proof.
  intros [[Hvtf Hvecf Hregf Hif_i Hif_f Hli Hlf Hu] Htf Hcf] Hreg. pose proof (nums win) as (N1 & N2 & N3).
  unfold set_reg_i. rewrite aset_Some by lia. cbn [mbind option_bind].
  eexists. split_and!; [done| | |].
  - constructor; [|done|done]. constructor; cbn; try done;
      destruct (sumbool_of_bool win) as [E|E]; rewrite ?E in *; cbn; rewrite ?length_insert; try lia; try done.
    intros _. split; [done|]. by destruct Hu.
  - constructor; try done. constructor; try done; cbn; (split; [lia|]); intros k Hk Hne;
      destruct (sumbool_of_bool win) as [E|E]; rewrite ?E in *; cbn; try done;
      rewrite ?aget_insert_ne by (try lia; rewrite <- Hreg; auto); try done.
    by destruct (Hu eq_refl) as [-> _].
  - assert (aget 0 (<[Z.to_nat 0 := u64 ret]> (rd_i (mRegData vf))) = Some (u64 ret)) as Hg
      by (apply aget_insert_eq; lia).
    by destruct win.
Qed.

Lemma exit_rax cb r0 slot q :
  length slot = sizeof_return_slot win -> rd 0 8 slot = Some q ->
  exists r, callback_exit win cb r0 slot = Some r /\ ret_rax r = dec LittleEndian q.
Proof.
  intros Hl Hq. unfold callback_exit, sizeof_return_slot in *. rewrite Hq. cbn [mbind option_bind].
  destruct (_ || _) eqn:E; [by eexists|]. apply orb_false_iff in E as [E _]. rewrite E in Hl.
  destruct (rd_Some 8 8 slot) as (q1 & -> & _); [lia..|].
  destruct (rd_Some 16 8 slot) as (q2 & -> & _); [lia..|].
  destruct (rd_Some 24 8 slot) as (q3 & -> & _); [lia..|].
  by eexists.
Qed.

(** What [dcbReturnAggr] does with the hidden pointer in register 0. *)
Lemma hidden_return cb r0 p slot0 ag obj rest ret :
  match ag with Some ag => 0 <= ag_size ag <= Z.of_nat (length obj) | None => True end ->
  length slot0 = sizeof_return_slot win -> in_u 64 ret ->
  aggrs p = ag :: rest -> aggr_return_register p = 0 -> aget 0 (reg_i p) = Some ret ->
  exists slot r,
    dcbReturnAggr win p slot0 obj
    = Some (args_next_aggr rest p,
            Some (ret, match ag with Some ag => take (Z.to_nat (ag_size ag)) obj | None => [] end), slot) /\
    callback_exit win cb r0 slot = Some r /\ ret_rax r = ret.
Proof.
  intros Hobj Hslot Hret Hag Hreg Hdest. unfold dcbReturnAggr. rewrite Hag, Hreg. cbn [Z.leb Z.compare].
  rewrite Hdest. cbn [mbind option_bind].
  assert (Hsl : (16 <= length slot0)%nat) by (rewrite Hslot; unfold sizeof_return_slot; destruct win; lia).
  destruct (wr_rd8 0 (enc LittleEndian 8 ret) slot0) as (slot & Hw & Hl & Hq & _);
    [by rewrite length_enc|lia|lia|].
  destruct (exit_rax cb r0 slot _ ltac:(congruence) Hq) as (r & Hr & Hrax).
  exists slot, r. split_and!; [|done|].
  - destruct ag as [ag|]; cbn [mbind option_bind].
    + destruct (rd_Some 0 (Z.to_nat (ag_size ag)) obj) as (bs & Hbs & _ & Ebs); [lia..|].
      change (Z.to_nat 0) with 0%nat in Ebs. rewrite drop_0 in Ebs.
      rewrite Hbs. cbn [mbind option_bind]. rewrite Hw. cbn [mbind option_bind]. by rewrite Ebs.
    + by rewrite Hw.
  - rewrite Hrax, dec_enc. by apply (wrapU_id 64).
Qed.

(** Aggregates returned through a hidden pointer.  When the callee returns
    in memory, the callback still reads all arguments - now shifted by the
    hidden one - and [dcbReturnAggr] writes the object to the very address the
    caller passed to [dcCallAggr]; that address is also what the callback
    returns in RAX. *)
Theorem x64_aggr_hidden_result cb cpu0 r0 slot0 vm0 l ag obj ret target :
  x64_alloc win vm0 -> vec_addr_ok vm0 -> x_vt vm0 = gVT_x64_p ->
  items_cost win l <= mTotal (mVecHead vm0) -> Forall (item_ok win) l ->
  returns_hidden win ag = Some true -> in_u 64 ret ->
  match ag with Some ag => 0 <= ag_size ag <= Z.of_nat (length obj) | None => True end ->
  cb_aggr_return_register cb = 0 -> cb_aggrs cb = item_aggrs l ++ [ag] ->
  length slot0 = sizeof_return_slot win ->
  exists vm vm1 vf k cpu p slot r,
    dcReset (C := x64_CallVM win float_junk) vm0 = Some vm /\
    dcBeginCallAggr (C := x64_CallVM win float_junk) vm ag = Some vm1 /\
    push_items vm1 l = Some vf /\
    (forall run, dcCallAggr (C := x64_CallVM win float_junk) run vf target ag ret
                 = (_ ← run k; Some (ret, []))) /\
    kernel_enter cpu0 k = Some cpu /\
    read_items l (dcCallback_x64 win cb (vec_mem vf) cpu) = Some (map item_value l, p) /\
    dcbReturnAggr win p slot0 obj
    = Some (args_next_aggr [] p,
            Some (ret, match ag with Some ag => take (Z.to_nat (ag_size ag)) obj | None => [] end), slot) /\
    callback_exit win cb r0 slot = Some r /\ ret_rax r = ret.
Proof.
  intros Ha Haddr Hvt Hroom Hok Hh Hret Hobj Hcb Hag Hslot.
  destruct (reset_items vm0 Ha Haddr ltac:(congruence)) as (vm & Hr & Hfr & Hvt' & Hreg & Hgap & Hinv).
  set (vm1 := with_aggr_reg 0 vm).
  assert (Hi : item_inv cb vm1) by (apply Hinv; [lia|left; congruence]).
  destruct (items_step cb [ag] l vm1 Hi) as (vf & Hp & Hif & Hxf & Hread); [|done|].
  { change (gap vm1) with (gap vm). lia. }
  pose proof (xe_reg _ _ _ (ie_ext _ _ Hxf)) as Hreg'. change (mAggrReturnReg vm1) with 0 in Hreg'.
  destruct (store_ret_reg cb vf ret Hif Hreg') as (d & Hd & Hiw & Hxw & Hdest).
  set (w := with_data d vf) in *. specialize (Hread w Hiw Hxw). rewrite <- Hag in Hread.
  replace (set_aggrs cb (cb_aggrs cb)) with cb in Hread by (by destruct cb).
  destruct Hfr as [Hs Hc].
  destruct (x64_handover win cb (vec_mem w) vm1 w target cpu0 (ii_inv _ _ Hiw) Hc Hs) as (cpu & Hk & Hv).
  destruct (hidden_return cb r0 (x64_view (set_aggrs cb [ag]) (vec_mem w) vf w) slot0 ag obj [] ret Hobj Hslot
              Hret eq_refl Hcb) as (slot & r & Hra & Hexit & Hrax).
  { cbn. rewrite Hdest. f_equal. by apply wrapU_id. }
  exists vm, vm1, vf, (dc_callvm_call_x64 win w target), cpu. do 3 eexists.
  split_and!; [done| |done| |done| |exact Hra|exact Hexit|exact Hrax].
  - by rewrite (begin_aggr_hidden vm ag true) by (done || congruence).
  - intros run. rewrite dcCallAggr_x64 by apply Hif. unfold dc_callvm_call_x64_aggr.
    rewrite Hreg'. cbn [Z.eqb negb]. rewrite Hd. cbn [mbind option_bind]. fold w.
    by destruct (run _).
  - change (vec_mem vf) with (vec_mem w). rewrite Hv. exact Hread.
Qed.

(** *** Agreement of caller and callback on the hidden pointer *)

Definition cc_mode (cc : option DCsigchar) : Z :=
  match cc with Some c => dcGetModeFromCCSigChar c | None => DC_CALL_C_DEFAULT end.
Definition cc_prefix (cc : option DCsigchar) : list DCsigchar :=
  match cc with Some c => [DC_SIGCHAR_CC_PREFIX; c] | None => [] end.

Lemma init_callback_aggr cc body handler userdata ags ag h :
  last body = Some DC_SIGCHAR_AGGREGATE -> (cc = None -> head body <> Some DC_SIGCHAR_CC_PREFIX) ->
  ags !! Z.to_nat (count_aggrs body - 1) = Some ag -> returns_hidden win ag = Some h ->
  dcbInitCallback2 win (cc_prefix cc ++ body) handler userdata ags
  = Some (Build_DCCallback handler userdata
            (if win && (cc_mode cc =? DC_CALL_C_DEFAULT_THIS) then 1 else if h then 0 else -1) ags).
Proof.
  intros Hlast Hhead Hag Hh.
  assert (Hcnt : 0 < count_aggrs body).
  { clear -Hlast. revert Hlast. induction body as [|c b IH]; [done|]. cbn [count_aggrs].
    assert (0 <= count_aggrs b) by (clear; induction b as [|d b IH]; cbn; [|destruct (Ascii.eqb d _)]; lia).
    destruct b as [|d b]; [intros [= ->]; cbn; lia|].
    intros Hl. specialize (IH Hl). destruct (Ascii.eqb c _); lia. }
  unfold dcbInitCallback2, cc_prefix.
  assert (E : match cc_prefix cc ++ body with
    | c :: rest =>
      if Ascii.eqb c DC_SIGCHAR_CC_PREFIX then
        match rest with
        | m :: ch => Some (dcGetModeFromCCSigChar m, ch)
        | [] => None
        end
      else Some (DC_CALL_C_DEFAULT, cc_prefix cc ++ body)
    | [] => Some (DC_CALL_C_DEFAULT, cc_prefix cc ++ body)
    end = Some (cc_mode cc, body)).
  { destruct cc as [c|]; cbn [cc_prefix app]; [done|]. destruct body as [|b rest]; [done|].
    destruct (Ascii.eqb_spec b DC_SIGCHAR_CC_PREFIX) as [->|]; [|done]. by specialize (Hhead eq_refl). }
  unfold cc_prefix in E. rewrite E. cbn [mbind option_bind].
  rewrite (proj2 (Z.eqb_neq _ _)) by lia. rewrite Hlast. cbn [Ascii.eqb]. rewrite Hag.
  change (Ascii.eqb DC_SIGCHAR_AGGREGATE DC_SIGCHAR_AGGREGATE) with true. cbn [mbind option_bind].
  destruct (win && _); [done|]. rewrite Hh. cbn [mbind option_bind]. by destruct h.
Qed.

(** The registers by the calling convention character, as the ABIs have it: the
    hidden pointer comes first, after [this] for methods on Windows. *)
Definition hidden_register (cc : option DCsigchar) (h : bool) : Z :=
  match cc with
  | Some "*"%char => if win then 1 else if h then 0 else -1
  | _ => if h then 0 else -1
  end.

(** The characters the call VM has a table for. *)
Definition cc_supported (cc : option DCsigchar) : bool :=
  match cc with
  | None | Some ":"%char | Some "*"%char | Some "e"%char | Some "."%char => true
  | Some "$"%char => negb win
  | Some _ => false
  end.
Definition cc_syscall (cc : option DCsigchar) : bool :=
  match cc with Some "$"%char => negb win | _ => false end.
Definition cc_method (cc : option DCsigchar) : bool :=
  match cc with Some "*"%char => win | _ => false end.

Lemma mode_of_prefix cc vm : x_vt vm = gVT_x64_p ->
  dc_callvm_mode_x64 win vm (cc_mode cc)
  = Some (with_vt (if cc_method cc then gVT_x64_win64_this_p
                   else if cc_syscall cc then gVT_x64_syscall_sysv_p else gVT_x64_p)
            (if cc_supported cc then DC_ERROR_NONE else DC_ERROR_UNSUPPORTED_MODE) vm).
Proof.
  intros Hvt. unfold dc_callvm_mode_x64, cc_syscall, cc_method, cc_supported. rewrite Hvt.
  destruct cc as [[b0 b1 b2 b3 b4 b5 b6 b7]|]; [|by destruct win].
  by destruct win, b0, b1, b2, b3, b4, b5, b6, b7.
Qed.

Lemma this_prefix cc : win && (cc_mode cc =? DC_CALL_C_DEFAULT_THIS) = cc_method cc.
Proof.
  unfold cc_method. destruct cc as [[b0 b1 b2 b3 b4 b5 b6 b7]|]; [|by destruct win].
  by destruct win, b0, b1, b2, b3, b4, b5, b6, b7.
Qed.

Lemma hidden_register_eq cc h : hidden_register cc h = if cc_method cc then 1 else if h then 0 else -1.
Proof.
  unfold hidden_register, cc_method. destruct cc as [[b0 b1 b2 b3 b4 b5 b6 b7]|]; [|done].
  by destruct b0, b1, b2, b3, b4, b5, b6, b7.
Qed.

Lemma method_no_syscall cc : cc_method cc = true -> cc_syscall cc = false.
Proof.
  destruct cc as [[b0 b1 b2 b3 b4 b5 b6 b7]|]; [|done].
  by destruct b0, b1, b2, b3, b4, b5, b6, b7.
Qed.

(** C12: caller and callback agree on how an aggregate result travels.  For a
    signature without a prefix and for every prefix character [_c], the callback
    initialised from the signature expects the hidden pointer in the register of
    the ABI, or none ([hidden_register]); and the caller, with the mode of that
    character and [dcBeginCallAggr], passes it there - also for Windows methods,
    where [this] comes first, and for characters without a mode on this
    platform, which leave the VM's convention and report
    [DC_ERROR_UNSUPPORTED_MODE].  The exception is the syscall prefix [_$] on
    System V: the caller never passes a hidden pointer there, so the two
    disagree for results in memory. *)
Theorem x64_hidden_pointer_agrees cc body handler userdata ags ag h vm0 :
  x64_alloc win vm0 -> x_vt vm0 = gVT_x64_p ->
  (cc = None -> head body <> Some DC_SIGCHAR_CC_PREFIX) ->
  last body = Some DC_SIGCHAR_AGGREGATE ->
  ags !! Z.to_nat (count_aggrs body - 1) = Some ag -> returns_hidden win ag = Some h ->
  exists cb vm vm1 vm2,
    dcbInitCallback2 win (cc_prefix cc ++ body) handler userdata ags = Some cb /\
    dcMode (C := x64_CallVM win float_junk) vm0 (cc_mode cc) = Some vm /\
    dcGetError (C := x64_CallVM win float_junk) vm
    = (if cc_supported cc then DC_ERROR_NONE else DC_ERROR_UNSUPPORTED_MODE) /\
    dcReset (C := x64_CallVM win float_junk) vm = Some vm1 /\
    dcBeginCallAggr (C := x64_CallVM win float_junk) vm1 ag = Some vm2 /\
    cb_aggr_return_register cb = hidden_register cc h /\
    mAggrReturnReg vm2 = (if cc_syscall cc then -1 else hidden_register cc h).
Proof.
  intros Ha Hvt Hhead Hlast Hag Hh. pose proof (mode_of_prefix cc vm0 Hvt) as Hmode.
  set (vm := with_vt _ _ vm0) in Hmode.
  assert (Ha' : x64_alloc win vm) by (destruct Ha; by constructor).
  destruct (reset_total win float_junk vm Ha') as (vm1 & Hr & _ & Hfr & Hvt1 & Hreg & _).
  assert (Hb : dcBeginCallAggr (C := x64_CallVM win float_junk) vm1 ag
    = Some (if cc_method cc then with_aggr_reg 1 vm1
            else if negb (cc_syscall cc) && h then with_aggr_reg 0 vm1 else vm1)).
  { destruct (cc_method cc).
    - destruct Hfr as [_ Hc]. unfold dcBeginCallAggr, vtable. cbn. rewrite Hvt1. cbn.
      unfold dc_callvm_begin_aggr_x64_win64_this, no_args_yet. by rewrite Hc.
    - destruct (cc_syscall cc); [|by rewrite (begin_aggr_hidden vm1 ag h)].
      unfold dcBeginCallAggr, vtable. cbn. by rewrite Hvt1. }
  exists (Build_DCCallback handler userdata (hidden_register cc h) ags), vm, vm1.
  eexists. split_and!; [|by unfold dcMode, vtable; cbn; rewrite Hvt|done|done|exact Hb|done|].
  - rewrite hidden_register_eq, <- this_prefix. by eapply init_callback_aggr.
  - rewrite hidden_register_eq. destruct (cc_method cc) eqn:Et; [by rewrite method_no_syscall|].
    destruct (cc_syscall cc), h; cbn; done.
Qed.

End Aggr.
