(* ===== verification/X64Struct.v ===== *)
(** * x86-64: which aggregates can be passed by value

    Connects the classification of AggregateProps.v to the passing of
    aggregates in X64Aggr.v: structs with the layout of a C compiler, described
    member by member, meet the requirements for passing them by value.  Members
    are scalars, structs and arrays of both; in a struct of at most 16 bytes the
    nested structs have to start at multiples of eight bytes (the code classifies
    others wrongly). *)

From S2P Require Export X64Aggr AggregateProps.

Section Struct.
#[local] Instance dm : DataModel := x64_dm false.
#[local] Instance ok : DataModelOk := x64_dm_ok false.

(** No leaf is larger than the alignment of its aggregate. *)
Lemma max_alignment_ge fs f : In f fs -> f_alignment f <= max_alignment fs.
Proof.
  unfold max_alignment. assert (H : forall l a, a <= fold_left Z.max l a /\ forall x, In x l -> x <= fold_left Z.max l a).
  { induction l as [|y l IH]; intros a; cbn; [split; [lia|done]|].
    destruct (IH (Z.max a y)) as [H1 H2]. split; [lia|]. intros x [->|Hx]; [lia|by apply H2]. }
  intros Hin. apply H. by apply in_map.
Qed.

Lemma leaf_alignment ag : desc_wf ag -> forall base l, In l (leaves ag base) -> sizeof_cty l.2 <= ag_alignment ag.
Proof.
  induction ag as [ag IH] using DCaggr_nested_ind. intros Hw base l Hin.
  rewrite leaves_unfold in Hin. apply in_concat in Hin as (ls & (f & <- & Hf)%in_map_iff & Hin).
  unfold field_leaves in Hin. apply in_concat in Hin as (ls & (i & <- & Hi)%in_map_iff & Hin).
  destruct (desc_level _ Hw) as [Hfw _ Ha _ _]. rewrite List.Forall_forall in Hfw, IH. specialize (Hfw f Hf).
  rewrite Ha. etrans; [|by apply max_alignment_ge].
  unfold field_wf, elem_leaves in *. destruct (cty_of_sigchar (f_type f)) as [t|].
  - destruct Hfw as (_ & -> & _). by destruct Hin as [<-|[]].
  - destruct Hfw as (_ & s & Es & _ & ->). rewrite Es in Hin.
    by apply (IH f Hf s Es (desc_sub _ _ _ Hw Hf Es) (base + f_offset f + f_size f * i)).
Qed.

Lemma sse_alignment ag index : desc_wf ag -> abi_class index (leaves ag 0) = SYSVC_SSE -> ag_alignment ag = 4 \/ ag_alignment ag = 8.
Proof.
  intros Hw H. unfold abi_class in H. destruct (existsb _ _) eqn:Ei in H; [done|].
  destruct (existsb _ _) eqn:Eh in H; [|done]. apply existsb_exists in Eh as (l & Hin & Hh).
  pose proof (leaf_alignment ag Hw 0 l Hin) as Hal.
  assert (is_float l.2 = true) as Hf.
  { destruct (is_float l.2) eqn:Ef; [done|]. apply not_true_iff_false in Ei. destruct Ei.
    apply existsb_exists. exists l. by rewrite Hh, Ef. }
  assert (4 <= sizeof_cty l.2) by (by destruct l as [o []]).
  destruct (lw_pow2 _ (desc_level _ Hw)) as [E|[E|[E|[E|[E|[]]]]]]; lia.
Qed.

(** The classes of a small aggregate without empty eightbytes. *)
Lemma small_classes ag :
  desc_wf ag -> lay_ok ag 0 = true -> 0 < ag_size ag <= 16 ->
  (forall index, 0 <= 8 * index < ag_size ag -> abi_class index (leaves ag 0) <> SYSVC_NONE) ->
  class_ok (abi_class 0 (leaves ag 0)) /\
  (8 < ag_size ag -> class_ok (abi_class 1 (leaves ag 0))) /\
  (~ 8 < ag_size ag -> abi_class 1 (leaves ag 0) = SYSVC_NONE).
Proof.
  intros Hw Hlay Hsz Hcov.
  assert (H : forall i, 0 <= 8 * i < ag_size ag -> class_ok (abi_class i (leaves ag 0))).
  { intros i Hi. specialize (Hcov i Hi). unfold class_ok.
    destruct (abi_class_known i (leaves ag 0)) as [E|[E|[E|[]]]]; rewrite <- E in *; auto; done. }
  split_and!; [apply H; lia|intros; apply H; lia|]. intros H8.
  apply (abi_class_outside 1 0 (0 + ag_size ag)); [by apply leaves_within|lia].
Qed.

(** A description laid out as for [sysv_classification_correct], whose size is a
    multiple of its alignment and whose eightbytes all hold a field, closes to
    one that meets the requirements of [x64_aggr_args_roundtrip]; one of more than
    16 bytes does in any case. *)
Lemma laid_out_passable ag x :
  desc_wf ag -> (8 <= length (ag_sysv_classes ag))%nat -> 0 < ag_size ag < 2 ^ 31 ->
  (ag_size ag <= 16 -> lay_ok ag 0 = true /\ ag_size ag mod ag_alignment ag = 0 /\
     forall index, 0 <= 8 * index < ag_size ag -> abi_class index (leaves ag 0) <> SYSVC_NONE) ->
  Forall is_byte (op_obj x) -> 8 * ((ag_size ag + 7) / 8) <= Z.of_nat (length (op_obj x)) ->
  exists ag', dcCloseAggr true ag = Some ag' /\ aggr_arg_ok false ag' x.
Proof.
  intros Hw Hlen Hsz Hsm Hbytes Hobj.
  pose proof (Z.div_mod (ag_size ag + 7) 8 ltac:(lia)) as Hd.
  pose proof (Z.mod_pos_bound (ag_size ag + 7) 8 ltac:(lia)) as Hdb.
  destruct (Z.lt_ge_cases 16 (ag_size ag)) as [Hbig|Hsmall].
  - destruct (finish_large ag Hbig) as (ag' & Hc & E); [lia|]. exists ag'. split; [done|].
    destruct (close_level _ _ _ Hc) as (Es & _). constructor; rewrite ?Es; try done; [lia|].
    intros _. exists SYSVC_MEMORY. auto.
  - destruct (Hsm Hsmall) as (Hlay & Hmod & Hcov).
    destruct (finish_laid_out ag Hw) as (ag' & rest & Hc & E); [lia|done|lia|]. exists ag'. split; [done|].
    destruct (close_level _ _ _ Hc) as (Es & _). constructor; rewrite ?Es; try done; [lia|].
    intros _. eexists. rewrite E. split; [done|]. right.
    destruct (small_classes ag Hw Hlay ltac:(lia) Hcov) as (Hk0 & Hk1 & H1).
    assert (Ecs : classes_of ag' = if decide (8 < ag_size ag)
              then [abi_class 0 (leaves ag 0); abi_class 1 (leaves ag 0)] else [abi_class 0 (leaves ag 0)]).
    { unfold classes_of. rewrite E. change (Z.to_nat DC_SYSV_MAX_NUM_CLASSES) with 8%nat. cbn [classes_run].
      rewrite (proj2 (Z.eqb_neq _ _)) by (destruct Hk0 as [-> | ->]; done).
      case_decide as H8; [|by rewrite (H1 H8)].
      rewrite (proj2 (Z.eqb_neq _ _)) by (destruct (Hk1 H8) as [-> | ->]; done). done. }
    split; [|rewrite Ecs; case_decide; cbn [length]; lia].
    constructor; rewrite ?Es, Ecs.
    + case_decide as H8; [apply Forall_cons; split; [exact Hk0|apply Forall_singleton, Hk1, H8]|by apply Forall_singleton].
    + case_decide; cbn [length]; lia.
    + intros Hlast.
      assert (Ha : ag_alignment ag = 4 \/ ag_alignment ag = 8).
      { case_decide; injection Hlast as Hlast; by apply (sse_alignment ag _ Hw Hlast). }
      apply Z.mod_divide in Hmod as [q ->]; [|lia]. destruct Ha as [-> | ->]; [|left; apply Z.mod_mul; lia].
      pose proof (Z.mod_pos_bound q 2 ltac:(lia)). pose proof (Z.div_mod q 2 ltac:(lia)).
      replace (q * 4) with (4 * (q mod 2) + (q / 2) * 8) by lia. rewrite Z.mod_add by lia.
      assert (q mod 2 = 0 \/ q mod 2 = 1) as [-> | ->] by lia; [by left|by right].
Qed.

(** ** The layout of a C compiler *)

(** A C type: a scalar, or a struct of members that are arrays (of length 1,
    when they are none). *)
Inductive ctype := CScalar (t : cty) | CStruct (ms : list (ctype * Z)).

Definition is_struct (t : ctype) : bool := match t with CStruct _ => true | CScalar _ => false end.

(** Every member at the first offset behind the previous one that its
    alignment allows; [ms] has the sizes, alignments and lengths. *)
Fixpoint c_place (ms : list (Z * Z * Z)) (lo : Z) : list Z * Z :=
  match ms with
  | [] => ([], lo)
  | (size, alignment, len) :: ms =>
    let off := align_up lo alignment in
    let '(offs, e) := c_place ms (off + size * len) in (off :: offs, e)
  end.

Fixpoint c_align (t : ctype) : Z :=
  match t with
  | CScalar t => sizeof_cty t
  | CStruct ms => fold_left Z.max (map (fun m => c_align m.1) ms) 0
  end.

Fixpoint c_size (t : ctype) : Z :=
  match t with
  | CScalar t => sizeof_cty t
  | CStruct ms => align_up (c_place (map (fun m => (c_size m.1, c_align m.1, m.2)) ms) 0).2 (c_align t)
  end.

Definition c_offsets (ms : list (ctype * Z)) : list Z :=
  (c_place (map (fun m => (c_size m.1, c_align m.1, m.2)) ms) 0).1.

(** The C program that describes the type: [dcNewAggr], [dcAggrField] with
    [offsetof] and the length for each member, [dcCloseAggr]. *)
Definition c_sigchar (t : ctype) : DCsigchar :=
  match t with CScalar t => sigchar_of t | CStruct _ => DC_SIGCHAR_AGGREGATE end.

Fixpoint c_describe (junk : list Z) (t : ctype) : option DCaggr :=
  match t with
  | CScalar _ => None
  | CStruct ms =>
    ag ← add_fields (dcNewAggr junk (Z.of_nat (length ms)) (c_size t))
           (zip_with (fun d off => let '(ty, len, sub) := d in (ty, off, len, sub))
              (map (fun m => (c_sigchar m.1, m.2, c_describe junk m.1)) ms) (c_offsets ms));
    dcCloseAggr true ag
  end.

(** Structs have members, and arrays elements. *)
Inductive c_ok : ctype -> Prop :=
  | ok_scalar t : c_ok (CScalar t)
  | ok_struct ms : ms <> [] -> (forall t len, In (t, len) ms -> c_ok t) ->
      (forall t len, In (t, len) ms -> 1 <= len) -> c_ok (CStruct ms).

(** Nested structs, and the elements of arrays of them, lie at multiples of
    eight bytes. *)
Fixpoint nested_at_8 (t : ctype) : bool :=
  match t with
  | CScalar _ => true
  | CStruct ms =>
    forallb (fun m => nested_at_8 m.1) ms &&
    forallb (fun mo : (ctype * Z) * Z =>
               negb (is_struct mo.1.1) ||
               ((mo.2 mod 8 =? 0) && ((mo.1.2 =? 1) || (c_size mo.1.1 mod 8 =? 0))))
            (combine ms (c_offsets ms))
  end.

Definition c_decl (junk : list Z) (m : ctype * Z) (off : Z) : field_decl :=
  (c_sigchar m.1, off, m.2, c_describe junk m.1).

(** A description of a type: with its size and alignment and, if nested structs
    are at multiples of eight bytes, laid out as the classification needs it and
    with a scalar in every eightbyte. *)
Record c_desc (t : ctype) (ag : DCaggr) : Prop := {
  cd_wf : desc_wf ag;
  cd_size : ag_size ag = c_size t;
  cd_align : ag_alignment ag = c_align t;
  cd_small : nested_at_8 t = true -> forall base, base mod 8 = 0 -> lay_ok ag base = true /\
    forall index, base <= 8 * index < base + c_size t -> exists l, In l (leaves ag base) /\ hits index l = true;
}.

Record member_ok (junk : list Z) (m : ctype * Z) : Prop := {
  mo_len : 1 <= m.2;
  mo_align : In (c_align m.1) [1; 2; 4; 8];
  mo_size : 0 < c_size m.1;
  mo_desc : is_struct m.1 = true -> exists s, c_describe junk m.1 = Some s /\ c_desc m.1 s;
}.

Lemma align_pos a : In a [1; 2; 4; 8] -> 0 < a.
Proof. intros [<-|[<-|[<-|[<-|[]]]]]; lia. Qed.

(** The places of the members: in order, aligned, inside, and without a gap of
    eight bytes. *)
Lemma place_spec junk ms : forall lo, 0 <= lo -> (forall m, In m ms -> member_ok junk m) ->
  let '(offs, e) := c_place (map (fun m => (c_size m.1, c_align m.1, m.2)) ms) lo in
  lo <= e /\ (ms <> [] -> lo < e) /\
  Forall2 (fun m off => lo <= off /\ off mod c_align m.1 = 0 /\ off + c_size m.1 * m.2 <= e) ms offs /\
  forall w, lo <= w < e -> exists m off, In (m, off) (combine ms offs) /\ off < w + 8 /\ w < off + c_size m.1 * m.2.
Proof.
  induction ms as [|m ms IH]; intros lo Hlo Hm; cbn [map c_place].
  { split_and!; [lia|done|constructor|lia]. }
  destruct (Hm m (or_introl eq_refl)) as [Hl Ha Hs _]. pose proof (align_pos _ Ha) as Hap.
  assert (Ha8 : c_align m.1 <= 8) by (clear -Ha; destruct Ha as [<-|[<-|[<-|[<-|[]]]]]; lia).
  pose proof (align_up_bounds lo (c_align m.1) Hap) as Hb. pose proof (align_up_mod lo (c_align m.1) Hap) as Hmod.
  set (off := align_up lo (c_align m.1)) in *. assert (0 < c_size m.1 * m.2) by nia.
  specialize (IH (off + c_size m.1 * m.2) ltac:(lia) (fun m H => Hm m (or_intror H))).
  destruct (c_place _ _) as [offs e]. destruct IH as (He & _ & Hf & Hg).
  split_and!; [lia|lia| |].
  - constructor; [split_and!; (lia || done)|]. eapply Forall2_impl; [exact Hf|].
    intros m' off' (? & ? & ?). split_and!; (lia || done).
  - intros w Hw. destruct (Z.lt_ge_cases w (off + c_size m.1 * m.2)).
    + exists m, off. split_and!; [by left|lia|done].
    + destruct (Hg w ltac:(lia)) as (m' & off' & Hin & ?). exists m', off'. split; [by right|done].
Qed.

Lemma decl_facts junk m off : member_ok junk m ->
  let f := field_of (c_decl junk m off) in
  decl_wf (c_decl junk m off) /\ f_offset f = off /\ f_size f = c_size m.1 /\
  f_alignment f = c_align m.1 /\ f_array_len f = m.2.
Proof.
  intros [_ _ _ Hd]. destruct m as [[t|ms] len]; unfold c_decl, field_of, decl_wf; cbn [c_sigchar fst snd].
  - by rewrite cty_of_sigchar_of.
  - destruct (Hd eq_refl) as (s & Es & [Hw Hs Ha _]). cbn [fst] in *.
    change (cty_of_sigchar DC_SIGCHAR_AGGREGATE) with (@None cty). rewrite Es. cbn. eauto 10.
Qed.

Definition at_8 (m : ctype * Z) (off : Z) : bool :=
  negb (is_struct m.1) || ((off mod 8 =? 0) && ((m.2 =? 1) || (c_size m.1 mod 8 =? 0))).

(** The elements of a nested array start at multiples of eight. *)
Lemma elem_at_8 m off i : is_struct m.1 = true -> at_8 m off = true -> 0 <= i < m.2 ->
  (off + c_size m.1 * i) mod 8 = 0.
Proof.
  unfold at_8. intros ->. cbn [negb orb]. intros [Ho%Z.eqb_eq Hor]%andb_prop Hi.
  apply Z.mod_divide in Ho as [q ->]; [|lia]. apply orb_prop in Hor as [H1%Z.eqb_eq|H8%Z.eqb_eq].
  - replace i with 0 by lia. rewrite Z.mul_0_r, Z.add_0_r. by apply Z.mod_mul.
  - apply Z.mod_divide in H8 as [r ->]; [|lia]. replace (q * 8 + r * 8 * i) with ((q + r * i) * 8) by lia. by apply Z.mod_mul.
Qed.

Lemma plus_base base o : base mod 8 = 0 -> o mod 8 = 0 -> (base + o) mod 8 = 0.
Proof. intros Hb Ho. by rewrite Z.add_mod, Hb, Ho by lia. Qed.

Lemma decl_lay junk m off total base :
  member_ok junk m -> nested_at_8 m.1 = true -> at_8 m off = true -> base mod 8 = 0 ->
  0 <= off -> off mod c_align m.1 = 0 -> off + c_size m.1 * m.2 <= total ->
  field_lay total base (field_of (c_decl junk m off)).
Proof.
  intros Hm Hn H8 Hb Ho Hmod He. destruct (decl_facts junk m off Hm) as (_ & E1 & E2 & _ & E4).
  unfold field_lay. rewrite E1, E2, E4. destruct Hm as [Hl Ha Hs Hd]. split_and!; [lia|lia|lia|].
  destruct m as [[t|ms] len]; unfold c_decl, field_of; cbn [c_sigchar fst snd] in *.
  - rewrite cty_of_sigchar_of. cbn [f_type]. rewrite cty_of_sigchar_of. cbn [c_align c_size] in *.
    pose proof (mod8_aligned base (sizeof_cty t) Hb Ha) as Hb'.
    rewrite Z.add_mod, Hb', Hmod by (pose proof (align_pos _ Ha); lia). done.
  - destruct (Hd eq_refl) as (s & Es & [_ _ _ Hsm]). rewrite Es. cbn.
    assert (Hel : forall i, 0 <= i < len -> (base + off + c_size (CStruct ms) * i) mod 8 = 0).
    { intros i Hi. rewrite <- Z.add_assoc. apply plus_base; [done|]. by apply (elem_at_8 (CStruct ms, len)). }
    split; [rewrite <- (Hel 0) by lia; f_equal; lia|]. intros i Hi. apply Hsm; [done|]. by apply Hel.
Qed.

(** The element of an array that covers a byte window. *)
Lemma elem_window b sz len w : 0 < sz -> b < w + 8 -> w < b + sz * len -> 1 <= len ->
  exists i, 0 <= i < len /\ b + sz * i < w + 8 /\ w < b + sz * i + sz /\ (b <= w -> b + sz * i <= w).
Proof.
  intros Hs Hb Hw Hl. destruct (Z.le_gt_cases b w).
  - pose proof (Z.div_mod (w - b) sz ltac:(lia)). pose proof (Z.mod_pos_bound (w - b) sz Hs).
    assert (0 <= (w - b) / sz) by (apply Z.div_pos; lia). assert ((w - b) / sz < len) by nia.
    exists ((w - b) / sz). split_and!; (lia || nia).
  - exists 0. split_and!; lia.
Qed.

Lemma decl_hit junk m off base index :
  member_ok junk m -> nested_at_8 m.1 = true -> at_8 m off = true -> base mod 8 = 0 ->
  base + off < 8 * index + 8 -> 8 * index < base + off + c_size m.1 * m.2 ->
  exists l, In l (field_leaves base (field_of (c_decl junk m off))) /\ hits index l = true.
Proof.
  intros Hm Hn H8 Hb Hlo Hhi. destruct (decl_facts junk m off Hm) as (_ & E1 & E2 & _ & E4).
  destruct Hm as [Hl Ha Hs Hd]. destruct (elem_window _ _ _ _ Hs Hlo Hhi Hl) as (i & Hi & Hi1 & Hi2 & Hi3).
  enough (exists l, In l (elem_leaves (field_of (c_decl junk m off)) (base + off + c_size m.1 * i)) /\ hits index l = true)
    as (l & Hin & Hh).
  { exists l. split; [|done]. unfold field_leaves. apply in_concat. eexists. split; [|exact Hin].
    rewrite E1, E2, E4. apply in_map_iff. exists i. split; [done|]. apply list_elem_of_In, elem_of_seqZ. lia. }
  destruct m as [[t|ms] len]; unfold c_decl, field_of, elem_leaves; cbn [c_sigchar fst snd] in *.
  - rewrite cty_of_sigchar_of. cbn [f_type]. rewrite cty_of_sigchar_of. eexists. split; [by left|].
    unfold hits. cbn [fst snd c_size] in *. lia.
  - destruct (Hd eq_refl) as (s & Es & [_ _ _ Hsm]). rewrite Es.
    assert (Hel : (base + off + c_size (CStruct ms) * i) mod 8 = 0).
    { rewrite <- Z.add_assoc. apply plus_base; [done|]. by apply (elem_at_8 (CStruct ms, len)). }
    apply (Hsm Hn _ Hel). set (o := base + off + c_size (CStruct ms) * i) in *. clearbody o.
    pose proof (Z.div_mod o 8 ltac:(lia)). lia.
Qed.

(** *** A struct from its members *)

Lemma Forall2_combine {A B} (R : A -> B -> Prop) l k x y :
  Forall2 R l k -> In (x, y) (combine l k) -> In x l /\ R x y.
Proof.
  induction 1 as [|a b l k Hab _ IH]; [done|]. cbn [combine].
  intros [[= <- <-]|Hin]; [split; [by left|done]|]. destruct (IH Hin). split; [by right|done].
Qed.

Lemma decls_combine junk ms offs :
  zip_with (fun d off => let '(ty, len, sub) := d in (ty, off, len, sub))
    (map (fun m => (c_sigchar m.1, m.2, c_describe junk m.1)) ms) offs
  = map (fun mo => c_decl junk mo.1 mo.2) (combine ms offs).
Proof. revert offs. induction ms as [|m ms IH]; intros [|off offs]; cbn; [done..|]. by rewrite <- IH. Qed.

Lemma max_pow2 l : forall a, In a [0; 1; 2; 4; 8] -> Forall (fun x => In x [1; 2; 4; 8]) l ->
  (l <> [] \/ a <> 0) -> In (fold_left Z.max l a) [1; 2; 4; 8].
Proof.
  induction l as [|x l IH]; intros a Ha Hl Hne; cbn [fold_left].
  - destruct Hne as [|Hne]; [done|]. destruct Ha as [<-|Ha]; done.
  - apply Forall_cons in Hl as [Hx Hl]. pose proof (align_pos x Hx).
    apply IH; [|done|right; lia]. destruct (Z.max_spec a x) as [[_ ->]|[_ ->]]; [by right|done].
Qed.

Lemma align_multiple a x y : In a [1; 2; 4; 8] -> align_up x a > 8 * y -> x <= 8 * y -> False.
Proof.
  intros Ha H Hx. pose proof (align_pos a Ha). enough (align_up x a <= 8 * y) by lia.
  apply align_up_least; [done| |done]. apply Z.divide_mul_l.
  destruct Ha as [<-|[<-|[<-|[<-|[]]]]]; [by exists 8|by exists 4|by exists 2|by exists 1].
Qed.

(** Placing the members of a struct. *)
Record placed (junk : list Z) (ms : list (ctype * Z)) (P : list ((ctype * Z) * Z)) : Prop := {
  pl_offsets : combine ms (c_offsets ms) = P;
  pl_members : map fst P = ms;
  pl_in : forall m off, In (m, off) P -> member_ok junk m /\ 0 <= off /\ off mod c_align m.1 = 0 /\
            off + c_size m.1 * m.2 <= c_size (CStruct ms);
  pl_dense : forall index, 0 <= 8 * index < c_size (CStruct ms) ->
            exists m off, In (m, off) P /\ off < 8 * index + 8 /\ 8 * index < off + c_size m.1 * m.2;
  pl_align : In (c_align (CStruct ms)) [1; 2; 4; 8];
  pl_size : 0 < c_size (CStruct ms);
}.

Lemma struct_placed junk ms :
  ms <> [] -> (forall m, In m ms -> member_ok junk m) -> placed junk ms (combine ms (c_offsets ms)).
Proof.
  intros Hne Hm. pose proof (place_spec junk ms 0 ltac:(lia) Hm) as H.
  assert (Ha : In (c_align (CStruct ms)) [1; 2; 4; 8]).
  { cbn [c_align]. apply max_pow2; [by left| |left; by destruct ms].
    apply List.Forall_forall. intros a (m & <- & Hin)%in_map_iff. by apply Hm. }
  unfold c_offsets in *.
  destruct (c_place _ _) as [offs e] eqn:Ep. cbn [fst]. destruct H as (_ & He & Hf & Hg). specialize (He Hne).
  assert (Es : c_size (CStruct ms) = align_up e (c_align (CStruct ms))) by (cbn [c_size]; by rewrite Ep).
  pose proof (align_up_bounds e _ (align_pos _ Ha)) as Hb. rewrite <- Es in Hb.
  constructor; [unfold c_offsets; by rewrite Ep| | | |done|lia].
  - apply Forall2_length in Hf. clear -Hf. revert offs Hf.
    induction ms as [|m ms IH]; intros [|off offs]; cbn; try done. intros [= H]. by rewrite IH.
  - intros m off Hin. apply (Forall2_combine _ _ _ _ _ Hf) in Hin as [Hin (? & ? & ?)].
    split_and!; [by apply Hm|done|done|lia].
  - intros index Hi. apply Hg. split; [lia|]. destruct (Z.lt_ge_cases (8 * index) e); [done|].
    exfalso. apply (align_multiple _ e index Ha); lia.
Qed.

(** Any description with the fields of the declarations is one of the type. *)
Lemma placed_desc junk ms P ag :
  placed junk ms P -> desc_wf ag -> ag_size ag = c_size (CStruct ms) ->
  ag_fields ag = map (fun mo => field_of (c_decl junk mo.1 mo.2)) P -> c_desc (CStruct ms) ag.
Proof.
  intros [Hoffs Hms Hin Hd Ha Hs] Hw Hsz Hf. constructor; [done|done| |].
  - rewrite (lw_align _ (desc_level _ Hw)). unfold max_alignment. cbn [c_align]. rewrite Hf, <- Hms, !map_map.
    f_equal. apply map_ext_in. intros [m off] Hin'. apply Hin in Hin' as [Hm _]. by apply decl_facts.
  - cbn [nested_at_8]. rewrite Hoffs. intros [Hn H8]%andb_prop base Hb. rewrite forallb_forall in Hn, H8.
    assert (Hn' : forall m off, In (m, off) P -> nested_at_8 m.1 = true).
    { intros m off Hin'. apply Hn. rewrite <- Hms. by apply (in_map fst _ (m, off)). }
    split.
    + apply lay_ok_intro. rewrite Hf, Hsz. apply List.Forall_forall.
      intros g ([m off] & <- & Hin')%in_map_iff. destruct (Hin m off Hin') as (Hm & ? & ? & ?).
      apply decl_lay; [done|by apply (Hn' m off)|by apply (H8 (m, off))|done..].
    + intros index Hi. pose proof (Z.div_mod base 8 ltac:(lia)) as Hbq.
      destruct (Hd (index - base / 8)) as (m & off & Hin' & Hlo & Hhi); [lia|].
      destruct (Hin m off Hin') as (Hm & _).
      destruct (decl_hit junk m off base index Hm (Hn' m off Hin') (H8 (m, off) Hin') Hb) as (l & Hl & Hh); [lia|lia|].
      exists l. split; [|done]. rewrite leaves_unfold. apply in_concat. eexists. split; [|exact Hl].
      apply in_map. rewrite Hf. apply in_map_iff. by exists (m, off).
Qed.

Lemma c_struct_described junk ms :
  (3 <= length junk)%nat -> ms <> [] -> (forall m, In m ms -> member_ok junk m) ->
  exists ag0 ag, dcCloseAggr true ag0 = Some ag /\ c_describe junk (CStruct ms) = Some ag /\
    c_desc (CStruct ms) ag0 /\ c_desc (CStruct ms) ag /\ ag_sysv_classes ag0 = junk.
Proof.
  intros Hj Hne Hm. pose proof (struct_placed junk ms Hne Hm) as Hp. set (P := combine _ _) in *.
  set (ds := map (fun mo => c_decl junk mo.1 mo.2) P).
  assert (Hlen : length ds = length ms) by (unfold ds; by rewrite <- (pl_members _ _ _ Hp), !length_map).
  assert (Hwf : Forall decl_wf ds).
  { apply List.Forall_forall. intros d ([m off] & <- & Hin)%in_map_iff. apply Hp in Hin as [Hmo _]. by apply decl_facts. }
  pose proof (pl_size _ _ _ Hp) as Hs.
  set (ag00 := dcNewAggr junk (Z.of_nat (length ms)) (c_size (CStruct ms))).
  destruct (add_fields_wf ds ag00 (new_wf junk _ _ (Z.lt_le_incl _ _ Hs)) Hwf) as (ag0 & Hadd & Hw & Hsz & _ & Hc & _); [cbn; lia|].
  destruct (close_total true ag0 Hw) as (ag & Hclose); [by rewrite Hc|].
  pose proof (add_fields_exact _ _ _ Hadd) as Hf. cbn [ag_fields dcNewAggr ag00 app] in Hf.
  unfold ds in Hf. rewrite map_map in Hf. destruct (close_level _ _ _ Hclose) as (E1 & _ & _ & E4 & _).
  exists ag0, ag. split_and!; [done| | | |exact Hc].
  - cbn [c_describe]. rewrite decls_combine. fold P ds ag00. by rewrite Hadd.
  - by apply (placed_desc junk ms P).
  - apply (placed_desc junk ms P); [done|by apply (close_wf _ _ _ Hw Hclose)|by rewrite E1|by rewrite E4].
Qed.

Lemma ok_member junk t : (3 <= length junk)%nat -> c_ok t -> forall len, 1 <= len -> member_ok junk (t, len).
Proof.
  intros Hj. induction 1 as [t|ms Hne _ IH Hms]; intros len Hl; cbn [fst snd].
  - constructor; cbn -[sizeof_cty]; [done|apply sizeof_cty_pow2|pose proof (sizeof_cty_range t); lia|done].
  - assert (Hm : forall m, In m ms -> member_ok junk m).
    { intros [t n] Hin. apply (IH t n Hin). by apply (Hms t n). }
    pose proof (struct_placed junk ms Hne Hm) as Hp.
    destruct (c_struct_described junk ms Hj Hne Hm) as (ag0 & ag & _ & Hd & _ & Hdesc & _).
    constructor; [done|apply Hp|apply Hp|]. intros _. by exists ag.
Qed.

(** C16: structs laid out by a C compiler can be passed by value.  A struct
    type is a nonempty list of scalars, structs and arrays of both, with every
    member at the next offset its alignment allows and the size rounded up to
    the alignment.  If it has more than 16 bytes, or no more and the structs in
    it start at multiples of eight bytes (which C does not guarantee; the others
    are excluded, their classification is wrong), then describing it member by
    member with [dcNewAggr], [dcAggrField] and [dcCloseAggr] succeeds and gives
    a description of its size and alignment that meets all the requirements of
    [x64_aggr_args_roundtrip], for every object that has as many whole
    eightbytes. *)
Theorem x64_laid_out_struct_passable junk ms x :
  (8 <= length junk)%nat -> c_ok (CStruct ms) -> c_size (CStruct ms) < 2 ^ 31 ->
  (c_size (CStruct ms) <= 16 -> nested_at_8 (CStruct ms) = true) ->
  Forall is_byte (op_obj x) -> 8 * ((c_size (CStruct ms) + 7) / 8) <= Z.of_nat (length (op_obj x)) ->
  exists ag, c_describe junk (CStruct ms) = Some ag /\ ag_size ag = c_size (CStruct ms) /\
    ag_alignment ag = c_align (CStruct ms) /\ aggr_arg_ok false ag x.
Proof.
  intros Hj Hok Hmax Hn Hbytes Hobj. inversion Hok as [|ms' Hne Hmt Hml]; subst ms'.
  assert (Hm : forall m, In m ms -> member_ok junk m).
  { intros [t n] Hin. apply ok_member; [lia|by apply (Hmt t n)|by apply (Hml t n)]. }
  pose proof (struct_placed junk ms Hne Hm) as Hp.
  destruct (c_struct_described junk ms ltac:(lia) Hne Hm) as (ag0 & ag & Hclose & Hd & [Hw Hsz Hal Hsm] & [_ Hsz' Hal' _] & Hc).
  destruct (laid_out_passable ag0 x Hw) as (ag' & Hclose' & Hpass).
  - by rewrite Hc.
  - rewrite Hsz. split; [apply Hp|done].
  - rewrite Hsz, Hal. intros Hsmall. destruct (Hsm (Hn Hsmall) 0 eq_refl) as [Hlay Hcov].
    split_and!; [done|cbn [c_size]; apply align_up_mod, align_pos, Hp|].
    intros index Hi E. destruct (Hcov index Hi) as (l & Hin & Hh). unfold abi_class in E.
    destruct (existsb _ _) in E; [done|]. rewrite (proj2 (existsb_exists _ _)) in E; [done|by exists l].
  - done.
  - by rewrite Hsz.
  - rewrite Hclose in Hclose'. injection Hclose' as <-. by exists ag.
Qed.

End Struct.
