(* ===== verification/X64Examples.v ===== *)
(** * x86-64: the properties at concrete inputs

    A VM, argument lists and descriptions as a client would make them, on both
    systems; each example applies a property of the other x64 files. *)

From S2P Require Export X64Struct.

Definition ex_vm (win : bool) : DCCallVM_x64 := {|
  x_vt := gVT_x64_p; x_mError := 0; mAggrReturnReg := -1; mpAggrVecCopies := 0;
  mRegCount := {| rc_i := 1; rc_f := 1 |};
  mRegData := if win then {| rd_i := [1;2;3;4]; rd_f := [1;2;3;4] |}
              else {| rd_i := [1;2;3;4;5;6]; rd_f := [1;2;3;4;5;6;7;8] |};
  mVecHead := {| mTotal := 200; mSize := 24; vec_data := replicate 232 7 |};
  mVecAddr := 4096
|}.

Definition ex_junk (_ : DCCallVM_x64) : Z := 0xdeadbeef.
Definition ex_cpu : x64_cpu := Build_x64_cpu 0 0 0 0 0 0 [] [].
Definition ex_ret : x64_ret := Build_x64_ret 0 0 0 0.

(** Ten arguments: on both systems some go to the stack. *)
Definition ex_args : list arg :=
  [Arg TInt (-1); Arg TDouble 0x3ff0000000000000; Arg TUChar 200; Arg TLongLong (- 2 ^ 40);
   Arg TPointer 0x7fffdeadbeef; Arg TFloat 0x3f800000; Arg TBool 1; Arg TShort (-5);
   Arg TULong 4000000000; Arg TString 0x1000].

Definition ex_cb (r : Z) (l : list (option DCaggr)) : DCCallback := Build_DCCallback 0 0 r l.
Definition ex_mem (_ : Z) (_ : nat) : option (list Z) := None.

Lemma ex_vm_alloc win : x64_alloc win (ex_vm win).
Proof.
  destruct win; constructor; cbn; try done; try lia; try (constructor; cbn; lia).
Qed.

Lemma ex_vm_addr win : vec_addr_ok win (ex_vm win).
Proof. intros _. cbn. lia. Qed.

Ltac args_ok := repeat first [apply Forall_cons; split | apply Forall_nil; exact I];
  first [reflexivity | (left; reflexivity) | (right; reflexivity)].

Lemma x64_scalar_call_end_to_end_witness :
  exists vm vf r,
    dcReset (C := x64_CallVM false ex_junk) (ex_vm false) = Some vm /\
    push_args (DM := x64_dm false) (C := x64_CallVM false ex_junk) vm ex_args = Some vf /\
    run_callback false (ex_cb (-2) []) ex_mem ex_cpu ex_ret
      (scalar_handler false (map a_ty ex_args) TShort (fun l => - Z.of_nat (length l)))
      (replicate 32 9) (dcCall_as (C := x64_CallVM false ex_junk) TShort vf 0) = Some r /\ ret_value false TShort r = -10.
Proof.
  apply (x64_scalar_call_end_to_end false ex_junk (ex_cb (-2) []) ex_mem ex_cpu ex_ret (replicate 32 9)
           (ex_vm false) ex_args TShort (fun l => - Z.of_nat (length l)) 0);
    [apply ex_vm_alloc|discriminate|cbn; lia|args_ok|reflexivity|reflexivity|reflexivity].
Defined.

Lemma x64_args_at_abi_locations_witness :
  exists vf cpu,
    push_args (DM := x64_dm true) (C := x64_CallVM true ex_junk)
      (with_aggr_reg 0 (default (ex_vm true) (dcReset (C := x64_CallVM true ex_junk) (ex_vm true)))) ex_args
    = Some vf /\
    kernel_enter ex_cpu (dcCallVoid (C := x64_CallVM true ex_junk) vf 0) = Some cpu /\
    Forall2 (arg_at true cpu) ex_args
      [LInt 1; LSse 2; LInt 3; LStack 0; LStack 8; LStack 16; LStack 24; LStack 32; LStack 40; LStack 48].
Proof.
  apply (x64_args_at_abi_locations true ex_junk ex_cpu (ex_vm true)
           (with_aggr_reg 0 (default (ex_vm true) (dcReset (C := x64_CallVM true ex_junk) (ex_vm true)))) ex_args 0);
    [apply ex_vm_alloc|discriminate|cbn; lia|args_ok|].
  eexists. split; [reflexivity|right; reflexivity].
Defined.

Lemma x64_api_memory_safe_witness :
  exists vm, run_ops (DM := x64_dm false) (C := x64_CallVM false ex_junk) (ex_vm false)
      ([OpMode 12345; OpReset] ++ map OpArg (ex_args ++ ex_args ++ ex_args ++ ex_args ++ ex_args)) = Some vm /\
    x64_alloc false vm /\ mTotal (mVecHead vm) = 200.
Proof. apply (x64_api_memory_safe false ex_junk (ex_vm false)). apply ex_vm_alloc. Defined.

Lemma x64_dcNewCallVM_ready_witness :
  exists vm, dcNewCallVM true (ex_vm true) (Some (replicate 256 0)) 256 = Some vm /\
    x64_alloc true vm /\ x64_fresh vm /\ x_vt vm = gVT_x64_p /\
    dcGetError (C := x64_CallVM true ex_junk) vm = DC_ERROR_NONE /\
    mAggrReturnReg vm = -1 /\ mTotal (mVecHead vm) = 224.
Proof.
  apply (x64_dcNewCallVM_ready true ex_junk (ex_vm true) (replicate 256 0) 256); done.
Defined.

(** *** Aggregates *)

(** [struct { double d; int i; }], [struct { char c[20]; }], [struct { short s; }]. *)
Definition ex_mixed (win : bool) : DCaggr := default (dcNewAggr [] 0 0)
  (a ← dcAggrField (DM := x64_dm win) (dcNewAggr (replicate 8 0) 2 16) "d"%char 0 1 None;
   a ← dcAggrField (DM := x64_dm win) a "i"%char 8 1 None;
   dcCloseAggr (negb win) a).
Definition ex_big (win : bool) : DCaggr := default (dcNewAggr [] 0 0)
  (a ← dcAggrField (DM := x64_dm win) (dcNewAggr (replicate 8 0) 1 20) "c"%char 0 20 None;
   dcCloseAggr (negb win) a).
Definition ex_small (win : bool) : DCaggr := default (dcNewAggr [] 0 0)
  (a ← dcAggrField (DM := x64_dm win) (dcNewAggr (replicate 8 0) 1 2) "s"%char 0 1 None;
   dcCloseAggr (negb win) a).

Definition ex_obj (n : Z) : objptr := {| op_addr := 0x5000; op_obj := map (fun k => k mod 256) (seqZ n 24) |}.

Definition ex_items (win : bool) : list item :=
  [IScalar (Arg TInt (-1)); IAggr (Some (ex_mixed win)) (ex_obj 10);
   IAggr (Some (ex_big win)) (ex_obj 40); IScalar (Arg TDouble 77);
   IAggr None (ex_obj 3); IAggr (Some (ex_small win)) (ex_obj 250)].

Definition ex_buf (ag : DCaggr) : list Z := replicate (Z.to_nat (ag_size ag)) 0.

Lemma ex_buf_size ag : length (ex_buf ag) = Z.to_nat (ag_size ag).
Proof. apply length_replicate. Qed.

Lemma seqZ_bytes n k : Forall is_byte (map (fun z => z mod 256) (seqZ n k)).
Proof. apply Forall_map, Forall_forall. intros x _. apply Z.mod_pos_bound. lia. Qed.

Lemma ex_mixed_ok win n : aggr_arg_ok win (ex_mixed win) (ex_obj n).
Proof.
  constructor; [apply seqZ_bytes|by destruct win|by destruct win|].
  intros ->. exists SYSVC_SSE. split; [reflexivity|right]. split; [|done].
  constructor; [|done|done]. change (classes_of (ex_mixed false)) with [SYSVC_SSE; SYSVC_INTEGER].
  apply Forall_cons. split; [by right|]. apply Forall_singleton. by left.
Qed.

Lemma ex_big_ok win n : aggr_arg_ok win (ex_big win) (ex_obj n).
Proof.
  constructor; [apply seqZ_bytes|by destruct win|by destruct win|].
  intros ->. exists SYSVC_MEMORY. split; [reflexivity|by left].
Qed.

Lemma ex_small_ok win n : aggr_arg_ok win (ex_small win) (ex_obj n).
Proof.
  constructor; [apply seqZ_bytes|by destruct win|by destruct win|].
  intros ->. exists SYSVC_INTEGER. split; [reflexivity|right]. split; [|done].
  constructor; [|done|done]. change (classes_of (ex_small false)) with [SYSVC_INTEGER].
  apply Forall_singleton. by left.
Qed.

Lemma ex_items_ok win : Forall (item_ok win) (ex_items win).
Proof.
  constructor; [reflexivity|]. constructor; [apply ex_mixed_ok|]. constructor; [apply ex_big_ok|].
  constructor; [reflexivity|]. constructor; [unfold item_ok, in_u; cbn; lia|].
  constructor; [apply ex_small_ok|constructor].
Qed.

Lemma x64_aggr_args_roundtrip_witness :
  exists vm vf cpu p,
    dcReset (C := x64_CallVM true ex_junk) (ex_vm true) = Some vm /\
    push_items (DM := x64_dm true) (C := x64_CallVM true ex_junk) vm (ex_items true) = Some vf /\
    kernel_enter ex_cpu (dcCallVoid (C := x64_CallVM true ex_junk) vf 0) = Some cpu /\
    read_items true ex_buf (ex_items true)
      (dcCallback_x64 true (ex_cb (-2) (item_aggrs (ex_items true))) (vec_mem vf) cpu)
    = Some (map item_value (ex_items true), p).
Proof.
  apply (x64_aggr_args_roundtrip true ex_junk ex_buf ex_buf_size
           (ex_cb (-2) (item_aggrs (ex_items true))) ex_cpu (ex_vm true) (ex_items true) [] 0);
    [apply ex_vm_alloc|apply ex_vm_addr|discriminate|vm_compute; discriminate|apply ex_items_ok
    |reflexivity|symmetry; apply app_nil_r].
Defined.

Lemma x64_aggr_register_result_witness :
  exists vm vm1 vf,
    dcReset (C := x64_CallVM false ex_junk) (ex_vm false) = Some vm /\
    dcBeginCallAggr (C := x64_CallVM false ex_junk) vm (Some (ex_mixed false)) = Some vm1 /\
    push_items (DM := x64_dm false) (C := x64_CallVM false ex_junk) vm1 (ex_items false) = Some vf /\
    dcCallAggr (C := x64_CallVM false ex_junk)
      (run_callback false (ex_cb (-1) (item_aggrs (ex_items false) ++ [Some (ex_mixed false)])) (vec_mem vf)
         ex_cpu ex_ret (aggr_handler false ex_buf (ex_items false) (fun _ => op_obj (ex_obj 60)))
         (replicate 32 0)) vf 0 (Some (ex_mixed false)) 0x9000
    = Some (0x9000, seqZ 60 16).
Proof.
  apply (x64_aggr_register_result false ex_junk ex_buf ex_buf_size
           (ex_cb (-1) (item_aggrs (ex_items false) ++ [Some (ex_mixed false)])) ex_cpu ex_ret (replicate 32 0)
           (ex_vm false) (ex_items false) (ex_mixed false) (fun _ => op_obj (ex_obj 60)) 0x9000 0);
    [apply ex_vm_alloc|apply ex_vm_addr|reflexivity|vm_compute; discriminate|apply ex_items_ok
    |reflexivity| |reflexivity|reflexivity|reflexivity].
  split_and!; [apply seqZ_bytes|reflexivity|vm_compute; discriminate|vm_compute; discriminate|].
  intros _. pose proof (ex_mixed_ok false 60) as H. destruct (ao_regs _ _ _ H eq_refl) as (c & [= <-] & [|[Hr _]]); [done|].
  split; [exact Hr|vm_compute; discriminate].
Defined.

Lemma x64_aggr_hidden_result_witness :
  exists vm vm1 vf k cpu p slot r,
    dcReset (C := x64_CallVM false ex_junk) (ex_vm false) = Some vm /\
    dcBeginCallAggr (C := x64_CallVM false ex_junk) vm (Some (ex_big false)) = Some vm1 /\
    push_items (DM := x64_dm false) (C := x64_CallVM false ex_junk) vm1 (ex_items false) = Some vf /\
    (forall run, dcCallAggr (C := x64_CallVM false ex_junk) run vf 0 (Some (ex_big false)) 0x9000
                 = (_ ← run k; Some (0x9000, []))) /\
    kernel_enter ex_cpu k = Some cpu /\
    read_items false ex_buf (ex_items false)
      (dcCallback_x64 false (ex_cb 0 (item_aggrs (ex_items false) ++ [Some (ex_big false)])) (vec_mem vf) cpu)
    = Some (map item_value (ex_items false), p) /\
    dcbReturnAggr false p (replicate 32 0) (op_obj (ex_obj 60))
    = Some (args_next_aggr [] p, Some (0x9000, seqZ 60 20), slot) /\
    callback_exit false (ex_cb 0 (item_aggrs (ex_items false) ++ [Some (ex_big false)])) ex_ret slot = Some r /\
    ret_rax r = 0x9000.
Proof.
  apply (x64_aggr_hidden_result false ex_junk ex_buf ex_buf_size
           (ex_cb 0 (item_aggrs (ex_items false) ++ [Some (ex_big false)])) ex_cpu ex_ret (replicate 32 0)
           (ex_vm false) (ex_items false) (Some (ex_big false)) (op_obj (ex_obj 60)) 0x9000 0);
    [apply ex_vm_alloc|apply ex_vm_addr|reflexivity|vm_compute; discriminate|apply ex_items_ok
    |reflexivity|unfold in_u; lia|vm_compute; split; discriminate|reflexivity|reflexivity|reflexivity].
Defined.

Lemma x64_hidden_pointer_agrees_witness :
  exists cb vm vm1 vm2,
    dcbInitCallback2 true (list_ascii_of_string "_*piA)A") 1 2
      [Some (ex_small true); Some (ex_big true)] = Some cb /\
    dcMode (C := x64_CallVM true ex_junk) (ex_vm true) DC_CALL_C_DEFAULT_THIS = Some vm /\
    dcGetError (C := x64_CallVM true ex_junk) vm = DC_ERROR_NONE /\
    dcReset (C := x64_CallVM true ex_junk) vm = Some vm1 /\
    dcBeginCallAggr (C := x64_CallVM true ex_junk) vm1 (Some (ex_big true)) = Some vm2 /\
    cb_aggr_return_register cb = 1 /\ mAggrReturnReg vm2 = 1.
Proof.
  apply (x64_hidden_pointer_agrees true ex_junk (Some DC_SIGCHAR_CC_THISCALL)
           (list_ascii_of_string "piA)A") 1 2 [Some (ex_small true); Some (ex_big true)]
           (Some (ex_big true)) true (ex_vm true));
    [apply ex_vm_alloc|reflexivity|discriminate|reflexivity|reflexivity|reflexivity].
Defined.

(** The same signature with [_$] on System V: the callback waits for a hidden
    pointer in the first register, the caller sends none. *)
Example syscall_prefix_disagrees :
  option_map cb_aggr_return_register
    (dcbInitCallback2 false (list_ascii_of_string "_$pi)A") 1 2 [Some (ex_big false)]) = Some 0 /\
  (vm ← dcMode (C := x64_CallVM false ex_junk) (ex_vm false) DC_CALL_SYS_DEFAULT;
   vm1 ← dcReset (C := x64_CallVM false ex_junk) vm;
   vm2 ← dcBeginCallAggr (C := x64_CallVM false ex_junk) vm1 (Some (ex_big false));
   Some (mAggrReturnReg vm2)) = Some (-1).
Proof. split; vm_compute; reflexivity. Qed.

(** *** Classification: [struct { double d; struct { int i; float f; } s; }] *)

#[local] Existing Instance dm.
#[local] Existing Instance ok.

Definition ex_inner_fields : list field_decl :=
  [(DC_SIGCHAR_INT, 0, 1, None); (DC_SIGCHAR_FLOAT, 4, 1, None)].
Definition ex_inner : DCaggr := default (dcNewAggr [] 0 0) (add_fields (dcNewAggr (replicate 8 5) 2 8) ex_inner_fields).
Definition ex_outer_fields : list field_decl :=
  [(DC_SIGCHAR_DOUBLE, 0, 1, None); (DC_SIGCHAR_AGGREGATE, 8, 1, Some ex_inner)].
Definition ex_outer : DCaggr := default (dcNewAggr [] 0 0) (add_fields (dcNewAggr (replicate 8 5) 2 16) ex_outer_fields).

Lemma ex_inner_wf : desc_wf ex_inner.
Proof.
  destruct (add_fields_wf ex_inner_fields (dcNewAggr (replicate 8 5) 2 8)) as (ag & E & Hw & _);
    [apply new_wf; lia|repeat constructor|cbn; lia|]. vm_compute in E. injection E as <-. exact Hw.
Qed.

Lemma ex_outer_decls : Forall decl_wf ex_outer_fields.
Proof.
  constructor; [exact I|]. constructor; [|constructor]. split; [done|]. exists ex_inner.
  split; [done|apply ex_inner_wf].
Qed.

Lemma ex_outer_wf : desc_wf ex_outer.
Proof.
  destruct (add_fields_wf ex_outer_fields (dcNewAggr (replicate 8 5) 2 16)) as (ag & E & Hw & _);
    [apply new_wf; lia|apply ex_outer_decls|cbn; lia|].
  unfold ex_outer. change (add_fields _ _) with (add_fields (dcNewAggr (replicate 8 5) 2 16) ex_outer_fields).
  rewrite E. exact Hw.
Qed.

Lemma description_well_formed_witness :
  exists ag ag', add_fields (dcNewAggr (replicate 8 5) 2 16) ex_outer_fields = Some ag /\
    dcCloseAggr true ag = Some ag' /\ desc_wf ag' /\ ag_size ag' = 16 /\
    map (fun f => (f_type f, f_offset f, f_array_len f)) (ag_fields ag') = map fst ex_outer_fields.
Proof.
  apply (description_well_formed true (replicate 8 5) 2 16 ex_outer_fields);
    [lia|cbn; lia|apply ex_outer_decls|cbn; lia].
Defined.

Lemma sysv_classification_correct_witness :
  exists ag', dcCloseAggr true ex_outer = Some ag' /\
    aget 0 (ag_sysv_classes ag') = Some SYSVC_SSE /\ aget 1 (ag_sysv_classes ag') = Some SYSVC_INTEGER /\
    aget 2 (ag_sysv_classes ag') = Some SYSVC_NONE.
Proof.
  apply (sysv_classification_correct ex_outer ex_outer_wf); [vm_compute; lia|reflexivity].
Defined.

(** [struct __attribute__((packed)) { char c; int i; }] *)
Definition ex_packed : DCaggr := default (dcNewAggr [] 0 0)
  (add_fields (dcNewAggr (replicate 8 5) 2 5) [(DC_SIGCHAR_CHAR, 0, 1, None); (DC_SIGCHAR_INT, 1, 1, None)]).

Lemma ex_packed_wf : desc_wf ex_packed.
Proof.
  destruct (add_fields_wf [(DC_SIGCHAR_CHAR, 0, 1, None); (DC_SIGCHAR_INT, 1, 1, None)] (dcNewAggr (replicate 8 5) 2 5))
    as (ag & E & Hw & _); [apply new_wf; lia|repeat constructor|cbn; lia|].
  vm_compute in E. injection E as <-. exact Hw.
Qed.

Lemma packed_struct_in_memory_witness :
  exists ag', dcCloseAggr true ex_packed = Some ag' /\ aget 0 (ag_sysv_classes ag') = Some SYSVC_MEMORY.
Proof.
  apply (packed_struct_in_memory ex_packed (mkField 1 4 4 1 DC_SIGCHAR_INT None) ex_packed_wf);
    [vm_compute; lia|vm_compute; discriminate
    |repeat (constructor; [split; [reflexivity|vm_compute; repeat split; discriminate]|]); constructor|right; left; reflexivity|discriminate].
Defined.

(** The same struct as C has it, with an array of characters in the inner one. *)
Definition ex_struct : list (ctype * Z) :=
  [(CScalar TDouble, 1); (CStruct [(CScalar TChar, 3); (CScalar TFloat, 1)], 1)].

Lemma ex_struct_ok : c_ok (CStruct ex_struct).
Proof.
  constructor; [discriminate| |]; intros t len [[= <- <-]|[[= <- <-]|[]]]; try lia; [constructor|].
  constructor; [discriminate| |]; intros t len [[= <- <-]|[[= <- <-]|[]]]; try lia; constructor.
Qed.

Lemma x64_laid_out_struct_passable_witness :
  exists ag, c_describe (replicate 8 5) (CStruct ex_struct) = Some ag /\ ag_size ag = 16 /\
    ag_alignment ag = 8 /\ aggr_arg_ok false ag (ex_obj 3).
Proof.
  apply (x64_laid_out_struct_passable (replicate 8 5) ex_struct (ex_obj 3));
    [cbn; lia|apply ex_struct_ok|reflexivity|reflexivity|apply seqZ_bytes|vm_compute; discriminate].
Defined.
