(* ===== verification/X86.v ===== *)
(** * x86 (dyncall/dyncall_callvm_x86.{h,c}, dyncall_call_x86.S,
      dyncallback/dyncall_args_x86.{h,c}, dyncall_callback_x86.{c,S},
      dyncall_thunk_x86.c)

    All arguments travel on the stack, except that fastcall passes the first
    two 32-bit integers in ECX and EDX and the Microsoft thiscall passes [this]
    in ECX: the VM keeps those in the first bytes of the argument vector. *)

From S2P Require Export Api.

#[export] Instance x86_dm : DataModel := {|
  dm_endian := LittleEndian;
  dm_size_bits := 32;
  dm_long_bits := 32;
  dm_char_signed := true
|}.

#[export] Instance x86_dm_ok : DataModelOk.
Proof. split; cbn; auto. Qed.

(** The operating system, and whether the C compiler or run-time library is
    Microsoft's ([DC__C_MSVC] or [DC__RT_MSVCRT]). *)
Inductive x86_os := OsLinux | OsUnix | OsWindows | OsPlan9.

Inductive x86_vt :=
  | gVT_x86_plan9_p | gVT_x86_cdecl_p | gVT_x86_win32_std_p | gVT_x86_win32_fast_ms_p
  | gVT_x86_win32_fast_gnu_p | gVT_x86_win32_this_ms_p
  | gVT_x86_syscall_int80h_linux_p | gVT_x86_syscall_int80h_bsd_p.

Record DCCallVM_x86 := {
  w_vt : x86_vt;
  w_mError : Z;
  mIntRegs : Z;
  w_vec : DCVecHead;
}.

Definition w_with_vt (v : x86_vt) (e : Z) (s : DCCallVM_x86) : DCCallVM_x86 :=
  {| w_vt := v; w_mError := e; mIntRegs := mIntRegs s; w_vec := w_vec s |}.
Definition w_with_regs (n : Z) (s : DCCallVM_x86) : DCCallVM_x86 :=
  {| w_vt := w_vt s; w_mError := w_mError s; mIntRegs := n; w_vec := w_vec s |}.
Definition w_with_vec (v : DCVecHead) (s : DCCallVM_x86) : DCCallVM_x86 :=
  {| w_vt := w_vt s; w_mError := w_mError s; mIntRegs := mIntRegs s; w_vec := v |}.

Definition x86_append (self : DCCallVM_x86) (bs : list Z) : option DCCallVM_x86 :=
  v ← dcVecAppend (w_vec self) bs (Z.of_nat (length bs));
  Some (w_with_vec v self).

(** ** Operations (dyncall_callvm_x86.c) *)

Definition dc_callvm_free_x86 (_ : DCCallVM_x86) : unit := tt.

Definition dc_callvm_reset_x86 (self : DCCallVM_x86) : option DCCallVM_x86 :=
  Some (w_with_regs 0 (w_with_vec (dcVecReset (w_vec self)) self)).

Definition dc_callvm_argInt_x86 (self : DCCallVM_x86) (x : Z) : option DCCallVM_x86 :=
  x86_append self (enc LittleEndian 4 x).
Definition dc_callvm_argBool_x86 (self : DCCallVM_x86) (x : Z) :=
  dc_callvm_argInt_x86 self (conv TInt x).
Definition dc_callvm_argChar_x86 (self : DCCallVM_x86) (x : Z) :=
  dc_callvm_argInt_x86 self (conv TInt x).
Definition dc_callvm_argShort_x86 (self : DCCallVM_x86) (x : Z) :=
  dc_callvm_argInt_x86 self (conv TInt x).
Definition dc_callvm_argLong_x86 (self : DCCallVM_x86) (x : Z) :=
  dc_callvm_argInt_x86 self (conv TInt x).
Definition dc_callvm_argLongLong_x86 (self : DCCallVM_x86) (x : Z) : option DCCallVM_x86 :=
  x86_append self (enc LittleEndian 8 x).
Definition dc_callvm_argFloat_x86 (self : DCCallVM_x86) (x : Z) : option DCCallVM_x86 :=
  x86_append self (enc LittleEndian 4 x).
Definition dc_callvm_argDouble_x86 (self : DCCallVM_x86) (x : Z) : option DCCallVM_x86 :=
  x86_append self (enc LittleEndian 8 x).
Definition dc_callvm_argPointer_x86 (self : DCCallVM_x86) (x : Z) : option DCCallVM_x86 :=
  x86_append self (enc LittleEndian 4 x).

(** *** Fastcall: the first two integers go to the reserved first eight bytes *)

Definition dc_callvm_reset_x86_win32_fast (self : DCCallVM_x86) : option DCCallVM_x86 :=
  Some (w_with_regs 0 (w_with_vec (dcVecResize (w_vec self) (4 * 2)) self)).

Definition dc_callvm_argInt_x86_win32_fast_ms (self : DCCallVM_x86) (x : Z) : option DCCallVM_x86 :=
  if mIntRegs self <? 2 then
    v ← dcVecStore (w_vec self) (4 * mIntRegs self) (enc LittleEndian 4 x);
    Some (w_with_regs (mIntRegs self + 1) (w_with_vec v self))
  else x86_append self (enc LittleEndian 4 x).
Definition dc_callvm_argBool_x86_win32_fast_ms (self : DCCallVM_x86) (x : Z) :=
  dc_callvm_argInt_x86_win32_fast_ms self (conv TInt x).
Definition dc_callvm_argChar_x86_win32_fast_ms (self : DCCallVM_x86) (x : Z) :=
  dc_callvm_argInt_x86_win32_fast_ms self (conv TInt x).
Definition dc_callvm_argShort_x86_win32_fast_ms (self : DCCallVM_x86) (x : Z) :=
  dc_callvm_argInt_x86_win32_fast_ms self (conv TInt x).
Definition dc_callvm_argLong_x86_win32_fast_ms (self : DCCallVM_x86) (x : Z) :=
  dc_callvm_argInt_x86_win32_fast_ms self (conv TInt x).
Definition dc_callvm_argPointer_x86_win32_fast_ms (self : DCCallVM_x86) (x : Z) :=
  dc_callvm_argInt_x86_win32_fast_ms self (conv TInt x).

Definition dc_callvm_argInt_x86_win32_fast_gnu (self : DCCallVM_x86) (x : Z) : option DCCallVM_x86 :=
  if mIntRegs self <? 2 then
    v ← dcVecStore (w_vec self) (4 * mIntRegs self) (enc LittleEndian 4 x);
    Some (w_with_regs (mIntRegs self + 1) (w_with_vec v self))
  else x86_append self (enc LittleEndian 4 x).
Definition dc_callvm_argBool_x86_win32_fast_gnu (self : DCCallVM_x86) (x : Z) :=
  dc_callvm_argInt_x86_win32_fast_gnu self (conv TInt x).
Definition dc_callvm_argChar_x86_win32_fast_gnu (self : DCCallVM_x86) (x : Z) :=
  dc_callvm_argInt_x86_win32_fast_gnu self (conv TInt x).
Definition dc_callvm_argShort_x86_win32_fast_gnu (self : DCCallVM_x86) (x : Z) :=
  dc_callvm_argInt_x86_win32_fast_gnu self (conv TInt x).
Definition dc_callvm_argLong_x86_win32_fast_gnu (self : DCCallVM_x86) (x : Z) :=
  dc_callvm_argInt_x86_win32_fast_gnu self (conv TInt x).
Definition dc_callvm_argPointer_x86_win32_fast_gnu (self : DCCallVM_x86) (x : Z) :=
  dc_callvm_argInt_x86_win32_fast_gnu self (conv TInt x).
Definition dc_callvm_argLongLong_x86_win32_fast_gnu (self : DCCallVM_x86) (x : Z) :=
  dc_callvm_argLongLong_x86 (w_with_regs 2 self) x.

(** ** Calls: what each kernel of dyncall_call_x86.S receives *)

Inductive x86_conv :=
  | KPlan9 | KPlan9_ll | KCdecl | KStd | KFast | KMsThis | KSyscallLinux | KSyscallBsd.

Record x86_kernel := dcCall_x86 { k_conv : x86_conv; k_target : Z; k_data : list Z }.

Definition x86_call (c : x86_conv) (self : DCCallVM_x86) (target : Z) : x86_kernel :=
  dcCall_x86 c target (vec_bytes (w_vec self)).

Definition dc_callvm_call_x86_plan9 := x86_call KPlan9.
Definition dc_callvm_call_x86_plan9_ll := x86_call KPlan9_ll.
Definition dc_callvm_call_x86_cdecl := x86_call KCdecl.
Definition dc_callvm_call_x86_win32_std := x86_call KStd.
Definition dc_callvm_call_x86_win32_fast := x86_call KFast.
Definition dc_callvm_call_x86_win32_this_ms := x86_call KMsThis.
Definition dc_callvm_call_x86_syscall_int80h_linux := x86_call KSyscallLinux.
Definition dc_callvm_call_x86_syscall_int80h_bsd := x86_call KSyscallBsd.

(** Return registers; [st0] holds the floating point value together with the
    type it was loaded from. *)
Record x86_ret := { eax : Z; edx_ret : Z; st0 : option (cty * Z) }.

Section X86.
Variable os : x86_os.
Variable msvc : bool.

Definition is_plan9 : bool := match os with OsPlan9 => true | _ => false end.
Definition is_unix : bool := match os with OsLinux | OsUnix => true | _ => false end.
Definition is_windows : bool := match os with OsWindows => true | _ => false end.

Definition dc_callvm_mode_x86 (self : DCCallVM_x86) (mode : Z) : option DCCallVM_x86 :=
  let unsupported := w_with_vt (w_vt self) DC_ERROR_UNSUPPORTED_MODE self in
  let base_init vt := w_with_vt vt DC_ERROR_NONE self in
  let default_mode := (mode =? DC_CALL_C_DEFAULT) || (negb msvc && (mode =? DC_CALL_C_DEFAULT_THIS))
    || (mode =? DC_CALL_C_ELLIPSIS) || (mode =? DC_CALL_C_ELLIPSIS_VARARGS) in
  Some
    (if is_plan9 then
       if default_mode || (mode =? DC_CALL_C_X86_PLAN9) then base_init gVT_x86_plan9_p else unsupported
     else if default_mode || (mode =? DC_CALL_C_X86_CDECL) then base_init gVT_x86_cdecl_p
     else if mode =? DC_CALL_C_X86_WIN32_STD then base_init gVT_x86_win32_std_p
     else if mode =? DC_CALL_C_X86_WIN32_FAST_MS then base_init gVT_x86_win32_fast_ms_p
     else if (msvc && (mode =? DC_CALL_C_DEFAULT_THIS)) || (mode =? DC_CALL_C_X86_WIN32_THIS_MS)
     then base_init gVT_x86_win32_this_ms_p
     else if mode =? DC_CALL_C_X86_WIN32_FAST_GNU then base_init gVT_x86_win32_fast_gnu_p
     else if mode =? DC_CALL_SYS_DEFAULT then
       match os with
       | OsLinux => base_init gVT_x86_syscall_int80h_linux_p
       | OsUnix => base_init gVT_x86_syscall_int80h_bsd_p
       | _ => unsupported
       end
     else if mode =? DC_CALL_SYS_X86_INT80H_LINUX then base_init gVT_x86_syscall_int80h_linux_p
     else if mode =? DC_CALL_SYS_X86_INT80H_BSD then base_init gVT_x86_syscall_int80h_bsd_p
     else unsupported).

Definition gVT_x86_plan9 : DCCallVM_vt DCCallVM_x86 x86_kernel x86_ret := Build_DCCallVM_vt
  dc_callvm_free_x86
  dc_callvm_reset_x86
  dc_callvm_mode_x86
  dc_callvm_argBool_x86
  dc_callvm_argChar_x86
  dc_callvm_argShort_x86
  dc_callvm_argInt_x86
  dc_callvm_argLong_x86
  dc_callvm_argLongLong_x86
  dc_callvm_argFloat_x86
  dc_callvm_argDouble_x86
  dc_callvm_argPointer_x86
  None (* argAggr *)
  dc_callvm_call_x86_plan9
  dc_callvm_call_x86_plan9
  dc_callvm_call_x86_plan9
  dc_callvm_call_x86_plan9
  dc_callvm_call_x86_plan9
  dc_callvm_call_x86_plan9
  dc_callvm_call_x86_plan9_ll
  dc_callvm_call_x86_plan9
  dc_callvm_call_x86_plan9
  dc_callvm_call_x86_plan9
  None (* callAggr *)
  None (* beginAggr *).

Definition gVT_x86_cdecl : DCCallVM_vt DCCallVM_x86 x86_kernel x86_ret := Build_DCCallVM_vt
  dc_callvm_free_x86
  dc_callvm_reset_x86
  dc_callvm_mode_x86
  dc_callvm_argBool_x86
  dc_callvm_argChar_x86
  dc_callvm_argShort_x86
  dc_callvm_argInt_x86
  dc_callvm_argLong_x86
  dc_callvm_argLongLong_x86
  dc_callvm_argFloat_x86
  dc_callvm_argDouble_x86
  dc_callvm_argPointer_x86
  None (* argAggr *)
  dc_callvm_call_x86_cdecl
  dc_callvm_call_x86_cdecl
  dc_callvm_call_x86_cdecl
  dc_callvm_call_x86_cdecl
  dc_callvm_call_x86_cdecl
  dc_callvm_call_x86_cdecl
  dc_callvm_call_x86_cdecl
  dc_callvm_call_x86_cdecl
  dc_callvm_call_x86_cdecl
  dc_callvm_call_x86_cdecl
  None (* callAggr *)
  None (* beginAggr *).

Definition gVT_x86_win32_std : DCCallVM_vt DCCallVM_x86 x86_kernel x86_ret := Build_DCCallVM_vt
  dc_callvm_free_x86
  dc_callvm_reset_x86
  dc_callvm_mode_x86
  dc_callvm_argBool_x86
  dc_callvm_argChar_x86
  dc_callvm_argShort_x86
  dc_callvm_argInt_x86
  dc_callvm_argLong_x86
  dc_callvm_argLongLong_x86
  dc_callvm_argFloat_x86
  dc_callvm_argDouble_x86
  dc_callvm_argPointer_x86
  None (* argAggr *)
  dc_callvm_call_x86_win32_std
  dc_callvm_call_x86_win32_std
  dc_callvm_call_x86_win32_std
  dc_callvm_call_x86_win32_std
  dc_callvm_call_x86_win32_std
  dc_callvm_call_x86_win32_std
  dc_callvm_call_x86_win32_std
  dc_callvm_call_x86_win32_std
  dc_callvm_call_x86_win32_std
  dc_callvm_call_x86_win32_std
  None (* callAggr *)
  None (* beginAggr *).

Definition gVT_x86_win32_fast_ms : DCCallVM_vt DCCallVM_x86 x86_kernel x86_ret := Build_DCCallVM_vt
  dc_callvm_free_x86
  dc_callvm_reset_x86_win32_fast
  dc_callvm_mode_x86
  dc_callvm_argBool_x86_win32_fast_ms
  dc_callvm_argChar_x86_win32_fast_ms
  dc_callvm_argShort_x86_win32_fast_ms
  dc_callvm_argInt_x86_win32_fast_ms
  dc_callvm_argLong_x86_win32_fast_ms
  dc_callvm_argLongLong_x86
  dc_callvm_argFloat_x86
  dc_callvm_argDouble_x86
  dc_callvm_argPointer_x86_win32_fast_ms
  None (* argAggr *)
  dc_callvm_call_x86_win32_fast
  dc_callvm_call_x86_win32_fast
  dc_callvm_call_x86_win32_fast
  dc_callvm_call_x86_win32_fast
  dc_callvm_call_x86_win32_fast
  dc_callvm_call_x86_win32_fast
  dc_callvm_call_x86_win32_fast
  dc_callvm_call_x86_win32_fast
  dc_callvm_call_x86_win32_fast
  dc_callvm_call_x86_win32_fast
  None (* callAggr *)
  None (* beginAggr *).

Definition gVT_x86_win32_fast_gnu : DCCallVM_vt DCCallVM_x86 x86_kernel x86_ret := Build_DCCallVM_vt
  dc_callvm_free_x86
  dc_callvm_reset_x86_win32_fast
  dc_callvm_mode_x86
  dc_callvm_argBool_x86_win32_fast_gnu
  dc_callvm_argChar_x86_win32_fast_gnu
  dc_callvm_argShort_x86_win32_fast_gnu
  dc_callvm_argInt_x86_win32_fast_gnu
  dc_callvm_argLong_x86_win32_fast_gnu
  dc_callvm_argLongLong_x86_win32_fast_gnu
  dc_callvm_argFloat_x86
  dc_callvm_argDouble_x86
  dc_callvm_argPointer_x86_win32_fast_gnu
  None (* argAggr *)
  dc_callvm_call_x86_win32_fast
  dc_callvm_call_x86_win32_fast
  dc_callvm_call_x86_win32_fast
  dc_callvm_call_x86_win32_fast
  dc_callvm_call_x86_win32_fast
  dc_callvm_call_x86_win32_fast
  dc_callvm_call_x86_win32_fast
  dc_callvm_call_x86_win32_fast
  dc_callvm_call_x86_win32_fast
  dc_callvm_call_x86_win32_fast
  None (* callAggr *)
  None (* beginAggr *).

Definition gVT_x86_win32_this_ms : DCCallVM_vt DCCallVM_x86 x86_kernel x86_ret := Build_DCCallVM_vt
  dc_callvm_free_x86
  dc_callvm_reset_x86
  dc_callvm_mode_x86
  dc_callvm_argBool_x86
  dc_callvm_argChar_x86
  dc_callvm_argShort_x86
  dc_callvm_argInt_x86
  dc_callvm_argLong_x86
  dc_callvm_argLongLong_x86
  dc_callvm_argFloat_x86
  dc_callvm_argDouble_x86
  dc_callvm_argPointer_x86
  None (* argAggr *)
  dc_callvm_call_x86_win32_this_ms
  dc_callvm_call_x86_win32_this_ms
  dc_callvm_call_x86_win32_this_ms
  dc_callvm_call_x86_win32_this_ms
  dc_callvm_call_x86_win32_this_ms
  dc_callvm_call_x86_win32_this_ms
  dc_callvm_call_x86_win32_this_ms
  dc_callvm_call_x86_win32_this_ms
  dc_callvm_call_x86_win32_this_ms
  dc_callvm_call_x86_win32_this_ms
  None (* callAggr *)
  None (* beginAggr *).

Definition gVT_x86_syscall_int80h_linux : DCCallVM_vt DCCallVM_x86 x86_kernel x86_ret := Build_DCCallVM_vt
  dc_callvm_free_x86
  dc_callvm_reset_x86
  dc_callvm_mode_x86
  dc_callvm_argBool_x86
  dc_callvm_argChar_x86
  dc_callvm_argShort_x86
  dc_callvm_argInt_x86
  dc_callvm_argLong_x86
  dc_callvm_argLongLong_x86
  dc_callvm_argFloat_x86
  dc_callvm_argDouble_x86
  dc_callvm_argPointer_x86
  None (* argAggr *)
  dc_callvm_call_x86_syscall_int80h_linux
  dc_callvm_call_x86_syscall_int80h_linux
  dc_callvm_call_x86_syscall_int80h_linux
  dc_callvm_call_x86_syscall_int80h_linux
  dc_callvm_call_x86_syscall_int80h_linux
  dc_callvm_call_x86_syscall_int80h_linux
  dc_callvm_call_x86_syscall_int80h_linux
  dc_callvm_call_x86_syscall_int80h_linux
  dc_callvm_call_x86_syscall_int80h_linux
  dc_callvm_call_x86_syscall_int80h_linux
  None (* callAggr *)
  None (* beginAggr *).

Definition gVT_x86_syscall_int80h_bsd : DCCallVM_vt DCCallVM_x86 x86_kernel x86_ret := Build_DCCallVM_vt
  dc_callvm_free_x86
  dc_callvm_reset_x86
  dc_callvm_mode_x86
  dc_callvm_argBool_x86
  dc_callvm_argChar_x86
  dc_callvm_argShort_x86
  dc_callvm_argInt_x86
  dc_callvm_argLong_x86
  dc_callvm_argLongLong_x86
  dc_callvm_argFloat_x86
  dc_callvm_argDouble_x86
  dc_callvm_argPointer_x86
  None (* argAggr *)
  dc_callvm_call_x86_syscall_int80h_bsd
  dc_callvm_call_x86_syscall_int80h_bsd
  dc_callvm_call_x86_syscall_int80h_bsd
  dc_callvm_call_x86_syscall_int80h_bsd
  dc_callvm_call_x86_syscall_int80h_bsd
  dc_callvm_call_x86_syscall_int80h_bsd
  dc_callvm_call_x86_syscall_int80h_bsd
  dc_callvm_call_x86_syscall_int80h_bsd
  dc_callvm_call_x86_syscall_int80h_bsd
  dc_callvm_call_x86_syscall_int80h_bsd
  None (* callAggr *)
  None (* beginAggr *).

#[export] Instance x86_CallVM : CallVM DCCallVM_x86 x86_vt x86_kernel x86_ret := {
  mVTpointer := w_vt;
  mError := w_mError;
  deref v := match v with
             | gVT_x86_plan9_p => gVT_x86_plan9
             | gVT_x86_cdecl_p => gVT_x86_cdecl
             | gVT_x86_win32_std_p => gVT_x86_win32_std
             | gVT_x86_win32_fast_ms_p => gVT_x86_win32_fast_ms
             | gVT_x86_win32_fast_gnu_p => gVT_x86_win32_fast_gnu
             | gVT_x86_win32_this_ms_p => gVT_x86_win32_this_ms
             | gVT_x86_syscall_int80h_linux_p => gVT_x86_syscall_int80h_linux
             | gVT_x86_syscall_int80h_bsd_p => gVT_x86_syscall_int80h_bsd
             end;
}.

(** [dcNewCallVM]: [mem] is the uninitialised header, [alloc] the bytes behind
    it ([None]: the allocation failed, which the code does not check). *)
Definition dcNewCallVM (mem : DCCallVM_x86) (alloc : option (list Z)) (size : Z)
    : option DCCallVM_x86 :=
  alloc ← alloc;
  p ← dc_callvm_mode_x86 mem DC_CALL_C_DEFAULT;
  dc_callvm_reset_x86 (w_with_vec (dcVecInit alloc size) p).

(** ** The call kernels (dyncall_call_x86.S)

    The callee is entered with [cpu_stack] above the return address; [pushed]
    is the number of argument bytes the kernel put there.  The kernels for
    fastcall and thiscall take 8 or 4 bytes off the vector for registers; a
    shorter vector makes the copied size wrap around.  The kernel for cdecl
    rounds the size up; that tail is not argument data and left out. *)

Record x86_cpu := { ecx : Z; edx : Z; cpu_stack : list Z }.

Definition kernel_enter (cpu0 : x86_cpu) (k : x86_kernel) : option x86_cpu :=
  match k_conv k with
  | KCdecl | KStd => Some {| ecx := ecx cpu0; edx := edx cpu0; cpu_stack := k_data k |}
  | KMsThis =>
    this ← rd 0 4 (k_data k);
    Some {| ecx := dec LittleEndian this; edx := edx cpu0; cpu_stack := drop 4 (k_data k) |}
  | KFast =>
    r0 ← rd 0 4 (k_data k); r1 ← rd 4 4 (k_data k);
    Some {| ecx := dec LittleEndian r0; edx := dec LittleEndian r1; cpu_stack := drop 8 (k_data k) |}
  | _ => None (* enters the operating system, or Plan 9's own kernels *)
  end.

(** ** Callbacks (dyncall_args_x86.{h,c}, dyncall_callback_x86.c) *)

Inductive DCArgsVT := dcArgsVT_default | dcArgsVT_this_ms | dcArgsVT_fast_ms | dcArgsVT_fast_gnu.

#[export] Instance DCArgsVT_eq_dec : EqDecision DCArgsVT.
Proof. solve_decision. Defined.

Record DCArgs := {
  vt : DCArgsVT;
  stack_ptr : Z;
  fast_data : list Z;
  fast_count : Z;
  args_stack : list Z;
}.

Definition a_with_sp (sp : Z) (p : DCArgs) : DCArgs :=
  {| vt := vt p; stack_ptr := sp; fast_data := fast_data p; fast_count := fast_count p;
     args_stack := args_stack p |}.
Definition a_with_count (n : Z) (p : DCArgs) : DCArgs :=
  {| vt := vt p; stack_ptr := stack_ptr p; fast_data := fast_data p; fast_count := n;
     args_stack := args_stack p |}.
Definition a_with_data (d : list Z) (p : DCArgs) : DCArgs :=
  {| vt := vt p; stack_ptr := stack_ptr p; fast_data := d; fast_count := fast_count p;
     args_stack := args_stack p |}.

Definition default_i32 : SO DCArgs Z := fun args =>
  bs ← rd (stack_ptr args) 4 (args_stack args);
  Some (conv TInt (dec LittleEndian bs), a_with_sp (stack_ptr args + 4) args).
Definition default_i64 : SO DCArgs Z := fun args =>
  bs ← rd (stack_ptr args) 8 (args_stack args);
  Some (conv TLongLong (dec LittleEndian bs), a_with_sp (stack_ptr args + 8) args).
Definition default_f32 : SO DCArgs Z := fun args =>
  bs ← rd (stack_ptr args) 4 (args_stack args);
  Some (dec LittleEndian bs, a_with_sp (stack_ptr args + 4) args).
Definition default_f64 : SO DCArgs Z := fun args =>
  bs ← rd (stack_ptr args) 8 (args_stack args);
  Some (dec LittleEndian bs, a_with_sp (stack_ptr args + 8) args).

Definition this_i32 : SO DCArgs Z := fun args =>
  this ← aget 0 (fast_data args);
  if negb (conv TInt this =? 0) then
    d ← aset 0 0 (fast_data args); Some (conv TInt this, a_with_data d args)
  else default_i32 args.

Definition fast_i32 : SO DCArgs Z := fun args =>
  if fast_count args <? 2 then
    x ← aget (fast_count args) (fast_data args);
    Some (conv TInt x, a_with_count (fast_count args + 1) args)
  else default_i32 args.

Definition fast_gnu_i64 : SO DCArgs Z := fun args =>
  default_i64 (a_with_count (fast_count args + 2) args).

Definition vt_i32 (v : DCArgsVT) : SO DCArgs Z :=
  match v with
  | dcArgsVT_default => default_i32
  | dcArgsVT_this_ms => this_i32
  | dcArgsVT_fast_ms | dcArgsVT_fast_gnu => fast_i32
  end.
Definition vt_i64 (v : DCArgsVT) : SO DCArgs Z :=
  match v with dcArgsVT_fast_gnu => fast_gnu_i64 | _ => default_i64 end.

Definition dcbArgInt : SO DCArgs Z := fun p => vt_i32 (vt p) p.
Definition dcbArgLongLong : SO DCArgs Z := fun p => vt_i64 (vt p) p.
Definition dcbArgFloat : SO DCArgs Z := fun p => default_f32 p.
Definition dcbArgDouble : SO DCArgs Z := fun p => default_f64 p.
Definition dcbArgBool : SO DCArgs Z := x ← dcbArgInt; mret (if x =? 0 then 0 else 1).
Definition dcbArgChar : SO DCArgs Z := x ← dcbArgInt; mret (conv TChar x).
Definition dcbArgShort : SO DCArgs Z := x ← dcbArgInt; mret (conv TShort x).
Definition dcbArgLong : SO DCArgs Z := x ← dcbArgInt; mret (conv TLong x).
Definition dcbArgPointer : SO DCArgs Z := x ← dcbArgInt; mret (conv TPointer x).
Definition dcbArgUInt : SO DCArgs Z := x ← dcbArgInt; mret (conv TUInt x).
Definition dcbArgUChar : SO DCArgs Z := x ← dcbArgChar; mret (conv TUChar x).
Definition dcbArgUShort : SO DCArgs Z := x ← dcbArgShort; mret (conv TUShort x).
Definition dcbArgULong : SO DCArgs Z := x ← dcbArgLong; mret (conv TULong x).
Definition dcbArgULongLong : SO DCArgs Z := x ← dcbArgLongLong; mret (conv TULongLong x).

#[export] Instance x86_ArgReader : ArgReader DCArgs := {
  dcbArg t := match t with
    | TBool => dcbArgBool | TChar => dcbArgChar | TUChar => dcbArgUChar
    | TShort => dcbArgShort | TUShort => dcbArgUShort | TInt => dcbArgInt
    | TUInt => dcbArgUInt | TLong => dcbArgLong | TULong => dcbArgULong
    | TLongLong => dcbArgLongLong | TULongLong => dcbArgULongLong
    | TFloat => dcbArgFloat | TDouble => dcbArgDouble
    | TPointer | TString => dcbArgPointer
    end;
}.

(** *** Bytes a callee-cleanup callback pops

    Each function walks the signature up to [')']; running past its end is
    undefined. *)

Definition is_i32 (t : cty) : bool :=
  match t with TFloat | TDouble | TLongLong | TULongLong => false | _ => true end.
Definition cleanup_bytes (t : cty) : Z :=
  match t with TDouble | TLongLong | TULongLong => 8 | _ => 4 end.

Definition dcbCleanupSize_x86_cdecl (signature : list DCsigchar) : option Z := Some 0.

Fixpoint dcbCleanupSize_x86_std (signature : list DCsigchar) : option Z :=
  match signature with
  | [] => None
  | ch :: ptr =>
    if Ascii.eqb ch DC_SIGCHAR_ENDARG then Some 0
    else size ← dcbCleanupSize_x86_std ptr;
         Some (match cty_of_sigchar ch with Some t => cleanup_bytes t + size | None => size end)
  end.

Definition dcbCleanupSize_x86_this_ms := dcbCleanupSize_x86_std.

Fixpoint cleanup_fast_ms (signature : list DCsigchar) (regs : Z) : option Z :=
  match signature with
  | [] => None
  | ch :: ptr =>
    if Ascii.eqb ch DC_SIGCHAR_ENDARG then Some 0
    else match cty_of_sigchar ch with
    | Some t =>
      if is_i32 t && (regs <? 2) then cleanup_fast_ms ptr (regs + 1)
      else size ← cleanup_fast_ms ptr regs; Some (cleanup_bytes t + size)
    | None => cleanup_fast_ms ptr regs
    end
  end.
Definition dcbCleanupSize_x86_fast_ms (signature : list DCsigchar) : option Z :=
  cleanup_fast_ms signature 0.

Fixpoint cleanup_fast_gnu (signature : list DCsigchar) (regs : Z) : option Z :=
  match signature with
  | [] => None
  | ch :: ptr =>
    if Ascii.eqb ch DC_SIGCHAR_ENDARG then Some 0
    else match cty_of_sigchar ch with
    | Some TFloat => size ← cleanup_fast_gnu ptr regs; Some (4 + size)
    | Some TDouble => size ← cleanup_fast_gnu ptr regs; Some (8 + size)
    | Some (TLongLong | TULongLong) => size ← cleanup_fast_gnu ptr 2; Some (8 + size)
    | _ =>
      if regs <? 2 then cleanup_fast_gnu ptr (regs + 1)
      else size ← cleanup_fast_gnu ptr regs; Some (4 + size)
    end
  end.
Definition dcbCleanupSize_x86_fast_gnu (signature : list DCsigchar) : option Z :=
  cleanup_fast_gnu signature 0.

(** [args_vt] and [stack_cleanup] keep what the memory held when the mode has
    no [case]. *)
Record DCCallback := {
  cb_handler : Z;
  cb_args_vt : option DCArgsVT;
  cb_stack_cleanup : option Z;
  cb_userdata : Z;
}.

(** Plan 9 uses [stack_cleanup] as a flag for 64-bit results instead. *)
Fixpoint plan9_flag (ptr : list DCsigchar) : option Z :=
  match ptr with
  | [] => None
  | ch :: ptr =>
    if Ascii.eqb ch DC_SIGCHAR_ENDARG then
      Some (match ptr with
            | r :: _ => if Ascii.eqb r DC_SIGCHAR_LONGLONG || Ascii.eqb r DC_SIGCHAR_ULONGLONG then 1 else 0
            | [] => 0
            end)
    else plan9_flag ptr
  end.

(** [msc]: [DC__C_MSVC]. *)
Definition dcbInitCallback2 (msc : bool) (signature : list DCsigchar) (handler userdata : Z)
    : option DCCallback :=
  '(mode, ptr) ← match signature with
    | c :: rest =>
      if Ascii.eqb c DC_SIGCHAR_CC_PREFIX then
        match rest with
        | m :: ptr => Some (dcGetModeFromCCSigChar m, ptr)
        | [] => None (* skips the terminating NUL *)
        end
      else Some (DC_CALL_C_X86_CDECL, signature)
    | [] => Some (DC_CALL_C_X86_CDECL, signature)
    end;
  let mk v size := size ← size; Some (Build_DCCallback handler (Some v) (Some size) userdata) in
  cb ←
    if mode =? DC_CALL_C_X86_CDECL then mk dcArgsVT_default (dcbCleanupSize_x86_cdecl ptr)
    else if mode =? DC_CALL_C_X86_WIN32_STD then mk dcArgsVT_default (dcbCleanupSize_x86_std ptr)
    else if mode =? DC_CALL_C_X86_WIN32_FAST_MS then mk dcArgsVT_fast_ms (dcbCleanupSize_x86_fast_ms ptr)
    else if mode =? DC_CALL_C_X86_WIN32_FAST_GNU then mk dcArgsVT_fast_gnu (dcbCleanupSize_x86_fast_gnu ptr)
    else if (is_windows && msc && (mode =? DC_CALL_C_DEFAULT_THIS)) || (mode =? DC_CALL_C_X86_WIN32_THIS_MS)
    then mk dcArgsVT_this_ms (dcbCleanupSize_x86_this_ms ptr)
    else Some (Build_DCCallback handler None None userdata);
  match (if is_plan9 then plan9_flag ptr else None) with
  | Some flag => Some (Build_DCCallback handler (cb_args_vt cb) (Some flag) userdata)
  | None => Some cb
  end.

(** The thunk entry (dyncall_callback_x86.S) builds the [DCArgs]; a callback
    without a reader table cannot be entered. *)
Definition dcCallbackThunkEntry (cb : DCCallback) (cpu : x86_cpu) : option DCArgs :=
  v ← cb_args_vt cb;
  Some {| vt := v; stack_ptr := 0; fast_data := [ecx cpu; edx cpu]; fast_count := 0;
          args_stack := cpu_stack cpu |}.

(** On return, the result is loaded from the 8-byte [DCValue] as the handler's
    result character says ([r0]: what the other registers hold), and
    [stack_cleanup] bytes are popped.  On Minix ([minix]) the character is not
    looked at. *)
Definition dcvalue_set (t : cty) (x : Z) (result : list Z) : option (list Z) :=
  wr 0 (enc LittleEndian (Z.to_nat (sizeof_cty t)) x) result.

Definition callback_exit (minix : bool) (r0 : x86_ret) (ch : DCsigchar) (result : list Z) : option x86_ret :=
  if negb minix && Ascii.eqb ch DC_SIGCHAR_FLOAT then
    bs ← rd 0 4 result;
    Some {| eax := eax r0; edx_ret := edx_ret r0; st0 := Some (TFloat, dec LittleEndian bs) |}
  else if negb minix && Ascii.eqb ch DC_SIGCHAR_DOUBLE then
    bs ← rd 0 8 result;
    Some {| eax := eax r0; edx_ret := edx_ret r0; st0 := Some (TDouble, dec LittleEndian bs) |}
  else
    lo ← rd 0 4 result; hi ← rd 4 4 result;
    Some {| eax := dec LittleEndian lo; edx_ret := dec LittleEndian hi; st0 := None |}.

(** What the C caller of a kernel makes of the return registers. *)
Definition ret_value (t : cty) (r : x86_ret) : option Z :=
  match t with
  | TFloat | TDouble =>
    '(t', x) ← st0 r; if decide (t = t') then Some x else None
  | TLongLong | TULongLong => Some (conv t (eax r + 2 ^ 32 * edx_ret r))
  | _ => Some (conv t (eax r))
  end.

(** [dcbInitThunk] (dyncall_thunk_x86.c). *)
Definition dcbInitThunk (self entry : Z) : list Z :=
  enc LittleEndian 4 0xb8909090 ++ enc LittleEndian 4 self
  ++ enc LittleEndian 4 0x900C60ff ++ enc LittleEndian 4 entry.

(** ** Agreement of VM and reader *)

(** The reader table that goes with a mode. *)
Definition reader_of (v : x86_vt) : option DCArgsVT :=
  match v with
  | gVT_x86_cdecl_p | gVT_x86_win32_std_p => Some dcArgsVT_default
  | gVT_x86_win32_fast_ms_p => Some dcArgsVT_fast_ms
  | gVT_x86_win32_fast_gnu_p => Some dcArgsVT_fast_gnu
  | gVT_x86_win32_this_ms_p => Some dcArgsVT_this_ms
  | _ => None
  end.

Definition is_fast (v : DCArgsVT) : bool :=
  match v with dcArgsVT_fast_ms | dcArgsVT_fast_gnu => true | _ => false end.

(** Bytes at the start of the vector that travel in registers. *)
Definition reg_bytes (v : DCArgsVT) : Z :=
  match v with
  | dcArgsVT_default => 0
  | dcArgsVT_this_ms => 4
  | dcArgsVT_fast_ms | dcArgsVT_fast_gnu => 8
  end.

Definition arg_bytes (t : cty) (x : Z) : list Z := enc LittleEndian (if cleanup_bytes t =? 8 then 8 else 4) x.

(** What is passed for a value: small unsigned types go through their signed
    counterpart, which sign extends. *)
Definition pushed (t : cty) (x : Z) : Z :=
  match t with TUChar => conv TChar x | TUShort => conv TShort x | _ => x end.

(** All argument operations of all modes in one. *)
Definition x86_push (v : DCArgsVT) (vm : DCCallVM_x86) (t : cty) (x : Z) : option DCCallVM_x86 :=
  if is_i32 t && is_fast v && (mIntRegs vm <? 2) then
    w ← dcVecStore (w_vec vm) (4 * mIntRegs vm) (arg_bytes t x);
    Some (w_with_regs (mIntRegs vm + 1) (w_with_vec w vm))
  else
    x86_append (match v, t with
                | dcArgsVT_fast_gnu, (TLongLong | TULongLong) => w_with_regs 2 vm
                | _, _ => vm
                end) (arg_bytes t x).

Lemma enc4_conv t x : ty_bits t = 32 -> enc LittleEndian 4 (conv t x) = enc LittleEndian 4 x.
Proof.
  intros Ht. rewrite <- (enc_wrapU _ 4 (conv t x)), <- (enc_wrapU _ 4 x). f_equal.
  change (8 * Z.of_nat 4) with (ty_bits TUInt). change (wrapU (ty_bits TUInt)) with (conv TUInt).
  apply conv_conv. rewrite Ht. done.
Qed.

Lemma enc8_conv x : enc LittleEndian 8 (conv TLongLong x) = enc LittleEndian 8 x.
Proof. apply (enc_wrapS _ 8). lia. Qed.

Lemma push_arg_x86 vm a v :
  reader_of (w_vt vm) = Some v ->
  push_arg (C := x86_CallVM) vm a = x86_push v vm (a_ty a) (pushed (a_ty a) (a_val a)).
Proof.
  destruct a as [t x]. intros Hv. cbn [a_ty a_val] in *.
  unfold push_arg, dcArgBool, dcArgChar, dcArgShort, dcArgInt, dcArgLong, dcArgLongLong, dcArgPointer,
    dcArgFloat, dcArgDouble, vtable, x86_push, arg_bytes; cbn [a_ty a_val].
  assert (Ei : forall y, enc LittleEndian 4 (conv TInt y) = enc LittleEndian 4 y)
    by (intros; by apply enc4_conv).
  assert (El : forall y, enc LittleEndian 4 (conv TLong y) = enc LittleEndian 4 y)
    by (intros; by apply enc4_conv).
  destruct (w_vt vm) eqn:Evt; try done; injection Hv as <-;
    destruct t; cbv beta iota zeta delta [deref x86_CallVM mVTpointer]; rewrite ?Evt;
    cbv beta iota zeta delta [vt_argBool vt_argChar vt_argShort vt_argInt vt_argLong vt_argLongLong
      vt_argFloat vt_argDouble vt_argPointer gVT_x86_cdecl gVT_x86_win32_std gVT_x86_win32_fast_ms
      gVT_x86_win32_fast_gnu gVT_x86_win32_this_ms pushed is_i32 is_fast andb cleanup_bytes
      dc_callvm_argBool_x86 dc_callvm_argChar_x86 dc_callvm_argShort_x86 dc_callvm_argLong_x86
      dc_callvm_argInt_x86 dc_callvm_argLongLong_x86 dc_callvm_argFloat_x86 dc_callvm_argDouble_x86
      dc_callvm_argPointer_x86
      dc_callvm_argBool_x86_win32_fast_ms dc_callvm_argChar_x86_win32_fast_ms
      dc_callvm_argShort_x86_win32_fast_ms dc_callvm_argLong_x86_win32_fast_ms
      dc_callvm_argInt_x86_win32_fast_ms dc_callvm_argPointer_x86_win32_fast_ms
      dc_callvm_argBool_x86_win32_fast_gnu dc_callvm_argChar_x86_win32_fast_gnu
      dc_callvm_argShort_x86_win32_fast_gnu dc_callvm_argLong_x86_win32_fast_gnu
      dc_callvm_argInt_x86_win32_fast_gnu dc_callvm_argPointer_x86_win32_fast_gnu
      dc_callvm_argLongLong_x86_win32_fast_gnu];
    rewrite ?Ei, ?El, ?Ei, ?enc8_conv; done.
Qed.

Lemma conv_pushed t x : val_ok t x -> conv t (pushed t x) = x.
Proof.
  intros Hx%val_ok_conv. destruct t; cbn [pushed]; try done; (etrans; [apply conv_conv; cbn; lia|done]).
Qed.

(** *** Reading *)

Lemma read_i32 t x y p p' :
  is_i32 t = true -> val_ok t x -> conv t y = x -> dcbArgInt p = Some (conv TInt y, p') ->
  dcbArg t p = Some (x, p').
Proof.
  intros Ht Hx Hy H. pose proof (val_ok_conv _ _ Hx) as Hc.
  destruct t; try done; cbn [dcbArg x86_ArgReader];
    unfold dcbArgBool, dcbArgUInt, dcbArgUChar, dcbArgUShort, dcbArgULong, dcbArgPointer, dcbArgChar,
      dcbArgShort, dcbArgLong, mbind, SO_bind, mret, SO_ret; rewrite H;
    rewrite ?conv_conv by (cbn; lia); rewrite ?Hy, ?Hc; try done.
  - change (conv TInt y) with (conv TBool y). rewrite Hy. by destruct Hx as [-> | ->].
  - change (conv TPointer y) with (conv TString y). by rewrite Hy.
Qed.

Lemma read_i64 t x y p p' :
  t = TLongLong \/ t = TULongLong -> val_ok t x -> conv t y = x ->
  dcbArgLongLong p = Some (conv TLongLong y, p') -> dcbArg t p = Some (x, p').
Proof.
  intros [-> | ->] Hx Hy H; cbn [dcbArg x86_ArgReader]; [by rewrite H, Hy|].
  unfold dcbArgULongLong, mbind, SO_bind, mret, SO_ret. rewrite H.
  rewrite conv_conv by done. by rewrite Hy.
Qed.

End X86.
