(* ===== verification/X86Proofs.v ===== *)
(** * x86: properties

    The five C calling conventions: what the callee finds, what a callback
    reads, and how many bytes a callee-cleanup callback pops. *)

From S2P Require Export X86.

Section Proofs.
Variable os : x86_os.
Variable msvc : bool.
#[local] Instance vm_inst : CallVM DCCallVM_x86 x86_vt x86_kernel x86_ret := x86_CallVM os msvc.

(** [v]: the reader table of the callback. *)
Variable v : DCArgsVT.

Record x86_inv (vm : DCCallVM_x86) : Prop := {
  wi_vt : reader_of (w_vt vm) = Some v;
  wi_vec : vec_wf (w_vec vm) /\ vec_room (w_vec vm) 0;
  wi_fast : is_fast v = true -> 8 <= mSize (w_vec vm) /\ 0 <= mIntRegs vm <= 2;
}.

(** Whether an argument goes to a register, and the effect on the counter. *)
Definition in_reg (t : cty) (regs : Z) : bool := is_i32 t && is_fast v && (regs <? 2).
Definition next_regs (t : cty) (regs : Z) : Z :=
  if in_reg t regs then regs + 1
  else match v, t with dcArgsVT_fast_gnu, (TLongLong | TULongLong) => 2 | _, _ => regs end.

(** The first argument of a thiscall is [this], a non-null pointer; after it
    the vector holds at least that. *)
Definition x86_room (vm : DCCallVM_x86) (a : arg) : Prop :=
  vec_room (w_vec vm) 8 /\
  (v = dcArgsVT_this_ms ->
   (mSize (w_vec vm) = 0 /\ is_i32 (a_ty a) = true /\ conv TInt (pushed (a_ty a) (a_val a)) <> 0)
   \/ 4 <= mSize (w_vec vm)).

(** Bytes that later operations do not touch. *)
Definition settled (vm : DCCallVM_x86) (off : Z) (n : nat) : Prop :=
  is_fast v = true -> 8 <= off \/ 0 <= off /\ off + Z.of_nat n <= 4 * mIntRegs vm.

Record x86_ext (a b : DCCallVM_x86) : Prop := {
  we_regs : mIntRegs a <= mIntRegs b;
  we_read : forall off n bs, settled a off n ->
    rd off n (vec_bytes (w_vec a)) = Some bs -> rd off n (vec_bytes (w_vec b)) = Some bs;
}.

Record x86_at (vm vf : DCCallVM_x86) (p : DCArgs) : Prop := {
  at_vt : vt p = v;
  at_stack : args_stack p = drop (Z.to_nat (reg_bytes v)) (vec_bytes (w_vec vf));
  at_sp : stack_ptr p = if decide (v = dcArgsVT_this_ms /\ mSize (w_vec vm) = 0) then 0
                        else mSize (w_vec vm) - reg_bytes v;
  at_count : is_fast v = true -> 0 <= fast_count p /\
    (fast_count p = mIntRegs vm \/ 2 <= fast_count p /\ 2 <= mIntRegs vm);
  at_data : is_fast v = true -> exists r0 r1, fast_data p = [dec LittleEndian r0; dec LittleEndian r1] /\
    rd 0 4 (vec_bytes (w_vec vf)) = Some r0 /\ rd 4 4 (vec_bytes (w_vec vf)) = Some r1;
  at_this : v = dcArgsVT_this_ms -> exists this rest, fast_data p = this :: rest /\
    if decide (mSize (w_vec vm) = 0)
    then exists r0, this = dec LittleEndian r0 /\ rd 0 4 (vec_bytes (w_vec vf)) = Some r0
    else this = 0;
}.

Lemma x86_ext_refl vm : x86_ext vm vm.
Proof. by constructor. Qed.

Lemma x86_ext_trans a b c : x86_ext a b -> x86_ext b c -> x86_ext a c.
Proof.
  intros [R1 H1] [R2 H2]. constructor; [lia|]. intros off n bs Hs Hr. apply H2; [|by apply H1].
  intros Hf. specialize (Hs Hf). lia.
Qed.

(** Dropping the register bytes shifts the reader's offsets. *)
Lemma rd_skip k off n m bs :
  0 <= k <= off -> rd off n m = Some bs -> rd (off - k) n (drop (Z.to_nat k) m) = Some bs.
Proof.
  intros Hk. unfold rd. rewrite !(proj2 (Z.leb_le _ _)) by lia. rewrite !sublist_lookup_Some'.
  rewrite drop_drop, length_drop. replace (Z.to_nat k + Z.to_nat (off - k))%nat with (Z.to_nat off) by lia.
  intros [? ?]. split; [done|lia].
Qed.

Lemma x86_append_ok vm bs :
  x86_inv vm -> vec_room (w_vec vm) 8 -> (length bs <= 8)%nat ->
  exists vm', x86_append vm bs = Some vm' /\ x86_inv vm' /\ x86_ext vm vm' /\
    w_vt vm' = w_vt vm /\ mIntRegs vm' = mIntRegs vm /\ mTotal (w_vec vm') = mTotal (w_vec vm) /\
    mSize (w_vec vm') = mSize (w_vec vm) + Z.of_nat (length bs) /\
    rd (mSize (w_vec vm)) (length bs) (vec_bytes (w_vec vm')) = Some bs.
Proof.
  intros [Hv [Hw H0] Hf] Hr Hl. unfold x86_append.
  assert (Hr' : vec_room (w_vec vm) (Z.of_nat (length bs))) by (unfold vec_room in *; lia).
  destruct (dcVecAppend_ok (w_vec vm) bs _ Hw eq_refl Hr') as (u & -> & Hwu & Ht & Hs & _ & Hb & _).
  eexists; split; [done|]. unfold vec_room in *. split_and!; cbn; try done.
  - constructor; cbn; [done| |]; [split; [done|unfold vec_room; lia]|]. intros E. specialize (Hf E). lia.
  - constructor; cbn; [lia|]. intros off n bs' _ Hrd. eapply rd_prefix; [|exact Hrd].
    rewrite Hb. by apply prefix_app_r.
  - rewrite Hb. apply rd_app; [|done]. rewrite length_vec_bytes; [done|done|]. unfold vec_room. lia.
Qed.

(** A register argument of fastcall is stored in its slot. *)
Lemma x86_store_ok vm bs :
  x86_inv vm -> is_fast v = true -> mIntRegs vm < 2 -> length bs = 4%nat ->
  exists w, dcVecStore (w_vec vm) (4 * mIntRegs vm) bs = Some w /\
    let vm' := w_with_regs (mIntRegs vm + 1) (w_with_vec w vm) in
    x86_inv vm' /\ x86_ext vm vm' /\ mTotal w = mTotal (w_vec vm) /\ mSize w = mSize (w_vec vm) /\
    rd (4 * mIntRegs vm) 4 (vec_bytes w) = Some bs.
Proof.
  intros [Hv [Hw H0] Hf] E Hlt Hl. destruct (Hf E) as [H8 Hr]. destruct Hw as [Hw1 Hw2 Hw3].
  unfold vec_room in H0.
  destruct (wr (4 * mIntRegs vm) bs (vec_data (w_vec vm))) as [d|] eqn:Hd; cycle 1.
  { rewrite wr_Some in Hd by lia. done. }
  pose proof (length_wr _ _ _ _ Hd) as Hdl.
  unfold dcVecStore. rewrite Hd. cbn [mbind option_bind]. eexists; split; [done|].
  assert (Hrt : forall off n m, off + Z.of_nat n <= mSize (w_vec vm) ->
            rd off n (take (Z.to_nat (mSize (w_vec vm))) m) = rd off n m)
    by (intros; apply rd_take; lia).
  split_and!; cbn; try done.
  - constructor; cbn; [done| |intros _; lia]. split; [|unfold vec_room; cbn; lia].
    constructor; [exact Hw1|cbn; rewrite Hdl; exact Hw2|exact Hw3].
  - constructor; cbn; [lia|]. intros off n bs' Hs Hrd. specialize (Hs E).
    unfold vec_bytes in *; cbn. rewrite <- Hrd.
    destruct (decide (off + Z.of_nat n <= mSize (w_vec vm))) as [Hin|Hout].
    + rewrite !Hrt by done. eapply rd_wr_other; [exact Hd|]. lia.
    + exfalso. apply rd_bound in Hrd. rewrite length_take in Hrd. lia.
  - unfold vec_bytes; cbn. rewrite Hrt by lia. by eapply rd_wr_same.
Qed.

(** *** Reading one argument back *)

(** A stack slot written at the fill level of [vm] is found by the reader
    standing there. *)
Lemma stack_slot vm vm' vf p bs :
  x86_inv vm -> rd (mSize (w_vec vm)) (length bs) (vec_bytes (w_vec vm')) = Some bs ->
  x86_ext vm' vf -> x86_at vm vf p -> ~ (v = dcArgsVT_this_ms /\ mSize (w_vec vm) = 0) ->
  (v = dcArgsVT_this_ms -> 4 <= mSize (w_vec vm)) ->
  rd (stack_ptr p) (length bs) (args_stack p) = Some bs.
Proof.
  intros [_ [Hw _] Hf] Hrd [_ Hx] [_ Hst Hsp _ _ _] Hnt Ht.
  rewrite Hst, Hsp, decide_False by done. apply rd_skip.
  - unfold is_fast, reg_bytes in *. destruct v; try (specialize (Ht eq_refl)); try (specialize (Hf eq_refl));
      pose proof (vwf_size _ Hw); lia.
  - apply Hx; [|done]. intros E. destruct (Hf E). lia.
Qed.

(** The place of the reader after a stack argument. *)
Lemma at_next vm vm' vf p p' n :
  x86_at vm vf p -> vt p' = vt p -> args_stack p' = args_stack p ->
  stack_ptr p' = stack_ptr p + n -> mSize (w_vec vm') = mSize (w_vec vm) + n -> 0 < n ->
  fast_data p' = fast_data p -> 0 <= mSize (w_vec vm) ->
  (is_fast v = true -> 0 <= fast_count p' /\
     (fast_count p' = mIntRegs vm' \/ 2 <= fast_count p' /\ 2 <= mIntRegs vm')) ->
  ~ (v = dcArgsVT_this_ms /\ mSize (w_vec vm) = 0) ->
  x86_at vm' vf p'.
Proof.
  intros [Hv Hst Hsp Hc Hd Ht] Ev Es Esp Esz Hn Ed H0 Hc' Hnt. constructor; [congruence|congruence| |exact Hc'|by rewrite Ed|].
  - rewrite Esp, Hsp, Esz, !decide_False by (done || lia). lia.
  - intros Et. destruct (Ht Et) as (this & rest & E & Hthis). exists this, rest. rewrite Ed. split; [done|].
    rewrite decide_False in Hthis by tauto. rewrite decide_False by lia. done.
Qed.

Lemma fast_reg_read vm vm' vf p y t :
  x86_inv vm -> is_fast v = true -> mIntRegs vm < 2 -> is_i32 t = true ->
  mIntRegs vm' = mIntRegs vm + 1 -> mSize (w_vec vm') = mSize (w_vec vm) ->
  rd (4 * mIntRegs vm) 4 (vec_bytes (w_vec vm')) = Some (arg_bytes t y) ->
  x86_ext vm' vf -> x86_at vm vf p ->
  exists p', dcbArgInt p = Some (conv TInt y, p') /\ x86_at vm' vf p'.
Proof.
  intros [_ _ Hf] E Hlt Ht Er Es Hrd [_ Hx] Hat. destruct (Hf E) as [H8 Hr].
  pose proof Hat as [Hv Hst Hsp Hc Hd Hthis]. destruct (Hc E) as [Hc0 [Hcr|]]; [|lia].
  destruct (Hd E) as (r0 & r1 & Hdata & Hr0 & Hr1).
  apply Hx in Hrd; [|intros _; lia].
  assert (Hbytes : arg_bytes t y = enc LittleEndian 4 y) by (unfold arg_bytes; by destruct t).
  rewrite Hbytes in Hrd.
  assert (Hval : forall k, k = mIntRegs vm -> aget k [dec LittleEndian r0; dec LittleEndian r1]
                                              = Some (wrapU 32 y)).
  { intros k ->. assert (mIntRegs vm = 0 \/ mIntRegs vm = 1) as [E0|E0] by lia; rewrite E0 in Hrd |- *.
    - change (4 * 0) with 0 in Hrd. rewrite Hr0 in Hrd. injection Hrd as ->. by rewrite dec_enc.
    - change (4 * 1) with 4 in Hrd. rewrite Hr1 in Hrd. injection Hrd as ->. by rewrite dec_enc. }
  exists (a_with_count (fast_count p + 1) p). split.
  - unfold dcbArgInt. rewrite Hv.
    assert (vt_i32 v = fast_i32) as -> by (by destruct v). unfold fast_i32.
    rewrite (proj2 (Z.ltb_lt _ _)) by lia. rewrite Hdata, Hval by done. cbn [mbind option_bind].
    do 2 f_equal. apply (wrapS_wrapU 32 32). lia.
  - constructor; cbn; try done; [by rewrite Es| |].
    + intros _. split; [lia|]. left. lia.
    + intros ->. done.
Qed.

Lemma stack_i32_read vm vm' vf p y t :
  x86_inv vm -> is_i32 t = true -> (is_fast v = true -> 2 <= mIntRegs vm) ->
  rd (mSize (w_vec vm)) 4 (vec_bytes (w_vec vm')) = Some (arg_bytes t y) ->
  mSize (w_vec vm') = mSize (w_vec vm) + 4 -> mIntRegs vm' = mIntRegs vm ->
  (v = dcArgsVT_this_ms -> mSize (w_vec vm) = 0 /\ conv TInt y <> 0 \/ 4 <= mSize (w_vec vm)) ->
  x86_ext vm' vf -> x86_at vm vf p ->
  exists p', dcbArgInt p = Some (conv TInt y, p') /\ x86_at vm' vf p'.
Proof.
  intros Hi Ht Hregs Hrd Es Er Hthis Hx Hat.
  pose proof Hat as [Hv Hst Hsp Hc Hd Hth]. pose proof Hi as [_ [Hw _] Hf]. pose proof (vwf_size _ Hw) as Hs0.
  assert (Hb : arg_bytes t y = enc LittleEndian 4 y) by (unfold arg_bytes; by destruct t).
  rewrite Hb in Hrd.
  destruct (decide (v = dcArgsVT_this_ms /\ mSize (w_vec vm) = 0)) as [[E E0]|Hnt].
  - destruct (Hthis E) as [[_ Hne]|]; [|lia].
    destruct (Hth E) as (this & rest & Hdata & H0). rewrite decide_True in H0 by done.
    destruct H0 as (r0 & -> & Hr0).
    destruct Hx as [_ Hx]. rewrite E0 in Hrd. apply Hx in Hrd; [|intros Ef; by rewrite E in Ef].
    rewrite Hr0 in Hrd. injection Hrd as ->.
    assert (Ec : conv TInt (dec LittleEndian (enc LittleEndian 4 y)) = conv TInt y)
      by (rewrite dec_enc; apply (wrapS_wrapU 32 32); lia).
    exists (a_with_data (0 :: rest) p). split.
    + unfold dcbArgInt. rewrite Hv, E. cbn [vt_i32]. unfold this_i32. rewrite Hdata.
      rewrite aget_0. cbn [mbind option_bind]. rewrite Ec, (proj2 (Z.eqb_neq _ _)) by done. cbn [negb].
      by rewrite aset_0.
    + constructor; cbn; try done.
      * rewrite Hsp. repeat case_decide; destruct_and?; try tauto; try lia. rewrite Es, E0, E. done.
      * intros Ef. by rewrite E in Ef.
      * intros Ef. by rewrite E in Ef.
      * intros _. exists 0, rest. split; [done|]. rewrite decide_False by lia. done.
  - assert (Hslot : rd (stack_ptr p) 4 (args_stack p) = Some (enc LittleEndian 4 y)).
    { pose proof (stack_slot vm vm' vf p (enc LittleEndian 4 y) Hi) as H. rewrite length_enc in H.
      apply H; try done. intros E. destruct (Hthis E) as [[]|]; tauto. }
    exists (a_with_sp (stack_ptr p + 4) p). split.
    + assert (Hdef : dcbArgInt p = default_i32 p).
      { unfold dcbArgInt. rewrite Hv. destruct v eqn:Ev; cbn [vt_i32]; try done.
        - unfold this_i32. destruct (Hth eq_refl) as (this & rest & -> & H0).
          rewrite decide_False in H0 by tauto. subst this. done.
        - unfold fast_i32. destruct (Hc eq_refl) as [_ Hcc]. specialize (Hregs eq_refl).
          by rewrite (proj2 (Z.ltb_ge _ _)) by lia.
        - unfold fast_i32. destruct (Hc eq_refl) as [_ Hcc]. specialize (Hregs eq_refl).
          by rewrite (proj2 (Z.ltb_ge _ _)) by lia. }
      rewrite Hdef. unfold default_i32. rewrite Hslot. cbn [mbind option_bind]. rewrite dec_enc.
      do 2 f_equal. apply (wrapS_wrapU 32 32). lia.
    + eapply (at_next vm vm' vf p _ 4); try done; try lia. cbn. rewrite Er. exact Hc.
Qed.

Lemma i64_read p y :
  vt p = v -> rd (stack_ptr p) 8 (args_stack p) = Some (enc LittleEndian 8 y) ->
  dcbArgLongLong p
  = Some (conv TLongLong y, a_with_sp (stack_ptr p + 8)
            (a_with_count (if decide (v = dcArgsVT_fast_gnu) then fast_count p + 2 else fast_count p) p)).
Proof.
  intros Hv Hslot. unfold dcbArgLongLong. rewrite Hv.
  assert (Hd : forall q, stack_ptr q = stack_ptr p -> args_stack q = args_stack p ->
            default_i64 q = Some (conv TLongLong y, a_with_sp (stack_ptr p + 8) q)).
  { intros q E1 E2. unfold default_i64. rewrite E1, E2, Hslot. cbn [mbind option_bind]. rewrite dec_enc.
    do 2 f_equal. apply (wrapS_wrapU 64 64). lia. }
  destruct (decide (v = dcArgsVT_fast_gnu)) as [->|].
  - cbn [vt_i64]. unfold fast_gnu_i64. by rewrite Hd.
  - assert (vt_i64 v = default_i64) as -> by (by destruct v). rewrite Hd by done. by destruct p.
Qed.

(** What the reader makes of the bytes of the other types. *)
Lemma stack_wide_read vm vm' vf p t x y :
  x86_inv vm -> is_i32 t = false -> val_ok t x -> conv t y = x ->
  rd (mSize (w_vec vm)) (length (arg_bytes t y)) (vec_bytes (w_vec vm')) = Some (arg_bytes t y) ->
  mSize (w_vec vm') = mSize (w_vec vm) + Z.of_nat (length (arg_bytes t y)) ->
  mIntRegs vm' = (if decide (v = dcArgsVT_fast_gnu /\ (t = TLongLong \/ t = TULongLong)) then 2
                  else mIntRegs vm) ->
  (v = dcArgsVT_this_ms -> 4 <= mSize (w_vec vm)) ->
  x86_ext vm' vf -> x86_at vm vf p ->
  exists p', dcbArg t p = Some (x, p') /\ x86_at vm' vf p'.
Proof.
  intros Hi Ht Hx Hy Hrd Es Er Hthis Hext Hat.
  pose proof Hat as [Hv _ _ Hc _ _]. pose proof Hi as [_ [Hw _] Hf]. pose proof (vwf_size _ Hw) as Hs0.
  assert (Hnt : ~ (v = dcArgsVT_this_ms /\ mSize (w_vec vm) = 0)) by (intros [E ?]; specialize (Hthis E); lia).
  pose proof (stack_slot vm vm' vf p (arg_bytes t y) Hi Hrd Hext Hat Hnt Hthis) as Hslot.
  unfold arg_bytes in *. rewrite length_enc in *.
  set (n := if cleanup_bytes t =? 8 then 8%nat else 4%nat) in *.
  set (gnu := if decide (v = dcArgsVT_fast_gnu /\ (t = TLongLong \/ t = TULongLong))
              then fast_count p + 2 else fast_count p).
  assert (Egnu : t = TLongLong \/ t = TULongLong ->
            gnu = if decide (v = dcArgsVT_fast_gnu) then fast_count p + 2 else fast_count p)
    by (intros; subst gnu; repeat case_decide; tauto).
  assert (Egnu' : t = TFloat \/ t = TDouble -> gnu = fast_count p)
    by (intros [E | E]; subst gnu; rewrite decide_False; try done; rewrite E; intros [_ [E'|E']]; discriminate).
  exists (a_with_sp (stack_ptr p + Z.of_nat n) (a_with_count gnu p)). split.
  - destruct t; try done; cbn in n; subst n.
    + apply (read_i64 _ _ y); try done; [by left|]. rewrite Egnu by (by left). by apply i64_read.
    + apply (read_i64 _ _ y); try done; [by right|]. rewrite Egnu by (by right). by apply i64_read.
    + cbn [dcbArg x86_ArgReader]. unfold dcbArgFloat, default_f32. rewrite Hslot. cbn [mbind option_bind].
      rewrite dec_enc, Egnu' by (by left).
      assert (wrapU (8 * Z.of_nat 4) y = x) as -> by exact Hy. by destruct p.
    + cbn [dcbArg x86_ArgReader]. unfold dcbArgDouble, default_f64. rewrite Hslot. cbn [mbind option_bind].
      rewrite dec_enc, Egnu' by (by right).
      assert (wrapU (8 * Z.of_nat 8) y = x) as -> by exact Hy. by destruct p.
  - eapply (at_next vm vm' vf p _ (Z.of_nat n)); try done.
    + destruct t; cbn in n; subst n; lia.
    + intros E. destruct (Hc E). cbn. subst gnu. rewrite Er. case_decide; lia.
Qed.

Lemma x86_step_full vm a :
  x86_inv vm -> x86_room vm a -> arg_ok a ->
  exists vm', push_arg (C := vm_inst) vm a = Some vm' /\ x86_inv vm' /\ x86_ext vm vm' /\
    w_vt vm' = w_vt vm /\ mTotal (w_vec vm') = mTotal (w_vec vm) /\
    mSize (w_vec vm') = mSize (w_vec vm) + (if in_reg (a_ty a) (mIntRegs vm) then 0 else cleanup_bytes (a_ty a)) /\
    mIntRegs vm' = next_regs (a_ty a) (mIntRegs vm) /\
    (is_fast v = false -> 4 <= mSize (w_vec vm')) /\
    forall vf p, x86_inv vf -> x86_ext vm' vf -> x86_at vm vf p ->
      exists p', dcbArg (a_ty a) p = Some (a_val a, p') /\ x86_at vm' vf p'.
Proof.
  destruct a as [t x]. unfold arg_ok, x86_room; cbn [a_ty a_val]. intros Hi [Hroom Hthis] Hx.
  pose proof (conv_pushed t x Hx) as Hy. set (y := pushed t x) in *.
  pose proof Hi as [Hvt [Hw H0] Hf]. pose proof (vwf_size _ Hw) as Hs0.
  unfold vm_inst. rewrite (push_arg_x86 os msvc vm (Arg t x) v Hvt). cbn [a_ty a_val]. fold y.
  unfold x86_push, next_regs. fold (in_reg t (mIntRegs vm)). destruct (in_reg t (mIntRegs vm)) eqn:Efast; unfold in_reg in Efast.
  - apply andb_prop in Efast as [[Et Ev]%andb_prop Hlt%Z.ltb_lt].
    assert (Hlb : length (arg_bytes t y) = 4%nat) by (unfold arg_bytes; rewrite length_enc; by destruct t).
    destruct (x86_store_ok vm (arg_bytes t y) Hi Ev Hlt Hlb) as (w & -> & Hi' & Hx' & Ht' & Hs' & Hrd).
    eexists; split; [done|]. split_and!; cbn; try done; try lia; [congruence|].
    intros vf p Hvf Hxf Hat.
    destruct (fast_reg_read vm (w_with_regs (mIntRegs vm + 1) (w_with_vec w vm)) vf p y t
                Hi Ev Hlt Et eq_refl Hs' Hrd Hxf Hat) as (p' & Hp & Hat').
    exists p'. split; [|done]. by apply (read_i32 t x y).
  - set (vm0 := match v, t with dcArgsVT_fast_gnu, (TLongLong | TULongLong) => w_with_regs 2 vm | _, _ => vm end).
    assert (Hv0 : w_vec vm0 = w_vec vm /\ w_vt vm0 = w_vt vm) by (subst vm0; by destruct v, t).
    destruct Hv0 as [Hv0 Hvt0].
    assert (Hr0 : mIntRegs vm0 = if decide (v = dcArgsVT_fast_gnu /\ (t = TLongLong \/ t = TULongLong))
                                 then 2 else mIntRegs vm).
    { subst vm0. case_decide as Hd; [by destruct Hd as [-> [-> | ->]]|].
      destruct v, t; try done; exfalso; apply Hd; auto. }
    assert (Hmono : mIntRegs vm <= mIntRegs vm0).
    { rewrite Hr0. case_decide as Hd; [|lia]. destruct Hd as [E _]. destruct (Hf ltac:(by rewrite E)). lia. }
    assert (Hi0 : x86_inv vm0).
    { constructor; rewrite ?Hv0, ?Hvt0; try done. intros E. destruct (Hf E). split; [done|].
      rewrite Hr0. case_decide; lia. }
    assert (Hx0 : x86_ext vm vm0) by (constructor; [done|by rewrite Hv0]).
    assert (Hlen : length (arg_bytes t y) = if cleanup_bytes t =? 8 then 8%nat else 4%nat)
      by (unfold arg_bytes; by rewrite length_enc).
    destruct (x86_append_ok vm0 (arg_bytes t y) Hi0 ltac:(by rewrite Hv0) ltac:(rewrite Hlen; case_match; lia))
      as (vm' & Hp & Hi' & Hx' & Hvt' & Hr' & Ht' & Hs' & Hrd).
    rewrite Hv0 in *. exists vm'.
    assert (Hsz : 4 <= Z.of_nat (length (arg_bytes t y)) <= 8) by (rewrite Hlen; case_match; lia).
    assert (Hcl : Z.of_nat (length (arg_bytes t y)) = cleanup_bytes t) by (rewrite Hlen; by destruct t).
    split_and!; try done; try lia; [by eapply x86_ext_trans|congruence|subst vm0; by destruct v, t|].
    intros vf p Hvf Hxf Hat. destruct (is_i32 t) eqn:Et.
    + assert (Hlb : length (arg_bytes t y) = 4%nat) by (rewrite Hlen; by destruct t).
      rewrite Hlb in Hrd, Hs'.
      assert (Hr0' : mIntRegs vm0 = mIntRegs vm) by (rewrite Hr0; apply decide_False; intros [_ [E|E]]; by rewrite E in Et).
      destruct (stack_i32_read vm vm' vf p y t) as (p' & Hp' & Hat'); try done; try lia.
      * intros E. rewrite E in Efast. cbn [andb] in Efast. apply Z.ltb_ge in Efast. lia.
      * intros E. destruct (Hthis E) as [(? & _ & ?)|]; [by left|by right].
      * exists p'. split; [|done]. by apply (read_i32 t x y).
    + apply (stack_wide_read vm vm' vf p t x y); try done; [congruence|].
      intros E. destruct (Hthis E) as [(_ & ? & _)|]; [done|lia].
Qed.

#[export, refine] Instance x86_CallConv : CallConv DCCallVM_x86 DCArgs (H := vm_inst) := {
  cc_inv := x86_inv;
  cc_room := x86_room;
  cc_ext := x86_ext;
  cc_at := x86_at;
  cc_ext_refl := x86_ext_refl;
  cc_ext_trans := x86_ext_trans;
}.
Proof.
  intros vm a Hi Hr Ha. destruct (x86_step_full vm a Hi Hr Ha) as (vm' & Hp & Hi' & Hx & _ & _ & _ & _ & _ & Hread).
  eauto.
Defined.

(** ** Whole calls *)

(** The first argument of a thiscall is a non-null pointer. *)
Definition this_ok (l : list arg) : Prop :=
  v = dcArgsVT_this_ms ->
  match l with
  | a :: _ => is_i32 (a_ty a) = true /\ conv TInt (pushed (a_ty a) (a_val a)) <> 0
  | [] => False
  end.

Definition x86_alloc (vm : DCCallVM_x86) : Prop := vec_wf (w_vec vm) /\ reader_of (w_vt vm) = Some v.

Lemma reset_x86 vm0 :
  x86_alloc vm0 -> reg_bytes v <= mTotal (w_vec vm0) -> 0 <= mTotal (w_vec vm0) ->
  exists vm, dcReset (C := vm_inst) vm0 = Some vm /\ x86_inv vm /\ w_vt vm = w_vt vm0 /\
    mIntRegs vm = 0 /\ mSize (w_vec vm) = (if is_fast v then 8 else 0) /\
    mTotal (w_vec vm) = mTotal (w_vec vm0).
Proof.
  intros [[Hw1 Hw2 Hw3] Hv] Hr H0.
  exists (w_with_regs 0 (w_with_vec (dcVecResize (w_vec vm0) (if is_fast v then 8 else 0)) vm0)).
  split_and!; try done.
  - unfold dcReset, vtable. cbv beta iota delta [deref vm_inst x86_CallVM mVTpointer].
    destruct (w_vt vm0); try done; by injection Hv as <-.
  - constructor; cbn; [done| |intros ->; lia].
    assert (0 <= (if is_fast v then 8 else 0) <= mTotal (w_vec vm0))
      by (unfold is_fast, reg_bytes in *; destruct v; lia).
    split; [|unfold vec_room; cbn; lia]. constructor; cbn; [lia|exact Hw2|exact Hw3].
Qed.

Lemma budget_room_x86 (l : list arg) vm :
  x86_inv vm -> vec_room (w_vec vm) (8 * Z.of_nat (length l)) ->
  (v = dcArgsVT_this_ms -> 4 <= mSize (w_vec vm)) -> Forall arg_ok l ->
  room_for vm l.
Proof.
  intros Hi Hr Ht Hok.
  apply (room_for_budget (fun n vm => x86_inv vm /\ vec_room (w_vec vm) (8 * Z.of_nat n) /\
    (v = dcArgsVT_this_ms -> 4 <= mSize (w_vec vm)))); [|done|done].
  clear. intros n vm a Ha (Hi & Hr & Ht).
  assert (Hroom : x86_room vm a) by (split; [unfold vec_room in *; lia|]; intros E; right; auto).
  split; [exact Hroom|]. intros vm' Hp.
  destruct (x86_step_full vm a Hi Hroom Ha) as (vm1 & Hp1 & Hi1 & _ & _ & Htot & Hsz & _ & H4 & _).
  rewrite Hp in Hp1. injection Hp1 as <-. split_and!; [done| |].
  - unfold vec_room in *. rewrite Hsz, Htot. case_match; [lia|]. destruct (a_ty a); cbn; lia.
  - intros E. apply H4. by rewrite E.
Qed.

Lemma room_from_reset (l : list arg) vm :
  x86_inv vm -> mSize (w_vec vm) = (if is_fast v then 8 else 0) ->
  vec_room (w_vec vm) (8 * Z.of_nat (length l)) -> this_ok l -> Forall arg_ok l -> room_for vm l.
Proof.
  intros Hi Hs Hr Ht Hok. destruct (decide (v = dcArgsVT_this_ms)) as [E|E].
  - specialize (Ht E). destruct l as [|a l]; [done|]. destruct Ht as [Hi32 Hne].
    apply Forall_cons in Hok as [Ha Hok]. cbn [length] in Hr.
    assert (Hroom : x86_room vm a).
    { split; [unfold vec_room in *; lia|]. intros _. left. rewrite Hs, E. done. }
    split; [exact Hroom|]. intros vm' Hp.
    destruct (x86_step_full vm a Hi Hroom Ha) as (vm1 & Hp1 & Hi1 & _ & _ & Htot & Hsz & _ & H4 & _).
    rewrite Hp in Hp1. injection Hp1 as <-.
    apply budget_room_x86; [done| |intros _; apply H4; by rewrite E|done].
    unfold vec_room in *. rewrite Hsz, Htot. case_match; [lia|]. destruct (a_ty a); cbn; lia.
  - apply budget_room_x86; done.
Qed.

(** The bytes of the argument vector the kernel does not push. *)
Lemma kernel_x86 cpu0 vf target :
  x86_inv vf -> (v = dcArgsVT_this_ms -> 4 <= mSize (w_vec vf)) ->
  exists cpu, kernel_enter cpu0 (dcCallVoid (C := vm_inst) vf target) = Some cpu /\
    cpu_stack cpu = drop (Z.to_nat (reg_bytes v)) (vec_bytes (w_vec vf)) /\
    (is_fast v = true -> exists r0 r1, rd 0 4 (vec_bytes (w_vec vf)) = Some r0 /\
       rd 4 4 (vec_bytes (w_vec vf)) = Some r1 /\
       ecx cpu = dec LittleEndian r0 /\ edx cpu = dec LittleEndian r1) /\
    (v = dcArgsVT_this_ms -> exists r0, rd 0 4 (vec_bytes (w_vec vf)) = Some r0 /\
       ecx cpu = dec LittleEndian r0).
Proof.
  intros [Hv [Hw H0] Hf] Ht. pose proof (length_vec_bytes _ Hw H0) as Hl.
  unfold dcCallVoid, vtable. cbv beta iota delta [deref vm_inst x86_CallVM mVTpointer].
  assert (Hr4 : 4 <= mSize (w_vec vf) -> exists r0, rd 0 4 (vec_bytes (w_vec vf)) = Some r0)
    by (intros; destruct (rd_Some 0 4 (vec_bytes (w_vec vf))) as (r0 & ? & _); [lia..|eauto]).
  assert (Hr8 : 8 <= mSize (w_vec vf) -> exists r1, rd 4 4 (vec_bytes (w_vec vf)) = Some r1)
    by (intros; destruct (rd_Some 4 4 (vec_bytes (w_vec vf))) as (r1 & ? & _); [lia..|eauto]).
  destruct (w_vt vf); try done; injection Hv as Ev; rewrite <- Ev in Hf, Ht |- *;
    cbv beta iota delta [vt_callVoid gVT_x86_cdecl gVT_x86_win32_std gVT_x86_win32_fast_ms
      gVT_x86_win32_fast_gnu gVT_x86_win32_this_ms dc_callvm_call_x86_cdecl dc_callvm_call_x86_win32_std
      dc_callvm_call_x86_win32_fast dc_callvm_call_x86_win32_this_ms x86_call kernel_enter k_conv k_data
      reg_bytes];
    change (Z.to_nat 0) with 0%nat; change (Z.to_nat 4) with 4%nat; change (Z.to_nat 8) with 8%nat.
  - by eexists.
  - by eexists.
  - destruct (Hf eq_refl). destruct (Hr4 ltac:(lia)) as (r0 & ->), (Hr8 ltac:(lia)) as (r1 & ->).
    cbn [mbind option_bind]. eexists. split_and!; [done|done| |done]. intros _. by exists r0, r1.
  - destruct (Hf eq_refl). destruct (Hr4 ltac:(lia)) as (r0 & ->), (Hr8 ltac:(lia)) as (r1 & ->).
    cbn [mbind option_bind]. eexists. split_and!; [done|done| |done]. intros _. by exists r0, r1.
  - destruct (Hr4 (Ht eq_refl)) as (r0 & ->). cbn [mbind option_bind].
    eexists. split_and!; [done|done|done|]. intros _. by exists r0.
Qed.

(** Size of the vector after pushing a list of arguments. *)
Fixpoint stack_bytes (ts : list cty) (regs : Z) : Z :=
  match ts with
  | [] => 0
  | t :: ts => (if in_reg t regs then 0 else cleanup_bytes t) + stack_bytes ts (next_regs t regs)
  end.

Lemma stack_bytes_nonneg ts regs : 0 <= stack_bytes ts regs.
Proof.
  revert regs. induction ts as [|t ts IH]; intros regs; cbn [stack_bytes]; [lia|].
  specialize (IH (next_regs t regs)). assert (0 < cleanup_bytes t) by (destruct t; cbn; lia).
  destruct (in_reg t regs); lia.
Qed.

Lemma push_args_size l : forall vm vf,
  x86_inv vm -> room_for vm l -> Forall arg_ok l -> push_args (C := vm_inst) vm l = Some vf ->
  mSize (w_vec vf) = mSize (w_vec vm) + stack_bytes (map a_ty l) (mIntRegs vm) /\
  (l <> [] -> is_fast v = false -> 4 <= mSize (w_vec vf)).
Proof.
  induction l as [|a l IH]; intros vm vf Hi Hr Hok Hp.
  { injection Hp as <-. cbn. split; [lia|done]. }
  apply Forall_cons in Hok as [Ha Hok]. destruct Hr as [Hra Hrl].
  unfold push_args in Hp. cbn [foldM] in Hp. apply bind_Some in Hp as (vm1 & Hp1 & Hp).
  destruct (x86_step_full vm a Hi Hra Ha) as (vm1' & Hp1' & Hi1 & _ & _ & _ & Hsz & Hreg & H4 & _).
  rewrite Hp1 in Hp1'. injection Hp1' as <-.
  destruct (IH vm1 vf Hi1 (Hrl _ Hp1) Hok Hp) as [Hs _]. cbn [map stack_bytes].
  split; [rewrite Hs, Hsz, Hreg; lia|]. intros _ Ef. specialize (H4 Ef).
  rewrite Hs. pose proof (stack_bytes_nonneg (map a_ty l) (mIntRegs vm1)). lia.
Qed.

(** From a freshly reset VM into the callback. *)
Lemma x86_enter cb cpu0 vm0 l target :
  x86_alloc vm0 -> reg_bytes v + 8 * Z.of_nat (length l) <= mTotal (w_vec vm0) ->
  this_ok l -> Forall arg_ok l -> cb_args_vt cb = Some v ->
  exists vm vf cpu p p',
    dcReset (C := vm_inst) vm0 = Some vm /\ push_args (C := vm_inst) vm l = Some vf /\
    w_vt vf = w_vt vm0 /\
    kernel_enter cpu0 (dcCallVoid (C := vm_inst) vf target) = Some cpu /\
    dcCallbackThunkEntry cb cpu = Some p /\ read_args (map a_ty l) p = Some (l, p') /\
    Z.of_nat (length (cpu_stack cpu)) = stack_bytes (map a_ty l) 0
      - (if decide (v = dcArgsVT_this_ms) then 4 else 0).
Proof.
  intros Ha Hroom Ht Hl Hcb.
  assert (0 <= reg_bytes v) by (unfold reg_bytes; destruct v; lia).
  destruct (reset_x86 vm0 Ha ltac:(lia) ltac:(lia)) as (vm & Hr & Hi & Hvt & Hregs & Hs & Htot).
  assert (Hrf : room_for vm l).
  { apply room_from_reset; try done. unfold vec_room. rewrite Hs, Htot.
    unfold is_fast, reg_bytes in *. destruct v; lia. }
  destruct (push_args_inv (CC := x86_CallConv) vm l Hi Hrf Hl) as (vf & Hp & Hif & Hxf & Hread).
  destruct (push_args_size l vm vf Hi Hrf Hl Hp) as [Hsz H4]. rewrite Hregs, Hs in Hsz.
  assert (H4' : v = dcArgsVT_this_ms -> 4 <= mSize (w_vec vf)).
  { intros E. apply H4; [|by rewrite E]. specialize (Ht E). by destruct l. }
  destruct (kernel_x86 cpu0 vf target Hif H4') as (cpu & Hk & Hst & Hfast & Hthis).
  set (p := {| vt := v; stack_ptr := 0; fast_data := [ecx cpu; edx cpu]; fast_count := 0;
               args_stack := cpu_stack cpu |}).
  assert (Hat : x86_at vm vf p).
  { constructor; cbn; try done.
    - case_decide as Hd; [done|]. rewrite Hs. unfold is_fast, reg_bytes in *. destruct v; try done.
      exfalso. apply Hd. by rewrite Hs.
    - intros _. split; [done|]. by left.
    - intros E. destruct (Hfast E) as (r0 & r1 & ? & ? & -> & ->). by exists r0, r1.
    - intros E. destruct (Hthis E) as (r0 & ? & ->). eexists _, _. split; [done|].
      rewrite decide_True by (rewrite Hs, E; done). by exists r0. }
  destruct (Hread p Hat) as (p' & Hp' & _).
  exists vm, vf, cpu, p, p'. split_and!; try done.
  - clear -Hp Hi Hrf Hl Hvt. revert vm Hi Hrf Hvt Hp. induction Hl as [|a l Ha Hl IH]; intros vm Hi Hrf Hvt Hp.
    + by injection Hp as <-.
    + destruct Hrf as [Hra Hrl]. unfold push_args in Hp. cbn [foldM] in Hp.
      apply bind_Some in Hp as (vm1 & Hp1 & Hp).
      destruct (x86_step_full vm a Hi Hra Ha) as (vm1' & Hp1' & Hi1 & _ & Hvt1 & _).
      rewrite Hp1 in Hp1'. injection Hp1' as <-. apply (IH vm1); (done || auto || congruence).
  - unfold dcCallbackThunkEntry. by rewrite Hcb.
  - destruct Hif as [_ [Hw H0] _]. rewrite Hst, length_drop.
    pose proof (length_vec_bytes _ Hw H0). unfold reg_bytes, is_fast in *.
    pose proof (stack_bytes_nonneg (map a_ty l) 0).
    destruct v; case_decide; try done; try lia. specialize (H4' eq_refl). lia.
Qed.

(** The callee-cleanup functions count what the VM pushed. *)
Lemma cleanup_std_size ts rt :
  is_fast v = false ->
  dcbCleanupSize_x86_std (map sigchar_of ts ++ [DC_SIGCHAR_ENDARG; rt]) = Some (stack_bytes ts 0).
Proof.
  intros Ef. generalize 0. induction ts as [|t ts IH]; intros regs; [done|].
  cbn [map app dcbCleanupSize_x86_std stack_bytes].
  assert (Ascii.eqb (sigchar_of t) DC_SIGCHAR_ENDARG = false) as -> by (by destruct t).
  rewrite (IH (next_regs t regs)), cty_of_sigchar_of. cbn [mbind option_bind].
  unfold in_reg. rewrite Ef, andb_false_r. done.
Qed.

Lemma cleanup_fast_ms_size ts rt : v = dcArgsVT_fast_ms -> forall regs,
  cleanup_fast_ms (map sigchar_of ts ++ [DC_SIGCHAR_ENDARG; rt]) regs = Some (stack_bytes ts regs).
Proof.
  intros Ev. induction ts as [|t ts IH]; intros regs; [done|].
  cbn [map app cleanup_fast_ms stack_bytes].
  assert (Ascii.eqb (sigchar_of t) DC_SIGCHAR_ENDARG = false) as -> by (by destruct t).
  rewrite cty_of_sigchar_of. unfold next_regs, in_reg. rewrite Ev. cbn [is_fast]. rewrite andb_true_r.
  destruct (is_i32 t && (regs <? 2)); rewrite IH; [by rewrite Z.add_0_l|done].
Qed.

Lemma cleanup_fast_gnu_size ts rt : v = dcArgsVT_fast_gnu -> forall regs,
  cleanup_fast_gnu (map sigchar_of ts ++ [DC_SIGCHAR_ENDARG; rt]) regs = Some (stack_bytes ts regs).
Proof.
  intros Ev. induction ts as [|t ts IH]; intros regs; [done|].
  cbn [map app cleanup_fast_gnu stack_bytes].
  assert (Ascii.eqb (sigchar_of t) DC_SIGCHAR_ENDARG = false) as -> by (by destruct t).
  rewrite cty_of_sigchar_of. unfold next_regs, in_reg. rewrite Ev. cbn [is_fast]. rewrite andb_true_r.
  destruct t; cbn [is_i32 andb cleanup_bytes]; try (rewrite IH; done);
    destruct (regs <? 2); rewrite IH; done.
Qed.

(** *** Results *)

Lemma slot_read n k x (slot0 : list Z) :
  (n <= k)%nat -> (k <= length slot0)%nat ->
  exists q, rd 0 k (enc LittleEndian n x ++ drop n slot0) = Some q /\
    wrapU (8 * Z.of_nat n) (dec LittleEndian q) = wrapU (8 * Z.of_nat n) x /\
    (n = k -> q = enc LittleEndian n x).
Proof.
  intros Hn Hk. exists (enc LittleEndian n x ++ take (k - n) (drop n slot0)). split_and!.
  - rewrite <- (take_drop (k - n) (drop n slot0)) at 1. rewrite app_assoc. apply rd0_app.
    rewrite length_app, length_enc, length_take, length_drop. lia.
  - apply dec_low.
  - intros ->. by rewrite Nat.sub_diag, take_0, app_nil_r.
Qed.

Lemma x86_scalar_exit r0 t x slot0 :
  length slot0 = 8%nat -> val_ok t x ->
  exists slot r, dcvalue_set t x slot0 = Some slot /\ callback_exit false r0 (sigchar_of t) slot = Some r /\
    ret_value t r = Some x.
Proof.
  intros Hl Hx%val_ok_conv. unfold dcvalue_set. set (n := Z.to_nat (sizeof_cty t)).
  assert (Hn : (n <= 8)%nat /\ 8 * Z.of_nat n = ty_bits t) by (subst n; destruct t; vm_compute; split; (done || lia)).
  rewrite wr_Some by (rewrite ?length_enc; lia).
  change (Z.to_nat 0) with 0%nat. rewrite take_0, length_enc. cbn [app Nat.add].
  exists (enc LittleEndian n x ++ drop n slot0). unfold callback_exit. cbn [negb andb].
  destruct (slot_read n 8 x slot0) as (q8 & Hq8 & Hw8 & He8); [lia..|].
  pose proof (rd_length _ _ _ _ Hq8) as L8.
  assert (Hall : n = 4%nat \/ n = 8%nat \/ (n < 4)%nat) by (subst n; destruct t; vm_compute; lia).
  destruct (decide (t = TFloat)) as [->|Hnf].
  { destruct (slot_read 4 4 x slot0) as (q4 & Hq4 & _ & He4); [lia..|]. specialize (He4 eq_refl). subst q4.
    change n with 4%nat. change (Ascii.eqb (sigchar_of TFloat) DC_SIGCHAR_FLOAT) with true. cbn beta iota.
    rewrite Hq4. eexists. split_and!; [done|done|]. cbn. rewrite dec_enc. f_equal. exact Hx. }
  destruct (decide (t = TDouble)) as [->|Hnd].
  { change n with 8%nat in Hq8, He8 |- *. specialize (He8 eq_refl). subst q8.
    change (Ascii.eqb (sigchar_of TDouble) DC_SIGCHAR_FLOAT) with false.
    change (Ascii.eqb (sigchar_of TDouble) DC_SIGCHAR_DOUBLE) with true. cbn beta iota.
    rewrite Hq8. eexists. split_and!; [done|done|]. cbn. rewrite dec_enc. f_equal. exact Hx. }
  assert (Ascii.eqb (sigchar_of t) DC_SIGCHAR_FLOAT = false) as -> by (by destruct t).
  assert (Ascii.eqb (sigchar_of t) DC_SIGCHAR_DOUBLE = false) as -> by (by destruct t).
  set (slot := enc LittleEndian n x ++ drop n slot0) in *.
  assert (Hls : length slot = 8%nat) by (unfold slot; rewrite length_app, length_enc, length_drop; lia).
  destruct (rd_Some 0 4 slot) as (lo & Hlo & Llo & Elo); [lia..|].
  destruct (rd_Some 4 4 slot) as (hi & Hhi & Lhi & Ehi); [lia..|].
  rewrite Hlo, Hhi. cbn [mbind option_bind]. eexists. split_and!; [done|done|].
  assert (Eq8 : dec LittleEndian q8 = dec LittleEndian lo + 2 ^ 32 * dec LittleEndian hi).
  { destruct (rd_Some 0 8 slot) as (q & Hq & _ & Eq); [lia..|]. rewrite Hq8 in Hq. injection Hq as <-.
    change (Z.to_nat 0) with 0%nat in *. change (Z.to_nat 4) with 4%nat in *. rewrite drop_0 in *.
    unfold dec. rewrite Eq, take_ge by lia. rewrite <- (take_drop 4 slot), le_join_app at 1.
    rewrite length_take, Hls. rewrite (take_ge (drop 4 slot)) in Ehi by (rewrite length_drop; lia).
    by rewrite Elo, Ehi. }
  assert (H8 : conv t (dec LittleEndian q8) = x).
  { rewrite <- (conv_wrapU t (8 * Z.of_nat n)) by lia. rewrite Hw8, conv_wrapU by lia. exact Hx. }
  destruct (decide (n = 8%nat)) as [E|E].
  - assert (ret_value t = fun r => Some (conv t (eax r + 2 ^ 32 * edx_ret r))) as ->
      by (subst n; by destruct t). cbn [eax edx_ret]. by rewrite <- Eq8, H8.
  - assert (ret_value t = fun r => Some (conv t (eax r))) as -> by (subst n; by destruct t).
    cbn [eax]. f_equal. rewrite <- H8, Eq8.
    rewrite <- (conv_wrapU t 32 (_ + _)) by lia. unfold wrapU.
    rewrite (Z.mul_comm (2 ^ 32)), Z.mod_add by lia. change (?a mod 2 ^ 32) with (wrapU 32 a).
    rewrite conv_wrapU by lia. done.
Qed.

End Proofs.
