(* ===== verification/X86Props.v ===== *)
(** * x86: whole calls in the five C conventions *)

From S2P Require Export X86Proofs Callf.

(** A callback that reads arguments of the given types and returns [f] of them,
    on a system other than Minix. *)
Definition x86_run_callback (cb : DCCallback) (cpu0 : x86_cpu) (r0 : x86_ret) (slot0 : list Z)
    (ts : list cty) (rt : cty) (f : list arg -> Z) (k : x86_kernel) : option x86_ret :=
  cpu ← kernel_enter cpu0 k;
  p ← dcCallbackThunkEntry cb cpu;
  '(l, _) ← read_args (RD := x86_ArgReader) ts p;
  slot ← dcvalue_set rt (f l) slot0;
  callback_exit false r0 (sigchar_of rt) slot.

(** On Minix a [float] or [double] a callback returns is not on the floating-point
    stack, where a C caller expects it. *)
Lemma x86_minix_float_lost r0 t slot r :
  is_float t = true -> callback_exit true r0 (sigchar_of t) slot = Some r -> ret_value t r = None.
Proof.
  intros Ht H. unfold callback_exit in H. cbn [negb andb] in H.
  apply bind_Some in H as (lo & _ & (hi & _ & [= <-])%bind_Some). by destruct t.
Qed.

Section Props.
Variable os : x86_os.
Variable msvc : bool.
Abbreviation C86 := (x86_CallVM os msvc).

Lemma call_kernel_x86 vm v t target :
  reader_of (w_vt vm) = Some v ->
  dcCall_as (C := C86) t vm target = dcCallVoid (C := C86) vm target.
Proof.
  intros Hv. unfold dcCall_as, dcCallVoid, dcCallBool, dcCallChar, dcCallShort, dcCallInt, dcCallLong,
    dcCallLongLong, dcCallFloat, dcCallDouble, dcCallPointer, vtable.
  destruct t; cbn; by destruct (w_vt vm).
Qed.

(** C18: scalar calls are transparent from end to end in cdecl, stdcall,
    fastcall (Microsoft and GNU) and Microsoft thiscall.  For every argument
    list that fits - in thiscall starting with a non-null pointer - a reset VM
    in that mode, given the arguments, enters the callback with state from
    which its reader table obtains exactly those arguments, and the caller gets
    the callback's result. *)
Theorem x86_scalar_call_end_to_end v cb cpu0 r0 slot0 vm0 l rt f target :
  x86_alloc v vm0 -> reg_bytes v + 8 * Z.of_nat (length l) <= mTotal (w_vec vm0) ->
  this_ok v l -> Forall arg_ok l -> cb_args_vt cb = Some v ->
  length slot0 = 8%nat -> val_ok rt (f l) ->
  exists vm vf r,
    dcReset (C := C86) vm0 = Some vm /\ push_args (C := C86) vm l = Some vf /\
    x86_run_callback cb cpu0 r0 slot0 (map a_ty l) rt f (dcCall_as (C := C86) rt vf target) = Some r /\
    ret_value rt r = Some (f l).
Proof.
  intros Ha Hroom Ht Hl Hcb Hslot Hf.
  destruct (x86_enter os msvc v cb cpu0 vm0 l target Ha Hroom Ht Hl Hcb)
    as (vm & vf & cpu & p & p' & Hr & Hp & Hvt & Hk & He & Hread & _).
  destruct (x86_scalar_exit r0 rt (f l) slot0 Hslot Hf) as (slot & r & Hset & Hexit & Hret).
  exists vm, vf, r. split_and!; try done. unfold x86_run_callback.
  rewrite (call_kernel_x86 vf v) by (rewrite Hvt; apply Ha). unfold vm_inst in Hk. rewrite Hk.
  cbn [mbind option_bind]. rewrite He. cbn [mbind option_bind]. rewrite Hread. cbn [mbind option_bind].
  by rewrite Hset.
Qed.

(** C19: in stdcall and both fastcalls the callback pops exactly the argument
    bytes the call kernel pushed: [stack_cleanup], computed by
    [dcbInitCallback2] from the signature, is the size of the stack arguments
    of any call with that signature. *)
Theorem x86_callee_cleanup_balanced cc handler userdata rt cb cpu0 vm0 l target :
  In cc [DC_SIGCHAR_CC_STDCALL; DC_SIGCHAR_CC_FASTCALL_MS; DC_SIGCHAR_CC_FASTCALL_GNU] ->
  is_plan9 os = false ->
  dcbInitCallback2 os msvc
    ([DC_SIGCHAR_CC_PREFIX; cc] ++ map sigchar_of (map a_ty l) ++ [DC_SIGCHAR_ENDARG; rt])
    handler userdata = Some cb ->
  vec_wf (w_vec vm0) -> 8 + 8 * Z.of_nat (length l) <= mTotal (w_vec vm0) -> Forall arg_ok l ->
  exists vm1 vm vf cpu,
    dcMode (C := C86) vm0 (dcGetModeFromCCSigChar cc) = Some vm1 /\
    dcReset (C := C86) vm1 = Some vm /\ push_args (C := C86) vm l = Some vf /\
    kernel_enter cpu0 (dcCallVoid (C := C86) vf target) = Some cpu /\
    cb_stack_cleanup cb = Some (Z.of_nat (length (cpu_stack cpu))).
Proof.
  intros Hcc Hos Hcb Hw Hroom Hl.
  assert (Hmode : exists v, dcMode (C := C86) vm0 (dcGetModeFromCCSigChar cc)
            = Some (w_with_vt (match cc with
                               | "s"%char => gVT_x86_win32_std_p
                               | "F"%char => gVT_x86_win32_fast_ms_p
                               | _ => gVT_x86_win32_fast_gnu_p end) DC_ERROR_NONE vm0) /\
            reader_of (match cc with
                       | "s"%char => gVT_x86_win32_std_p
                       | "F"%char => gVT_x86_win32_fast_ms_p
                       | _ => gVT_x86_win32_fast_gnu_p end) = Some v /\
            v <> dcArgsVT_this_ms /\ reg_bytes v <= 8 /\
            cb_args_vt cb = Some v /\ cb_stack_cleanup cb = Some (stack_bytes v (map a_ty l) 0)).
  { assert (Hm : forall m, In m [DC_CALL_C_X86_WIN32_STD; DC_CALL_C_X86_WIN32_FAST_MS; DC_CALL_C_X86_WIN32_FAST_GNU] ->
              dcMode (C := C86) vm0 m = dc_callvm_mode_x86 os msvc vm0 m)
      by (intros m _; unfold dcMode, vtable; cbn; by destruct (w_vt vm0)).
    unfold dcbInitCallback2 in Hcb. cbn [app Ascii.eqb] in Hcb. rewrite Hos in Hcb.
    destruct Hcc as [<-|[<-|[<-|[]]]]; rewrite Hm by (cbn; tauto); unfold dc_callvm_mode_x86; rewrite Hos;
      cbn in Hcb |- *; rewrite ?andb_false_r; cbn.
    - rewrite (cleanup_std_size dcArgsVT_default) in Hcb by done. injection Hcb as <-. by eexists.
    - unfold dcbCleanupSize_x86_fast_ms in Hcb. rewrite (cleanup_fast_ms_size dcArgsVT_fast_ms) in Hcb by done.
      injection Hcb as <-. by eexists.
    - unfold dcbCleanupSize_x86_fast_gnu in Hcb. rewrite (cleanup_fast_gnu_size dcArgsVT_fast_gnu) in Hcb by done.
      injection Hcb as <-. by eexists. }
  destruct Hmode as (v & Hm & Hv & Hnt & Hrb & Hcbv & Hclean).
  set (vm1 := w_with_vt _ _ vm0) in Hm. exists vm1.
  destruct (x86_enter os msvc v cb cpu0 vm1 l target) as (vm & vf & cpu & p & p' & Hr & Hp & _ & Hk & _ & _ & Hsz);
    try done;
    [cbn; lia|by destruct v|].
  exists vm, vf, cpu. split_and!; try done. rewrite Hclean, Hsz, decide_False by done. f_equal. lia.
Qed.

(** Microsoft thiscall callbacks pop four bytes too many.  The caller
    passes [this] in ECX and pushes the other arguments only, but
    [dcbCleanupSize_x86_this_ms] counts [this] among the bytes to pop. *)
Theorem x86_thiscall_cleanup_off_by_four handler userdata rt cb cpu0 vm0 l target :
  is_plan9 os = false ->
  dcbInitCallback2 os msvc
    ([DC_SIGCHAR_CC_PREFIX; DC_SIGCHAR_CC_THISCALL_MS] ++ map sigchar_of (map a_ty l) ++ [DC_SIGCHAR_ENDARG; rt])
    handler userdata = Some cb ->
  vec_wf (w_vec vm0) -> 4 + 8 * Z.of_nat (length l) <= mTotal (w_vec vm0) -> Forall arg_ok l ->
  this_ok dcArgsVT_this_ms l ->
  exists vm1 vm vf cpu,
    dcMode (C := C86) vm0 (dcGetModeFromCCSigChar DC_SIGCHAR_CC_THISCALL_MS) = Some vm1 /\
    dcReset (C := C86) vm1 = Some vm /\ push_args (C := C86) vm l = Some vf /\
    kernel_enter cpu0 (dcCallVoid (C := C86) vf target) = Some cpu /\
    cb_stack_cleanup cb = Some (Z.of_nat (length (cpu_stack cpu)) + 4).
Proof.
  intros Hos Hcb Hw Hroom Hl Ht.
  set (vm1 := w_with_vt gVT_x86_win32_this_ms_p DC_ERROR_NONE vm0).
  assert (Hm : dcMode (C := C86) vm0 (dcGetModeFromCCSigChar DC_SIGCHAR_CC_THISCALL_MS) = Some vm1).
  { transitivity (dc_callvm_mode_x86 os msvc vm0 DC_CALL_C_X86_WIN32_THIS_MS).
    - unfold dcMode, vtable. cbn. by destruct (w_vt vm0).
    - unfold dc_callvm_mode_x86. rewrite Hos. cbn. by rewrite ?andb_false_r. }
  assert (Hc : cb_args_vt cb = Some dcArgsVT_this_ms /\
               cb_stack_cleanup cb = Some (stack_bytes dcArgsVT_this_ms (map a_ty l) 0)).
  { unfold dcbInitCallback2 in Hcb. cbn [app Ascii.eqb] in Hcb. rewrite Hos in Hcb. cbn in Hcb.
    rewrite orb_true_r in Hcb. unfold dcbCleanupSize_x86_this_ms in Hcb.
    rewrite (cleanup_std_size dcArgsVT_this_ms) in Hcb by done. by injection Hcb as <-. }
  destruct Hc as [Hcbv Hclean].
  destruct (x86_enter os msvc dcArgsVT_this_ms cb cpu0 vm1 l target)
    as (vm & vf & cpu & p & p' & Hr & Hp & _ & Hk & _ & _ & Hsz); try done.
  exists vm1, vm, vf, cpu. split_and!; try done. rewrite Hclean, Hsz, decide_True by done. f_equal. lia.
Qed.

(** On x86 a signature that names the default convention makes an unusable
    callback.  [dcMode] accepts [DC_CALL_C_DEFAULT] and the ellipsis modes as
    cdecl, [dcbInitCallback2] has no case for them: the reader table stays
    unset and the callback cannot be entered, while the same signature without
    the prefix works. *)
Theorem x86_default_prefix_callback_unusable cc sig handler userdata vm0 cpu cb :
  In cc [DC_SIGCHAR_CC_DEFAULT; DC_SIGCHAR_CC_ELLIPSIS; DC_SIGCHAR_CC_ELLIPSIS_VARARGS] ->
  is_plan9 os = false ->
  dcbInitCallback2 os msvc ([DC_SIGCHAR_CC_PREFIX; cc] ++ sig) handler userdata = Some cb ->
  dcMode (C := C86) vm0 (dcGetModeFromCCSigChar cc) = Some (w_with_vt gVT_x86_cdecl_p DC_ERROR_NONE vm0) /\
  dcCallbackThunkEntry cb cpu = None /\
  (head sig <> Some DC_SIGCHAR_CC_PREFIX ->
   exists cb', dcbInitCallback2 os msvc sig handler userdata = Some cb' /\
               cb_args_vt cb' = reader_of gVT_x86_cdecl_p).
Proof.
  intros Hcc Hos Hcb.
  assert (Hm : forall m, dcMode (C := C86) vm0 m = dc_callvm_mode_x86 os msvc vm0 m)
    by (intros m; unfold dcMode, vtable; cbn; by destruct (w_vt vm0)).
  unfold dcbInitCallback2 in Hcb. cbn [app Ascii.eqb] in Hcb. rewrite Hos in Hcb.
  split_and!.
  - rewrite Hm. unfold dc_callvm_mode_x86. rewrite Hos.
    destruct Hcc as [<-|[<-|[<-|[]]]]; cbn; by rewrite ?andb_false_r.
  - destruct Hcc as [<-|[<-|[<-|[]]]]; cbn in Hcb; rewrite ?andb_false_r in Hcb; cbn in Hcb;
      injection Hcb as <-; done.
  - intros Hh. unfold dcbInitCallback2. rewrite Hos. destruct sig as [|c rest]; cbn; [by eexists|].
    destruct (Ascii.eqb_spec c DC_SIGCHAR_CC_PREFIX) as [->|]; [done|]. by eexists.
Qed.

(** Register arguments do not make the vector longer. *)
Lemma push_regs_size v l : is_fast v = true -> forall vm vf,
  reader_of (w_vt vm) = Some v -> Forall (fun a => is_i32 (a_ty a) = true) l ->
  mIntRegs vm + Z.of_nat (length l) <= 2 ->
  push_items (C := C86) vm (map IScalar l) = Some vf ->
  mSize (w_vec vf) = mSize (w_vec vm) /\ w_vt vf = w_vt vm.
Proof.
  intros Hf. induction l as [|a l IH]; intros vm vf Hv Hl Hn Hp; [by injection Hp as <-|].
  apply Forall_cons in Hl as [Ha Hl]. cbn [length] in Hn.
  unfold push_items in Hp. cbn [map foldM push_item] in Hp. apply bind_Some in Hp as (vm1 & Hp1 & Hp).
  rewrite (push_arg_x86 os msvc vm a v Hv) in Hp1. unfold x86_push in Hp1.
  rewrite Ha, Hf, (proj2 (Z.ltb_lt _ _)) in Hp1 by lia. cbn [andb] in Hp1.
  apply bind_Some in Hp1 as (w & Hw & [= <-]). unfold dcVecStore in Hw.
  apply bind_Some in Hw as (d & _ & [= <-]).
  apply (IH (w_with_regs (mIntRegs vm + 1) (w_with_vec _ vm))) in Hp as [-> ->]; [done|exact Hv|exact Hl|cbn; lia].
Qed.

(** Naming fastcall in the signature of a formatted call is not enough.
    [dcVCallF] switches the mode but does not reset, so the eight bytes that
    carry ECX and EDX are not reserved; the kernel then subtracts 8 from a
    smaller size.  For any signature of up to two 32-bit integers the call of a
    VM reset in another mode is undefined, although the same VM, reset after
    the switch, can make it. *)
Theorem x86_fastcall_prefix_needs_reset double_to_float float_to_double (retval : cty -> x86_ret -> Z)
    (callee : x86_cpu -> option x86_ret) cc cpu0 vm0 l target :
  In cc [DC_SIGCHAR_CC_FASTCALL_MS; DC_SIGCHAR_CC_FASTCALL_GNU] -> is_plan9 os = false ->
  x86_alloc dcArgsVT_default vm0 -> mIntRegs vm0 = 0 -> mSize (w_vec vm0) = 0 ->
  24 <= mTotal (w_vec vm0) ->
  Forall arg_ok l -> Forall (fun a => is_i32 (a_ty a) = true) l -> (length l <= 2)%nat ->
  dcCallF (C := C86) double_to_float (fun k => cpu ← kernel_enter cpu0 k; callee cpu) retval vm0 target
    (signature_of (Some cc) (map IScalar l) RTVoid) (va_of_call float_to_double (map IScalar l) RTVoid)
  = None /\
  exists vm1 vm2 vm3 cpu,
    dcMode (C := C86) vm0 (dcGetModeFromCCSigChar cc) = Some vm1 /\ dcReset (C := C86) vm1 = Some vm2 /\
    push_args (C := C86) vm2 l = Some vm3 /\
    kernel_enter cpu0 (dcCallVoid (C := C86) vm3 target) = Some cpu.
Proof.
  intros Hcc Hos [Hw _] Hregs Hs Ht Hl Hi Hn.
  assert (Hmode : exists v vt', dcMode (C := C86) vm0 (dcGetModeFromCCSigChar cc)
            = Some (w_with_vt vt' DC_ERROR_NONE vm0) /\ reader_of vt' = Some v /\ is_fast v = true /\
            dcGetModeFromCCSigChar cc <> DC_ERROR_UNSUPPORTED_MODE /\
            forall vm, w_vt vm = vt' -> dcCallVoid (C := C86) vm target = x86_call KFast vm target).
  { assert (Hm : forall m, dcMode (C := C86) vm0 m = dc_callvm_mode_x86 os msvc vm0 m)
      by (intros m; unfold dcMode, vtable; cbn; by destruct (w_vt vm0)).
    destruct Hcc as [<-|[<-|[]]]; rewrite Hm; unfold dc_callvm_mode_x86; rewrite Hos; cbn;
      rewrite ?andb_false_r; cbn; eexists _, _; (split_and!; [done..|]);
      intros vm E; unfold dcCallVoid, vtable; cbn; by rewrite E. }
  destruct Hmode as (v & vt' & Hm & Hv & Hf & Hne & Hk). split.
  - unfold dcCallF, dcVCallF, last_sigchar. rewrite last_signature. cbn [sigchar_of_result].
    change (Ascii.eqb DC_SIGCHAR_VOID DC_SIGCHAR_AGGREGATE) with false. cbn [mbind option_bind].
    unfold va_of_call. rewrite dcArgF_signature; [|apply x86_dm_ok|].
    2:{ rewrite Forall_forall in Hl, Hi. apply Forall_map, Forall_forall. intros a Ha.
        split; [by apply Hl|]. specialize (Hi a Ha). by intros E; rewrite E in Hi. }
    unfold set_mode. rewrite (proj2 (Z.eqb_neq _ _) Hne), Hm. cbn [mbind option_bind].
    destruct (push_items _ _) as [vf|] eqn:Hp; cbn [mbind option_bind]; [|done].
    apply (push_regs_size v) in Hp as [Hsz Hvt]; [|done|done|done|cbn; lia].
    cbn [sigchar_of_result]. change (Ascii.eqb DC_SIGCHAR_VOID DC_SIGCHAR_VOID) with true. cbn beta iota.
    rewrite Hk by done. cbn in Hsz. rewrite Hs in Hsz. unfold x86_call, kernel_enter, vec_bytes, k_data, k_conv.
    rewrite Hsz. done.
  - destruct (x86_enter os msvc v (Build_DCCallback 0 (Some v) (Some 0) 0) cpu0 (w_with_vt vt' DC_ERROR_NONE vm0) l target)
      as (vm & vf & cpu & p & p' & Hr & Hp & _ & Hkk & _); try done.
    + cbn. unfold reg_bytes. destruct v; lia.
    + intros ->. done.
    + by exists (w_with_vt vt' DC_ERROR_NONE vm0), vm, vf, cpu.
Qed.

End Props.
