(* ===== verification/X86Examples.v ===== *)
(** * x86: the properties at concrete inputs *)

From S2P Require Export X86Props.

(** A 64-byte vector in a VM in the given mode. *)
Definition ex_vm86 (v : x86_vt) : DCCallVM_x86 := {|
  w_vt := v; w_mError := 0; mIntRegs := 0;
  w_vec := {| mTotal := 64; mSize := 0; vec_data := replicate 64 0xcc |};
|}.

Lemma ex_vm86_wf v : vec_wf (w_vec (ex_vm86 v)).
Proof. constructor; cbn; lia. Qed.

Definition ex_args86 : list arg :=
  [Arg TPointer 0x8000; Arg TLongLong (-2); Arg TUChar 255; Arg TDouble 0x4000000000000000; Arg TShort (-7)].

Lemma ex_args86_ok : Forall arg_ok ex_args86.
Proof. repeat (constructor; [reflexivity|]). constructor. Qed.

Definition ex_cpu86 : x86_cpu := {| ecx := 0; edx := 0; cpu_stack := [] |}.
Definition ex_ret86 : x86_ret := {| eax := 0; edx_ret := 0; st0 := None |}.

Lemma x86_scalar_call_end_to_end_witness :
  exists vm vf r,
    dcReset (C := x86_CallVM OsWindows true) (ex_vm86 gVT_x86_win32_this_ms_p) = Some vm /\
    push_args (C := x86_CallVM OsWindows true) vm ex_args86 = Some vf /\
    x86_run_callback (Build_DCCallback 0 (Some dcArgsVT_this_ms) (Some 0) 0) ex_cpu86 ex_ret86
      (replicate 8 0xaa) (map a_ty ex_args86) TLongLong (fun l => - 2 ^ 40)
      (dcCall_as (C := x86_CallVM OsWindows true) TLongLong vf 0) = Some r /\
    ret_value TLongLong r = Some (- 2 ^ 40).
Proof.
  apply (x86_scalar_call_end_to_end OsWindows true dcArgsVT_this_ms
           (Build_DCCallback 0 (Some dcArgsVT_this_ms) (Some 0) 0) ex_cpu86 ex_ret86 (replicate 8 0xaa)
           (ex_vm86 gVT_x86_win32_this_ms_p) ex_args86 TLongLong (fun l => - 2 ^ 40) 0);
    [split; [apply ex_vm86_wf|reflexivity]|vm_compute; discriminate
    |intros _; split; [reflexivity|vm_compute; discriminate]|apply ex_args86_ok|reflexivity|reflexivity|reflexivity].
Defined.

Lemma x86_callee_cleanup_balanced_witness :
  exists vm1 vm vf cpu,
    dcMode (C := x86_CallVM OsLinux false) (ex_vm86 gVT_x86_cdecl_p)
      (dcGetModeFromCCSigChar DC_SIGCHAR_CC_FASTCALL_GNU) = Some vm1 /\
    dcReset (C := x86_CallVM OsLinux false) vm1 = Some vm /\
    push_args (C := x86_CallVM OsLinux false) vm ex_args86 = Some vf /\
    kernel_enter ex_cpu86 (dcCallVoid (C := x86_CallVM OsLinux false) vf 0) = Some cpu /\
    Some 24 = Some (Z.of_nat (length (cpu_stack cpu))).
Proof.
  apply (x86_callee_cleanup_balanced OsLinux false DC_SIGCHAR_CC_FASTCALL_GNU 1 2 DC_SIGCHAR_VOID
           (Build_DCCallback 1 (Some dcArgsVT_fast_gnu) (Some 24) 2) ex_cpu86
           (ex_vm86 gVT_x86_cdecl_p) ex_args86 0);
    [right; right; left; reflexivity|reflexivity|reflexivity|apply ex_vm86_wf|vm_compute; discriminate|apply ex_args86_ok].
Defined.

Lemma x86_thiscall_cleanup_off_by_four_witness :
  exists vm1 vm vf cpu,
    dcMode (C := x86_CallVM OsWindows true) (ex_vm86 gVT_x86_cdecl_p)
      (dcGetModeFromCCSigChar DC_SIGCHAR_CC_THISCALL_MS) = Some vm1 /\
    dcReset (C := x86_CallVM OsWindows true) vm1 = Some vm /\
    push_args (C := x86_CallVM OsWindows true) vm ex_args86 = Some vf /\
    kernel_enter ex_cpu86 (dcCallVoid (C := x86_CallVM OsWindows true) vf 0) = Some cpu /\
    Some 28 = Some (Z.of_nat (length (cpu_stack cpu)) + 4).
Proof.
  apply (x86_thiscall_cleanup_off_by_four OsWindows true 1 2 DC_SIGCHAR_VOID
           (Build_DCCallback 1 (Some dcArgsVT_this_ms) (Some 28) 2) ex_cpu86
           (ex_vm86 gVT_x86_cdecl_p) ex_args86 0);
    [reflexivity|reflexivity|apply ex_vm86_wf|vm_compute; discriminate|apply ex_args86_ok
    |intros _; split; [reflexivity|vm_compute; discriminate]].
Defined.

Lemma x86_default_prefix_callback_unusable_witness :
  dcMode (C := x86_CallVM OsLinux false) (ex_vm86 gVT_x86_win32_std_p)
    (dcGetModeFromCCSigChar DC_SIGCHAR_CC_DEFAULT)
  = Some (w_with_vt gVT_x86_cdecl_p DC_ERROR_NONE (ex_vm86 gVT_x86_win32_std_p)) /\
  dcCallbackThunkEntry (Build_DCCallback 1 None None 2) ex_cpu86 = None /\
  (head (list_ascii_of_string "ii)i") <> Some DC_SIGCHAR_CC_PREFIX ->
   exists cb', dcbInitCallback2 OsLinux false (list_ascii_of_string "ii)i") 1 2 = Some cb' /\
               cb_args_vt cb' = reader_of gVT_x86_cdecl_p).
Proof.
  apply (x86_default_prefix_callback_unusable OsLinux false DC_SIGCHAR_CC_DEFAULT
           (list_ascii_of_string "ii)i") 1 2 (ex_vm86 gVT_x86_win32_std_p) ex_cpu86
           (Build_DCCallback 1 None None 2)); [left; reflexivity|reflexivity|reflexivity].
Defined.

Definition ex_regs86 : list arg := [Arg TInt 5; Arg TUInt 4000000000].

Lemma x86_fastcall_prefix_needs_reset_witness :
  dcCallF (C := x86_CallVM OsWindows true) id (fun k => cpu ← kernel_enter ex_cpu86 k; Some ex_ret86)
    (fun _ _ => 0) (ex_vm86 gVT_x86_cdecl_p) 0
    (signature_of (Some DC_SIGCHAR_CC_FASTCALL_MS) (map IScalar ex_regs86) RTVoid)
    (va_of_call id (map IScalar ex_regs86) RTVoid) = None /\
  exists vm1 vm2 vm3 cpu,
    dcMode (C := x86_CallVM OsWindows true) (ex_vm86 gVT_x86_cdecl_p)
      (dcGetModeFromCCSigChar DC_SIGCHAR_CC_FASTCALL_MS) = Some vm1 /\
    dcReset (C := x86_CallVM OsWindows true) vm1 = Some vm2 /\
    push_args (C := x86_CallVM OsWindows true) vm2 ex_regs86 = Some vm3 /\
    kernel_enter ex_cpu86 (dcCallVoid (C := x86_CallVM OsWindows true) vm3 0) = Some cpu.
Proof.
  apply (x86_fastcall_prefix_needs_reset OsWindows true id id (fun _ _ => 0) (fun _ => Some ex_ret86)
           DC_SIGCHAR_CC_FASTCALL_MS ex_cpu86 (ex_vm86 gVT_x86_cdecl_p) ex_regs86 0);
    [left; reflexivity|reflexivity|split; [apply ex_vm86_wf|reflexivity]|reflexivity|reflexivity
    |cbn; lia|repeat constructor|repeat constructor|cbn; lia].
Defined.

(** A formatted [stdcall] call with a [char], a [float] and a [long long]; the
    floating point conversions are the identity, which suits a [float] that
    never leaves its register. *)
Definition ex_callf86 : list item :=
  [IScalar (Arg TChar (-3)); IScalar (Arg TFloat 0x3f800000); IScalar (Arg TLongLong 7)].

Lemma dcCallF_by_hand_witness :
  exists p, call_by_hand (C := x86_CallVM OsWindows true) (fun _ => Some ex_ret86) (fun _ r => eax r)
    (ex_vm86 gVT_x86_cdecl_p) 0 (Some DC_SIGCHAR_CC_STDCALL) ex_callf86 (RTScalar TInt) = Some p /\
  dcCallF (C := x86_CallVM OsWindows true) id (fun _ => Some ex_ret86) (fun _ r => eax r)
    (ex_vm86 gVT_x86_cdecl_p) 0 (list_ascii_of_string "_scfl)i") [VInt (-3); VDouble 0x3f800000; VLongLong 7]
  = Some p.
Proof.
  eexists. split; [vm_compute; reflexivity|].
  etransitivity;
    [apply (dcCallF_by_hand id (fun _ => Some ex_ret86) (fun _ r => eax r) id (ex_vm86 gVT_x86_cdecl_p) 0
              (Some DC_SIGCHAR_CC_STDCALL) ex_callf86 (RTScalar TInt))|vm_compute; reflexivity].
  repeat (constructor; [split; [reflexivity|reflexivity]|]). constructor.
Defined.
