(* ===== verification/Arm64.v ===== *)
(** * ARM64: AAPCS64, Windows and Apple
      (dyncall/dyncall_callvm_arm64.{h,c}, dyncall_callvm_arm64_apple.c,
       dyncall_call_arm64.S, dyncallback/dyncall_args_arm64.c,
       dyncall_args_arm64_apple.c, dyncall_callback_arm64.{c,S},
       dyncall_thunk_arm64.c)

    The first eight integers and the first eight floating point numbers travel
    in registers, the rest on the stack: in eight-byte slots, or - on Apple's
    systems - packed with the alignment of their types. *)

From S2P Require Export Api.

Inductive arm64_os := A64Unix | A64Win | A64Apple.

#[export] Instance arm64_os_eq_dec : EqDecision arm64_os.
Proof. solve_decision. Defined.

Definition arm64_dm (os : arm64_os) : DataModel := {|
  dm_endian := LittleEndian;
  dm_size_bits := 64;
  dm_long_bits := match os with A64Win => 32 | _ => 64 end;
  dm_char_signed := match os with A64Unix => false | _ => true end
|}.

#[export] Instance arm64_dm_ok os : DataModelOk (DM := arm64_dm os).
Proof. split; destruct os; cbn; auto. Qed.

(** ** State (dyncall_callvm_arm64.h) *)

Inductive arm64_vt := vt_arm64_p | vt_arm64_win_varargs_p | vt_arm64_variadic_p.

(** [q_u] is the union [u] as its eight double words; on these little-endian
    systems [S[2k]] is the low half of [D[k]]. *)
Record DCCallVM_arm64 := {
  q_vt : arm64_vt;
  q_mError : Z;
  q_i : Z;
  q_f : Z;
  q_u : list Z;
  q_I : list Z;
  q_vec : DCVecHead;
}.

Definition q_with_vt (v : arm64_vt) (e : Z) (p : DCCallVM_arm64) : DCCallVM_arm64 :=
  {| q_vt := v; q_mError := e; q_i := q_i p; q_f := q_f p; q_u := q_u p; q_I := q_I p; q_vec := q_vec p |}.
Definition q_with_int (i : Z) (r : list Z) (p : DCCallVM_arm64) : DCCallVM_arm64 :=
  {| q_vt := q_vt p; q_mError := q_mError p; q_i := i; q_f := q_f p; q_u := q_u p; q_I := r; q_vec := q_vec p |}.
Definition q_with_float (f : Z) (u : list Z) (p : DCCallVM_arm64) : DCCallVM_arm64 :=
  {| q_vt := q_vt p; q_mError := q_mError p; q_i := q_i p; q_f := f; q_u := u; q_I := q_I p; q_vec := q_vec p |}.
Definition q_with_vec (v : DCVecHead) (p : DCCallVM_arm64) : DCCallVM_arm64 :=
  {| q_vt := q_vt p; q_mError := q_mError p; q_i := q_i p; q_f := q_f p; q_u := q_u p; q_I := q_I p; q_vec := v |}.

(** ** The call kernel (dyncall_call_arm64.S)

    It gets the address of the argument bytes, a size rounded up to a multiple
    of 16, and the register buffers. *)

Record arm64_kernel := dcCall_arm64 {
  ak_target : Z; ak_data : list Z; ak_size : Z; ak_u : list Z; ak_I : list Z
}.

Record arm64_cpu := { a_x : list Z; a_d : list Z; a_stack : list Z }.

(** The kernel copies pairs of words up to the rounded size; reading past the
    allocation is undefined. *)
Definition kernel_enter (k : arm64_kernel) : option arm64_cpu :=
  stack ← rd 0 (Z.to_nat (ak_size k)) (ak_data k);
  if (Z.of_nat (length (ak_u k)) =? 8) && (Z.of_nat (length (ak_I k)) =? 8)
  then Some {| a_x := ak_I k; a_d := ak_u k; a_stack := stack |}
  else None.

(** Return registers. *)
Record arm64_ret := { ret_x0 : Z; ret_d0 : Z }.

Section Arm64.
Variable os : arm64_os.
#[local] Hint Extern 0 DataModel => exact (arm64_dm os) : typeclass_instances.

(** The conversion [(DCdouble) x] on bit patterns. *)
Variable float_to_double : Z -> Z.

(** ** Operations of both files *)

Definition reset (p : DCCallVM_arm64) : option DCCallVM_arm64 :=
  Some (q_with_vec (dcVecReset (q_vec p)) (q_with_float 0 (q_u p) (q_with_int 0 (q_I p) p))).

Definition deinit (_ : DCCallVM_arm64) : unit := tt.

(** [p->I[p->i] = x; p->i++] *)
Definition a_reg (p : DCCallVM_arm64) (x : Z) : option DCCallVM_arm64 :=
  r ← aset (q_i p) (u64 x) (q_I p); Some (q_with_int (q_i p + 1) r p).

Definition a_append (p : DCCallVM_arm64) (bs : list Z) : option DCCallVM_arm64 :=
  v ← dcVecAppend (q_vec p) bs (Z.of_nat (length bs)); Some (q_with_vec v p).

Definition a_skip (p : DCCallVM_arm64) (n : Z) : DCCallVM_arm64 := q_with_vec (dcVecSkip (q_vec p) n) p.
Definition a_align (p : DCCallVM_arm64) (n : Z) : DCCallVM_arm64 := q_with_vec (dcVecAlign (q_vec p) n) p.

(** [p->u.S[p->f << 1] = x; p->f++] and [p->u.D[p->f] = x; p->f++] *)
Definition a_reg_S (p : DCCallVM_arm64) (x : Z) : option DCCallVM_arm64 :=
  d ← aget (q_f p) (q_u p);
  u ← aset (q_f p) (wrapU 32 x + 2 ^ 32 * (d / 2 ^ 32)) (q_u p);
  Some (q_with_float (q_f p + 1) u p).
Definition a_reg_D (p : DCCallVM_arm64) (x : Z) : option DCCallVM_arm64 :=
  u ← aset (q_f p) (u64 x) (q_u p); Some (q_with_float (q_f p + 1) u p).

(** ** dyncall_callvm_arm64.c *)

Definition a_i64 (p : DCCallVM_arm64) (x : Z) : option DCCallVM_arm64 :=
  if q_i p <? 8 then a_reg p x else a_append p (enc LittleEndian 8 x).
Definition a_bool (p : DCCallVM_arm64) (x : Z) := a_i64 p (conv TLongLong x).
Definition a_char (p : DCCallVM_arm64) (x : Z) := a_i64 p (conv TLongLong x).
Definition a_short (p : DCCallVM_arm64) (x : Z) := a_i64 p (conv TLongLong x).
Definition a_int (p : DCCallVM_arm64) (x : Z) := a_i64 p (conv TLongLong x).
Definition a_long (p : DCCallVM_arm64) (x : Z) := a_i64 p (conv TLongLong x).
Definition a_pointer (p : DCCallVM_arm64) (x : Z) := a_i64 p (conv TLongLong x).

Definition a_float (p : DCCallVM_arm64) (x : Z) : option DCCallVM_arm64 :=
  if q_f p <? 8 then a_reg_S p x
  else p ← a_append p (enc LittleEndian 4 x); Some (a_skip p 4).

Definition a_double (p : DCCallVM_arm64) (x : Z) : option DCCallVM_arm64 :=
  if q_f p <? 8 then a_reg_D p x else a_append p (enc LittleEndian 8 x).

Definition call (p : DCCallVM_arm64) (target : Z) : arm64_kernel :=
  dcCall_arm64 target (vec_data (q_vec p))
    (Z.land (u64 (dcVecSize (q_vec p) + 15)) (u64 (- 16))) (q_u p) (q_I p).

(** Windows varargs: everything is passed like an integer. *)
Definition var_float (p : DCCallVM_arm64) (x : Z) := a_i64 p (wrapU 32 x).
Definition var_double (p : DCCallVM_arm64) (x : Z) := a_i64 p x.

Definition mode (p : DCCallVM_arm64) (m : Z) : option DCCallVM_arm64 :=
  let base_init vt := q_with_vt vt DC_ERROR_NONE p in
  Some
    (if (m =? DC_CALL_C_ELLIPSIS) || (m =? DC_CALL_C_ELLIPSIS_VARARGS)
     then base_init (match os with A64Win => vt_arm64_win_varargs_p | _ => vt_arm64_p end)
     else if (m =? DC_CALL_C_DEFAULT) || (m =? DC_CALL_C_DEFAULT_THIS) || (m =? DC_CALL_C_ARM64)
     then base_init vt_arm64_p
     else q_with_vt (q_vt p) DC_ERROR_UNSUPPORTED_MODE p).

(** ** dyncall_callvm_arm64_apple.c *)

Definition apple_a_i64 (p : DCCallVM_arm64) (x : Z) : option DCCallVM_arm64 :=
  if q_i p <? 8 then a_reg p x else a_append (a_align p 8) (enc LittleEndian 8 x).

Definition apple_var_i64 (p : DCCallVM_arm64) (x : Z) : option DCCallVM_arm64 :=
  a_append (a_align p 8) (enc LittleEndian 8 x).
Definition apple_var_bool (p : DCCallVM_arm64) (x : Z) := apple_var_i64 p (conv TLongLong x).
Definition apple_var_char (p : DCCallVM_arm64) (x : Z) := apple_var_i64 p (conv TLongLong x).
Definition apple_var_short (p : DCCallVM_arm64) (x : Z) := apple_var_i64 p (conv TLongLong x).
Definition apple_var_int (p : DCCallVM_arm64) (x : Z) := apple_var_i64 p (conv TLongLong x).
Definition apple_var_long (p : DCCallVM_arm64) (x : Z) := apple_var_i64 p (conv TLongLong x).
Definition apple_var_double (p : DCCallVM_arm64) (x : Z) : option DCCallVM_arm64 :=
  a_append (a_align p 8) (enc LittleEndian 8 x).
Definition apple_var_float (p : DCCallVM_arm64) (x : Z) := apple_var_double p (float_to_double x).
Definition apple_var_pointer (p : DCCallVM_arm64) (x : Z) := apple_var_i64 p (conv TLongLong x).

Definition apple_a_bool (p : DCCallVM_arm64) (x : Z) : option DCCallVM_arm64 :=
  if q_i p <? 8 then a_reg p (conv TLongLong x) else a_append (a_align p 4) (enc LittleEndian 4 x).
Definition apple_a_char (p : DCCallVM_arm64) (x : Z) : option DCCallVM_arm64 :=
  if q_i p <? 8 then a_reg p (conv TLongLong x) else a_append p (enc LittleEndian 1 x).
Definition apple_a_short (p : DCCallVM_arm64) (x : Z) : option DCCallVM_arm64 :=
  if q_i p <? 8 then a_reg p (conv TLongLong x) else a_append (a_align p 2) (enc LittleEndian 2 x).
Definition apple_a_int (p : DCCallVM_arm64) (x : Z) : option DCCallVM_arm64 :=
  if q_i p <? 8 then a_reg p (conv TLongLong x) else a_append (a_align p 4) (enc LittleEndian 4 x).
Definition apple_a_long (p : DCCallVM_arm64) (x : Z) : option DCCallVM_arm64 :=
  if q_i p <? 8 then a_reg p (conv TLongLong x) else a_append (a_align p 8) (enc LittleEndian 8 x).
Definition apple_a_pointer (p : DCCallVM_arm64) (x : Z) := apple_a_i64 p (conv TLongLong x).

Definition apple_a_float (p : DCCallVM_arm64) (x : Z) : option DCCallVM_arm64 :=
  if q_f p <? 8 then a_reg_S p x else a_append (a_align p 4) (enc LittleEndian 4 x).
Definition apple_a_double (p : DCCallVM_arm64) (x : Z) : option DCCallVM_arm64 :=
  if q_f p <? 8 then a_reg_D p x else a_append (a_align p 8) (enc LittleEndian 8 x).

Definition apple_mode (p : DCCallVM_arm64) (m : Z) : option DCCallVM_arm64 :=
  let base_init vt := q_with_vt vt DC_ERROR_NONE p in
  Some
    (if (m =? DC_CALL_C_DEFAULT) || (m =? DC_CALL_C_DEFAULT_THIS) || (m =? DC_CALL_C_ARM64)
        || (m =? DC_CALL_C_ELLIPSIS)
     then base_init vt_arm64_p
     else if m =? DC_CALL_C_ELLIPSIS_VARARGS then base_init vt_arm64_variadic_p
     else q_with_vt (q_vt p) DC_ERROR_UNSUPPORTED_MODE p).

(** ** Tables *)

Definition vt_arm64 : DCCallVM_vt DCCallVM_arm64 arm64_kernel arm64_ret := Build_DCCallVM_vt
  deinit reset mode
  a_bool a_char a_short a_int a_long a_i64 a_float a_double a_pointer
  None (* argAggr *)
  call call call call call call call call call call
  None (* callAggr *)
  None (* beginAggr *).

Definition vt_arm64_win_varargs : DCCallVM_vt DCCallVM_arm64 arm64_kernel arm64_ret := Build_DCCallVM_vt
  deinit reset mode
  a_bool a_char a_short a_int a_long a_i64 var_float var_double a_pointer
  None (* argAggr *)
  call call call call call call call call call call
  None (* callAggr *)
  None (* beginAggr *).

Definition apple_vt_arm64 : DCCallVM_vt DCCallVM_arm64 arm64_kernel arm64_ret := Build_DCCallVM_vt
  deinit reset apple_mode
  apple_a_bool apple_a_char apple_a_short apple_a_int apple_a_long apple_a_i64
  apple_a_float apple_a_double apple_a_pointer
  None (* argAggr *)
  call call call call call call call call call call
  None (* callAggr *)
  None (* beginAggr *).

Definition vt_arm64_variadic : DCCallVM_vt DCCallVM_arm64 arm64_kernel arm64_ret := Build_DCCallVM_vt
  deinit reset apple_mode
  apple_var_bool apple_var_char apple_var_short apple_var_int apple_var_long apple_var_i64
  apple_var_float apple_var_double apple_var_pointer
  None (* argAggr *)
  call call call call call call call call call call
  None (* callAggr *)
  None (* beginAggr *).

#[export] Instance arm64_CallVM : CallVM DCCallVM_arm64 arm64_vt arm64_kernel arm64_ret := {
  mVTpointer := q_vt;
  mError := q_mError;
  deref v := match v with
             | vt_arm64_p => match os with A64Apple => apple_vt_arm64 | _ => vt_arm64 end
             | vt_arm64_win_varargs_p => vt_arm64_win_varargs
             | vt_arm64_variadic_p => vt_arm64_variadic
             end;
}.

(** [dcNewCallVM]: [mem] is the uninitialised header, [alloc] the [size] bytes
    behind it ([None]: the allocation failed, which the code does not check). *)
Definition dcNewCallVM (mem : DCCallVM_arm64) (alloc : option (list Z)) (size : Z)
    : option DCCallVM_arm64 :=
  alloc ← alloc;
  p ← (match os with A64Apple => apple_mode | _ => mode end) mem DC_CALL_C_DEFAULT;
  reset (q_with_vec (dcVecInit alloc size) p).

(** ** Argument access in a callback (dyncall_args_arm64.c, ..._apple.c)

    [sp] is the offset of the next stack argument; the stack starts 16-byte
    aligned, so that aligning an address is aligning the offset. *)

Record DCArgs := { I : list Z; F : list Z; sp : Z; i : Z; f : Z; args_stack : list Z }.

Definition r_with_i (n : Z) (p : DCArgs) : DCArgs :=
  {| I := I p; F := F p; sp := sp p; i := n; f := f p; args_stack := args_stack p |}.
Definition r_with_f (n : Z) (p : DCArgs) : DCArgs :=
  {| I := I p; F := F p; sp := sp p; i := i p; f := n; args_stack := args_stack p |}.
Definition r_with_sp (n : Z) (p : DCArgs) : DCArgs :=
  {| I := I p; F := F p; sp := n; i := i p; f := f p; args_stack := args_stack p |}.

Definition dcbArgLongLong : SO DCArgs Z := fun p =>
  if i p <? 8 then x ← aget (i p) (I p); Some (conv TLongLong x, r_with_i (i p + 1) p)
  else bs ← rd (sp p) 8 (args_stack p); Some (conv TLongLong (dec LittleEndian bs), r_with_sp (sp p + 8) p).
Definition dcbArgDouble : SO DCArgs Z := fun p =>
  if f p <? 8 then x ← aget (f p) (F p); Some (conv TDouble x, r_with_f (f p + 1) p)
  else bs ← rd (sp p) 8 (args_stack p); Some (conv TDouble (dec LittleEndian bs), r_with_sp (sp p + 8) p).
Definition dcbArgFloat : SO DCArgs Z := fun p =>
  if f p <? 8 then x ← aget (f p) (F p); Some (conv TFloat x, r_with_f (f p + 1) p)
  else bs ← rd (sp p) 4 (args_stack p); Some (conv TFloat (dec LittleEndian bs), r_with_sp (sp p + 8) p).

Definition dcbArgLong : SO DCArgs Z := x ← dcbArgLongLong; mret (conv TLong x).
Definition dcbArgInt : SO DCArgs Z := x ← dcbArgLongLong; mret (conv TInt x).
Definition dcbArgShort : SO DCArgs Z := x ← dcbArgLongLong; mret (conv TShort x).
Definition dcbArgChar : SO DCArgs Z := x ← dcbArgLongLong; mret (conv TChar x).
Definition dcbArgBool : SO DCArgs Z := x ← dcbArgLongLong; mret (Z.land x 1).
Definition dcbArgPointer : SO DCArgs Z := x ← dcbArgLongLong; mret (conv TPointer x).
Definition dcbArgUInt : SO DCArgs Z := x ← dcbArgInt; mret (conv TUInt x).
Definition dcbArgUChar : SO DCArgs Z := x ← dcbArgChar; mret (conv TUChar x).
Definition dcbArgUShort : SO DCArgs Z := x ← dcbArgShort; mret (conv TUShort x).
Definition dcbArgULong : SO DCArgs Z := x ← dcbArgLong; mret (conv TULong x).
Definition dcbArgULongLong : SO DCArgs Z := x ← dcbArgLongLong; mret (conv TULongLong x).

(** [align] of the Apple file, and a stack argument of [n] bytes. *)
Definition align (p v : Z) : Z := Z.land (p + v - 1) (- v).
Definition apple_stack (n : nat) : SO DCArgs (list Z) := fun p =>
  let s := align (sp p) (Z.of_nat n) in
  bs ← rd s n (args_stack p); Some (bs, r_with_sp (s + Z.of_nat n) p).
Definition apple_int (t : cty) (n : nat) : SO DCArgs Z := fun p =>
  if i p <? 8 then x ← aget (i p) (I p); Some (conv t x, r_with_i (i p + 1) p)
  else '(bs, p) ← apple_stack n p; Some (conv t (dec LittleEndian bs), p).

Definition apple_dcbArgLongLong : SO DCArgs Z := apple_int TLongLong 8.
Definition apple_dcbArgDouble : SO DCArgs Z := fun p =>
  if f p <? 8 then x ← aget (f p) (F p); Some (conv TDouble x, r_with_f (f p + 1) p)
  else '(bs, p) ← apple_stack 8 p; Some (conv TDouble (dec LittleEndian bs), p).
Definition apple_dcbArgFloat : SO DCArgs Z := fun p =>
  if f p <? 8 then x ← aget (f p) (F p); Some (conv TFloat x, r_with_f (f p + 1) p)
  else '(bs, p) ← apple_stack 4 p; Some (conv TFloat (dec LittleEndian bs), p).
Definition apple_dcbArgLong : SO DCArgs Z := apple_int TLong 8.
Definition apple_dcbArgInt : SO DCArgs Z := apple_int TInt 4.
Definition apple_dcbArgShort : SO DCArgs Z := apple_int TShort 2.
Definition apple_dcbArgChar : SO DCArgs Z := apple_int TChar 1.
Definition apple_dcbArgBool : SO DCArgs Z := apple_int TBool 4.
Definition apple_dcbArgPointer : SO DCArgs Z := x ← apple_dcbArgLongLong; mret (conv TPointer x).
Definition apple_dcbArgUInt : SO DCArgs Z := x ← apple_dcbArgInt; mret (conv TUInt x).
Definition apple_dcbArgUChar : SO DCArgs Z := x ← apple_dcbArgChar; mret (conv TUChar x).
Definition apple_dcbArgUShort : SO DCArgs Z := x ← apple_dcbArgShort; mret (conv TUShort x).
Definition apple_dcbArgULong : SO DCArgs Z := x ← apple_dcbArgLong; mret (conv TULong x).
Definition apple_dcbArgULongLong : SO DCArgs Z := x ← apple_dcbArgLongLong; mret (conv TULongLong x).

#[export] Instance arm64_ArgReader : ArgReader DCArgs := {
  dcbArg t :=
    match os with
    | A64Apple => match t with
      | TBool => apple_dcbArgBool | TChar => apple_dcbArgChar | TUChar => apple_dcbArgUChar
      | TShort => apple_dcbArgShort | TUShort => apple_dcbArgUShort | TInt => apple_dcbArgInt
      | TUInt => apple_dcbArgUInt | TLong => apple_dcbArgLong | TULong => apple_dcbArgULong
      | TLongLong => apple_dcbArgLongLong | TULongLong => apple_dcbArgULongLong
      | TFloat => apple_dcbArgFloat | TDouble => apple_dcbArgDouble
      | TPointer | TString => apple_dcbArgPointer
      end
    | _ => match t with
      | TBool => dcbArgBool | TChar => dcbArgChar | TUChar => dcbArgUChar
      | TShort => dcbArgShort | TUShort => dcbArgUShort | TInt => dcbArgInt
      | TUInt => dcbArgUInt | TLong => dcbArgLong | TULong => dcbArgULong
      | TLongLong => dcbArgLongLong | TULongLong => dcbArgULongLong
      | TFloat => dcbArgFloat | TDouble => dcbArgDouble
      | TPointer | TString => dcbArgPointer
      end
    end;
}.

(** ** Callbacks (dyncall_callback_arm64.{c,S}) *)

Record DCCallback := { cb_handler : Z; cb_userdata : Z }.

Definition dcbInitCallback2 (signature : list DCsigchar) (handler userdata : Z) : DCCallback :=
  {| cb_handler := handler; cb_userdata := userdata |}.

(** The thunk entry spills the argument registers into a [DCArgs]. *)
Definition dcCallbackThunkEntry (cpu : arm64_cpu) : DCArgs :=
  {| I := a_x cpu; F := a_d cpu; sp := 0; i := 0; f := 0; args_stack := a_stack cpu |}.

(** The handler stores its result in the [DCValue]; the entry loads it as the
    handler's result character says ([r0]: what the other register holds). *)
Definition dcvalue_set (t : cty) (x : Z) (result : list Z) : option (list Z) :=
  wr 0 (enc LittleEndian (Z.to_nat (sizeof_cty t)) x) result.

Definition callback_exit (r0 : arm64_ret) (ch : DCsigchar) (result : list Z) : option arm64_ret :=
  q ← rd 0 8 result;
  if Ascii.eqb ch DC_SIGCHAR_FLOAT || Ascii.eqb ch DC_SIGCHAR_DOUBLE
  then Some {| ret_x0 := ret_x0 r0; ret_d0 := dec LittleEndian q |}
  else Some {| ret_x0 := dec LittleEndian q; ret_d0 := ret_d0 r0 |}.

Definition ret_value (t : cty) (r : arm64_ret) : Z :=
  match t with
  | TFloat | TDouble => conv t (ret_d0 r)
  | _ => conv t (ret_x0 r)
  end.

(** [dcbInitThunk] (dyncall_thunk_arm64.c). *)
Definition dcbInitThunk (entry : Z) : list Z :=
  enc LittleEndian 4 0x10000009 ++ enc LittleEndian 4 0x5800006a
  ++ enc LittleEndian 4 0xd61f0140 ++ enc LittleEndian 4 0xd503201f ++ enc LittleEndian 8 entry.

End Arm64.
