(* ===== verification/Arm64Proofs.v ===== *)
(** * ARM64: the call VM and the argument reader agree *)

From S2P Require Export Arm64.

Section Defs.
Variable os : arm64_os.
Variable float_to_double : Z -> Z.
#[local] Hint Extern 0 DataModel => exact (arm64_dm os) : typeclass_instances.
#[local] Instance a64_vm : CallVM DCCallVM_arm64 arm64_vt arm64_kernel arm64_ret :=
  arm64_CallVM os float_to_double.

(** ** One description of all argument operations *)

Definition packed (v : arm64_vt) : bool :=
  match os, v with A64Apple, vt_arm64_p => true | _, _ => false end.

(** Bytes an argument takes on the stack, and bytes that are stored there. *)
Definition slot_of (v : arm64_vt) (t : cty) : Z := if packed v then sizeof_cty t else 8.
Definition data_of (v : arm64_vt) (t : cty) : Z :=
  if packed v then sizeof_cty t
  else match v, t with vt_arm64_p, TFloat => 4 | _, _ => 8 end.

(** Where the next stack argument goes when [s] bytes are used. *)
Definition slot_start (v : arm64_vt) (t : cty) (s : Z) : Z :=
  match os with A64Apple => align_up s (slot_of v t) | _ => s end.

Inductive arg_class := CInt | CFloat | CMem.

Definition class_of (v : arm64_vt) (t : cty) : arg_class :=
  match v with
  | vt_arm64_p => if is_float t then CFloat else CInt
  | vt_arm64_win_varargs_p => CInt
  | vt_arm64_variadic_p => CMem
  end.

Definition stack_push (vm : DCCallVM_arm64) (t : cty) (x : Z) : option DCCallVM_arm64 :=
  let n := slot_of (q_vt vm) t in
  let d := data_of (q_vt vm) t in
  p ← a_append os (match os with
                   | A64Apple => if n =? 1 then vm else a_align os vm n
                   | _ => vm
                   end) (enc LittleEndian (Z.to_nat d) x);
  Some (if d =? n then p else a_skip os p (n - d)).

Definition a64_push (vm : DCCallVM_arm64) (t : cty) (x : Z) : option DCCallVM_arm64 :=
  match class_of (q_vt vm) t with
  | CInt => if q_i vm <? 8 then a_reg vm x else stack_push vm t x
  | CFloat => if q_f vm <? 8 then (if ty_bits t =? 32 then a_reg_S vm x else a_reg_D vm x)
              else stack_push vm t x
  | CMem => stack_push vm t x
  end.

(** The tables an operating system uses. *)
Definition vt_ok (v : arm64_vt) : Prop :=
  match v with
  | vt_arm64_p => True
  | vt_arm64_win_varargs_p => os = A64Win
  | vt_arm64_variadic_p => os = A64Apple
  end.

(** A [float] among variable arguments becomes a [double] on Apple's systems. *)
Definition promote (v : arm64_vt) (a : arg) : arg :=
  match v, a_ty a with
  | vt_arm64_variadic_p, TFloat => Arg TDouble (float_to_double (a_val a))
  | _, _ => a
  end.

End Defs.

#[local] Ltac a64_unfold Evt :=
  unfold push_arg, dcArgBool, dcArgChar, dcArgShort, dcArgInt, dcArgLong, dcArgLongLong, dcArgPointer,
    dcArgFloat, dcArgDouble, vtable, promote, a64_push, stack_push, slot_of, data_of, packed;
  cbn [a_ty a_val api_value a64_vm arm64_CallVM mVTpointer deref is_float class_of]; rewrite Evt; cbn -[conv];
  unfold a_bool, a_char, a_short, a_int, a_long, var_float, var_double, a_pointer, a_i64, a_float, a_double,
    apple_a_bool, apple_a_char, apple_a_short, apple_a_int, apple_a_long, apple_a_pointer, apple_a_i64,
    apple_a_float, apple_a_double, apple_var_bool, apple_var_char, apple_var_short, apple_var_int,
    apple_var_long, apple_var_pointer, apple_var_i64, apple_var_float, apple_var_double;
  repeat match goal with
  | |- context [@sizeof_cty ?dm ?t] =>
      let v := eval vm_compute in (@sizeof_cty dm t) in change (@sizeof_cty dm t) with v
  end.
#[local] Ltac by_value y := exists y; split; [|first [apply conv_api_value|done]].

Lemma push_arg_a64 os f2d vm a :
  vt_ok os (q_vt vm) ->
  let b := promote f2d (q_vt vm) a in
  exists y, push_arg (DM := arm64_dm os) (C := a64_vm os f2d) vm a = a64_push os vm (a_ty b) y /\
    conv (DM := arm64_dm os) (a_ty b) y = conv (DM := arm64_dm os) (a_ty b) (a_val b).
Proof.
  intros Hv. destruct a as [t x].
  assert (E : conv (DM := arm64_dm os) t (conv (DM := arm64_dm os) TLongLong (api_value (DM := arm64_dm os) t x))
                        = conv (DM := arm64_dm os) t x).
  { rewrite conv_conv by apply (ty_bits_pos (DM := arm64_dm os)). apply conv_api_value. }
  assert (E' : conv (DM := arm64_dm os) t (api_value (DM := arm64_dm os) t x) = conv (DM := arm64_dm os) t x)
    by apply conv_api_value.
  assert (Hb : forall o : option DCCallVM_arm64, (p ← o; Some p) = o) by (by intros []).
  cbv zeta. destruct (q_vt vm) eqn:Evt; cbn in Hv; try subst os.
  - destruct os, t; a64_unfold Evt; 
    destruct (q_i vm <? 8); destruct (q_f vm <? 8);
      eexists; rewrite ?Hb; (split; [reflexivity|]); first [exact E|exact E'|reflexivity].
  - destruct t; a64_unfold Evt; destruct (q_i vm <? 8); 
      eexists; rewrite ?Hb; (split; [reflexivity|]); first [exact E|exact E'|reflexivity|apply (wrapU_wrapU 32 32); lia].
  - destruct t; a64_unfold Evt; 
      eexists; rewrite ?Hb; (split; [reflexivity|]); first [exact E|exact E'|reflexivity].
Qed.

Lemma slot_pow2 os v t : exists k, 0 <= k <= 3 /\ slot_of os v t = 2 ^ k.
Proof.
  destruct os, v; cbn; try (by exists 3).
  destruct t; first [by exists 0|by exists 1|by exists 2|by exists 3].
Qed.

Lemma data_bounds os v t : 0 < data_of os v t <= slot_of os v t.
Proof. destruct os, v, t; vm_compute; split; done. Qed.

Lemma data_bits os v t : ty_bits (DM := arm64_dm os) t <= 8 * data_of os v t.
Proof. destruct os, v, t; vm_compute; done. Qed.

Lemma slot_start_bounds os v t s : s <= slot_start os v t s < s + 8.
Proof.
  destruct (slot_pow2 os v t) as (k & Hk & E). unfold slot_start.
  assert (2 ^ k <= 2 ^ 3) by (apply Z.pow_le_mono_r; lia). pose proof (pow2_pos k).
  pose proof (align_up_bounds s (slot_of os v t) ltac:(lia)). destruct os; lia.
Qed.

Lemma slot_end os v t s :
  slot_start os v t s + slot_of os v t <= align_up s 8 + 8 /\ 0 < slot_of os v t <= 8.
Proof.
  destruct (slot_pow2 os v t) as (k & Hk & E). pose proof (align_up_bounds s 8 ltac:(lia)).
  pose proof (pow2_pos k ltac:(lia)).
  assert (H8 : 8 = 2 ^ (3 - k) * 2 ^ k) by (rewrite <- Z.pow_add_r, Z.sub_add by lia; done).
  assert (2 ^ k <= 8) by (change 8 with (2 ^ 3); apply Z.pow_le_mono_r; lia).
  assert (align_up s (2 ^ k) <= align_up s 8).
  { apply align_up_least; [lia| |lia]. unfold align_up at 1. exists ((s + 8 - 1) / 8 * 2 ^ (3 - k)).
    rewrite <- Z.mul_assoc, <- H8. done. }
  pose proof (align_up_bounds s (2 ^ k) ltac:(lia)).
  rewrite E. unfold slot_start. rewrite E. destruct os; lia.
Qed.

Lemma slot_start_one os v t s : slot_of os v t = 1 -> slot_start os v t s = s.
Proof. unfold slot_start, align_up. intros ->. destruct os; rewrite ?Z.div_1_r; lia. Qed.

(** ** Where the ABIs put scalar arguments

    [ngrn] and [nsrn] count the integer and floating point registers in use,
    [nsaa] the bytes of stack.  A stack slot has eight bytes, on Apple's systems
    the size and alignment of the type; variable arguments take eight-byte
    stack slots there and integer registers on Windows. *)

Inductive a64_loc := AX (k : Z) | AD (k : Z) | AStk (off n : Z).
Record a64_pos := { ngrn : Z; nsrn : Z; nsaa : Z }.

Definition alloc_arg (os : arm64_os) (v : arm64_vt) (t : cty) (p : a64_pos) : a64_loc * a64_pos :=
  let s := slot_start os v t (nsaa p) in
  let on_stack := (AStk s (data_of os v t),
                   {| ngrn := ngrn p; nsrn := nsrn p; nsaa := s + slot_of os v t |}) in
  match class_of v t with
  | CInt => if ngrn p <? 8 then (AX (ngrn p), {| ngrn := ngrn p + 1; nsrn := nsrn p; nsaa := nsaa p |})
            else on_stack
  | CFloat => if nsrn p <? 8 then (AD (nsrn p), {| ngrn := ngrn p; nsrn := nsrn p + 1; nsaa := nsaa p |})
              else on_stack
  | CMem => on_stack
  end.

Definition loc_read (x d stack : list Z) (l : a64_loc) : option Z :=
  match l with
  | AX k => aget k x
  | AD k => aget k d
  | AStk off n => bs ← rd off (Z.to_nat n) stack; Some (dec LittleEndian bs)
  end.

Definition pos_of (vm : DCCallVM_arm64) : a64_pos :=
  {| ngrn := q_i vm; nsrn := q_f vm; nsaa := mSize (q_vec vm) |}.

Section Proofs.
Variable os : arm64_os.
Variable float_to_double : Z -> Z.
#[local] Hint Extern 0 DataModel => exact (arm64_dm os) : typeclass_instances.
#[local] Existing Instance a64_vm.

Record a64_inv (vm : DCCallVM_arm64) : Prop := {
  qi_vt : vt_ok os (q_vt vm);
  qi_vec : vec_wf (q_vec vm) /\ vec_room (q_vec vm) 0;
  qi_i : 0 <= q_i vm <= 8;
  qi_f : 0 <= q_f vm <= 8;
  qi_len : length (q_I vm) = 8%nat /\ length (q_u vm) = 8%nat;
}.

Record a64_ext (a b : DCCallVM_arm64) : Prop := {
  qe_vec : prefix (vec_bytes (q_vec a)) (vec_bytes (q_vec b));
  qe_i : q_i a <= q_i b /\ forall k, 0 <= k < q_i a -> aget k (q_I b) = aget k (q_I a);
  qe_f : q_f a <= q_f b /\ forall k, 0 <= k < q_f a -> aget k (q_u b) = aget k (q_u a);
}.

Lemma a64_ext_refl vm : a64_ext vm vm.
Proof. by constructor. Qed.

Lemma a64_ext_trans a b c : a64_ext a b -> a64_ext b c -> a64_ext a c.
Proof.
  intros [V1 [C1 I1] [D1 F1]] [V2 [C2 I2] [D2 F2]]. constructor.
  - by etrans.
  - split; [lia|]. intros k Hk. rewrite I2, I1 by lia. done.
  - split; [lia|]. intros k Hk. rewrite F2, F1 by lia. done.
Qed.

(** Moving the fill level to the next slot of a stack argument. *)
Lemma a64_align_ok vm t :
  vec_wf (q_vec vm) -> fits (q_vec vm) ->
  let n := slot_of os (q_vt vm) t in
  exists v, match os with A64Apple => if n =? 1 then vm else a_align os vm n | _ => vm end = q_with_vec v vm /\
    vec_wf v /\ mTotal v = mTotal (q_vec vm) /\ mSize v = slot_start os (q_vt vm) t (mSize (q_vec vm)) /\
    prefix (vec_bytes (q_vec vm)) (vec_bytes v) /\ length (vec_data v) = length (vec_data (q_vec vm)).
Proof.
  intros Hw Hr n. unfold fits in Hr. pose proof (slot_start_bounds os (q_vt vm) t (mSize (q_vec vm))) as Hb.
  destruct (slot_end os (q_vt vm) t (mSize (q_vec vm))) as [He Hn]. fold n in He, Hn.
  pose proof (align_up_bounds (mSize (q_vec vm)) 8 ltac:(lia)).
  assert (Hsame : slot_start os (q_vt vm) t (mSize (q_vec vm)) = mSize (q_vec vm) ->
    exists v, vm = q_with_vec v vm /\
    vec_wf v /\ mTotal v = mTotal (q_vec vm) /\ mSize v = slot_start os (q_vt vm) t (mSize (q_vec vm)) /\
    prefix (vec_bytes (q_vec vm)) (vec_bytes v) /\ length (vec_data v) = length (vec_data (q_vec vm))).
  { intros E. exists (q_vec vm). split_and!; try done. by destruct vm. }
  destruct (decide (os = A64Apple)) as [Eos|]; cycle 1.
  { assert (slot_start os (q_vt vm) t (mSize (q_vec vm)) = mSize (q_vec vm)) as E.
    { unfold slot_start. by destruct os. }
    destruct (Hsame E) as (v & Hv & ?). exists v. split; [by destruct os|done]. }
  destruct (Z.eqb_spec n 1) as [E|E].
  { destruct (Hsame (slot_start_one _ _ _ _ E)) as (v & Hv & ?). exists v. split; [by rewrite Eos|done]. }
  destruct (slot_pow2 os (q_vt vm) t) as (k & Hk & En). fold n in En.
  assert (Hs : slot_start os (q_vt vm) t (mSize (q_vec vm)) = align_up (mSize (q_vec vm)) (2 ^ k)).
  { unfold slot_start. rewrite Eos at 1. by rewrite <- En. }
  assert (2 ^ k <= 2 ^ 3) by (apply Z.pow_le_mono_r; lia).
  assert (dcVecAlign (q_vec vm) n = dcVecResize (q_vec vm) (align_up (mSize (q_vec vm)) (2 ^ k))) as Ha.
  { rewrite En. apply dcVecAlign_ok; [done|cbn; lia|]. unfold vec_room in *. lia. }
  unfold vec_room in *.
  destruct (dcVecResize_forward (q_vec vm) (align_up (mSize (q_vec vm)) (2 ^ k)) Hw ltac:(lia)) as [Hw' Hp'].
  eexists. split; [rewrite Eos at 1; unfold a_align; by rewrite Ha|]. done.
Qed.

(** A stack argument: it is stored at the next slot and stays there. *)
Lemma a64_stack_ok vm t x :
  a64_inv vm -> fits (q_vec vm) ->
  let n := slot_of os (q_vt vm) t in
  let d := data_of os (q_vt vm) t in
  let s := slot_start os (q_vt vm) t (mSize (q_vec vm)) in
  exists vm', stack_push os vm t x = Some vm' /\ a64_inv vm' /\ a64_ext vm vm' /\
    q_vt vm' = q_vt vm /\ q_i vm' = q_i vm /\ q_f vm' = q_f vm /\
    mTotal (q_vec vm') = mTotal (q_vec vm) /\ mSize (q_vec vm') = s + n /\
    length (vec_data (q_vec vm')) = length (vec_data (q_vec vm)) /\
    rd s (Z.to_nat d) (vec_bytes (q_vec vm')) = Some (enc LittleEndian (Z.to_nat d) x).
Proof.
  intros [Hvt [Hw H0] Hi Hf Hlen] Hr n d s.
  destruct (slot_end os (q_vt vm) t (mSize (q_vec vm))) as [He Hn8]. fold n in He, Hn8. fold s in He.
  pose proof (slot_start_bounds os (q_vt vm) t (mSize (q_vec vm))) as Hb. fold s in Hb.
  pose proof (data_bounds os (q_vt vm) t) as Hd. fold n d in Hd.
  destruct (a64_align_ok vm t Hw Hr) as (v & Hv & Hwv & Htv & Hsv & Hpv & Hlv).
  fold n in Hv. fold s in Hsv. unfold stack_push. fold n d. rewrite Hv. unfold a_append. cbn [q_vec q_with_vec].
  destruct (dcVecAppend_ok v (enc LittleEndian (Z.to_nat d) x) _ Hwv eq_refl)
    as (u & Hu & Hwu & Htu & Hsu & Hlu & Hbu & _).
  { unfold vec_room, fits in *. rewrite length_enc. lia. }
  unfold fits, vec_room in *. rewrite Hu. cbn [mbind option_bind]. rewrite length_enc in Hsu.
  assert (Hrd : rd s (Z.to_nat d) (vec_bytes u) = Some (enc LittleEndian (Z.to_nat d) x)).
  { rewrite Hbu. apply rd_app; [|by rewrite length_enc]. rewrite length_vec_bytes; [lia|done|].
    unfold vec_room. lia. }
  assert (Hl : length (vec_data u) = length (vec_data (q_vec vm))).
  { congruence. }
  assert (Hpre : prefix (vec_bytes (q_vec vm)) (vec_bytes u)).
  { etrans; [exact Hpv|]. rewrite Hbu. by apply prefix_app_r. }
  set (w := if d =? n then u else dcVecSkip u (n - d)).
  assert (Hw' : vec_wf w /\ mTotal w = mTotal (q_vec vm) /\ mSize w = s + n /\
            prefix (vec_bytes u) (vec_bytes w) /\ length (vec_data w) = length (vec_data u)).
  { unfold w. destruct (Z.eqb_spec d n) as [E|E]; [split_and!; try done; lia|].
    rewrite dcVecSkip_ok by (unfold vec_room; done || lia).
    destruct (dcVecResize_forward u (mSize u + (n - d)) Hwu ltac:(lia)) as [? ?].
    split_and!; try done; cbn; lia. }
  destruct Hw' as (Hww & Htw & Hsw & Hpw & Hlw).
  exists (q_with_vec w vm). split_and!; try done.
  - unfold w, a_skip. by destruct (d =? n).
  - constructor; cbn; try done. split; [done|]. unfold vec_room. lia.
  - constructor; cbn; [by etrans|done..].
  - cbn. by rewrite Hlw.
  - cbn. by eapply rd_prefix.
Qed.

(** A register argument. *)
Lemma a64_reg_ok vm x :
  a64_inv vm -> q_i vm < 8 ->
  exists r, a_reg vm x = Some (q_with_int (q_i vm + 1) r vm) /\
    a64_inv (q_with_int (q_i vm + 1) r vm) /\ a64_ext vm (q_with_int (q_i vm + 1) r vm) /\
    aget (q_i vm) r = Some (u64 x).
Proof.
  intros [Hvt Hv Hi Hf [HI Hu]] Hlt. unfold a_reg. rewrite aset_Some by lia. cbn [mbind option_bind].
  eexists; split; [done|]. split_and!; [| |apply aget_insert_eq; lia].
  - constructor; cbn; try done; [lia|]. by rewrite length_insert.
  - constructor; cbn; try done. split; [lia|]. intros. apply aget_insert_ne; lia.
Qed.

(** A floating point register: its low bytes hold the argument. *)
Lemma a64_freg_ok vm t x :
  a64_inv vm -> q_f vm < 8 -> is_float t = true ->
  exists u y, (if ty_bits t =? 32 then a_reg_S vm x else a_reg_D vm x)
           = Some (q_with_float (q_f vm + 1) u vm) /\
    a64_inv (q_with_float (q_f vm + 1) u vm) /\ a64_ext vm (q_with_float (q_f vm + 1) u vm) /\
    aget (q_f vm) u = Some y /\ conv t y = conv t x.
Proof.
  intros [Hvt Hv Hi Hf [HI Hu]] Hlt Ht.
  destruct (aget_Some (q_f vm) (q_u vm) ltac:(lia)) as (d & Hd).
  set (y := if ty_bits t =? 32 then wrapU 32 x + 2 ^ 32 * (d / 2 ^ 32) else u64 x).
  exists (<[Z.to_nat (q_f vm) := y]> (q_u vm)), y. split_and!.
  - unfold a_reg_S, a_reg_D, y. rewrite Hd. cbn [mbind option_bind].
    destruct (ty_bits t =? 32); rewrite aset_Some by lia; done.
  - constructor; cbn; try done; [lia|]. by rewrite length_insert.
  - constructor; cbn; try done. split; [lia|]. intros. apply aget_insert_ne; lia.
  - apply aget_insert_eq. lia.
  - unfold y. destruct t; try done; cbn [conv ty_bits].
    + change (32 =? 32) with true. cbn beta iota. unfold wrapU.
      rewrite (Z.mul_comm (2 ^ 32)), Z.mod_add, Z.mod_mod by lia. done.
    + change (64 =? 32) with false. apply wrapU_wrapU. lia.
Qed.

Definition a64_room (vm : DCCallVM_arm64) (t : cty) : Prop :=
  match (alloc_arg os (q_vt vm) t (pos_of vm)).1 with
  | AStk _ _ => fits (q_vec vm)
  | _ => True
  end.

(** Every argument goes where the ABI says, and is still there in every later
    state. *)
Lemma a64_push_ok vm t x :
  a64_inv vm -> a64_room vm t ->
  let '(loc, pos) := alloc_arg os (q_vt vm) t (pos_of vm) in
  exists vm', a64_push os vm t x = Some vm' /\ a64_inv vm' /\ a64_ext vm vm' /\
    q_vt vm' = q_vt vm /\ pos_of vm' = pos /\ mTotal (q_vec vm') = mTotal (q_vec vm) /\
    length (vec_data (q_vec vm')) = length (vec_data (q_vec vm)) /\
    exists y, conv t y = conv t x /\
      forall vf stack, a64_ext vm' vf -> prefix (vec_bytes (q_vec vf)) stack ->
        loc_read (q_I vf) (q_u vf) stack loc = Some y.
Proof.
  intros Hi. unfold a64_room.
  assert (Hstk : fits (q_vec vm) ->
    let s := slot_start os (q_vt vm) t (mSize (q_vec vm)) in
    exists vm', stack_push os vm t x = Some vm' /\ a64_inv vm' /\ a64_ext vm vm' /\
      q_vt vm' = q_vt vm /\
      pos_of vm' = {| ngrn := q_i vm; nsrn := q_f vm; nsaa := s + slot_of os (q_vt vm) t |} /\
      mTotal (q_vec vm') = mTotal (q_vec vm) /\
      length (vec_data (q_vec vm')) = length (vec_data (q_vec vm)) /\
      exists y, conv t y = conv t x /\
        forall vf stack, a64_ext vm' vf -> prefix (vec_bytes (q_vec vf)) stack ->
          loc_read (q_I vf) (q_u vf) stack (AStk s (data_of os (q_vt vm) t)) = Some y).
  { intros Hr. cbv zeta. destruct (a64_stack_ok vm t x Hi Hr) as (vm' & Hp & Hi' & Hx & Hvt & Hqi & Hqf & Ht & Hs & Hl & Hrd).
    exists vm'. split_and!; try done; [unfold pos_of; by rewrite Hqi, Hqf, Hs|].
    pose proof (data_bounds os (q_vt vm) t). pose proof (data_bits os (q_vt vm) t).
    exists (wrapU (8 * data_of os (q_vt vm) t) x). split; [by apply conv_wrapU|].
    intros vf stack [Hpre _ _] Hst. cbn [loc_read].
    rewrite (rd_prefix _ _ (vec_bytes (q_vec vm')) stack _ ltac:(by etrans) Hrd). cbn [mbind option_bind].
    rewrite dec_enc, Z2Nat.id by lia. done. }
  unfold alloc_arg, a64_push, pos_of in *. cbn [ngrn nsrn nsaa].
  destruct (class_of (q_vt vm) t) eqn:Ec; [| |exact Hstk].
  - destruct (Z.ltb_spec (q_i vm) 8); [|exact Hstk]. intros _.
    destruct (a64_reg_ok vm x Hi ltac:(lia)) as (r & -> & Hi' & Hx & Hg).
    eexists; split_and!; try done. exists (u64 x). split; [apply conv_wrapU; apply ty_bits_pos|].
    intros vf stack [_ [_ HI] _] _. cbn [loc_read]. rewrite HI; [done|]. cbn. destruct Hi. lia.
  - destruct (Z.ltb_spec (q_f vm) 8); [|exact Hstk]. intros _.
    assert (Ht : is_float t = true) by (unfold class_of in Ec; destruct (q_vt vm), (is_float t); done).
    destruct (a64_freg_ok vm t x Hi ltac:(lia) Ht) as (r & y & -> & Hi' & Hx & Hg & Hy).
    eexists; split_and!; try done. exists y. split; [done|].
    intros vf stack [_ _ [_ HF]] _. cbn [loc_read]. rewrite HF; [done|]. cbn. destruct Hi. lia.
Qed.

End Proofs.

(** ** The reader looks in the same places *)

Definition reader_at (p : DCArgs) (pos : a64_pos) : DCArgs :=
  {| I := I p; F := F p; sp := nsaa pos; i := ngrn pos; f := nsrn pos; args_stack := args_stack p |}.
Definition reader_pos (p : DCArgs) : a64_pos := {| ngrn := i p; nsrn := f p; nsaa := sp p |}.

(** The low bit of a truth value. *)
Lemma bool_low_bit y x : wrapS 32 y = x -> x = 0 \/ x = 1 -> Z.land (wrapS 64 y) 1 = x.
Proof.
  intros Hy Hx. change 1 with (Z.ones 1). rewrite Z.land_ones by lia.
  change (wrapU 1 (wrapS 64 y) = x). rewrite wrapU_wrapS, <- (wrapU_wrapS 1 32), Hy by lia.
  by destruct Hx as [-> | ->].
Qed.

Lemma align_pow2 s k : 0 <= k -> align s (2 ^ k) = align_up s (2 ^ k).
Proof. intros. unfold align, align_up. rewrite land_neg_pow2_Z by done. done. Qed.

(** The integer readers behind all others. *)
Lemma fetch_int os p t y :
  let '(loc, pos) := alloc_arg os vt_arm64_p t (reader_pos p) in
  loc_read (I p) (F p) (args_stack p) loc = Some y -> is_float t = false -> os <> A64Apple ->
  dcbArgLongLong os p = Some (conv (DM := arm64_dm os) TLongLong y, reader_at p pos).
Proof.
  destruct (alloc_arg os vt_arm64_p t (reader_pos p)) as [loc pos] eqn:E. intros Hl Ht Hos.
  unfold alloc_arg, reader_pos in E. cbn [ngrn nsrn nsaa class_of] in E. rewrite Ht in E.
  unfold dcbArgLongLong. destruct (i p <? 8).
  - injection E as <- <-. cbn [loc_read] in Hl. by rewrite Hl.
  - assert (slot_start os vt_arm64_p t (sp p) = sp p /\ data_of os vt_arm64_p t = 8 /\ slot_of os vt_arm64_p t = 8)
      as (E1 & E2 & E3) by (destruct os, t; done).
    rewrite E1, E2, E3 in E. injection E as <- <-. cbn [loc_read] in Hl.
    apply bind_Some in Hl as (bs & Hbs & [= <-]). change (Z.to_nat 8) with 8%nat in Hbs. by rewrite Hbs.
Qed.

Lemma apple_fetch_stack p t y pos :
  (AStk (slot_start A64Apple vt_arm64_p t (sp p)) (data_of A64Apple vt_arm64_p t),
   {| ngrn := i p; nsrn := f p;
      nsaa := slot_start A64Apple vt_arm64_p t (sp p) + slot_of A64Apple vt_arm64_p t |}) = pos ->
  loc_read (I p) (F p) (args_stack p) pos.1 = Some y ->
  exists bs, apple_stack (Z.to_nat (slot_of A64Apple vt_arm64_p t)) p = Some (bs, reader_at p pos.2) /\
    dec LittleEndian bs = y.
Proof.
  intros <- Hl. cbn [fst snd] in *. cbn [loc_read] in Hl. apply bind_Some in Hl as (bs & Hbs & [= <-]).
  exists bs. split; [|done]. unfold apple_stack.
  destruct (slot_pow2 A64Apple vt_arm64_p t) as (k & Hk & En).
  rewrite Z2Nat.id by (destruct t; vm_compute; done).
  assert (align (sp p) (slot_of A64Apple vt_arm64_p t) = slot_start A64Apple vt_arm64_p t (sp p)) as ->.
  { unfold slot_start. rewrite En. apply align_pow2. lia. }
  change (data_of A64Apple vt_arm64_p t) with (slot_of A64Apple vt_arm64_p t) in Hbs. by rewrite Hbs.
Qed.

Lemma apple_fetch_int p t y t' :
  let '(loc, pos) := alloc_arg A64Apple vt_arm64_p t (reader_pos p) in
  loc_read (I p) (F p) (args_stack p) loc = Some y -> is_float t = false ->
  apple_int A64Apple t' (Z.to_nat (slot_of A64Apple vt_arm64_p t)) p
  = Some (conv (DM := arm64_dm A64Apple) t' y, reader_at p pos).
Proof.
  destruct (alloc_arg A64Apple vt_arm64_p t (reader_pos p)) as [loc pos] eqn:E. intros Hl Ht.
  unfold alloc_arg, reader_pos in E. cbn [ngrn nsrn nsaa class_of] in E. rewrite Ht in E.
  unfold apple_int. destruct (i p <? 8).
  - injection E as <- <-. cbn [loc_read] in Hl. by rewrite Hl.
  - destruct (apple_fetch_stack p t y _ E Hl) as (bs & -> & <-). done.
Qed.

Lemma fetch_float os p t y :
  let '(loc, pos) := alloc_arg os vt_arm64_p t (reader_pos p) in
  loc_read (I p) (F p) (args_stack p) loc = Some y -> is_float t = true ->
  dcbArg (ArgReader := arm64_ArgReader os) t p = Some (conv (DM := arm64_dm os) t y, reader_at p pos).
Proof.
  destruct (alloc_arg os vt_arm64_p t (reader_pos p)) as [loc pos] eqn:E. intros Hl Ht.
  unfold alloc_arg, reader_pos in E. cbn [ngrn nsrn nsaa class_of] in E. rewrite Ht in E.
  destruct os; (destruct t; [discriminate..|idtac|idtac|discriminate|discriminate]);
    cbn [dcbArg arm64_ArgReader];
    unfold dcbArgDouble, dcbArgFloat, apple_dcbArgDouble, apple_dcbArgFloat;
    (destruct (f p <? 8); [injection E as <- <-; cbn [loc_read] in Hl; by rewrite Hl|]).
  5: destruct (apple_fetch_stack p TFloat y _ E Hl) as (bs & Hbs & <-);
    change (Z.to_nat (slot_of A64Apple vt_arm64_p TFloat)) with 4%nat in Hbs; by rewrite Hbs.
  5: destruct (apple_fetch_stack p TDouble y _ E Hl) as (bs & Hbs & <-);
    change (Z.to_nat (slot_of A64Apple vt_arm64_p TDouble)) with 8%nat in Hbs; by rewrite Hbs.
  all: injection E as <- <-; cbn [loc_read] in Hl; apply bind_Some in Hl as (bs & Hbs & [= <-]);
    cbn in Hbs; repeat change (Z.to_nat 4) with 4%nat in Hbs; repeat change (Z.to_nat 8) with 8%nat in Hbs;
    by rewrite Hbs.
Qed.

(** Every argument of the default convention is read from where it was put. *)
Lemma dcbArg_a64 os p t x y :
  let '(loc, pos) := alloc_arg os vt_arm64_p t (reader_pos p) in
  loc_read (I p) (F p) (args_stack p) loc = Some y ->
  val_ok (DM := arm64_dm os) t x -> conv (DM := arm64_dm os) t y = conv (DM := arm64_dm os) t x ->
  dcbArg (ArgReader := arm64_ArgReader os) t p = Some (x, reader_at p pos).
Proof.
  pose proof (fetch_int os p t y) as Hi. pose proof (fetch_float os p t y) as Hf.
  pose proof (fun t' => apple_fetch_int p t y t') as Ha.
  destruct (decide (os = A64Apple)) as [->|Hos].
  - destruct (alloc_arg A64Apple vt_arm64_p t (reader_pos p)) as [loc pos]. intros Hl Hx Hy.
    rewrite (val_ok_conv _ _ Hx) in Hy. destruct (is_float t) eqn:Ht; [rewrite Hf by done; by rewrite Hy|].
    clear Hf Hi. destruct t; try done; cbn [dcbArg arm64_ArgReader];
      unfold apple_dcbArgUInt, apple_dcbArgUChar, apple_dcbArgUShort, apple_dcbArgULong,
        apple_dcbArgULongLong, apple_dcbArgPointer, apple_dcbArgBool, apple_dcbArgInt, apple_dcbArgChar,
        apple_dcbArgShort, apple_dcbArgLong, apple_dcbArgLongLong, mbind, SO_bind, mret, SO_ret;
      match goal with |- context [apple_int _ ?t' ?n] =>
        assert (apple_int A64Apple t' n p = Some (conv (DM := arm64_dm A64Apple) t' y, reader_at p pos)) as ->
          by exact (Ha t' Hl eq_refl)
      end; cbn beta iota; try (by rewrite Hy); rewrite ?conv_conv by (cbn; lia); try (by rewrite Hy).
    change (conv (DM := arm64_dm A64Apple) TPointer y) with (conv (DM := arm64_dm A64Apple) TString y). by rewrite Hy.
  - destruct (alloc_arg os vt_arm64_p t (reader_pos p)) as [loc pos]. intros Hl Hx Hy.
    rewrite (val_ok_conv _ _ Hx) in Hy. destruct (is_float t) eqn:Ht; [rewrite Hf by done; by rewrite Hy|].
    specialize (Hi Hl eq_refl Hos). clear Hf Ha.
    assert (Hb : t = TBool -> Z.land (conv (DM := arm64_dm os) TLongLong y) 1 = x).
    { intros ->. apply bool_low_bit; [exact Hy|exact Hx]. }
    destruct os, t; try done; cbn [dcbArg arm64_ArgReader];
      unfold dcbArgUInt, dcbArgUChar, dcbArgUShort, dcbArgULong, dcbArgULongLong, dcbArgPointer, dcbArgBool,
        dcbArgInt, dcbArgChar, dcbArgShort, dcbArgLong, mbind, SO_bind, mret, SO_ret; rewrite Hi; cbn beta iota;
      rewrite ?Hb by done; try done; rewrite ?conv_conv by (cbn; lia); try (by rewrite Hy).
    all: by (etrans; [|by rewrite <- Hy]).
Qed.

Section Convention.
Variable os : arm64_os.
Variable float_to_double : Z -> Z.
#[local] Hint Extern 0 DataModel => exact (arm64_dm os) : typeclass_instances.
#[local] Existing Instance a64_vm.
#[local] Existing Instance arm64_ArgReader.

Record a64_at (vm vf : DCCallVM_arm64) (p : DCArgs) : Prop := {
  qa_regs : I p = q_I vf /\ F p = q_u vf;
  qa_pos : reader_pos p = pos_of vm;
  qa_stack : prefix (vec_bytes (q_vec vf)) (args_stack p);
}.

Lemma a64_step vm a :
  a64_inv os vm /\ q_vt vm = vt_arm64_p -> a64_room os vm (a_ty a) -> arg_ok a ->
  exists vm', push_arg (C := a64_vm os float_to_double) vm a = Some vm' /\
    (a64_inv os vm' /\ q_vt vm' = vt_arm64_p) /\ a64_ext vm vm' /\
    forall vf p, a64_inv os vf /\ q_vt vf = vt_arm64_p -> a64_ext vm' vf -> a64_at vm vf p ->
      exists p', dcbArg (ArgReader := arm64_ArgReader os) (a_ty a) p = Some (a_val a, p') /\ a64_at vm' vf p'.
Proof.
  intros [Hi Hvt] Hr Ha. destruct a as [t x]. cbn [a_ty a_val] in *.
  destruct (push_arg_a64 os float_to_double vm (Arg t x)) as (y & -> & Hy); [by rewrite Hvt|].
  rewrite Hvt in *. cbn [promote a_ty a_val] in *.
  pose proof (a64_push_ok os vm t y Hi Hr) as Hp. rewrite Hvt in Hp.
  pose proof (fun p y => dcbArg_a64 os p t x y) as Hread.
  destruct (alloc_arg os vt_arm64_p t (pos_of vm)) as [loc pos] eqn:E.
  destruct Hp as (vm' & Hp & Hi' & Hx & Hvt' & Hpos & _ & _ & z & Hz & Hloc).
  exists vm'. split_and!; try done.
  intros vf p _ Hxf [[HI HF] Hrp Hst]. specialize (Hread p z). rewrite Hrp, E, HI, HF in Hread.
  exists (reader_at p pos). split; [|constructor; cbn; [done|rewrite Hpos; by destruct pos|done]].
  apply Hread; [by apply Hloc|done|congruence].
Qed.

#[export, refine] Instance arm64_CallConv : CallConv DCCallVM_arm64 DCArgs
    (DM := arm64_dm os) (H := a64_vm os float_to_double) (H0 := arm64_ArgReader os) := {
  cc_inv vm := a64_inv os vm /\ q_vt vm = vt_arm64_p;
  cc_room vm a := a64_room os vm (a_ty a);
  cc_ext := a64_ext;
  cc_at := a64_at;
  cc_ext_refl := a64_ext_refl;
  cc_ext_trans := a64_ext_trans;
}.
Proof. exact a64_step. Defined.

(** *** From the finished VM into the callee *)

(** What a call VM needs to be called safely: the kernel may round the size of
    the arguments up to a multiple of 16. *)
Record a64_alloc (vm : DCCallVM_arm64) : Prop := {
  ql_vt : vt_ok os (q_vt vm);
  ql_vec : vec_wf (q_vec vm) /\ 0 <= mTotal (q_vec vm);
  ql_round : align_up (mTotal (q_vec vm)) 16 <= Z.of_nat (length (vec_data (q_vec vm))) < 2 ^ 64;
  ql_len : length (q_I vm) = 8%nat /\ length (q_u vm) = 8%nat;
}.

Lemma ak_size_call vf target :
  0 <= mSize (q_vec vf) -> mSize (q_vec vf) + 15 < 2 ^ 64 ->
  ak_size (call vf target) = align_up (mSize (q_vec vf)) 16.
Proof.
  intros H0 H1. unfold call, dcVecSize; cbn [ak_size]. unfold u64. rewrite (wrapU_id 64 (_ + _)) by (unfold in_u; lia).
  change (-16) with (- 2 ^ 4). rewrite land_neg_pow2 by (unfold in_u; lia). unfold align_up.
  change (2 ^ 4) with 16. do 2 f_equal. lia.
Qed.

Lemma align_up_mono z z' a : 0 < a -> z <= z' -> align_up z a <= align_up z' a.
Proof.
  intros. unfold align_up. apply Z.mul_le_mono_nonneg_r; [lia|]. apply Z.div_le_mono; lia.
Qed.

Lemma a64_kernel vf target :
  a64_inv os vf -> align_up (mTotal (q_vec vf)) 16 <= Z.of_nat (length (vec_data (q_vec vf))) < 2 ^ 64 ->
  exists cpu, kernel_enter (call vf target) = Some cpu /\
    a_x cpu = q_I vf /\ a_d cpu = q_u vf /\ prefix (vec_bytes (q_vec vf)) (a_stack cpu).
Proof.
  intros [Hvt [[Hs Ht Hw] H0] Hi Hf [HI Hu]] Hround. unfold vec_room in H0.
  pose proof (align_up_bounds (mSize (q_vec vf)) 16 ltac:(lia)) as Hb.
  pose proof (align_up_bounds (mTotal (q_vec vf)) 16 ltac:(lia)) as Hb'.
  pose proof (align_up_mono (mSize (q_vec vf)) (mTotal (q_vec vf)) 16 ltac:(lia) ltac:(lia)).
  unfold kernel_enter. assert (Hsz : ak_size (call vf target) = align_up (mSize (q_vec vf)) 16).
  { destruct (Z.ltb_spec (mSize (q_vec vf) + 15) (2 ^ 64)); [by apply ak_size_call|].
    exfalso. pose proof (align_up_mod (mTotal (q_vec vf)) 16 ltac:(lia)) as Hm.
    pose proof (Z.div_mod (align_up (mTotal (q_vec vf)) 16) 16 ltac:(lia)). lia. }
  rewrite Hsz. cbn [ak_data ak_u ak_I call]. rewrite HI, Hu.
  destruct (rd_Some 0 (Z.to_nat (align_up (mSize (q_vec vf)) 16)) (vec_data (q_vec vf))) as (st & -> & _ & ->);
    [lia..|]. cbn [mbind option_bind]. eexists. split; [done|]. split_and!; try done. cbn [a_stack].
  change (drop (Z.to_nat 0) (vec_data (q_vec vf))) with (vec_data (q_vec vf)).
  unfold vec_bytes. exists (drop (Z.to_nat (mSize (q_vec vf))) (take (Z.to_nat (align_up (mSize (q_vec vf)) 16)) (vec_data (q_vec vf)))).
  rewrite <- (take_drop (Z.to_nat (mSize (q_vec vf))) (take (Z.to_nat (align_up _ _)) _)) at 1.
  rewrite take_take. do 2 f_equal. lia.
Qed.

Lemma reset_a64 vm0 :
  a64_alloc vm0 ->
  exists vm, dcReset (C := a64_vm os float_to_double) vm0 = Some vm /\ a64_inv os vm /\ q_vt vm = q_vt vm0 /\
    pos_of vm = {| ngrn := 0; nsrn := 0; nsaa := 0 |} /\ mTotal (q_vec vm) = mTotal (q_vec vm0) /\
    length (vec_data (q_vec vm)) = length (vec_data (q_vec vm0)).
Proof.
  intros [Hvt [[Hs Ht Hw] H0] _ Hlen]. eexists. split_and!.
  - unfold dcReset, vtable. cbv beta iota delta [deref a64_vm arm64_CallVM mVTpointer].
    destruct (q_vt vm0), os; reflexivity.
  - by constructor.
  - done.
  - done.
  - done.
  - done.
Qed.

Lemma call_kernel_a64 vm t target :
  dcCall_as (C := a64_vm os float_to_double) t vm target = call vm target.
Proof.
  unfold dcCall_as, dcCallBool, dcCallChar, dcCallShort, dcCallInt, dcCallLong, dcCallLongLong,
    dcCallFloat, dcCallDouble, dcCallPointer, vtable.
  cbv beta iota delta [deref a64_vm arm64_CallVM mVTpointer]. destruct t; by destruct (q_vt vm), os.
Qed.

End Convention.
