(* ===== verification/Arm64Props.v ===== *)
(** * ARM64: whole calls

    End-to-end transparency, placement of fixed and variable arguments, and
    what happens when the argument vector runs full. *)

From S2P Require Export Arm64Proofs.

Lemma sizeof_bits os t :
  let n := Z.to_nat (sizeof_cty (DM := arm64_dm os) t) in
  (n <= 8)%nat /\ 8 * Z.of_nat n = ty_bits (DM := arm64_dm os) t.
Proof. destruct os, t; vm_compute; split; (done || lia). Qed.

Section Props.
Variable os : arm64_os.
Variable float_to_double : Z -> Z.
#[local] Hint Extern 0 DataModel => exact (arm64_dm os) : typeclass_instances.
#[local] Existing Instance a64_vm.
Abbreviation C64 := (a64_vm os float_to_double).

(** *** Placing a list of arguments *)

Fixpoint abi_locs (v : arm64_vt) (ts : list cty) (p : a64_pos) : list a64_loc * a64_pos :=
  match ts with
  | [] => ([], p)
  | t :: ts =>
    let '(l, p) := alloc_arg os v t p in
    let '(ls, p) := abi_locs v ts p in
    (l :: ls, p)
  end.

(** The stack arguments of a list find room in a vector of [total] bytes. *)
Fixpoint abi_fits (v : arm64_vt) (ts : list cty) (p : a64_pos) (total : Z) : Prop :=
  match ts with
  | [] => True
  | t :: ts =>
    let '(l, p') := alloc_arg os v t p in
    match l with AStk _ _ => align_up (nsaa p) 8 + 8 <= total | _ => True end /\ abi_fits v ts p' total
  end.

(** Any list of [n] arguments fits in [8 * n] more bytes. *)
Definition a64_budget (n : nat) (p : a64_pos) (total : Z) : Prop :=
  align_up (nsaa p) 8 + 8 * Z.of_nat n <= total.

Lemma budget_fits v ts n total : forall p,
  a64_budget (length ts + n) p total ->
  abi_fits v ts p total /\ a64_budget n (abi_locs v ts p).2 total.
Proof.
  induction ts as [|t ts IH]; intros p Hb; [done|]. unfold a64_budget in Hb. cbn [length Nat.add] in Hb.
  cbn [abi_fits abi_locs]. destruct (alloc_arg os v t p) as [l p'] eqn:E.
  assert (Hp : nsaa p' <= align_up (nsaa p) 8 + 8).
  { pose proof (align_up_bounds (nsaa p) 8 ltac:(lia)). destruct (slot_end os v t (nsaa p)) as [He _].
    unfold alloc_arg in E. repeat case_match; injection E as <- <-; cbn; lia. }
  assert (align_up (nsaa p') 8 <= align_up (nsaa p) 8 + 8).
  { apply align_up_least; [lia| |done]. unfold align_up. exists ((nsaa p + 8 - 1) / 8 + 1). lia. }
  destruct (IH p') as [Hf Hn]; [unfold a64_budget; lia|].
  destruct (abi_locs v ts p') as [ls p'']. split; [split; [destruct l; try done; lia|done]|done].
Qed.

(** The callee finds the argument at the location. *)
Definition a64_holds (x d stack : list Z) (a : arg) (l : a64_loc) : Prop :=
  exists y, loc_read x d stack l = Some y /\ conv (a_ty a) y = conv (a_ty a) (a_val a).

Lemma push_list_a64 v l : forall vm,
  a64_inv os vm -> q_vt vm = v ->
  let l' := map (promote float_to_double v) l in
  abi_fits v (map a_ty l') (pos_of vm) (mTotal (q_vec vm)) ->
  exists vf, push_args (C := C64) vm l = Some vf /\ a64_inv os vf /\ a64_ext vm vf /\ q_vt vf = v /\
    pos_of vf = (abi_locs v (map a_ty l') (pos_of vm)).2 /\
    mTotal (q_vec vf) = mTotal (q_vec vm) /\ length (vec_data (q_vec vf)) = length (vec_data (q_vec vm)) /\
    forall w stack, a64_ext vf w -> prefix (vec_bytes (q_vec w)) stack ->
      Forall2 (a64_holds (q_I w) (q_u w) stack) l' (abi_locs v (map a_ty l') (pos_of vm)).1.
Proof.
  induction l as [|a l IH]; intros vm Hi Hv l' Hb.
  { by exists vm. }
  unfold l' in *. cbn [map abi_fits] in Hb.
  destruct (push_arg_a64 os float_to_double vm a (qi_vt _ _ Hi)) as (y & Hpa & Hy). rewrite Hv in Hpa, Hy.
  pose proof (a64_push_ok os vm (a_ty (promote float_to_double v a)) y Hi) as Hp.
  unfold a64_room in Hp. rewrite Hv in Hp. cbn [map abi_locs].
  destruct (alloc_arg os v _ (pos_of vm)) as [loc pos] eqn:E. destruct Hb as [Hroom Hb].
  destruct Hp as (vm1 & Hp & Hi1 & Hx1 & Hv1 & Hpos & Ht1 & Hl1 & z & Hz & Hloc).
  { by destruct loc. }
  subst pos. rewrite <- Ht1 in Hb.
  destruct (IH vm1 Hi1 ltac:(congruence) Hb) as (vf & Hpf & Hif & Hxf & Hvf & Hposf & Htf & Hlf & Hall).
  exists vf. destruct (abi_locs v (map a_ty (map _ l)) (pos_of vm1)) as [ls p'] eqn:El. cbn [fst snd] in *.
  split_and!; try done; try congruence.
  - unfold push_args. cbn [foldM]. rewrite Hpa, Hp. exact Hpf.
  - by eapply a64_ext_trans.
  - intros w stack Hxw Hst. constructor; [|by apply Hall]. exists z. split; [|congruence].
    apply Hloc; [by eapply a64_ext_trans|done].
Qed.

(** A callback that reads arguments and returns a scalar. *)
Definition a64_run_callback (r0 : arm64_ret) (slot0 : list Z) (ts : list cty) (rt : cty)
    (f : list arg -> Z) (k : arm64_kernel) : option arm64_ret :=
  cpu ← kernel_enter k;
  '(l, _) ← read_args (RD := arm64_ArgReader os) ts (dcCallbackThunkEntry cpu);
  slot ← dcvalue_set os rt (f l) slot0;
  callback_exit r0 (sigchar_of rt) slot.

Lemma a64_scalar_exit r0 t x slot0 :
  length slot0 = 8%nat -> val_ok t x ->
  exists slot r, dcvalue_set os t x slot0 = Some slot /\ callback_exit r0 (sigchar_of t) slot = Some r /\
    ret_value os t r = x.
Proof.
  intros Hl Hx%val_ok_conv. unfold dcvalue_set. set (n := Z.to_nat (sizeof_cty t)).
  pose proof (sizeof_bits os t : (n <= 8)%nat /\ 8 * Z.of_nat n = ty_bits t) as Hn.
  clearbody n.
  rewrite wr_Some by (rewrite ?length_enc; lia).
  change (Z.to_nat 0) with 0%nat. rewrite take_0, length_enc. cbn [app Nat.add].
  exists (enc LittleEndian n x ++ drop n slot0). unfold callback_exit.
  assert (Hq : rd 0 8 (enc LittleEndian n x ++ drop n slot0) = Some (enc LittleEndian n x ++ drop n slot0)).
  { rewrite <- (app_nil_r (enc _ _ _ ++ _)) at 1. apply rd0_app. rewrite length_app, length_enc, length_drop. lia. }
  rewrite Hq. cbn [mbind option_bind].
  assert (Hd : conv t (dec LittleEndian (enc LittleEndian n x ++ drop n slot0)) = x).
  { rewrite <- (conv_wrapU t (8 * Z.of_nat n)) by lia. rewrite dec_low, conv_wrapU by lia. exact Hx. }
  destruct t; (eexists; split; [done|split; [reflexivity|exact Hd]]).
Qed.

Lemma fits_room_for l : forall vm,
  a64_inv os vm -> q_vt vm = vt_arm64_p -> abi_fits vt_arm64_p (map a_ty l) (pos_of vm) (mTotal (q_vec vm)) ->
  room_for (CC := arm64_CallConv os float_to_double) vm l.
Proof.
  induction l as [|a l IH]; intros vm Hi Hv Hb; [done|]. cbn [map abi_fits] in Hb.
  destruct (push_arg_a64 os float_to_double vm a (qi_vt _ _ Hi)) as (y & Hpa & _). rewrite Hv in Hpa.
  pose proof (a64_push_ok os vm (a_ty a) y Hi) as Hok.
  assert (Hr : a64_room os vm (a_ty a)).
  { unfold a64_room. rewrite Hv. destruct (alloc_arg _ _ _ _) as [[] ?]; by destruct Hb. }
  specialize (Hok Hr). rewrite Hv in Hok.
  destruct (alloc_arg os vt_arm64_p _ (pos_of vm)) as [loc pos] eqn:E.
  destruct Hok as (vm1 & Hp1 & Hi1 & _ & Hv1 & <- & Ht1 & _).
  split; [exact Hr|]. intros vm' Hp. 
  assert (Hp' : push_arg (C := C64) vm a = Some vm') by exact Hp.
  rewrite Hpa in Hp'. cbn [promote] in Hp'. rewrite Hp1 in Hp'. injection Hp' as <-.
  apply IH; [done|congruence|]. rewrite Ht1. apply Hb.
Qed.

(** A VM that is about to take the first of [n] arguments that fit. *)
Definition a64_fresh (n : nat) (vm : DCCallVM_arm64) : Prop :=
  a64_inv os vm /\ q_vt vm = vt_arm64_p /\ pos_of vm = {| ngrn := 0; nsrn := 0; nsaa := 0 |} /\
  8 * Z.of_nat n <= mTotal (q_vec vm) /\
  align_up (mTotal (q_vec vm)) 16 <= Z.of_nat (length (vec_data (q_vec vm))) < 2 ^ 64.

Lemma reset_fresh n vm0 :
  a64_alloc os vm0 -> q_vt vm0 = vt_arm64_p -> 8 * Z.of_nat n <= mTotal (q_vec vm0) ->
  exists vm, dcReset (C := C64) vm0 = Some vm /\ a64_fresh n vm.
Proof.
  intros Ha Hvt Hn. destruct (reset_a64 os float_to_double vm0 Ha) as (vm & Hr & Hi & Hv & Hpos & Ht & Hd).
  exists vm. split; [exact Hr|]. unfold a64_fresh. rewrite Hv, Ht, Hd. split_and!; try done; apply Ha.
Qed.

(** A whole argument list, from the fresh VM into the callee. *)
Lemma fresh_call_a64 n vm l target :
  a64_fresh n vm -> (length l <= n)%nat -> Forall arg_ok l ->
  exists vf cpu p', push_args (C := C64) vm l = Some vf /\ kernel_enter (call vf target) = Some cpu /\
    read_args (RD := arm64_ArgReader os) (map a_ty l) (dcCallbackThunkEntry cpu) = Some (l, p').
Proof.
  intros (Hi & Hv & Hpos & Hroom & Hlen) Hn Hl.
  assert (Hb : abi_fits vt_arm64_p (map a_ty l) (pos_of vm) (mTotal (q_vec vm))).
  { apply (budget_fits _ _ 0). unfold a64_budget. rewrite Hpos, length_map. cbn [nsaa].
    change (align_up 0 8) with 0. lia. }
  pose proof (fits_room_for l vm Hi Hv Hb) as Hrf. rewrite <- (map_id l) in Hb at 1.
  destruct (push_list_a64 vt_arm64_p l vm Hi Hv Hb) as (vf & Hp & Hif & _ & Hvf & _ & Htf & Hdf & _).
  destruct (push_args_inv (CC := arm64_CallConv os float_to_double) vm l (conj Hi Hv) Hrf Hl)
    as (vf' & Hp' & _ & _ & Hread).
  unfold a64_vm in Hp, Hp'. rewrite Hp in Hp'. injection Hp' as <-.
  destruct (a64_kernel os vf target Hif) as (cpu & Hk & HI & HF & Hst).
  { rewrite Htf, Hdf. apply Hlen. }
  destruct (Hread (dcCallbackThunkEntry cpu)) as (p' & Hrd & _).
  { constructor; cbn; [done| |done]. rewrite Hpos. done. }
  exists vf, cpu, p'. split_and!; done.
Qed.

(** C20: scalar calls are transparent from end to end on ARM64, for the
    standard, Windows and Apple conventions.  For every argument list that fits
    the vector, a reset VM in default mode, given the arguments, enters the
    callback with registers and stack from which its reader obtains exactly
    those arguments, and the caller gets the callback's result. *)
Theorem arm64_scalar_call_end_to_end r0 slot0 vm0 l rt f target :
  a64_alloc os vm0 -> q_vt vm0 = vt_arm64_p -> 8 * Z.of_nat (length l) <= mTotal (q_vec vm0) ->
  Forall arg_ok l -> length slot0 = 8%nat -> val_ok rt (f l) ->
  exists vm vf r,
    dcReset (C := C64) vm0 = Some vm /\ push_args (C := C64) vm l = Some vf /\
    a64_run_callback r0 slot0 (map a_ty l) rt f (dcCall_as (C := C64) rt vf target) = Some r /\
    ret_value os rt r = f l.
Proof.
  intros Ha Hvt Hroom Hl Hslot Hf.
  destruct (reset_fresh (length l) vm0 Ha Hvt Hroom) as (vm & Hr & Hfresh).
  destruct (fresh_call_a64 (length l) vm l target Hfresh ltac:(lia) Hl) as (vf & cpu & p' & Hp & Hk & Hrd).
  destruct (a64_scalar_exit r0 rt (f l) slot0 Hslot Hf) as (slot & r & Hset & Hexit & Hret).
  exists vm, vf, r. split_and!; try done. unfold a64_run_callback.
  rewrite call_kernel_a64, Hk. cbn [mbind option_bind]. rewrite Hrd. cbn [mbind option_bind]. by rewrite Hset.
Qed.

(** The table variable arguments go through. *)
Definition varargs_vt : arm64_vt :=
  match os with A64Unix => vt_arm64_p | A64Win => vt_arm64_win_varargs_p | A64Apple => vt_arm64_variadic_p end.

Lemma varargs_vt_ok : vt_ok os varargs_vt.
Proof. unfold varargs_vt. by destruct os eqn:E. Qed.

Lemma mode_varargs vm :
  vt_ok os (q_vt vm) ->
  dcMode (C := C64) vm DC_CALL_C_ELLIPSIS_VARARGS = Some (q_with_vt varargs_vt DC_ERROR_NONE vm).
Proof.
  unfold dcMode, vtable, varargs_vt. cbv beta iota delta [deref a64_vm arm64_CallVM mVTpointer].
  destruct (q_vt vm), os; cbn; try done; intros; by f_equal.
Qed.

Lemma callVoid_a64 vm target : dcCallVoid (C := C64) vm target = call vm target.
Proof.
  unfold dcCallVoid, vtable. cbv beta iota delta [deref a64_vm arm64_CallVM mVTpointer].
  destruct (q_vt vm), os; reflexivity.
Qed.

(** Arguments are where the ABI says, fixed and variable ones.  After a
    reset, fixed arguments [l1], the switch to variable arguments and
    arguments [l2], the callee is entered with every argument at the register
    or stack location of AAPCS64: variable arguments go on like fixed ones on
    Unix, use integer registers only on Windows, and on Apple's systems take
    stack slots, a [float] as a [double]. *)
Theorem arm64_args_at_abi_locations vm0 l1 l2 target :
  a64_alloc os vm0 -> q_vt vm0 = vt_arm64_p ->
  8 * Z.of_nat (length l1 + length l2) <= mTotal (q_vec vm0) ->
  exists vm1 vm2 vm3 vf cpu,
    dcReset (C := C64) vm0 = Some vm1 /\ push_args (C := C64) vm1 l1 = Some vm2 /\
    dcMode (C := C64) vm2 DC_CALL_C_ELLIPSIS_VARARGS = Some vm3 /\
    push_args (C := C64) vm3 l2 = Some vf /\
    kernel_enter (dcCallVoid (C := C64) vf target) = Some cpu /\
    let l2' := map (promote float_to_double varargs_vt) l2 in
    let '(locs1, pos) := abi_locs vt_arm64_p (map a_ty l1) {| ngrn := 0; nsrn := 0; nsaa := 0 |} in
    let '(locs2, _) := abi_locs varargs_vt (map a_ty l2') pos in
    Forall2 (a64_holds (a_x cpu) (a_d cpu) (a_stack cpu)) (l1 ++ l2') (locs1 ++ locs2).
Proof.
  intros Ha Hvt Hroom.
  destruct (reset_a64 os float_to_double vm0 Ha) as (vm1 & Hr & Hi1 & Hv1 & Hpos1 & Ht1 & Hd1).
  assert (Hid : map (promote float_to_double vt_arm64_p) l1 = l1) by apply map_id.
  set (l2' := map (promote float_to_double varargs_vt) l2).
  destruct (budget_fits vt_arm64_p (map a_ty l1) (length (map a_ty l2')) (mTotal (q_vec vm1)) (pos_of vm1))
    as [Hf1 Hb2].
  { unfold a64_budget, l2'. rewrite Ht1, Hpos1, !length_map. cbn [nsaa]. change (align_up 0 8) with 0. lia. }
  destruct (push_list_a64 vt_arm64_p l1 vm1 Hi1 (eq_trans Hv1 Hvt))
    as (vm2 & Hp2 & Hi2 & Hx2 & Hv2 & Hpos2 & Ht2 & Hd2 & Hall2); [by rewrite Hid|].
  set (vm3 := q_with_vt varargs_vt DC_ERROR_NONE vm2).
  assert (Hi3 : a64_inv os vm3) by (destruct Hi2; constructor; try done; apply varargs_vt_ok).
  destruct (push_list_a64 varargs_vt l2 vm3 Hi3 eq_refl)
    as (vf & Hpf & Hif & Hxf & Hvf & Hposf & Htf & Hdf & Hallf).
  { change (q_vec vm3) with (q_vec vm2). change (pos_of vm3) with (pos_of vm2). rewrite Ht2, Hpos2, Hid.
    apply (budget_fits _ _ 0). by rewrite Nat.add_0_r. }
  destruct (a64_kernel os vf target Hif) as (cpu & Hk & HI & HF & Hst).
  { rewrite Htf, Hdf. change (q_vec vm3) with (q_vec vm2). rewrite Ht2, Hd2, Ht1, Hd1. apply Ha. }
  exists vm1, vm2, vm3, vf, cpu. cbv zeta. split_and!; try done; [apply mode_varargs, Hi2|by rewrite callVoid_a64|].
  rewrite Hid in *. fold l2' in Hallf |- *. rewrite HI, HF.
  change (pos_of vm3) with (pos_of vm2) in *. rewrite Hpos1 in *.
  destruct (abi_locs vt_arm64_p (map a_ty l1) _) as [locs1 pos]. cbn [fst snd] in *. subst pos.
  destruct (abi_locs varargs_vt _ (pos_of vm2)) as [locs2 pos']. cbn [fst snd] in *.
  apply Forall2_app; [|apply Hallf; [apply a64_ext_refl|done]].
  apply Hall2; [|done]. by destruct Hxf; constructor.
Qed.

(** *** Full vectors *)

Lemma kernel_overread vm target :
  0 <= mSize (q_vec vm) -> mSize (q_vec vm) + 15 < 2 ^ 64 ->
  Z.of_nat (length (vec_data (q_vec vm))) < align_up (mSize (q_vec vm)) 16 ->
  kernel_enter (call vm target) = None.
Proof.
  intros H0 H1 H. unfold kernel_enter. rewrite (ak_size_call vm target H0 H1).
  pose proof (align_up_bounds (mSize (q_vec vm)) 16 ltac:(lia)).
  cbn [ak_data call]. destruct (rd _ _ _) as [bs|] eqn:E; [|done]. apply rd_bound in E. lia.
Qed.

(** The positions of a list of [long long]s. *)
Lemma longlong_pos ts total : forall g s,
  Forall (eq TLongLong) ts -> 0 <= g <= 8 -> s mod 8 = 0 ->
  let s' := s + 8 * Z.max 0 (Z.of_nat (length ts) - (8 - g)) in
  let p := {| ngrn := g; nsrn := 0; nsaa := s |} in
  nsaa (abi_locs vt_arm64_p ts p).2 = s' /\ (s' <= total -> abi_fits vt_arm64_p ts p total).
Proof.
  intros g s Hts. revert g s. induction Hts as [|t ts <- _ IH]; intros g s Hg Hs s' p; [by subst s'; cbn; split; [lia|]|].
  assert (Hu : align_up s 8 = s) by (by apply align_up_id).
  assert (E : slot_start os vt_arm64_p TLongLong s = s /\ slot_of os vt_arm64_p TLongLong = 8)
    by (unfold slot_start, slot_of, packed; destruct os; split; done).
  destruct E as [E1 E2]. subst s' p. cbn [abi_locs abi_fits]. unfold alloc_arg at 1 2.
  cbn [class_of is_float ngrn nsrn nsaa length]. rewrite E1, E2. destruct (Z.ltb_spec g 8).
  - destruct (IH (g + 1) s ltac:(lia) Hs) as [IH1 IH2]. destruct (abi_locs _ _ _) as [ls p]. cbn [snd] in *.
    split; [lia|]. intros. split; [done|]. apply IH2. lia.
  - assert (Hs' : (s + 8) mod 8 = 0) by (rewrite <- (Z.mul_1_l 8) at 1; by rewrite Z.mod_add).
    destruct (IH g (s + 8) Hg Hs') as [IH1 IH2]. destruct (abi_locs _ _ _) as [ls p]. cbn [snd] in *.
    split; [lia|]. intros. split; [lia|]. apply IH2. lia.
Qed.

(** A call VM whose size is not a multiple of 16 cannot use all of it.
    With a size of 8 modulo 16, filling the vector with [long long]s succeeds -
    all are stored - but the call reads the stack arguments in pairs of words
    and leaves the allocation. *)
Theorem arm64_full_vector_overread mem alloc size l target :
  length (q_I mem) = 8%nat -> length (q_u mem) = 8%nat ->
  Z.of_nat (length alloc) = size -> size < 2 ^ 63 -> size mod 16 = 8 ->
  Forall (fun a => a_ty a = TLongLong) l -> Z.of_nat (length l) = 8 + size / 8 ->
  exists vm vf,
    dcNewCallVM os mem (Some alloc) size = Some vm /\ push_args (C := C64) vm l = Some vf /\
    mSize (q_vec vf) = mTotal (q_vec vf) /\
    Forall2 (a64_holds (q_I vf) (q_u vf) (vec_bytes (q_vec vf))) l
      (abi_locs vt_arm64_p (map a_ty l) {| ngrn := 0; nsrn := 0; nsaa := 0 |}).1 /\
    kernel_enter (dcCallVoid (C := C64) vf target) = None.
Proof.
  intros HI Hu Hal Hsz Hmod Hl Hlen.
  set (vm := {| q_vt := vt_arm64_p; q_mError := 0; q_i := 0; q_f := 0; q_u := q_u mem; q_I := q_I mem;
                q_vec := {| mTotal := size; mSize := 0; vec_data := alloc |} |}).
  assert (Hnew : dcNewCallVM os mem (Some alloc) size = Some vm) by (unfold dcNewCallVM; by destruct os).
  pose proof (Z.div_mod size 8 ltac:(lia)) as Hd8. pose proof (Z.div_mod size 16 ltac:(lia)) as Hd16.
  assert (size mod 8 = 0) as Hm8.
  { replace size with (8 + 16 * (size / 16)) by lia. replace (16 * (size / 16)) with (2 * (size / 16) * 8) by lia.
    by rewrite Z.mod_add. }
  assert (Hi : a64_inv os vm).
  { constructor; cbn; try done; try lia. split; [constructor; cbn; lia|unfold vec_room; cbn; lia]. }
  assert (Hts : Forall (eq TLongLong) (map a_ty l)).
  { apply Forall_map. eapply Forall_impl; [exact Hl|]. done. }
  assert (Hfit : abi_fits vt_arm64_p (map a_ty l) (pos_of vm) size).
  { apply (longlong_pos _ size 0 0 Hts); [lia|done|]. rewrite length_map. lia. }
  rewrite <- (map_id l) in Hfit at 1.
  destruct (push_list_a64 vt_arm64_p l vm Hi eq_refl Hfit) as (vf & Hp & Hif & Hx & Hvf & Hpos & Ht & Hd & Hall).
  assert (Hid : map (promote float_to_double vt_arm64_p) l = l) by apply map_id. rewrite Hid in *.
  assert (Hsize : mSize (q_vec vf) = size).
  { change (mSize (q_vec vf)) with (nsaa (pos_of vf)). rewrite Hpos. unfold pos_of; cbn.
    destruct (longlong_pos _ size 0 0 Hts) as [-> _]; [lia|done|]. rewrite length_map. lia. }
  exists vm, vf. split_and!; try done.
  - rewrite Hsize, Ht. done.
  - apply Hall; [apply a64_ext_refl|done].
  - rewrite callVoid_a64. apply kernel_overread; [lia..|]. rewrite Hd, Hsize. cbn [q_vec vm vec_data].
    pose proof (align_up_bounds size 16 ltac:(lia)). pose proof (align_up_mod size 16 ltac:(lia)).
    destruct (decide (align_up size 16 = size)) as [E|]; [|lia]. rewrite E in *. lia.
Qed.

Lemma argFloat_std vm x :
  os <> A64Apple -> q_vt vm = vt_arm64_p -> dcArgFloat (C := C64) vm x = a_float os vm x.
Proof.
  intros Hos Hvt. unfold dcArgFloat, vtable. cbv beta iota delta [deref a64_vm arm64_CallVM mVTpointer].
  rewrite Hvt. clear Hvt. revert Hos. by destruct os.
Qed.

Lemma argDouble_std vm x :
  os <> A64Apple -> q_vt vm = vt_arm64_p -> dcArgDouble (C := C64) vm x = a_double os vm x.
Proof.
  intros Hos Hvt. unfold dcArgDouble, vtable. cbv beta iota delta [deref a64_vm arm64_CallVM mVTpointer].
  rewrite Hvt. clear Hvt. revert Hos. by destruct os.
Qed.

(** Outside Apple's systems a [float] that finds neither register nor room
    corrupts the vector.  A [double] in its place is dropped and the call can
    still be made; for the [float] the four bytes of padding are skipped
    although nothing was stored, and the call reads behind the allocation. *)
Theorem arm64_dropped_float_overreads vm x target :
  os <> A64Apple -> a64_inv os vm -> q_vt vm = vt_arm64_p -> q_f vm = 8 ->
  mSize (q_vec vm) = mTotal (q_vec vm) -> mTotal (q_vec vm) = Z.of_nat (length (vec_data (q_vec vm))) ->
  mTotal (q_vec vm) mod 16 = 0 -> mTotal (q_vec vm) < 2 ^ 63 ->
  (exists cpu, dcArgDouble (C := C64) vm x = Some vm /\
     kernel_enter (dcCallVoid (C := C64) vm target) = Some cpu) /\
  exists vm', dcArgFloat (C := C64) vm x = Some vm' /\
    mSize (q_vec vm') = mTotal (q_vec vm') + 4 /\
    kernel_enter (dcCallVoid (C := C64) vm' target) = None.
Proof.
  intros Hos Hi Hvt Hf Hfull Hall Hmod Hb. pose proof Hi as [_ [Hw H0] _ _ _].
  assert (Hr : align_up (mTotal (q_vec vm)) 16 = mTotal (q_vec vm)).
  { by apply align_up_id. }
  pose proof (vwf_size _ Hw) as Hs0.
  assert (Happ : forall bs n, 0 < n <= 8 -> Z.of_nat (length bs) = n -> a_append os vm bs = Some vm).
  { intros bs n Hn <-. unfold a_append. rewrite dcVecAppend_full; try done; [by destruct vm|lia| |unfold vec_room; lia].
    cbn. lia. }
  split.
  - destruct (a64_kernel os vm target Hi ltac:(lia)) as (cpu & Hk & _). exists cpu.
    rewrite callVoid_a64. split; [|done].
    rewrite argDouble_std by done. unfold a_double. rewrite Hf. apply Happ with 8; [lia|by rewrite length_enc].
  - set (vm' := a_skip os vm 4).
    assert (Hs : mSize (q_vec vm') = mTotal (q_vec vm') + 4).
    { cbn. unfold size_t. cbn. rewrite wrapU_id by (unfold in_u; lia). lia. }
    exists vm'. split_and!; [|done|].
    + rewrite argFloat_std by done. unfold a_float. rewrite Hf.
      rewrite (Happ _ 4) by (lia || by rewrite length_enc). done.
    + rewrite callVoid_a64. change (mTotal (q_vec vm')) with (mTotal (q_vec vm)) in Hs.
      apply kernel_overread; [lia..|]. change (vec_data (q_vec vm')) with (vec_data (q_vec vm)).
      pose proof (align_up_bounds (mSize (q_vec vm')) 16 ltac:(lia)). lia.
Qed.

End Props.
