(* ===== verification/Arm32.v ===== *)
(** * 32-bit ARM: argument access, and the ARM and Thumb call VMs
      (dyncall/dyncall_callvm_arm32_arm.{h,c}, dyncall_callvm_arm32_thumb.{h,c},
       dyncall_call_arm32_arm.S, dyncallback/dyncall_args_arm32.{h,c},
       dyncall_callback_arm32.c, dyncall_callback_arm32_arm_gas.S,
       dyncall_thunk_arm32.c)

    The VM collects all arguments in its vector; the call kernel loads the
    first sixteen bytes into r0-r3 and pushes the rest.  The hard-float VM,
    which shares the callback side, is in [Armhf]. *)

From S2P Require Export Api.

(** The ABI the library is compiled for. *)
Inductive arm32_abi := ATPCS | EABI | ARMHF.

#[export] Instance arm32_abi_eq_dec : EqDecision arm32_abi.
Proof. solve_decision. Defined.

Definition arm32_dm (char_signed : bool) : DataModel := {|
  dm_endian := LittleEndian; dm_size_bits := 32; dm_long_bits := 32; dm_char_signed := char_signed
|}.

#[export] Instance arm32_dm_ok cs : DataModelOk (DM := arm32_dm cs).
Proof. split; cbn; auto. Qed.

(** ** Argument access in a callback (dyncall_args_arm32.{h,c})

    [stack_ptr] is the offset from the stack pointer at entry, which is a
    multiple of eight; [f] and its counters exist with hard float only. *)

Record DCArgs := {
  reg_data : list Z;
  reg_count : Z;
  stack_ptr : Z;
  f : list Z;
  freg_count : Z;
  dreg_count : Z;
  args_stack : list Z;
}.

Definition s_with_regs (n : Z) (p : DCArgs) : DCArgs :=
  {| reg_data := reg_data p; reg_count := n; stack_ptr := stack_ptr p; f := f p;
     freg_count := freg_count p; dreg_count := dreg_count p; args_stack := args_stack p |}.
Definition s_with_stack (n : Z) (p : DCArgs) : DCArgs :=
  {| reg_data := reg_data p; reg_count := reg_count p; stack_ptr := n; f := f p;
     freg_count := freg_count p; dreg_count := dreg_count p; args_stack := args_stack p |}.
Definition s_with_fregs (s d : Z) (p : DCArgs) : DCArgs :=
  {| reg_data := reg_data p; reg_count := reg_count p; stack_ptr := stack_ptr p; f := f p;
     freg_count := s; dreg_count := d; args_stack := args_stack p |}.

Section Args.
Variable char_signed : bool.
Variable abi : arm32_abi.
#[local] Hint Extern 0 DataModel => exact (arm32_dm char_signed) : typeclass_instances.

(** With EABI and hard float, 64-bit values start at an even register or an
    eight-byte boundary. *)
Definition arm_align_64 (args : DCArgs) : DCArgs :=
  match abi with
  | ATPCS => args
  | _ =>
    let args := if reg_count args <? 4
                then s_with_regs (Z.land (reg_count args + 1) (Z.lnot 1)) args else args in
    if (reg_count args >=? 4) && negb (Z.land (stack_ptr args) 4 =? 0)
    then s_with_stack (stack_ptr args + 4) args else args
  end.

(** The word behind the pointer [arm_word] returns. *)
Definition arm_word : SO DCArgs Z := fun args =>
  if reg_count args <? 4
  then x ← aget (reg_count args) (reg_data args); Some (wrapU 32 x, s_with_regs (reg_count args + 1) args)
  else bs ← rd (stack_ptr args) 4 (args_stack args);
       Some (dec LittleEndian bs, s_with_stack (stack_ptr args + 4) args).

Definition arm_float : SO DCArgs Z := fun args =>
  match abi with
  | ARMHF =>
    if freg_count args <? 16 then
      x ← aget (freg_count args) (f args);
      let s := freg_count args + 1 in
      (* if freg_count was odd, sync with dreg_count *)
      let s := if (Z.land s 1 =? 0) && (s <? dreg_count args) then dreg_count args else s in
      Some (conv TFloat x, s_with_fregs s (dreg_count args) args)
    else '(x, args) ← arm_word args; Some (conv TFloat x, args)
  | _ => '(x, args) ← arm_word args; Some (conv TFloat x, args)
  end.

(** The two words of a 64-bit value. *)
Definition arm_dword : SO DCArgs Z := fun args =>
  let args := arm_align_64 args in
  '(lo, args) ← arm_word args;
  '(hi, args) ← arm_word args;
  Some (lo + 2 ^ 32 * hi, args).

Definition arm_double : SO DCArgs Z := fun args =>
  match abi with
  | ARMHF =>
    let args := if dreg_count args <? freg_count args
                then s_with_fregs (freg_count args) (Z.land (freg_count args + 1) 0x1e) args else args in
    if dreg_count args <? 16 then
      lo ← aget (dreg_count args) (f args);
      hi ← aget (dreg_count args + 1) (f args);
      let d := dreg_count args + 2 in
      (* freg_count is either odd (pointing to a gap), or always the same as dreg_count *)
      let s := if Z.land (freg_count args) 1 =? 0 then d else freg_count args in
      Some (conv TDouble (wrapU 32 lo + 2 ^ 32 * wrapU 32 hi), s_with_fregs s d args)
    else
      '(x, args) ← arm_dword (s_with_fregs 16 (dreg_count args) args);
      Some (conv TDouble x, args)
  | _ => '(x, args) ← arm_dword args; Some (conv TDouble x, args)
  end.

Definition arm_longlong : SO DCArgs Z := fun args =>
  '(x, args) ← arm_dword args; Some (conv TLongLong x, args).

Definition dcbArgLongLong : SO DCArgs Z := arm_longlong.
Definition dcbArgLong : SO DCArgs Z := x ← arm_word; mret (conv TLong x).
Definition dcbArgInt : SO DCArgs Z := x ← dcbArgLong; mret (conv TInt x).
Definition dcbArgChar : SO DCArgs Z := x ← dcbArgLong; mret (conv TChar x).
Definition dcbArgShort : SO DCArgs Z := x ← dcbArgLong; mret (conv TShort x).
Definition dcbArgBool : SO DCArgs Z := x ← dcbArgLong; mret (if x =? 0 then 0 else 1).
Definition dcbArgUInt : SO DCArgs Z := x ← dcbArgInt; mret (conv TUInt x).
Definition dcbArgUChar : SO DCArgs Z := x ← dcbArgChar; mret (conv TUChar x).
Definition dcbArgUShort : SO DCArgs Z := x ← dcbArgShort; mret (conv TUShort x).
Definition dcbArgULong : SO DCArgs Z := x ← dcbArgLong; mret (conv TULong x).
Definition dcbArgULongLong : SO DCArgs Z := x ← dcbArgLongLong; mret (conv TULongLong x).
Definition dcbArgPointer : SO DCArgs Z := x ← dcbArgLong; mret (conv TPointer x).
Definition dcbArgDouble : SO DCArgs Z := arm_double.
Definition dcbArgFloat : SO DCArgs Z := arm_float.

#[export] Instance arm32_ArgReader : ArgReader DCArgs := {
  dcbArg t :=
    match t with
    | TBool => dcbArgBool | TChar => dcbArgChar | TUChar => dcbArgUChar
    | TShort => dcbArgShort | TUShort => dcbArgUShort | TInt => dcbArgInt
    | TUInt => dcbArgUInt | TLong => dcbArgLong | TULong => dcbArgULong
    | TLongLong => dcbArgLongLong | TULongLong => dcbArgULongLong
    | TFloat => dcbArgFloat | TDouble => dcbArgDouble
    | TPointer | TString => dcbArgPointer
    end;
}.
End Args.

(** ** Machine state and callbacks *)

(** Core registers r0-r3, the registers s0-s15, and the stack. *)
Record arm32_cpu := { core : list Z; vfp : list Z; cpu_stack : list Z }.

Record DCCallback := { cb_handler : Z; cb_userdata : Z }.

Definition dcbInitCallback2 (signature : list DCsigchar) (handler userdata : Z) : DCCallback :=
  {| cb_handler := handler; cb_userdata := userdata |}.

(** [dcCallbackThunkEntry] spills the argument registers into a [DCArgs]. *)
Definition dcCallbackThunkEntry (cpu : arm32_cpu) : DCArgs :=
  {| reg_data := core cpu; reg_count := 0; stack_ptr := 0; f := vfp cpu; freg_count := 0;
     dreg_count := 0; args_stack := cpu_stack cpu |}.

(** The handler's result, and the registers the entry loads from it. *)
Record arm32_ret := { ret_r0 : Z; ret_r1 : Z; ret_d0 : Z }.

Definition dcvalue_set {DM : DataModel} (t : cty) (x : Z) (result : list Z) : option (list Z) :=
  wr 0 (enc LittleEndian (Z.to_nat (sizeof_cty t)) x) result.

Definition callback_exit (abi : arm32_abi) (r : arm32_ret) (result : list Z) : option arm32_ret :=
  lo ← rd 0 4 result;
  hi ← rd 4 4 result;
  q ← rd 0 8 result;
  Some {| ret_r0 := dec LittleEndian lo; ret_r1 := dec LittleEndian hi;
          ret_d0 := match abi with ARMHF => dec LittleEndian q | _ => ret_d0 r end |}.

(** Where a caller finds a result of each type. *)
Definition ret_value {DM : DataModel} (abi : arm32_abi) (t : cty) (r : arm32_ret) : Z :=
  match t, abi with
  | (TFloat | TDouble), ARMHF => conv t (ret_d0 r)
  | (TLongLong | TULongLong | TDouble), _ => conv t (ret_r0 r + 2 ^ 32 * ret_r1 r)
  | _, _ => conv t (ret_r0 r)
  end.

(** [dcbInitThunk] (dyncall_thunk_arm32.c). *)
Definition dcbInitThunk (entry : Z) : list Z :=
  enc LittleEndian 4 0xe24fc008 ++ enc LittleEndian 4 0xe51ff004 ++ enc LittleEndian 4 entry.

(** ** The ARM and Thumb call VMs

    dyncall_callvm_arm32_thumb.c repeats dyncall_callvm_arm32_arm.c with other
    names, except for the call kernel and the accepted modes. *)

Inductive arm32_vt :=
  gVT_arm32_arm_p | gVT_arm32_arm_eabi_p | gVT_arm32_thumb_p | gVT_arm32_thumb_eabi_p.

Record DCCallVM_arm32_arm := { t_vt : arm32_vt; t_mError : Z; t_vec : DCVecHead }.
Definition DCCallVM_arm32_thumb : Type := DCCallVM_arm32_arm.

Definition t_with_vt (v : arm32_vt) (e : Z) (p : DCCallVM_arm32_arm) : DCCallVM_arm32_arm :=
  {| t_vt := v; t_mError := e; t_vec := t_vec p |}.
Definition t_with_vec (v : DCVecHead) (p : DCCallVM_arm32_arm) : DCCallVM_arm32_arm :=
  {| t_vt := t_vt p; t_mError := t_mError p; t_vec := v |}.

(** The call kernels (dyncall_call_arm32_arm.S, dyncall_call_arm32_thumb_gas.s)
    load four words from the data - which is why sixteen bytes more than
    requested are allocated - and push what is behind them. *)
Record arm32_kernel := dcCall_arm32 { k_target : Z; k_data : list Z; k_size : Z }.

Definition spill (data : list Z) (size : Z) : option (list Z * list Z) :=
  r0 ← rd 0 4 data; r1 ← rd 4 4 data; r2 ← rd 8 4 data; r3 ← rd 12 4 data;
  stack ← (if wrapS 32 size <=? 16 then Some [] else rd 16 (Z.to_nat (size - 16)) data);
  Some (map (dec LittleEndian) [r0; r1; r2; r3], stack).

Definition kernel_enter (vfp0 : list Z) (k : arm32_kernel) : option arm32_cpu :=
  '(regs, stack) ← spill (k_data k) (k_size k);
  Some {| core := regs; vfp := vfp0; cpu_stack := stack |}.

Section Arm.
Variable char_signed : bool.
Variable eabi : bool. (** DC__ABI_ARM_EABI *)
#[local] Hint Extern 0 DataModel => exact (arm32_dm char_signed) : typeclass_instances.

Definition dc_callvm_free_arm32_arm (_ : DCCallVM_arm32_arm) : unit := tt.
Definition dc_callvm_reset_arm32_arm (self : DCCallVM_arm32_arm) : option DCCallVM_arm32_arm :=
  Some (t_with_vec (dcVecReset (t_vec self)) self).

Definition t_append (self : DCCallVM_arm32_arm) (bs : list Z) : option DCCallVM_arm32_arm :=
  v ← dcVecAppend (t_vec self) bs (Z.of_nat (length bs)); Some (t_with_vec v self).

(** 64 bit values need to be aligned on 8 byte boundaries *)
Definition t_align (self : DCCallVM_arm32_arm) : DCCallVM_arm32_arm :=
  t_with_vec (dcVecSkip (t_vec self) (Z.land (dcVecSize (t_vec self)) 4)) self.

Definition dc_callvm_argInt_arm32_arm (self : DCCallVM_arm32_arm) (x : Z) := t_append self (enc LittleEndian 4 x).
Definition dc_callvm_argBool_arm32_arm (self : DCCallVM_arm32_arm) (x : Z) :=
  dc_callvm_argInt_arm32_arm self (conv TInt x).
Definition dc_callvm_argChar_arm32_arm (self : DCCallVM_arm32_arm) (x : Z) :=
  dc_callvm_argInt_arm32_arm self (conv TInt x).
Definition dc_callvm_argShort_arm32_arm (self : DCCallVM_arm32_arm) (x : Z) :=
  dc_callvm_argInt_arm32_arm self (conv TInt x).
Definition dc_callvm_argLong_arm32_arm (self : DCCallVM_arm32_arm) (x : Z) :=
  dc_callvm_argInt_arm32_arm self (conv TInt x).
Definition dc_callvm_argLongLong_arm32_arm (self : DCCallVM_arm32_arm) (x : Z) :=
  t_append self (enc LittleEndian 8 x).
Definition dc_callvm_argLongLong_arm32_arm_eabi (self : DCCallVM_arm32_arm) (x : Z) :=
  t_append (t_align self) (enc LittleEndian 8 x).
Definition dc_callvm_argFloat_arm32_arm (self : DCCallVM_arm32_arm) (x : Z) := t_append self (enc LittleEndian 4 x).
Definition dc_callvm_argDouble_arm32_arm (self : DCCallVM_arm32_arm) (x : Z) := t_append self (enc LittleEndian 8 x).
Definition dc_callvm_argDouble_arm32_arm_eabi (self : DCCallVM_arm32_arm) (x : Z) :=
  t_append (t_align self) (enc LittleEndian 8 x).
Definition dc_callvm_argPointer_arm32_arm (self : DCCallVM_arm32_arm) (x : Z) :=
  t_append self (enc LittleEndian 4 x).

Definition dc_callvm_call_arm32_arm (self : DCCallVM_arm32_arm) (target : Z) : arm32_kernel :=
  dcCall_arm32 target (vec_data (t_vec self)) (dcVecSize (t_vec self)).

Definition dc_callvm_mode_arm32_arm (self : DCCallVM_arm32_arm) (mode : Z) : option DCCallVM_arm32_arm :=
  let base_init vt := t_with_vt vt DC_ERROR_NONE self in
  Some
    (if (mode =? DC_CALL_C_ELLIPSIS) || (mode =? DC_CALL_C_ELLIPSIS_VARARGS)
        || (mode =? DC_CALL_C_DEFAULT) || (mode =? DC_CALL_C_DEFAULT_THIS)
     then base_init (if eabi then gVT_arm32_arm_eabi_p else gVT_arm32_arm_p)
     else if mode =? DC_CALL_C_ARM_ARM then base_init gVT_arm32_arm_p
     else if mode =? DC_CALL_C_ARM_ARM_EABI then base_init gVT_arm32_arm_eabi_p
     else t_with_vt (t_vt self) DC_ERROR_UNSUPPORTED_MODE self).

Definition gVT_arm32_arm : DCCallVM_vt DCCallVM_arm32_arm arm32_kernel arm32_ret := Build_DCCallVM_vt
  dc_callvm_free_arm32_arm dc_callvm_reset_arm32_arm dc_callvm_mode_arm32_arm
  dc_callvm_argBool_arm32_arm dc_callvm_argChar_arm32_arm dc_callvm_argShort_arm32_arm
  dc_callvm_argInt_arm32_arm dc_callvm_argLong_arm32_arm dc_callvm_argLongLong_arm32_arm
  dc_callvm_argFloat_arm32_arm dc_callvm_argDouble_arm32_arm dc_callvm_argPointer_arm32_arm
  None (* argAggr *)
  dc_callvm_call_arm32_arm dc_callvm_call_arm32_arm dc_callvm_call_arm32_arm dc_callvm_call_arm32_arm
  dc_callvm_call_arm32_arm dc_callvm_call_arm32_arm dc_callvm_call_arm32_arm dc_callvm_call_arm32_arm
  dc_callvm_call_arm32_arm dc_callvm_call_arm32_arm
  None (* callAggr *)
  None (* beginAggr *).

Definition gVT_arm32_arm_eabi : DCCallVM_vt DCCallVM_arm32_arm arm32_kernel arm32_ret := Build_DCCallVM_vt
  dc_callvm_free_arm32_arm dc_callvm_reset_arm32_arm dc_callvm_mode_arm32_arm
  dc_callvm_argBool_arm32_arm dc_callvm_argChar_arm32_arm dc_callvm_argShort_arm32_arm
  dc_callvm_argInt_arm32_arm dc_callvm_argLong_arm32_arm dc_callvm_argLongLong_arm32_arm_eabi
  dc_callvm_argFloat_arm32_arm dc_callvm_argDouble_arm32_arm_eabi dc_callvm_argPointer_arm32_arm
  None (* argAggr *)
  dc_callvm_call_arm32_arm dc_callvm_call_arm32_arm dc_callvm_call_arm32_arm dc_callvm_call_arm32_arm
  dc_callvm_call_arm32_arm dc_callvm_call_arm32_arm dc_callvm_call_arm32_arm dc_callvm_call_arm32_arm
  dc_callvm_call_arm32_arm dc_callvm_call_arm32_arm
  None (* callAggr *)
  None (* beginAggr *).

(** [dcNewCallVM]: [alloc] is the memory behind the header, sixteen bytes more
    than [size] ([None]: the allocation failed, which the code does not check). *)
Definition dcNewCallVM (mem : DCCallVM_arm32_arm) (alloc : option (list Z)) (size : Z)
    : option DCCallVM_arm32_arm :=
  alloc ← alloc;
  p ← dc_callvm_mode_arm32_arm mem DC_CALL_C_DEFAULT;
  Some (t_with_vec (dcVecInit alloc size) p).

(** *** Thumb *)

Definition dc_callvm_call_arm32_thumb (self : DCCallVM_arm32_thumb) (target : Z) : arm32_kernel :=
  dcCall_arm32 target (vec_data (t_vec self)) (dcVecSize (t_vec self)).
Definition dc_callvm_free_arm32_thumb (_ : DCCallVM_arm32_thumb) : unit := tt.
Definition dc_callvm_reset_arm32_thumb (self : DCCallVM_arm32_thumb) : option DCCallVM_arm32_thumb :=
  Some (t_with_vec (dcVecReset (t_vec self)) self).
Definition dc_callvm_argInt_arm32_thumb (self : DCCallVM_arm32_thumb) (x : Z) :=
  t_append self (enc LittleEndian 4 x).
Definition dc_callvm_argBool_arm32_thumb (self : DCCallVM_arm32_thumb) (x : Z) :=
  dc_callvm_argInt_arm32_thumb self (conv TInt x).
Definition dc_callvm_argChar_arm32_thumb (self : DCCallVM_arm32_thumb) (x : Z) :=
  dc_callvm_argInt_arm32_thumb self (conv TInt x).
Definition dc_callvm_argShort_arm32_thumb (self : DCCallVM_arm32_thumb) (x : Z) :=
  dc_callvm_argInt_arm32_thumb self (conv TInt x).
Definition dc_callvm_argLong_arm32_thumb (self : DCCallVM_arm32_thumb) (x : Z) :=
  dc_callvm_argInt_arm32_thumb self (conv TInt x).
Definition dc_callvm_argLongLong_arm32_thumb (self : DCCallVM_arm32_thumb) (x : Z) :=
  t_append self (enc LittleEndian 8 x).
Definition dc_callvm_argLongLong_arm32_thumb_eabi (self : DCCallVM_arm32_thumb) (x : Z) :=
  t_append (t_align self) (enc LittleEndian 8 x).
Definition dc_callvm_argFloat_arm32_thumb (self : DCCallVM_arm32_thumb) (x : Z) :=
  t_append self (enc LittleEndian 4 x).
Definition dc_callvm_argDouble_arm32_thumb (self : DCCallVM_arm32_thumb) (x : Z) :=
  t_append self (enc LittleEndian 8 x).
Definition dc_callvm_argDouble_arm32_thumb_eabi (self : DCCallVM_arm32_thumb) (x : Z) :=
  t_append (t_align self) (enc LittleEndian 8 x).
Definition dc_callvm_argPointer_arm32_thumb (self : DCCallVM_arm32_thumb) (x : Z) :=
  t_append self (enc LittleEndian 4 x).

Definition dc_callvm_mode_arm32_thumb (self : DCCallVM_arm32_thumb) (mode : Z) : option DCCallVM_arm32_thumb :=
  let base_init vt := t_with_vt vt DC_ERROR_NONE self in
  Some
    (if (mode =? DC_CALL_C_ELLIPSIS) || (mode =? DC_CALL_C_ELLIPSIS_VARARGS)
        || (mode =? DC_CALL_C_DEFAULT_THIS) || (mode =? DC_CALL_C_DEFAULT)
     then base_init (if eabi then gVT_arm32_thumb_eabi_p else gVT_arm32_thumb_p)
     else if mode =? DC_CALL_C_ARM_THUMB then base_init gVT_arm32_thumb_p
     else if mode =? DC_CALL_C_ARM_THUMB_EABI then base_init gVT_arm32_thumb_eabi_p
     else t_with_vt (t_vt self) DC_ERROR_UNSUPPORTED_MODE self).

Definition gVT_arm32_thumb : DCCallVM_vt DCCallVM_arm32_thumb arm32_kernel arm32_ret := Build_DCCallVM_vt
  dc_callvm_free_arm32_thumb dc_callvm_reset_arm32_thumb dc_callvm_mode_arm32_thumb
  dc_callvm_argBool_arm32_thumb dc_callvm_argChar_arm32_thumb dc_callvm_argShort_arm32_thumb
  dc_callvm_argInt_arm32_thumb dc_callvm_argLong_arm32_thumb dc_callvm_argLongLong_arm32_thumb
  dc_callvm_argFloat_arm32_thumb dc_callvm_argDouble_arm32_thumb dc_callvm_argPointer_arm32_thumb
  None (* argAggr *)
  dc_callvm_call_arm32_thumb dc_callvm_call_arm32_thumb dc_callvm_call_arm32_thumb dc_callvm_call_arm32_thumb
  dc_callvm_call_arm32_thumb dc_callvm_call_arm32_thumb dc_callvm_call_arm32_thumb dc_callvm_call_arm32_thumb
  dc_callvm_call_arm32_thumb dc_callvm_call_arm32_thumb
  None (* callAggr *)
  None (* beginAggr *).

Definition gVT_arm32_thumb_eabi : DCCallVM_vt DCCallVM_arm32_thumb arm32_kernel arm32_ret := Build_DCCallVM_vt
  dc_callvm_free_arm32_thumb dc_callvm_reset_arm32_thumb dc_callvm_mode_arm32_thumb
  dc_callvm_argBool_arm32_thumb dc_callvm_argChar_arm32_thumb dc_callvm_argShort_arm32_thumb
  dc_callvm_argInt_arm32_thumb dc_callvm_argLong_arm32_thumb dc_callvm_argLongLong_arm32_thumb_eabi
  dc_callvm_argFloat_arm32_thumb dc_callvm_argDouble_arm32_thumb_eabi dc_callvm_argPointer_arm32_thumb
  None (* argAggr *)
  dc_callvm_call_arm32_thumb dc_callvm_call_arm32_thumb dc_callvm_call_arm32_thumb dc_callvm_call_arm32_thumb
  dc_callvm_call_arm32_thumb dc_callvm_call_arm32_thumb dc_callvm_call_arm32_thumb dc_callvm_call_arm32_thumb
  dc_callvm_call_arm32_thumb dc_callvm_call_arm32_thumb
  None (* callAggr *)
  None (* beginAggr *).

Definition dcNewCallVM_thumb (mem : DCCallVM_arm32_thumb) (alloc : option (list Z)) (size : Z)
    : option DCCallVM_arm32_thumb :=
  alloc ← alloc;
  p ← dc_callvm_mode_arm32_thumb mem DC_CALL_C_DEFAULT;
  Some (t_with_vec (dcVecInit alloc size) p).

#[export] Instance arm32_CallVM : CallVM DCCallVM_arm32_arm arm32_vt arm32_kernel arm32_ret := {
  mVTpointer := t_vt;
  mError := t_mError;
  deref v := match v with
             | gVT_arm32_arm_p => gVT_arm32_arm
             | gVT_arm32_arm_eabi_p => gVT_arm32_arm_eabi
             | gVT_arm32_thumb_p => gVT_arm32_thumb
             | gVT_arm32_thumb_eabi_p => gVT_arm32_thumb_eabi
             end;
}.
End Arm.
