(* ===== verification/Arm32Proofs.v ===== *)
(** * 32-bit ARM: the ARM and Thumb call VMs and the argument reader agree *)

From S2P Require Export Arm32 Words.

(** ** What is passed for an argument *)

Definition t_aligned (v : arm32_vt) : bool :=
  match v with gVT_arm32_arm_eabi_p | gVT_arm32_thumb_eabi_p => true | _ => false end.

(** Where an argument starts when [s] bytes are in use. *)
Definition arg_start (aligned : bool) (t : cty) (s : Z) : Z :=
  if aligned && is_wide t then align_up s 8 else s.

Definition t_push (cs : bool) (vm : DCCallVM_arm32_arm) (t : cty) (x : Z) : option DCCallVM_arm32_arm :=
  t_append cs (if t_aligned (t_vt vm) && is_wide t then t_align cs vm else vm)
    (enc LittleEndian (Z.to_nat (arg_size t)) x).

Lemma arg_size_bits cs t : ty_bits (DM := arm32_dm cs) t <= 8 * arg_size t.
Proof. destruct t; vm_compute; done. Qed.

Lemma push_arg_arm32 cs eabi vm a :
  exists y, push_arg (DM := arm32_dm cs) (C := arm32_CallVM cs eabi) vm a = t_push cs vm (a_ty a) y /\
    conv (DM := arm32_dm cs) (a_ty a) y = conv (DM := arm32_dm cs) (a_ty a) (a_val a).
Proof.
  destruct a as [t x]. cbn [a_ty a_val].
  pose proof (conv_api_value (DM := arm32_dm cs) t x) as E'.
  assert (E : conv (DM := arm32_dm cs) t (conv (DM := arm32_dm cs) TInt (api_value (DM := arm32_dm cs) t x))
              = conv (DM := arm32_dm cs) t x \/ is_wide t = true).
  { destruct (is_wide t) eqn:Hw; [by right|left]. rewrite conv_conv; [done|]. destruct t; done. }
  unfold push_arg, dcArgBool, dcArgChar, dcArgShort, dcArgInt, dcArgLong, dcArgLongLong, dcArgPointer,
    dcArgFloat, dcArgDouble, vtable, t_push.
  cbn [a_ty a_val arm32_CallVM mVTpointer deref].
  destruct (t_vt vm) eqn:Evt, t; cbn -[conv]; rewrite ?Evt;
    eexists; (split; [reflexivity|]); first [exact E'|reflexivity|destruct E as [E|E]; [exact E|discriminate]].
Qed.

(** ** The reader over the bytes of a finished vector

    [M]: the first sixteen bytes went to r0-r3, the others to the stack. *)

Record over (M : list Z) (p : DCArgs) : Prop := {
  ov_regs : forall k bs, 0 <= k < 4 -> rd (4 * k) 4 M = Some bs -> aget k (reg_data p) = Some (dec LittleEndian bs);
  ov_stack : forall off n bs, 16 <= off -> rd off n M = Some bs -> rd (off - 16) n (args_stack p) = Some bs;
}.

Lemma over_same M p p' : over M p -> reg_data p' = reg_data p -> args_stack p' = args_stack p -> over M p'.
Proof. intros [H1 H2] E1 E2. split; rewrite ?E1, ?E2; done. Qed.

(** The reader stands [s] bytes into the arguments. *)
Definition stands (s : Z) (p : DCArgs) : Prop :=
  s mod 4 = 0 /\ 0 <= s /\ reg_count p = Z.min 4 (s / 4) /\ stack_ptr p = Z.max 0 (s - 16).

Definition same_fregs (p p' : DCArgs) : Prop :=
  f p' = f p /\ freg_count p' = freg_count p /\ dreg_count p' = dreg_count p.

(** A word in a register, and a word on the stack. *)
Lemma arm_word_reg M p y :
  over M p -> 0 <= reg_count p < 4 -> rd (4 * reg_count p) 4 M = Some (enc LittleEndian 4 y) ->
  arm_word p = Some (wrapU 32 y, s_with_regs (reg_count p + 1) p).
Proof.
  intros [Hr _] Hc Hrd. unfold arm_word. rewrite (proj2 (Z.ltb_lt _ _)) by lia.
  rewrite (Hr _ _ Hc Hrd). cbn [mbind option_bind]. rewrite dec_enc. by rewrite wrapU_wrapU by lia.
Qed.

Lemma arm_word_stack M p y :
  over M p -> 4 <= reg_count p -> 0 <= stack_ptr p -> rd (16 + stack_ptr p) 4 M = Some (enc LittleEndian 4 y) ->
  arm_word p = Some (wrapU 32 y, s_with_stack (stack_ptr p + 4) p).
Proof.
  intros [_ Hs] Hc H0 Hrd. unfold arm_word. rewrite (proj2 (Z.ltb_ge _ _)) by lia.
  apply Hs in Hrd; [|lia]. replace (16 + stack_ptr p - 16) with (stack_ptr p) in Hrd by lia.
  rewrite Hrd. cbn [mbind option_bind]. by rewrite dec_enc.
Qed.

Lemma arm_word_at M s p y :
  over M p -> stands s p -> rd s 4 M = Some (enc LittleEndian 4 y) ->
  exists p', arm_word p = Some (wrapU 32 y, p') /\ over M p' /\ stands (s + 4) p' /\ same_fregs p p'.
Proof.
  intros Ho (Hm & H0 & Hc & Hs) Hrd. pose proof (Z.div_mod s 4 ltac:(lia)).
  assert (Hm' : (s + 4) mod 4 = 0) by (rewrite <- (Z.mul_1_l 4) at 1; by rewrite Z.mod_add).
  assert (Hd' : (s + 4) / 4 = s / 4 + 1) by (rewrite <- (Z.mul_1_l 4) at 1; by rewrite Z.div_add).
  destruct (Z.lt_ge_cases s 16).
  - eexists. split; [apply (arm_word_reg M); [done|lia|]|].
    { replace (4 * reg_count p) with s by lia. exact Hrd. }
    split; [by eapply over_same|]. split; [|done]. unfold stands. cbn. rewrite Hd'. lia.
  - eexists. split; [apply (arm_word_stack M); [done|lia|lia|]|].
    { replace (16 + stack_ptr p) with s by lia. exact Hrd. }
    split; [by eapply over_same|]. split; [|done]. unfold stands. cbn. rewrite Hd'. lia.
Qed.

(** *** Alignment of 64-bit values *)

Lemma arm_align_at abi s p :
  abi <> ATPCS -> stands s p ->
  let p' := arm_align_64 abi p in
  stands (align_up s 8) p' /\ same_fregs p p' /\ reg_data p' = reg_data p /\ args_stack p' = args_stack p.
Proof.
  intros Ha (Hm & H0 & Hc & Hs). cbv zeta. unfold arm_align_64.
  assert (Hk : s mod 8 = 0 \/ s mod 8 = 4).
  { pose proof (Z.div_mod s 4 ltac:(lia)). pose proof (Z.div_mod s 8 ltac:(lia)).
    pose proof (Z.mod_pos_bound s 8 ltac:(lia)). lia. }
  rewrite align_up_8 by done.
  destruct (Z.lt_ge_cases s 16) as [Hlt|Hge].
  - pose proof (Z.div_mod s 4 ltac:(lia)).
    assert (s = 0 \/ s = 4 \/ s = 8 \/ s = 12) as [-> | [-> | [-> | ->]]] by lia;
      destruct p as [rs c k fl fs fd st]; cbn in Hc, Hs; vm_compute in Hc, Hs; subst c k;
      (destruct abi; [done|..]); (split; [split_and!; vm_compute; done|done]).
  - rewrite (proj2 (Z.ltb_ge (reg_count p) 4)) by (pose proof (Z.div_mod s 4 ltac:(lia)); lia).
    assert (Z.land (stack_ptr p) 4 = s mod 8) as Hl.
    { rewrite Hs, Z.max_r by lia. rewrite land_4.
      - replace (s - 16) with (s + (-2) * 8) by lia. by rewrite Z.mod_add.
      - replace (s - 16) with (s + (-4) * 4) by lia. by rewrite Z.mod_add. }
    rewrite Hl, Z.geb_leb, (proj2 (Z.leb_le 4 (reg_count p))) by (pose proof (Z.div_mod s 4 ltac:(lia)); lia).
    assert (Hm4 : (s + s mod 8) mod 4 = 0) by (destruct Hk as [-> | ->]; [by rewrite Z.add_0_r|];
      rewrite <- (Z.mul_1_l 4) at 1; by rewrite Z.mod_add).
    pose proof (Z.div_mod (s + s mod 8) 4 ltac:(lia)). pose proof (Z.div_mod s 4 ltac:(lia)).
    destruct abi; try done;
      (destruct Hk as [E|E]; rewrite E in *; cbn; unfold stands, same_fregs; cbn; split_and!; try done; lia).
Qed.

(** The halves of a 64-bit value. *)
Lemma rd_enc_dword o M y :
  rd o 8 M = Some (enc LittleEndian 8 y) ->
  rd o 4 M = Some (enc LittleEndian 4 y) /\ rd (o + 4) 4 M = Some (enc LittleEndian 4 (y / 2 ^ 32)).
Proof.
  intros H. destruct (rd_split 4 4 _ _ _ H) as [Hlo Hhi]. unfold enc in Hlo, Hhi |- *.
  rewrite take_le_split in Hlo by lia. by rewrite drop_le_split in Hhi by lia.
Qed.

(** A 64-bit value. *)
Lemma arm_dword_at abi M s p y :
  let s' := match abi with ATPCS => s | _ => align_up s 8 end in
  over M p -> stands s p -> rd s' 8 M = Some (enc LittleEndian 8 y) ->
  exists p', arm_dword abi p = Some (wrapU 64 y, p') /\ over M p' /\ stands (s' + 8) p' /\ same_fregs p p'.
Proof.
  intros s' Ho Hst Hrd.
  assert (Ha : over M (arm_align_64 abi p) /\ stands s' (arm_align_64 abi p) /\ same_fregs p (arm_align_64 abi p)).
  { unfold s'. destruct (decide (abi = ATPCS)) as [->|Hne]; [done|].
    destruct (arm_align_at abi s p Hne Hst) as (? & ? & E1 & E2).
    split_and!; [by eapply over_same| |done]. by destruct abi. }
  destruct Ha as (Ho1 & Hst1 & Hf1). destruct (rd_enc_dword _ _ _ Hrd) as [Hlo Hhi].
  destruct (arm_word_at M s' _ y Ho1 Hst1 Hlo) as (p1 & E1 & Ho2 & Hst2 & Hf2).
  destruct (arm_word_at M (s' + 4) p1 (y / 2 ^ 32) Ho2 Hst2 Hhi) as (p2 & E2 & Ho3 & Hst3 & Hf3).
  exists p2. unfold arm_dword, mbind, option_bind. rewrite E1; cbn beta iota. rewrite E2; cbn beta iota. split_and!; [|done| |].
  - by rewrite dword_join.
  - by replace (s' + 8) with (s' + 4 + 4) by lia.
  - unfold same_fregs in *. intuition congruence.
Qed.

(** ** One argument of any type, without hard float *)

Lemma word_values cs t x y :
  is_wide t = false -> val_ok (DM := arm32_dm cs) t x -> conv (DM := arm32_dm cs) t y = conv (DM := arm32_dm cs) t x ->
  (t = TBool -> wrapS 32 y = x) /\
  forall t', ty_bits (DM := arm32_dm cs) t <= ty_bits (DM := arm32_dm cs) t' ->
    conv (DM := arm32_dm cs) t (conv (DM := arm32_dm cs) t' (wrapU 32 y)) = x.
Proof.
  intros Hw Hx Hy. rewrite (val_ok_conv _ _ Hx) in Hy. split; [by intros ->|].
  intros t' Ht'. rewrite conv_conv by done. rewrite conv_wrapU by (destruct t; done). done.
Qed.

Lemma dcbArg_word cs abi t x y p p' :
  is_wide t = false -> (t = TFloat -> abi <> ARMHF) -> val_ok (DM := arm32_dm cs) t x ->
  conv (DM := arm32_dm cs) t y = conv (DM := arm32_dm cs) t x ->
  arm_word p = Some (wrapU 32 y, p') ->
  dcbArg (ArgReader := arm32_ArgReader cs abi) t p = Some (x, p').
Proof.
  intros Hw Hf Hx Hy Hp. destruct (word_values cs t x y Hw Hx Hy) as [Hb Hv].
  rewrite (val_ok_conv _ _ Hx) in Hy.
  assert (H1 : conv (DM := arm32_dm cs) t (wrapU 32 y) = x) by (rewrite conv_wrapU by (destruct t; done); done).
  assert (Hc : forall t1 t2 z, ty_bits (DM := arm32_dm cs) t1 <= ty_bits (DM := arm32_dm cs) t2 ->
            conv (DM := arm32_dm cs) t1 (conv (DM := arm32_dm cs) t2 z) = conv (DM := arm32_dm cs) t1 z)
    by (intros; by apply (conv_conv (DM := arm32_dm cs))).
  destruct t; try done; cbn [dcbArg arm32_ArgReader];
    unfold dcbArgUInt, dcbArgUChar, dcbArgUShort, dcbArgULong, dcbArgPointer, dcbArgBool, dcbArgInt, dcbArgChar,
      dcbArgShort, dcbArgLong, dcbArgFloat, arm_float, mbind, SO_bind, mret, SO_ret; rewrite ?Hp; cbn beta iota.
  { rewrite <- (wrapS_wrapU 32 32) in Hb by lia. specialize (Hb eq_refl). unfold conv at 1; cbn [dm_long_bits arm32_dm].
    rewrite Hb. by destruct Hx as [-> | ->]. }
  all: rewrite ?Hc by (vm_compute; done); rewrite ?H1; try done.
  - destruct abi; [| |by destruct (Hf eq_refl)]; cbn [option_bind]; by rewrite H1.
  - change (conv (DM := arm32_dm cs) TPointer) with (conv (DM := arm32_dm cs) TString).
    by rewrite H1.
Qed.

Lemma dcbArg_wide cs abi t x y p p' :
  is_wide t = true -> (t = TDouble -> abi <> ARMHF) -> val_ok (DM := arm32_dm cs) t x ->
  conv (DM := arm32_dm cs) t y = conv (DM := arm32_dm cs) t x ->
  arm_dword abi p = Some (wrapU 64 y, p') ->
  dcbArg (ArgReader := arm32_ArgReader cs abi) t p = Some (x, p').
Proof.
  intros Hw Hf Hx Hy Hp. rewrite (val_ok_conv _ _ Hx) in Hy.
  assert (H1 : conv (DM := arm32_dm cs) t (wrapU 64 y) = x) by (rewrite conv_wrapU by (destruct t; done); done).
  assert (Hc : forall t1 t2 z, ty_bits (DM := arm32_dm cs) t1 <= ty_bits (DM := arm32_dm cs) t2 ->
            conv (DM := arm32_dm cs) t1 (conv (DM := arm32_dm cs) t2 z) = conv (DM := arm32_dm cs) t1 z)
    by (intros; by apply (conv_conv (DM := arm32_dm cs))).
  destruct t; try done; cbn [dcbArg arm32_ArgReader];
    unfold dcbArgULongLong, dcbArgLongLong, arm_longlong, dcbArgDouble, arm_double, mbind, SO_bind, mret, SO_ret;
    rewrite ?Hp; cbn [option_bind]; rewrite ?Hc by (vm_compute; done); rewrite ?H1; try done.
  by destruct abi; [| |destruct (Hf eq_refl)].
Qed.

(** ** From the finished VM into the callee *)

Lemma spill_ok data size :
  0 <= size <= Z.of_nat (length data) -> 16 <= Z.of_nat (length data) < 2 ^ 31 ->
  exists regs stack, spill data size = Some (regs, stack) /\
    (forall k bs, 0 <= k < 4 -> rd (4 * k) 4 data = Some bs -> aget k regs = Some (dec LittleEndian bs)) /\
    (forall off n bs, 16 <= off -> rd off n (take (Z.to_nat size) data) = Some bs -> rd (off - 16) n stack = Some bs).
Proof.
  intros Hs Hl. unfold spill.
  destruct (rd_Some 0 4 data) as (r0 & E0 & _); [lia..|]. destruct (rd_Some 4 4 data) as (r1 & E1 & _); [lia..|].
  destruct (rd_Some 8 4 data) as (r2 & E2 & _); [lia..|]. destruct (rd_Some 12 4 data) as (r3 & E3 & _); [lia..|].
  rewrite E0, E1, E2, E3. cbn [mbind option_bind]. rewrite wrapS_id by (unfold in_s; lia).
  assert (Hregs : forall k bs, 0 <= k < 4 -> rd (4 * k) 4 data = Some bs ->
            aget k (map (dec LittleEndian) [r0; r1; r2; r3]) = Some (dec LittleEndian bs)).
  { intros k bs Hk Hrd. assert (k = 0 \/ k = 1 \/ k = 2 \/ k = 3) as [-> | [-> | [-> | ->]]] by lia;
      [change (4 * 0) with 0 in Hrd; rewrite Hrd in E0; injection E0 as <-
      |change (4 * 1) with 4 in Hrd; rewrite Hrd in E1; injection E1 as <-
      |change (4 * 2) with 8 in Hrd; rewrite Hrd in E2; injection E2 as <-
      |change (4 * 3) with 12 in Hrd; rewrite Hrd in E3; injection E3 as <-]; done. }
  destruct (Z.leb_spec size 16).
  - eexists _, _. split; [done|]. split; [done|]. intros off n bs Ho Hrd.
    pose proof (rd_length _ _ _ _ Hrd). apply rd_bound in Hrd as Hb. rewrite length_take in Hb.
    assert (off = 16 /\ n = 0%nat) as [-> ->] by lia. destruct bs; [done|discriminate].
  - destruct (rd_Some 16 (Z.to_nat (size - 16)) data) as (st & -> & Lst & Est); [lia..|]. cbn [mbind option_bind].
    eexists _, _. split; [done|]. split; [done|]. intros off n bs Ho Hrd. rewrite Est. clear Est Lst.
    change (Z.to_nat 16) with 16%nat. rewrite take_drop_commute.
    replace (16 + Z.to_nat (size - 16))%nat with (Z.to_nat size) by lia.
    revert Hrd. generalize (take (Z.to_nat size) data). intros m. unfold rd.
    rewrite !(proj2 (Z.leb_le _ _)) by lia. rewrite !sublist_lookup_Some', drop_drop, length_drop.
    replace (16 + Z.to_nat (off - 16))%nat with (Z.to_nat off) by lia. intros [-> ?]. split; [done|lia].
Qed.

Section Convention.
Variable cs : bool.
Variable eabi : bool.
Variable abi : arm32_abi.
#[local] Hint Extern 0 DataModel => exact (arm32_dm cs) : typeclass_instances.
Abbreviation C32 := (arm32_CallVM cs eabi).

(** The mode of the VM suits the ABI the callback was compiled for. *)
Record t_inv (vm : DCCallVM_arm32_arm) : Prop := {
  ti_mode : abi = (if t_aligned (t_vt vm) then EABI else ATPCS);
  ti_vec : vec_wf (t_vec vm) /\ vec_room (t_vec vm) 0;
  ti_words : mSize (t_vec vm) mod 4 = 0;
}.

Definition t_ext (a b : DCCallVM_arm32_arm) : Prop := prefix (vec_bytes (t_vec a)) (vec_bytes (t_vec b)).

Definition t_at (vm vf : DCCallVM_arm32_arm) (p : DCArgs) : Prop :=
  over (vec_bytes (t_vec vf)) p /\ stands (mSize (t_vec vm)) p.

Lemma t_push_ok vm t x :
  t_inv vm -> fits (t_vec vm) ->
  let s := arg_start (t_aligned (t_vt vm)) t (mSize (t_vec vm)) in
  exists vm', t_push cs vm t x = Some vm' /\ t_inv vm' /\ t_ext vm vm' /\ t_vt vm' = t_vt vm /\
    mTotal (t_vec vm') = mTotal (t_vec vm) /\ length (vec_data (t_vec vm')) = length (vec_data (t_vec vm)) /\
    mSize (t_vec vm') = s + arg_size t /\
    rd s (Z.to_nat (arg_size t)) (vec_bytes (t_vec vm')) = Some (enc LittleEndian (Z.to_nat (arg_size t)) x).
Proof.
  intros [Hmode [Hw H0] Hm] Hf s. pose proof (align_up_bounds (mSize (t_vec vm)) 8 ltac:(lia)) as Hb.
  pose proof (vwf_size _ Hw) as Hs0. unfold fits in Hf.
  assert (Hsz : arg_size t = 4 \/ arg_size t = 8) by (unfold arg_size; destruct (is_wide t); auto).
  set (w := if t_aligned (t_vt vm) && is_wide t then t_align cs vm else vm).
  assert (Hw' : vec_wf (t_vec w) /\ mTotal (t_vec w) = mTotal (t_vec vm) /\ mSize (t_vec w) = s /\ t_vt w = t_vt vm /\
            prefix (vec_bytes (t_vec vm)) (vec_bytes (t_vec w)) /\ s mod 4 = 0 /\ 
            vec_data (t_vec w) = vec_data (t_vec vm) /\ mSize (t_vec vm) <= s <= align_up (mSize (t_vec vm)) 8).
  { unfold w, s, arg_start. destruct (t_aligned (t_vt vm) && is_wide t); [|split_and!; (done || lia)].
    unfold t_align. cbn [t_vec t_with_vec t_vt]. rewrite skip_to_8 by done.
    destruct (dcVecResize_forward (t_vec vm) (align_up (mSize (t_vec vm)) 8) Hw ltac:(lia)) as [? ?].
    split_and!; try done; try lia. pose proof (align_up_mod (mSize (t_vec vm)) 8 ltac:(lia)) as Ha.
    pose proof (Z.div_mod (align_up (mSize (t_vec vm)) 8) 8 ltac:(lia)) as Hd. rewrite Ha, Z.add_0_r in Hd.
    rewrite Hd. replace (8 * _) with (align_up (mSize (t_vec vm)) 8 / 8 * 2 * 4) by lia. by apply Z.mod_mul. }
  destruct Hw' as (Hww & Htw & Hsw & Hvw & Hpw & Hmw & Hdw & Hle). unfold t_push. fold w. unfold t_append.
  destruct (dcVecAppend_ok (t_vec w) (enc LittleEndian (Z.to_nat (arg_size t)) x) _ Hww eq_refl)
    as (u & -> & Hwu & Htu & Hsu & Hlu & Hbu & _).
  { unfold vec_room. rewrite length_enc. lia. }
  rewrite length_enc in Hsu. cbn [mbind option_bind]. exists (t_with_vec u w). unfold t_ext. cbn [t_vec t_vt t_with_vec].
  split_and!; try done; try lia; try congruence.
  - constructor; cbn; [by rewrite Hvw|split; [done|unfold vec_room; lia]|].
    rewrite Hsu, Hsw, Z2Nat.id by lia. rewrite Z.add_mod, Hmw by lia. by destruct Hsz as [-> | ->].
  - rewrite Hbu. etrans; [exact Hpw|]. by apply prefix_app_r.
  - rewrite Hbu. apply rd_app; [|by rewrite length_enc]. rewrite length_vec_bytes; [lia|done|].
    unfold vec_room. lia.
Qed.

Lemma t_step vm a :
  t_inv vm -> fits (t_vec vm) -> arg_ok a ->
  exists vm', push_arg (C := C32) vm a = Some vm' /\ t_inv vm' /\ t_ext vm vm' /\
    forall vf p, t_inv vf -> t_ext vm' vf -> t_at vm vf p ->
      exists p', dcbArg (ArgReader := arm32_ArgReader cs abi) (a_ty a) p = Some (a_val a, p') /\ t_at vm' vf p'.
Proof.
  intros Hi Hf Ha. destruct a as [t x]. cbn [a_ty a_val].
  destruct (push_arg_arm32 cs eabi vm (Arg t x)) as (y & -> & Hy). cbn [a_ty a_val] in *.
  destruct (t_push_ok vm t y Hi Hf) as (vm' & Hp & Hi' & Hx & Hv & _ & _ & Hs & Hrd).
  exists vm'. split_and!; try done. intros vf p _ Hxf [Ho Hst]. destruct Hi as [Hmode _ _].
  apply (rd_prefix _ _ _ (vec_bytes (t_vec vf))) in Hrd; [|done].
  unfold arg_start, arg_size in *. destruct (is_wide t) eqn:Hw.
  - destruct (arm_dword_at abi (vec_bytes (t_vec vf)) (mSize (t_vec vm)) p y) as (p' & Hd & Ho' & Hst' & _); try done.
    { rewrite Hmode. rewrite andb_true_r in Hrd. by destruct (t_aligned (t_vt vm)). }
    exists p'. split.
    + eapply dcbArg_wide; try done. rewrite Hmode. by destruct (t_aligned (t_vt vm)).
    + split; [done|]. rewrite Hs, andb_true_r. rewrite Hmode in Hst'. by destruct (t_aligned (t_vt vm)).
  - rewrite andb_false_r in *.
    destruct (arm_word_at (vec_bytes (t_vec vf)) (mSize (t_vec vm)) p y) as (p' & Hd & Ho' & Hst' & _); try done.
    exists p'. split; [|split; [done|by rewrite Hs]].
    eapply dcbArg_word; try done. rewrite Hmode. by destruct (t_aligned (t_vt vm)).
Qed.

#[export, refine] Instance arm32_CallConv : CallConv DCCallVM_arm32_arm DCArgs
    (DM := arm32_dm cs) (H := C32) (H0 := arm32_ArgReader cs abi) := {
  cc_inv := t_inv;
  cc_room vm _ := fits (t_vec vm);
  cc_ext := t_ext;
  cc_at := t_at;
}.
Proof. { intros. unfold t_ext. done. } { intros a b c. unfold t_ext. by etrans. } exact t_step. Defined.

(** *** Whole argument lists *)

(** What the VM is allocated with: the declared capacity and the sixteen bytes
    the call kernel relies on. *)
Record t_alloc (vm : DCCallVM_arm32_arm) : Prop := {
  tl_mode : abi = (if t_aligned (t_vt vm) then EABI else ATPCS);
  tl_vec : vec_wf (t_vec vm) /\ 0 <= mTotal (t_vec vm);
  tl_spill : mTotal (t_vec vm) + 16 <= Z.of_nat (length (vec_data (t_vec vm))) < 2 ^ 31;
}.

Lemma reset_arm32 vm0 :
  t_alloc vm0 ->
  exists vm, dcReset (C := C32) vm0 = Some vm /\ t_inv vm /\ t_vt vm = t_vt vm0 /\ mSize (t_vec vm) = 0 /\
    mTotal (t_vec vm) = mTotal (t_vec vm0) /\ vec_data (t_vec vm) = vec_data (t_vec vm0).
Proof.
  intros [Hm [[Hs Ht Hw] H0] Hsp]. exists (t_with_vec (dcVecReset (t_vec vm0)) vm0). split_and!; try done.
  unfold dcReset, vtable. cbn. by destruct (t_vt vm0).
Qed.

Lemma callVoid_arm32 vm t target :
  dcCall_as (C := C32) t vm target = dcCall_arm32 target (vec_data (t_vec vm)) (mSize (t_vec vm)).
Proof.
  unfold dcCall_as, dcCallBool, dcCallChar, dcCallShort, dcCallInt, dcCallLong, dcCallLongLong,
    dcCallFloat, dcCallDouble, dcCallPointer, vtable. destruct t; cbn; by destruct (t_vt vm).
Qed.

(** Pushing a list that fits. *)
Lemma push_list_arm32 l : forall vm,
  t_inv vm -> align_up (mSize (t_vec vm)) 8 + 8 * Z.of_nat (length l) <= mTotal (t_vec vm) ->
  room_for (CC := arm32_CallConv) vm l /\
  exists vf, push_args (C := C32) vm l = Some vf /\ t_inv vf /\ t_vt vf = t_vt vm /\
    mTotal (t_vec vf) = mTotal (t_vec vm) /\ length (vec_data (t_vec vf)) = length (vec_data (t_vec vm)).
Proof.
  induction l as [|a l IH]; intros vm Hi Hb; [split; [done|by exists vm]|]. cbn [length] in Hb.
  assert (Hf : fits (t_vec vm)) by (unfold fits; lia).
  destruct (push_arg_arm32 cs eabi vm a) as (y & Hpa & _).
  destruct (t_push_ok vm (a_ty a) y Hi Hf) as (vm' & Hp & Hi' & _ & Hv & Ht & Hl & Hs & _). rewrite Hp in Hpa.
  assert (Hb' : align_up (mSize (t_vec vm')) 8 <= align_up (mSize (t_vec vm)) 8 + 8).
  { pose proof (align_up_bounds (mSize (t_vec vm)) 8 ltac:(lia)).
    apply align_up_least; [lia| |].
    - unfold align_up. exists ((mSize (t_vec vm) + 8 - 1) / 8 + 1). lia.
    - rewrite Hs. unfold arg_start, arg_size. destruct (_ && _), (is_wide _); lia. }
  destruct (IH vm' Hi' ltac:(lia)) as (Hr & vf & Hpf & Hif & Hvf & Htf & Hlf). split.
  - split; [exact Hf|]. intros vm1 H1.
    assert (H1' : push_arg (C := C32) vm a = Some vm1) by exact H1. rewrite Hpa in H1'. by injection H1' as <-.
  - exists vf. split_and!; try congruence; try done. unfold push_args. cbn [foldM]. rewrite Hpa. exact Hpf.
Qed.

End Convention.
