(* ===== verification/Armhf.v ===== *)
(** * 32-bit ARM with hard float: the call VM
      (dyncall/dyncall_callvm_arm32_arm_armhf.{h,c},
       dyncall_call_arm32_arm_armhf.S)

    The first sixteen bytes of the vector are the registers r0-r3; s0-s15 are
    kept apart, with one counter for single and one for double precision. *)

From S2P Require Export Arm32Proofs.

Inductive armhf_vt := vt_armhf_p | vt_armhf_ellipsis_p.

Record DCCallVM_arm32_armhf := {
  h_vt : armhf_vt;
  h_mError : Z;
  h_i : Z;
  h_s : Z;
  h_d : Z;
  h_S : list Z;
  h_vec : DCVecHead;
}.

Definition h_with_vt (v : armhf_vt) (e : Z) (p : DCCallVM_arm32_armhf) : DCCallVM_arm32_armhf :=
  {| h_vt := v; h_mError := e; h_i := h_i p; h_s := h_s p; h_d := h_d p; h_S := h_S p; h_vec := h_vec p |}.
Definition h_with_i (i : Z) (p : DCCallVM_arm32_armhf) : DCCallVM_arm32_armhf :=
  {| h_vt := h_vt p; h_mError := h_mError p; h_i := i; h_s := h_s p; h_d := h_d p; h_S := h_S p; h_vec := h_vec p |}.
Definition h_with_fp (s d : Z) (r : list Z) (p : DCCallVM_arm32_armhf) : DCCallVM_arm32_armhf :=
  {| h_vt := h_vt p; h_mError := h_mError p; h_i := h_i p; h_s := s; h_d := d; h_S := r; h_vec := h_vec p |}.
Definition h_with_vec (v : DCVecHead) (p : DCCallVM_arm32_armhf) : DCCallVM_arm32_armhf :=
  {| h_vt := h_vt p; h_mError := h_mError p; h_i := h_i p; h_s := h_s p; h_d := h_d p; h_S := h_S p; h_vec := v |}.

(** The call kernel (dyncall_call_arm32_arm_armhf.S): s0-s15 from [p_s16],
    r0-r3 from the first sixteen bytes of the data, and the rest pushed word by
    word. *)
Record armhf_kernel := dcCall_arm32_armhf { hk_target : Z; hk_data : list Z; hk_size : Z; hk_s16 : list Z }.

Definition armhf_enter (k : armhf_kernel) : option arm32_cpu :=
  let words := (wrapS 32 (hk_size k) - 16 + 3) / 4 in
  '(regs, stack) ← spill (hk_data k) (16 + words * 4);
  if Z.of_nat (length (hk_s16 k)) =? 16
  then Some {| core := regs; vfp := hk_s16 k; cpu_stack := stack |} else None.

Section Armhf.
Variable char_signed : bool.
#[local] Hint Extern 0 DataModel => exact (arm32_dm char_signed) : typeclass_instances.

Definition u32 (z : Z) : Z := wrapU 32 z.

Definition deinit (_ : DCCallVM_arm32_armhf) : unit := tt.
Definition reset (p : DCCallVM_arm32_armhf) : option DCCallVM_arm32_armhf :=
  Some (h_with_vec (dcVecResize (h_vec p) 16) (h_with_fp 0 0 (h_S p) (h_with_i 0 p))).

Definition h_append (p : DCCallVM_arm32_armhf) (bs : list Z) : option DCCallVM_arm32_armhf :=
  v ← dcVecAppend (h_vec p) bs (Z.of_nat (length bs)); Some (h_with_vec v p).

(** 64 bit values need to be aligned on 8 byte boundaries *)
Definition h_align (p : DCCallVM_arm32_armhf) : DCCallVM_arm32_armhf :=
  h_with_vec (dcVecSkip (h_vec p) (Z.land (dcVecSize (h_vec p)) 4)) p.

Definition a_int (p : DCCallVM_arm32_armhf) (x : Z) : option DCCallVM_arm32_armhf :=
  if h_i p <? 16
  then v ← dcVecStore (h_vec p) (h_i p) (enc LittleEndian 4 x); Some (h_with_i (h_i p + 4) (h_with_vec v p))
  else h_append p (enc LittleEndian 4 x).
Definition a_bool (p : DCCallVM_arm32_armhf) (x : Z) := a_int p (conv TInt x).
Definition a_char (p : DCCallVM_arm32_armhf) (x : Z) := a_int p (conv TInt x).
Definition a_short (p : DCCallVM_arm32_armhf) (x : Z) := a_int p (conv TInt x).
Definition a_long (p : DCCallVM_arm32_armhf) (x : Z) := a_int p (conv TInt x).

Definition a_longlong (p : DCCallVM_arm32_armhf) (x : Z) : option DCCallVM_arm32_armhf :=
  let p := h_with_i (Z.land (u32 (h_i p + 4)) (u32 (- 8))) p in
  if h_i p <? 16
  then v ← dcVecStore (h_vec p) (h_i p) (enc LittleEndian 8 x); Some (h_with_i (h_i p + 8) (h_with_vec v p))
  else h_append (h_align p) (enc LittleEndian 8 x).

Definition a_pointer (p : DCCallVM_arm32_armhf) (x : Z) := a_int p (conv TInt x).

Definition a_float (p : DCCallVM_arm32_armhf) (x : Z) : option DCCallVM_arm32_armhf :=
  if h_s p <? 16 then
    r ← aset (h_s p) (u32 x) (h_S p);
    let s := h_s p + 1 in
    Some (if h_d p <? s
          then h_with_fp s (Z.land (u32 (s + 1)) (u32 (Z.lnot 1))) r p
          else h_with_fp (h_d p) (h_d p) r p)
  else h_append p (enc LittleEndian 4 x).

(** The store through [(DCdouble* ) &p->S[p->d]] writes two words. *)
Definition a_double (p : DCCallVM_arm32_armhf) (x : Z) : option DCCallVM_arm32_armhf :=
  if h_d p <? 16 then
    r ← aset (h_d p) (u32 x) (h_S p);
    r ← aset (h_d p + 1) (u32 (x / 2 ^ 32)) r;
    let d := h_d p + 2 in
    (* if s is even it always equals d. otherwise, s points to an odd float register. *)
    Some (h_with_fp (if Z.land (h_s p) 1 =? 0 then d else h_s p) d r p)
  else
    (* fp registers all full - need to use stack now: stop filling gaps for single precision, also *)
    h_append (h_align (h_with_fp 16 (h_d p) (h_S p) p)) (enc LittleEndian 8 x).

Definition a_float_ellipsis (p : DCCallVM_arm32_armhf) (x : Z) := a_int p (conv TInt x).
Definition a_double_ellipsis (p : DCCallVM_arm32_armhf) (x : Z) := a_longlong p (conv TLongLong x).

Definition call (p : DCCallVM_arm32_armhf) (target : Z) : armhf_kernel :=
  dcCall_arm32_armhf target (vec_data (h_vec p)) (dcVecSize (h_vec p)) (h_S p).

Definition mode (p : DCCallVM_arm32_armhf) (m : Z) : option DCCallVM_arm32_armhf :=
  let base_init vt := h_with_vt vt DC_ERROR_NONE p in
  Some
    (if (m =? DC_CALL_C_DEFAULT) || (m =? DC_CALL_C_DEFAULT_THIS) || (m =? DC_CALL_C_ARM_ARMHF)
     then base_init vt_armhf_p
     else if (m =? DC_CALL_C_ELLIPSIS) || (m =? DC_CALL_C_ELLIPSIS_VARARGS)
     then base_init vt_armhf_ellipsis_p
     else h_with_vt (h_vt p) DC_ERROR_UNSUPPORTED_MODE p).

Definition vt_armhf : DCCallVM_vt DCCallVM_arm32_armhf armhf_kernel arm32_ret := Build_DCCallVM_vt
  deinit reset mode
  a_bool a_char a_short a_int a_long a_longlong a_float a_double a_pointer
  None (* argAggr *)
  call call call call call call call call call call
  None (* callAggr *)
  None (* beginAggr *).

Definition vt_armhf_ellipsis : DCCallVM_vt DCCallVM_arm32_armhf armhf_kernel arm32_ret := Build_DCCallVM_vt
  deinit reset mode
  a_bool a_char a_short a_int a_long a_longlong a_float_ellipsis a_double_ellipsis a_pointer
  None (* argAggr *)
  call call call call call call call call call call
  None (* callAggr *)
  None (* beginAggr *).

#[export] Instance armhf_CallVM : CallVM DCCallVM_arm32_armhf armhf_vt armhf_kernel arm32_ret := {
  mVTpointer := h_vt;
  mError := h_mError;
  deref v := match v with vt_armhf_p => vt_armhf | vt_armhf_ellipsis_p => vt_armhf_ellipsis end;
}.

(** [dcNewCallVM]: [alloc] is the memory behind the header, sixteen bytes more
    than [size]. *)
Definition dcNewCallVM (mem : DCCallVM_arm32_armhf) (alloc : option (list Z)) (size : Z)
    : option DCCallVM_arm32_armhf :=
  alloc ← alloc;
  p ← mode mem DC_CALL_C_DEFAULT;
  reset (h_with_vec (dcVecInit alloc size) p).

End Armhf.
