(* ===== verification/ArmhfProofs.v ===== *)
(** * 32-bit ARM with hard float: argument placement *)

From S2P Require Export Armhf.

(** ** AAPCS-VFP

    Written from the procedure call standard.  A [float] takes the lowest free
    single-precision register, a [double] the lowest free aligned pair - so that
    later [float]s fill the gaps -, and once one did not fit, no register is
    used any more.  Other 64-bit values take an even pair of core registers.
    Without the VFP variant ([vfp] false) floats are passed like integers. *)

Inductive hf_loc := HCore (k : Z) | HVfp (k : Z) | HStack (off : Z).
Record hf_pos := { ncrn : Z; free : list Z; nsaa : Z }.

Definition take_single (free : list Z) : option (Z * list Z) :=
  match free with [] => None | k :: rest => Some (k, rest) end.

Definition take_double (free : list Z) : option (Z * list Z) :=
  k ← (List.find (fun k => Z.even k && bool_decide (k + 1 ∈ free)) free);
  Some (k, filter (fun j => j <> k /\ j <> k + 1) free).

Definition alloc_hf (hf : bool) (t : cty) (p : hf_pos) : hf_loc * hf_pos :=
  if hf && is_float t then
    match (if is_wide t then take_double else take_single) (free p) with
    | Some (k, rest) => (HVfp k, {| ncrn := ncrn p; free := rest; nsaa := nsaa p |})
    | None =>
      let s := if is_wide t then align_up (nsaa p) 8 else nsaa p in
      (HStack s, {| ncrn := ncrn p; free := []; nsaa := s + arg_size t |})
    end
  else
    let n := if is_wide t then align_up (ncrn p) 2 else ncrn p in
    if n <? 4 then (HCore n, {| ncrn := n + arg_size t / 4; free := free p; nsaa := nsaa p |})
    else
      let s := if is_wide t then align_up (nsaa p) 8 else nsaa p in
      (HStack s, {| ncrn := 4; free := free p; nsaa := s + arg_size t |}).

(** ** The counters describe the free registers *)

Definition free_of (s d : Z) : list Z := (if Z.odd s then [s] else []) ++ seqZ d (16 - d).

Definition vfp_ok (s d : Z) : bool :=
  (0 <=? s) && (s <=? 16) && (0 <=? d) && (d <=? 16) && Z.even d && (if Z.odd s then s <? d else s =? d).

(** The updates of [a_float] and [a_double], and of the reader. *)
Definition next_single (s d : Z) : Z * Z :=
  if d <? s + 1 then (s + 1, Z.land (u32 (s + 1 + 1)) (u32 (Z.lnot 1))) else (d, d).
Definition next_double (s d : Z) : Z * Z := (if Z.land s 1 =? 0 then d + 2 else s, d + 2).

Definition synced (fs fd : Z) : Z := if fd <? fs then Z.land (fs + 1) 0x1e else fd.
Definition read_single (fs fd : Z) : Z :=
  if (Z.land (fs + 1) 1 =? 0) && (fs + 1 <? fd) then fd else fs + 1.

(** A property of two counters up to 16 is checked by going through them. *)
Lemma by_table (P : Z -> Z -> bool) :
  forallb (fun s => forallb (P s) (seqZ 0 17)) (seqZ 0 17) = true ->
  forall s d, 0 <= s <= 16 -> 0 <= d <= 16 -> P s d = true.
Proof.
  intros H s d Hs Hd. rewrite forallb_forall in H.
  assert (Hin : forall k, 0 <= k <= 16 -> In k (seqZ 0 17)) by (intros; apply list_elem_of_In, elem_of_seqZ; lia).
  specialize (H s (Hin s Hs)). rewrite forallb_forall in H. by apply H, Hin.
Qed.

Lemma vfp_bounds s d : vfp_ok s d = true -> 0 <= s <= 16 /\ 0 <= d <= 16.
Proof. unfold vfp_ok. intros H. repeat apply andb_prop in H as [H ?]. lia. Qed.

(** The registers [ks] were free and are not any more; no other became free. *)
Definition took (ks before after : list Z) : bool :=
  forallb (fun k => bool_decide (k ∈ before) && bool_decide (k ∉ after)) ks
  && forallb (fun k => bool_decide (k ∈ before)) after.

Lemma took_spec ks before after :
  took ks before after = true ->
  (forall k, k ∈ ks -> k ∈ before /\ k ∉ after) /\ (forall k, k ∈ after -> k ∈ before).
Proof.
  unfold took. rewrite andb_true_iff, !forallb_forall. intros [H1 H2]. split; intros k Hk.
  - apply list_elem_of_In, H1 in Hk. apply andb_prop in Hk as [?%bool_decide_eq_true ?%bool_decide_eq_true]. done.
  - apply list_elem_of_In, H2, bool_decide_eq_true in Hk. done.
Qed.

Definition single_check (s d : Z) : bool :=
  let '(s', d') := next_single s d in
  implb (vfp_ok s d)
    (bool_decide (take_single (free_of s d) = (if s <? 16 then Some (s, free_of s' d') else None))
     && implb (s <? 16) (vfp_ok s' d' && took [s] (free_of s d) (free_of s' d'))
     && implb (negb (s <? 16)) (d =? 16) && implb (negb (s <? 16)) (s =? 16)).

Definition double_check (s d : Z) : bool :=
  let '(s', d') := next_double s d in
  implb (vfp_ok s d)
    (bool_decide (take_double (free_of s d) = (if d <? 16 then Some (d, free_of s' d') else None))
     && implb (d <? 16) (vfp_ok s' d' && took [d; d + 1] (free_of s d) (free_of s' d') && (d <? 15))
     && implb (negb (d <? 16)) (d =? 16)).

Lemma single_table s d : vfp_ok s d = true -> single_check s d = true.
Proof. intros [Hs Hd]%vfp_bounds. revert s d Hs Hd. apply by_table. vm_compute. reflexivity. Qed.

Lemma double_table s d : vfp_ok s d = true -> double_check s d = true.
Proof. intros [Hs Hd]%vfp_bounds. revert s d Hs Hd. apply by_table. vm_compute. reflexivity. Qed.

Lemma vfp_single s d :
  vfp_ok s d = true ->
  let '(s', d') := next_single s d in
  take_single (free_of s d) = (if s <? 16 then Some (s, free_of s' d') else None) /\
  (s < 16 -> vfp_ok s' d' = true /\ took [s] (free_of s d) (free_of s' d') = true) /\
  (16 <= s -> s = 16 /\ d = 16).
Proof.
  intros H. pose proof (single_table s d H) as E. unfold single_check in E. rewrite H in E.
  destruct (next_single s d) as [s' d']. cbn [implb] in E.
  apply andb_prop in E as [E E4]. apply andb_prop in E as [E E3]. apply andb_prop in E as [E1%bool_decide_eq_true E2].
  split; [done|]. split; intros Hlt.
  - rewrite (proj2 (Z.ltb_lt _ _)) in E2 by done. by apply andb_prop in E2.
  - rewrite (proj2 (Z.ltb_ge _ _)) in E3, E4 by done. cbn in E3, E4. lia.
Qed.

Lemma vfp_double s d :
  vfp_ok s d = true ->
  let '(s', d') := next_double s d in
  take_double (free_of s d) = (if d <? 16 then Some (d, free_of s' d') else None) /\
  (d < 16 -> vfp_ok s' d' = true /\ took [d; d + 1] (free_of s d) (free_of s' d') = true /\ d < 15) /\
  (16 <= d -> d = 16).
Proof.
  intros H. pose proof (double_table s d H) as E. unfold double_check in E. rewrite H in E.
  destruct (next_double s d) as [s' d']. cbn [implb] in E.
  apply andb_prop in E as [E E3]. apply andb_prop in E as [E1%bool_decide_eq_true E2].
  split; [done|]. split; intros Hlt.
  - rewrite (proj2 (Z.ltb_lt _ _)) in E2 by done. cbn [implb] in E2.
    apply andb_prop in E2 as [E2 ?]. apply andb_prop in E2 as [? ?]. split_and!; [done..|lia].
  - rewrite (proj2 (Z.ltb_ge _ _)) in E3 by done. cbn in E3. lia.
Qed.

(** The reader's counters [fs] and [fd] agree with the VM's; its second one may
    lag behind until the next [double]. *)
Definition counters_agree (s d fs fd : Z) : bool :=
  (fs =? s) && (0 <=? fd) && (fd <=? 16) && (synced fs fd =? d).

Definition reader_check (s d fd : Z) : bool :=
  implb (vfp_ok s d && counters_agree s d s fd)
    (implb (s <? 16) (let '(s', d') := next_single s d in counters_agree s' d' (read_single s fd) fd)
     && implb (d <? 16) (let '(s', d') := next_double s d in
          counters_agree s' d' (if Z.land s 1 =? 0 then d + 2 else s) (d + 2))
     && implb (negb (d <? 16)) (counters_agree 16 d 16 (synced s fd))).

Lemma reader_table s d fd :
  vfp_ok s d = true -> counters_agree s d s fd = true -> reader_check s d fd = true.
Proof.
  intros Hv Hc. destruct (vfp_bounds s d Hv) as [Hs Hd].
  assert (Hfd : 0 <= fd <= 16) by (unfold counters_agree in Hc; repeat apply andb_prop in Hc as [Hc ?]; lia).
  clear Hv Hc. assert (Hin : In fd (seqZ 0 17)) by (apply list_elem_of_In, elem_of_seqZ; lia). revert fd Hin Hfd.
  enough (forallb (reader_check s d) (seqZ 0 17) = true) as H by (rewrite forallb_forall in H; auto).
  revert s d Hs Hd. apply by_table. vm_compute. reflexivity.
Qed.

(** ** One argument *)

Section Place.
Variable cs : bool.
#[local] Hint Extern 0 DataModel => exact (arm32_dm cs) : typeclass_instances.
Abbreviation CHF := (armhf_CallVM cs).

Definition uses_vfp (v : armhf_vt) : bool := match v with vt_armhf_p => true | _ => false end.

Definition h_push (vm : DCCallVM_arm32_armhf) (t : cty) (x : Z) : option DCCallVM_arm32_armhf :=
  if uses_vfp (h_vt vm) && is_float t
  then if is_wide t then a_double cs vm x else a_float cs vm x
  else if is_wide t then a_longlong cs vm x else a_int cs vm x.

Lemma push_arg_armhf vm a :
  exists y, push_arg (C := CHF) vm a = h_push vm (a_ty a) y /\ conv (a_ty a) y = conv (a_ty a) (a_val a).
Proof.
  destruct a as [t x]. cbn [a_ty a_val]. pose proof (conv_api_value (DM := arm32_dm cs) t x) as E'.
  assert (E : conv t (conv TInt (api_value t x)) = conv t x \/ is_wide t = true).
  { destruct (is_wide t) eqn:Hw; [by right|left].
    rewrite (conv_conv (DM := arm32_dm cs)); [done|]. destruct t; done. }
  assert (E8 : conv t (conv TLongLong (api_value t x)) = conv t x).
  { rewrite (conv_conv (DM := arm32_dm cs)); [done|]. destruct t; done. }
  unfold push_arg, dcArgBool, dcArgChar, dcArgShort, dcArgInt, dcArgLong, dcArgLongLong, dcArgPointer,
    dcArgFloat, dcArgDouble, vtable, h_push, a_bool, a_char, a_short, a_long, a_pointer, a_float_ellipsis,
    a_double_ellipsis. cbn [a_ty a_val armhf_CallVM mVTpointer deref].
  destruct (h_vt vm) eqn:Evt, t; cbn -[conv a_int a_longlong a_float a_double];
    eexists; (split; [reflexivity|]); first [exact E'|reflexivity|exact E8|destruct E as [E|E]; [exact E|discriminate]].
Qed.

Record h_inv (vm : DCCallVM_arm32_armhf) : Prop := {
  hi_vec : vec_wf (h_vec vm) /\ vec_room (h_vec vm) 0 /\ 16 <= mSize (h_vec vm) /\ mSize (h_vec vm) mod 4 = 0;
  hi_i : 0 <= h_i vm <= 16 /\ h_i vm mod 4 = 0;
  hi_fp : vfp_ok (h_s vm) (h_d vm) = true;
  hi_S : length (h_S vm) = 16%nat;
}.

Definition pos_of (vm : DCCallVM_arm32_armhf) : hf_pos :=
  {| ncrn := h_i vm / 4; free := free_of (h_s vm) (h_d vm); nsaa := mSize (h_vec vm) - 16 |}.

Record h_ext (a b : DCCallVM_arm32_armhf) : Prop := {
  he_i : h_i a <= h_i b;
  he_bytes : forall off n bs, 0 <= off /\ off + Z.of_nat n <= h_i a \/ 16 <= off ->
    rd off n (vec_bytes (h_vec a)) = Some bs -> rd off n (vec_bytes (h_vec b)) = Some bs;
  he_free : forall k, k ∈ free (pos_of b) -> k ∈ free (pos_of a);
  he_S : forall k, k ∉ free (pos_of a) -> aget k (h_S b) = aget k (h_S a);
}.

Lemma h_ext_refl vm : h_ext vm vm.
Proof. by constructor. Qed.

Lemma h_ext_trans a b c : h_ext a b -> h_ext b c -> h_ext a c.
Proof.
  intros [I1 B1 F1 S1] [I2 B2 F2 S2]. constructor; [lia| |by auto|].
  - intros off n bs Ho Hr. apply B2; [lia|]. by apply B1.
  - intros k Hk. rewrite S2, S1; auto.
Qed.

(** The value [y] of [n] bytes is at a location of the bytes [M] and the
    registers [r]. *)
Definition placed (M r : list Z) (wide : bool) (y : Z) (l : hf_loc) : Prop :=
  let n := if wide then 8%nat else 4%nat in
  match l with
  | HCore k => 0 <= k /\ 4 * k + Z.of_nat n <= 16 /\ rd (4 * k) n M = Some (enc LittleEndian n y)
  | HVfp k => aget k r = Some (u32 y) /\ (wide = true -> aget (k + 1) r = Some (u32 (y / 2 ^ 32)))
  | HStack off => 0 <= off /\ rd (16 + off) n M = Some (enc LittleEndian n y)
  end.

(** It is there for good: the VM will not touch it again. *)
Definition settled (vm : DCCallVM_arm32_armhf) (wide : bool) (l : hf_loc) : Prop :=
  match l with
  | HCore k => 4 * k + (if wide then 8 else 4) <= h_i vm
  | HVfp k => (k ∉ free (pos_of vm)) /\ (wide = true -> (k + 1) ∉ free (pos_of vm))
  | HStack _ => True
  end.

Lemma placed_ext a b wide y l :
  settled a wide l -> h_ext a b ->
  placed (vec_bytes (h_vec a)) (h_S a) wide y l -> placed (vec_bytes (h_vec b)) (h_S b) wide y l.
Proof.
  intros Hset [_ HB _ HS] Hp. destruct l as [k|k|off]; cbn in *.
  - destruct Hp as (H0 & H1 & Hr). split_and!; try done. apply HB; [|done]. destruct wide; lia.
  - destruct Hset as [Hk Hk1], Hp as [Hr Hr1]. rewrite HS by done. split; [done|]. intros E. rewrite HS; auto.
  - destruct Hp as [H0 Hr]. split; [done|]. apply HB; [lia|done].
Qed.

Definition next_fp (hf : bool) (t : cty) (s d : Z) : Z * Z :=
  if hf && is_float t then
    if is_wide t then (if d <? 16 then next_double s d else (16, d))
    else (if s <? 16 then next_single s d else (s, d))
  else (s, d).

(** What a successful placement establishes. *)
Record h_placed (vm vm' : DCCallVM_arm32_armhf) (t : cty) (x : Z) (loc : hf_loc) (pos : hf_pos) : Prop := {
  hp_inv : h_inv vm';
  hp_ext : h_ext vm vm';
  hp_vt : h_vt vm' = h_vt vm;
  hp_pos : pos_of vm' = pos;
  hp_fp : (h_s vm', h_d vm') = next_fp (uses_vfp (h_vt vm)) t (h_s vm) (h_d vm);
  hp_size : mTotal (h_vec vm') = mTotal (h_vec vm) /\ length (vec_data (h_vec vm')) = length (vec_data (h_vec vm));
  hp_at : placed (vec_bytes (h_vec vm')) (h_S vm') (is_wide t) x loc;
  hp_settled : settled vm' (is_wide t) loc;
}.

Lemma align_nsaa z : align_up (z - 16) 8 = align_up z 8 - 16.
Proof.
  unfold align_up. replace (z - 16 + 8 - 1) with (z + 8 - 1 + (-2) * 8) by lia.
  rewrite Z.div_add by lia. lia.
Qed.

(** Core register [n / 4] of a VM whose counter was advanced to [n]. *)
Lemma h_core_ok vm i0 (wide : bool) x :
  h_inv vm -> h_i vm <= i0 -> i0 mod 4 = 0 -> i0 + (if wide then 8 else 4) <= 16 ->
  let n := if wide then 8%nat else 4%nat in
  exists v, dcVecStore (h_vec vm) i0 (enc LittleEndian n x) = Some v /\
    let vm' := h_with_i (i0 + Z.of_nat n) (h_with_vec v vm) in
    h_inv vm' /\ h_ext vm vm' /\ mTotal v = mTotal (h_vec vm) /\ mSize v = mSize (h_vec vm) /\
    length (vec_data v) = length (vec_data (h_vec vm)) /\
    placed (vec_bytes v) (h_S vm) wide x (HCore (i0 / 4)).
Proof.
  intros [(Hw & H0 & H16 & Hm) [Hi Hi4] Hf HS] Hle H4 Hb n.
  assert (Hn : Z.of_nat n = if wide then 8 else 4) by (unfold n; by destruct wide).
  destruct (dcVecStore_inside (h_vec vm) i0 (enc LittleEndian n x) Hw H0) as (v & -> & Hwv & Ht & Hs & Hl & Hrd & Hother);
    [lia|rewrite length_enc; lia|]. rewrite length_enc in *.
  exists v. split; [done|]. split_and!; try done.
  - constructor; cbn; try done; [unfold vec_room in *; rewrite Hs, Ht; done|]. split; [lia|].
    rewrite Z.add_mod, H4 by lia. rewrite Hn. by destruct wide.
  - constructor; cbn; try done; [lia|]. intros off k bs Ho. rewrite Hother by lia. done.
  - unfold placed. fold n. pose proof (Z.div_mod i0 4 ltac:(lia)).
    replace (4 * (i0 / 4)) with i0 by lia. split_and!; [|lia|done]. apply Z.div_pos; lia.
Qed.

(** A stack argument, 64-bit values after the alignment skip. *)
Lemma h_stack_ok vm (wide : bool) x :
  h_inv vm -> fits (h_vec vm) ->
  let n := if wide then 8%nat else 4%nat in
  let s := if wide then align_up (mSize (h_vec vm)) 8 else mSize (h_vec vm) in
  exists v, h_append cs (if wide then h_align cs vm else vm) (enc LittleEndian n x) = Some (h_with_vec v vm) /\
    h_inv (h_with_vec v vm) /\ h_ext vm (h_with_vec v vm) /\
    mTotal v = mTotal (h_vec vm) /\ mSize v = s + Z.of_nat n /\
    length (vec_data v) = length (vec_data (h_vec vm)) /\ rd s n (vec_bytes v) = Some (enc LittleEndian n x).
Proof.
  intros [(Hw & H0 & H16 & Hm) Hi Hf HS] Hfit n s.
  pose proof (align_up_bounds (mSize (h_vec vm)) 8 ltac:(lia)) as Hb.
  assert (Hw' : exists w, (if wide then h_align cs vm else vm) = h_with_vec w vm /\ vec_wf w /\
            mTotal w = mTotal (h_vec vm) /\ mSize w = s /\ vec_data w = vec_data (h_vec vm) /\
            prefix (vec_bytes (h_vec vm)) (vec_bytes w) /\ s mod 4 = 0 /\ mSize (h_vec vm) <= s <= align_up (mSize (h_vec vm)) 8).
  { unfold s. destruct wide.
    - unfold h_align. rewrite (skip_to_8) by done. eexists. split; [done|]. unfold fits in Hfit.
      destruct (dcVecResize_forward (h_vec vm) (align_up (mSize (h_vec vm)) 8) Hw ltac:(lia)) as [? ?].
      split_and!; try done; [|lia]. apply Z.mod_divide; [lia|]. apply Z.divide_trans with 8; [by exists 2|].
      apply Z.mod_divide; [lia|]. by apply align_up_mod.
    - exists (h_vec vm). split_and!; try done; try lia. by destruct vm. }
  destruct Hw' as (w & -> & Hww & Htw & Hsw & Hdw & Hpw & Hs4 & Hsle). unfold h_append. cbn [h_vec h_with_vec].
  unfold fits in Hfit. assert (Hn : Z.of_nat n = 4 \/ Z.of_nat n = 8) by (unfold n; destruct wide; auto).
  destruct (dcVecAppend_ok w (enc LittleEndian n x) _ Hww eq_refl) as (u & -> & Hwu & Htu & Hsu & Hlu & Hbu & _).
  { unfold vec_room. rewrite length_enc. lia. }
  rewrite length_enc in *. cbn [mbind option_bind]. exists u. split_and!; try done; try lia; try congruence.
  - constructor; cbn; try done. split_and!; [done|unfold vec_room; lia|lia|].
    rewrite Hsu, Hsw, Z.add_mod, Hs4 by lia. by destruct Hn as [-> | ->].
  - constructor; cbn; try done. intros off k bs _ Hr. eapply rd_prefix; [|exact Hr].
    etrans; [exact Hpw|]. rewrite Hbu. by apply prefix_app_r.
  - rewrite Hbu. apply rd_app; [|by rewrite length_enc]. rewrite length_vec_bytes; [lia|done|].
    unfold vec_room. lia.
Qed.

Lemma core_align i :
  0 <= i <= 16 -> i mod 4 = 0 ->
  let i' := Z.land (u32 (i + 4)) (u32 (-8)) in
  i' = 4 * align_up (i / 4) 2 /\ i <= i' <= 16 /\ i' mod 8 = 0.
Proof.
  intros Hi Hm. pose proof (Z.div_mod i 4 ltac:(lia)).
  assert (i = 0 \/ i = 4 \/ i = 8 \/ i = 12 \/ i = 16) as [-> | [-> | [-> | [-> | ->]]]] by lia;
    vm_compute; repeat split; discriminate.
Qed.

(** VFP registers. *)
Lemma h_vfp_ok vm s' d' ks r loc wide x :
  h_inv vm -> vfp_ok s' d' = true ->
  took ks (free_of (h_s vm) (h_d vm)) (free_of s' d') = true ->
  length r = 16%nat -> (forall k, k ∉ ks -> aget k r = aget k (h_S vm)) ->
  loc ∈ ks -> (wide = true -> loc + 1 ∈ ks) ->
  aget loc r = Some (u32 x) -> (wide = true -> aget (loc + 1) r = Some (u32 (x / 2 ^ 32))) ->
  let vm' := h_with_fp s' d' r vm in
  h_inv vm' /\ h_ext vm vm' /\ placed (vec_bytes (h_vec vm')) r wide x (HVfp loc) /\ settled vm' wide (HVfp loc).
Proof.
  intros [Hv Hi Hf HS] Hok Ht Hl Hother Hloc Hloc1 Hr Hr1 vm'. apply took_spec in Ht as [Htk Hsub].
  split_and!; [by constructor| |done|split; [by apply Htk|intros E; by apply Htk, Hloc1]].
  constructor; cbn; [lia|done|done|]. intros k Hk. apply Hother. intros Hin. by apply Hk, Htk.
Qed.

(** The next argument goes to the stack. *)
Lemma h_stack_placed vm vm1 t x :
  h_inv vm1 -> fits (h_vec vm) -> h_vec vm1 = h_vec vm -> h_ext vm vm1 -> h_vt vm1 = h_vt vm ->
  (h_s vm1, h_d vm1) = next_fp (uses_vfp (h_vt vm)) t (h_s vm) (h_d vm) ->
  let s := if is_wide t then align_up (mSize (h_vec vm) - 16) 8 else mSize (h_vec vm) - 16 in
  exists vm', h_append cs (if is_wide t then h_align cs vm1 else vm1)
                (enc LittleEndian (if is_wide t then 8 else 4) x) = Some vm' /\
    h_placed vm vm' t x (HStack s)
      {| ncrn := h_i vm1 / 4; free := free_of (h_s vm1) (h_d vm1); nsaa := s + arg_size t |}.
Proof.
  intros Hi Hf Hv Hx Hvt Hfp s. pose proof Hi as [(_ & _ & H16 & _) _ _ _].
  rewrite <- Hv in Hf. destruct (h_stack_ok vm1 (is_wide t) x Hi Hf) as (v & E & Hi' & Hx' & Ht & Hs & Hl & Hrd).
  rewrite Hv in *. pose proof (align_up_bounds (mSize (h_vec vm)) 8 ltac:(lia)).
  assert (Es : (if is_wide t then align_up (mSize (h_vec vm)) 8 else mSize (h_vec vm)) = 16 + s).
  { unfold s. destruct (is_wide t); [rewrite align_nsaa|]; lia. }
  rewrite Es in *. exists (h_with_vec v vm1). split; [by destruct (is_wide t)|]. constructor; try done.
  - by eapply h_ext_trans.
  - unfold pos_of. cbn [h_i h_s h_d h_vec h_with_vec]. f_equal. rewrite Hs. unfold arg_size. destruct (is_wide t); lia.
  - split; [unfold s in *; destruct (is_wide t); lia|]. by destruct (is_wide t).
Qed.

Lemma h_push_fp vm t x :
  h_inv vm -> fits (h_vec vm) -> uses_vfp (h_vt vm) = true -> is_float t = true ->
  let '(loc, pos) := alloc_hf true t (pos_of vm) in
  exists vm', h_push vm t x = Some vm' /\ h_placed vm vm' t x loc pos.
Proof.
  intros Hi Hf Hu Hfl. pose proof Hi as [_ _ Hok HS]. unfold alloc_hf, h_push. rewrite Hu, Hfl. cbn [andb].
  cbn [free pos_of ncrn nsaa].
  destruct (is_wide t) eqn:Hw.
  - pose proof (vfp_double _ _ Hok) as Hd. destruct (next_double (h_s vm) (h_d vm)) as [s' d'] eqn:En.
    destruct Hd as (-> & Hlt & Hge). pose proof (vfp_bounds _ _ Hok) as [? ?].
    unfold a_double. destruct (Z.ltb_spec (h_d vm) 16) as [Hd|Hd].
    + destruct (Hlt Hd) as (Hok' & Htk & ?).
      rewrite aset_Some by lia. cbn [mbind option_bind]. rewrite aset_Some by (rewrite length_insert; lia).
      cbn [mbind option_bind]. eexists. split; [reflexivity|].
      set (r := <[Z.to_nat (h_d vm + 1):=_]> _).
      assert (E : (if Z.land (h_s vm) 1 =? 0 then h_d vm + 2 else h_s vm, h_d vm + 2) = (s', d')) by (by rewrite <- En).
      injection E as -> ->.
      destruct (h_vfp_ok vm s' d' [h_d vm; h_d vm + 1] r (h_d vm) (is_wide t) x) as (? & ? & ? & ?);
        [done|done|done|by unfold r; rewrite !length_insert| | | | | |].
      * intros k Hk. apply not_elem_of_cons in Hk as [? [? _]%not_elem_of_cons].
        unfold r. by rewrite !aget_insert_ne by lia.
      * left.
      * right. left.
      * unfold r. rewrite aget_insert_ne by lia. apply aget_insert_eq. lia.
      * intros _. unfold r. apply aget_insert_eq. rewrite length_insert. lia.
      * constructor; try done. unfold next_fp. cbn [h_s h_d h_with_fp]. rewrite Hu, Hfl, Hw, (proj2 (Z.ltb_lt _ _)) by lia.
        cbn [andb]. by rewrite En.
    + rewrite (Hge Hd) in *.
      assert (Hi1 : h_inv (h_with_fp 16 16 (h_S vm) vm)) by (destruct Hi; by constructor).
      assert (Hx1 : h_ext vm (h_with_fp 16 16 (h_S vm) vm)).
      { constructor; try done; cbn. by intros k ?%elem_of_nil. }
      pose proof (h_stack_placed vm _ t x Hi1 Hf eq_refl Hx1 eq_refl) as Hp. rewrite Hw in Hp. cbn zeta iota in Hp.
      destruct Hp as (vm' & E & Hp); [|exists vm'; split; [exact E|exact Hp]].
      unfold next_fp. rewrite Hu, Hfl, Hw, (Hge Hd). done.
  - pose proof (vfp_single _ _ Hok) as Hd. destruct (next_single (h_s vm) (h_d vm)) as [s' d'] eqn:En.
    destruct Hd as (-> & Hlt & Hge). pose proof (vfp_bounds _ _ Hok) as [? ?].
    unfold a_float. destruct (Z.ltb_spec (h_s vm) 16) as [Hs|Hs].
    + destruct (Hlt Hs) as (Hok' & Htk). rewrite aset_Some by lia. cbn [mbind option_bind].
      set (r := <[Z.to_nat (h_s vm):=_]> _).
      assert (E : (if h_d vm <? h_s vm + 1
                   then h_with_fp (h_s vm + 1) (Z.land (u32 (h_s vm + 1 + 1)) (u32 (Z.lnot 1))) r vm
                   else h_with_fp (h_d vm) (h_d vm) r vm) = h_with_fp s' d' r vm).
      { revert En. unfold next_single. destruct (h_d vm <? h_s vm + 1); by intros [= <- <-]. }
      rewrite E. eexists. split; [reflexivity|].
      destruct (h_vfp_ok vm s' d' [h_s vm] r (h_s vm) (is_wide t) x) as (? & ? & ? & ?);
        [done|done|done|by unfold r; rewrite length_insert| |left|by rewrite Hw| |by rewrite Hw|].
      * intros k Hk. apply not_elem_of_cons in Hk as [? _]. unfold r. by rewrite aget_insert_ne by lia.
      * unfold r. apply aget_insert_eq. lia.
      * constructor; try done. unfold next_fp. cbn [h_s h_d h_with_fp]. rewrite Hu, Hfl, Hw, (proj2 (Z.ltb_lt _ _)) by lia.
        cbn [andb]. by rewrite En.
    + destruct (Hge Hs) as [E1 E2].
      pose proof (h_stack_placed vm vm t x Hi Hf eq_refl (h_ext_refl vm) eq_refl) as Hp. rewrite Hw in Hp.
      destruct Hp as (vm' & E & Hp).
      { unfold next_fp. by rewrite Hu, Hfl, Hw, (proj2 (Z.ltb_ge _ _)). }
      exists vm'. split; [exact E|]. rewrite E1, E2 in Hp. exact Hp.
Qed.


Lemma h_core_placed vm i0 t x :
  h_inv vm -> uses_vfp (h_vt vm) && is_float t = false ->
  h_i vm <= i0 -> i0 mod 4 = 0 -> i0 + arg_size t <= 16 ->
  exists v, dcVecStore (h_vec vm) i0 (enc LittleEndian (if is_wide t then 8 else 4) x) = Some v /\
    h_placed vm (h_with_i (i0 + arg_size t) (h_with_vec v vm)) t x (HCore (i0 / 4))
      {| ncrn := i0 / 4 + arg_size t / 4; free := free_of (h_s vm) (h_d vm); nsaa := mSize (h_vec vm) - 16 |}.
Proof.
  intros Hi Hu Hle Hm Hb. unfold arg_size in *.
  destruct (h_core_ok vm i0 (is_wide t) x Hi Hle Hm) as (v & E & Hi' & Hx & Ht & Hs & Hl & Hp); [done|].
  exists v. split; [by destruct (is_wide t)|].
  replace (if is_wide t then 8 else 4) with (Z.of_nat (if is_wide t then 8 else 4)) by (by destruct (is_wide t)).
  constructor; try done.
  - unfold pos_of. cbn [h_i h_s h_d h_vec h_with_i h_with_vec]. f_equal; [|lia].
    rewrite <- (Z.div_add i0 _ 4) by lia. f_equal. by destruct (is_wide t).
  - unfold next_fp. by rewrite Hu.
  - cbn. pose proof (Z.div_mod i0 4 ltac:(lia)). destruct (is_wide t); lia.
Qed.

Lemma h_push_ok vm t x :
  h_inv vm -> fits (h_vec vm) ->
  let '(loc, pos) := alloc_hf (uses_vfp (h_vt vm)) t (pos_of vm) in
  exists vm', h_push vm t x = Some vm' /\ h_placed vm vm' t x loc pos.
Proof.
  intros Hi Hf. destruct (uses_vfp (h_vt vm) && is_float t) eqn:Hu.
  { apply andb_prop in Hu as [Hu Hfl]. rewrite Hu. by apply h_push_fp. }
  unfold alloc_hf, h_push. rewrite Hu. cbn [ncrn free nsaa pos_of].
  pose proof Hi as [_ [Hi0 Hi4] _ _]. pose proof (Z.div_mod (h_i vm) 4 ltac:(lia)) as Hdiv.
  assert (Hfp : (h_s vm, h_d vm) = next_fp (uses_vfp (h_vt vm)) t (h_s vm) (h_d vm)) by (unfold next_fp; by rewrite Hu).
  destruct (is_wide t) eqn:Hw.
  - destruct (core_align (h_i vm) Hi0 Hi4) as (E & Hb & H8). unfold a_longlong. cbn [h_i h_with_i].
    set (i' := Z.land _ _) in *. clearbody i'.
    assert (Hq : i' / 4 = align_up (h_i vm / 4) 2) by (rewrite E, Z.mul_comm; by apply Z.div_mul).
    rewrite <- Hq. destruct (Z.ltb_spec i' 16) as [Hlt|Hge].
    + rewrite (proj2 (Z.ltb_lt _ _)) by lia.
      assert (Hb8 : i' + arg_size t <= 16).
      { unfold arg_size. rewrite Hw. pose proof (Z.div_mod i' 8 ltac:(lia)). lia. }
      destruct (h_core_placed vm i' t x Hi Hu) as (v & Ev & Hp); [lia| |done|].
      { rewrite E, Z.mul_comm. by apply Z.mod_mul. }
      rewrite Hw in Ev. cbn [h_vec h_with_i]. rewrite Ev. cbn [mbind option_bind]. eexists. split; [reflexivity|].
      unfold arg_size in Hp. rewrite Hw in Hp. unfold arg_size. rewrite Hw. exact Hp.
    + rewrite (proj2 (Z.ltb_ge _ _)) by lia. assert (i' = 16) as -> by lia.
      assert (Hi1 : h_inv (h_with_i 16 vm)) by (destruct Hi; by constructor).
      assert (Hx1 : h_ext vm (h_with_i 16 vm)) by (constructor; cbn; [lia|done..]).
      pose proof (h_stack_placed vm _ t x Hi1 Hf eq_refl Hx1 eq_refl Hfp) as Hp. rewrite Hw in Hp. exact Hp.
  - unfold a_int. destruct (Z.ltb_spec (h_i vm) 16) as [Hlt|Hge].
    + rewrite (proj2 (Z.ltb_lt _ _)) by lia.
      destruct (h_core_placed vm (h_i vm) t x Hi Hu) as (v & Ev & Hp); [lia|done|unfold arg_size; rewrite Hw; lia|].
      rewrite Hw in Ev. rewrite Ev. cbn [mbind option_bind]. eexists. split; [reflexivity|].
      unfold arg_size in Hp. rewrite Hw in Hp. unfold arg_size. rewrite Hw. exact Hp.
    + rewrite (proj2 (Z.ltb_ge _ _)) by lia.
      pose proof (h_stack_placed vm vm t x Hi Hf eq_refl (h_ext_refl vm) eq_refl Hfp) as Hp. rewrite Hw in Hp.
      assert (h_i vm = 16) as E16 by lia. rewrite E16 in Hp. exact Hp.
Qed.

(** ** The reader

    It stands where the VM stood before the argument. *)
Record h_at (vm vf : DCCallVM_arm32_armhf) (p : DCArgs) : Prop := {
  ha_over : over (vec_bytes (h_vec vf)) p;
  ha_core : reg_count p = ncrn (pos_of vm);
  ha_stack : stack_ptr p = nsaa (pos_of vm);
  ha_f : f p = h_S vf;
  ha_fp : counters_agree (h_s vm) (h_d vm) (freg_count p) (dreg_count p) = true;
}.

Definition next_word (p : DCArgs) : hf_loc :=
  if reg_count p <? 4 then HCore (reg_count p) else HStack (stack_ptr p).

Definition moved (p p' : DCArgs) (rc sp : Z) : Prop :=
  reg_count p' = rc /\ stack_ptr p' = sp /\ same_fregs p p'.

Lemma arm_word_next M r p y :
  over M p -> placed M r false y (next_word p) ->
  exists p', arm_word p = Some (wrapU 32 y, p') /\ over M p' /\
    moved p p' (if reg_count p <? 4 then reg_count p + 1 else reg_count p)
               (if reg_count p <? 4 then stack_ptr p else stack_ptr p + 4).
Proof.
  intros Ho Hp. unfold next_word in Hp. destruct (Z.ltb_spec (reg_count p) 4) as [Hlt|Hge].
  - destruct Hp as (H0 & _ & Hrd). eexists. split; [by apply (arm_word_reg M)|]. split; [by eapply over_same|done].
  - destruct Hp as (H0 & Hrd). eexists. split; [by apply (arm_word_stack M)|]. split; [by eapply over_same|done].
Qed.

Lemma arm_align_64_hf p :
  0 <= reg_count p <= 4 -> stack_ptr p mod 4 = 0 ->
  let p' := arm_align_64 ARMHF p in
  moved p p' (align_up (reg_count p) 2) (if align_up (reg_count p) 2 <? 4 then stack_ptr p else align_up (stack_ptr p) 8) /\
  reg_data p' = reg_data p /\ args_stack p' = args_stack p.
Proof.
  intros Hr Hm p'. unfold p', arm_align_64, moved. rewrite align_up_8 by done.
  assert (Hk : stack_ptr p mod 8 = 0 \/ stack_ptr p mod 8 = 4).
  { pose proof (Z.div_mod (stack_ptr p) 4 ltac:(lia)). pose proof (Z.div_mod (stack_ptr p) 8 ltac:(lia)).
    pose proof (Z.mod_pos_bound (stack_ptr p) 8 ltac:(lia)). lia. }
  pose proof (land_4 (stack_ptr p) Hm) as Hl. destruct p as [rs c k fl fs fd st]; cbn in *.
  assert (c = 0 \/ c = 1 \/ c = 2 \/ c = 3 \/ c = 4) as [-> | [-> | [-> | [-> | ->]]]] by lia; cbn;
    rewrite ?Hl; try done; destruct Hk as [E|E]; rewrite E; cbn; rewrite ?Z.add_0_r; done.
Qed.

(** Where the reader looks for the next 64-bit value. *)
Definition next_dword (p : DCArgs) : hf_loc :=
  if align_up (reg_count p) 2 <? 4 then HCore (align_up (reg_count p) 2) else HStack (align_up (stack_ptr p) 8).

Lemma arm_dword_next M r p y :
  over M p -> 0 <= reg_count p <= 4 -> 0 <= stack_ptr p -> stack_ptr p mod 4 = 0 ->
  placed M r true y (next_dword p) ->
  exists p', arm_dword ARMHF p = Some (wrapU 64 y, p') /\ over M p' /\
    moved p p' (if align_up (reg_count p) 2 <? 4 then align_up (reg_count p) 2 + 2 else align_up (reg_count p) 2)
               (if align_up (reg_count p) 2 <? 4 then stack_ptr p else align_up (stack_ptr p) 8 + 8).
Proof.
  intros Ho Hrc Hsp Hm Hp. destruct (arm_align_64_hf p Hrc Hm) as ((E1 & E2 & Hf) & Er & Es).
  assert (Ho1 : over M (arm_align_64 ARMHF p)) by (by eapply over_same).
  unfold next_dword in Hp. unfold arm_dword.
  set (q := arm_align_64 ARMHF p) in *. clearbody q.
  set (n := align_up (reg_count p) 2) in *.
  assert (Hpl : placed M r false y (next_word q) /\
     placed M r false (y / 2 ^ 32) (if n <? 4 then HCore (n + 1) else HStack (align_up (stack_ptr p) 8 + 4))
     /\ ((n <? 4) = true -> n + 1 < 4)).
  { unfold next_word. rewrite E1, E2. 
    destruct (n <? 4); cbn in Hp |- *.
    - destruct Hp as (H0 & H1 & [Ha Hb]%rd_enc_dword). replace (4 * (n + 1)) with (4 * n + 4) by lia. split_and!; try done; lia.
    - destruct Hp as (H0 & [Ha Hb]%rd_enc_dword). rewrite Z.add_assoc. split_and!; try done; lia. }
  destruct Hpl as (Hlo & Hhi & Hn).
  destruct (arm_word_next M r q y Ho1 Hlo) as (p1 & -> & Ho2 & Ec & Es1 & Hf1). rewrite E1, E2 in *.
  cbn [mbind option_bind]. destruct (arm_word_next M r p1 (y / 2 ^ 32) Ho2) as (p2 & -> & Ho3 & Ec2 & Es2 & Hf2).
  { unfold next_word. rewrite Ec, Es1. destruct (n <? 4) eqn:En; [rewrite (proj2 (Z.ltb_lt _ _)) by auto|rewrite En]; done. }
  cbn [mbind option_bind]. rewrite dword_join. exists p2. split_and!; [done..|]. unfold moved. rewrite Ec2, Es2, Ec, Es1.
  assert (Hf3 : same_fregs p p2) by (unfold same_fregs in *; intuition congruence).
  destruct (n <? 4) eqn:En; [rewrite (proj2 (Z.ltb_lt _ _)) by auto|rewrite En]; split_and!; (done || lia).
Qed.

(** The value read is the one a location of the specification holds. *)
Lemma h_at_next vm vm' vf p p' rc sp :
  h_at vm vf p -> over (vec_bytes (h_vec vf)) p' -> moved p p' rc sp ->
  ncrn (pos_of vm') = rc -> nsaa (pos_of vm') = sp -> (h_s vm', h_d vm') = (h_s vm, h_d vm) -> h_at vm' vf p'.
Proof.
  intros [_ _ _ Hf Hc] Ho (E1 & E2 & Ef & Es & Ed) Hn Hs [= E3 E4].
  constructor; [done|congruence..|]. by rewrite E3, E4, Es, Ed.
Qed.

Lemma h_at_bounds vm vf p : h_inv vm -> h_at vm vf p ->
  0 <= reg_count p <= 4 /\ 0 <= stack_ptr p /\ stack_ptr p mod 4 = 0.
Proof.
  intros [(_ & _ & H16 & Hm) [Hi Hi4] _ _] [_ -> -> _ _]. cbn. pose proof (Z.div_mod (h_i vm) 4 ltac:(lia)).
  split_and!; [lia..|]. replace (mSize (h_vec vm) - 16) with (mSize (h_vec vm) + (-4) * 4) by lia.
  by rewrite Z.mod_add.
Qed.

(** Core registers and stack: everything but floats in VFP registers. *)
Lemma h_read_core vm vm' vf p t x :
  let '(loc, pos) := alloc_hf (uses_vfp (h_vt vm)) t (pos_of vm) in
  h_inv vm -> h_placed vm vm' t x loc pos -> h_ext vm' vf -> h_at vm vf p ->
  uses_vfp (h_vt vm) && is_float t = false ->
  exists p', (if is_wide t then arm_dword ARMHF p else arm_word p) = Some (wrapU (8 * arg_size t) x, p') /\
    h_at vm' vf p'.
Proof.
  destruct (alloc_hf _ t (pos_of vm)) as [loc pos] eqn:Eal. intros Hi Hp Hx Hat Hu.
  pose proof (placed_ext vm' vf _ _ _ (hp_settled _ _ _ _ _ _ Hp) Hx (hp_at _ _ _ _ _ _ Hp)) as Hl.
  destruct (h_at_bounds vm vf p Hi Hat) as (Hrc & Hsp & Hsp4). pose proof Hat as [Ho Ec Es _ _].
  assert (Hfp : (h_s vm', h_d vm') = (h_s vm, h_d vm)).
  { rewrite (hp_fp _ _ _ _ _ _ Hp). unfold next_fp. by rewrite Hu. }
  assert (Hnp : pos_of vm' = pos) by apply Hp.
  unfold alloc_hf in Eal. rewrite Hu in Eal. rewrite <- Ec, <- Es in Eal. unfold arg_size in *.
  destruct (is_wide t).
  - assert (Hnd : loc = next_dword p) by (unfold next_dword; destruct (align_up _ 2 <? 4); by injection Eal as <- _).
    rewrite Hnd in Hl. destruct (arm_dword_next _ _ p x Ho Hrc Hsp Hsp4 Hl) as (p' & E & Ho' & Hm). exists p'.
    split; [exact E|]. eapply h_at_next; [done..| | |done]; rewrite Hnp; destruct (Z.ltb_spec (align_up (reg_count p) 2) 4);
      injection Eal as _ <-; cbn; try done.
    assert (align_up (reg_count p) 2 <= 4); [|lia]. apply align_up_least; [lia| |lia]. by exists 2.
  - assert (Hnd : loc = next_word p) by (unfold next_word; destruct (_ <? 4); by injection Eal as <- _).
    rewrite Hnd in Hl. destruct (arm_word_next _ _ p x Ho Hl) as (p' & E & Ho' & Hm). exists p'.
    split; [exact E|]. eapply h_at_next; [done..| | |done]; rewrite Hnp; destruct (Z.ltb_spec (reg_count p) 4);
      injection Eal as _ <-; cbn; (done || lia).
Qed.

Lemma counters_fs s d fs fd : counters_agree s d fs fd = true -> fs = s /\ synced s fd = d.
Proof. unfold counters_agree. intros H. repeat apply andb_prop in H as [H ?]. assert (fs = s) as -> by lia. split; [done|lia]. Qed.

(** A [float]. *)
Lemma h_read_float vm vm' vf p t x :
  let '(loc, pos) := alloc_hf true t (pos_of vm) in
  h_inv vm -> h_placed vm vm' t x loc pos -> h_ext vm' vf -> h_at vm vf p ->
  uses_vfp (h_vt vm) = true -> is_float t = true -> is_wide t = false -> h_i vm = 16 \/ (exists k, loc = HVfp k) ->
  exists p', arm_float cs ARMHF p = Some (conv TFloat (wrapU 32 x), p') /\ h_at vm' vf p'.
Proof.
  destruct (alloc_hf true t (pos_of vm)) as [loc pos] eqn:Eal. intros Hi Hp Hx Hat Hu Hfl Hw Hroom.
  pose proof (placed_ext vm' vf _ _ _ (hp_settled _ _ _ _ _ _ Hp) Hx (hp_at _ _ _ _ _ _ Hp)) as Hl.
  pose proof Hat as [Ho Ec Es Ef Efp]. destruct (counters_fs _ _ _ _ Efp) as [Efs Efd].
  pose proof (hi_fp _ Hi) as Hok. pose proof (vfp_single _ _ Hok) as Hsg.
  pose proof (hp_fp _ _ _ _ _ _ Hp) as Hfp. unfold next_fp in Hfp. rewrite Hu, Hfl, Hw in Hfp. cbn [andb] in Hfp.
  destruct (next_single (h_s vm) (h_d vm)) as [s' d'] eqn:En. destruct Hsg as (Htk & _ & Hge).
  assert (Hnp : pos_of vm' = pos) by apply Hp.
  unfold alloc_hf in Eal. rewrite Hfl, Hw in Eal. cbn [andb free pos_of] in Eal. rewrite Htk in Eal.
  unfold arm_float. rewrite Efs. rewrite Efs in Efp. pose proof (reader_table _ _ _ Hok Efp) as Hrt.
  unfold reader_check in Hrt. rewrite Hok, Efp, En in Hrt. cbn [andb implb] in Hrt.
  destruct (Z.ltb_spec (h_s vm) 16) as [Hs|Hs].
  - injection Eal as <- <-. destruct Hl as [Hl _]. rewrite Ef, Hl. cbn [mbind option_bind].
    eexists. split; [reflexivity|]. injection Hfp as E1 E2.
    do 2 apply andb_prop in Hrt as [Hrt _]. cbn [implb] in Hrt. rewrite <- E1, <- E2 in Hrt.
    constructor; cbn; [by eapply over_same|rewrite Ec|rewrite Es|done|].
    + by apply (f_equal ncrn) in Hnp.
    + by apply (f_equal nsaa) in Hnp.
    + exact Hrt.
  - injection Eal as <- <-. destruct Hroom as [H16|[k Hk]]; [|discriminate].
    destruct (arm_word_next _ (h_S vf) p x Ho) as (p' & -> & Ho' & Hm).
    { unfold next_word. rewrite Ec, Es. cbn. rewrite H16, Hw in *. exact Hl. }
    cbn [mbind option_bind]. exists p'. split; [done|]. rewrite Ec in Hm. cbn [ncrn pos_of] in Hm. rewrite H16 in Hm.
    eapply h_at_next; [done|done|exact Hm| | |done]; rewrite Hnp; cbn; [by rewrite H16|].
    rewrite Es. unfold arg_size. by rewrite Hw.
Qed.

(** A [double]. *)
Lemma h_read_double vm vm' vf p t x :
  let '(loc, pos) := alloc_hf true t (pos_of vm) in
  h_inv vm -> h_placed vm vm' t x loc pos -> h_ext vm' vf -> h_at vm vf p ->
  uses_vfp (h_vt vm) = true -> is_float t = true -> is_wide t = true -> h_i vm = 16 \/ (exists k, loc = HVfp k) ->
  exists p', arm_double cs ARMHF p = Some (conv TDouble (wrapU 64 x), p') /\ h_at vm' vf p'.
Proof.
  destruct (alloc_hf true t (pos_of vm)) as [loc pos] eqn:Eal. intros Hi Hp Hx Hat Hu Hfl Hw Hroom.
  pose proof (placed_ext vm' vf _ _ _ (hp_settled _ _ _ _ _ _ Hp) Hx (hp_at _ _ _ _ _ _ Hp)) as Hl.
  destruct (h_at_bounds vm vf p Hi Hat) as (Hrc & Hsp & Hsp4).
  pose proof Hat as [Ho Ec Es Ef Efp]. destruct (counters_fs _ _ _ _ Efp) as [Efs Efd].
  pose proof (hi_fp _ Hi) as Hok. pose proof (vfp_double _ _ Hok) as Hsg.
  pose proof (hp_fp _ _ _ _ _ _ Hp) as Hfp. unfold next_fp in Hfp. rewrite Hu, Hfl, Hw in Hfp. cbn [andb] in Hfp.
  destruct (next_double (h_s vm) (h_d vm)) as [s' d'] eqn:En. destruct Hsg as (Htk & _ & Hge).
  assert (Hnp : pos_of vm' = pos) by apply Hp.
  unfold alloc_hf in Eal. rewrite Hfl, Hw in Eal. cbn [andb free pos_of] in Eal. rewrite Htk in Eal.
  unfold arm_double. rewrite Efs in *.
  set (q := if dreg_count p <? h_s vm then _ else p).
  assert (Hq : reg_count q = reg_count p /\ stack_ptr q = stack_ptr p /\ f q = h_S vf /\ freg_count q = h_s vm /\
            dreg_count q = h_d vm /\ over (vec_bytes (h_vec vf)) q).
  { unfold q. rewrite <- Efd. unfold synced. destruct (dreg_count p <? h_s vm); [|done].
    split_and!; try done. by eapply over_same. }
  destruct Hq as (Q1 & Q2 & Q3 & Q4 & Q5 & Qo). clearbody q. rewrite Q5, Q4.
  pose proof (reader_table _ _ _ Hok Efp) as Hrt.
  unfold reader_check in Hrt. rewrite Hok, Efp, En in Hrt. cbn [andb implb] in Hrt.
  destruct (Z.ltb_spec (h_d vm) 16) as [Hs|Hs].
  - injection Eal as <- <-. destruct Hl as [Hl Hl1]. rewrite Q3, Hl, (Hl1 Hw). cbn [mbind option_bind].
    eexists. split.
    { unfold u32. by rewrite !wrapU_wrapU, dword_join by lia. }
    injection Hfp as E1 E2. apply andb_prop in Hrt as [Hrt _]. apply andb_prop in Hrt as [_ Hrt]. cbn [implb] in Hrt.
    rewrite <- E1, <- E2 in Hrt.
    constructor; cbn; [by eapply over_same|rewrite Q1, Ec|rewrite Q2, Es|done|].
    + by apply (f_equal ncrn) in Hnp.
    + by apply (f_equal nsaa) in Hnp.
    + exact Hrt.
  - injection Eal as <- <-. destruct Hroom as [H16|[k Hk]]; [|discriminate].
    assert (Hrc4 : reg_count p = 4) by (rewrite Ec; cbn; by rewrite H16).
    destruct (arm_dword_next (vec_bytes (h_vec vf)) (h_S vf) (s_with_fregs 16 (h_d vm) q) x)
      as (p' & -> & Ho' & Em1 & Em2 & Em3 & Em4 & Em5); try (cbn; congruence || lia); [by eapply over_same|cbn; rewrite ?Q1, ?Q2; (done || lia)..| |].
    { unfold next_dword. cbn [reg_count stack_ptr s_with_fregs]. rewrite Q1, Q2, Hrc4, Es, Hw in *. exact Hl. }
    cbn [mbind option_bind]. exists p'. split; [done|].
    cbn [reg_count stack_ptr s_with_fregs f freg_count dreg_count] in *. rewrite Q1, Hrc4 in *. cbn in Em1, Em2.
    injection Hfp as E1 E2. apply andb_prop in Hrt as [_ Hrt]. cbn [negb implb] in Hrt. rewrite Efd in Hrt.
    constructor; [done|rewrite Em1, Hnp; cbn; by rewrite H16| |congruence|].
    + rewrite Em2, Hnp, Q2, Es. cbn. unfold arg_size. by rewrite Hw.
    + rewrite E1, E2, Em4, Em5, (Hge Hs) in *. done.
Qed.

(** ** The hard-float convention

    The next argument finds a place, and if it is a floating-point value on the
    stack, the core registers are used up ([arm_float] would otherwise read one
    of them). *)
Definition h_room (vm : DCCallVM_arm32_armhf) (a : arg) : Prop :=
  fits (h_vec vm) /\
  (is_float (a_ty a) = true -> uses_vfp (h_vt vm) = true /\
     (h_i vm = 16 \/ exists k, (alloc_hf true (a_ty a) (pos_of vm)).1 = HVfp k)).

Lemma h_step vm a :
  h_inv vm -> h_room vm a -> arg_ok a ->
  exists vm', push_arg (C := CHF) vm a = Some vm' /\ h_inv vm' /\ h_ext vm vm' /\
    forall vf p, h_inv vf -> h_ext vm' vf -> h_at vm vf p ->
      exists p', dcbArg (ArgReader := arm32_ArgReader cs ARMHF) (a_ty a) p = Some (a_val a, p') /\ h_at vm' vf p'.
Proof.
  intros Hi [Hf Hr] Ha. destruct a as [t x]. cbn [a_ty a_val] in *.
  destruct (push_arg_armhf vm (Arg t x)) as (y & -> & Hy). cbn [a_ty a_val] in *.
  pose proof (h_push_ok vm t y Hi Hf) as Hp. pose proof (h_read_core vm) as Hcore.
  pose proof (h_read_float vm) as Hfloat. pose proof (h_read_double vm) as Hdouble.
  unfold arg_ok in Ha. cbn [a_ty a_val] in Ha. pose proof (val_ok_conv _ _ Ha) as Hvc.
  destruct (is_float t) eqn:Hfl.
  - destruct (Hr eq_refl) as [Hu Hroom]. rewrite Hu in Hp. specialize (Hfloat) .
    destruct (is_wide t) eqn:Hw; [assert (t = TDouble) as -> by (by destruct t)|assert (t = TFloat) as -> by (by destruct t)].
    + destruct (alloc_hf true TDouble (pos_of vm)) as [loc pos] eqn:Eal. destruct Hp as (vm' & E & Hp).
      exists vm'. split_and!; [done|apply Hp|apply Hp|]. intros vf p _ Hxf Hat.
      specialize (Hdouble vm' vf p TDouble y). rewrite Eal in Hdouble.
      destruct Hdouble as (p' & Er & Hat'); try done. exists p'. split; [|done].
      cbn [dcbArg arm32_ArgReader]. unfold dcbArgDouble. rewrite Er. do 2 f_equal.
      rewrite conv_wrapU by (vm_compute; done). by rewrite Hy.
    + destruct (alloc_hf true TFloat (pos_of vm)) as [loc pos] eqn:Eal. destruct Hp as (vm' & E & Hp).
      exists vm'. split_and!; [done|apply Hp|apply Hp|]. intros vf p _ Hxf Hat.
      specialize (Hfloat vm' vf p TFloat y). rewrite Eal in Hfloat.
      destruct Hfloat as (p' & Er & Hat'); try done. exists p'. split; [|done].
      cbn [dcbArg arm32_ArgReader]. unfold dcbArgFloat. rewrite Er. do 2 f_equal.
      rewrite conv_wrapU by (vm_compute; done). by rewrite Hy.
  - destruct (alloc_hf (uses_vfp (h_vt vm)) t (pos_of vm)) as [loc pos] eqn:Eal. destruct Hp as (vm' & E & Hp).
    exists vm'. split_and!; [done|apply Hp|apply Hp|]. intros vf p _ Hxf Hat.
    specialize (Hcore vm' vf p t y). rewrite Eal in Hcore.
    destruct Hcore as (p' & Er & Hat'); try done; [by rewrite Hfl, andb_false_r|]. exists p'. split; [|done].
    unfold arg_size in Er. destruct (is_wide t) eqn:Hw.
    + apply dcbArg_wide with y; try done. by intros ->.
    + apply dcbArg_word with y; try done. by intros ->.
Qed.

#[export, refine] Instance armhf_CallConv : CallConv DCCallVM_arm32_armhf DCArgs
    (DM := arm32_dm cs) (H := CHF) (H0 := arm32_ArgReader cs ARMHF) := {
  cc_inv := h_inv;
  cc_room := h_room;
  cc_ext := h_ext;
  cc_at := h_at;
}.
Proof. { exact h_ext_refl. } { exact h_ext_trans. } exact h_step. Defined.

(** ** From [dcReset] to the call *)

Record h_alloc (vm : DCCallVM_arm32_armhf) : Prop := {
  hl_vec : vec_wf (h_vec vm) /\ 16 <= mTotal (h_vec vm);
  hl_spill : mTotal (h_vec vm) + 16 <= Z.of_nat (length (vec_data (h_vec vm))) < 2 ^ 31;
  hl_S : length (h_S vm) = 16%nat;
}.

Lemma reset_armhf vm0 :
  h_alloc vm0 ->
  exists vm, dcReset (C := CHF) vm0 = Some vm /\ h_inv vm /\ h_vt vm = h_vt vm0 /\
    pos_of vm = {| ncrn := 0; free := seqZ 0 16; nsaa := 0 |} /\ h_s vm = 0 /\ h_d vm = 0 /\
    mTotal (h_vec vm) = mTotal (h_vec vm0) /\ vec_data (h_vec vm) = vec_data (h_vec vm0).
Proof.
  intros [[[Hs Ht Hw] H16] Hsp HS].
  exists (h_with_vec (dcVecResize (h_vec vm0) 16) (h_with_fp 0 0 (h_S vm0) (h_with_i 0 vm0))).
  split_and!; try done.
  unfold dcReset, vtable. cbn. by destruct (h_vt vm0).
Qed.

Lemma callVoid_armhf vm t target :
  dcCall_as (C := CHF) t vm target = call vm target.
Proof.
  unfold dcCall_as, dcCallBool, dcCallChar, dcCallShort, dcCallInt, dcCallLong, dcCallLongLong,
    dcCallFloat, dcCallDouble, dcCallPointer, vtable. destruct t; cbn; by destruct (h_vt vm).
Qed.

End Place.
