(* ===== verification/Arm32Props.v ===== *)
(** * 32-bit ARM: whole calls

    ARM and Thumb with the ATPCS and EABI conventions, and hard float with its
    back-filling of VFP registers and the overflow the reader gets wrong. *)

From S2P Require Export ArmhfProofs.

Section Props.
Variable cs : bool.
#[local] Hint Extern 0 DataModel => exact (arm32_dm cs) : typeclass_instances.
#[local] Existing Instance arm32_ArgReader.

(** A callback, entered in state [cpu], that reads arguments and returns a scalar. *)
Definition a32_run_callback (abi : arm32_abi) (r0 : arm32_ret) (slot0 : list Z) (ts : list cty) (rt : cty)
    (f : list arg -> Z) (cpu : option arm32_cpu) : option arm32_ret :=
  cpu ← cpu;
  '(l, _) ← read_args (RD := arm32_ArgReader cs abi) ts (dcCallbackThunkEntry cpu);
  slot ← dcvalue_set rt (f l) slot0;
  callback_exit abi r0 slot.

Lemma a32_scalar_exit abi r0 t x slot0 :
  length slot0 = 8%nat -> val_ok t x ->
  exists slot r, dcvalue_set t x slot0 = Some slot /\ callback_exit abi r0 slot = Some r /\ ret_value abi t r = x.
Proof.
  intros Hl Hx%val_ok_conv. unfold dcvalue_set. set (n := Z.to_nat (sizeof_cty t)).
  assert (Hn : ((n <= 8)%nat /\ 8 * Z.of_nat n = ty_bits t) /\ (is_wide t = false -> (n <= 4)%nat)).
  { unfold n. destruct t; vm_compute; repeat split; (done || lia). }
  clearbody n. destruct Hn as [[Hn Hb] Hn4].
  rewrite wr_Some by (rewrite ?length_enc; lia).
  change (Z.to_nat 0) with 0%nat. rewrite take_0, length_enc. cbn [app Nat.add].
  set (s := enc LittleEndian n x ++ drop n slot0). exists s.
  assert (Ls : length s = 8%nat) by (unfold s; rewrite length_app, length_enc, length_drop; lia).
  assert (Hd : forall m, (n <= m)%nat -> (m <= 8)%nat -> conv t (dec LittleEndian (take m s)) = x).
  { intros m Hnm Hm. unfold s. rewrite take_app, take_ge by (rewrite length_enc; lia).
    rewrite <- (conv_wrapU t (8 * Z.of_nat n)) by lia. by rewrite dec_low, conv_wrapU by lia. }
  assert (H8 : conv t (dec LittleEndian s) = x) by (rewrite <- (firstn_all s), Ls; apply Hd; lia).
  assert (Hs : s = take 4 s ++ drop 4 s) by (symmetry; apply take_drop).
  assert (Hlo : rd 0 4 s = Some (take 4 s)) by (rewrite Hs at 1; apply rd0_app; rewrite length_take; lia).
  assert (Hq : rd 0 8 s = Some s) by (rewrite <- (app_nil_r s) at 1; by apply rd0_app).
  destruct (rd_Some 4 4 s) as (hi & Hhi & Lhi & Ehi); [lia..|].
  unfold callback_exit. rewrite Hlo, Hhi, Hq. cbn [mbind option_bind]. eexists. split; [done|]. split; [done|].
  assert (Hj : dec LittleEndian (take 4 s) + 2 ^ 32 * dec LittleEndian hi = dec LittleEndian s).
  { rewrite <- (take_drop 4 s) at 2. unfold dec at 3. rewrite le_join_app, length_take, Ls.
    change (drop 4 s) with (drop (Z.to_nat 4) s) at 1. subst hi.
    rewrite (take_ge (drop _ s)) by (rewrite length_drop; lia). done. }
  unfold ret_value. cbn [ret_r0 ret_r1 ret_d0]. rewrite Hj.
  destruct t, abi; first [exact H8|apply Hd; [by apply Hn4|lia]].
Qed.

(** ** ARM and Thumb *)

(** C21: scalar calls are transparent from end to end on 32-bit ARM without
    hard float, from ARM and from Thumb code, with the ATPCS and the EABI
    layout.  For every argument list that fits the vector, a reset VM, given the
    arguments, enters a callback of the same convention with r0-r3 and a stack
    from which its reader obtains exactly those arguments, and the caller gets
    the callback's result. *)
Theorem arm32_scalar_call_end_to_end eabi abi vfp0 r0 slot0 vm0 l rt f target :
  t_alloc cs abi vm0 -> 8 * Z.of_nat (length l) <= mTotal (t_vec vm0) ->
  Forall arg_ok l -> length slot0 = 8%nat -> val_ok rt (f l) ->
  exists vm vf r,
    dcReset (C := arm32_CallVM cs eabi) vm0 = Some vm /\ push_args (C := arm32_CallVM cs eabi) vm l = Some vf /\
    a32_run_callback abi r0 slot0 (map a_ty l) rt f
      (kernel_enter vfp0 (dcCall_as (C := arm32_CallVM cs eabi) rt vf target)) = Some r /\
    ret_value abi rt r = f l.
Proof.
  intros Ha Hroom Hl Hslot Hf.
  destruct (reset_arm32 cs eabi abi vm0 Ha) as (vm & Hr & Hi & Hv & Hs & Ht & Hd).
  destruct (push_list_arm32 cs eabi abi l vm Hi) as (Hrf & vf & Hp & Hif & Hvf & Htf & Hlf).
  { rewrite Hs, Ht. change (align_up 0 8) with 0. lia. }
  destruct (push_args_inv (CC := arm32_CallConv cs eabi abi) vm l Hi Hrf Hl) as (vf' & Hp' & _ & _ & Hread).
  rewrite Hp in Hp'. injection Hp' as <-. destruct Ha as [_ _ Hsp]. rewrite <- Ht, <- Hd, <- Htf, <- Hlf in Hsp.
  destruct Hif as [_ [[Hs0 Ht0 _] H0] _]. unfold vec_room in H0.
  destruct (spill_ok (vec_data (t_vec vf)) (mSize (t_vec vf))) as (regs & stack & Hspill & Hcore & Hstack); [lia..|].
  set (cpu := {| core := regs; vfp := vfp0; cpu_stack := stack |}).
  destruct (Hread (dcCallbackThunkEntry cpu)) as (p' & Hrd & _).
  { split; [|unfold stands; rewrite Hs; done]. split; cbn; [|exact Hstack].
    intros k bs Hk Hb. apply Hcore; [done|]. revert Hb. unfold vec_bytes. apply rd_prefix, prefix_take. }
  destruct (a32_scalar_exit abi r0 rt (f l) slot0 Hslot Hf) as (slot & r & Hset & Hexit & Hret).
  exists vm, vf, r. split_and!; try done. unfold a32_run_callback, kernel_enter. rewrite callVoid_arm32.
  cbn [k_data k_size]. rewrite Hspill. cbn [mbind option_bind]. fold cpu. rewrite Hrd. cbn [mbind option_bind].
  by rewrite Hset.
Qed.

(** ** Hard float *)

Fixpoint hf_locs (hf : bool) (ts : list cty) (p : hf_pos) : list hf_loc * hf_pos :=
  match ts with
  | [] => ([], p)
  | t :: ts =>
    let '(l, p) := alloc_hf hf t p in
    let '(ls, p) := hf_locs hf ts p in
    (l :: ls, p)
  end.

Definition hf_start : hf_pos := {| ncrn := 0; free := seqZ 0 16; nsaa := 0 |}.

(** What the callee finds at a location. *)
Definition hf_read (cpu : arm32_cpu) (wide : bool) (l : hf_loc) : option Z :=
  match l with
  | HCore k =>
    lo ← aget k (core cpu);
    if wide then hi ← aget (k + 1) (core cpu); Some (lo + 2 ^ 32 * hi) else Some lo
  | HVfp k =>
    lo ← aget k (vfp cpu);
    if wide then hi ← aget (k + 1) (vfp cpu); Some (lo + 2 ^ 32 * hi) else Some lo
  | HStack off => bs ← rd off (if wide then 8 else 4) (cpu_stack cpu); Some (dec LittleEndian bs)
  end.

Definition hf_holds (cpu : arm32_cpu) (a : arg) (l : hf_loc) : Prop :=
  exists y, hf_read cpu (is_wide (a_ty a)) l = Some y /\ conv (a_ty a) y = conv (a_ty a) (a_val a).

Lemma placed_read cpu M wide y l :
  over M (dcCallbackThunkEntry cpu) -> placed M (vfp cpu) wide y l ->
  hf_read cpu wide l = Some (wrapU (if wide then 64 else 32) y).
Proof.
  intros [Hr Hs] Hp. cbn [reg_data args_stack dcCallbackThunkEntry] in Hr, Hs.
  destruct l as [k|k|off]; cbn in Hp |- *.
  - destruct Hp as (H0 & H1 & Hrd). destruct wide.
    + destruct (rd_enc_dword _ _ _ Hrd) as [Hlo Hhi]. replace (4 * k + 4) with (4 * (k + 1)) in Hhi by lia.
      rewrite (Hr k _ ltac:(lia) Hlo), (Hr (k + 1) _ ltac:(lia) Hhi). cbn [mbind option_bind].
      rewrite !dec_enc. f_equal. apply dword_join.
    + rewrite (Hr k _ ltac:(lia) Hrd). cbn [mbind option_bind]. f_equal. apply (dec_enc LittleEndian 4).
  - destruct Hp as [Hlo Hhi]. rewrite Hlo. cbn [mbind option_bind]. destruct wide; [|done].
    rewrite Hhi by done. cbn [mbind option_bind]. f_equal. apply dword_join.
  - destruct Hp as [H0 Hrd]. apply Hs in Hrd; [|lia]. replace (16 + off - 16) with off in Hrd by lia.
    destruct wide; rewrite Hrd; cbn [mbind option_bind]; f_equal; by rewrite dec_enc.
Qed.

(** Floating-point arguments leave the registers only after the core registers
    are used up. *)
Fixpoint core_first (ts : list cty) (p : hf_pos) : Prop :=
  match ts with
  | [] => True
  | t :: ts =>
    let '(l, p') := alloc_hf true t p in
    (is_float t = true -> match l with HStack _ => ncrn p = 4 | _ => True end) /\ core_first ts p'
  end.

Lemma push_list_armhf l : forall vm,
  h_inv cs vm -> align_up (mSize (h_vec vm)) 8 + 8 * Z.of_nat (length l) <= mTotal (h_vec vm) ->
  let hf := uses_vfp (h_vt vm) in
  exists vf, push_args (C := armhf_CallVM cs) vm l = Some vf /\ h_inv cs vf /\ h_ext vm vf /\ h_vt vf = h_vt vm /\
    mTotal (h_vec vf) = mTotal (h_vec vm) /\ length (vec_data (h_vec vf)) = length (vec_data (h_vec vm)) /\
    (forall w cpu, h_ext vf w -> over (vec_bytes (h_vec w)) (dcCallbackThunkEntry cpu) -> vfp cpu = h_S w ->
       Forall2 (hf_holds cpu) l (hf_locs hf (map a_ty l) (pos_of vm)).1) /\
    (hf = true -> core_first (map a_ty l) (pos_of vm) -> room_for (CC := armhf_CallConv cs) vm l).
Proof.
  induction l as [|a l IH]; intros vm Hi Hb hf; [exists vm; split_and!; try done; apply h_ext_refl|].
  cbn [length] in Hb. assert (Hf : fits (h_vec vm)) by (unfold fits; lia).
  destruct (push_arg_armhf cs vm a) as (y & Hpa & Hy). cbn [map hf_locs].
  pose proof (h_push_ok cs vm (a_ty a) y Hi Hf) as Hp. unfold hf. clear hf.
  destruct (alloc_hf (uses_vfp (h_vt vm)) (a_ty a) (pos_of vm)) as [loc pos] eqn:Eal.
  destruct Hp as (vm1 & Hp & Hpl). rewrite Hp in Hpa.
  assert (Hb1 : align_up (mSize (h_vec vm1)) 8 <= align_up (mSize (h_vec vm)) 8 + 8).
  { pose proof (align_up_bounds (mSize (h_vec vm)) 8 ltac:(lia)).
    apply align_up_least; [lia| |].
    - unfold align_up. exists ((mSize (h_vec vm) + 8 - 1) / 8 + 1). lia.
    - pose proof (f_equal nsaa (hp_pos _ _ _ _ _ _ _ Hpl)) as E. cbn [nsaa pos_of] in E.
      pose proof (align_nsaa (mSize (h_vec vm))).
      revert Eal. unfold alloc_hf, arg_size. cbn [nsaa pos_of]. repeat case_match; intros [= <- <-]; cbn [nsaa] in E; lia. }
  destruct (IH vm1) as (vf & Hpf & Hif & Hxf & Hvf & Htf & Hlf & Hall & Hrf); [apply Hpl|destruct (hp_size _ _ _ _ _ _ _ Hpl); lia|].
  pose proof (hp_vt _ _ _ _ _ _ _ Hpl) as Hv1. rewrite Hv1, (hp_pos _ _ _ _ _ _ _ Hpl) in *.
  destruct (hp_size _ _ _ _ _ _ _ Hpl) as [Ht1 Hl1].
  exists vf. destruct (hf_locs _ (map a_ty l) pos) as [ls p'] eqn:El. cbn [fst] in *. split_and!; try done; try congruence.
  - unfold push_args. cbn [foldM]. rewrite Hpa. exact Hpf.
  - eapply h_ext_trans; [apply Hpl|done].
  - intros w cpu Hxw Ho Hvfp. constructor; [|by eapply Hall].
    eexists. split.
    + apply (placed_read _ (vec_bytes (h_vec w))); [done|]. rewrite Hvfp. eapply placed_ext; [apply Hpl| |apply Hpl].
      by eapply h_ext_trans.
    + rewrite conv_wrapU; [exact Hy|]. destruct (a_ty a); vm_compute; done.
  - intros Hu. cbn [core_first map]. rewrite Hu in Eal. rewrite Eal. intros [Hfl Hc]. split.
    + split; [done|]. intros E. split; [done|]. rewrite Eal. cbn [fst]. specialize (Hfl E).
      destruct loc; [|by right; eexists|left].
      * unfold alloc_hf in Eal. rewrite E in Eal. cbn [andb] in Eal. by repeat case_match.
      * destruct Hi as [_ [? ?] _ _]. cbn in Hfl. pose proof (Z.div_mod (h_i vm) 4 ltac:(lia)). lia.
    + intros vm' Hvm'. assert (Hvm : push_arg (C := armhf_CallVM cs) vm a = Some vm') by exact Hvm'.
      rewrite Hpa in Hvm. injection Hvm as <-. auto.
Qed.

Lemma armhf_enter_ok vf target :
  h_inv cs vf -> mTotal (h_vec vf) + 16 <= Z.of_nat (length (vec_data (h_vec vf))) < 2 ^ 31 ->
  exists cpu, armhf_enter (call vf target) = Some cpu /\ over (vec_bytes (h_vec vf)) (dcCallbackThunkEntry cpu) /\
    vfp cpu = h_S vf.
Proof.
  intros [([Hs0 Ht0 _] & H0 & H16 & Hm) _ _ HS] Hl. unfold vec_room in H0.
  unfold armhf_enter, call, dcVecSize. cbn [hk_size hk_data hk_s16]. rewrite wrapS_id by (unfold in_s; lia).
  assert (E : 16 + (mSize (h_vec vf) - 16 + 3) / 4 * 4 = mSize (h_vec vf)).
  { pose proof (Z.div_mod (mSize (h_vec vf)) 4 ltac:(lia)).
    assert ((mSize (h_vec vf) - 16 + 3) / 4 = mSize (h_vec vf) / 4 - 4); [|lia].
    symmetry. apply Z.div_unique with 3; lia. }
  rewrite E. destruct (spill_ok (vec_data (h_vec vf)) (mSize (h_vec vf))) as (regs & stack & -> & Hcore & Hstack); [lia..|].
  cbn [mbind option_bind]. rewrite HS. eexists. split; [reflexivity|]. split; [|done].
  split; cbn; [|exact Hstack]. intros k bs Hk Hb. apply Hcore; [done|]. revert Hb. apply rd_prefix, prefix_take.
Qed.

(** With hard float, arguments are where AAPCS-VFP says.  Every [float]
    takes the lowest free VFP register, also one left between two [double]s,
    every [double] the lowest free pair, 64-bit integers an even pair of core
    registers, and the others and everything that does not fit the stack, aligned.
    For variable arguments - the ellipsis modes - the base standard without VFP
    registers holds instead. *)
Theorem armhf_args_at_abi_locations vm0 l target :
  h_alloc cs vm0 -> 24 + 8 * Z.of_nat (length l) <= mTotal (h_vec vm0) ->
  exists vm vf cpu,
    dcReset (C := armhf_CallVM cs) vm0 = Some vm /\ push_args (C := armhf_CallVM cs) vm l = Some vf /\
    armhf_enter (dcCallVoid (C := armhf_CallVM cs) vf target) = Some cpu /\
    Forall2 (hf_holds cpu) l (hf_locs (uses_vfp (h_vt vm0)) (map a_ty l) hf_start).1.
Proof.
  intros Ha Hroom. destruct (reset_armhf cs vm0 Ha) as (vm & Hr & Hi & Hv & Hpos & _ & _ & Ht & Hd).
  assert (Hs : mSize (h_vec vm) = 16) by (apply (f_equal nsaa) in Hpos; cbn in Hpos; lia).
  destruct (push_list_armhf l vm Hi) as (vf & Hp & Hif & Hxf & Hvf & Htf & Hlf & Hall & _).
  { rewrite Hs, Ht. change (align_up 16 8) with 16. lia. }
  destruct (armhf_enter_ok vf target Hif) as (cpu & Hk & Ho & Hvfp).
  { rewrite Htf, Hlf, Ht, Hd. apply Ha. }
  exists vm, vf, cpu. split_and!; try done.
  - unfold dcCallVoid, vtable. cbn. by destruct (h_vt vf).
  - rewrite <- Hv. rewrite Hpos in Hall. apply (Hall vf); [apply h_ext_refl|done..].
Qed.

(** C22: scalar calls with hard float are transparent from end to end as long
    as floating-point arguments overflow to the stack only after the core
    registers are used up: a reset VM in default mode, given the arguments,
    enters the callback with registers and stack from which its reader obtains
    exactly those arguments, and the caller gets the callback's result. *)
Theorem armhf_scalar_call_end_to_end r0 slot0 vm0 l rt f target :
  h_alloc cs vm0 -> h_vt vm0 = vt_armhf_p -> 24 + 8 * Z.of_nat (length l) <= mTotal (h_vec vm0) ->
  core_first (map a_ty l) hf_start ->
  Forall arg_ok l -> length slot0 = 8%nat -> val_ok rt (f l) ->
  exists vm vf r,
    dcReset (C := armhf_CallVM cs) vm0 = Some vm /\ push_args (C := armhf_CallVM cs) vm l = Some vf /\
    a32_run_callback ARMHF r0 slot0 (map a_ty l) rt f
      (armhf_enter (dcCall_as (C := armhf_CallVM cs) rt vf target)) = Some r /\
    ret_value ARMHF rt r = f l.
Proof.
  intros Ha Hvt Hroom Hcf Hl Hslot Hf.
  destruct (reset_armhf cs vm0 Ha) as (vm & Hr & Hi & Hv & Hpos & Hs0 & Hd0 & Ht & Hd).
  assert (Hs : mSize (h_vec vm) = 16) by (apply (f_equal nsaa) in Hpos; cbn in Hpos; lia).
  destruct (push_list_armhf l vm Hi) as (vf & Hp & Hif & _ & Hvf & Htf & Hlf & _ & Hrf).
  { rewrite Hs, Ht. change (align_up 16 8) with 16. lia. }
  rewrite Hpos in Hrf. specialize (Hrf ltac:(by rewrite Hv, Hvt) Hcf).
  destruct (push_args_inv (CC := armhf_CallConv cs) vm l Hi Hrf Hl) as (vf' & Hp' & _ & _ & Hread).
  rewrite Hp in Hp'. injection Hp' as <-.
  destruct (armhf_enter_ok vf target Hif) as (cpu & Hk & Ho & Hvfp).
  { rewrite Htf, Hlf, Ht, Hd. apply Ha. }
  destruct (Hread (dcCallbackThunkEntry cpu)) as (p' & Hrd & _).
  { constructor; [done|by rewrite Hpos..|done|by rewrite Hs0, Hd0]. }
  destruct (a32_scalar_exit ARMHF r0 rt (f l) slot0 Hslot Hf) as (slot & r & Hset & Hexit & Hret).
  exists vm, vf, r. split_and!; try done. unfold a32_run_callback. rewrite callVoid_armhf, Hk.
  cbn [mbind option_bind]. rewrite Hrd. cbn [mbind option_bind]. by rewrite Hset.
Qed.

(** *** Running out of VFP registers *)

(** [float]s alone use the registers one after the other. *)
Definition dense_check (s d : Z) : bool :=
  let '(s', d') := next_single s d in
  implb (vfp_ok s d && (s <? 16) && (d <=? s + 1)) ((s' =? s + 1) && (d' <=? s' + 1)).

Lemma next_single_dense s d :
  vfp_ok s d = true -> s < 16 -> d <= s + 1 -> (next_single s d).1 = s + 1 /\ (next_single s d).2 <= s + 2.
Proof.
  intros Hok Hs Hd. pose proof (vfp_bounds _ _ Hok) as [Hs0 Hd0].
  assert (E : dense_check s d = true) by (clear Hok Hs Hd; revert s d Hs0 Hd0; apply by_table; vm_compute; reflexivity).
  unfold dense_check in E. destruct (next_single s d) as [s' d']. cbn [fst snd].
  rewrite Hok, (proj2 (Z.ltb_lt _ _) Hs), (proj2 (Z.leb_le _ _) Hd) in E. cbn in E. lia.
Qed.

Lemma push_floats xs : forall vm,
  h_inv cs vm -> h_vt vm = vt_armhf_p -> h_s vm + Z.of_nat (length xs) <= 16 -> h_d vm <= h_s vm + 1 ->
  fits (h_vec vm) ->
  exists vf, push_args (C := armhf_CallVM cs) vm (map (Arg TFloat) xs) = Some vf /\ h_inv cs vf /\
    h_vt vf = vt_armhf_p /\ h_vec vf = h_vec vm /\ h_i vf = h_i vm /\ h_s vf = h_s vm + Z.of_nat (length xs) /\
    room_for (CC := armhf_CallConv cs) vm (map (Arg TFloat) xs).
Proof.
  induction xs as [|x xs IH]; intros vm Hi Hv Hs Hd Hf; [exists vm; split_and!; try done; cbn; lia|].
  cbn [length map] in *. pose proof (hi_fp _ _ Hi) as Hok. pose proof (vfp_bounds _ _ Hok) as [? ?].
  destruct (next_single_dense (h_s vm) (h_d vm) Hok) as [Hs1 Hd1]; [lia..|].
  pose proof (vfp_single _ _ Hok) as Htk.
  destruct (push_arg_armhf cs vm (Arg TFloat x)) as (y & Hpa & _). cbn [a_ty] in Hpa.
  pose proof (h_push_ok cs vm TFloat y Hi Hf) as Hp. rewrite Hv in Hp.
  destruct (next_single (h_s vm) (h_d vm)) as [s' d'] eqn:En. destruct Htk as (Htk & _ & _). cbn [fst snd] in *.
  assert (Eal : alloc_hf true TFloat (pos_of vm) =
            (HVfp (h_s vm), {| ncrn := ncrn (pos_of vm); free := free_of s' d'; nsaa := nsaa (pos_of vm) |})).
  { unfold alloc_hf. cbn -[take_single free_of pos_of]. change (free (pos_of vm)) with (free_of (h_s vm) (h_d vm)).
    by rewrite Htk, (proj2 (Z.ltb_lt _ _)) by lia. }
  cbn [uses_vfp] in Hp. rewrite Eal in Hp. destruct Hp as (vm1 & Hp & Hpl). rewrite Hp in Hpa.
  assert (Hvec : h_vec vm1 = h_vec vm /\ h_i vm1 = h_i vm).
  { revert Hp. unfold h_push. rewrite Hv. cbn [uses_vfp is_float is_wide andb]. unfold a_float.
    rewrite (proj2 (Z.ltb_lt _ _)) by lia. destruct (aset _ _ _); cbn [mbind option_bind]; [|done].
    intros [= <-]. by destruct (h_d vm <? h_s vm + 1). }
  destruct Hvec as [Hvec Hi1]. pose proof (hp_fp _ _ _ _ _ _ _ Hpl) as Hfp.
  unfold next_fp in Hfp. rewrite Hv in Hfp. cbn [uses_vfp is_float is_wide andb] in Hfp.
  rewrite (proj2 (Z.ltb_lt _ _)), En in Hfp by lia. injection Hfp as Es Ed.
  destruct (IH vm1) as (vf & Hpf & Hif & Hvf & Hvecf & Hif' & Hsf & Hcf); [apply Hpl| |lia|lia|by rewrite Hvec|].
  { rewrite <- Hv. apply Hpl. }
  exists vf. split_and!; try done; try congruence; try lia.
  - unfold push_args. cbn [foldM]. rewrite Hpa. exact Hpf.
  - split.
    + split; [done|]. intros _. cbn [a_ty]. rewrite Hv, Eal. split; [done|]. right. by eexists.
    + intros vm' Hvm'. assert (Hvm : push_arg (C := armhf_CallVM cs) vm (Arg TFloat x) = Some vm') by exact Hvm'.
      rewrite Hpa in Hvm. by injection Hvm as <-.
Qed.

(** A [float] that finds no register goes behind the stack arguments. *)
Lemma push_overflowing vm1 x vf :
  h_inv cs vm1 -> h_vt vm1 = vt_armhf_p -> h_s vm1 = 16 -> vec_room (h_vec vm1) 4 ->
  push_args (C := armhf_CallVM cs) vm1 [Arg TFloat x] = Some vf ->
  h_S vf = h_S vm1 /\ prefix (vec_bytes (h_vec vm1)) (vec_bytes (h_vec vf)).
Proof.
  intros Hi1 Hv1 Hs16 Hroom. unfold push_args. cbn [foldM].
  destruct (push_arg_armhf cs vm1 (Arg TFloat x)) as (y & -> & _).
  unfold h_push. rewrite Hv1. cbn [a_ty uses_vfp is_float is_wide andb]. unfold a_float. rewrite Hs16. cbn [Z.ltb Z.compare].
  unfold h_append. destruct (dcVecAppend_ok (h_vec vm1) (enc LittleEndian 4 y) 4) as (u & E & _ & _ & _ & _ & Hu & _);
    [apply Hi1|by rewrite length_enc|done|].
  rewrite length_enc. change (Z.of_nat 4) with 4. rewrite E. cbn [mbind option_bind]. intros [= <-]. split; [done|].
  cbn [h_vec h_with_vec]. rewrite Hu. by apply prefix_app_r.
Qed.

(** The reader takes an overflowing [float] from the wrong place.  The VM
    puts the seventeenth [float] on the stack, as the standard demands, where
    any compiled callee finds it; [arm_float] takes the first core register
    instead, which holds what the first four bytes of the VM's memory, never
    written, happen to contain. *)
Theorem armhf_overflow_float_misread vm0 xs x target :
  h_alloc cs vm0 -> h_vt vm0 = vt_armhf_p -> 32 <= mTotal (h_vec vm0) -> length xs = 16%nat ->
  Forall (fun x => val_ok TFloat x) xs -> val_ok TFloat x ->
  exists vm vf cpu garbage p',
    dcReset (C := armhf_CallVM cs) vm0 = Some vm /\
    push_args (C := armhf_CallVM cs) vm (map (Arg TFloat) (xs ++ [x])) = Some vf /\
    armhf_enter (dcCallVoid (C := armhf_CallVM cs) vf target) = Some cpu /\
    hf_holds cpu (Arg TFloat x) (HStack 0) /\
    rd 0 4 (vec_data (h_vec vm0)) = Some garbage /\
    read_args (RD := arm32_ArgReader cs ARMHF) (map a_ty (map (Arg TFloat) (xs ++ [x]))) (dcCallbackThunkEntry cpu)
      = Some (map (Arg TFloat) (xs ++ [conv TFloat (dec LittleEndian garbage)]), p').
Proof.
  intros Ha Hvt Hroom Hxs Hl Hx.
  destruct (reset_armhf cs vm0 Ha) as (vm & Hr & Hi & Hv & Hpos & Hs0 & Hd0 & Ht & Hd).
  assert (Hs : mSize (h_vec vm) = 16) by (apply (f_equal nsaa) in Hpos; cbn in Hpos; lia).
  assert (Hi0 : h_i vm = 0).
  { apply (f_equal ncrn) in Hpos. cbn in Hpos. destruct Hi as [_ [? ?] _ _]. pose proof (Z.div_mod (h_i vm) 4 ltac:(lia)). lia. }
  assert (Hf : fits (h_vec vm)) by (unfold fits; rewrite Hs, Ht; change (align_up 16 8) with 16; lia).
  destruct (push_floats xs vm Hi (eq_trans Hv Hvt)) as (vm1 & Hp1 & Hi1 & Hv1 & Hvec1 & Hci1 & Hs1 & Hrf); [lia..|done|].
  assert (Hs16 : h_s vm1 = 16) by lia. clear Hs1.
  destruct (push_args_inv (CC := armhf_CallConv cs) vm (map (Arg TFloat) xs) Hi Hrf) as (vm1' & Hp1' & _ & _ & Hread).
  { apply Forall_map. exact Hl. }
  rewrite Hp1 in Hp1'. injection Hp1' as <-.
  destruct (push_list_armhf [Arg TFloat x] vm1 Hi1) as (vf & Hpf & Hif & Hxf & Hvf & Htf & Hlf & Hall & _).
  { rewrite Hvec1, Hs, Ht. cbn [length]. change (align_up 16 8) with 16. lia. }
  destruct (armhf_enter_ok vf target Hif) as (cpu & Hk & Ho & Hvfp).
  { rewrite Htf, Hlf, Hvec1, Ht, Hd. apply Ha. }
  pose proof (Hall vf cpu (h_ext_refl vf) Ho Hvfp) as Hh.
  assert (Hd16 : h_d vm1 = 16).
  { pose proof (vfp_single _ _ (hi_fp _ _ Hi1)) as H. destruct (next_single _ _). by apply H; lia. }
  assert (Hh0 : hf_holds cpu (Arg TFloat x) (HStack 0)).
  { revert Hh. unfold pos_of. rewrite Hv1, Hs16, Hd16, Hvec1, Hs. cbn. by intros [? ?]%Forall2_cons. }
  destruct (push_overflowing vm1 x vf Hi1 Hv1 Hs16) as [HS Hpre]; [|exact Hpf|].
  { unfold vec_room. rewrite Hvec1, Hs, Ht. lia. }
  rewrite Hvec1 in Hpre.
  assert (Ho1 : over (vec_bytes (h_vec vm)) (dcCallbackThunkEntry cpu)).
  { destruct Ho as [Hor Hos]. split; intros; [apply Hor|apply Hos]; try done; by eapply rd_prefix. }
  destruct (Hread (dcCallbackThunkEntry cpu)) as (p' & Hrd & Hat).
  { constructor; [by rewrite Hvec1|by rewrite Hpos..|cbn; congruence|by rewrite Hs0, Hd0]. }
  destruct Hat as [[Hor _] Hrc _ _ Hfr]. destruct (counters_fs _ _ _ _ Hfr) as [Efs _].
  cbn [pos_of ncrn] in Hrc. rewrite Hci1, Hi0 in Hrc. rewrite Hvec1 in Hor. change (0 / 4) with 0 in Hrc.
  assert (Hlen : Z.of_nat (length (vec_bytes (h_vec vm))) = 16).
  { rewrite length_vec_bytes; [done|apply Hi|]. unfold vec_room. lia. }
  destruct (rd_Some 0 4 (vec_bytes (h_vec vm))) as (g & Hg & _); [lia..|].
  exists vm, vf, cpu, g, (s_with_regs 1 p'). split_and!; try done.
  - unfold push_args in *. rewrite map_app, foldM_app, Hp1. exact Hpf.
  - unfold dcCallVoid, vtable. cbn. by destruct (h_vt vf).
  - rewrite <- Hd. revert Hg. apply rd_prefix, prefix_take.
  - rewrite !map_app, read_args_app, Hrd. cbn [mbind option_bind map read_args a_ty dcbArg arm32_ArgReader].
    unfold dcbArgFloat, arm_float, arm_word. rewrite Efs, Hs16, Hrc. cbn [Z.ltb Z.compare].
    rewrite (Hor 0 g ltac:(lia) Hg). cbn [mbind option_bind]. rewrite conv_wrapU by done. done.
Qed.

End Props.
