(* ===== verification/ArmExamples.v ===== *)
(** * ARM: the properties at concrete inputs *)

From S2P Require Arm64Props Arm32Props.

Module A64.
Import Arm64Props.

(** A VM with [n] bytes for stack arguments. *)
Definition ex_vm_a64 (v : arm64_vt) (n : nat) : DCCallVM_arm64 := {|
  q_vt := v; q_mError := 0; q_i := 0; q_f := 0; q_u := replicate 8 0xeeee; q_I := replicate 8 0xdddd;
  q_vec := {| mTotal := Z.of_nat n; mSize := 0; vec_data := replicate n 0xcc |};
|}.

Lemma ex_vm_a64_alloc os : a64_alloc os (ex_vm_a64 vt_arm64_p 128).
Proof.
  constructor; [exact Logic.I|split; [constructor; cbn; lia|cbn; lia]|split; [vm_compute; discriminate|reflexivity]
               |split; reflexivity].
Qed.

(** Ten integers of different sizes, so that two small ones share a stack word
    on Apple's systems, and a [float]. *)
Definition ex_args_a64 : list arg :=
  replicate 8 (Arg TLongLong (-5)) ++
  [Arg TChar 120; Arg TUShort 65535; Arg TFloat 0x3f800000; Arg TBool 1].

Lemma ex_args_a64_ok os : Forall (arg_ok (DM := arm64_dm os)) ex_args_a64.
Proof. destruct os; repeat (constructor; [first [reflexivity | right; reflexivity]|]); constructor. Qed.

Lemma arm64_scalar_call_end_to_end_witness :
  exists vm vf r,
    dcReset (C := a64_vm A64Apple id) (ex_vm_a64 vt_arm64_p 128) = Some vm /\
    push_args (DM := arm64_dm A64Apple) (C := a64_vm A64Apple id) vm ex_args_a64 = Some vf /\
    a64_run_callback A64Apple (Build_arm64_ret 1 2) (replicate 8 0xaa) (map a_ty ex_args_a64) TInt (fun _ => -9)
      (dcCall_as (C := a64_vm A64Apple id) TInt vf 0) = Some r /\
    ret_value A64Apple TInt r = -9.
Proof.
  apply (arm64_scalar_call_end_to_end A64Apple id (Build_arm64_ret 1 2) (replicate 8 0xaa)
           (ex_vm_a64 vt_arm64_p 128) ex_args_a64 TInt (fun _ => -9) 0);
    [apply ex_vm_a64_alloc|reflexivity|vm_compute; discriminate|apply ex_args_a64_ok|reflexivity|reflexivity].
Defined.

(** [printf]-like: a pointer, then a [float] and an [int] as variable
    arguments; the conversion to [double] is that of the value 1.0. *)
Definition ex_f2d (x : Z) : Z := if x =? 0x3f800000 then 0x3ff0000000000000 else 0.

Lemma arm64_args_at_abi_locations_witness :
  exists vm1 vm2 vm3 vf cpu,
    dcReset (C := a64_vm A64Apple ex_f2d) (ex_vm_a64 vt_arm64_p 128) = Some vm1 /\
    push_args (DM := arm64_dm A64Apple) (C := a64_vm A64Apple ex_f2d) vm1 [Arg TPointer 0x1000] = Some vm2 /\
    dcMode (C := a64_vm A64Apple ex_f2d) vm2 DC_CALL_C_ELLIPSIS_VARARGS = Some vm3 /\
    push_args (DM := arm64_dm A64Apple) (C := a64_vm A64Apple ex_f2d) vm3 [Arg TFloat 0x3f800000; Arg TInt (-1)]
      = Some vf /\
    kernel_enter (dcCallVoid (C := a64_vm A64Apple ex_f2d) vf 0) = Some cpu /\
    Forall2 (a64_holds A64Apple (a_x cpu) (a_d cpu) (a_stack cpu))
      [Arg TPointer 0x1000; Arg TDouble 0x3ff0000000000000; Arg TInt (-1)]
      [AX 0; AStk 0 8; AStk 8 8].
Proof.
  apply (arm64_args_at_abi_locations A64Apple ex_f2d (ex_vm_a64 vt_arm64_p 128) [Arg TPointer 0x1000]
           [Arg TFloat 0x3f800000; Arg TInt (-1)] 0);
    [apply ex_vm_a64_alloc|reflexivity|vm_compute; discriminate].
Defined.

Lemma arm64_full_vector_overread_witness :
  exists vm vf,
    dcNewCallVM A64Unix (ex_vm_a64 vt_arm64_p 0) (Some (replicate 8 0)) 8 = Some vm /\
    push_args (DM := arm64_dm A64Unix) (C := a64_vm A64Unix id) vm (replicate 9 (Arg TLongLong 3)) = Some vf /\
    mSize (q_vec vf) = mTotal (q_vec vf) /\
    Forall2 (a64_holds A64Unix (q_I vf) (q_u vf) (vec_bytes (q_vec vf))) (replicate 9 (Arg TLongLong 3))
      [AX 0; AX 1; AX 2; AX 3; AX 4; AX 5; AX 6; AX 7; AStk 0 8] /\
    kernel_enter (dcCallVoid (C := a64_vm A64Unix id) vf 0) = None.
Proof.
  apply (arm64_full_vector_overread A64Unix id (ex_vm_a64 vt_arm64_p 0) (replicate 8 0) 8
           (replicate 9 (Arg TLongLong 3)) 0);
    [reflexivity|reflexivity|reflexivity|reflexivity|reflexivity|repeat constructor|reflexivity].
Defined.

Definition ex_full_a64 : DCCallVM_arm64 := {|
  q_vt := vt_arm64_p; q_mError := 0; q_i := 0; q_f := 8; q_u := replicate 8 0; q_I := replicate 8 0;
  q_vec := {| mTotal := 16; mSize := 16; vec_data := replicate 16 0xcc |};
|}.

Lemma arm64_dropped_float_overreads_witness :
  (exists cpu, dcArgDouble (C := a64_vm A64Unix id) ex_full_a64 7 = Some ex_full_a64 /\
     kernel_enter (dcCallVoid (C := a64_vm A64Unix id) ex_full_a64 0) = Some cpu) /\
  exists vm', dcArgFloat (C := a64_vm A64Unix id) ex_full_a64 7 = Some vm' /\
    mSize (q_vec vm') = mTotal (q_vec vm') + 4 /\
    kernel_enter (dcCallVoid (C := a64_vm A64Unix id) vm' 0) = None.
Proof.
  apply (arm64_dropped_float_overreads A64Unix id ex_full_a64 7 0);
    [discriminate| |reflexivity|reflexivity|reflexivity|reflexivity|reflexivity|reflexivity].
  constructor; [exact Logic.I|split; [constructor; cbn; lia|unfold vec_room; cbn; lia]|cbn; lia|cbn; lia
               |split; reflexivity].
Defined.

End A64.

Module A32.
Import Arm32Props.

Definition ex_vec_arm32 (n : nat) : DCVecHead :=
  {| mTotal := Z.of_nat n; mSize := 0; vec_data := replicate (n + 16) 0xcc |}.

Definition ex_vm_arm32 (v : arm32_vt) (n : nat) : DCCallVM_arm32_arm :=
  {| t_vt := v; t_mError := 0; t_vec := ex_vec_arm32 n |}.

Lemma ex_vm_arm32_alloc cs : t_alloc cs EABI (ex_vm_arm32 gVT_arm32_thumb_eabi_p 64).
Proof.
  constructor; [reflexivity|split; [constructor; cbn; lia|vm_compute; discriminate]
               |split; [vm_compute; discriminate|reflexivity]].
Qed.

(** The [double] leaves r1 unused, and the [long long] four bytes of the stack. *)
Definition ex_args_arm32 : list arg :=
  [Arg TInt (-7); Arg TDouble 0x3ff8000000000000; Arg TUChar 200; Arg TLongLong (-2); Arg TBool 1].

Lemma ex_args_arm32_ok cs : Forall (arg_ok (DM := arm32_dm cs)) ex_args_arm32.
Proof. destruct cs; repeat (constructor; [first [reflexivity | right; reflexivity]|]); constructor. Qed.

Definition ex_ret_arm32 : arm32_ret := {| ret_r0 := 1; ret_r1 := 2; ret_d0 := 3 |}.

Lemma arm32_scalar_call_end_to_end_witness :
  exists vm vf r,
    dcReset (C := arm32_CallVM true true) (ex_vm_arm32 gVT_arm32_thumb_eabi_p 64) = Some vm /\
    push_args (DM := arm32_dm true) (C := arm32_CallVM true true) vm ex_args_arm32 = Some vf /\
    a32_run_callback true EABI ex_ret_arm32 (replicate 8 0xaa) (map a_ty ex_args_arm32) TLongLong (fun _ => -9)
      (kernel_enter [] (dcCall_as (C := arm32_CallVM true true) TLongLong vf 0)) = Some r /\
    ret_value (DM := arm32_dm true) EABI TLongLong r = -9.
Proof.
  apply (arm32_scalar_call_end_to_end true true EABI [] ex_ret_arm32 (replicate 8 0xaa)
           (ex_vm_arm32 gVT_arm32_thumb_eabi_p 64) ex_args_arm32 TLongLong (fun _ => -9) 0);
    [apply ex_vm_arm32_alloc|vm_compute; discriminate|apply ex_args_arm32_ok|reflexivity|reflexivity].
Defined.

Definition ex_vm_armhf (v : armhf_vt) (n : nat) : DCCallVM_arm32_armhf :=
  {| h_vt := v; h_mError := 0; h_i := 0; h_s := 0; h_d := 0; h_S := replicate 16 0xee; h_vec := ex_vec_arm32 n |}.

Lemma ex_vm_armhf_alloc cs v : h_alloc cs (ex_vm_armhf v 160).
Proof.
  constructor; [split; [constructor; cbn; lia|vm_compute; discriminate]
               |split; [vm_compute; discriminate|reflexivity]|reflexivity].
Qed.

(** The second [float] fills the gap the first one left below the [double]. *)
Definition ex_args_armhf : list arg :=
  [Arg TFloat 0x3f800000; Arg TDouble 0x4000000000000000; Arg TFloat 0x40400000; Arg TInt 3; Arg TLongLong (-4)].

Lemma armhf_args_at_abi_locations_witness :
  exists vm vf cpu,
    dcReset (C := armhf_CallVM true) (ex_vm_armhf vt_armhf_p 160) = Some vm /\
    push_args (DM := arm32_dm true) (C := armhf_CallVM true) vm ex_args_armhf = Some vf /\
    armhf_enter (dcCallVoid (C := armhf_CallVM true) vf 0) = Some cpu /\
    Forall2 (hf_holds true cpu) ex_args_armhf [HVfp 0; HVfp 2; HVfp 1; HCore 0; HCore 2].
Proof.
  apply (armhf_args_at_abi_locations true (ex_vm_armhf vt_armhf_p 160) ex_args_armhf 0);
    [apply ex_vm_armhf_alloc|vm_compute; discriminate].
Defined.

(** Six integers use up the core registers before seventeen [float]s follow. *)
Definition ex_many_armhf : list arg := replicate 6 (Arg TInt 5) ++ replicate 17 (Arg TFloat 0x3f800000).

(** A vector of [n] bytes with room for them. *)
Lemma ex_vm_armhf_alloc_large cs v : h_alloc cs (ex_vm_armhf v 256).
Proof.
  constructor; [split; [constructor; cbn; lia|vm_compute; discriminate]
               |split; [vm_compute; discriminate|reflexivity]|reflexivity].
Qed.

Lemma armhf_scalar_call_end_to_end_witness :
  exists vm vf r,
    dcReset (C := armhf_CallVM true) (ex_vm_armhf vt_armhf_p 256) = Some vm /\
    push_args (DM := arm32_dm true) (C := armhf_CallVM true) vm ex_many_armhf = Some vf /\
    a32_run_callback true ARMHF ex_ret_arm32 (replicate 8 0xaa) (map a_ty ex_many_armhf) TDouble (fun _ => 77)
      (armhf_enter (dcCall_as (C := armhf_CallVM true) TDouble vf 0)) = Some r /\
    ret_value (DM := arm32_dm true) ARMHF TDouble r = 77.
Proof.
  apply (armhf_scalar_call_end_to_end true ex_ret_arm32 (replicate 8 0xaa) (ex_vm_armhf vt_armhf_p 256)
           ex_many_armhf TDouble (fun _ => 77) 0);
    [apply ex_vm_armhf_alloc_large|reflexivity|vm_compute; discriminate| | |reflexivity|reflexivity].
  - vm_compute. repeat split; discriminate.
  - repeat (constructor; [reflexivity|]). constructor.
Defined.

(** 17 times 1.0: the last one arrives as the pattern the memory was filled with. *)
Lemma armhf_overflow_float_misread_witness :
  exists vm vf cpu garbage p',
    dcReset (C := armhf_CallVM true) (ex_vm_armhf vt_armhf_p 160) = Some vm /\
    push_args (DM := arm32_dm true) (C := armhf_CallVM true) vm
      (map (Arg TFloat) (replicate 16 0x3f800000 ++ [0x3f800000])) = Some vf /\
    armhf_enter (dcCallVoid (C := armhf_CallVM true) vf 0) = Some cpu /\
    hf_holds true cpu (Arg TFloat 0x3f800000) (HStack 0) /\
    rd 0 4 (replicate 176 0xcc) = Some garbage /\
    read_args (RD := arm32_ArgReader true ARMHF) (map a_ty (map (Arg TFloat) (replicate 16 0x3f800000 ++ [0x3f800000])))
      (dcCallbackThunkEntry cpu)
      = Some (map (Arg TFloat) (replicate 16 0x3f800000 ++ [conv (DM := arm32_dm true) TFloat (dec LittleEndian garbage)]), p').
Proof.
  apply (armhf_overflow_float_misread true (ex_vm_armhf vt_armhf_p 160) (replicate 16 0x3f800000) 0x3f800000 0);
    [apply ex_vm_armhf_alloc|reflexivity|vm_compute; discriminate|reflexivity
    |repeat (constructor; [reflexivity|]); constructor|reflexivity].
Defined.

End A32.
