(* ===== verification/Sparc32.v ===== *)
(** * 32-bit SPARC: call VM, kernel, callbacks and argument access
      (dyncall/dyncall_callvm_sparc.{h,c}, dyncall_call_sparc.s,
       dyncallback/dyncall_args_sparc32.{h,c}, dyncall_callback_sparc32.{c,s},
       dyncall_thunk_sparc32.c)

    Arguments are a run of big-endian words: the kernel loads the first six into
    %o0-%o5 and copies the others behind the place where the callee may spill
    these, so that a callback that spills them finds all arguments in one piece. *)

From S2P Require Export Words.

Definition DC_CALL_C_SPARC32 : Z := 20.

Definition sparc32_dm (char_signed : bool) : DataModel := {|
  dm_endian := BigEndian; dm_size_bits := 32; dm_long_bits := 32; dm_char_signed := char_signed
|}.

#[export] Instance sparc32_dm_ok cs : DataModelOk (DM := sparc32_dm cs).
Proof. split; cbn; auto. Qed.

(** ** Argument access in a callback (dyncall_args_sparc32.{h,c})

    [arg_ptr] is the offset from the first argument word. *)

Record DCArgs := { arg_ptr : Z; arg_mem : list Z }.

Section Args.
Variable char_signed : bool.
#[local] Hint Extern 0 DataModel => exact (sparc32_dm char_signed) : typeclass_instances.

(** The pointers these two return, before they advance. *)
Definition sparc_word : SO DCArgs Z := fun args =>
  Some (arg_ptr args, {| arg_ptr := arg_ptr args + 4; arg_mem := arg_mem args |}).
Definition sparc_dword : SO DCArgs Z := fun args =>
  Some (arg_ptr args, {| arg_ptr := arg_ptr args + 8; arg_mem := arg_mem args |}).

(** A load through such a pointer. *)
Definition deref (n : nat) (p : Z) : SO DCArgs (list Z) := fun args =>
  bs ← rd p n (arg_mem args); Some (bs, args).

(** Two words, copied to where the compiler aligns them. *)
Definition dcbArgULongLong : SO DCArgs Z :=
  l ← sparc_dword; l0 ← deref 4 l; l1 ← deref 4 (l + 4); mret (conv TULongLong (dec BigEndian (l0 ++ l1))).
Definition dcbArgDouble : SO DCArgs Z :=
  l ← sparc_dword; l0 ← deref 4 l; l1 ← deref 4 (l + 4); mret (conv TDouble (dec BigEndian (l0 ++ l1))).

Definition dcbArgUInt : SO DCArgs Z := p ← sparc_word; bs ← deref 4 p; mret (conv TUInt (dec BigEndian bs)).
Definition dcbArgLongLong : SO DCArgs Z := x ← dcbArgULongLong; mret (conv TLongLong x).
Definition dcbArgInt : SO DCArgs Z := x ← dcbArgUInt; mret (conv TInt x).
Definition dcbArgLong : SO DCArgs Z := x ← dcbArgUInt; mret (conv TLong x).
Definition dcbArgULong : SO DCArgs Z := x ← dcbArgUInt; mret (conv TULong x).
Definition dcbArgChar : SO DCArgs Z := x ← dcbArgUInt; mret (conv TChar x).
Definition dcbArgUChar : SO DCArgs Z := x ← dcbArgUInt; mret (conv TUChar x).
Definition dcbArgShort : SO DCArgs Z := x ← dcbArgUInt; mret (conv TShort x).
Definition dcbArgUShort : SO DCArgs Z := x ← dcbArgUInt; mret (conv TUShort x).
Definition dcbArgBool : SO DCArgs Z := x ← dcbArgUInt; mret (conv TBool x).
Definition dcbArgPointer : SO DCArgs Z := x ← dcbArgUInt; mret (conv TPointer x).
Definition dcbArgFloat : SO DCArgs Z := p ← sparc_word; bs ← deref 4 p; mret (conv TFloat (dec BigEndian bs)).

#[export] Instance sparc32_ArgReader : ArgReader DCArgs := {
  dcbArg t :=
    match t with
    | TBool => dcbArgBool | TChar => dcbArgChar | TUChar => dcbArgUChar
    | TShort => dcbArgShort | TUShort => dcbArgUShort | TInt => dcbArgInt
    | TUInt => dcbArgUInt | TLong => dcbArgLong | TULong => dcbArgULong
    | TLongLong => dcbArgLongLong | TULongLong => dcbArgULongLong
    | TFloat => dcbArgFloat | TDouble => dcbArgDouble
    | TPointer | TString => dcbArgPointer
    end;
}.
End Args.

(** ** Machine state and callbacks *)

(** %o0-%o5 of the caller, and the stack from the seventh argument word on
    (92 bytes from the stack pointer). *)
Record sparc32_cpu := { outs : list Z; cpu_stack : list Z }.

Record DCCallback := { cb_handler : Z; cb_userdata : Z }.

Definition dcbInitCallback2 (signature : list DCsigchar) (handler userdata : Z) : DCCallback :=
  {| cb_handler := handler; cb_userdata := userdata |}.

(** [dcCallbackThunkEntry] spills the six registers below the other arguments. *)
Definition dcCallbackThunkEntry (cpu : sparc32_cpu) : DCArgs :=
  {| arg_ptr := 0; arg_mem := store_words BigEndian 4 (outs cpu) ++ cpu_stack cpu |}.

(** The results a caller may look at. *)
Record sparc32_ret := { ret_o0 : Z; ret_o1 : Z; ret_f0 : Z; ret_f1 : Z }.

(** Small members of a [DCValue] are in the low part of its first word. *)
Definition dcvalue_off {DM : DataModel} (t : cty) : Z :=
  match t with
  | TChar | TUChar | TShort | TUShort => 4 - sizeof_cty t
  | _ => 0
  end.

Definition dcvalue_set {DM : DataModel} (t : cty) (x : Z) (result : list Z) : option (list Z) :=
  wr (dcvalue_off t) (enc BigEndian (Z.to_nat (sizeof_cty t)) x) result.

(** The entry clears the [DCValue] and loads both words of it afterwards. *)
Definition callback_slot : list Z := enc BigEndian 4 0 ++ enc BigEndian 4 0.

Definition callback_exit (result : list Z) : option sparc32_ret :=
  w0 ← rd 0 4 result;
  w1 ← rd 4 4 result;
  Some {| ret_o0 := dec BigEndian w0; ret_o1 := dec BigEndian w1;
          ret_f0 := dec BigEndian w0; ret_f1 := dec BigEndian w1 |}.

(** Where a caller finds a result of each type. *)
Definition ret_value {DM : DataModel} (t : cty) (r : sparc32_ret) : Z :=
  match t with
  | TFloat => conv t (ret_f0 r)
  | TDouble => conv t (ret_f1 r + 2 ^ 32 * ret_f0 r)
  | TLongLong | TULongLong => conv t (ret_o1 r + 2 ^ 32 * ret_o0 r)
  | _ => conv t (ret_o0 r)
  end.

(** [dcbInitThunk] (dyncall_thunk_sparc32.c): the six instructions. *)
Definition dcbInitThunk (p entry : Z) : list Z :=
  store_words BigEndian 4
    [Z.lor 0x03000000 (Z.shiftr (wrapU 32 p) 10); Z.lor 0x82106000 (Z.land (wrapU 32 p) 0x3ff);
     Z.lor 0x05000000 (Z.shiftr (wrapU 32 entry) 10); Z.lor 0x8410a000 (Z.land (wrapU 32 entry) 0x3ff);
     0x81c08000; 0x01000000].

(** ** The call VM *)

Inductive sparc32_vt := gVT_sparc_p.

Record DCCallVM_sparc := { s_mVTpointer : sparc32_vt; s_mError : Z; mVecHead : DCVecHead }.

Definition s_with_vec (v : DCVecHead) (p : DCCallVM_sparc) : DCCallVM_sparc :=
  {| s_mVTpointer := s_mVTpointer p; s_mError := s_mError p; mVecHead := v |}.
Definition s_with_vt (vt : sparc32_vt) (e : Z) (p : DCCallVM_sparc) : DCCallVM_sparc :=
  {| s_mVTpointer := vt; s_mError := e; mVecHead := mVecHead p |}.

(** [dcCall_sparc] is called with the VM itself, whose size and data it takes. *)
Record sparc32_kernel := dcCall_sparc { k_target : Z; k_size : Z; k_data : list Z }.

(** It loads six words in any case, and copies words as long as bytes are left. *)
Definition kernel_enter (k : sparc32_kernel) : option sparc32_cpu :=
  regs ← load_words BigEndian 4 6 0 (k_data k);
  let left := wrapS 32 (k_size k - 24) in
  more ← load_words BigEndian 4 (Z.to_nat ((left + 3) / 4)) 24 (k_data k);
  Some {| outs := regs; cpu_stack := store_words BigEndian 4 more |}.

Section Sparc.
Variable char_signed : bool.
#[local] Hint Extern 0 DataModel => exact (sparc32_dm char_signed) : typeclass_instances.

Definition dc_callvm_free_sparc (_ : DCCallVM_sparc) : unit := tt.
Definition dc_callvm_reset_sparc (self : DCCallVM_sparc) : option DCCallVM_sparc :=
  Some (s_with_vec (dcVecReset (mVecHead self)) self).

Definition s_append (self : DCCallVM_sparc) (bs : list Z) : option DCCallVM_sparc :=
  v ← dcVecAppend (mVecHead self) bs (Z.of_nat (length bs)); Some (s_with_vec v self).

Definition dc_callvm_argInt_sparc (self : DCCallVM_sparc) (x : Z) := s_append self (enc BigEndian 4 x).
Definition dc_callvm_argBool_sparc (self : DCCallVM_sparc) (x : Z) := dc_callvm_argInt_sparc self (conv TInt x).
Definition dc_callvm_argChar_sparc (self : DCCallVM_sparc) (x : Z) := dc_callvm_argInt_sparc self (conv TInt x).
Definition dc_callvm_argShort_sparc (self : DCCallVM_sparc) (x : Z) := dc_callvm_argInt_sparc self (conv TInt x).
Definition dc_callvm_argPointer_sparc (self : DCCallVM_sparc) (x : Z) := s_append self (enc BigEndian 4 x).
Definition dc_callvm_argLong_sparc (self : DCCallVM_sparc) (x : Z) := s_append self (enc BigEndian 4 x).
Definition dc_callvm_argLongLong_sparc (self : DCCallVM_sparc) (x : Z) := s_append self (enc BigEndian 8 x).
Definition dc_callvm_argFloat_sparc (self : DCCallVM_sparc) (x : Z) := s_append self (enc BigEndian 4 x).
Definition dc_callvm_argDouble_sparc (self : DCCallVM_sparc) (x : Z) := s_append self (enc BigEndian 8 x).

Definition call_kernel (self : DCCallVM_sparc) (target : Z) : sparc32_kernel :=
  dcCall_sparc target (dcVecSize (mVecHead self)) (vec_data (mVecHead self)).

Definition dc_callvm_mode_sparc (self : DCCallVM_sparc) (mode : Z) : option DCCallVM_sparc :=
  Some
    (if (mode =? DC_CALL_C_DEFAULT) || (mode =? DC_CALL_C_DEFAULT_THIS) || (mode =? DC_CALL_C_SPARC32)
        || (mode =? DC_CALL_C_ELLIPSIS) || (mode =? DC_CALL_C_ELLIPSIS_VARARGS)
     then s_with_vt gVT_sparc_p DC_ERROR_NONE self
     else s_with_vt (s_mVTpointer self) DC_ERROR_UNSUPPORTED_MODE self).

Definition gVT_sparc : DCCallVM_vt DCCallVM_sparc sparc32_kernel sparc32_ret := Build_DCCallVM_vt
  dc_callvm_free_sparc dc_callvm_reset_sparc dc_callvm_mode_sparc
  dc_callvm_argBool_sparc dc_callvm_argChar_sparc dc_callvm_argShort_sparc dc_callvm_argInt_sparc
  dc_callvm_argLong_sparc dc_callvm_argLongLong_sparc dc_callvm_argFloat_sparc dc_callvm_argDouble_sparc
  dc_callvm_argPointer_sparc
  None (* argAggr *)
  call_kernel call_kernel call_kernel call_kernel call_kernel call_kernel call_kernel call_kernel
  call_kernel call_kernel
  None (* callAggr *)
  None (* beginAggr *).

(** [dcNewCallVM]: [malloc] is the memory behind the header for each size asked for. *)
Definition dcNewCallVM (mem : DCCallVM_sparc) (malloc : Z -> option (list Z)) (size : Z) : option DCCallVM_sparc :=
  let size := Z.max size (4 * (6 + 1)) in
  alloc ← malloc size;
  p ← dc_callvm_mode_sparc mem DC_CALL_C_DEFAULT;
  Some (s_with_vec (dcVecInit alloc size) p).

#[export] Instance sparc32_CallVM : CallVM DCCallVM_sparc sparc32_vt sparc32_kernel sparc32_ret := {
  mVTpointer := s_mVTpointer;
  mError := s_mError;
  Api.deref _ := gVT_sparc;
}.
End Sparc.
