(* ===== verification/Sparc32Proofs.v ===== *)
(** * 32-bit SPARC: calls and callbacks agree

    Vector and reader, registers and stack of a call, and whole calls. *)

From S2P Require Export Sparc32.

Section Sparc.
Variable cs : bool.
#[local] Hint Extern 0 DataModel => exact (sparc32_dm cs) : typeclass_instances.
#[local] Abbreviation C := (sparc32_CallVM cs).
#[local] Abbreviation RD := (sparc32_ArgReader cs).

Lemma arg_size_sizeof t : arg_size t = Z.max 4 (sizeof_cty t).
Proof. by destruct t. Qed.

(** ** Pushing an argument *)

Lemma push_arg_sparc32 vm a :
  exists y, push_arg (C := C) vm a = s_append cs vm (enc BigEndian (Z.to_nat (arg_size (a_ty a))) y) /\
    conv (a_ty a) y = conv (a_ty a) (a_val a).
Proof.
  destruct a as [t x]. cbn [a_ty a_val]. pose proof (conv_api_value t x) as E.
  assert (E4 : conv t (conv TInt (api_value t x)) = conv t x \/ 4 < sizeof_cty t).
  { destruct (decide (sizeof_cty t <= 4)); [left|right; lia]. by rewrite conv_conv by (destruct t; done). }
  destruct t; (eexists; split; [reflexivity|]); cbn [api_value] in *; first [done|exact E|destruct E4 as [E4|[]%Z.lt_nge]; [exact E4|done]].
Qed.

Record s_inv (vm : DCCallVM_sparc) : Prop := {
  si_vec : vec_wf (mVecHead vm) /\ vec_room (mVecHead vm) 0;
  si_word : mSize (mVecHead vm) mod 4 = 0;
  si_bytes : Forall is_byte (vec_data (mVecHead vm));
}.

Definition s_ext (vm vm' : DCCallVM_sparc) : Prop := prefix (vec_bytes (mVecHead vm)) (vec_bytes (mVecHead vm')).

(** The same vector memory, further filled. *)
Definition s_grown (vm vm' : DCCallVM_sparc) : Prop :=
  mTotal (mVecHead vm') = mTotal (mVecHead vm) /\
  length (vec_data (mVecHead vm')) = length (vec_data (mVecHead vm)).

Lemma sparc32_append_ok vm t y :
  s_inv vm -> vec_room (mVecHead vm) (arg_size t) ->
  exists vm', s_append cs vm (enc BigEndian (Z.to_nat (arg_size t)) y) = Some vm' /\ s_inv vm' /\ s_ext vm vm' /\
    s_grown vm vm' /\ mSize (mVecHead vm') = mSize (mVecHead vm) + arg_size t /\
    rd (mSize (mVecHead vm)) (Z.to_nat (arg_size t)) (vec_bytes (mVecHead vm'))
      = Some (enc BigEndian (Z.to_nat (arg_size t)) y).
Proof.
  intros [[Hw H0] Hm Hb] Hr. pose proof (arg_size_cases t) as Hsz.
  destruct (dcVecAppend_ok (mVecHead vm) (enc BigEndian (Z.to_nat (arg_size t)) y) (arg_size t) Hw)
    as (v & Hv & Hwv & Ht & Hs & Hl & Hbs & _); [rewrite length_enc; lia|done|].
  unfold s_append. rewrite length_enc, Z2Nat.id, Hv by lia. cbn [mbind option_bind].
  exists (s_with_vec v vm). split_and!; try done.
  - split; cbn; [split; [done|unfold vec_room in *; lia]| |].
    + rewrite Hs, Z.add_mod, Hm by lia. by destruct Hsz as [-> | ->].
    + eapply dcVecAppend_bytes; [exact Hv|done|apply enc_bytes].
  - unfold s_ext. cbn. rewrite Hbs. by apply prefix_app_r.
  - cbn. rewrite Hbs. apply rd_app; [by rewrite length_vec_bytes|by rewrite length_enc].
Qed.

(** ** Reading it back *)

Definition s_at (vm vf : DCCallVM_sparc) (p : DCArgs) : Prop :=
  arg_ptr p = mSize (mVecHead vm) /\ prefix (vec_bytes (mVecHead vf)) (arg_mem p).

Lemma sparc32_dcbArg_value t x y p :
  val_ok t x -> conv t y = conv t x ->
  rd (arg_ptr p) (Z.to_nat (arg_size t)) (arg_mem p) = Some (enc BigEndian (Z.to_nat (arg_size t)) y) ->
  dcbArg (ArgReader := RD) t p = Some (x, {| arg_ptr := arg_ptr p + arg_size t; arg_mem := arg_mem p |}).
Proof.
  intros Hx%val_ok_conv Hy Hrd. rewrite Hx in Hy.
  assert (Hc : forall t' w, ty_bits t <= ty_bits t' -> ty_bits t <= w -> conv t (conv t' (wrapU w y)) = x)
    by (intros; by rewrite conv_conv, conv_wrapU).
  assert (H2 : is_wide t = true -> rd (arg_ptr p) 4 (arg_mem p) = Some (take 4 (enc BigEndian 8 y)) /\
            rd (arg_ptr p + 4) 4 (arg_mem p) = Some (drop 4 (enc BigEndian 8 y))).
  { intros Hw. unfold arg_size in Hrd. rewrite Hw in Hrd. by apply (rd_split 4 4). }
  destruct t; cbn [dcbArg sparc32_ArgReader];
    unfold dcbArgInt, dcbArgLong, dcbArgULong, dcbArgChar, dcbArgUChar, dcbArgShort, dcbArgUShort, dcbArgBool,
      dcbArgPointer, dcbArgFloat, dcbArgLongLong, dcbArgDouble, dcbArgUInt, dcbArgULongLong, sparc_word, sparc_dword,
      deref, mbind, SO_bind, mret, SO_ret; cbn [arg_ptr arg_mem].
  all: try (change (Z.to_nat (arg_size _)) with 4%nat in Hrd; rewrite Hrd; cbn [option_bind]; rewrite dec_enc;
            do 2 f_equal; first [apply Hc; vm_compute; done|rewrite conv_wrapU by (vm_compute; done); exact Hy]).
  all: destruct (H2 eq_refl) as [E1 E2]; rewrite E1; cbn [option_bind arg_mem]; rewrite E2; cbn [option_bind];
    rewrite take_drop, dec_enc; do 2 f_equal;
    first [apply Hc; vm_compute; done|rewrite conv_wrapU by (vm_compute; done); exact Hy].
Qed.

Lemma sparc32_step vm a :
  s_inv vm -> vec_room (mVecHead vm) (arg_size (a_ty a)) -> arg_ok a ->
  exists vm', push_arg (C := C) vm a = Some vm' /\ s_inv vm' /\ s_ext vm vm' /\
    forall vf p, s_inv vf -> s_ext vm' vf -> s_at vm vf p ->
      exists p', dcbArg (ArgReader := RD) (a_ty a) p = Some (a_val a, p') /\ s_at vm' vf p'.
Proof.
  intros Hi Hr Ha. destruct (push_arg_sparc32 vm a) as (y & -> & Hy).
  destruct (sparc32_append_ok vm (a_ty a) y Hi Hr) as (vm' & -> & Hi' & Hx & _ & Hs & Hrd).
  exists vm'. split_and!; try done. intros vf p _ Hxf [Hp Hpre].
  eexists. split; [apply (sparc32_dcbArg_value _ _ y); [done..|]|].
  - rewrite Hp. eapply rd_prefix; [|exact Hrd]. by etrans.
  - split; cbn; [lia|done].
Qed.

#[export, refine] Instance sparc32_CallConv : CallConv DCCallVM_sparc DCArgs (H := C) (H0 := RD) := {
  cc_inv := s_inv;
  cc_room vm a := vec_room (mVecHead vm) (arg_size (a_ty a));
  cc_ext := s_ext;
  cc_at := s_at;
}.
Proof. { intros. unfold s_ext. done. } { intros a b c. unfold s_ext. by etrans. } exact sparc32_step. Defined.

(** ** Whole argument lists *)

(** The index of the first word of each argument. *)
Fixpoint word_index (k : Z) (ts : list cty) : list Z :=
  match ts with
  | [] => []
  | t :: ts => k :: word_index (k + arg_size t / 4) ts
  end.

Definition in_vector (vf : DCCallVM_sparc) (a : arg) (k : Z) : Prop :=
  exists y, conv (a_ty a) y = conv (a_ty a) (a_val a) /\
    rd (4 * k) (Z.to_nat (arg_size (a_ty a))) (vec_bytes (mVecHead vf))
      = Some (enc BigEndian (Z.to_nat (arg_size (a_ty a))) y).

Lemma push_list_sparc32 l : forall vm k,
  s_inv vm -> mSize (mVecHead vm) = 4 * k -> 4 * k + 8 * Z.of_nat (length l) <= mTotal (mVecHead vm) ->
  exists vf, push_args (C := C) vm l = Some vf /\ s_inv vf /\ s_ext vm vf /\ s_grown vm vf /\
    room_for (CC := sparc32_CallConv) vm l /\ Forall2 (in_vector vf) l (word_index k (map a_ty l)).
Proof.
  induction l as [|a l IH]; intros vm k Hi Hk Hr; [exists vm; split_and!; try done; unfold s_ext; done|].
  cbn [length] in Hr. pose proof (arg_size_cases (a_ty a)) as Hsz.
  assert (Hra : vec_room (mVecHead vm) (arg_size (a_ty a))) by (unfold vec_room; lia).
  destruct (push_arg_sparc32 vm a) as (y & Hpa & Hy).
  destruct (sparc32_append_ok vm (a_ty a) y Hi Hra) as (vm' & Hp & Hi' & Hx & [Ht Hl] & Hs & Hrd). rewrite Hp in Hpa.
  destruct (IH vm' (k + arg_size (a_ty a) / 4) Hi') as (vf & Hpf & Hif & Hxf & [Htf Hlf] & Hroom & Hall).
  { rewrite Hs, Hk. destruct Hsz as [-> | ->]; [change (4 / 4) with 1|change (8 / 4) with 2]; lia. }
  { rewrite Ht. destruct Hsz as [-> | ->]; [change (4 / 4) with 1|change (8 / 4) with 2]; lia. }
  exists vf. cbn [map word_index]. split_and!.
  - unfold push_args. cbn [foldM]. rewrite Hpa. exact Hpf.
  - done.
  - unfold s_ext in *. by etrans.
  - split; congruence.
  - split; [exact Hra|]. intros vm1 H1. assert (H1' : push_arg (C := C) vm a = Some vm1) by exact H1.
    rewrite Hpa in H1'. by injection H1' as <-.
  - constructor; [|done]. exists y. split; [done|]. rewrite <- Hk. by eapply rd_prefix.
Qed.

(** ** Registers and stack of the callee *)

(** Argument word [k] of a call, in a register or on the stack. *)
Definition arg_word (cpu : sparc32_cpu) (k : Z) : option Z :=
  if k <? 6 then aget k (outs cpu) else bs ← rd (4 * (k - 6)) 4 (cpu_stack cpu); Some (dec BigEndian bs).

(** An argument in the words from [k] on, the high word first. *)
Definition arg_in (cpu : sparc32_cpu) (a : arg) (k : Z) : Prop :=
  if is_wide (a_ty a) then
    exists hi lo, arg_word cpu k = Some hi /\ arg_word cpu (k + 1) = Some lo /\
      conv (a_ty a) (lo + 2 ^ 32 * hi) = conv (a_ty a) (a_val a)
  else exists w, arg_word cpu k = Some w /\ conv (a_ty a) w = conv (a_ty a) (a_val a).

Lemma sparc32_kernel_enter_ok target size k :
  24 <= Z.of_nat (length k) < 2 ^ 31 -> Forall is_byte k -> 0 <= size <= Z.of_nat (length k) -> size mod 4 = 0 ->
  exists cpu, kernel_enter (dcCall_sparc target size k) = Some cpu /\
    prefix (take (Z.to_nat size) k) (arg_mem (dcCallbackThunkEntry cpu)) /\
    forall i bs, 0 <= i -> rd (4 * i) 4 (take (Z.to_nat size) k) = Some bs -> arg_word cpu i = Some (dec BigEndian bs).
Proof.
  intros Hl Hb Hs Hm. unfold kernel_enter. cbn [k_data k_size].
  destruct (load_words_copy BigEndian 4 6 0 k Hb) as (regs & Hregs & _ & Hst); [lia..|].
  rewrite Hregs. cbn [mbind option_bind]. rewrite wrapS_id by (unfold in_s; lia).
  set (n := Z.to_nat ((size - 24 + 3) / 4)).
  assert (Hn : (Z.to_nat size <= 24 + n * 4 <= length k)%nat \/ (n = 0 /\ Z.to_nat size <= 24)%nat).
  { pose proof (Z.div_mod size 4 ltac:(lia)) as Hd. rewrite Hm in Hd.
    assert (E : (size - 24 + 3) / 4 = size / 4 - 6) by (symmetry; apply Z.div_unique with 3; lia).
    unfold n. rewrite E. lia. }
  destruct (load_words_copy BigEndian 4 n 24 k Hb) as (more & -> & _ & Hst'); [lia..|]. cbn [mbind option_bind].
  change (Z.to_nat 24) with 24%nat in Hst'.
  eexists. split; [done|]. cbn [dcCallbackThunkEntry arg_mem outs cpu_stack]. rewrite Hst, Hst'. split.
  - change (Z.to_nat 0) with 0%nat. rewrite drop_0. change (6 * 4)%nat with 24%nat. rewrite take_take_drop.
    apply take_prefix_take. lia.
  - intros i bs Hi Hrd. unfold arg_word. cbn [outs cpu_stack]. destruct (Z.ltb_spec i 6).
    + destruct (load_words_aget _ _ _ i _ _ _ Hregs ltac:(lia)) as (bs' & Hrd' & ->).
      apply (rd_prefix _ _ _ k) in Hrd; [|apply prefix_take]. change (0 + Z.of_nat 4 * i) with (4 * i) in Hrd'.
      rewrite Hrd in Hrd'. by injection Hrd' as <-.
    + apply (rd_beyond 24) in Hrd; [|lia]. replace (4 * i - Z.of_nat 24) with (4 * (i - 6)) in Hrd by lia.
      apply (rd_prefix _ _ _ (take (n * 4) (drop 24 k))) in Hrd; [by rewrite Hrd|].
      rewrite skipn_firstn_comm. apply take_prefix_take. lia.
Qed.
End Sparc.
