(* ===== verification/Sparc32Props.v ===== *)
(** * 32-bit SPARC: whole calls *)

From S2P Require Export Sparc32Proofs.

Section Props.
Variable cs : bool.
#[local] Hint Extern 0 DataModel => exact (sparc32_dm cs) : typeclass_instances.
#[local] Abbreviation C := (sparc32_CallVM cs).

(** ** Results *)

(** A callback, entered in state [cpu], that reads arguments and returns a scalar. *)
Definition sparc32_run_callback (ts : list cty) (rt : cty) (f : list arg -> Z) (cpu : sparc32_cpu)
    : option sparc32_ret :=
  '(l, _) ← read_args (RD := sparc32_ArgReader cs) ts (dcCallbackThunkEntry cpu);
  result ← dcvalue_set rt (f l) callback_slot;
  callback_exit result.

Lemma sparc32_result t x :
  val_ok t x -> exists result r, dcvalue_set t x callback_slot = Some result /\ callback_exit result = Some r /\
    ret_value t r = x.
Proof.
  intros Hx%val_ok_conv. unfold dcvalue_set. set (n := Z.to_nat (sizeof_cty t)). set (o := dcvalue_off t).
  assert (Hw : 8 * Z.of_nat n = ty_bits t) by (destruct t; done).
  assert (Hn : (o = 0 /\ n = 8%nat /\ is_wide t = true) \/ (0 <= o /\ o + Z.of_nat n = 4 /\ is_wide t = false))
    by (unfold n, o; destruct t; vm_compute; auto; right; repeat split; done).
  clearbody n o. destruct Hn as [(-> & -> & Hwide)|(Ho & Hon & Hwide)].
  - rewrite wr_all by (by rewrite length_enc). do 2 eexists. split; [done|].
    unfold callback_exit. set (bs := enc BigEndian 8 x).
    assert (H8 : rd 0 8 bs = Some bs) by (rewrite <- (app_nil_r bs) at 1; by apply rd0_app).
    destruct (rd_split 4 4 _ _ _ H8) as [-> H4]. change (0 + Z.of_nat 4) with 4 in H4. rewrite H4.
    cbn [mbind option_bind]. split; [done|]. pose proof (dec_be_app (take 4 bs) (drop 4 bs)) as E.
    rewrite take_drop in E. unfold bs in E at 1. rewrite dec_enc in E.
    change (8 * Z.of_nat (length (drop 4 bs))) with 32 in E.
    unfold ret_value. cbn [ret_f0 ret_f1 ret_o0 ret_o1].
    fold bs. destruct t; try done; rewrite <- E, conv_wrapU; done.
  - pose proof (eq_refl : length callback_slot = 8%nat) as Lc.
    rewrite wr_Some by (rewrite ?length_enc, ?Lc; lia). do 2 eexists. split; [done|]. rewrite length_enc.
    assert (E : take (Z.to_nat o) callback_slot ++ enc BigEndian n x ++ drop (Z.to_nat o + n) callback_slot
                = (take (Z.to_nat o) callback_slot ++ enc BigEndian n x) ++ enc BigEndian 4 0).
    { rewrite <- app_assoc. do 2 f_equal. by replace (Z.to_nat o + n)%nat with 4%nat by lia. }
    rewrite E. set (w := take _ _ ++ enc _ _ _).
    assert (Lw : length w = 4%nat) by (unfold w; rewrite length_app, length_enc, length_take, Lc; lia).
    unfold callback_exit. rewrite (rd0_app w) by done. cbn [mbind option_bind].
    rewrite rd_app by (rewrite ?Lw; done). cbn [mbind option_bind]. split; [done|].
    assert (Hc : conv t (dec BigEndian w) = x).
    { unfold w. rewrite dec_be_app, length_enc, dec_enc.
      assert (dec BigEndian (take (Z.to_nat o) callback_slot) = 0) as ->.
      { assert (Hz : (Z.to_nat o <= 4)%nat) by lia. by destruct (Z.to_nat o) as [|[|[|[|[|k]]]]]; [..|lia]. }
      rewrite Z.mul_0_r, Z.add_0_r, conv_wrapU by lia. done. }
    unfold ret_value. cbn [ret_f0 ret_o0]. destruct t; done.
Qed.

(** ** Whole calls *)

(** What is in the vector is in registers and on the stack. *)
Lemma in_vector_arg vf cpu a k :
  (forall i bs, 0 <= i -> rd (4 * i) 4 (vec_bytes (mVecHead vf)) = Some bs -> arg_word cpu i = Some (dec BigEndian bs)) ->
  in_vector cs vf a k -> arg_in cs cpu a k.
Proof.
  intros Hw (y & Hy & Hrd). pose proof (rd_bound _ _ _ _ Hrd) as [Hk _]. unfold arg_in, arg_size in *.
  destruct (is_wide (a_ty a)) eqn:Ew.
  - destruct (rd_split 4 4 _ _ _ Hrd) as [Hhi Hlo]. replace (4 * k + Z.of_nat 4) with (4 * (k + 1)) in Hlo by lia.
    do 2 eexists. split; [apply Hw; [lia|exact Hhi]|]. split; [apply Hw; [lia|exact Hlo]|]. rewrite <- Hy.
    change (2 ^ 32) with (2 ^ (8 * Z.of_nat (length (drop 4 (enc BigEndian 8 y))))).
    rewrite <- dec_be_app, take_drop, dec_enc, conv_wrapU; [done|]. by destruct (a_ty a).
  - eexists. split; [apply Hw; [lia|exact Hrd]|]. rewrite <- Hy, dec_enc, conv_wrapU; [done|]. by destruct (a_ty a).
Qed.

(** What the VM is allocated with. *)
Record sparc32_alloc (vm : DCCallVM_sparc) : Prop := {
  sa_vec : vec_wf (mVecHead vm) /\ 0 <= mTotal (mVecHead vm);
  sa_data : 24 <= Z.of_nat (length (vec_data (mVecHead vm))) < 2 ^ 31;
  sa_bytes : Forall is_byte (vec_data (mVecHead vm));
}.

(** Every allocation of [dcNewCallVM] is like that, also of no bytes at all. *)
Lemma dcNewCallVM_alloc mem malloc size vm :
  0 <= size -> (forall n m, malloc n = Some m -> Z.of_nat (length m) = n /\ n < 2 ^ 31 /\ Forall is_byte m) ->
  dcNewCallVM mem malloc size = Some vm -> sparc32_alloc vm.
Proof.
  intros Hs Hm. unfold dcNewCallVM. intros (m & Hal & (p & _ & [= <-])%bind_Some)%bind_Some.
  destruct (Hm _ _ Hal) as (Hl & Hlt & Hb).
  constructor; cbn; [split; [constructor; cbn; lia|lia]|lia|done].
Qed.

(** C28: scalar calls on 32-bit SPARC are transparent from end to end, and the
    arguments are where the ABI says.  For every argument list that fits the
    vector, a reset VM, given the arguments, enters the callee with each argument
    in the next one or two words, high word first: the first six words are in
    %o0-%o5, the others on the stack, and a value may be split between the two.
    A callback entered like this reads exactly those arguments, and the caller
    gets its result. *)
Theorem sparc32_scalar_call_end_to_end vm0 l rt f target :
  sparc32_alloc vm0 -> 8 * Z.of_nat (length l) <= mTotal (mVecHead vm0) ->
  Forall arg_ok l -> val_ok rt (f l) ->
  exists vm vf cpu r,
    dcReset (C := C) vm0 = Some vm /\ push_args (C := C) vm l = Some vf /\
    kernel_enter (dcCall_as (C := C) rt vf target) = Some cpu /\
    Forall2 (arg_in cs cpu) l (word_index 0 (map a_ty l)) /\
    sparc32_run_callback (map a_ty l) rt f cpu = Some r /\ ret_value rt r = f l.
Proof.
  intros [[Hw Ht] Hd Hb] Hroom Hl Hf. set (vm := s_with_vec (dcVecReset (mVecHead vm0)) vm0).
  assert (Hi : s_inv cs vm) by (destruct Hw; split; [split; [by split|exact Ht]|done|exact Hb]).
  destruct (push_list_sparc32 cs l vm 0 Hi) as (vf & Hp & Hif & _ & [Htf Hlf] & Hrf & Hall); [done|cbn; lia|].
  destruct (push_args_inv (CC := sparc32_CallConv cs) vm l Hi Hrf Hl) as (vf' & Hp' & _ & _ & Hread).
  rewrite Hp in Hp'. injection Hp' as <-. destruct Hif as [[[Hs0 Ht0 _] H0] Hm Hbf]. unfold vec_room in H0.
  change (length (vec_data (mVecHead vm))) with (length (vec_data (mVecHead vm0))) in Hlf.
  destruct (sparc32_kernel_enter_ok target (mSize (mVecHead vf)) (vec_data (mVecHead vf))) as (cpu & Hk & Hpre & Hword);
    [rewrite Hlf; lia|done|lia|done|].
  destruct (Hread (dcCallbackThunkEntry cpu)) as (p' & Hrd & _); [by split|].
  destruct (sparc32_result rt (f l) Hf) as (result & r & Hset & Hexit & Hret).
  exists vm, vf, cpu, r. split_and!; try done.
  - by destruct rt.
  - eapply Forall2_impl; [exact Hall|]. intros. by eapply in_vector_arg.
  - unfold sparc32_run_callback. rewrite Hrd. cbn [mbind option_bind]. rewrite Hset. exact Hexit.
Qed.
End Props.
