(* ===== verification/Sparc64.v ===== *)
(** * 64-bit SPARC: call VM, kernel, callbacks and argument access
      (dyncall/dyncall_callvm_sparc64.{h,c}, dyncall_call_sparc64.s,
       dyncallback/dyncall_args_sparc64.{h,c}, dyncall_callback_sparc64.{c,s},
       dyncall_thunk_sparc64.c)

    Every argument takes one slot of eight bytes.  The kernel loads the first
    six slots into %o0-%o5 and the first sixteen into %d0-%d30, whatever was
    pushed, so that each argument is in the register of its type. *)

From S2P Require Export Words.

Definition DC_CALL_C_SPARC64 : Z := 21.

Definition sparc64_dm (char_signed : bool) : DataModel := {|
  dm_endian := BigEndian; dm_size_bits := 64; dm_long_bits := 64; dm_char_signed := char_signed
|}.

#[export] Instance sparc64_dm_ok cs : DataModelOk (DM := sparc64_dm cs).
Proof. split; cbn; auto. Qed.

(** ** Argument access in a callback (dyncall_args_sparc64.{h,c}) *)

Definition DCARGS_SPARC64_NUM_DOUBLE_REGS : Z := 16.

(** [arg_ptr] is the memory behind that pointer, [dreg_data] holds bit patterns. *)
Record DCArgs := { arg_ptr : list Z; dreg_data : list Z; i : Z }.

(** [p->i++] *)
Definition next_i (p : DCArgs) : DCArgs := {| arg_ptr := arg_ptr p; dreg_data := dreg_data p; i := i p + 1 |}.

Section Args.
Variable char_signed : bool.
#[local] Hint Extern 0 DataModel => exact (sparc64_dm char_signed) : typeclass_instances.

Definition dcbArgULongLong : SO DCArgs Z := fun p =>
  bs ← rd (8 * i p) 8 (arg_ptr p); Some (conv TULongLong (dec BigEndian bs), next_i p).
Definition dcbArgLongLong : SO DCArgs Z := x ← dcbArgULongLong; mret (conv TLongLong x).
Definition dcbArgULong : SO DCArgs Z := x ← dcbArgULongLong; mret (conv TULong x).
Definition dcbArgLong : SO DCArgs Z := x ← dcbArgULongLong; mret (conv TLong x).
Definition dcbArgUInt : SO DCArgs Z := x ← dcbArgULongLong; mret (conv TUInt x).
Definition dcbArgInt : SO DCArgs Z := x ← dcbArgULongLong; mret (conv TInt x).
Definition dcbArgUChar : SO DCArgs Z := x ← dcbArgULongLong; mret (conv TUChar x).
Definition dcbArgChar : SO DCArgs Z := x ← dcbArgULongLong; mret (conv TChar x).
Definition dcbArgUShort : SO DCArgs Z := x ← dcbArgULongLong; mret (conv TUShort x).
Definition dcbArgShort : SO DCArgs Z := x ← dcbArgULongLong; mret (conv TShort x).
Definition dcbArgBool : SO DCArgs Z := x ← dcbArgULongLong; mret (conv TBool x).
Definition dcbArgPointer : SO DCArgs Z := x ← dcbArgULongLong; mret (conv TPointer x).

Definition dcbArgDouble : SO DCArgs Z := fun p =>
  if i p <? DCARGS_SPARC64_NUM_DOUBLE_REGS
  then d ← aget (i p) (dreg_data p); Some (conv TDouble d, next_i p)
  else bs ← rd (8 * i p) 8 (arg_ptr p); Some (conv TDouble (dec BigEndian bs), next_i p).

(** The second half of a slot: the low word of a register, and four bytes
    further in memory. *)
Definition dcbArgFloat : SO DCArgs Z := fun p =>
  if i p <? DCARGS_SPARC64_NUM_DOUBLE_REGS
  then d ← aget (i p) (dreg_data p); Some (conv TFloat d, next_i p)
  else bs ← rd (8 * i p + 4) 4 (arg_ptr p); Some (conv TFloat (dec BigEndian bs), next_i p).

#[export] Instance sparc64_ArgReader : ArgReader DCArgs := {
  dcbArg t :=
    match t with
    | TBool => dcbArgBool | TChar => dcbArgChar | TUChar => dcbArgUChar
    | TShort => dcbArgShort | TUShort => dcbArgUShort | TInt => dcbArgInt
    | TUInt => dcbArgUInt | TLong => dcbArgLong | TULong => dcbArgULong
    | TLongLong => dcbArgLongLong | TULongLong => dcbArgULongLong
    | TFloat => dcbArgFloat | TDouble => dcbArgDouble
    | TPointer | TString => dcbArgPointer
    end;
}.
End Args.

(** ** Machine state and callbacks *)

(** %o0-%o5, %d0-%d30, and the stack from the seventh argument slot on. *)
Record sparc64_cpu := { outs : list Z; dregs : list Z; cpu_stack : list Z }.

Record DCCallback := { cb_handler : Z; cb_userdata : Z }.

Definition dcbInitCallback2 (signature : list DCsigchar) (handler userdata : Z) : DCCallback :=
  {| cb_handler := handler; cb_userdata := userdata |}.

(** [dcCallbackThunkEntry] spills %i0-%i5 below the other arguments. *)
Definition dcCallbackThunkEntry (cpu : sparc64_cpu) : DCArgs :=
  {| arg_ptr := store_words BigEndian 8 (outs cpu) ++ cpu_stack cpu; dreg_data := dregs cpu; i := 0 |}.

Record sparc64_ret := { ret_o0 : Z; ret_d0 : Z }.

(** Integer members of a [DCValue] are in the low part of it. *)
Definition dcvalue_off {DM : DataModel} (t : cty) : Z :=
  match t with
  | TBool | TChar | TUChar | TShort | TUShort | TInt | TUInt => 8 - sizeof_cty t
  | _ => 0
  end.

Definition dcvalue_set {DM : DataModel} (t : cty) (x : Z) (result : list Z) : option (list Z) :=
  wr (dcvalue_off t) (enc BigEndian (Z.to_nat (sizeof_cty t)) x) result.

Definition callback_slot : list Z := enc BigEndian 8 0.

Definition callback_exit (result : list Z) : option sparc64_ret :=
  bs ← rd 0 8 result; Some {| ret_o0 := dec BigEndian bs; ret_d0 := dec BigEndian bs |}.

(** Where a caller finds a result: a [float] is in %f0, the high half of %d0. *)
Definition ret_value {DM : DataModel} (t : cty) (r : sparc64_ret) : Z :=
  match t with
  | TFloat => conv t (ret_d0 r / 2 ^ 32)
  | TDouble => conv t (ret_d0 r)
  | _ => conv t (ret_o0 r)
  end.

(** [dcbInitThunk] (dyncall_thunk_sparc64.c): the fourteen instructions. *)
Definition dcbInitThunk (p entry : Z) : list Z :=
  let hi x := Z.shiftr (wrapU 64 x) 32 in
  let lo x := wrapU 32 x in
  store_words BigEndian 4
    [Z.lor 0x03000000 (Z.shiftr (hi p) 10); Z.lor 0x82106000 (Z.land (hi p) 0x3ff); 0x83287020;
     Z.lor 0x07000000 (Z.shiftr (lo p) 10); Z.lor 0x8610e000 (Z.land (lo p) 0x3ff); 0x8200c001;
     Z.lor 0x05000000 (Z.shiftr (hi entry) 10); Z.lor 0x8410a000 (Z.land (hi entry) 0x3ff); 0x8528b020;
     Z.lor 0x07000000 (Z.shiftr (lo entry) 10); Z.lor 0x8610e000 (Z.land (lo entry) 0x3ff); 0x8400c002;
     0x81c08000; 0x01000000].

(** ** The call VM *)

Inductive sparc64_vt := gVT_v9_p | gVT_v9_ellipsis_p.

Record DCCallVM_v9 := { s_mVTpointer : sparc64_vt; s_mError : Z; mVecHead : DCVecHead }.

Definition s_with_vec (v : DCVecHead) (p : DCCallVM_v9) : DCCallVM_v9 :=
  {| s_mVTpointer := s_mVTpointer p; s_mError := s_mError p; mVecHead := v |}.
Definition s_with_vt (vt : sparc64_vt) (e : Z) (p : DCCallVM_v9) : DCCallVM_v9 :=
  {| s_mVTpointer := vt; s_mError := e; mVecHead := mVecHead p |}.

Record sparc64_kernel := dcCall_v9 { k_target : Z; k_size : Z; k_data : list Z }.

(** The kernel loads sixteen doubles and six integers from the data in any
    case; whether slots are left to copy is decided on 32 bits ([ble], [bgt]). *)
Definition kernel_enter (k : sparc64_kernel) : option sparc64_cpu :=
  fregs ← load_words BigEndian 8 16 0 (k_data k);
  regs ← load_words BigEndian 8 6 0 (k_data k);
  let left := wrapS 32 (k_size k - 48) in
  more ← load_words BigEndian 8 (Z.to_nat ((left + 7) / 8)) 48 (k_data k);
  Some {| outs := regs; dregs := fregs; cpu_stack := store_words BigEndian 8 more |}.

(** [f2d] converts the bit pattern of a [float] to that of the same [double];
    [uninit] is what the unset half of a union holds. *)
Section V9.
Variable char_signed : bool.
Variable f2d : Z -> Z.
Variable uninit : DCCallVM_v9 -> Z.
#[local] Hint Extern 0 DataModel => exact (sparc64_dm char_signed) : typeclass_instances.

Definition dc_callvm_reset_v9 (self : DCCallVM_v9) : option DCCallVM_v9 :=
  Some (s_with_vec (dcVecResize (mVecHead self) 0) self).
Definition dc_callvm_free_v9 (_ : DCCallVM_v9) : unit := tt.

Definition s_append (self : DCCallVM_v9) (bs : list Z) : option DCCallVM_v9 :=
  v ← dcVecAppend (mVecHead self) bs (Z.of_nat (length bs)); Some (s_with_vec v self).

Definition dc_callvm_argLongLong_v9 (self : DCCallVM_v9) (x : Z) := s_append self (enc BigEndian 8 x).
Definition dc_callvm_argLong_v9 (self : DCCallVM_v9) (x : Z) := dc_callvm_argLongLong_v9 self (conv TLongLong x).
Definition dc_callvm_argInt_v9 (self : DCCallVM_v9) (x : Z) := dc_callvm_argLongLong_v9 self (conv TLongLong x).
Definition dc_callvm_argBool_v9 (self : DCCallVM_v9) (x : Z) := dc_callvm_argLongLong_v9 self (conv TLongLong x).
Definition dc_callvm_argChar_v9 (self : DCCallVM_v9) (x : Z) := dc_callvm_argLongLong_v9 self (conv TLongLong x).
Definition dc_callvm_argShort_v9 (self : DCCallVM_v9) (x : Z) := dc_callvm_argLongLong_v9 self (conv TLongLong x).
Definition dc_callvm_argPointer_v9 (self : DCCallVM_v9) (x : Z) := dc_callvm_argLongLong_v9 self (conv TLongLong x).
Definition dc_callvm_argDouble_v9 (self : DCCallVM_v9) (x : Z) := s_append self (enc BigEndian 8 x).
Definition dc_callvm_argDouble_v9_ellipsis (self : DCCallVM_v9) (x : Z) :=
  dc_callvm_argLongLong_v9 self (conv TLongLong x).
Definition dc_callvm_argFloat_v9_ellipsis (self : DCCallVM_v9) (x : Z) :=
  dc_callvm_argDouble_v9_ellipsis self (f2d x).

(** [u.f[1] = x], and [u.d] is passed. *)
Definition dc_callvm_argFloat_v9 (self : DCCallVM_v9) (x : Z) :=
  dc_callvm_argDouble_v9 self (dec BigEndian (enc BigEndian 4 (uninit self) ++ enc BigEndian 4 x)).

Definition call_kernel (self : DCCallVM_v9) (target : Z) : sparc64_kernel :=
  dcCall_v9 target (dcVecSize (mVecHead self)) (vec_data (mVecHead self)).

Definition dc_callvm_mode_v9 (self : DCCallVM_v9) (mode : Z) : option DCCallVM_v9 :=
  let base_init vt := s_with_vt vt DC_ERROR_NONE self in
  Some
    (if (mode =? DC_CALL_C_DEFAULT) || (mode =? DC_CALL_C_DEFAULT_THIS) || (mode =? DC_CALL_C_SPARC64)
        || (mode =? DC_CALL_C_ELLIPSIS)
     then base_init gVT_v9_p
     else if mode =? DC_CALL_C_ELLIPSIS_VARARGS then base_init gVT_v9_ellipsis_p
     else s_with_vt (s_mVTpointer self) DC_ERROR_UNSUPPORTED_MODE self).

Definition gVT_v9_ellipsis : DCCallVM_vt DCCallVM_v9 sparc64_kernel sparc64_ret := Build_DCCallVM_vt
  dc_callvm_free_v9 dc_callvm_reset_v9 dc_callvm_mode_v9
  dc_callvm_argBool_v9 dc_callvm_argChar_v9 dc_callvm_argShort_v9 dc_callvm_argInt_v9
  dc_callvm_argLong_v9 dc_callvm_argLongLong_v9 dc_callvm_argFloat_v9_ellipsis dc_callvm_argDouble_v9_ellipsis
  dc_callvm_argPointer_v9
  None (* argAggr *)
  call_kernel call_kernel call_kernel call_kernel call_kernel call_kernel call_kernel call_kernel
  call_kernel call_kernel
  None (* callAggr *)
  None (* beginAggr *).

Definition gVT_v9 : DCCallVM_vt DCCallVM_v9 sparc64_kernel sparc64_ret := Build_DCCallVM_vt
  dc_callvm_free_v9 dc_callvm_reset_v9 dc_callvm_mode_v9
  dc_callvm_argBool_v9 dc_callvm_argChar_v9 dc_callvm_argShort_v9 dc_callvm_argInt_v9
  dc_callvm_argLong_v9 dc_callvm_argLongLong_v9 dc_callvm_argFloat_v9 dc_callvm_argDouble_v9
  dc_callvm_argPointer_v9
  None (* argAggr *)
  call_kernel call_kernel call_kernel call_kernel call_kernel call_kernel call_kernel call_kernel
  call_kernel call_kernel
  None (* callAggr *)
  None (* beginAggr *).

(** [dcNewCallVM]: [alloc] is the memory behind the header, of the requested size. *)
Definition dcNewCallVM (mem : DCCallVM_v9) (alloc : option (list Z)) (size : Z) : option DCCallVM_v9 :=
  alloc ← alloc;
  p ← dc_callvm_mode_v9 mem DC_CALL_C_DEFAULT;
  dc_callvm_reset_v9 (s_with_vec (dcVecInit alloc size) p).

#[export] Instance sparc64_CallVM : CallVM DCCallVM_v9 sparc64_vt sparc64_kernel sparc64_ret := {
  mVTpointer := s_mVTpointer;
  mError := s_mError;
  deref v := match v with gVT_v9_p => gVT_v9 | gVT_v9_ellipsis_p => gVT_v9_ellipsis end;
}.
End V9.
