(* ===== verification/Sparc64Proofs.v ===== *)
(** * 64-bit SPARC: calls and callbacks agree

    Vector and reader, registers and stack of a call. *)

From S2P Require Export Sparc64.

Section Sparc.
Variable cs : bool.
Variable f2d : Z -> Z.
Variable uninit : DCCallVM_v9 -> Z.
#[local] Hint Extern 0 DataModel => exact (sparc64_dm cs) : typeclass_instances.
#[local] Abbreviation C := (sparc64_CallVM cs f2d uninit).
#[local] Abbreviation RD := (sparc64_ArgReader cs).

(** ** Pushing an argument *)

(** What the slot of an argument holds: the argument in the low bytes, or the
    [double] a variable [float] argument is promoted to. *)
Definition carries (vt : sparc64_vt) (a : arg) (y : Z) : Prop :=
  match a_ty a, vt with
  | TFloat, gVT_v9_ellipsis_p => wrapU 64 y = wrapU 64 (f2d (a_val a))
  | t, _ => conv t y = conv t (a_val a)
  end.

Lemma push_arg_sparc64 vm a :
  exists y, push_arg (C := C) vm a = s_append cs vm (enc BigEndian 8 y) /\ carries (s_mVTpointer vm) a y.
Proof.
  destruct a as [t x]. unfold carries. cbn [a_ty a_val]. pose proof (conv_api_value t x) as E.
  assert (E8 : conv t (conv TLongLong (api_value t x)) = conv t x) by (rewrite conv_conv; [done|by destruct t]).
  unfold push_arg, dcArgBool, dcArgChar, dcArgShort, dcArgInt, dcArgLong, dcArgLongLong, dcArgPointer,
    dcArgFloat, dcArgDouble, vtable. cbn [a_ty a_val sparc64_CallVM mVTpointer deref].
  destruct (s_mVTpointer vm), t; cbn -[conv]; (eexists; split; [reflexivity|]); cbn [api_value] in *;
    first [exact E8|done|idtac].
  - rewrite dec_be_app, !dec_enc. cbn [conv]. rewrite length_enc. unfold wrapU.
    change (8 * Z.of_nat 4) with 32. rewrite Z.mul_comm, Z.mod_add by done. by rewrite Z.mod_mod.
  - cbn [conv]. by rewrite wrapU_wrapS.
Qed.

Record s_inv (vm : DCCallVM_v9) : Prop := {
  si_vec : vec_wf (mVecHead vm) /\ vec_room (mVecHead vm) 0;
  si_slot : mSize (mVecHead vm) mod 8 = 0;
  si_bytes : Forall is_byte (vec_data (mVecHead vm));
}.

Definition s_ext (vm vm' : DCCallVM_v9) : Prop := prefix (vec_bytes (mVecHead vm)) (vec_bytes (mVecHead vm')).

(** The same VM and vector memory, further filled. *)
Definition s_grown (vm vm' : DCCallVM_v9) : Prop :=
  s_mVTpointer vm' = s_mVTpointer vm /\ mTotal (mVecHead vm') = mTotal (mVecHead vm) /\
  length (vec_data (mVecHead vm')) = length (vec_data (mVecHead vm)).

Lemma sparc64_append_ok vm y :
  s_inv vm -> vec_room (mVecHead vm) 8 ->
  exists vm', s_append cs vm (enc BigEndian 8 y) = Some vm' /\ s_inv vm' /\ s_ext vm vm' /\ s_grown vm vm' /\
    mSize (mVecHead vm') = mSize (mVecHead vm) + 8 /\
    rd (mSize (mVecHead vm)) 8 (vec_bytes (mVecHead vm')) = Some (enc BigEndian 8 y).
Proof.
  intros [[Hw H0] Hm Hb] Hr.
  destruct (dcVecAppend_ok (mVecHead vm) (enc BigEndian 8 y) 8 Hw)
    as (v & Hv & Hwv & Ht & Hs & Hl & Hbs & _); [by rewrite length_enc|done|].
  unfold s_append. rewrite length_enc. change (Z.of_nat 8) with 8. rewrite Hv. cbn [mbind option_bind].
  exists (s_with_vec v vm). split_and!; try done.
  - split; cbn; [split; [done|unfold vec_room in *; lia]| |].
    + by rewrite Hs, Z.add_mod, Hm by lia.
    + eapply dcVecAppend_bytes; [exact Hv|done|apply enc_bytes].
  - unfold s_ext. cbn. rewrite Hbs. by apply prefix_app_r.
  - cbn. rewrite Hbs. apply rd_app; [by rewrite length_vec_bytes|by rewrite length_enc].
Qed.

(** ** Reading it back *)

(** The registers of the callee are the first slots of the vector, its argument
    memory all of them. *)
Record s_at (vm vf : DCCallVM_v9) (p : DCArgs) : Prop := {
  sp_i : 8 * i p = mSize (mVecHead vm);
  sp_mem : prefix (vec_bytes (mVecHead vf)) (arg_ptr p);
  sp_dregs : forall k bs, 0 <= k < 16 -> rd (8 * k) 8 (vec_bytes (mVecHead vf)) = Some bs ->
    aget k (dreg_data p) = Some (dec BigEndian bs);
}.

Lemma sparc64_dcbArg_value t x y p :
  val_ok t x -> conv t y = conv t x -> rd (8 * i p) 8 (arg_ptr p) = Some (enc BigEndian 8 y) ->
  (i p < 16 -> aget (i p) (dreg_data p) = Some (wrapU 64 y)) ->
  dcbArg (ArgReader := RD) t p = Some (x, next_i p).
Proof.
  intros Hx%val_ok_conv Hy Hrd Hd. rewrite Hx in Hy.
  assert (H1 : conv t (wrapU 64 y) = x) by (rewrite conv_wrapU; [done|by destruct t]).
  assert (Hc : forall t', ty_bits t <= ty_bits t' -> conv t (conv t' (wrapU 64 y)) = x)
    by (intros; by rewrite conv_conv).
  assert (H4 : rd (8 * i p + 4) 4 (arg_ptr p) = Some (enc BigEndian 4 y)).
  { destruct (rd_split 4 4 _ _ _ Hrd) as [_ Hlo]. change (Z.of_nat 4) with 4 in Hlo. rewrite Hlo.
    change 8%nat with (4 + 4)%nat. by rewrite enc_be_app. }
  destruct t; cbn [dcbArg sparc64_ArgReader];
    unfold dcbArgInt, dcbArgUInt, dcbArgLong, dcbArgULong, dcbArgChar, dcbArgUChar, dcbArgShort, dcbArgUShort, dcbArgBool,
      dcbArgPointer, dcbArgLongLong, dcbArgULongLong, dcbArgFloat, dcbArgDouble, DCARGS_SPARC64_NUM_DOUBLE_REGS,
      mbind, SO_bind, mret, SO_ret.
  all: try (rewrite Hrd; cbn [option_bind]; rewrite dec_enc; do 2 f_equal; first [apply Hc; vm_compute; done|exact H1]).
  all: destruct (Z.ltb_spec (i p) 16); [rewrite Hd by done; cbn [option_bind]; by rewrite H1|].
  - rewrite H4. cbn [option_bind]. rewrite dec_enc. do 2 f_equal. rewrite conv_wrapU; [exact Hy|done].
  - rewrite Hrd. cbn [option_bind]. rewrite dec_enc. do 2 f_equal. exact H1.
Qed.

(** Variable [float] arguments arrive as [double]s. *)
Definition s_room (vm : DCCallVM_v9) (a : arg) : Prop :=
  vec_room (mVecHead vm) 8 /\ (a_ty a = TFloat -> s_mVTpointer vm = gVT_v9_p).

Lemma sparc64_step vm a :
  s_inv vm -> s_room vm a -> arg_ok a ->
  exists vm', push_arg (C := C) vm a = Some vm' /\ s_inv vm' /\ s_ext vm vm' /\
    forall vf p, s_inv vf -> s_ext vm' vf -> s_at vm vf p ->
      exists p', dcbArg (ArgReader := RD) (a_ty a) p = Some (a_val a, p') /\ s_at vm' vf p'.
Proof.
  intros Hi [Hr Hfl] Ha. destruct (push_arg_sparc64 vm a) as (y & -> & Hy).
  destruct (sparc64_append_ok vm y Hi Hr) as (vm' & -> & Hi' & Hx & _ & Hs & Hrd).
  exists vm'. split_and!; try done. intros vf p _ Hxf [Hp Hpre Hd].
  apply (rd_prefix _ _ _ (vec_bytes (mVecHead vf))) in Hrd; [|done]. rewrite <- Hp in Hrd.
  eexists. split; [apply (sparc64_dcbArg_value _ _ y); [done| | |]|].
  - unfold carries in Hy. destruct (a_ty a); try exact Hy. by rewrite Hfl in Hy.
  - by eapply rd_prefix.
  - intros Hlt. pose proof (rd_bound _ _ _ _ Hrd). by rewrite (Hd (i p) _ ltac:(lia) Hrd), dec_enc.
  - split; cbn; [lia|done|done].
Qed.

#[export, refine] Instance sparc64_CallConv : CallConv DCCallVM_v9 DCArgs (H := C) (H0 := RD) := {
  cc_inv := s_inv;
  cc_room := s_room;
  cc_ext := s_ext;
  cc_at := s_at;
}.
Proof. { intros. unfold s_ext. done. } { intros a b c. unfold s_ext. by etrans. } exact sparc64_step. Defined.

(** ** Whole argument lists *)

Definition in_slot (vf : DCCallVM_v9) (a : arg) (k : Z) : Prop :=
  exists y, carries (s_mVTpointer vf) a y /\ rd (8 * k) 8 (vec_bytes (mVecHead vf)) = Some (enc BigEndian 8 y).

Lemma push_list_sparc64 l : forall vm k,
  s_inv vm -> mSize (mVecHead vm) = 8 * k -> 8 * k + 8 * Z.of_nat (length l) <= mTotal (mVecHead vm) ->
  exists vf, push_args (C := C) vm l = Some vf /\ s_inv vf /\ s_ext vm vf /\ s_grown vm vf /\
    (Forall (fun a => a_ty a = TFloat -> s_mVTpointer vm = gVT_v9_p) l -> room_for (CC := sparc64_CallConv) vm l) /\
    Forall2 (in_slot vf) l (seqZ k (Z.of_nat (length l))).
Proof.
  induction l as [|a l IH]; intros vm k Hi Hk Hr; [exists vm; split_and!; try done; unfold s_ext; done|].
  cbn [length] in Hr. assert (Hra : vec_room (mVecHead vm) 8) by (unfold vec_room; lia).
  destruct (push_arg_sparc64 vm a) as (y & Hpa & Hy).
  destruct (sparc64_append_ok vm y Hi Hra) as (vm' & Hp & Hi' & Hx & (Hv & Ht & Hl) & Hs & Hrd). rewrite Hp in Hpa.
  destruct (IH vm' (k + 1) Hi') as (vf & Hpf & Hif & Hxf & (Hvf & Htf & Hlf) & Hroom & Hall); [lia|lia|].
  exists vf. split_and!.
  - unfold push_args. cbn [foldM]. rewrite Hpa. exact Hpf.
  - done.
  - unfold s_ext in *. by etrans.
  - split_and!; congruence.
  - intros [Hfa Hfl]%Forall_cons. split; [by split|]. intros vm1 H1.
    assert (H1' : push_arg (C := C) vm a = Some vm1) by exact H1. rewrite Hpa in H1'. injection H1' as <-.
    apply Hroom. by rewrite Hv.
  - cbn [length]. rewrite seqZ_cons by lia. replace (Z.pred (Z.of_nat (S (length l)))) with (Z.of_nat (length l)) by lia.
    constructor; [|done]. exists y. rewrite Hvf, Hv. split; [done|]. rewrite <- Hk. by eapply rd_prefix.
Qed.

(** ** Registers and stack of the callee *)

(** Argument slot [k], in an integer register or on the stack. *)
Definition arg_slot (cpu : sparc64_cpu) (k : Z) : option Z :=
  if k <? 6 then aget k (outs cpu) else bs ← rd (8 * (k - 6)) 8 (cpu_stack cpu); Some (dec BigEndian bs).

Lemma sparc64_kernel_enter_ok target size k :
  128 <= Z.of_nat (length k) < 2 ^ 31 -> Forall is_byte k -> 0 <= size <= Z.of_nat (length k) -> size mod 8 = 0 ->
  exists cpu, kernel_enter (dcCall_v9 target size k) = Some cpu /\
    prefix (take (Z.to_nat size) k) (arg_ptr (dcCallbackThunkEntry cpu)) /\
    forall j bs, 0 <= j -> rd (8 * j) 8 (take (Z.to_nat size) k) = Some bs ->
      arg_slot cpu j = Some (dec BigEndian bs) /\ (j < 16 -> aget j (dregs cpu) = Some (dec BigEndian bs)).
Proof.
  intros Hl Hb Hs Hm. unfold kernel_enter. cbn [k_data k_size].
  destruct (load_words_copy BigEndian 8 16 0 k Hb) as (fregs & Hfregs & _ & _); [lia..|].
  destruct (load_words_copy BigEndian 8 6 0 k Hb) as (regs & Hregs & _ & Hst); [lia..|].
  rewrite Hfregs, Hregs. cbn [mbind option_bind]. rewrite wrapS_id by (unfold in_s; lia).
  set (n := Z.to_nat ((size - 48 + 7) / 8)).
  assert (Hn : (Z.to_nat size <= 48 + n * 8 <= length k)%nat \/ (n = 0 /\ Z.to_nat size <= 48)%nat).
  { pose proof (Z.div_mod size 8 ltac:(lia)) as Hd. rewrite Hm in Hd.
    assert (E : (size - 48 + 7) / 8 = size / 8 - 6) by (symmetry; apply Z.div_unique with 7; lia).
    unfold n. rewrite E. lia. }
  destruct (load_words_copy BigEndian 8 n 48 k Hb) as (more & -> & _ & Hst'); [lia..|]. cbn [mbind option_bind].
  change (Z.to_nat 48) with 48%nat in Hst'.
  eexists. split; [done|]. cbn [dcCallbackThunkEntry arg_ptr outs dregs cpu_stack]. rewrite Hst, Hst'. split.
  - change (Z.to_nat 0) with 0%nat. rewrite drop_0. change (6 * 8)%nat with 48%nat. rewrite take_take_drop.
    apply take_prefix_take. lia.
  - intros j bs Hj Hrd. assert (Hk : rd (8 * j) 8 k = Some bs) by (eapply rd_prefix; [apply prefix_take|exact Hrd]).
    assert (Hload : forall m ws, load_words BigEndian 8 m 0 k = Some ws -> j < Z.of_nat m ->
              aget j ws = Some (dec BigEndian bs)).
    { intros m ws Hws Hlt. destruct (load_words_aget _ _ _ j _ _ _ Hws ltac:(lia)) as (bs' & Hrd' & ->).
      change (0 + Z.of_nat 8 * j) with (8 * j) in Hrd'. congruence. }
    split; [|by apply (Hload 16%nat)]. unfold arg_slot. cbn [outs cpu_stack]. destruct (Z.ltb_spec j 6).
    + by apply (Hload 6%nat).
    + apply (rd_beyond 48) in Hrd; [|lia]. replace (8 * j - Z.of_nat 48) with (8 * (j - 6)) in Hrd by lia.
      apply (rd_prefix _ _ _ (take (n * 8) (drop 48 k))) in Hrd; [by rewrite Hrd|].
      rewrite skipn_firstn_comm. apply take_prefix_take. lia.
Qed.
End Sparc.
