(* ===== verification/Sparc64Props.v ===== *)
(** * 64-bit SPARC: whole calls *)

From S2P Require Export Sparc64Proofs.

Section Props.
Variable cs : bool.
Variable f2d : Z -> Z.
Variable uninit : DCCallVM_v9 -> Z.
#[local] Hint Extern 0 DataModel => exact (sparc64_dm cs) : typeclass_instances.
#[local] Abbreviation C := (sparc64_CallVM cs f2d uninit).

(** ** Results *)

(** A callback, entered in state [cpu], that reads arguments and returns a scalar. *)
Definition sparc64_run_callback (ts : list cty) (rt : cty) (f : list arg -> Z) (cpu : sparc64_cpu)
    : option sparc64_ret :=
  '(l, _) ← read_args (RD := sparc64_ArgReader cs) ts (dcCallbackThunkEntry cpu);
  result ← dcvalue_set rt (f l) callback_slot;
  callback_exit result.

Lemma sparc64_result t x :
  val_ok t x -> exists result r, dcvalue_set t x callback_slot = Some result /\ callback_exit result = Some r /\
    ret_value t r = x.
Proof.
  intros Hx%val_ok_conv. unfold dcvalue_set. set (n := Z.to_nat (sizeof_cty t)). set (o := dcvalue_off t).
  assert (Hw : 8 * Z.of_nat n = ty_bits t) by (destruct t; done).
  assert (Hn : 0 <= o /\ (t = TFloat -> o = 0 /\ n = 4%nat) /\ (t <> TFloat -> o + Z.of_nat n = 8))
    by (unfold n, o; destruct t; (split; [done|]; split; [|done]; (done || intros; lia) || intros; discriminate)).
  pose proof (eq_refl : length callback_slot = 8%nat) as Lc. clearbody n o. destruct Hn as (Ho & Hfl & Hint).
  destruct (decide (t = TFloat)) as [->|Ht].
  - destruct (Hfl eq_refl) as [-> ->]. rewrite wr_Some by (rewrite ?length_enc, ?Lc; lia).
    do 2 eexists. split; [done|]. unfold callback_exit. rewrite length_enc.
    change (take (Z.to_nat 0) callback_slot) with (@nil Z).
    change (drop (Z.to_nat 0 + 4) callback_slot) with (enc BigEndian 4 0). cbn [app].
    set (s := enc BigEndian 4 x ++ enc BigEndian 4 0).
    assert (rd 0 8 s = Some s) as -> by (rewrite <- (app_nil_r s) at 1; by apply rd0_app).
    cbn [mbind option_bind]. split; [done|]. unfold ret_value, s. cbn [ret_d0]. rewrite dec_be_app, !dec_enc, length_enc.
    change (wrapU (8 * Z.of_nat 4) 0) with 0. change (8 * Z.of_nat 4) with 32. rewrite Z.add_0_l, Z.mul_comm, Z.div_mul by done.
    by rewrite conv_wrapU.
  - specialize (Hint Ht). rewrite wr_Some by (rewrite ?length_enc, ?Lc; lia). do 2 eexists. split; [done|].
    rewrite length_enc, (drop_ge callback_slot), app_nil_r by (rewrite Lc; lia).
    set (s := take (Z.to_nat o) callback_slot ++ enc BigEndian n x).
    assert (Ls : length s = 8%nat) by (unfold s; rewrite length_app, length_enc, length_take, Lc; lia).
    unfold callback_exit. assert (rd 0 8 s = Some s) as -> by (rewrite <- (app_nil_r s) at 1; by apply rd0_app).
    cbn [mbind option_bind]. split; [done|].
    assert (Hc : conv t (dec BigEndian s) = x).
    { unfold s. rewrite dec_be_app, length_enc, dec_enc.
      assert (dec BigEndian (take (Z.to_nat o) callback_slot) = 0) as ->.
      { assert (Hz : (Z.to_nat o <= 8)%nat) by lia. by destruct (Z.to_nat o) as [|[|[|[|[|[|[|[|[|k]]]]]]]]]; [..|lia]. }
      rewrite Z.mul_0_r, Z.add_0_r, conv_wrapU by lia. done. }
    unfold ret_value. cbn [ret_d0 ret_o0]. by destruct t.
Qed.

(** ** Where the callee finds its arguments *)

(** Fixed [float] and [double] arguments of the first sixteen slots are in the
    register of the slot, everything else in an integer register or on the stack. *)
Definition arg_at (vt : sparc64_vt) (cpu : sparc64_cpu) (t : cty) (k : Z) : option Z :=
  match vt with
  | gVT_v9_p => if is_float t && (k <? 16) then aget k (dregs cpu) else arg_slot cpu k
  | gVT_v9_ellipsis_p => arg_slot cpu k
  end.

Definition arg_in (vt : sparc64_vt) (cpu : sparc64_cpu) (a : arg) (k : Z) : Prop :=
  exists d, arg_at vt cpu (a_ty a) k = Some d /\ carries cs f2d vt a d.

Lemma carries_wrapU vt a y : carries cs f2d vt a y -> carries cs f2d vt a (wrapU 64 y).
Proof.
  unfold carries. destruct (a_ty a), vt; rewrite ?conv_wrapU by (vm_compute; done); try done.
  by rewrite wrapU_wrapU.
Qed.

Lemma in_slot_arg vf cpu a k :
  (forall j bs, 0 <= j -> rd (8 * j) 8 (vec_bytes (mVecHead vf)) = Some bs ->
     arg_slot cpu j = Some (dec BigEndian bs) /\ (j < 16 -> aget j (dregs cpu) = Some (dec BigEndian bs))) ->
  in_slot cs f2d vf a k -> arg_in (s_mVTpointer vf) cpu a k.
Proof.
  intros Hw (y & Hy & Hrd). pose proof (rd_bound _ _ _ _ Hrd) as [Hk _].
  destruct (Hw k _ ltac:(lia) Hrd) as [Hs Hd]. rewrite dec_enc in Hs, Hd. exists (wrapU 64 y).
  split; [|by apply carries_wrapU]. unfold arg_at. destruct (s_mVTpointer vf); [|done].
  destruct (is_float (a_ty a)); [|done]. cbn [andb]. destruct (Z.ltb_spec k 16); [by apply Hd|done].
Qed.

(** ** Whole calls *)

(** What the VM is allocated with: the kernel reads sixteen slots in any case. *)
Record sparc64_alloc (vm : DCCallVM_v9) : Prop := {
  sa_vec : vec_wf (mVecHead vm) /\ 0 <= mTotal (mVecHead vm);
  sa_data : 128 <= Z.of_nat (length (vec_data (mVecHead vm))) < 2 ^ 31;
  sa_bytes : Forall is_byte (vec_data (mVecHead vm));
}.

Lemma dcCall_as_v9 rt vm target :
  dcCall_as (C := C) rt vm target = dcCall_v9 target (mSize (mVecHead vm)) (vec_data (mVecHead vm)).
Proof.
  unfold dcCall_as, dcCallBool, dcCallChar, dcCallShort, dcCallInt, dcCallLong, dcCallLongLong,
    dcCallFloat, dcCallDouble, dcCallPointer, vtable. destruct rt; cbn; by destruct (s_mVTpointer vm).
Qed.

(** C29: scalar calls on 64-bit SPARC are transparent from end to end, and the
    arguments are where the ABI says.  For every argument list that fits a vector
    of at least sixteen slots, a reset VM, given the arguments, enters the callee
    with each argument in the slot of its position: fixed [float] and [double]
    arguments in the register of the slot, a [float] in its low half, variable ones
    promoted to [double] and, like integers, in %o0-%o5 and on the stack.  A callback
    entered like this reads exactly those arguments - with a variable [float] as
    the only exception, which no C function can take - and the caller gets its result. *)
Theorem sparc64_scalar_call_end_to_end vm0 l rt f target :
  sparc64_alloc vm0 -> 8 * Z.of_nat (length l) <= mTotal (mVecHead vm0) ->
  Forall arg_ok l -> val_ok rt (f l) ->
  exists vm vf cpu,
    dcReset (C := C) vm0 = Some vm /\ push_args (C := C) vm l = Some vf /\
    kernel_enter (dcCall_as (C := C) rt vf target) = Some cpu /\
    Forall2 (arg_in (s_mVTpointer vm0) cpu) l (seqZ 0 (Z.of_nat (length l))) /\
    (Forall (fun a => a_ty a = TFloat -> s_mVTpointer vm0 = gVT_v9_p) l ->
     exists r, sparc64_run_callback (map a_ty l) rt f cpu = Some r /\ ret_value rt r = f l).
Proof.
  intros [[Hw Ht] Hd Hb] Hroom Hl Hf. set (vm := s_with_vec (dcVecResize (mVecHead vm0) 0) vm0).
  assert (Hi : s_inv cs vm) by (destruct Hw; split; [split; [by split|exact Ht]|done|exact Hb]).
  destruct (push_list_sparc64 cs f2d uninit l vm 0 Hi)
    as (vf & Hp & Hif & _ & (Hvf & Htf & Hlf) & Hrf & Hall); [done|cbn; lia|].
  destruct Hif as [[[Hs0 Ht0 Hwd] H0] Hm Hbf]. unfold vec_room in H0.
  change (length (vec_data (mVecHead vm))) with (length (vec_data (mVecHead vm0))) in Hlf.
  destruct (sparc64_kernel_enter_ok target (mSize (mVecHead vf)) (vec_data (mVecHead vf))) as (cpu & Hk & Hpre & Hword);
    [rewrite Hlf; lia|done|lia|done|].
  exists vm, vf, cpu. split_and!.
  - unfold dcReset, vtable. cbn. by destruct (s_mVTpointer vm0).
  - done.
  - by rewrite dcCall_as_v9.
  - change (s_mVTpointer vm0) with (s_mVTpointer vm). rewrite <- Hvf. eapply Forall2_impl; [exact Hall|].
    intros. by eapply in_slot_arg.
  - intros Hfl.
    destruct (push_args_inv (CC := sparc64_CallConv cs f2d uninit) vm l Hi (Hrf Hfl) Hl) as (vf' & Hp' & _ & _ & Hread).
    rewrite Hp in Hp'. injection Hp' as <-.
    destruct (Hread (dcCallbackThunkEntry cpu)) as (p' & Hrd & _).
    { split; [done|done|]. cbn. intros k bs Hk' Hrd. destruct (Hword k bs ltac:(lia) Hrd) as [_ Hx]. apply Hx. lia. }
    destruct (sparc64_result rt (f l) Hf) as (result & r & Hset & Hexit & Hret). exists r. split; [|done].
    unfold sparc64_run_callback. rewrite Hrd. cbn [mbind option_bind]. rewrite Hset. exact Hexit.
Qed.

Lemma push_args_length l : forall vm vf,
  0 <= mSize (mVecHead vm) -> push_args (C := C) vm l = Some vf ->
  length (vec_data (mVecHead vf)) = length (vec_data (mVecHead vm)).
Proof.
  induction l as [|a l IH]; intros vm vf Hs Hp; [by injection Hp as <-|].
  apply bind_Some in Hp as (vm1 & H1 & Hp). destruct (push_arg_sparc64 cs f2d uninit vm a) as (y & E & _).
  rewrite E in H1. apply bind_Some in H1 as (v & Hv & [= <-]).
  destruct (dcVecAppend_size (DM := sparc64_dm cs) _ _ _ _ Hs (Nat2Z.is_nonneg _) ltac:(cbn; lia) Hv) as (_ & _ & Hl & H0).
  rewrite (IH (s_with_vec v vm) vf H0 Hp). exact Hl.
Qed.

(** Unlike the 32-bit [dcNewCallVM], the 64-bit one does not round the size up:
    on a VM of less than sixteen slots every call reads beyond the allocation,
    whatever its arguments. *)
Theorem sparc64_small_vm_overread mem alloc size vm l vf rt target :
  Z.of_nat (length alloc) = size -> 0 <= size < 128 ->
  dcNewCallVM mem (Some alloc) size = Some vm -> push_args (C := C) vm l = Some vf ->
  kernel_enter (dcCall_as (C := C) rt vf target) = None.
Proof.
  intros Ha Hs Hnew Hp. injection Hnew as <-. apply push_args_length in Hp; [|done]. cbn in Hp.
  rewrite dcCall_as_v9. unfold kernel_enter. cbn [k_data].
  destruct (load_words BigEndian 8 16 0 (vec_data (mVecHead vf))) as [ws|] eqn:E; [|done].
  destruct (load_words_aget _ _ _ 15 _ _ _ E) as (bs & Hrd & _); [lia|]. apply rd_bound in Hrd. lia.
Qed.
End Props.
