(* ===== verification/SparcExamples.v ===== *)
(** * SPARC: the properties at concrete inputs *)

From S2P Require Import Sparc32Props Sparc64Props.

Lemma cc_bytes n : Forall is_byte (replicate n 0xcc).
Proof. apply Forall_replicate. done. Qed.

Definition ex_vec_sparc (n : nat) : DCVecHead := {| mTotal := Z.of_nat n; mSize := 0; vec_data := replicate n 0xcc |}.

Definition ex_vm_sparc32 : Sparc32.DCCallVM_sparc :=
  {| Sparc32.s_mVTpointer := gVT_sparc_p; Sparc32.s_mError := 0; Sparc32.mVecHead := ex_vec_sparc 64 |}.

(** The [double] takes %o5 and the first word of the stack. *)
Definition ex_args_sparc32 : list arg :=
  [Arg TInt (-7); Arg TLongLong (-2); Arg TUChar 200; Arg TBool 1; Arg TDouble 0x3ff8000000000000; Arg TFloat 0x3f800000].

Lemma sparc32_scalar_call_end_to_end_witness :
  exists vm vf cpu r,
    dcReset (C := sparc32_CallVM true) ex_vm_sparc32 = Some vm /\
    push_args (DM := sparc32_dm true) (C := sparc32_CallVM true) vm ex_args_sparc32 = Some vf /\
    Sparc32.kernel_enter (dcCall_as (C := sparc32_CallVM true) TShort vf 0) = Some cpu /\
    Forall2 (Sparc32Proofs.arg_in true cpu) ex_args_sparc32 [0; 1; 3; 4; 5; 7] /\
    sparc32_run_callback true (map a_ty ex_args_sparc32) TShort (fun _ => -9) cpu = Some r /\
    Sparc32.ret_value (DM := sparc32_dm true) TShort r = -9.
Proof.
  apply (sparc32_scalar_call_end_to_end true ex_vm_sparc32 ex_args_sparc32 TShort (fun _ => -9) 0).
  - constructor; [split; [constructor; cbn; lia|vm_compute; discriminate]|vm_compute; split; [discriminate|reflexivity]|].
    apply cc_bytes.
  - vm_compute. discriminate.
  - repeat (constructor; [first [reflexivity|right; reflexivity]|]). constructor.
  - reflexivity.
Defined.

Definition ex_vm_sparc64 (v : sparc64_vt) : DCCallVM_v9 :=
  {| s_mVTpointer := v; s_mError := 0; mVecHead := ex_vec_sparc 160 |}.

(** Two floating-point arguments behind the integer registers: both are still
    in registers of their own. *)
Definition ex_args_sparc64 : list arg :=
  map (Arg TInt) [1; 2; 3; 4; 5; 6] ++ [Arg TFloat 0x3f800000; Arg TDouble 0x4000000000000000; Arg TChar (-3)].

Lemma sparc64_scalar_call_end_to_end_witness :
  exists vm vf cpu,
    dcReset (C := sparc64_CallVM true (fun x => x) (fun _ => 0xee)) (ex_vm_sparc64 gVT_v9_p) = Some vm /\
    push_args (DM := sparc64_dm true) (C := sparc64_CallVM true (fun x => x) (fun _ => 0xee)) vm ex_args_sparc64 = Some vf /\
    kernel_enter (dcCall_as (C := sparc64_CallVM true (fun x => x) (fun _ => 0xee)) TFloat vf 0) = Some cpu /\
    Forall2 (arg_in true (fun x => x) gVT_v9_p cpu) ex_args_sparc64 (seqZ 0 9) /\
    (Forall (fun a => a_ty a = TFloat -> gVT_v9_p = gVT_v9_p) ex_args_sparc64 ->
     exists r, sparc64_run_callback true (map a_ty ex_args_sparc64) TFloat (fun _ => 0x40400000) cpu = Some r /\
       ret_value (DM := sparc64_dm true) TFloat r = 0x40400000).
Proof.
  apply (sparc64_scalar_call_end_to_end true (fun x => x) (fun _ => 0xee) (ex_vm_sparc64 gVT_v9_p) ex_args_sparc64
           TFloat (fun _ => 0x40400000) 0).
  - constructor; [split; [constructor; cbn; lia|vm_compute; discriminate]|vm_compute; split; [discriminate|reflexivity]|].
    apply cc_bytes.
  - vm_compute. discriminate.
  - repeat (constructor; [reflexivity|]). constructor.
  - reflexivity.
Defined.
