(* ===== verification/Ppc64.v ===== *)
(** * 64-bit PowerPC: call VM, kernels, callbacks and argument access
      (dyncall/dyncall_callvm_ppc64.{h,c}, dyncall_call_ppc64.S,
       dyncallback/dyncall_args_ppc64.{h,c}, dyncall_callback_ppc64.{c,S},
       dyncall_thunk_ppc64.{h,c})

    Every argument has a doubleword of the parameter area.  With version 1 of
    the ELF ABI the area is always filled; with version 2 only from the ninth
    doubleword on, unless a function with variable arguments is called. *)

From S2P Require Export Words Floats.

Definition DC_CALL_C_PPC64 : Z := 23.
Definition DC_CALL_SYS_PPC64 : Z := 211.

(** [DC__ABI_PPC64_ELF_V], which also decides the byte order. *)
Inductive elf_abi := ELFv1 | ELFv2.

#[export] Instance elf_abi_eq_dec : EqDecision elf_abi.
Proof. solve_decision. Defined.

Definition byte_order (v : elf_abi) : endian := match v with ELFv1 => BigEndian | ELFv2 => LittleEndian end.

Definition ppc64_dm (v : elf_abi) (char_signed : bool) : DataModel := {|
  dm_endian := byte_order v; dm_size_bits := 64; dm_long_bits := 64; dm_char_signed := char_signed
|}.

#[export] Instance ppc64_dm_ok v cs : DataModelOk (DM := ppc64_dm v cs).
Proof. split; cbn; auto. Qed.

(** A [float] in a doubleword: its right half in big-endian, its left half in
    little-endian order ([struct sf]); [pad] is the other half. *)
Definition float_slot (v : elf_abi) (pad x : Z) : list Z :=
  match v with
  | ELFv1 => enc BigEndian 4 pad ++ enc BigEndian 4 x
  | ELFv2 => enc LittleEndian 4 x ++ enc LittleEndian 4 pad
  end.

Definition float_of_slot (v : elf_abi) (bs : list Z) : Z :=
  match v with ELFv1 => dec BigEndian (drop 4 bs) | ELFv2 => dec LittleEndian (take 4 bs) end.

(** ** Argument access in a callback (dyncall_args_ppc64.{h,c})

    [stackptr] is the offset in the parameter area of the caller. *)

Record DCArgs := {
  ireg_data : list Z;
  freg_data : list Z;
  stackptr : Z;
  ireg_count : Z;
  freg_count : Z;
  par_mem : list Z;
}.

Definition after_arg (ic fc : Z) (p : DCArgs) : DCArgs :=
  {| ireg_data := ireg_data p; freg_data := freg_data p; stackptr := stackptr p + 8;
     ireg_count := ic; freg_count := fc; par_mem := par_mem p |}.

Section Args.
Variable v : elf_abi.
Variable char_signed : bool.
#[local] Hint Extern 0 DataModel => exact (ppc64_dm v char_signed) : typeclass_instances.

Definition dcbArgLongLong : SO DCArgs Z := fun p =>
  if ireg_count p <? 8
  then x ← aget (ireg_count p) (ireg_data p);
       Some (conv TLongLong x, after_arg (ireg_count p + 1) (freg_count p) p)
  else bs ← rd (stackptr p) 8 (par_mem p);
       Some (conv TLongLong (dec (byte_order v) bs), after_arg (ireg_count p) (freg_count p) p).

Definition dcbArgInt : SO DCArgs Z := x ← dcbArgLongLong; mret (conv TInt x).
Definition dcbArgUInt : SO DCArgs Z := x ← dcbArgLongLong; mret (conv TUInt x).
Definition dcbArgULongLong : SO DCArgs Z := x ← dcbArgLongLong; mret (conv TULongLong x).
Definition dcbArgLong : SO DCArgs Z := x ← dcbArgLongLong; mret (conv TLong x).
Definition dcbArgULong : SO DCArgs Z := x ← dcbArgLongLong; mret (conv TULong x).
Definition dcbArgChar : SO DCArgs Z := x ← dcbArgLongLong; mret (conv TChar x).
Definition dcbArgUChar : SO DCArgs Z := x ← dcbArgLongLong; mret (conv TUChar x).
Definition dcbArgShort : SO DCArgs Z := x ← dcbArgLongLong; mret (conv TShort x).
Definition dcbArgUShort : SO DCArgs Z := x ← dcbArgLongLong; mret (conv TUShort x).
Definition dcbArgBool : SO DCArgs Z := x ← dcbArgLongLong; mret (conv TBool x).
Definition dcbArgPointer : SO DCArgs Z := x ← dcbArgLongLong; mret (conv TPointer x).

(** A floating-point register stands for an integer register as well. *)
Definition skip_int (ic : Z) : Z := if ic <? 8 then ic + 1 else ic.

Definition dcbArgDouble : SO DCArgs Z := fun p =>
  if freg_count p <? 13
  then x ← aget (freg_count p) (freg_data p);
       Some (conv TDouble x, after_arg (skip_int (ireg_count p)) (freg_count p + 1) p)
  else bs ← rd (stackptr p) 8 (par_mem p);
       Some (conv TDouble (dec (byte_order v) bs), after_arg (ireg_count p) (freg_count p) p).

Definition dcbArgFloat : SO DCArgs Z := fun p =>
  if freg_count p <? 13
  then x ← aget (freg_count p) (freg_data p);
       Some (conv TFloat (d2f x), after_arg (skip_int (ireg_count p)) (freg_count p + 1) p)
  else bs ← rd (stackptr p) 8 (par_mem p);
       Some (conv TFloat (float_of_slot v bs), after_arg (ireg_count p) (freg_count p) p).

#[export] Instance ppc64_ArgReader : ArgReader DCArgs := {
  dcbArg t :=
    match t with
    | TBool => dcbArgBool | TChar => dcbArgChar | TUChar => dcbArgUChar
    | TShort => dcbArgShort | TUShort => dcbArgUShort | TInt => dcbArgInt
    | TUInt => dcbArgUInt | TLong => dcbArgLong | TULong => dcbArgULong
    | TLongLong => dcbArgLongLong | TULongLong => dcbArgULongLong
    | TFloat => dcbArgFloat | TDouble => dcbArgDouble
    | TPointer | TString => dcbArgPointer
    end;
}.
End Args.

(** ** Machine state and callbacks *)

(** r3-r10, f1-f13, and the parameter area of the caller. *)
Record ppc64_cpu := { gprs : list Z; fprs : list Z; par_area : list Z }.

Record DCCallback := { cb_handler : Z; cb_userdata : Z }.

Definition dcbInitCallback2 (signature : list DCsigchar) (handler userdata : Z) : DCCallback :=
  {| cb_handler := handler; cb_userdata := userdata |}.

Definition dcCallbackThunkEntry (cpu : ppc64_cpu) : DCArgs :=
  {| ireg_data := gprs cpu; freg_data := fprs cpu; stackptr := 0; ireg_count := 0; freg_count := 0;
     par_mem := par_area cpu |}.

(** r3, and f1, which holds a [float] in the format of a [double]. *)
Record ppc64_ret := { ret_r3 : Z; ret_f1 : Z }.

(** Integer members of a big-endian [DCValue] are in the low part of it. *)
Definition dcvalue_off (v : elf_abi) {DM : DataModel} (t : cty) : Z :=
  match v, t with
  | ELFv1, (TBool | TChar | TUChar | TShort | TUShort | TInt | TUInt) => 8 - sizeof_cty t
  | _, _ => 0
  end.

Definition dcvalue_set (v : elf_abi) {DM : DataModel} (t : cty) (x : Z) (result : list Z) : option (list Z) :=
  wr (dcvalue_off v t) (enc (byte_order v) (Z.to_nat (sizeof_cty t)) x) result.

(** The entry clears the [DCValue], and loads what the result character says
    ([r0]: the registers as the handler left them). *)
Definition callback_slot (v : elf_abi) : list Z := enc (byte_order v) 8 0.

Definition callback_exit (v : elf_abi) (r0 : ppc64_ret) (ch : DCsigchar) (result : list Z) : option ppc64_ret :=
  if Ascii.eqb ch DC_SIGCHAR_FLOAT then
    bs ← rd 0 4 result; Some {| ret_r3 := ret_r3 r0; ret_f1 := f2d (dec (byte_order v) bs) |}
  else if Ascii.eqb ch DC_SIGCHAR_DOUBLE then
    bs ← rd 0 8 result; Some {| ret_r3 := ret_r3 r0; ret_f1 := dec (byte_order v) bs |}
  else
    bs ← rd 0 8 result; Some {| ret_r3 := dec (byte_order v) bs; ret_f1 := ret_f1 r0 |}.

(** Where a caller finds a result of each type. *)
Definition ret_value {DM : DataModel} (t : cty) (r : ppc64_ret) : Z :=
  match t with
  | TFloat => conv t (d2f (ret_f1 r))
  | TDouble => conv t (ret_f1 r)
  | _ => conv t (ret_r3 r)
  end.

(** [dcbInitThunk] (dyncall_thunk_ppc64.c); [spare] is what the unused
    instruction words hold, [desc] reads the function descriptor [entry]
    points to with version 1. *)
Definition HIST16 (x : Z) : Z := wrapU 16 (Z.shiftr x 48).
Definition HIER16 (x : Z) : Z := wrapU 16 (Z.shiftr x 32).
Definition HI16 (x : Z) : Z := wrapU 16 (Z.shiftr x 16).
Definition LO16 (x : Z) : Z := wrapU 16 x.

Definition dcbInitThunk (v : elf_abi) (spare : list Z) (desc : Z -> Z) (p entry : Z) : list Z :=
  match v with
  | ELFv1 =>
    let thunk_entry := p + 16 in
    enc BigEndian 8 thunk_entry ++ enc BigEndian 8 (Z.land thunk_entry 0xffffffff00000000)
    ++ enc BigEndian 2 0x644b ++ enc BigEndian 2 (HI16 p) ++ enc BigEndian 2 0x616b ++ enc BigEndian 2 (LO16 p)
    ++ store_words BigEndian 4 [0xe98b0030; 0xe84b0038; 0x7d8903a6; 0x4e800420] ++ spare
    ++ enc BigEndian 8 (desc entry) ++ enc BigEndian 8 (desc (entry + 8))
  | ELFv2 =>
    let short := enc LittleEndian 2 in
    short (HIST16 p) ++ short 0x3d60 ++ short (HIER16 p) ++ short 0x616b ++ enc LittleEndian 4 0x796b07c6
    ++ short (HI16 p) ++ short 0x656b ++ short (LO16 p) ++ short 0x616b
    ++ store_words LittleEndian 4 [0xe98b0028; 0x7d8903a6; 0x4e800420] ++ spare
    ++ enc LittleEndian 8 entry
  end.

(** ** The call VM *)

(** The table for variable arguments exists with version 2 only. *)
Inductive ppc64_vt := gVT_ppc64_p | gVT_ppc64_ellipsis_p | gVT_ppc64_syscall_p.

Record DCCallVM_ppc64 := {
  p_vt : ppc64_vt; p_mError : Z;
  mIntRegs : Z; mFloatRegs : Z;
  mIntData : list Z; mFloatData : list Z;
  mVecHead : DCVecHead;
}.

Definition p_with_vt (v : ppc64_vt) (e : Z) (p : DCCallVM_ppc64) : DCCallVM_ppc64 :=
  {| p_vt := v; p_mError := e; mIntRegs := mIntRegs p; mFloatRegs := mFloatRegs p;
     mIntData := mIntData p; mFloatData := mFloatData p; mVecHead := mVecHead p |}.
Definition p_with_vec (w : DCVecHead) (p : DCCallVM_ppc64) : DCCallVM_ppc64 :=
  {| p_vt := p_vt p; p_mError := p_mError p; mIntRegs := mIntRegs p; mFloatRegs := mFloatRegs p;
     mIntData := mIntData p; mFloatData := mFloatData p; mVecHead := w |}.
Definition p_with_regs (ic fc : Z) (p : DCCallVM_ppc64) : DCCallVM_ppc64 :=
  {| p_vt := p_vt p; p_mError := p_mError p; mIntRegs := ic; mFloatRegs := fc;
     mIntData := mIntData p; mFloatData := mFloatData p; mVecHead := mVecHead p |}.

(** [mIntData[mIntRegs++] = x] and [mFloatData[mFloatRegs++] = x] *)
Definition put_int (x : Z) (p : DCCallVM_ppc64) : option DCCallVM_ppc64 :=
  d ← aset (mIntRegs p) x (mIntData p);
  Some {| p_vt := p_vt p; p_mError := p_mError p; mIntRegs := mIntRegs p + 1; mFloatRegs := mFloatRegs p;
          mIntData := d; mFloatData := mFloatData p; mVecHead := mVecHead p |}.
Definition put_float (x : Z) (p : DCCallVM_ppc64) : option DCCallVM_ppc64 :=
  d ← aset (mFloatRegs p) x (mFloatData p);
  Some {| p_vt := p_vt p; p_mError := p_mError p; mIntRegs := mIntRegs p; mFloatRegs := mFloatRegs p + 1;
          mIntData := mIntData p; mFloatData := d; mVecHead := mVecHead p |}.

(** The kernels get the register data, and the size and the bytes of the vector. *)
Inductive ppc64_kernel :=
  | dcCall_ppc64 (target : Z) (ints floats : list Z) (stksize : Z) (stkdata : list Z)
  | dcCall_ppc64_syscall (target : Z) (ints floats : list Z) (stksize : Z) (stkdata : list Z).

(** The kernel copies whole doublewords, counted on 32 bits, and loads all
    registers; the system call takes its number and five of them. *)
Definition kernel_enter (v : elf_abi) (k : ppc64_kernel) : option ppc64_cpu :=
  match k with
  | dcCall_ppc64 _ ints floats stksize stkdata =>
    ws ← load_words (byte_order v) 8 (Z.to_nat (wrapU 32 stksize / 8)) 0 stkdata;
    Some {| gprs := ints; fprs := floats; par_area := store_words (byte_order v) 8 ws |}
  | dcCall_ppc64_syscall _ _ _ _ _ => None
  end.

Definition syscall_enter (k : ppc64_kernel) : option (Z * list Z) :=
  match k with
  | dcCall_ppc64_syscall target ints _ _ _ => Some (target, take 5 ints)
  | dcCall_ppc64 _ _ _ _ _ => None
  end.

Section Ppc64.
Variable v : elf_abi.
Variable char_signed : bool.
(** What the unset half of a [struct sf] holds. *)
Variable uninit : DCCallVM_ppc64 -> Z.
#[local] Hint Extern 0 DataModel => exact (ppc64_dm v char_signed) : typeclass_instances.

Definition dc_callvm_free_ppc64 (_ : DCCallVM_ppc64) : unit := tt.
Definition dc_callvm_reset_ppc64 (self : DCCallVM_ppc64) : option DCCallVM_ppc64 :=
  Some (p_with_regs 0 0 (p_with_vec (dcVecReset (mVecHead self)) self)).

Definition p_append (self : DCCallVM_ppc64) (bs : list Z) : option DCCallVM_ppc64 :=
  w ← dcVecAppend (mVecHead self) bs (Z.of_nat (length bs)); Some (p_with_vec w self).

(** [if (dcVecSize(..) == 0) dcVecSkip(.., n)] *)
Definition p_skip (n : Z) (self : DCCallVM_ppc64) : DCCallVM_ppc64 :=
  if dcVecSize (mVecHead self) =? 0 then p_with_vec (dcVecSkip (mVecHead self) n) self else self.

(** The end of the functions without variable arguments. *)
Definition push_slot (self : DCCallVM_ppc64) (bs : list Z) : option DCCallVM_ppc64 :=
  p_append (match v with ELFv1 => self | ELFv2 => p_skip 64 self end) bs.

Definition dc_callvm_argDouble_ppc64 (self : DCCallVM_ppc64) (d : Z) : option DCCallVM_ppc64 :=
  let bs := enc (byte_order v) 8 d in
  if mFloatRegs self <? 13 then
    self ← put_float d self;
    if mIntRegs self <? 8 then
      self ← put_int (conv TLongLong d) self;
      match v with ELFv2 => Some self | ELFv1 => push_slot self bs end
    else push_slot self bs
  else push_slot self bs.

Definition dc_callvm_argDouble_ppc64_ellipsis (self : DCCallVM_ppc64) (d : Z) : option DCCallVM_ppc64 :=
  let self := p_skip (8 * mIntRegs self) self in
  self ← (if mFloatRegs self <? 13 then
            self ← put_float d self;
            if mIntRegs self <? 8 then put_int (conv TLongLong d) self else Some self
          else Some self);
  p_append self (enc (byte_order v) 8 d).

Definition dc_callvm_argFloat_ppc64 (self : DCCallVM_ppc64) (f : Z) : option DCCallVM_ppc64 :=
  let d := f2d f in
  let sf := float_slot v (uninit self) f in
  if mFloatRegs self <? 13 then
    self ← put_float d self;
    if mIntRegs self <? 8 then
      self ← put_int (conv TLongLong d) self;
      match v with ELFv2 => Some self | ELFv1 => push_slot self sf end
    else push_slot self sf
  else push_slot self sf.

Definition dc_callvm_argLongLong_ppc64 (self : DCCallVM_ppc64) (L : Z) : option DCCallVM_ppc64 :=
  let bs := enc (byte_order v) 8 L in
  if mIntRegs self <? 8 then
    self ← put_int L self;
    match v with ELFv2 => Some self | ELFv1 => push_slot self bs end
  else push_slot self bs.

Definition dc_callvm_argLongLong_ppc64_ellipsis (self : DCCallVM_ppc64) (L : Z) : option DCCallVM_ppc64 :=
  let self := p_skip (8 * mIntRegs self) self in
  self ← (if mIntRegs self <? 8 then put_int L self else Some self);
  p_append self (enc (byte_order v) 8 L).

(** [dcArgLongLong] and [dcArgDouble] of the API, which the promoting functions
    call, go through the table of the VM again. *)
Definition is_ellipsis (self : DCCallVM_ppc64) : bool :=
  match v, p_vt self with ELFv2, gVT_ppc64_ellipsis_p => true | _, _ => false end.
Definition again_LongLong (self : DCCallVM_ppc64) (L : Z) : option DCCallVM_ppc64 :=
  if is_ellipsis self then dc_callvm_argLongLong_ppc64_ellipsis self L else dc_callvm_argLongLong_ppc64 self L.
Definition again_Double (self : DCCallVM_ppc64) (d : Z) : option DCCallVM_ppc64 :=
  if is_ellipsis self then dc_callvm_argDouble_ppc64_ellipsis self d else dc_callvm_argDouble_ppc64 self d.

Definition dc_callvm_argInt_ppc64 (self : DCCallVM_ppc64) (x : Z) := again_LongLong self (conv TLongLong x).
Definition dc_callvm_argBool_ppc64 (self : DCCallVM_ppc64) (x : Z) := again_LongLong self (conv TLongLong x).
Definition dc_callvm_argChar_ppc64 (self : DCCallVM_ppc64) (x : Z) := again_LongLong self (conv TLongLong x).
Definition dc_callvm_argShort_ppc64 (self : DCCallVM_ppc64) (x : Z) := again_LongLong self (conv TLongLong x).
Definition dc_callvm_argLong_ppc64 (self : DCCallVM_ppc64) (x : Z) := again_LongLong self (conv TLongLong x).
Definition dc_callvm_argPointer_ppc64 (self : DCCallVM_ppc64) (x : Z) := again_LongLong self (conv TLongLong x).
Definition dc_callvm_argFloat_ppc64_ellipsis (self : DCCallVM_ppc64) (f : Z) := again_Double self (f2d f).

(** A call fills the parameter area up to eight doublewords. *)
Definition dc_callvm_call_ppc64 (self : DCCallVM_ppc64) (target : Z) : ppc64_kernel :=
  let size := wrapS 32 (dcVecSize (mVecHead self)) in
  let w := if size <? 64 then dcVecSkip (mVecHead self) (64 - size) else mVecHead self in
  dcCall_ppc64 target (mIntData self) (mFloatData self) (dcVecSize w) (vec_data w).

Definition dc_callvm_call_ppc64_syscall (self : DCCallVM_ppc64) (target : Z) : ppc64_kernel :=
  dcCall_ppc64_syscall target (mIntData self) (mFloatData self) (dcVecSize (mVecHead self)) (vec_data (mVecHead self)).

Definition dc_callvm_mode_ppc64 (self : DCCallVM_ppc64) (mode : Z) : option DCCallVM_ppc64 :=
  let base_init vt := p_with_vt vt DC_ERROR_NONE self in
  Some
    (if (mode =? DC_CALL_C_DEFAULT) || (mode =? DC_CALL_C_DEFAULT_THIS) || (mode =? DC_CALL_C_PPC64)
        || (mode =? DC_CALL_C_ELLIPSIS)
     then base_init gVT_ppc64_p
     else if mode =? DC_CALL_C_ELLIPSIS_VARARGS
     then base_init (match v with ELFv2 => gVT_ppc64_ellipsis_p | ELFv1 => gVT_ppc64_p end)
     else if (mode =? DC_CALL_SYS_DEFAULT) || (mode =? DC_CALL_SYS_PPC64) then base_init gVT_ppc64_syscall_p
     else p_with_vt (p_vt self) DC_ERROR_UNSUPPORTED_MODE self).

Definition gVT_ppc64 : DCCallVM_vt DCCallVM_ppc64 ppc64_kernel ppc64_ret := Build_DCCallVM_vt
  dc_callvm_free_ppc64 dc_callvm_reset_ppc64 dc_callvm_mode_ppc64
  dc_callvm_argBool_ppc64 dc_callvm_argChar_ppc64 dc_callvm_argShort_ppc64 dc_callvm_argInt_ppc64
  dc_callvm_argLong_ppc64 dc_callvm_argLongLong_ppc64 dc_callvm_argFloat_ppc64 dc_callvm_argDouble_ppc64
  dc_callvm_argPointer_ppc64
  None (* argAggr *)
  dc_callvm_call_ppc64 dc_callvm_call_ppc64 dc_callvm_call_ppc64 dc_callvm_call_ppc64 dc_callvm_call_ppc64
  dc_callvm_call_ppc64 dc_callvm_call_ppc64 dc_callvm_call_ppc64 dc_callvm_call_ppc64 dc_callvm_call_ppc64
  None (* callAggr *)
  None (* beginAggr *).

Definition gVT_ppc64_ellipsis : DCCallVM_vt DCCallVM_ppc64 ppc64_kernel ppc64_ret := Build_DCCallVM_vt
  dc_callvm_free_ppc64 dc_callvm_reset_ppc64 dc_callvm_mode_ppc64
  dc_callvm_argBool_ppc64 dc_callvm_argChar_ppc64 dc_callvm_argShort_ppc64 dc_callvm_argInt_ppc64
  dc_callvm_argLong_ppc64 dc_callvm_argLongLong_ppc64_ellipsis dc_callvm_argFloat_ppc64_ellipsis
  dc_callvm_argDouble_ppc64_ellipsis dc_callvm_argPointer_ppc64
  None (* argAggr *)
  dc_callvm_call_ppc64 dc_callvm_call_ppc64 dc_callvm_call_ppc64 dc_callvm_call_ppc64 dc_callvm_call_ppc64
  dc_callvm_call_ppc64 dc_callvm_call_ppc64 dc_callvm_call_ppc64 dc_callvm_call_ppc64 dc_callvm_call_ppc64
  None (* callAggr *)
  None (* beginAggr *).

Definition gVT_ppc64_syscall : DCCallVM_vt DCCallVM_ppc64 ppc64_kernel ppc64_ret := Build_DCCallVM_vt
  dc_callvm_free_ppc64 dc_callvm_reset_ppc64 dc_callvm_mode_ppc64
  dc_callvm_argBool_ppc64 dc_callvm_argChar_ppc64 dc_callvm_argShort_ppc64 dc_callvm_argInt_ppc64
  dc_callvm_argLong_ppc64 dc_callvm_argLongLong_ppc64 dc_callvm_argFloat_ppc64 dc_callvm_argDouble_ppc64
  dc_callvm_argPointer_ppc64
  None (* argAggr *)
  dc_callvm_call_ppc64_syscall dc_callvm_call_ppc64_syscall dc_callvm_call_ppc64_syscall
  dc_callvm_call_ppc64_syscall dc_callvm_call_ppc64_syscall dc_callvm_call_ppc64_syscall
  dc_callvm_call_ppc64_syscall dc_callvm_call_ppc64_syscall dc_callvm_call_ppc64_syscall
  dc_callvm_call_ppc64_syscall
  None (* callAggr *)
  None (* beginAggr *).

(** [dcNewCallVM]: [alloc] is the memory behind the header, of the requested size. *)
Definition dcNewCallVM (mem : DCCallVM_ppc64) (alloc : option (list Z)) (size : Z) : option DCCallVM_ppc64 :=
  alloc ← alloc;
  p ← dc_callvm_mode_ppc64 mem DC_CALL_C_DEFAULT;
  dc_callvm_reset_ppc64 (p_with_vec (dcVecInit alloc size) p).

#[export] Instance ppc64_CallVM : CallVM DCCallVM_ppc64 ppc64_vt ppc64_kernel ppc64_ret := {
  mVTpointer := p_vt;
  mError := p_mError;
  deref t :=
    match v, t with
    | ELFv2, gVT_ppc64_ellipsis_p => gVT_ppc64_ellipsis
    | _, gVT_ppc64_syscall_p => gVT_ppc64_syscall
    | _, _ => gVT_ppc64
    end;
}.
End Ppc64.
