(* ===== verification/Ppc64Proofs.v ===== *)
(** * 64-bit PowerPC: calls and callbacks agree

    An argument has a number, its doubleword in the parameter area, and, if it
    is a floating-point one, the number of its register.  The VM keeps the
    first in its integer register counter and in the fill level of its vector
    ([slots]), the reader in its stack pointer. *)

From S2P Require Export Ppc64.

Section Ppc64.
Variable v : elf_abi.
Variable cs : bool.
Variable uninit : DCCallVM_ppc64 -> Z.
#[local] Hint Extern 0 DataModel => exact (ppc64_dm v cs) : typeclass_instances.
#[local] Abbreviation C := (ppc64_CallVM v cs uninit).
#[local] Abbreviation RD := (ppc64_ArgReader v cs).

(** ** VM states *)

Definition slots (vm : DCCallVM_ppc64) : Z :=
  if mSize (mVecHead vm) =? 0 then mIntRegs vm else mSize (mVecHead vm) / 8.

(** The parameter area is filled from its start. *)
Definition mirrored (vm : DCCallVM_ppc64) : bool := match v with ELFv1 => true | ELFv2 => is_ellipsis v vm end.

Record p_inv (vm : DCCallVM_ppc64) : Prop := {
  pi_vec : vec_wf (mVecHead vm) /\ vec_room (mVecHead vm) 0;
  pi_bytes : Forall is_byte (vec_data (mVecHead vm));
  pi_slot : mSize (mVecHead vm) mod 8 = 0;
  pi_ints : mIntRegs vm = Z.min 8 (slots vm) /\ 0 <= slots vm;
  pi_floats : 0 <= mFloatRegs vm <= 13 /\ mFloatRegs vm <= slots vm;
  pi_len : length (mIntData vm) = 8%nat /\ length (mFloatData vm) = 13%nat;
  pi_area : (v = ELFv1 -> mSize (mVecHead vm) = 8 * slots vm) /\
            (mirrored vm = false -> mSize (mVecHead vm) <> 0 -> 8 <= slots vm);
}.

Record p_ext (vm vm' : DCCallVM_ppc64) : Prop := {
  px_bytes : prefix (vec_bytes (mVecHead vm)) (vec_bytes (mVecHead vm'));
  px_ints : mIntRegs vm <= mIntRegs vm' /\
            forall k, 0 <= k < mIntRegs vm -> aget k (mIntData vm') = aget k (mIntData vm);
  px_floats : mFloatRegs vm <= mFloatRegs vm' /\
              forall k, 0 <= k < mFloatRegs vm -> aget k (mFloatData vm') = aget k (mFloatData vm);
}.

Lemma p_ext_refl vm : p_ext vm vm.
Proof. by split. Qed.

Lemma p_ext_trans a b c : p_ext a b -> p_ext b c -> p_ext a c.
Proof.
  intros [H1 [H2 H3] [H4 H5]] [G1 [G2 G3] [G4 G5]]. split; [by etrans|split; [lia|]..]; intros k Hk.
  - by rewrite G3, H3 by lia.
  - by rewrite G5, H5 by lia.
Qed.

(** ** Registers *)

(** The registers take one more argument. *)
Record regs_grow (vm vm1 : DCCallVM_ppc64) (fp : bool) (x : Z) : Prop := {
  rg_vt : p_vt vm1 = p_vt vm;
  rg_int : mIntRegs vm1 = Z.min 8 (mIntRegs vm + 1);
  rg_float : mFloatRegs vm1 = if fp then Z.min 13 (mFloatRegs vm + 1) else mFloatRegs vm;
  rg_ints : forall k, 0 <= k < mIntRegs vm -> aget k (mIntData vm1) = aget k (mIntData vm);
  rg_floats : forall k, 0 <= k < mFloatRegs vm -> aget k (mFloatData vm1) = aget k (mFloatData vm);
  rg_new_int : mIntRegs vm < 8 -> aget (mIntRegs vm) (mIntData vm1) = Some (if fp then conv TLongLong x else x);
  rg_new_float : fp = true -> mFloatRegs vm < 13 -> aget (mFloatRegs vm) (mFloatData vm1) = Some x;
  rg_len : length (mIntData vm1) = 8%nat /\ length (mFloatData vm1) = 13%nat;
}.

Record regs_ok (vm : DCCallVM_ppc64) : Prop := {
  ro_int : 0 <= mIntRegs vm <= 8;
  ro_float : 0 <= mFloatRegs vm <= 13 /\ (mFloatRegs vm = 13 -> mIntRegs vm = 8);
  ro_len : length (mIntData vm) = 8%nat /\ length (mFloatData vm) = 13%nat;
}.

Definition int_regs (L : Z) (vm : DCCallVM_ppc64) : option DCCallVM_ppc64 :=
  if mIntRegs vm <? 8 then put_int L vm else Some vm.
Definition float_regs (d : Z) (vm : DCCallVM_ppc64) : option DCCallVM_ppc64 :=
  if mFloatRegs vm <? 13 then vm ← put_float d vm; int_regs (conv TLongLong d) vm else Some vm.

Lemma int_regs_ok vm L : regs_ok vm ->
  exists vm1, int_regs L vm = Some vm1 /\ mVecHead vm1 = mVecHead vm /\ regs_grow vm vm1 false L.
Proof.
  intros [Hi Hf [Li Lf]]. unfold int_regs. destruct (Z.ltb_spec (mIntRegs vm) 8).
  - unfold put_int. rewrite aset_Some by lia. eexists. split_and!; [done..|]. split; cbn; try done; try lia.
    + intros k Hk. apply aget_insert_ne; lia.
    + intros _. apply aget_insert_eq. lia.
    + by rewrite length_insert.
  - exists vm. split_and!; [done..|]. split; try done; lia.
Qed.

Lemma float_regs_ok vm d : regs_ok vm ->
  exists vm1, float_regs d vm = Some vm1 /\ mVecHead vm1 = mVecHead vm /\ regs_grow vm vm1 true d.
Proof.
  intros [Hi Hf [Li Lf]]. unfold float_regs. destruct (Z.ltb_spec (mFloatRegs vm) 13).
  - unfold put_float. rewrite aset_Some by lia. cbn [mbind option_bind]. unfold int_regs. cbn [mIntRegs].
    destruct (Z.ltb_spec (mIntRegs vm) 8).
    + unfold put_int. cbn [mIntRegs mIntData]. rewrite aset_Some by lia. eexists. split_and!; [done..|].
      split; cbn; try done; try lia.
      * intros k Hk. apply aget_insert_ne; lia.
      * intros k Hk. apply aget_insert_ne; lia.
      * intros _. apply aget_insert_eq. lia.
      * intros _ _. apply aget_insert_eq. lia.
      * by rewrite !length_insert.
    + eexists. split_and!; [done..|]. split; cbn; try done; try lia.
      * intros k Hk. apply aget_insert_ne; lia.
      * intros _ _. apply aget_insert_eq. lia.
      * by rewrite length_insert.
  - exists vm. split_and!; [done..|]. split; try done; lia.
Qed.

(** ** The parameter area *)

(** [w] is the vector [u], further filled, with [s] bytes in use. *)
Record area (u w : DCVecHead) (s : Z) : Prop := {
  ar_wf : vec_wf w;
  ar_bytes : Forall is_byte (vec_data w);
  ar_size : mSize w = s /\ s <= mTotal w;
  ar_same : mTotal w = mTotal u /\ length (vec_data w) = length (vec_data u);
  ar_prefix : prefix (vec_bytes u) (vec_bytes w);
}.

Lemma append_area vm u s bs :
  area u (mVecHead vm) s -> s + 8 <= mTotal u -> length bs = 8%nat -> Forall is_byte bs ->
  exists w, p_append v cs vm bs = Some (p_with_vec w vm) /\ area u w (s + 8) /\ rd s 8 (vec_bytes w) = Some bs.
Proof.
  intros [Hw Hb [Hs Hst] [Ht Hl] Hpre] Hr Lb Hbs. subst s.
  destruct (dcVecAppend_ok (mVecHead vm) bs 8 Hw ltac:(lia)) as (w & Hap & Hww & Htw & Hsw & Hlw & Hbw & _);
    [unfold vec_room; lia|].
  unfold p_append. rewrite Lb. change (Z.of_nat 8) with 8. rewrite Hap. cbn [mbind option_bind].
  exists w. split_and!; [done| |].
  - split; try done; [by eapply dcVecAppend_bytes|lia|split; congruence|].
    rewrite Hbw. etrans; [exact Hpre|]. by apply prefix_app_r.
  - rewrite Hbw. apply rd_app; [|done]. rewrite length_vec_bytes; [done|done|]. unfold vec_room. lia.
Qed.

(** What [p_skip] does to the vector. *)
Definition skipped (n : Z) (u : DCVecHead) : DCVecHead := if mSize u =? 0 then dcVecSkip u n else u.

Lemma p_skip_eq n vm : p_skip v cs n vm = p_with_vec (skipped n (mVecHead vm)) vm.
Proof. unfold p_skip, skipped, dcVecSize. destruct (_ =? 0); by destruct vm. Qed.

Lemma skip_area vm k :
  p_inv vm -> (mSize (mVecHead vm) = 0 -> k = 8 * slots vm) -> 8 * slots vm <= mTotal (mVecHead vm) -> 0 <= k ->
  area (mVecHead vm) (skipped k (mVecHead vm)) (8 * slots vm).
Proof.
  intros [[Hw H0] Hb Hm [Hi Hn0] _ _ _] Hk Ht Hk0. unfold skipped.
  pose proof (Z.div_mod (mSize (mVecHead vm)) 8 ltac:(lia)) as Hd.
  destruct (Z.eqb_spec (mSize (mVecHead vm)) 0) as [E|E].
  - specialize (Hk E). subst k. rewrite dcVecSkip_ok by (try done; unfold vec_room; lia). rewrite E. cbn [Z.add].
    destruct (dcVecResize_forward (mVecHead vm) (8 * slots vm) Hw ltac:(lia)) as [Hw' Hp]. split; try done.
  - unfold vec_room in H0.
    assert (Es : slots vm = mSize (mVecHead vm) / 8) by (unfold slots; by rewrite (proj2 (Z.eqb_neq _ _))).
    split; try done; lia.
Qed.

(** ** Pushing an argument *)

(** [vm'] is [vm] with one more argument, [x] in a register and [bs] in memory. *)
Record pushed (vm vm' : DCCallVM_ppc64) (fp : bool) (x : Z) (bs : list Z) : Prop := {
  pu_inv : p_inv vm';
  pu_ext : p_ext vm vm';
  pu_slots : slots vm' = slots vm + 1;
  pu_float : mFloatRegs vm' = if fp then Z.min 13 (mFloatRegs vm + 1) else mFloatRegs vm;
  pu_same : p_vt vm' = p_vt vm /\ mTotal (mVecHead vm') = mTotal (mVecHead vm) /\
            length (vec_data (mVecHead vm')) = length (vec_data (mVecHead vm));
  pu_gpr : slots vm < 8 -> aget (slots vm) (mIntData vm') = Some (if fp then conv TLongLong x else x);
  pu_fpr : fp = true -> mFloatRegs vm < 13 -> aget (mFloatRegs vm) (mFloatData vm') = Some x;
  pu_mem : mirrored vm = true \/ 8 <= slots vm -> rd (8 * slots vm) 8 (vec_bytes (mVecHead vm')) = Some bs;
}.

Lemma p_inv_regs vm : p_inv vm -> regs_ok vm.
Proof. intros [_ _ _ Hi Hf Hl _]. split; [lia|split; [lia|]|done]. lia. Qed.

Lemma grow_ext vm vm1 fp x :
  p_inv vm -> regs_grow vm vm1 fp x -> prefix (vec_bytes (mVecHead vm)) (vec_bytes (mVecHead vm1)) -> p_ext vm vm1.
Proof.
  intros [_ _ _ Hi Hf _ _] [_ Gi Gf Gis Gfs _ _ _] Hp. split; [done|split; [lia|done]|split; [|done]].
  rewrite Gf. destruct fp; lia.
Qed.

(** In a register only. *)
Lemma grow_stay vm vm1 fp x bs :
  p_inv vm -> mVecHead vm1 = mVecHead vm -> regs_grow vm vm1 fp x -> mirrored vm = false -> slots vm < 8 ->
  pushed vm vm1 fp x bs.
Proof.
  intros Hinv Ev Hg Hm Hs. pose proof (grow_ext _ _ _ _ Hinv Hg ltac:(by rewrite Ev)) as Hx.
  destruct Hinv as [Hw Hb Hmod Hi Hf Hl [Ha1 Ha2]], Hg as [Gt Gi Gf Gis Gfs Gni Gnf Gl].
  assert (E0 : mSize (mVecHead vm) = 0).
  { destruct (Z.eq_dec (mSize (mVecHead vm)) 0) as [|Hne]; [done|]. specialize (Ha2 Hm Hne). lia. }
  assert (Ei : mIntRegs vm = slots vm) by (unfold slots; by rewrite E0).
  assert (Es : slots vm1 = slots vm + 1) by (unfold slots at 1; rewrite Ev, E0; cbn; lia).
  split; try done.
  - split; rewrite ?Ev; try done; rewrite ?Es, ?Gi, ?Gf; try lia; [destruct fp; lia|].
    split; [|by rewrite E0]. intros Hv. unfold mirrored in Hm. by rewrite Hv in Hm.
  - by rewrite Ev.
  - intros _. by rewrite <- Ei, Gni by lia.
  - intros [H|H]; [congruence|lia].
Qed.

(** In memory as well. *)
Lemma grow_append vm vm1 fp x bs :
  p_inv vm -> area (mVecHead vm) (mVecHead vm1) (8 * slots vm) -> regs_grow vm vm1 fp x ->
  mirrored vm = true \/ 8 <= slots vm -> 8 * slots vm + 8 <= mTotal (mVecHead vm) ->
  length bs = 8%nat -> Forall is_byte bs ->
  exists vm', p_append v cs vm1 bs = Some vm' /\ pushed vm vm' fp x bs.
Proof.
  intros Hinv Har Hg Hm Hr Lb Hbs. destruct (append_area vm1 _ _ bs Har Hr Lb Hbs) as (w & Hap & Hw & Hrd).
  rewrite Hap. eexists. split; [done|]. assert (Hgw : regs_grow vm (p_with_vec w vm1) fp x) by (by destruct Hg; split).
  pose proof (grow_ext _ _ _ _ Hinv Hgw (ar_prefix _ _ _ Hw)) as Hx.
  destruct Hw as [Hww Hwb [Hws Hwt] [Hwtt Hwl] Hwp].
  destruct Hinv as [_ _ _ Hi Hf Hl _], Hgw as [Gt Gi Gf Gis Gfs Gni Gnf Gl].
  assert (Es : slots (p_with_vec w vm1) = slots vm + 1).
  { unfold slots at 1. cbn [mVecHead p_with_vec]. rewrite Hws, (proj2 (Z.eqb_neq _ _)) by lia.
    replace (8 * slots vm + 8) with ((slots vm + 1) * 8) by lia. by rewrite Z.div_mul. }
  split; try done.
  - split; cbn [mVecHead p_with_vec]; try done; rewrite ?Es, ?Gi, ?Gf, ?Hws; try lia.
    + split; [done|]. unfold vec_room. lia.
    + replace (8 * slots vm + 8) with ((slots vm + 1) * 8) by lia. by rewrite Z.mod_mul.
    + destruct fp; lia.
    + split; [lia|]. intros Hf' _. destruct Hm as [Hm|Hm]; [|lia]. unfold mirrored, is_ellipsis in *. rewrite Gt in Hf'.
      cbn in Hf'. congruence.
  - intros Hs. rewrite <- Gni by lia. f_equal. lia.
Qed.

(** The functions without variable arguments. *)
Definition place (vm vm1 : DCCallVM_ppc64) (bs : list Z) : option DCCallVM_ppc64 :=
  match v with
  | ELFv2 => if mIntRegs vm <? 8 then Some vm1 else push_slot v cs vm1 bs
  | ELFv1 => push_slot v cs vm1 bs
  end.

Lemma place_ok vm vm1 fp x bs :
  p_inv vm -> mVecHead vm1 = mVecHead vm -> regs_grow vm vm1 fp x -> is_ellipsis v vm = false ->
  8 * slots vm + 8 <= mTotal (mVecHead vm) -> length bs = 8%nat -> Forall is_byte bs ->
  exists vm', place vm vm1 bs = Some vm' /\ pushed vm vm' fp x bs.
Proof.
  intros Hinv Ev Hg He Hr Lb Hbs. pose proof (pi_ints vm Hinv) as [Hi H0].
  unfold place, push_slot. destruct (elf_abi_eq_dec v ELFv1) as [Hv|Hv].
  - rewrite Hv. apply (grow_append vm vm1 fp x bs Hinv); try done; [|left; unfold mirrored; by rewrite Hv].
    assert (Es : mSize (mVecHead vm) = 8 * slots vm) by (by apply (pi_area vm Hinv)).
    destruct Hinv as [[Hw' Hr0] Hb _ _ _ _ _]. unfold vec_room in Hr0. rewrite Ev. split; try done; lia.
  - assert (Hm : mirrored vm = false) by (unfold mirrored; by destruct v).
    assert (E2 : v = ELFv2) by (by destruct v). rewrite E2. destruct (Z.ltb_spec (mIntRegs vm) 8).
    + exists vm1. split; [done|]. apply grow_stay; try done. lia.
    + rewrite <- E2, p_skip_eq. apply (grow_append vm); try done; [|by destruct Hg; split|right; lia].
      cbn [mVecHead p_with_vec]. rewrite Ev. apply skip_area; try done; [|lia]. unfold slots in *.
      intros E0. rewrite E0 in *. cbn in *. lia.
Qed.

Lemma argLongLong_eq vm L :
  dc_callvm_argLongLong_ppc64 v cs vm L = vm1 ← int_regs L vm; place vm vm1 (enc (byte_order v) 8 L).
Proof. unfold dc_callvm_argLongLong_ppc64, int_regs, place. destruct (_ <? 8); [by destruct (put_int L vm)|by destruct v]. Qed.

Lemma argDouble_eq vm d :
  regs_ok vm ->
  dc_callvm_argDouble_ppc64 v cs vm d = vm1 ← float_regs d vm; place vm vm1 (enc (byte_order v) 8 d).
Proof.
  intros [_ Hf _]. unfold dc_callvm_argDouble_ppc64, float_regs, place. destruct (Z.ltb_spec (mFloatRegs vm) 13).
  - unfold put_float. destruct (aset _ _ _); [|done]. cbn [mbind option_bind mIntRegs]. unfold int_regs. cbn [mIntRegs].
    destruct (mIntRegs vm <? 8); [by destruct (put_int _ _)|by destruct v].
  - cbn. rewrite (proj2 (Z.ltb_ge (mIntRegs vm) 8)) by lia. by destruct v.
Qed.

Lemma argFloat_eq vm f :
  regs_ok vm ->
  dc_callvm_argFloat_ppc64 v cs uninit vm f = vm1 ← float_regs (f2d f) vm; place vm vm1 (float_slot v (uninit vm) f).
Proof.
  intros [_ Hf _]. unfold dc_callvm_argFloat_ppc64, float_regs, place. destruct (Z.ltb_spec (mFloatRegs vm) 13).
  - unfold put_float. destruct (aset _ _ _); [|done]. cbn [mbind option_bind mIntRegs]. unfold int_regs. cbn [mIntRegs].
    destruct (mIntRegs vm <? 8); [by destruct (put_int _ _)|by destruct v].
  - cbn. rewrite (proj2 (Z.ltb_ge (mIntRegs vm) 8)) by lia. by destruct v.
Qed.

(** The functions with variable arguments. *)
Definition fill (vm : DCCallVM_ppc64) : DCCallVM_ppc64 := p_with_vec (skipped (8 * mIntRegs vm) (mVecHead vm)) vm.

Lemma fill_ok vm vm1 fp x bs :
  p_inv vm -> mVecHead vm1 = mVecHead (fill vm) -> regs_grow (fill vm) vm1 fp x -> is_ellipsis v vm = true ->
  8 * slots vm + 8 <= mTotal (mVecHead vm) -> length bs = 8%nat -> Forall is_byte bs ->
  exists vm', p_append v cs vm1 bs = Some vm' /\ pushed vm vm' fp x bs.
Proof.
  intros Hinv Ev Hg He Hr Lb Hbs. pose proof (pi_ints vm Hinv) as [Hi H0].
  assert (Hm : mirrored vm = true) by (unfold mirrored; by destruct v).
  apply grow_append; try done; [|by destruct Hg; split|by left]. rewrite Ev. apply skip_area; try done; try lia.
  unfold slots. intros ->. done.
Qed.

Lemma argLongLong_ellipsis_eq vm L :
  dc_callvm_argLongLong_ppc64_ellipsis v cs vm L = vm1 ← int_regs L (fill vm); p_append v cs vm1 (enc (byte_order v) 8 L).
Proof. unfold dc_callvm_argLongLong_ppc64_ellipsis, int_regs. by rewrite p_skip_eq. Qed.

Lemma argDouble_ellipsis_eq vm d :
  dc_callvm_argDouble_ppc64_ellipsis v cs vm d = vm1 ← float_regs d (fill vm); p_append v cs vm1 (enc (byte_order v) 8 d).
Proof. unfold dc_callvm_argDouble_ppc64_ellipsis, float_regs, int_regs. by rewrite p_skip_eq. Qed.

(** What is put into the registers, and into memory. *)
Definition reg_value (a : arg) : Z :=
  match a_ty a with
  | TFloat => f2d (a_val a)
  | TDouble => a_val a
  | t => conv TLongLong (api_value t (a_val a))
  end.

Definition slot_bytes (vm : DCCallVM_ppc64) (a : arg) : list Z :=
  match a_ty a with
  | TFloat => if is_ellipsis v vm then enc (byte_order v) 8 (f2d (a_val a)) else float_slot v (uninit vm) (a_val a)
  | _ => enc (byte_order v) 8 (reg_value a)
  end.

Lemma length_slot_bytes vm a : length (slot_bytes vm a) = 8%nat.
Proof.
  unfold slot_bytes, float_slot. destruct (a_ty a); rewrite ?length_enc; try done. destruct (is_ellipsis v vm), v;
    by rewrite ?length_app, !length_enc.
Qed.

Lemma slot_bytes_bytes vm a : Forall is_byte (slot_bytes vm a).
Proof.
  unfold slot_bytes, float_slot. destruct (a_ty a); try apply enc_bytes. destruct (is_ellipsis v vm); [apply enc_bytes|].
  destruct v; apply Forall_app; split; apply enc_bytes.
Qed.

Lemma push_arg_eq vm a :
  arg_ok a ->
  push_arg (C := C) vm a =
  match a_ty a with
  | TFloat => if is_ellipsis v vm then dc_callvm_argDouble_ppc64_ellipsis v cs vm (f2d (a_val a))
              else dc_callvm_argFloat_ppc64 v cs uninit vm (a_val a)
  | TDouble => again_Double v cs vm (a_val a)
  | _ => again_LongLong v cs vm (reg_value a)
  end.
Proof.
  destruct a as [t x]. unfold arg_ok, reg_value. cbn [a_ty a_val]. intros Hx%val_ok_conv.
  assert (EL : conv TLongLong (conv TLongLong x) = conv TLongLong x) by by apply conv_conv.
  unfold push_arg, dcArgBool, dcArgChar, dcArgShort, dcArgInt, dcArgLong, dcArgLongLong, dcArgPointer,
    dcArgFloat, dcArgDouble, vtable. cbn [a_ty a_val ppc64_CallVM mVTpointer deref].
  unfold again_LongLong, again_Double, is_ellipsis.
  destruct t; cbn [api_value] in *; rewrite ?EL, ?Hx; destruct v; destruct (p_vt vm) eqn:E; cbn -[conv];
    unfold dc_callvm_argBool_ppc64, dc_callvm_argChar_ppc64, dc_callvm_argShort_ppc64, dc_callvm_argInt_ppc64,
      dc_callvm_argLong_ppc64, dc_callvm_argPointer_ppc64, dc_callvm_argFloat_ppc64_ellipsis, again_LongLong, again_Double,
      is_ellipsis; by rewrite ?E, ?Hx.
Qed.

Theorem push_arg_pushed vm a :
  p_inv vm -> 8 * slots vm + 8 <= mTotal (mVecHead vm) -> arg_ok a ->
  exists vm', push_arg (C := C) vm a = Some vm' /\
    pushed vm vm' (is_float (a_ty a)) (reg_value a) (slot_bytes vm a).
Proof.
  intros Hi Hr Ha. rewrite (push_arg_eq vm a Ha). pose proof (p_inv_regs vm Hi) as Hro.
  assert (Hro' : regs_ok (fill vm)) by (by destruct Hro; split).
  pose proof (length_slot_bytes vm a) as Lb. pose proof (slot_bytes_bytes vm a) as Hbs.
  unfold again_LongLong, again_Double. destruct (is_ellipsis v vm) eqn:He.
  - assert (HL : exists vm', (vm1 ← int_regs (reg_value a) (fill vm); p_append v cs vm1 (slot_bytes vm a)) = Some vm' /\
                   pushed vm vm' false (reg_value a) (slot_bytes vm a)).
    { destruct (int_regs_ok (fill vm) (reg_value a) Hro') as (vm1 & -> & Ev & Hg). by apply fill_ok. }
    assert (HD : exists vm', (vm1 ← float_regs (reg_value a) (fill vm); p_append v cs vm1 (slot_bytes vm a)) = Some vm' /\
                   pushed vm vm' true (reg_value a) (slot_bytes vm a)).
    { destruct (float_regs_ok (fill vm) (reg_value a) Hro') as (vm1 & -> & Ev & Hg). by apply fill_ok. }
    unfold slot_bytes in *. rewrite He in *. unfold reg_value in *.
    destruct (a_ty a); rewrite ?argLongLong_ellipsis_eq, ?argDouble_ellipsis_eq; done.
  - assert (HL : exists vm', (vm1 ← int_regs (reg_value a) vm; place vm vm1 (slot_bytes vm a)) = Some vm' /\
                   pushed vm vm' false (reg_value a) (slot_bytes vm a)).
    { destruct (int_regs_ok vm (reg_value a) Hro) as (vm1 & -> & Ev & Hg). by apply place_ok. }
    assert (HD : exists vm', (vm1 ← float_regs (reg_value a) vm; place vm vm1 (slot_bytes vm a)) = Some vm' /\
                   pushed vm vm' true (reg_value a) (slot_bytes vm a)).
    { destruct (float_regs_ok vm (reg_value a) Hro) as (vm1 & -> & Ev & Hg). by apply place_ok. }
    unfold slot_bytes in *. rewrite He in *. unfold reg_value in *.
    destruct (a_ty a); rewrite ?argLongLong_eq, ?argDouble_eq, ?argFloat_eq by done; done.
Qed.

(** ** Reading it back *)

Record p_at (vm vf : DCCallVM_ppc64) (p : DCArgs) : Prop := {
  pa_ptr : stackptr p = 8 * slots vm;
  pa_ints : ireg_count p = mIntRegs vm /\ ireg_data p = mIntData vf;
  pa_floats : freg_count p = mFloatRegs vm /\ freg_data p = mFloatData vf;
  pa_mem : prefix (vec_bytes (mVecHead vf)) (par_mem p);
}.

Lemma reg_value_conv a : arg_ok a -> is_float (a_ty a) = false -> conv (a_ty a) (reg_value a) = a_val a.
Proof.
  destruct a as [t x]. unfold arg_ok, reg_value. cbn [a_ty a_val]. intros Hx%val_ok_conv Hf.
  assert (E : conv t (conv TLongLong (api_value t x)) = x); [|by destruct t].
  rewrite conv_conv by (by destruct t). by rewrite conv_api_value.
Qed.

Lemma ppc64_read_int a p p' :
  is_float (a_ty a) = false -> arg_ok a -> dcbArgLongLong v cs p = Some (conv TLongLong (reg_value a), p') ->
  dcbArg (ArgReader := RD) (a_ty a) p = Some (a_val a, p').
Proof.
  intros Hf Ha Hp. pose proof (reg_value_conv a Ha Hf) as E.
  assert (Hc : forall t, ty_bits (a_ty a) <= ty_bits t -> conv (a_ty a) (conv t (reg_value a)) = a_val a)
    by (intros; by rewrite conv_conv).
  destruct (a_ty a); cbn [dcbArg ppc64_ArgReader];
    unfold dcbArgInt, dcbArgUInt, dcbArgLong, dcbArgULong, dcbArgChar, dcbArgUChar, dcbArgShort, dcbArgUShort, dcbArgBool,
      dcbArgPointer, dcbArgULongLong, mbind, SO_bind, mret, SO_ret; try discriminate; rewrite Hp; cbn [option_bind];
    do 2 f_equal; first [apply Hc; vm_compute; done|exact E].
Qed.

Lemma float_of_float_slot pad x : float_of_slot v (float_slot v pad x) = wrapU 32 x.
Proof.
  unfold float_of_slot, float_slot. destruct v; [rewrite drop_app_length'|rewrite take_app_length'];
    rewrite ?length_enc; try done; by rewrite dec_enc.
Qed.

Definition p_room (vm : DCCallVM_ppc64) (a : arg) : Prop :=
  8 * slots vm + 8 <= mTotal (mVecHead vm) /\
  (a_ty a = TFloat -> is_ellipsis v vm = false /\ ~ is_nan32 (a_val a)).

Lemma ppc64_read vm vm' vf p a :
  p_inv vm -> pushed vm vm' (is_float (a_ty a)) (reg_value a) (slot_bytes vm a) -> p_room vm a -> arg_ok a ->
  p_ext vm' vf -> p_inv vf -> p_at vm vf p ->
  exists p', dcbArg (ArgReader := RD) (a_ty a) p = Some (a_val a, p') /\ p_at vm' vf p'.
Proof.
  intros Hi [Hi' _ Es Ef _ Hg Hf Hm] [_ Hfl] Ha [Xb [Xi1 Xi] [Xf1 Xf]] _ [Hp [Hic Hid] [Hfc Hfd] Hpre].
  pose proof (pi_ints vm Hi) as [Ei H0]. pose proof (pi_ints vm' Hi') as [Ei' _]. pose proof (pi_floats vm Hi) as [Hfr Hfs].
  assert (Hat : forall ic fc, ic = mIntRegs vm' -> fc = mFloatRegs vm' -> p_at vm' vf (after_arg ic fc p)).
  { intros ic fc -> ->. split; cbn; try done. lia. }
  assert (Hmem : 8 <= slots vm -> rd (stackptr p) 8 (par_mem p) = Some (slot_bytes vm a)).
  { intros H8. rewrite Hp. eapply rd_prefix; [exact Hpre|]. eapply rd_prefix; [exact Xb|]. apply Hm. by right. }
  destruct (is_float (a_ty a)) eqn:Eft.
  - destruct (Z.ltb_spec (mFloatRegs vm) 13).
    + exists (after_arg (skip_int (ireg_count p)) (freg_count p + 1) p). split.
      2: { apply Hat; [|lia]. unfold skip_int. rewrite Hic, Ei'. destruct (Z.ltb_spec (mIntRegs vm) 8); lia. }
      assert (Hx : aget (freg_count p) (freg_data p) = Some (reg_value a)) by (rewrite Hfc, Hfd, Xf by lia; by apply Hf).
      destruct a as [t x]. cbn [a_ty a_val] in *. pose proof (val_ok_conv t x Ha) as Hx'. destruct t; try discriminate;
        cbn [dcbArg ppc64_ArgReader]; unfold dcbArgFloat, dcbArgDouble;
        rewrite Hfc in *; rewrite (proj2 (Z.ltb_lt _ _)) by lia; rewrite Hx; cbn [mbind option_bind]; unfold reg_value; cbn [a_ty a_val];
        [|by rewrite Hx'].
      destruct (Hfl eq_refl) as [_ Hn]. rewrite d2f_f2d; [by rewrite Hx'| |done]. rewrite <- Hx'. cbn. apply wrapU_range. lia.
    + exists (after_arg (ireg_count p) (freg_count p) p). split; [|apply Hat; lia].
      specialize (Hmem ltac:(lia)). destruct a as [t x]. cbn [a_ty a_val] in *. pose proof (val_ok_conv t x Ha) as Hx'.
      destruct t; try discriminate; cbn [dcbArg ppc64_ArgReader]; unfold dcbArgFloat, dcbArgDouble;
        rewrite (proj2 (Z.ltb_ge _ _)) by lia; rewrite Hmem; cbn [mbind option_bind]; unfold slot_bytes; cbn [a_ty a_val].
      * destruct (Hfl eq_refl) as [-> _]. rewrite float_of_float_slot. do 2 f_equal. by rewrite conv_wrapU.
      * unfold reg_value. cbn [a_ty a_val]. rewrite dec_enc. do 2 f_equal. by rewrite conv_wrapU.
  - destruct (Z.ltb_spec (mIntRegs vm) 8).
    + exists (after_arg (ireg_count p + 1) (freg_count p) p). split; [|apply Hat; lia].
      apply ppc64_read_int; try done. unfold dcbArgLongLong. rewrite (proj2 (Z.ltb_lt _ _)) by lia.
      rewrite Hic, Hid, Xi by lia. replace (mIntRegs vm) with (slots vm) at 1 by lia. by rewrite Hg by lia.
    + exists (after_arg (ireg_count p) (freg_count p) p). split; [|apply Hat; lia].
      apply ppc64_read_int; try done. unfold dcbArgLongLong. rewrite (proj2 (Z.ltb_ge _ _)) by lia.
      rewrite Hmem by lia. cbn [mbind option_bind]. assert (slot_bytes vm a = enc (byte_order v) 8 (reg_value a)) as ->.
      { unfold slot_bytes. by destruct (a_ty a). }
      rewrite dec_enc. do 2 f_equal. by rewrite conv_wrapU.
Qed.

Lemma ppc64_step vm a :
  p_inv vm -> p_room vm a -> arg_ok a ->
  exists vm', push_arg (C := C) vm a = Some vm' /\ p_inv vm' /\ p_ext vm vm' /\
    forall vf p, p_inv vf -> p_ext vm' vf -> p_at vm vf p ->
      exists p', dcbArg (ArgReader := RD) (a_ty a) p = Some (a_val a, p') /\ p_at vm' vf p'.
Proof.
  intros Hi Hr Ha. destruct (push_arg_pushed vm a Hi (proj1 Hr) Ha) as (vm' & Hp & Hpu).
  exists vm'. split; [done|]. split; [apply Hpu|]. split; [apply Hpu|]. intros vf p Hvf Hx Hat. by apply (ppc64_read vm).
Qed.

#[export] Instance ppc64_CallConv : CallConv DCCallVM_ppc64 DCArgs (H := C) (H0 := RD) := {
  cc_inv := p_inv;
  cc_room := p_room;
  cc_ext := p_ext;
  cc_at := p_at;
  cc_ext_refl := p_ext_refl;
  cc_ext_trans := p_ext_trans;
  cc_step := ppc64_step;
}.

(** ** Whole argument lists *)

(** The doubleword of every argument, and its number among the floating-point ones. *)
Fixpoint places (l : list arg) (n m : Z) : list (Z * Z) :=
  match l with
  | [] => []
  | a :: l => (n, m) :: places l (n + 1) (if is_float (a_ty a) then m + 1 else m)
  end.

(** What the bytes of a doubleword say. *)
Definition slot_holds (vt_ellipsis : bool) (a : arg) (bs : list Z) : Prop :=
  match a_ty a with
  | TFloat => if vt_ellipsis then dec (byte_order v) bs = wrapU 64 (f2d (a_val a)) else float_of_slot v bs = wrapU 32 (a_val a)
  | _ => dec (byte_order v) bs = wrapU 64 (reg_value a)
  end.

Lemma slot_bytes_holds vm a : slot_holds (is_ellipsis v vm) a (slot_bytes vm a).
Proof.
  unfold slot_holds, slot_bytes. destruct (a_ty a); rewrite ?dec_enc; try done.
  destruct (is_ellipsis v vm); [apply dec_enc|apply float_of_float_slot].
Qed.

Record placed (vf : DCCallVM_ppc64) (a : arg) (nm : Z * Z) : Prop := {
  pl_gpr : nm.1 < 8 ->
    aget nm.1 (mIntData vf) = Some (if is_float (a_ty a) then conv TLongLong (reg_value a) else reg_value a);
  pl_fpr : is_float (a_ty a) = true -> nm.2 < 13 -> aget nm.2 (mFloatData vf) = Some (reg_value a);
  pl_mem : mirrored vf = true \/ 8 <= nm.1 ->
    exists bs, rd (8 * nm.1) 8 (vec_bytes (mVecHead vf)) = Some bs /\ slot_holds (is_ellipsis v vf) a bs;
}.

Lemma push_list_ppc64 l : forall vm n m,
  p_inv vm -> slots vm = n -> mFloatRegs vm = Z.min 13 m -> 0 <= m ->
  8 * n + 8 * Z.of_nat (length l) <= mTotal (mVecHead vm) -> Forall arg_ok l ->
  exists vf, push_args (C := C) vm l = Some vf /\ p_inv vf /\ p_ext vm vf /\ p_vt vf = p_vt vm /\
    mTotal (mVecHead vf) = mTotal (mVecHead vm) /\ length (vec_data (mVecHead vf)) = length (vec_data (mVecHead vm)) /\
    (Forall (fun a => a_ty a = TFloat -> is_ellipsis v vm = false /\ ~ is_nan32 (a_val a)) l ->
     room_for (CC := ppc64_CallConv) vm l) /\
    Forall2 (placed vf) l (places l n m).
Proof.
  induction l as [|a l IH]; intros vm n m Hi Hn Hm H0 Hr Hl.
  { exists vm. split_and!; try done; constructor. }
  cbn [length] in Hr. apply Forall_cons in Hl as [Ha Hl].
  destruct (push_arg_pushed vm a Hi ltac:(lia) Ha) as (vm' & Hp & [Hi' Hx Hs Hf (Hv & Ht & Hlen) Hgpr Hfpr Hmem]).
  set (m' := if is_float (a_ty a) then m + 1 else m).
  destruct (IH vm' (n + 1) m' Hi') as (vf & Hpf & Hif & Hxf & Hvf & Htf & Hlf & Hroom & Hall);
    [lia|unfold m'; destruct (is_float (a_ty a)); lia|unfold m'; destruct (is_float _); lia|lia|done|].
  assert (Eell : is_ellipsis v vf = is_ellipsis v vm) by (unfold is_ellipsis; by rewrite Hvf, Hv).
  exists vf. split_and!; try congruence.
  - unfold push_args. cbn [foldM]. rewrite Hp. exact Hpf.
  - by eapply p_ext_trans.
  - intros [Hfa Hfl]%Forall_cons. split; [split; [lia|done]|]. intros vm1 H1. rewrite Hp in H1. injection H1 as <-.
    apply Hroom. eapply Forall_impl; [exact Hfl|]. intros b Hb Hbt. unfold is_ellipsis in *. rewrite Hv. by apply Hb.
  - cbn [places]. constructor; [|done]. pose proof (pi_ints vm Hi) as [Ei _]. pose proof (pi_ints vm' Hi') as [Ei' _].
    destruct Hxf as [Xb [_ Xi] [_ Xf]]. split; cbn [fst snd].
    + intros Hlt. rewrite Xi by (pose proof (pi_ints vm Hi); lia). rewrite <- Hn. apply Hgpr. lia.
    + intros Efl Hlt. rewrite Efl in Hf. replace m with (mFloatRegs vm) by lia. rewrite Xf by lia. apply Hfpr; [done|lia].
    + intros Hmm. exists (slot_bytes vm a). split; [|rewrite Eell; apply slot_bytes_holds].
      rewrite <- Hn. eapply rd_prefix; [exact Xb|]. apply Hmem. unfold mirrored in *. rewrite Eell in Hmm.
      destruct Hmm; [by left|right; lia].
Qed.

(** ** Registers and parameter area of the callee *)

Lemma ppc64_kernel_enter_ok target ints floats size k :
  Forall is_byte k -> 0 <= size <= Z.of_nat (length k) -> size < 2 ^ 31 -> size mod 8 = 0 ->
  exists cpu, kernel_enter v (dcCall_ppc64 target ints floats size k) = Some cpu /\
    gprs cpu = ints /\ fprs cpu = floats /\ par_area cpu = take (Z.to_nat size) k.
Proof.
  intros Hb Hs Hsm Hm. unfold kernel_enter. rewrite wrapU_id by (unfold in_u; lia).
  pose proof (Z.div_mod size 8 ltac:(lia)) as Hd.
  destruct (load_words_copy (byte_order v) 8 (Z.to_nat (size / 8)) 0 k Hb) as (ws & -> & _ & Hst); [lia..|].
  cbn [mbind option_bind]. eexists. split_and!; [done..|]. cbn [par_area]. rewrite Hst.
  change (Z.to_nat 0) with 0%nat. rewrite drop_0. f_equal. lia.
Qed.
End Ppc64.
