(* ===== verification/Ppc64Props.v ===== *)
(** * 64-bit PowerPC: whole calls *)

From S2P Require Export Ppc64Proofs.

Section Props.
Variable v : elf_abi.
Variable cs : bool.
Variable uninit : DCCallVM_ppc64 -> Z.
#[local] Hint Extern 0 DataModel => exact (ppc64_dm v cs) : typeclass_instances.
#[local] Abbreviation C := (ppc64_CallVM v cs uninit).

(** ** Results *)

(** A callback, entered in state [cpu], that reads arguments, leaves the
    registers [r0] and returns a scalar. *)
Definition ppc64_run_callback (ts : list cty) (rt : cty) (f : list arg -> Z) (r0 : ppc64_ret) (cpu : ppc64_cpu)
    : option ppc64_ret :=
  '(l, _) ← read_args (RD := ppc64_ArgReader v cs) ts (dcCallbackThunkEntry cpu);
  result ← dcvalue_set v rt (f l) (callback_slot v);
  callback_exit v r0 (sigchar_of rt) result.

Lemma rd0_all n bs : length bs = n -> rd 0 n bs = Some bs.
Proof. intros <-. rewrite <- (app_nil_r bs) at 2. by apply rd0_app. Qed.

(** An integer in its place in a cleared doubleword. *)
Lemma dcvalue_int t x :
  is_float t = false -> val_ok t x ->
  exists result, dcvalue_set v t x (callback_slot v) = Some result /\ length result = 8%nat /\
    conv t (dec (byte_order v) result) = x.
Proof.
  intros Hf Hx%val_ok_conv. unfold dcvalue_set. set (n := Z.to_nat (sizeof_cty t)). set (o := dcvalue_off v t).
  assert (Hw : 8 * Z.of_nat n = ty_bits t) by (destruct t; done).
  assert (Ho : 0 <= o /\ (v = ELFv2 -> o = 0) /\ (v = ELFv1 -> o + Z.of_nat n = 8) /\ (n <= 8)%nat).
  { unfold n, o. destruct v, t; try discriminate; (split_and!; vm_compute; intros; (discriminate || reflexivity || lia)). }
  assert (Lc : length (callback_slot v) = 8%nat) by apply length_enc. destruct Ho as (Ho & H2 & H1 & Hn8). clearbody n o.
  destruct v.
  - specialize (H1 eq_refl). rewrite wr_Some by (rewrite ?length_enc, ?Lc; lia). eexists. split; [done|].
    rewrite length_enc, (drop_ge (callback_slot ELFv1)), app_nil_r by (rewrite Lc; lia).
    split; [rewrite length_app, length_enc, length_take, Lc; lia|].
    cbn [byte_order]. rewrite dec_be_app, length_enc, dec_enc.
    assert (dec BigEndian (take (Z.to_nat o) (callback_slot ELFv1)) = 0) as ->.
    { assert (Hz : (Z.to_nat o <= 8)%nat) by lia. by destruct (Z.to_nat o) as [|[|[|[|[|[|[|[|[|k]]]]]]]]]; [..|lia]. }
    by rewrite Z.mul_0_r, Z.add_0_r, conv_wrapU by lia.
  - rewrite (H2 eq_refl). rewrite wr_Some by (rewrite ?length_enc, ?Lc; lia). eexists. split; [done|].
    change (take (Z.to_nat 0) (callback_slot ELFv2)) with (@nil Z). cbn [app byte_order].
    rewrite length_enc. change (Z.to_nat 0 + n)%nat with n. split; [rewrite length_app, length_enc, length_drop, Lc; lia|].
    assert (dec LittleEndian (drop n (callback_slot ELFv2)) = 0) as E0.
    { by destruct n as [|[|[|[|[|[|[|[|[|k]]]]]]]]]; [..|lia]. }
    unfold dec in *. rewrite le_join_app, E0. fold (dec LittleEndian (enc LittleEndian n x)). rewrite dec_enc.
    by rewrite Z.mul_0_r, Z.add_0_r, conv_wrapU by lia.
Qed.

Lemma ppc64_result t x r0 :
  val_ok t x -> (t = TFloat -> ~ is_nan32 x) ->
  exists result r, dcvalue_set v t x (callback_slot v) = Some result /\
    callback_exit v r0 (sigchar_of t) result = Some r /\ ret_value t r = x.
Proof.
  intros Hx Hn. destruct (is_float t) eqn:Hf.
  - apply val_ok_conv in Hx as Hx'.
    assert (Lc : length (callback_slot v) = 8%nat) by apply length_enc. destruct t; try discriminate.
    + unfold dcvalue_set. assert (dcvalue_off v TFloat = 0) as -> by (by destruct v).
      change (Z.to_nat (sizeof_cty TFloat)) with 4%nat.
      rewrite wr_Some by (rewrite ?length_enc, ?Lc; lia). do 2 eexists. split; [done|].
      unfold callback_exit. change (take (Z.to_nat 0) (callback_slot v)) with (@nil Z). cbn -[rd drop]. rewrite rd0_app by apply length_enc. cbn [mbind option_bind]. split; [done|]. cbn [ret_value ret_f1].
      rewrite dec_enc. change (8 * Z.of_nat 4) with 32. change (wrapU 32 x) with (conv TFloat x). rewrite Hx'.
      rewrite d2f_f2d; [done| |by apply Hn]. rewrite <- Hx'. apply wrapU_range. lia.
    + unfold dcvalue_set. assert (dcvalue_off v TDouble = 0) as -> by (by destruct v).
      change (Z.to_nat (sizeof_cty TDouble)) with 8%nat.
      rewrite wr_Some by (rewrite ?length_enc, ?Lc; lia). do 2 eexists. split; [done|].
      rewrite length_enc, (drop_ge (callback_slot v)) by (rewrite Lc; lia). rewrite app_nil_r.
      unfold callback_exit. change (take (Z.to_nat 0) (callback_slot v)) with (@nil Z). cbn -[rd]. rewrite rd0_all by apply length_enc. cbn [mbind option_bind]. split; [done|]. cbn [ret_value ret_f1].
      rewrite dec_enc. change (conv TDouble (wrapU 64 x) = x). by rewrite conv_wrapU.
  - destruct (dcvalue_int t x Hf Hx) as (result & Hs & Hl & Hc). rewrite Hs.
    exists result. eexists. split; [done|]. unfold callback_exit.
    assert (Ascii.eqb (sigchar_of t) DC_SIGCHAR_FLOAT = false /\ Ascii.eqb (sigchar_of t) DC_SIGCHAR_DOUBLE = false) as [-> ->]
      by (by destruct t).
    rewrite rd0_all by done. cbn [mbind option_bind]. split; [done|]. by destruct t.
Qed.

(** ** Where the callee finds its arguments *)

(** The argument with doubleword [nm.1], the [nm.2]-th of the floating-point
    ones: in the register of its doubleword (a floating-point one as its pattern),
    in a floating-point register, and in the parameter area. *)
Record arg_in (ell : bool) (cpu : ppc64_cpu) (a : arg) (nm : Z * Z) : Prop := {
  ai_gpr : nm.1 < 8 ->
    aget nm.1 (gprs cpu) = Some (if is_float (a_ty a) then conv TLongLong (reg_value v cs a) else reg_value v cs a);
  ai_fpr : is_float (a_ty a) = true -> nm.2 < 13 -> aget nm.2 (fprs cpu) = Some (reg_value v cs a);
  ai_mem : v = ELFv1 \/ ell = true \/ 8 <= nm.1 ->
    exists bs, rd (8 * nm.1) 8 (par_area cpu) = Some bs /\ slot_holds v cs ell a bs;
}.

(** ** Whole calls *)

(** What the VM is allocated with: at least the eight doublewords every call copies. *)
Record ppc64_alloc (vm : DCCallVM_ppc64) : Prop := {
  al_vec : vec_wf (mVecHead vm) /\ 64 <= mTotal (mVecHead vm);
  al_data : Z.of_nat (length (vec_data (mVecHead vm))) < 2 ^ 31;
  al_bytes : Forall is_byte (vec_data (mVecHead vm));
  al_regs : length (mIntData vm) = 8%nat /\ length (mFloatData vm) = 13%nat;
}.

Lemma dcCall_as_ppc64 rt vm target :
  p_vt vm <> gVT_ppc64_syscall_p -> dcCall_as (C := C) rt vm target = dc_callvm_call_ppc64 v cs vm target.
Proof.
  intros Hv. unfold dcCall_as, dcCallBool, dcCallChar, dcCallShort, dcCallInt, dcCallLong, dcCallLongLong,
    dcCallFloat, dcCallDouble, dcCallPointer, vtable. destruct rt; cbn; by destruct v, (p_vt vm).
Qed.

Lemma ppc64_call_enter vf target :
  vec_wf (mVecHead vf) -> vec_room (mVecHead vf) 0 -> 64 <= mTotal (mVecHead vf) ->
  Z.of_nat (length (vec_data (mVecHead vf))) < 2 ^ 31 -> Forall is_byte (vec_data (mVecHead vf)) ->
  mSize (mVecHead vf) mod 8 = 0 ->
  exists cpu, kernel_enter v (dc_callvm_call_ppc64 v cs vf target) = Some cpu /\
    gprs cpu = mIntData vf /\ fprs cpu = mFloatData vf /\ prefix (vec_bytes (mVecHead vf)) (par_area cpu).
Proof.
  intros [Hs0 Ht0 Hw] Hr Ht Hl Hb Hm. unfold vec_room in Hr. unfold dc_callvm_call_ppc64, dcVecSize.
  assert (Hw' : vec_wf (mVecHead vf)) by (by split).
  rewrite wrapS_id by (unfold in_s; lia).
  destruct (Z.ltb_spec (mSize (mVecHead vf)) 64) as [Hlt|Hge].
  - rewrite dcVecSkip_ok by (try done; unfold vec_room; lia).
    replace (mSize (mVecHead vf) + (64 - mSize (mVecHead vf))) with 64 by lia. cbn [dcVecResize mSize vec_data].
    destruct (ppc64_kernel_enter_ok v target (mIntData vf) (mFloatData vf) 64 (vec_data (mVecHead vf)))
      as (cpu & Hk & H1 & H2 & Hp); try done; [lia|].
    exists cpu. split_and!; try done. rewrite Hp. apply take_prefix_take. lia.
  - destruct (ppc64_kernel_enter_ok v target (mIntData vf) (mFloatData vf) (mSize (mVecHead vf)) (vec_data (mVecHead vf)))
      as (cpu & Hk & H1 & H2 & Hp); try done; [lia..|].
    exists cpu. split_and!; try done. by rewrite Hp.
Qed.

(** C30: scalar calls on 64-bit PowerPC, with either version of the ELF ABI, are
    transparent from end to end, and the arguments are where the ABI says.  For
    every argument list that fits a vector of at least eight doublewords, a reset
    VM, given the arguments, enters the callee with every argument in the integer
    register of its doubleword, the first thirteen floating-point ones in
    floating-point registers, and the doublewords of the parameter area filled:
    all of them with version 1 or for variable arguments, from the ninth on
    otherwise.  A callback entered like this reads exactly those arguments -
    variable [float]s and NaNs of type [float] excepted - and the caller gets its
    result. *)
Theorem ppc64_scalar_call_end_to_end vm0 l rt f r0 target :
  ppc64_alloc vm0 -> p_vt vm0 <> gVT_ppc64_syscall_p -> 8 * Z.of_nat (length l) <= mTotal (mVecHead vm0) ->
  Forall arg_ok l -> val_ok rt (f l) -> (rt = TFloat -> ~ is_nan32 (f l)) ->
  exists vm vf cpu,
    dcReset (C := C) vm0 = Some vm /\ push_args (C := C) vm l = Some vf /\
    kernel_enter v (dcCall_as (C := C) rt vf target) = Some cpu /\
    Forall2 (arg_in (is_ellipsis v vm0) cpu) l (places l 0 0) /\
    (Forall (fun a => a_ty a = TFloat -> is_ellipsis v vm0 = false /\ ~ is_nan32 (a_val a)) l ->
     exists r, ppc64_run_callback (map a_ty l) rt f r0 cpu = Some r /\ ret_value rt r = f l).
Proof.
  intros [[Hw Ht] Hd Hb Hregs] Hvt Hroom Hl Hf Hn.
  set (vm := p_with_regs 0 0 (p_with_vec (dcVecReset (mVecHead vm0)) vm0)).
  assert (Hi : p_inv v cs vm).
  { destruct Hw. split; cbn; try done. split; [by split|unfold vec_room; cbn; lia]. }
  destruct (push_list_ppc64 v cs uninit l vm 0 0 Hi)
    as (vf & Hp & Hif & _ & Hvf & Htf & Hlf & Hrf & Hall); [done|done|done|cbn; lia|done|].
  destruct Hif as [[Hwf H0] Hbf Hm _ _ _ _].
  destruct (ppc64_call_enter vf target) as (cpu & Hk & Hg & Hfp & Hpre); try done;
    [change (mVecHead vm) with (dcVecReset (mVecHead vm0)) in *; cbn in *; lia..|].
  exists vm, vf, cpu. split_and!.
  - unfold dcReset, vtable. cbn. by destruct v, (p_vt vm0).
  - done.
  - rewrite dcCall_as_ppc64; [exact Hk|]. by rewrite Hvf.
  - assert (Ee : is_ellipsis v vf = is_ellipsis v vm0) by (unfold is_ellipsis; by rewrite Hvf).
    eapply Forall2_impl; [exact Hall|]. intros a nm [H1 H2 H3]. split; [by rewrite Hg|by rewrite Hfp|].
    intros Hmm. destruct H3 as (bs & Hrd & Hh).
    { unfold mirrored. rewrite Ee. destruct Hmm as [->|[->|H8]]; [by left|left; by destruct v|by right]. }
    exists bs. rewrite <- Ee. split; [|done]. by eapply rd_prefix.
  - intros Hfl. destruct (push_args_inv (CC := ppc64_CallConv v cs uninit) vm l Hi (Hrf Hfl) Hl) as (vf' & Hp' & _ & _ & Hread).
    rewrite Hp in Hp'. injection Hp' as <-.
    destruct (Hread (dcCallbackThunkEntry cpu)) as (p' & Hrd & _); [by split|].
    destruct (ppc64_result rt (f l) r0 Hf Hn) as (result & r & Hset & Hexit & Hret). exists r. split; [|done].
    unfold ppc64_run_callback. rewrite Hrd. cbn [mbind option_bind]. rewrite Hset. exact Hexit.
Qed.

(** [dcNewCallVM] takes any size, but every call copies eight doublewords: on a
    VM of less than that already a call without arguments reads beyond the
    allocation. *)
Theorem ppc64_small_vm_overread mem alloc size vm rt target :
  Z.of_nat (length alloc) = size -> 0 <= size < 64 ->
  dcNewCallVM v mem (Some alloc) size = Some vm -> kernel_enter v (dcCall_as (C := C) rt vm target) = None.
Proof.
  intros Ha Hs [= <-]. rewrite dcCall_as_ppc64 by (cbn; discriminate).
  change (kernel_enter v (dcCall_ppc64 target (mIntData mem) (mFloatData mem) 64 alloc) = None).
  unfold kernel_enter. change (Z.to_nat (wrapU 32 64 / 8)) with 8%nat.
  destruct (load_words (byte_order v) 8 8 0 alloc) as [ws|] eqn:E; [|done].
  destruct (load_words_aget _ _ _ 7 _ _ _ E) as (bs & Hrd & _); [lia|]. apply rd_bound in Hrd. lia.
Qed.
End Props.
