(* ===== verification/Ppc32.v ===== *)
(** * 32-bit PowerPC: call VM, kernels, callbacks and argument access
      (dyncall/dyncall_callvm_ppc32.{h,c}, dyncall_call_ppc32.S,
       dyncallback/dyncall_args_ppc32.{h,c}, dyncall_args_ppc32_sysv.c,
       dyncall_callback_ppc32.{c,S}, dyncall_callback_ppc32_apple.s,
       dyncall_thunk_ppc32.{h,c}, dyncall_thunk_ppc32_sysv.c)

    Two conventions.  On Darwin every argument has its words in the parameter
    area, and the first eight words and thirteen floating-point arguments are in
    registers as well.  With the System V ABI an argument is in registers or, once
    these are used up, on the stack. *)

From S2P Require Export Words Floats.

Definition DC_CALL_C_PPC32_OSX : Z := 9.
Definition DC_CALL_C_PPC32_SYSV : Z := 13.
Definition DC_CALL_SYS_PPC32 : Z := 210.

(** [DC__ABI_Darwin] or [DC__ABI_SysV], which also decide what is compiled into
    dyncallback. *)
Inductive ppc32_abi := Darwin | SysV.

Definition ppc32_dm (char_signed : bool) : DataModel := {|
  dm_endian := BigEndian; dm_size_bits := 32; dm_long_bits := 32; dm_char_signed := char_signed
|}.

#[export] Instance ppc32_dm_ok cs : DataModelOk (DM := ppc32_dm cs).
Proof. split; cbn; auto. Qed.

(** ** Argument access in a callback (dyncall_args_ppc32.{h,c}, dyncall_args_ppc32_sysv.c)

    [stackptr] is the offset in the parameter area of the caller, which both
    conventions put on a multiple of eight. *)

Record DCArgs := {
  ireg_data : list Z;
  freg_data : list Z;
  stackptr : Z;
  ireg_count : Z;
  freg_count : Z;
  par_mem : list Z;
}.

Definition args_at (sp ic fc : Z) (p : DCArgs) : DCArgs :=
  {| ireg_data := ireg_data p; freg_data := freg_data p; stackptr := sp;
     ireg_count := ic; freg_count := fc; par_mem := par_mem p |}.

(** [(z + 7) & -8], in 32 bits *)
Definition round8 (z : Z) : Z := Z.land (wrapU 32 (z + 7)) (wrapU 32 (-8)).

Section Args.
Variable a : ppc32_abi.
Variable char_signed : bool.
#[local] Hint Extern 0 DataModel => exact (ppc32_dm char_signed) : typeclass_instances.

Definition dcbArgInt_darwin : SO DCArgs Z := fun p =>
  if ireg_count p <? 8
  then x ← aget (ireg_count p) (ireg_data p);
       Some (conv TInt x, args_at (stackptr p + 4) (ireg_count p + 1) (freg_count p) p)
  else bs ← rd (stackptr p) 4 (par_mem p);
       Some (conv TInt (dec BigEndian bs), args_at (stackptr p + 4) (ireg_count p) (freg_count p) p).

Definition dcbArgInt_sysv : SO DCArgs Z := fun p =>
  if ireg_count p <? 8
  then x ← aget (ireg_count p) (ireg_data p);
       Some (conv TInt x, args_at (stackptr p) (ireg_count p + 1) (freg_count p) p)
  else bs ← rd (stackptr p) 4 (par_mem p);
       Some (conv TInt (dec BigEndian bs), args_at (stackptr p + 4) (ireg_count p) (freg_count p) p).

Definition dcbArgInt : SO DCArgs Z := match a with Darwin => dcbArgInt_darwin | SysV => dcbArgInt_sysv end.
Definition dcbArgUInt : SO DCArgs Z := x ← dcbArgInt; mret (conv TUInt x).

Definition dcbArgULongLong_darwin : SO DCArgs Z :=
  hi ← dcbArgUInt; lo ← dcbArgUInt; mret (conv TULongLong (Z.lor (Z.shiftl hi 32) lo)).

(** Two registers from an even one on, or eight aligned bytes. *)
Definition dcbArgULongLong_sysv : SO DCArgs Z := fun p =>
  if ireg_count p <? 7 then
    let ic := Z.land (ireg_count p + 1) (-2) in
    hi ← aget ic (ireg_data p);
    lo ← aget (ic + 1) (ireg_data p);
    Some (conv TULongLong (conv TUInt hi * 2 ^ 32 + conv TUInt lo), args_at (stackptr p) (ic + 2) (freg_count p) p)
  else
    let sp := round8 (stackptr p) in
    bs ← rd sp 8 (par_mem p);
    Some (conv TULongLong (dec BigEndian bs), args_at (sp + 8) 8 (freg_count p) p).

Definition dcbArgULongLong : SO DCArgs Z :=
  match a with Darwin => dcbArgULongLong_darwin | SysV => dcbArgULongLong_sysv end.

Definition dcbArgLongLong : SO DCArgs Z := x ← dcbArgULongLong; mret (conv TLongLong x).
Definition dcbArgLong : SO DCArgs Z := x ← dcbArgUInt; mret (conv TLong x).
Definition dcbArgULong : SO DCArgs Z := x ← dcbArgUInt; mret (conv TULong x).
Definition dcbArgChar : SO DCArgs Z := x ← dcbArgUInt; mret (conv TChar x).
Definition dcbArgUChar : SO DCArgs Z := x ← dcbArgUInt; mret (conv TUChar x).
Definition dcbArgShort : SO DCArgs Z := x ← dcbArgUInt; mret (conv TShort x).
Definition dcbArgUShort : SO DCArgs Z := x ← dcbArgUInt; mret (conv TUShort x).
Definition dcbArgBool : SO DCArgs Z := x ← dcbArgUInt; mret (conv TBool x).
Definition dcbArgPointer : SO DCArgs Z := x ← dcbArgUInt; mret (conv TPointer x).

(** On Darwin the integer registers of a floating-point argument are skipped. *)
Definition dcbArgDouble_darwin : SO DCArgs Z := fun p =>
  let ic := if ireg_count p <? 7 then ireg_count p + 2 else if ireg_count p =? 7 then 8 else ireg_count p in
  if freg_count p <? 13
  then x ← aget (freg_count p) (freg_data p);
       Some (conv TDouble x, args_at (stackptr p + 8) ic (freg_count p + 1) p)
  else bs ← rd (stackptr p) 8 (par_mem p);
       Some (conv TDouble (dec BigEndian bs), args_at (stackptr p + 8) ic (freg_count p) p).

Definition dcbArgDouble_sysv : SO DCArgs Z := fun p =>
  if freg_count p <? 8
  then x ← aget (freg_count p) (freg_data p);
       Some (conv TDouble x, args_at (stackptr p) (ireg_count p) (freg_count p + 1) p)
  else
    let sp := round8 (stackptr p) in
    bs ← rd sp 8 (par_mem p);
    Some (conv TDouble (dec BigEndian bs), args_at (sp + 8) (ireg_count p) (freg_count p) p).

Definition dcbArgFloat_darwin : SO DCArgs Z := fun p =>
  let ic := if ireg_count p <? 8 then ireg_count p + 1 else ireg_count p in
  if freg_count p <? 13
  then x ← aget (freg_count p) (freg_data p);
       Some (conv TFloat (d2f x), args_at (stackptr p + 4) ic (freg_count p + 1) p)
  else bs ← rd (stackptr p) 4 (par_mem p);
       Some (conv TFloat (dec BigEndian bs), args_at (stackptr p + 4) ic (freg_count p) p).

Definition dcbArgFloat_sysv : SO DCArgs Z := fun p =>
  if freg_count p <? 8
  then x ← aget (freg_count p) (freg_data p);
       Some (conv TFloat (d2f x), args_at (stackptr p) (ireg_count p) (freg_count p + 1) p)
  else bs ← rd (stackptr p) 4 (par_mem p);
       Some (conv TFloat (dec BigEndian bs), args_at (stackptr p + 4) (ireg_count p) (freg_count p) p).

Definition dcbArgDouble : SO DCArgs Z := match a with Darwin => dcbArgDouble_darwin | SysV => dcbArgDouble_sysv end.
Definition dcbArgFloat : SO DCArgs Z := match a with Darwin => dcbArgFloat_darwin | SysV => dcbArgFloat_sysv end.

#[export] Instance ppc32_ArgReader : ArgReader DCArgs := {
  dcbArg t :=
    match t with
    | TBool => dcbArgBool | TChar => dcbArgChar | TUChar => dcbArgUChar
    | TShort => dcbArgShort | TUShort => dcbArgUShort | TInt => dcbArgInt
    | TUInt => dcbArgUInt | TLong => dcbArgLong | TULong => dcbArgULong
    | TLongLong => dcbArgLongLong | TULongLong => dcbArgULongLong
    | TFloat => dcbArgFloat | TDouble => dcbArgDouble
    | TPointer | TString => dcbArgPointer
    end;
}.
End Args.

(** ** Machine state and callbacks *)

(** r3-r10, f1-f13 (f1-f8 with System V), and the parameter area of the caller. *)
Record ppc32_cpu := { gprs : list Z; fprs : list Z; par_area : list Z }.

Record DCCallback := { cb_handler : Z; cb_userdata : Z }.

Definition dcbInitCallback2 (signature : list DCsigchar) (handler userdata : Z) : DCCallback :=
  {| cb_handler := handler; cb_userdata := userdata |}.

(** [dcCallbackThunkEntry] spills the registers. *)
Definition dcCallbackThunkEntry (cpu : ppc32_cpu) : DCArgs :=
  {| ireg_data := gprs cpu; freg_data := fprs cpu; stackptr := 0; ireg_count := 0; freg_count := 0;
     par_mem := par_area cpu |}.

(** r3, r4, and f1, which holds a [float] in the format of a [double]. *)
Record ppc32_ret := { ret_r3 : Z; ret_r4 : Z; ret_f1 : Z }.

(** Small members of a [DCValue] are in the low part of its first word. *)
Definition dcvalue_off {DM : DataModel} (t : cty) : Z :=
  match t with
  | TChar | TUChar | TShort | TUShort => 4 - sizeof_cty t
  | _ => 0
  end.

Definition dcvalue_set {DM : DataModel} (t : cty) (x : Z) (result : list Z) : option (list Z) :=
  wr (dcvalue_off t) (enc BigEndian (Z.to_nat (sizeof_cty t)) x) result.

(** What a handler does: read an argument, set the result. *)
Inductive handler_op := HArg (t : cty) | HResult (t : cty) (x : Z).

(** The two objects a handler is given.  The System V entry clears the [DCValue].
    In the frame of the Darwin entry [ARGS_SIZE] does not count the last three
    members of [DCArgs], so that the [DCValue] is in the place of [stackptr] and
    [ireg_count]: each is what was last stored in the other ([base]: the address
    of the parameter area). *)
Definition value_of_args (base : Z) (p : DCArgs) : list Z :=
  enc BigEndian 4 (base + stackptr p) ++ enc BigEndian 4 (ireg_count p).

Definition args_of_value (base : Z) (result : list Z) (p : DCArgs) : DCArgs :=
  args_at (dec BigEndian (take 4 result) - base) (wrapS 32 (dec BigEndian (drop 4 result))) (freg_count p) p.

Definition callback_slot (a : ppc32_abi) (base : Z) (p : DCArgs) : list Z :=
  match a with
  | SysV => enc BigEndian 4 0 ++ enc BigEndian 4 0
  | Darwin => value_of_args base p
  end.

Definition handler_step (a : ppc32_abi) (char_signed : bool) (base : Z) (o : handler_op) (s : DCArgs * list Z)
    : option (option arg * (DCArgs * list Z)) :=
  let '(p, result) := s in
  match o with
  | HArg t =>
    '(x, p) ← dcbArg (ArgReader := ppc32_ArgReader a char_signed) t p;
    Some (Some (Arg t x), (p, match a with SysV => result | Darwin => value_of_args base p end))
  | HResult t x =>
    result ← dcvalue_set (DM := ppc32_dm char_signed) t x result;
    Some (None, (match a with SysV => p | Darwin => args_of_value base result p end, result))
  end.

(** The arguments read, and the [DCValue] in the end. *)
Fixpoint run_handler (a : ppc32_abi) (char_signed : bool) (base : Z) (l : list handler_op) (s : DCArgs * list Z)
    : option (list arg * list Z) :=
  match l with
  | [] => Some ([], s.2)
  | o :: l =>
    '(x, s) ← handler_step a char_signed base o s;
    '(xs, result) ← run_handler a char_signed base l s;
    Some (match x with Some x => x :: xs | None => xs end, result)
  end.

(** Both entries load what the result character says ([r0]: the registers as the
    handler left them). *)
Definition callback_exit (r0 : ppc32_ret) (ch : DCsigchar) (result : list Z) : option ppc32_ret :=
  if Ascii.eqb ch DC_SIGCHAR_FLOAT then
    bs ← rd 0 4 result; Some {| ret_r3 := ret_r3 r0; ret_r4 := ret_r4 r0; ret_f1 := f2d (dec BigEndian bs) |}
  else if Ascii.eqb ch DC_SIGCHAR_DOUBLE then
    bs ← rd 0 8 result; Some {| ret_r3 := ret_r3 r0; ret_r4 := ret_r4 r0; ret_f1 := dec BigEndian bs |}
  else
    w0 ← rd 0 4 result;
    w1 ← rd 4 4 result;
    Some {| ret_r3 := dec BigEndian w0; ret_r4 := dec BigEndian w1; ret_f1 := ret_f1 r0 |}.

(** Where a caller finds a result of each type. *)
Definition ret_value {DM : DataModel} (t : cty) (r : ppc32_ret) : Z :=
  match t with
  | TFloat => conv t (d2f (ret_f1 r))
  | TDouble => conv t (ret_f1 r)
  | TLongLong | TULongLong => conv t (ret_r4 r + 2 ^ 32 * ret_r3 r)
  | _ => conv t (ret_r3 r)
  end.

(** [dcbInitThunk] (dyncall_thunk_ppc32.c, dyncall_thunk_ppc32_sysv.c) *)
Definition hi16 (x : Z) : Z := wrapU 16 (Z.shiftr (wrapU 32 x) 16).
Definition lo16 (x : Z) : Z := wrapU 16 (wrapU 32 x).

Definition dcbInitThunk (a : ppc32_abi) (p entry : Z) : list Z :=
  let '(lis, ori, lwz) := match a with
    | Darwin => (0x3c40, 0x6042, 0x81820014)
    | SysV => (0x3d60, 0x616b, 0x818b0014)
    end in
  enc BigEndian 2 lis ++ enc BigEndian 2 (hi16 p) ++ enc BigEndian 2 ori ++ enc BigEndian 2 (lo16 p)
  ++ store_words BigEndian 4 [lwz; 0x7d8903a6; 0x4e800420] ++ enc BigEndian 4 entry.

(** ** The call VM *)

Inductive ppc32_vt := gVT_ppc32_darwin_p | gVT_ppc32_sysv_p | gVT_ppc32_syscall_p.

Record DCCallVM_ppc32 := {
  p_vt : ppc32_vt; p_mError : Z;
  mIntRegs : Z; mFloatRegs : Z;
  mIntData : list Z; mFloatData : list Z;
  mVecHead : DCVecHead;
}.

Definition p_with_vt (v : ppc32_vt) (e : Z) (p : DCCallVM_ppc32) : DCCallVM_ppc32 :=
  {| p_vt := v; p_mError := e; mIntRegs := mIntRegs p; mFloatRegs := mFloatRegs p;
     mIntData := mIntData p; mFloatData := mFloatData p; mVecHead := mVecHead p |}.
Definition p_with_vec (w : DCVecHead) (p : DCCallVM_ppc32) : DCCallVM_ppc32 :=
  {| p_vt := p_vt p; p_mError := p_mError p; mIntRegs := mIntRegs p; mFloatRegs := mFloatRegs p;
     mIntData := mIntData p; mFloatData := mFloatData p; mVecHead := w |}.
Definition p_with_regs (ic fc : Z) (p : DCCallVM_ppc32) : DCCallVM_ppc32 :=
  {| p_vt := p_vt p; p_mError := p_mError p; mIntRegs := ic; mFloatRegs := fc;
     mIntData := mIntData p; mFloatData := mFloatData p; mVecHead := mVecHead p |}.

(** [mIntData[mIntRegs++] = x] and [mFloatData[mFloatRegs++] = x] *)
Definition put_int (x : Z) (p : DCCallVM_ppc32) : option DCCallVM_ppc32 :=
  d ← aset (mIntRegs p) x (mIntData p);
  Some {| p_vt := p_vt p; p_mError := p_mError p; mIntRegs := mIntRegs p + 1; mFloatRegs := mFloatRegs p;
          mIntData := d; mFloatData := mFloatData p; mVecHead := mVecHead p |}.
Definition put_float (x : Z) (p : DCCallVM_ppc32) : option DCCallVM_ppc32 :=
  d ← aset (mFloatRegs p) x (mFloatData p);
  Some {| p_vt := p_vt p; p_mError := p_mError p; mIntRegs := mIntRegs p; mFloatRegs := mFloatRegs p + 1;
          mIntData := mIntData p; mFloatData := d; mVecHead := mVecHead p |}.

(** The kernels get the register data, and the size and the bytes of the vector. *)
Inductive ppc32_kernel :=
  | dcCall_ppc32_darwin (target : Z) (ints floats : list Z) (stksize : Z) (stkdata : list Z)
  | dcCall_ppc32_sysv (target : Z) (ints floats : list Z) (stksize : Z) (stkdata : list Z)
  | dcCall_ppc32_syscall (target : Z) (ints floats : list Z) (stksize : Z) (stkdata : list Z).

(** The kernels copy whole words; that of System V loads eight of the
    floating-point registers.  The system call takes its number and five registers. *)
Definition kernel_enter (k : ppc32_kernel) : option ppc32_cpu :=
  match k with
  | dcCall_ppc32_darwin _ ints floats stksize stkdata =>
    ws ← load_words BigEndian 4 (Z.to_nat (wrapU 32 stksize / 4)) 0 stkdata;
    Some {| gprs := ints; fprs := floats; par_area := store_words BigEndian 4 ws |}
  | dcCall_ppc32_sysv _ ints floats stksize stkdata =>
    ws ← load_words BigEndian 4 (Z.to_nat (wrapU 32 stksize / 4)) 0 stkdata;
    Some {| gprs := ints; fprs := take 8 floats; par_area := store_words BigEndian 4 ws |}
  | dcCall_ppc32_syscall _ _ _ _ _ => None
  end.

Definition syscall_enter (k : ppc32_kernel) : option (Z * list Z) :=
  match k with
  | dcCall_ppc32_syscall target ints _ _ _ => Some (target, take 5 ints)
  | _ => None
  end.

Section Ppc32.
Variable a : ppc32_abi.
Variable char_signed : bool.
#[local] Hint Extern 0 DataModel => exact (ppc32_dm char_signed) : typeclass_instances.

Definition dc_callvm_free_ppc32 (_ : DCCallVM_ppc32) : unit := tt.
Definition dc_callvm_reset_ppc32 (self : DCCallVM_ppc32) : option DCCallVM_ppc32 :=
  Some (p_with_regs 0 0 (p_with_vec (dcVecReset (mVecHead self)) self)).

Definition p_append (self : DCCallVM_ppc32) (bs : list Z) : option DCCallVM_ppc32 :=
  w ← dcVecAppend (mVecHead self) bs (Z.of_nat (length bs)); Some (p_with_vec w self).

(** [dcVecResize(&self->mVecHead, (dcVecSize(&self->mVecHead) + 7) & -8)] *)
Definition p_align (self : DCCallVM_ppc32) : DCCallVM_ppc32 :=
  p_with_vec (dcVecResize (mVecHead self) (round8 (dcVecSize (mVecHead self)))) self.

Definition dc_callvm_argInt_ppc32_darwin (self : DCCallVM_ppc32) (i : Z) : option DCCallVM_ppc32 :=
  self ← (if mIntRegs self <? 8 then put_int i self else Some self);
  p_append self (enc BigEndian 4 i).

Definition dc_callvm_argInt_ppc32_sysv (self : DCCallVM_ppc32) (i : Z) : option DCCallVM_ppc32 :=
  if mIntRegs self <? 8 then put_int i self else p_append self (enc BigEndian 4 i).

(** The words of a 64-bit object, read as [DCint]. *)
Definition word0 (x : Z) : Z := conv TInt (x / 2 ^ 32).
Definition word1 (x : Z) : Z := conv TInt x.

Definition dc_callvm_argDouble_ppc32_darwin (self : DCCallVM_ppc32) (d : Z) : option DCCallVM_ppc32 :=
  self ← (if mFloatRegs self <? 13 then
            self ← put_float d self;
            self ← (if mIntRegs self <? 8 then put_int (word0 d) self else Some self);
            (if mIntRegs self <? 8 then put_int (word1 d) self else Some self)
          else Some self);
  p_append self (enc BigEndian 8 d).

Definition dc_callvm_argDouble_ppc32_sysv (self : DCCallVM_ppc32) (d : Z) : option DCCallVM_ppc32 :=
  if mFloatRegs self <? 8 then put_float d self else p_append (p_align self) (enc BigEndian 8 d).

Definition dc_callvm_argFloat_ppc32_darwin (self : DCCallVM_ppc32) (f : Z) : option DCCallVM_ppc32 :=
  self ← (if mFloatRegs self <? 13 then put_float (f2d f) self else Some self);
  self ← (if mIntRegs self <? 8 then put_int (conv TInt f) self else Some self);
  p_append self (enc BigEndian 4 f).

Definition dc_callvm_argFloat_ppc32_sysv (self : DCCallVM_ppc32) (f : Z) : option DCCallVM_ppc32 :=
  if mFloatRegs self <? 8 then put_float (f2d f) self else p_append self (enc BigEndian 4 f).

(** [dcArgInt] of the API, which the promoting functions call, goes through the
    table of the VM again. *)
Definition again_Int (self : DCCallVM_ppc32) (i : Z) : option DCCallVM_ppc32 :=
  match p_vt self with
  | gVT_ppc32_darwin_p => dc_callvm_argInt_ppc32_darwin self i
  | gVT_ppc32_sysv_p | gVT_ppc32_syscall_p => dc_callvm_argInt_ppc32_sysv self i
  end.

Definition dc_callvm_argLongLong_ppc32_darwin (self : DCCallVM_ppc32) (L : Z) : option DCCallVM_ppc32 :=
  self ← again_Int self (word0 L); again_Int self (word1 L).

Definition dc_callvm_argLongLong_ppc32_sysv (self : DCCallVM_ppc32) (L : Z) : option DCCallVM_ppc32 :=
  if mIntRegs self <? 7 then
    let self := if Z.odd (mIntRegs self) then p_with_regs (mIntRegs self + 1) (mFloatRegs self) self else self in
    self ← put_int (word0 L) self; put_int (word1 L) self
  else p_append (p_align (p_with_regs 8 (mFloatRegs self) self)) (enc BigEndian 8 L).

Definition dc_callvm_argBool_ppc32 (self : DCCallVM_ppc32) (x : Z) := again_Int self (if x =? 0 then 0 else 1).
Definition dc_callvm_argChar_ppc32 (self : DCCallVM_ppc32) (x : Z) := again_Int self (conv TInt x).
Definition dc_callvm_argShort_ppc32 (self : DCCallVM_ppc32) (x : Z) := again_Int self (conv TInt x).
Definition dc_callvm_argLong_ppc32 (self : DCCallVM_ppc32) (x : Z) := again_Int self (conv TInt x).
Definition dc_callvm_argPointer_ppc32 (self : DCCallVM_ppc32) (x : Z) := again_Int self (conv TInt x).

(** On Darwin a call copies eight words at least. *)
Definition dc_callvm_call_ppc32_darwin (self : DCCallVM_ppc32) (target : Z) : ppc32_kernel :=
  dcCall_ppc32_darwin target (mIntData self) (mFloatData self) (Z.max (dcVecSize (mVecHead self)) (8 * 4))
    (vec_data (mVecHead self)).
Definition dc_callvm_call_ppc32_sysv (self : DCCallVM_ppc32) (target : Z) : ppc32_kernel :=
  dcCall_ppc32_sysv target (mIntData self) (mFloatData self) (dcVecSize (mVecHead self)) (vec_data (mVecHead self)).
Definition dc_callvm_call_ppc32_syscall (self : DCCallVM_ppc32) (target : Z) : ppc32_kernel :=
  dcCall_ppc32_syscall target (mIntData self) (mFloatData self) (dcVecSize (mVecHead self)) (vec_data (mVecHead self)).

Definition dc_callvm_mode_ppc32 (self : DCCallVM_ppc32) (mode : Z) : option DCCallVM_ppc32 :=
  let base_init vt := p_with_vt vt DC_ERROR_NONE self in
  let default := (mode =? DC_CALL_C_DEFAULT) || (mode =? DC_CALL_C_DEFAULT_THIS) || (mode =? DC_CALL_C_ELLIPSIS)
                 || (mode =? DC_CALL_C_ELLIPSIS_VARARGS) in
  Some
    (if (match a with Darwin => default | SysV => false end) || (mode =? DC_CALL_C_PPC32_OSX)
     then base_init gVT_ppc32_darwin_p
     else if (match a with Darwin => false | SysV => default end) || (mode =? DC_CALL_C_PPC32_SYSV)
     then base_init gVT_ppc32_sysv_p
     else if (mode =? DC_CALL_SYS_DEFAULT) || (mode =? DC_CALL_SYS_PPC32) then base_init gVT_ppc32_syscall_p
     else p_with_vt (p_vt self) DC_ERROR_UNSUPPORTED_MODE self).

Definition gVT_ppc32_darwin : DCCallVM_vt DCCallVM_ppc32 ppc32_kernel ppc32_ret := Build_DCCallVM_vt
  dc_callvm_free_ppc32 dc_callvm_reset_ppc32 dc_callvm_mode_ppc32
  dc_callvm_argBool_ppc32 dc_callvm_argChar_ppc32 dc_callvm_argShort_ppc32 dc_callvm_argInt_ppc32_darwin
  dc_callvm_argLong_ppc32 dc_callvm_argLongLong_ppc32_darwin dc_callvm_argFloat_ppc32_darwin
  dc_callvm_argDouble_ppc32_darwin dc_callvm_argPointer_ppc32
  None (* argAggr *)
  dc_callvm_call_ppc32_darwin dc_callvm_call_ppc32_darwin dc_callvm_call_ppc32_darwin
  dc_callvm_call_ppc32_darwin dc_callvm_call_ppc32_darwin dc_callvm_call_ppc32_darwin
  dc_callvm_call_ppc32_darwin dc_callvm_call_ppc32_darwin dc_callvm_call_ppc32_darwin
  dc_callvm_call_ppc32_darwin
  None (* callAggr *)
  None (* beginAggr *).

Definition gVT_ppc32_sysv : DCCallVM_vt DCCallVM_ppc32 ppc32_kernel ppc32_ret := Build_DCCallVM_vt
  dc_callvm_free_ppc32 dc_callvm_reset_ppc32 dc_callvm_mode_ppc32
  dc_callvm_argBool_ppc32 dc_callvm_argChar_ppc32 dc_callvm_argShort_ppc32 dc_callvm_argInt_ppc32_sysv
  dc_callvm_argLong_ppc32 dc_callvm_argLongLong_ppc32_sysv dc_callvm_argFloat_ppc32_sysv
  dc_callvm_argDouble_ppc32_sysv dc_callvm_argPointer_ppc32
  None (* argAggr *)
  dc_callvm_call_ppc32_sysv dc_callvm_call_ppc32_sysv dc_callvm_call_ppc32_sysv dc_callvm_call_ppc32_sysv
  dc_callvm_call_ppc32_sysv dc_callvm_call_ppc32_sysv dc_callvm_call_ppc32_sysv dc_callvm_call_ppc32_sysv
  dc_callvm_call_ppc32_sysv dc_callvm_call_ppc32_sysv
  None (* callAggr *)
  None (* beginAggr *).

Definition gVT_ppc32_syscall : DCCallVM_vt DCCallVM_ppc32 ppc32_kernel ppc32_ret := Build_DCCallVM_vt
  dc_callvm_free_ppc32 dc_callvm_reset_ppc32 dc_callvm_mode_ppc32
  dc_callvm_argBool_ppc32 dc_callvm_argChar_ppc32 dc_callvm_argShort_ppc32 dc_callvm_argInt_ppc32_sysv
  dc_callvm_argLong_ppc32 dc_callvm_argLongLong_ppc32_sysv dc_callvm_argFloat_ppc32_sysv
  dc_callvm_argDouble_ppc32_sysv dc_callvm_argPointer_ppc32
  None (* argAggr *)
  dc_callvm_call_ppc32_syscall dc_callvm_call_ppc32_syscall dc_callvm_call_ppc32_syscall
  dc_callvm_call_ppc32_syscall dc_callvm_call_ppc32_syscall dc_callvm_call_ppc32_syscall
  dc_callvm_call_ppc32_syscall dc_callvm_call_ppc32_syscall dc_callvm_call_ppc32_syscall
  dc_callvm_call_ppc32_syscall
  None (* callAggr *)
  None (* beginAggr *).

(** [dcNewCallVM]: [alloc] is the memory behind the header, of the requested size. *)
Definition dcNewCallVM (mem : DCCallVM_ppc32) (alloc : option (list Z)) (size : Z) : option DCCallVM_ppc32 :=
  alloc ← alloc;
  p ← dc_callvm_mode_ppc32 mem DC_CALL_C_DEFAULT;
  dc_callvm_reset_ppc32 (p_with_vec (dcVecInit alloc size) p).

#[export] Instance ppc32_CallVM : CallVM DCCallVM_ppc32 ppc32_vt ppc32_kernel ppc32_ret := {
  mVTpointer := p_vt;
  mError := p_mError;
  deref t :=
    match t with
    | gVT_ppc32_darwin_p => gVT_ppc32_darwin
    | gVT_ppc32_sysv_p => gVT_ppc32_sysv
    | gVT_ppc32_syscall_p => gVT_ppc32_syscall
    end;
}.
End Ppc32.
