(* ===== verification/Ppc32Proofs.v ===== *)
(** * 32-bit PowerPC: calls and callbacks agree

    On Darwin the first eight registers mirror the vector, whose words the reader
    counts.  With System V an argument has one place, which VM and reader find by
    the same counters. *)

From S2P Require Export Ppc32.

(** The words of a 64-bit value. *)
Lemma enc8_words L :
  enc BigEndian 8 L = enc BigEndian 4 (L / 2 ^ 32) ++ enc BigEndian 4 L.
Proof. apply (enc_be_app 4 4). Qed.

Lemma enc4_wrapS x : enc BigEndian 4 (wrapS 32 x) = enc BigEndian 4 x.
Proof. by apply (enc_wrapS BigEndian 4). Qed.

(** ** Registers *)

Section Registers.
Variable cs : bool.

Definition int_reg (vm : DCCallVM_ppc32) (w : Z) : option DCCallVM_ppc32 :=
  if mIntRegs vm <? 8 then put_int w vm else Some vm.

(** The registers of [vm] take the words [ws]. *)
Record ints_grow (vm vm1 : DCCallVM_ppc32) (ws : list Z) : Prop := {
  ig_same : p_vt vm1 = p_vt vm /\ mVecHead vm1 = mVecHead vm /\ mFloatRegs vm1 = mFloatRegs vm /\
            mFloatData vm1 = mFloatData vm;
  ig_count : mIntRegs vm1 = Z.min 8 (mIntRegs vm + Z.of_nat (length ws));
  ig_old : forall k, 0 <= k < mIntRegs vm -> aget k (mIntData vm1) = aget k (mIntData vm);
  ig_new : forall j w, ws !! j = Some w -> mIntRegs vm + Z.of_nat j < 8 ->
           aget (mIntRegs vm + Z.of_nat j) (mIntData vm1) = Some w;
  ig_len : length (mIntData vm1) = 8%nat;
}.

Lemma int_words_ok ws : forall vm,
  0 <= mIntRegs vm <= 8 -> length (mIntData vm) = 8%nat ->
  exists vm1, foldM int_reg vm ws = Some vm1 /\ ints_grow vm vm1 ws.
Proof.
  induction ws as [|w ws IH]; intros vm Hi Hl.
  { exists vm. split; [done|]. split; try done. cbn. lia. }
  cbn [foldM]. change (int_reg vm w) with (if mIntRegs vm <? 8 then put_int w vm else Some vm).
  destruct (Z.ltb_spec (mIntRegs vm) 8).
  - unfold put_int at 1. rewrite aset_Some by lia. cbn [mbind option_bind].
    set (vm1 := {| p_vt := _ |}). destruct (IH vm1) as (vm2 & -> & [Gs Gc Go Gn Gl]); [cbn; lia|cbn; by rewrite length_insert|].
    exists vm2. split; [done|]. cbn [vm1 p_vt mVecHead mFloatRegs mFloatData mIntRegs mIntData] in *. split; try done.
    + cbn [length]. lia.
    + intros k Hk. rewrite Go by lia. apply aget_insert_ne; lia.
    + intros [|j] x Hj Hjb; cbn in Hj.
      * injection Hj as <-. rewrite Z.add_0_r, Go by lia. apply aget_insert_eq. lia.
      * replace (mIntRegs vm + Z.of_nat (S j)) with (mIntRegs vm + 1 + Z.of_nat j) by lia. apply Gn; [done|lia].
  - cbn [mbind option_bind]. destruct (IH vm Hi Hl) as (vm2 & -> & [Gs Gc Go Gn Gl]).
    exists vm2. split; [done|]. split; try done; [cbn [length]; lia|]. intros. lia.
Qed.

Lemma put_float_ok vm x :
  0 <= mFloatRegs vm < 13 -> length (mFloatData vm) = 13%nat ->
  exists vm1, put_float x vm = Some vm1 /\ p_vt vm1 = p_vt vm /\ mVecHead vm1 = mVecHead vm /\
    mIntRegs vm1 = mIntRegs vm /\ mIntData vm1 = mIntData vm /\ mFloatRegs vm1 = mFloatRegs vm + 1 /\
    length (mFloatData vm1) = 13%nat /\ aget (mFloatRegs vm) (mFloatData vm1) = Some x /\
    (forall k, 0 <= k < mFloatRegs vm -> aget k (mFloatData vm1) = aget k (mFloatData vm)).
Proof.
  intros Hf Hl. unfold put_float. rewrite aset_Some by lia. eexists. split_and!; try done; cbn.
  - by rewrite length_insert.
  - apply aget_insert_eq. lia.
  - intros k Hk. apply aget_insert_ne; lia.
Qed.

(** Appending whole words to a vector of words. *)
Lemma p_append_ok vm bs :
  let DM := ppc32_dm cs in
  vec_wf (mVecHead vm) -> mSize (mVecHead vm) + Z.of_nat (length bs) <= mTotal (mVecHead vm) ->
  exists w, p_append cs vm bs = Some (p_with_vec w vm) /\ vec_wf w /\ mTotal w = mTotal (mVecHead vm) /\
    mSize w = mSize (mVecHead vm) + Z.of_nat (length bs) /\ length (vec_data w) = length (vec_data (mVecHead vm)) /\
    vec_bytes w = vec_bytes (mVecHead vm) ++ bs /\
    (Forall is_byte (vec_data (mVecHead vm)) -> Forall is_byte bs -> Forall is_byte (vec_data w)).
Proof.
  intros DM Hw Hr. destruct (dcVecAppend_ok (DM := DM) (mVecHead vm) bs _ Hw eq_refl Hr)
    as (w & Hap & Hww & Htw & Hsw & Hlw & Hbw & _).
  unfold p_append. fold DM. rewrite Hap. exists w. split_and!; try done.
  intros Hb Hbs. eapply dcVecAppend_bytes; [exact Hap|done..].
Qed.
End Registers.

(** The API calls, by what they give the VM. *)
Section Push.
Variable a : ppc32_abi.
Variable cs : bool.
#[local] Hint Extern 0 DataModel => exact (ppc32_dm cs) : typeclass_instances.
#[local] Abbreviation C := (ppc32_CallVM a cs).

(** An argument of one word goes through [dcArgInt]. *)
Lemma push_arg_ppc32 vm x :
  arg_ok x ->
  exists y, conv (a_ty x) y = a_val x /\ (is_float (a_ty x) = true -> y = a_val x) /\
    push_arg (C := C) vm x =
    match a_ty x with
    | TFloat => vt_argFloat (deref (CallVM := C) (p_vt vm)) vm y
    | TDouble => vt_argDouble (deref (CallVM := C) (p_vt vm)) vm y
    | TLongLong | TULongLong => vt_argLongLong (deref (CallVM := C) (p_vt vm)) vm y
    | _ => again_Int cs vm (conv TInt y)
    end.
Proof.
  destruct x as [t x]. unfold arg_ok. cbn [a_ty a_val]. intros Hx. pose proof (val_ok_conv t x Hx) as Hc.
  pose proof (conv_api_value t x) as E. rewrite Hc in E.
  assert (EI : forall z, conv TInt (conv TInt z) = conv TInt z) by (intros; by apply conv_conv).
  unfold push_arg, dcArgBool, dcArgChar, dcArgShort, dcArgInt, dcArgLong, dcArgLongLong, dcArgPointer,
    dcArgFloat, dcArgDouble, vtable. cbn [a_ty a_val].
  destruct t; cbn [api_value] in *;
    first [exists x; split_and!; [exact Hc|done|reflexivity]
          |eexists; split_and!; [exact E|done|by cbn [ppc32_CallVM mVTpointer deref]; destruct (p_vt vm)]
          |idtac].
  - exists x. split_and!; [exact Hc|done|]. destruct Hx as [-> | ->]; cbn [ppc32_CallVM mVTpointer deref]; by destruct (p_vt vm).
  - eexists; split_and!; [exact E|done|]. cbn [ppc32_CallVM mVTpointer deref]. unfold again_Int. destruct (p_vt vm) eqn:Ev; cbn -[conv]; by rewrite ?Ev, ?EI, ?Hc.
  - eexists; split_and!; [exact E|done|]. cbn [ppc32_CallVM mVTpointer deref]. unfold again_Int. destruct (p_vt vm) eqn:Ev; cbn -[conv]; by rewrite ?Ev, ?EI.
Qed.
End Push.

(** ** Darwin *)

Section Darwin.
Variable cs : bool.
#[local] Hint Extern 0 DataModel => exact (ppc32_dm cs) : typeclass_instances.
#[local] Abbreviation C := (ppc32_CallVM Darwin cs).
#[local] Abbreviation RD := (ppc32_ArgReader Darwin cs).

(** The argument words so far. *)
Definition words (vm : DCCallVM_ppc32) : Z := mSize (mVecHead vm) / 4.

Record d_inv (vm : DCCallVM_ppc32) : Prop := {
  di_vt : p_vt vm = gVT_ppc32_darwin_p;
  di_vec : vec_wf (mVecHead vm) /\ vec_room (mVecHead vm) 0;
  di_bytes : Forall is_byte (vec_data (mVecHead vm));
  di_size : mSize (mVecHead vm) = 4 * words vm;
  di_ints : mIntRegs vm = Z.min 8 (words vm);
  di_mirror : forall k bs, 0 <= k < 8 -> rd (4 * k) 4 (vec_bytes (mVecHead vm)) = Some bs ->
              aget k (mIntData vm) = Some (conv TInt (dec BigEndian bs));
  di_floats : 0 <= mFloatRegs vm <= 13 /\ mFloatRegs vm <= words vm;
  di_len : length (mIntData vm) = 8%nat /\ length (mFloatData vm) = 13%nat;
}.

Lemma words_nonneg vm : d_inv vm -> 0 <= words vm.
Proof. intros [_ [[Hs _ _] _] _ Hsz _ _ _ _]. lia. Qed.

Record d_ext (vm vm' : DCCallVM_ppc32) : Prop := {
  dx_bytes : prefix (vec_bytes (mVecHead vm)) (vec_bytes (mVecHead vm'));
  dx_floats : mFloatRegs vm <= mFloatRegs vm' /\
              forall k, 0 <= k < mFloatRegs vm -> aget k (mFloatData vm') = aget k (mFloatData vm);
}.

Lemma d_ext_refl vm : d_ext vm vm.
Proof. by split. Qed.

Lemma d_ext_trans a b c : d_ext a b -> d_ext b c -> d_ext a c.
Proof.
  intros [H1 [H2 H3]] [G1 [G2 G3]]. split; [by etrans|split; [lia|]]. intros k Hk. by rewrite G3, H3 by lia.
Qed.

(** [vm'] is [vm] with the words [ws] pushed, and with [x] in a floating-point
    register if [fp]. *)
Record d_pushed (vm vm' : DCCallVM_ppc32) (fp : option Z) (ws : list Z) : Prop := {
  dp_inv : d_inv vm';
  dp_ext : d_ext vm vm';
  dp_bytes : vec_bytes (mVecHead vm') = vec_bytes (mVecHead vm) ++ store_words BigEndian 4 ws;
  dp_words : words vm' = words vm + Z.of_nat (length ws);
  dp_same : mTotal (mVecHead vm') = mTotal (mVecHead vm) /\
            length (vec_data (mVecHead vm')) = length (vec_data (mVecHead vm));
  dp_float : mFloatRegs vm' = match fp with Some _ => Z.min 13 (mFloatRegs vm + 1) | None => mFloatRegs vm end;
  dp_fpr : forall x, fp = Some x -> mFloatRegs vm < 13 -> aget (mFloatRegs vm) (mFloatData vm') = Some x;
}.

Lemma store_words_bytes ws : Forall is_byte (store_words BigEndian 4 ws).
Proof.
  induction ws as [|w ws IH]; [constructor|]. unfold store_words in *. cbn [map concat].
  apply Forall_app. split; [apply enc_bytes|done].
Qed.

Lemma rd_store_words k bs ws :
  0 <= k -> rd (4 * k) 4 (store_words BigEndian 4 ws) = Some bs ->
  exists w, ws !! Z.to_nat k = Some w /\ bs = enc BigEndian 4 w.
Proof.
  revert k. induction ws as [|w ws IH]; intros k Hk Hrd.
  { apply rd_bound in Hrd. cbn in Hrd. lia. }
  change (store_words BigEndian 4 (w :: ws)) with (enc BigEndian 4 w ++ store_words BigEndian 4 ws) in Hrd.
  destruct (decide (k = 0)) as [->|Hk0].
  - rewrite rd0_app in Hrd by apply length_enc. injection Hrd as <-. by exists w.
  - apply (rd_beyond 4) in Hrd; [|lia]. rewrite drop_app_length' in Hrd by by rewrite length_enc.
    replace (4 * k - Z.of_nat 4) with (4 * (k - 1)) in Hrd by lia.
    destruct (IH (k - 1) ltac:(lia) Hrd) as (w' & Hw' & ->). exists w'. split; [|done].
    by replace (Z.to_nat k) with (S (Z.to_nat (k - 1))) by lia.
Qed.

(** The words go into the registers and into the vector. *)
Lemma d_push vm vm0 fp ws :
  d_inv vm -> p_vt vm0 = p_vt vm -> mVecHead vm0 = mVecHead vm -> mIntRegs vm0 = mIntRegs vm ->
  mIntData vm0 = mIntData vm -> length (mFloatData vm0) = 13%nat -> ws <> [] ->
  Forall (fun w => conv TInt w = w) ws ->
  mFloatRegs vm0 = match fp with Some _ => Z.min 13 (mFloatRegs vm + 1) | None => mFloatRegs vm end ->
  (forall k, 0 <= k < mFloatRegs vm -> aget k (mFloatData vm0) = aget k (mFloatData vm)) ->
  (forall x, fp = Some x -> mFloatRegs vm < 13 -> aget (mFloatRegs vm) (mFloatData vm0) = Some x) ->
  mSize (mVecHead vm) + 4 * Z.of_nat (length ws) <= mTotal (mVecHead vm) ->
  exists vm1 vm', foldM int_reg vm0 ws = Some vm1 /\ p_append cs vm1 (store_words BigEndian 4 ws) = Some vm' /\
    d_pushed vm vm' fp ws.
Proof.
  intros Hi Ev Evec Eic Eid Hfl Hne Hws Efc Hfo Hfx Hr. pose proof (words_nonneg vm Hi) as Hw0.
  destruct Hi as [Hvt [Hwf H0] Hb Hs Hic Hmir [Hf0 Hfw] [Hl1 Hl2]].
  destruct (int_words_ok ws vm0) as (vm1 & Hg & [(Gv & Gvec & Gfc & Gfd) Gc Go Gn Gl]); [lia|by rewrite Eid|].
  pose proof (length_store_words BigEndian 4 ws) as Lws.
  destruct (p_append_ok cs vm1 (store_words BigEndian 4 ws)) as (w & Hap & Hww & Htw & Hsw & Hlw & Hbw & Hby);
    [by rewrite Gvec, Evec|rewrite Gvec, Evec; lia|].
  rewrite Gvec, Evec in *. exists vm1, (p_with_vec w vm1). split_and!; [done..|].
  assert (Hn : 1 <= Z.of_nat (length ws)) by (destruct ws; [done|cbn; lia]).
  assert (Ew : words (p_with_vec w vm1) = words vm + Z.of_nat (length ws)).
  { unfold words at 1. cbn [mVecHead p_with_vec]. rewrite Hsw, Hs, Lws.
    replace (4 * words vm + Z.of_nat (length ws * 4)) with ((words vm + Z.of_nat (length ws)) * 4) by lia. by rewrite Z.div_mul. }
  assert (Lb : Z.of_nat (length (vec_bytes (mVecHead vm))) = 4 * words vm) by (rewrite length_vec_bytes; done).
  split; cbn [mVecHead p_with_vec mFloatRegs mFloatData]; try done; try by rewrite Gfc, ?Gfd.
  - split; cbn [mVecHead p_with_vec mFloatRegs mFloatData mIntRegs mIntData p_vt]; try done; try congruence.
    + split; [done|]. unfold vec_room. rewrite Hsw, Htw, Lws. lia.
    + apply Hby; [done|apply store_words_bytes].
    + rewrite Hsw, Ew, Lws. lia.
    + rewrite Ew, Gc, Eic, Hic. lia.
    + intros k bs Hk Hrd. rewrite Hbw in Hrd. destruct (Z.lt_ge_cases k (words vm)) as [Hlt|Hge].
      * rewrite Go, Eid by lia. apply Hmir; [done|].
        destruct (rd_Some (4 * k) 4 (vec_bytes (mVecHead vm))) as (bs' & Hbs' & _); [lia..|].
        pose proof (rd_prefix _ _ _ _ _ (prefix_app_r _ _ (store_words BigEndian 4 ws) (reflexivity _)) Hbs') as Hrd'.
        rewrite Hrd in Hrd'. by injection Hrd' as ->.
      * apply (rd_beyond (length (vec_bytes (mVecHead vm)))) in Hrd; [|lia]. rewrite drop_app_length in Hrd.
        replace (4 * k - Z.of_nat (length (vec_bytes (mVecHead vm)))) with (4 * (k - words vm)) in Hrd by lia.
        apply rd_store_words in Hrd as (x & Hx & ->); [|lia].
        replace k with (mIntRegs vm0 + Z.of_nat (Z.to_nat (k - words vm))) by lia. rewrite (Gn _ x Hx) by lia.
        rewrite dec_enc, conv_wrapU by (vm_compute; done). f_equal. symmetry.
        rewrite Forall_lookup in Hws. by eapply Hws.
    + rewrite Gfc, Efc, Ew. destruct fp; lia.
    + split; [done|]. by rewrite Gfd.
  - split; cbn [mVecHead p_with_vec mFloatRegs mFloatData].
    + rewrite Hbw. by apply prefix_app_r.
    + rewrite Gfc, Gfd, Efc. split; [destruct fp; lia|done].
  - intros x. rewrite Gfd. apply Hfx.
Qed.

Lemma d_push_ints vm ws :
  d_inv vm -> ws <> [] -> Forall (fun w => conv TInt w = w) ws ->
  mSize (mVecHead vm) + 4 * Z.of_nat (length ws) <= mTotal (mVecHead vm) ->
  exists vm1 vm', foldM int_reg vm ws = Some vm1 /\ p_append cs vm1 (store_words BigEndian 4 ws) = Some vm' /\
    d_pushed vm vm' None ws.
Proof. intros Hi Hne Hws Hr. pose proof (di_len vm Hi) as [_ Hl]. by apply d_push. Qed.

Lemma d_pushed_trans vm vm1 vm2 ws1 ws2 :
  d_pushed vm vm1 None ws1 -> d_pushed vm1 vm2 None ws2 -> d_pushed vm vm2 None (ws1 ++ ws2).
Proof.
  intros [Hi Hx Hb Hw [Ht Hl] Hf _] [Gi Gx Gb Gw [Gt Gl] Gf _]. split; try done; try congruence.
  - by eapply d_ext_trans.
  - by rewrite Gb, Hb, store_words_app, app_assoc.
  - rewrite length_app. lia.
  - split; congruence.
Qed.

(** The words of an argument, and what goes into a floating-point register. *)
Definition arg_words (t : cty) (y : Z) : list Z := if is_wide t then [word0 cs y; word1 cs y] else [conv TInt y].
Definition arg_fpr (t : cty) (y : Z) : option Z :=
  match t with TFloat => Some (f2d y) | TDouble => Some y | _ => None end.

Lemma store_arg_words t y : store_words BigEndian 4 (arg_words t y) = enc BigEndian (Z.to_nat (arg_size t)) y.
Proof.
  unfold arg_words, arg_size, word0, word1, store_words. destruct (is_wide t); cbn [map concat]; rewrite app_nil_r.
  - change (conv TInt ?z) with (wrapS 32 z). by rewrite !enc4_wrapS, <- enc8_words.
  - change (conv TInt ?z) with (wrapS 32 z). by rewrite enc4_wrapS.
Qed.

Lemma length_arg_words t y : 4 * Z.of_nat (length (arg_words t y)) = arg_size t.
Proof. unfold arg_words, arg_size. by destruct (is_wide t). Qed.

Lemma arg_words_int t y : Forall (fun w => conv TInt w = w) (arg_words t y) /\ arg_words t y <> [].
Proof.
  unfold arg_words, word0, word1. destruct (is_wide t); (split; [|done]);
    repeat (constructor; [by apply conv_conv|]); constructor.
Qed.

Definition d_room (vm : DCCallVM_ppc32) (t : cty) : Prop := mSize (mVecHead vm) + arg_size t <= mTotal (mVecHead vm).

Lemma argInt_darwin vm y :
  d_inv vm -> mSize (mVecHead vm) + 4 <= mTotal (mVecHead vm) ->
  exists vm', dc_callvm_argInt_ppc32_darwin cs vm (conv TInt y) = Some vm' /\ d_pushed vm vm' None [conv TInt y].
Proof.
  intros Hi Hr. destruct (d_push_ints vm [conv TInt y] Hi) as (vm1 & vm' & Hg & Hp & Hpu); [done|by repeat constructor; apply conv_conv|done|].
  exists vm'. split; [|done]. unfold dc_callvm_argInt_ppc32_darwin. cbn [foldM] in Hg.
  apply bind_Some in Hg as (vm2 & Hg & [= ->]). unfold int_reg in Hg. rewrite Hg. cbn [mbind option_bind].
  unfold store_words in Hp. cbn [map concat] in Hp. by rewrite app_nil_r in Hp.
Qed.

(** A floating-point argument: first its register. *)
Definition float_reg (x : Z) (vm : DCCallVM_ppc32) : option DCCallVM_ppc32 :=
  if mFloatRegs vm <? 13 then put_float x vm else Some vm.

Lemma d_push_float vm x ws :
  d_inv vm -> ws <> [] -> Forall (fun w => conv TInt w = w) ws ->
  mSize (mVecHead vm) + 4 * Z.of_nat (length ws) <= mTotal (mVecHead vm) ->
  exists vm0 vm1 vm', float_reg x vm = Some vm0 /\ foldM int_reg vm0 ws = Some vm1 /\
    p_append cs vm1 (store_words BigEndian 4 ws) = Some vm' /\ d_pushed vm vm' (Some x) ws.
Proof.
  intros Hi Hne Hws Hr. pose proof (di_len vm Hi) as [_ Hl]. pose proof (di_floats vm Hi) as [Hf _].
  unfold float_reg. destruct (Z.ltb_spec (mFloatRegs vm) 13).
  - destruct (put_float_ok vm x) as (vm0 & Hp & E1 & E2 & E3 & E4 & E5 & E6 & E7 & E8); [lia|done|].
    rewrite Hp. exists vm0. destruct (d_push vm vm0 (Some x) ws) as (vm1 & vm' & ? & ? & ?); try done; [lia| |by exists vm1, vm'].
    by intros _ [= <-].
  - exists vm. destruct (d_push vm vm (Some x) ws) as (vm1 & vm' & ? & ? & ?); try done; [lia|lia|by exists vm1, vm'].
Qed.

Lemma foldM_full vm ws : 8 <= mIntRegs vm -> foldM int_reg vm ws = Some vm.
Proof.
  intros H. induction ws as [|w ws IH]; [done|]. cbn [foldM]. unfold int_reg at 2.
  by rewrite (proj2 (Z.ltb_ge _ _)).
Qed.

Lemma argFloat_darwin vm f :
  d_inv vm -> d_room vm TFloat ->
  exists vm', dc_callvm_argFloat_ppc32_darwin cs vm f = Some vm' /\ d_pushed vm vm' (Some (f2d f)) (arg_words TFloat f).
Proof.
  intros Hi Hr. destruct (arg_words_int TFloat f) as [Hw Hne]. unfold d_room in Hr.
  rewrite <- (length_arg_words TFloat f) in Hr.
  destruct (d_push_float vm (f2d f) _ Hi Hne Hw Hr) as (vm0 & vm1 & vm' & Hf & Hg & Hp & Hpu).
  exists vm'. split; [|done]. rewrite store_arg_words in Hp. unfold dc_callvm_argFloat_ppc32_darwin.
  unfold float_reg in Hf. rewrite Hf. cbn [mbind option_bind]. cbn [arg_words is_wide foldM] in Hg.
  apply bind_Some in Hg as (vm2 & Hg & [= ->]). unfold int_reg in Hg. rewrite Hg. exact Hp.
Qed.

Lemma argDouble_darwin vm d :
  d_inv vm -> d_room vm TDouble ->
  exists vm', dc_callvm_argDouble_ppc32_darwin cs vm d = Some vm' /\ d_pushed vm vm' (Some d) (arg_words TDouble d).
Proof.
  intros Hi Hr. destruct (arg_words_int TDouble d) as [Hw Hne]. unfold d_room in Hr.
  rewrite <- (length_arg_words TDouble d) in Hr.
  destruct (d_push_float vm d _ Hi Hne Hw Hr) as (vm0 & vm1 & vm' & Hf & Hg & Hp & Hpu).
  exists vm'. split; [|done]. rewrite store_arg_words in Hp. unfold dc_callvm_argDouble_ppc32_darwin.
  unfold float_reg in Hf. destruct (Z.ltb_spec (mFloatRegs vm) 13).
  - rewrite Hf. cbn [mbind option_bind]. cbn [arg_words is_wide foldM] in Hg. unfold int_reg in Hg.
    apply bind_Some in Hg as (vm2 & Hg1 & (vm3 & Hg2 & [= ->])%bind_Some). rewrite Hg1. cbn [mbind option_bind].
    rewrite Hg2. exact Hp.
  - injection Hf as ->. cbn [mbind option_bind]. rewrite foldM_full in Hg; [injection Hg as <-; exact Hp|].
    pose proof (di_floats vm0 Hi). pose proof (di_ints vm0 Hi). lia.
Qed.

Lemma argLongLong_darwin vm L :
  d_inv vm -> mSize (mVecHead vm) + 8 <= mTotal (mVecHead vm) ->
  exists vm', dc_callvm_argLongLong_ppc32_darwin cs vm L = Some vm' /\ d_pushed vm vm' None [word0 cs L; word1 cs L].
Proof.
  intros Hi Hr. pose proof (di_vt vm Hi) as Hv.
  destruct (argInt_darwin vm (L / 2 ^ 32) Hi) as (vm1 & Hp1 & H1); [lia|]. destruct H1 as [Hi1 Hx1 Hb1 Hw1 [Ht1 Hl1] Hf1 Hr1].
  assert (Hs1 : mSize (mVecHead vm1) = mSize (mVecHead vm) + 4).
  { rewrite (di_size vm1 Hi1), (di_size vm Hi), Hw1. cbn [length]. lia. }
  destruct (argInt_darwin vm1 L Hi1) as (vm2 & Hp2 & H2); [lia|].
  exists vm2. split.
  - unfold dc_callvm_argLongLong_ppc32_darwin, again_Int, word0, word1. rewrite Hv, Hp1. cbn [mbind option_bind].
    by rewrite (di_vt vm1 Hi1).
  - by apply (d_pushed_trans vm vm1 vm2 [_] [_]).
Qed.

Lemma push_arg_darwin vm x :
  d_inv vm -> d_room vm (a_ty x) -> arg_ok x ->
  exists y vm', conv (a_ty x) y = a_val x /\ (is_float (a_ty x) = true -> y = a_val x) /\
    push_arg (C := C) vm x = Some vm' /\
    d_pushed vm vm' (arg_fpr (a_ty x) y) (arg_words (a_ty x) y).
Proof.
  intros Hi Hr Hx. destruct (push_arg_ppc32 Darwin cs vm x Hx) as (y & Hy & Hyf & ->). exists y.
  unfold again_Int. rewrite (di_vt vm Hi). cbn [ppc32_CallVM deref gVT_ppc32_darwin vt_argFloat vt_argDouble vt_argLongLong].
  unfold d_room in Hr. unfold arg_words. destruct (a_ty x); cbn [arg_size is_wide arg_fpr] in *;
    try (destruct (argLongLong_darwin vm y Hi Hr) as (vm' & -> & ?); by exists vm').
  all: try (destruct (argFloat_darwin vm y Hi Hr) as (vm' & -> & ?); by exists vm').
  all: try (destruct (argDouble_darwin vm y Hi Hr) as (vm' & -> & ?); by exists vm').
  all: destruct (argInt_darwin vm y Hi Hr) as (vm' & -> & ?); by exists vm'.
Qed.

(** *** Reading it back *)

Record d_at (k fc : Z) (vf : DCCallVM_ppc32) (p : DCArgs) : Prop := {
  da_ptr : stackptr p = 4 * k;
  da_ints : ireg_count p = Z.min 8 k /\ ireg_data p = mIntData vf;
  da_floats : freg_count p = fc /\ freg_data p = mFloatData vf;
  da_mem : prefix (vec_bytes (mVecHead vf)) (par_mem p);
}.

Lemma read_word vf k fc p w :
  d_inv vf -> d_at k fc vf p -> 0 <= k -> rd (4 * k) 4 (vec_bytes (mVecHead vf)) = Some (enc BigEndian 4 w) ->
  exists p', dcbArgInt_darwin cs p = Some (conv TInt w, p') /\ d_at (k + 1) fc vf p'.
Proof.
  intros Hi [Hp [Hic Hid] [Hfc Hfd] Hpre] Hk Hrd.
  exists (args_at (stackptr p + 4) (Z.min 8 (k + 1)) fc p). split; [|split; cbn; try done; lia].
  assert (Hw : dec BigEndian (enc BigEndian 4 w) = wrapU 32 w) by apply dec_enc.
  assert (Hc : conv TInt (conv TInt (wrapU 32 w)) = conv TInt w) by (rewrite conv_conv, conv_wrapU; done).
  unfold dcbArgInt_darwin. rewrite Hic. destruct (Z.ltb_spec (Z.min 8 k) 8).
  - rewrite Hid. replace (Z.min 8 k) with k by lia. rewrite (di_mirror vf Hi k _ ltac:(lia) Hrd), Hw. cbn [mbind option_bind].
    rewrite Hc, Hfc. do 3 f_equal. lia.
  - rewrite Hp, (rd_prefix _ _ _ _ _ Hpre Hrd). cbn [mbind option_bind]. rewrite Hw, conv_wrapU by done.
    rewrite Hfc. do 3 f_equal. lia.
Qed.

Lemma read_words vf k fc p y :
  d_inv vf -> d_at k fc vf p -> 0 <= k -> rd (4 * k) 8 (vec_bytes (mVecHead vf)) = Some (enc BigEndian 8 y) ->
  exists p', dcbArgULongLong_darwin Darwin cs p = Some (conv TULongLong y, p') /\ d_at (k + 2) fc vf p'.
Proof.
  intros Hi Hat Hk Hrd. destruct (rd_split 4 4 _ _ _ Hrd) as [H1 H2]. rewrite enc8_words in H1, H2.
  rewrite take_app_length' in H1 by by rewrite length_enc. rewrite drop_app_length' in H2 by by rewrite length_enc.
  destruct (read_word vf k fc p _ Hi Hat Hk H1) as (p1 & R1 & Hat1).
  replace (4 * k + Z.of_nat 4) with (4 * (k + 1)) in H2 by lia.
  destruct (read_word vf (k + 1) fc p1 _ Hi Hat1 ltac:(lia) H2) as (p2 & R2 & Hat2).
  exists p2. split; [|by replace (k + 2) with (k + 1 + 1) by lia].
  unfold dcbArgULongLong_darwin, dcbArgUInt, dcbArgInt, mbind, SO_bind, mret, SO_ret. rewrite R1. cbn [option_bind].
  rewrite R2. cbn [option_bind]. do 2 f_equal. rewrite !conv_conv by (vm_compute; done).
  change (conv TUInt ?z) with (wrapU 32 z). change (conv TULongLong ?z) with (wrapU 64 z).
  rewrite <- (dword_join y). pose proof (wrapU_range 32 y ltac:(lia)). pose proof (wrapU_range 32 (y / 2 ^ 32) ltac:(lia)).
  rewrite shiftl_lor by done. rewrite wrapU_id; [done|]. unfold in_u in *. lia.
Qed.

(** The argument in the vector, and its value. *)
Lemma pushed_bytes vm vm' vf t fp y :
  d_inv vm -> d_pushed vm vm' fp (arg_words t y) -> d_ext vm' vf ->
  rd (4 * words vm) (Z.to_nat (arg_size t)) (vec_bytes (mVecHead vf)) = Some (enc BigEndian (Z.to_nat (arg_size t)) y) /\
  words vm' = words vm + arg_size t / 4.
Proof.
  intros Hi [_ _ Hb Hw _ _ _] [Xb _]. rewrite store_arg_words in Hb. split.
  - eapply rd_prefix; [exact Xb|]. rewrite Hb. apply rd_app; [|by rewrite length_enc].
    destruct Hi. rewrite length_vec_bytes; [lia|apply di_vec0..].
  - rewrite Hw. rewrite <- (length_arg_words t y), Z.mul_comm, Z.div_mul by lia. done.
Qed.

Lemma darwin_read_float vm vm' vf p t y :
  d_inv vm -> d_pushed vm vm' (arg_fpr t y) (arg_words t y) -> val_ok t y -> is_float t = true ->
  (t = TFloat -> ~ is_nan32 y) -> d_ext vm' vf -> d_at (words vm) (mFloatRegs vm) vf p ->
  exists p', dcbArg (ArgReader := RD) t p = Some (y, p') /\ d_at (words vm') (mFloatRegs vm') vf p'.
Proof.
  intros Hi Hpu Hx%val_ok_conv Hft Hn Hxf [Hp [Hic Hid] [Hfc Hfd] Hpre]. pose proof (words_nonneg vm Hi) as Hk.
  destruct (pushed_bytes vm vm' vf t _ y Hi Hpu Hxf) as [Hrd Ew]. destruct Hpu as [_ _ _ _ _ Hf Hfr], Hxf as [Xb [Xf0 Xf]].
  pose proof (rd_prefix _ _ _ _ _ Hpre Hrd) as Hrd'. rewrite <- Hp in Hrd'. pose proof (di_floats vm Hi) as [Hf0 _].
  assert (Hat' : d_at (words vm') (mFloatRegs vm') vf (args_at (stackptr p + arg_size t) (Z.min 8 (words vm')) (mFloatRegs vm') p)).
  { split; cbn; try done. rewrite Ew. destruct (arg_size_cases t) as [-> | ->]; [change (4 / 4) with 1|change (8 / 4) with 2]; lia. }
  eexists. split; [|exact Hat'].
  assert (Hreg : mFloatRegs vm < 13 -> forall z, arg_fpr t y = Some z -> aget (mFloatRegs vm) (freg_data p) = Some z).
  { intros Hlt z Hz. rewrite Hfd, Xf by (rewrite Hf, Hz; lia). by apply Hfr. }
  destruct t; try discriminate; cbn [dcbArg ppc32_ArgReader]; unfold dcbArgFloat, dcbArgDouble, dcbArgFloat_darwin, dcbArgDouble_darwin;
    cbn [arg_size is_wide arg_fpr] in *; change (Z.to_nat 4) with 4%nat in *; change (Z.to_nat 8) with 8%nat in *;
    rewrite Hfc, Hic; destruct (Z.ltb_spec (mFloatRegs vm) 13);
    rewrite ?(Hreg ltac:(lia) _ eq_refl), ?Hrd'; cbn [mbind option_bind]; f_equal; f_equal;
    first [rewrite dec_enc; by rewrite conv_wrapU by (vm_compute; done)|exact Hx
          |change (4 / 4) with 1 in Ew; change (8 / 4) with 2 in Ew; rewrite Ew, Hf; f_equal; repeat case_match; lia|idtac].
  rewrite d2f_f2d; [done| |by apply Hn]. rewrite <- Hx. apply wrapU_range. lia.
Qed.

Lemma darwin_read vm vm' vf p x y :
  d_inv vm -> d_pushed vm vm' (arg_fpr (a_ty x) y) (arg_words (a_ty x) y) -> arg_ok x -> conv (a_ty x) y = a_val x ->
  (is_float (a_ty x) = true -> y = a_val x) -> (a_ty x = TFloat -> ~ is_nan32 (a_val x)) -> d_ext vm' vf -> d_inv vf ->
  d_at (words vm) (mFloatRegs vm) vf p ->
  exists p', dcbArg (ArgReader := RD) (a_ty x) p = Some (a_val x, p') /\ d_at (words vm') (mFloatRegs vm') vf p'.
Proof.
  intros Hi Hpu Hx Hy Hyf Hn Hxf Hvf Hat. destruct x as [t x]. cbn [a_ty a_val] in *.
  destruct (is_float t) eqn:Eft; [rewrite <- (Hyf eq_refl) in *; by apply (darwin_read_float vm)|]. clear Hyf Hn.
  unfold arg_ok in Hx. cbn [a_ty a_val] in Hx. apply val_ok_conv in Hx.
  pose proof (words_nonneg vm Hi) as Hk. destruct (pushed_bytes vm vm' vf t _ y Hi Hpu Hxf) as [Hrd Ew].
  assert (Hf : mFloatRegs vm' = mFloatRegs vm) by (destruct Hpu as [_ _ _ _ _ Hf _]; by destruct t).
  assert (Hc : forall t' t'', ty_bits t <= ty_bits t' -> ty_bits t <= ty_bits t'' -> conv t (conv t' (conv t'' y)) = x)
    by (intros; by rewrite !conv_conv).
  rewrite Ew, Hf. unfold arg_size in *. destruct (is_wide t) eqn:Ewd.
  - change (Z.to_nat 8) with 8%nat in Hrd. change (8 / 4) with 2.
    destruct (read_words vf _ _ p y Hvf Hat Hk Hrd) as (p' & Hr & Hat'). exists p'. split; [|done].
    destruct t; try discriminate; cbn [dcbArg ppc32_ArgReader]; unfold dcbArgLongLong, dcbArgULongLong, mbind, SO_bind, mret, SO_ret;
      rewrite Hr; cbn [option_bind]; do 2 f_equal; first [exact Hy|by rewrite conv_conv].
  - change (Z.to_nat 4) with 4%nat in Hrd. change (4 / 4) with 1.
    destruct (read_word vf _ _ p y Hvf Hat Hk Hrd) as (p' & Hr & Hat'). exists p'. split; [|done].
    destruct t; try discriminate; cbn [dcbArg ppc32_ArgReader];
      unfold dcbArgLong, dcbArgULong, dcbArgChar, dcbArgUChar, dcbArgShort, dcbArgUShort, dcbArgBool, dcbArgPointer, dcbArgUInt,
        dcbArgInt, mbind, SO_bind, mret, SO_ret; rewrite Hr; cbn [option_bind]; do 2 f_equal;
      first [exact Hy|apply Hc; vm_compute; done|by rewrite conv_conv by (vm_compute; done)].
Qed.

Definition darwin_room (vm : DCCallVM_ppc32) (x : arg) : Prop :=
  d_room vm (a_ty x) /\ (a_ty x = TFloat -> ~ is_nan32 (a_val x)).

Lemma darwin_step vm x :
  d_inv vm -> darwin_room vm x -> arg_ok x ->
  exists vm', push_arg (C := C) vm x = Some vm' /\ d_inv vm' /\ d_ext vm vm' /\
    forall vf p, d_inv vf -> d_ext vm' vf -> d_at (words vm) (mFloatRegs vm) vf p ->
      exists p', dcbArg (ArgReader := RD) (a_ty x) p = Some (a_val x, p') /\ d_at (words vm') (mFloatRegs vm') vf p'.
Proof.
  intros Hi [Hr Hn] Hx. destruct (push_arg_darwin vm x Hi Hr Hx) as (y & vm' & Hy & Hyf & Hp & Hpu). exists vm'.
  split_and!; [done|apply Hpu|apply Hpu|]. intros vf p Hvf Hxf Hat. by apply (darwin_read vm vm' vf p x y).
Qed.

#[export] Instance darwin_CallConv : CallConv DCCallVM_ppc32 DCArgs (H := C) (H0 := RD) := {
  cc_inv := d_inv;
  cc_room := darwin_room;
  cc_ext := d_ext;
  cc_at vm vf p := d_at (words vm) (mFloatRegs vm) vf p;
  cc_ext_refl := d_ext_refl;
  cc_ext_trans := d_ext_trans;
  cc_step := darwin_step;
}.

(** *** Whole argument lists *)

(** The first word of every argument, and its number among the floating-point ones. *)
Fixpoint darwin_places (l : list arg) (k m : Z) : list (Z * Z) :=
  match l with
  | [] => []
  | x :: l => (k, m) :: darwin_places l (k + arg_size (a_ty x) / 4) (if is_float (a_ty x) then m + 1 else m)
  end.

Record darwin_placed (vf : DCCallVM_ppc32) (x : arg) (km : Z * Z) : Prop := {
  dpl_area : exists bs, rd (4 * km.1) (Z.to_nat (arg_size (a_ty x))) (vec_bytes (mVecHead vf)) = Some bs /\
             conv (a_ty x) (dec BigEndian bs) = a_val x;
  dpl_fpr : forall y, arg_fpr (a_ty x) (a_val x) = Some y -> km.2 < 13 -> aget km.2 (mFloatData vf) = Some y;
}.

Lemma push_list_darwin l : forall vm m,
  d_inv vm -> mFloatRegs vm = Z.min 13 m -> 0 <= m ->
  mSize (mVecHead vm) + 8 * Z.of_nat (length l) <= mTotal (mVecHead vm) -> Forall arg_ok l ->
  exists vf, push_args (C := C) vm l = Some vf /\ d_inv vf /\ d_ext vm vf /\
    mTotal (mVecHead vf) = mTotal (mVecHead vm) /\ length (vec_data (mVecHead vf)) = length (vec_data (mVecHead vm)) /\
    (Forall (fun x => a_ty x = TFloat -> ~ is_nan32 (a_val x)) l -> room_for (CC := darwin_CallConv) vm l) /\
    Forall2 (darwin_placed vf) l (darwin_places l (words vm) m).
Proof.
  induction l as [|x l IH]; intros vm m Hi Hm H0 Hr Hl.
  { exists vm. split_and!; try done; constructor. }
  cbn [length] in Hr. apply Forall_cons in Hl as [Hx Hl]. pose proof (arg_size_cases (a_ty x)) as Hsz.
  assert (Hrx : d_room vm (a_ty x)) by (unfold d_room; lia).
  destruct (push_arg_darwin vm x Hi Hrx Hx) as (y & vm' & Hy & Hyf & Hp & Hpu).
  pose proof Hpu as [Hi' Hx1 _ Hw [Ht Hlen] Hf Hfr].
  assert (Hsize : mSize (mVecHead vm') = mSize (mVecHead vm) + arg_size (a_ty x)).
  { rewrite (di_size _ Hi'), (di_size _ Hi), Hw, <- (length_arg_words (a_ty x) y). lia. }
  set (m' := if is_float (a_ty x) then m + 1 else m).
  assert (Hm' : mFloatRegs vm' = Z.min 13 m').
  { rewrite Hf. unfold m', arg_fpr. destruct (a_ty x); cbn; lia. }
  destruct (IH vm' m' Hi' Hm') as (vf & Hpf & Hif & Hxf & Htf & Hlf & Hroom & Hall);
    [unfold m'; destruct (is_float _); lia|lia|done|].
  destruct (pushed_bytes vm vm' vf (a_ty x) _ y Hi Hpu Hxf) as [Hrd Ew].
  exists vf. split_and!; try congruence.
  - unfold push_args. cbn [foldM]. rewrite Hp. exact Hpf.
  - by eapply d_ext_trans.
  - intros [Hfx Hfl]%Forall_cons. split; [by split|]. intros vm1 H1. rewrite Hp in H1. injection H1 as <-. by apply Hroom.
  - cbn [darwin_places]. rewrite <- Ew. constructor; [|done]. split; cbn [fst snd].
    + eexists. split; [exact Hrd|]. rewrite dec_enc, conv_wrapU; [done|]. unfold arg_size. by destruct (a_ty x).
    + intros z Hz Hlt. destruct Hxf as [_ [_ Xf]].
      assert (Ey : y = a_val x) by (apply Hyf; by destruct (a_ty x)). rewrite Ey in *.
      replace m with (mFloatRegs vm) by lia. rewrite Xf; [apply Hfr; [done|lia]|]. rewrite Hf, Hz. pose proof (di_floats vm Hi). lia.
Qed.
End Darwin.

(** ** System V *)

Section SysV.
Variable cs : bool.
#[local] Hint Extern 0 DataModel => exact (ppc32_dm cs) : typeclass_instances.
#[local] Abbreviation C := (ppc32_CallVM SysV cs).
#[local] Abbreviation RD := (ppc32_ArgReader SysV cs).

(** *** The places of the ABI *)

Definition counters_of (vm : DCCallVM_ppc32) : counters :=
  {| c_int := mIntRegs vm; c_float := mFloatRegs vm; c_stack := mSize (mVecHead vm) |}.

Lemma round8_ok z : 0 <= z -> z + 7 < 2 ^ 32 -> round8 z = align_up z 8.
Proof.
  intros. unfold round8. rewrite wrapU_id by (unfold in_u; lia).
  change (-8) with (- 2 ^ 3). rewrite land_neg_pow2 by (unfold in_u; lia). unfold align_up.
  by replace (z + 8 - 1) with (z + 7) by lia.
Qed.

(** *** Pushing an argument *)

Record s_inv (vm : DCCallVM_ppc32) : Prop := {
  si_vt : p_vt vm = gVT_ppc32_sysv_p;
  si_vec : vec_wf (mVecHead vm) /\ vec_room (mVecHead vm) 0;
  si_bytes : Forall is_byte (vec_data (mVecHead vm));
  si_count : counters_ok (counters_of vm);
  si_len : length (mIntData vm) = 8%nat /\ length (mFloatData vm) = 13%nat;
}.

Record s_ext (vm vm' : DCCallVM_ppc32) : Prop := {
  sx_bytes : prefix (vec_bytes (mVecHead vm)) (vec_bytes (mVecHead vm'));
  sx_ints : mIntRegs vm <= mIntRegs vm' /\
            forall k, 0 <= k < mIntRegs vm -> aget k (mIntData vm') = aget k (mIntData vm);
  sx_floats : mFloatRegs vm <= mFloatRegs vm' /\
              forall k, 0 <= k < mFloatRegs vm -> aget k (mFloatData vm') = aget k (mFloatData vm);
}.

Lemma s_ext_refl vm : s_ext vm vm.
Proof. by split. Qed.

Lemma s_ext_trans a b c : s_ext a b -> s_ext b c -> s_ext a c.
Proof.
  intros [H1 [H2 H3] [H4 H5]] [G1 [G2 G3] [G4 G5]]. split; [by etrans|split; [lia|]..]; intros k Hk.
  - by rewrite G3, H3 by lia.
  - by rewrite G5, H5 by lia.
Qed.

(** The value [y] of type [t] is where [pl] says. *)
Definition holds (vm : DCCallVM_ppc32) (t : cty) (y : Z) (pl : place) : Prop :=
  match pl with
  | InGpr k => 0 <= k /\ k + arg_size t / 4 <= mIntRegs vm /\
               forall j w, arg_words cs t y !! j = Some w -> aget (k + Z.of_nat j) (mIntData vm) = Some w
  | InFpr k => 0 <= k < mFloatRegs vm /\ exists z, arg_fpr t y = Some z /\ aget k (mFloatData vm) = Some z
  | OnStack off => rd off (Z.to_nat (arg_size t)) (vec_bytes (mVecHead vm)) = Some (enc BigEndian (Z.to_nat (arg_size t)) y)
  end.

Lemma holds_ext vm vm' t y pl : s_ext vm vm' -> holds vm t y pl -> holds vm' t y pl.
Proof.
  intros [Hb [Hi0 Hi] [Hf0 Hf]]. destruct pl as [k|k|o]; cbn.
  - intros (H0 & Hk & H). split_and!; [lia..|]. intros j w Hj. rewrite Hi; [by apply H|].
    apply lookup_lt_Some in Hj. pose proof (length_arg_words cs t y) as L. split; [lia|].
    assert (arg_size t / 4 = Z.of_nat (length (arg_words cs t y))) by (rewrite <- L, Z.mul_comm, Z.div_mul; lia). lia.
  - intros (H0 & z & Hz & H). split; [lia|]. exists z. by rewrite Hf by lia.
  - intros H. by eapply rd_prefix.
Qed.

(** [vm'] is [vm] with [y] at the next place. *)
Record s_pushed (vm vm' : DCCallVM_ppc32) (t : cty) (y : Z) : Prop := {
  sp_inv : s_inv vm';
  sp_ext : s_ext vm vm';
  sp_count : counters_of vm' = (next_place is_float t (counters_of vm)).2;
  sp_place : holds vm' t y (next_place is_float t (counters_of vm)).1;
  sp_same : mTotal (mVecHead vm') = mTotal (mVecHead vm) /\
            length (vec_data (mVecHead vm')) = length (vec_data (mVecHead vm));
}.

Definition s_room (vm : DCCallVM_ppc32) : Prop := align_up (mSize (mVecHead vm)) 8 + 8 <= mTotal (mVecHead vm).

(** On the stack, with [ic] integer registers gone. *)
Lemma s_push_stack vm t y ic :
  s_inv vm -> s_room vm -> mIntRegs vm <= ic <= 8 -> next_place is_float t (counters_of vm) = on_stack t ic (counters_of vm) ->
  exists vm', p_append cs (p_with_vec (dcVecResize (mVecHead vm) (align_up (mSize (mVecHead vm)) (arg_size t)))
                             (p_with_regs ic (mFloatRegs vm) vm)) (enc BigEndian (Z.to_nat (arg_size t)) y) = Some vm' /\
    s_pushed vm vm' t y.
Proof.
  intros [Hv [Hw H0] Hb [Hci Hcf [Hcs Hcm]] [Hl1 Hl2]] Hr Hic Enp. unfold s_room in Hr. cbn [counters_of c_int c_float c_stack] in *.
  set (off := align_up (mSize (mVecHead vm)) (arg_size t)).
  assert (Hoff : mSize (mVecHead vm) <= off /\ off + arg_size t <= align_up (mSize (mVecHead vm)) 8 + 8 /\ (off + arg_size t) mod 4 = 0).
  { pose proof (align_up_bounds (mSize (mVecHead vm)) 8). unfold off. destruct (arg_size_cases t) as [-> | ->].
    - rewrite align_up_id by (done || lia). split_and!; [lia..|]. rewrite Z.add_mod, Hcm by lia. done.
    - split_and!; [lia..|]. pose proof (align_up_mod (mSize (mVecHead vm)) 8 ltac:(lia)) as Hm8.
      apply Z.mod_divide in Hm8 as [q Hq]; [|lia]. rewrite Hq. replace (q * 8 + 8) with ((2 * q + 2) * 4) by lia. by rewrite Z.mod_mul. }
  destruct Hoff as (Ho1 & Ho2 & Ho3). destruct (dcVecResize_forward (mVecHead vm) off Hw) as [Hw' Hpre];
    [pose proof (arg_size_cases t); lia|].
  set (vm0 := p_with_vec _ _). pose proof (arg_size_cases t) as Hsz.
  destruct (p_append_ok cs vm0 (enc BigEndian (Z.to_nat (arg_size t)) y)) as (w & Hap & Hww & Htw & Hsw & Hlw & Hbw & Hby);
    [exact Hw'|rewrite length_enc; cbn [vm0 mVecHead p_with_vec dcVecResize mSize mTotal]; lia|].
  rewrite length_enc in Hsw. rewrite Hap. eexists. split; [done|].
  cbn [vm0 mVecHead p_with_vec p_with_regs dcVecResize mSize mTotal vec_data] in *.
  rewrite Z2Nat.id in Hsw by lia.
  assert (Hx : prefix (vec_bytes (mVecHead vm)) (vec_bytes w)) by (rewrite Hbw; etrans; [exact Hpre|by apply prefix_app_r]).
  split; cbn [mVecHead p_with_vec]; try done.
  - split; cbn [mVecHead p_with_vec p_vt mIntData mFloatData p_with_regs]; try done.
    + split; [done|]. unfold vec_room. lia.
    + apply Hby; [done|apply enc_bytes].
    + split; cbn; [lia|lia|]. rewrite Hsw. split; [lia|done].
  - split; cbn; [exact Hx|by split; [lia|]|by split; [lia|]].
  - rewrite Enp. unfold counters_of, on_stack. cbn. by rewrite Hsw.
  - rewrite Enp. cbn. rewrite Hbw. apply rd_app; [|by rewrite length_enc].
    rewrite length_vec_bytes; [done|exact Hw'|]. unfold vec_room. cbn. lia.
Qed.

(** In registers: the vector stays. *)
Lemma s_push_regs vm vm' t y :
  s_inv vm -> p_vt vm' = p_vt vm -> mVecHead vm' = mVecHead vm -> counters_ok (counters_of vm') ->
  length (mIntData vm') = 8%nat -> length (mFloatData vm') = 13%nat ->
  mIntRegs vm <= mIntRegs vm' -> (forall k, 0 <= k < mIntRegs vm -> aget k (mIntData vm') = aget k (mIntData vm)) ->
  mFloatRegs vm <= mFloatRegs vm' -> (forall k, 0 <= k < mFloatRegs vm -> aget k (mFloatData vm') = aget k (mFloatData vm)) ->
  counters_of vm' = (next_place is_float t (counters_of vm)).2 -> holds vm' t y (next_place is_float t (counters_of vm)).1 ->
  s_pushed vm vm' t y.
Proof.
  intros [Hv Hw Hb _ _] Ev Evec Hc L1 L2 Hi0 Hi Hf0 Hf Hcount Hh. split; try done.
  - split; try done; rewrite ?Evec; try done. by rewrite Ev.
  - split; [by rewrite Evec|done..].
  - by rewrite Evec.
Qed.

(** The registers [ws], from number [k] on. *)
Lemma s_push_ints vm k t y :
  s_inv vm -> mIntRegs vm <= k -> k + arg_size t / 4 <= 8 ->
  next_place is_float t (counters_of vm) =
    (InGpr k, {| c_int := k + arg_size t / 4; c_float := mFloatRegs vm; c_stack := mSize (mVecHead vm) |}) ->
  exists vm', foldM int_reg (p_with_regs k (mFloatRegs vm) vm) (arg_words cs t y) = Some vm' /\ s_pushed vm vm' t y.
Proof.
  intros Hi Hk H8 Enp. pose proof Hi as [_ _ _ [Hci Hcf Hcs] [Hl1 Hl2]]. cbn [counters_of c_int c_float c_stack] in *.
  pose proof (length_arg_words cs t y) as L.
  assert (Hn : arg_size t / 4 = Z.of_nat (length (arg_words cs t y))) by (rewrite <- L, Z.mul_comm, Z.div_mul; lia).
  destruct (int_words_ok (arg_words cs t y) (p_with_regs k (mFloatRegs vm) vm)) as (vm' & Hf & [(Gv & Gvec & Gfc & Gfd) Gc Go Gn Gl]);
    [cbn; lia|done|].
  exists vm'. split; [done|]. cbn [p_with_regs p_vt mVecHead mFloatRegs mFloatData mIntRegs mIntData] in *.
  assert (Ec : counters_of vm' = {| c_int := k + arg_size t / 4; c_float := mFloatRegs vm; c_stack := mSize (mVecHead vm) |}).
  { unfold counters_of. rewrite Gfc, Gvec, Gc. f_equal. lia. }
  apply s_push_regs; try done.
  - rewrite Ec. by split; cbn; [lia| |].
  - by rewrite Gfd.
  - lia.
  - intros j Hj. apply Go. lia.
  - lia.
  - intros j Hj. by rewrite Gfd.
  - by rewrite Enp.
  - rewrite Enp. cbn. split_and!; [lia..|]. intros j w Hj. apply (Gn _ _ Hj). apply lookup_lt_Some in Hj. lia.
Qed.

Lemma s_push_float vm t y x :
  s_inv vm -> mFloatRegs vm < 8 -> is_float t = true -> arg_fpr t y = Some x ->
  exists vm', put_float x vm = Some vm' /\ s_pushed vm vm' t y.
Proof.
  intros Hi H8 Hft Hx. pose proof Hi as [_ _ _ [Hci Hcf Hcs] [Hl1 Hl2]]. cbn [counters_of c_int c_float c_stack] in *.
  destruct (put_float_ok vm x) as (vm' & Hp & E1 & E2 & E3 & E4 & E5 & E6 & E7 & E8); [lia|done|].
  exists vm'. split; [done|].
  assert (Enp : next_place is_float t (counters_of vm) =
      (InFpr (mFloatRegs vm), {| c_int := mIntRegs vm; c_float := mFloatRegs vm + 1; c_stack := mSize (mVecHead vm) |})).
  { unfold next_place. rewrite Hft. cbn. by rewrite (proj2 (Z.ltb_lt _ _)). }
  assert (Ec : counters_of vm' = {| c_int := mIntRegs vm; c_float := mFloatRegs vm + 1; c_stack := mSize (mVecHead vm) |}).
  { unfold counters_of. by rewrite E2, E3, E5. }
  apply s_push_regs; try done.
  - rewrite Ec. by split; cbn; [|lia|].
  - by rewrite E4.
  - lia.
  - intros j Hj. by rewrite E4.
  - lia.
  - by rewrite Enp.
  - rewrite Enp. cbn. split; [lia|]. by exists x.
Qed.

(** The stack, word by word and aligned. *)
Lemma p_align_ok vm : s_inv vm -> s_room vm ->
  p_align vm = p_with_vec (dcVecResize (mVecHead vm) (align_up (mSize (mVecHead vm)) 8)) vm.
Proof.
  intros [_ [[Hs Ht [_ Hw]] _] _ _ _] Hr. unfold s_room in Hr. unfold p_align, dcVecSize.
  pose proof (align_up_bounds (mSize (mVecHead vm)) 8). rewrite round8_ok; [done|done|]. cbn in Hw. lia.
Qed.

Lemma resize_same vm : s_inv vm -> p_with_vec (dcVecResize (mVecHead vm) (align_up (mSize (mVecHead vm)) 4)) (p_with_regs (mIntRegs vm) (mFloatRegs vm) vm) = vm.
Proof.
  intros [_ _ _ [_ _ [_ Hm]] _]. cbn in Hm. rewrite align_up_id by (done || lia). destruct vm as [v e i f di df w]. by destruct w.
Qed.

Lemma s_push_word vm t y :
  s_inv vm -> s_room vm -> is_wide t = false -> next_place is_float t (counters_of vm) = on_stack t (mIntRegs vm) (counters_of vm) ->
  exists vm', p_append cs vm (enc BigEndian 4 y) = Some vm' /\ s_pushed vm vm' t y.
Proof.
  intros Hi Hr Hwd Enp. pose proof (si_count vm Hi) as [Hci _ _]. cbn in Hci.
  destruct (s_push_stack vm t y (mIntRegs vm) Hi Hr ltac:(lia) Enp) as (vm' & Hp & Hpu). exists vm'. split; [|done].
  unfold arg_size in Hp. rewrite Hwd, resize_same in Hp by done. exact Hp.
Qed.

Lemma s_push_dword vm t y ic :
  s_inv vm -> s_room vm -> is_wide t = true -> mIntRegs vm <= ic <= 8 ->
  next_place is_float t (counters_of vm) = on_stack t ic (counters_of vm) ->
  exists vm', p_append cs (p_align (p_with_regs ic (mFloatRegs vm) vm)) (enc BigEndian 8 y) = Some vm' /\ s_pushed vm vm' t y.
Proof.
  intros Hi Hr Hwd Hic Enp. destruct (s_push_stack vm t y ic Hi Hr Hic Enp) as (vm' & Hp & Hpu). exists vm'. split; [|done].
  unfold arg_size in Hp. rewrite Hwd in Hp. rewrite <- Hp. f_equal. pose proof (p_align_ok vm Hi Hr) as E. unfold p_align in *.
  cbn [mVecHead p_with_regs]. change (Z.to_nat 8) with 8%nat. f_equal. apply (f_equal mVecHead) in E. exact E.
Qed.

Lemma argInt_sysv vm t y :
  s_inv vm -> s_room vm -> is_wide t = false -> is_float t = false ->
  exists vm', dc_callvm_argInt_ppc32_sysv cs vm (conv TInt y) = Some vm' /\ s_pushed vm vm' t y.
Proof.
  intros Hi Hr Hwd Hft. assert (E1 : arg_size t / 4 = 1) by (unfold arg_size; by rewrite Hwd).
  assert (Enp : next_place is_float t (counters_of vm) =
            if mIntRegs vm <? 8 then (InGpr (mIntRegs vm), {| c_int := mIntRegs vm + 1; c_float := mFloatRegs vm; c_stack := mSize (mVecHead vm) |})
            else on_stack t 8 (counters_of vm)) by (unfold next_place; by rewrite Hwd, Hft).
  unfold dc_callvm_argInt_ppc32_sysv. pose proof (si_count vm Hi) as [Hci _ _]. cbn in Hci.
  destruct (Z.ltb_spec (mIntRegs vm) 8).
  - destruct (s_push_ints vm (mIntRegs vm) t y Hi) as (vm' & Hp & Hpu); [lia|lia|by rewrite E1|]. exists vm'. split; [|done].
    unfold arg_words in Hp. rewrite Hwd in Hp. cbn [foldM] in Hp. apply bind_Some in Hp as (vm1 & Hp & [= ->]).
    unfold int_reg in Hp. cbn [mIntRegs p_with_regs] in Hp. rewrite (proj2 (Z.ltb_lt _ _)) in Hp by lia. by destruct vm.
  - change (conv TInt y) with (wrapS 32 y). rewrite enc4_wrapS. apply s_push_word; try done. rewrite Enp. f_equal. lia.
Qed.

Lemma argFloat_sysv vm y :
  s_inv vm -> s_room vm -> exists vm', dc_callvm_argFloat_ppc32_sysv cs vm y = Some vm' /\ s_pushed vm vm' TFloat y.
Proof.
  intros Hi Hr. unfold dc_callvm_argFloat_ppc32_sysv. destruct (Z.ltb_spec (mFloatRegs vm) 8) as [H8|H8].
  - by apply s_push_float.
  - apply s_push_word; try done. unfold next_place. cbn. by rewrite (proj2 (Z.ltb_ge _ _)).
Qed.

Lemma argDouble_sysv vm y :
  s_inv vm -> s_room vm -> exists vm', dc_callvm_argDouble_ppc32_sysv cs vm y = Some vm' /\ s_pushed vm vm' TDouble y.
Proof.
  intros Hi Hr. unfold dc_callvm_argDouble_ppc32_sysv. destruct (Z.ltb_spec (mFloatRegs vm) 8) as [H8|H8].
  - by apply s_push_float.
  - pose proof (si_count vm Hi) as [Hci _ _]. cbn in Hci.
    destruct (s_push_dword vm TDouble y (mIntRegs vm) Hi Hr) as (vm' & Hp & Hpu); [done|lia| |].
    { unfold next_place. cbn. by rewrite (proj2 (Z.ltb_ge _ _)). }
    exists vm'. split; [|done]. rewrite <- Hp. by destruct vm.
Qed.

Lemma argLongLong_sysv vm t y :
  s_inv vm -> s_room vm -> is_wide t = true -> is_float t = false ->
  exists vm', dc_callvm_argLongLong_ppc32_sysv cs vm y = Some vm' /\ s_pushed vm vm' t y.
Proof.
  intros Hi Hr Hwd Hft. pose proof (si_count vm Hi) as [Hci _ _]. cbn in Hci.
  assert (E2 : arg_size t / 4 = 2) by (unfold arg_size; by rewrite Hwd).
  destruct (align2 (mIntRegs vm) Hci) as [Eal _]. set (k := align_up (mIntRegs vm) 2) in *.
  assert (Enp : next_place is_float t (counters_of vm) =
            if k <? 8 then (InGpr k, {| c_int := k + 2; c_float := mFloatRegs vm; c_stack := mSize (mVecHead vm) |})
            else on_stack t 8 (counters_of vm)) by (unfold next_place; by rewrite Hwd, Hft).
  pose proof (align_up_mod (mIntRegs vm) 2 ltac:(lia)) as Hm2. fold k in Hm2.
  unfold dc_callvm_argLongLong_ppc32_sysv. destruct (Z.ltb_spec (mIntRegs vm) 7).
  - assert (Hk6 : mIntRegs vm <= k <= 6).
    { apply Z.mod_divide in Hm2 as [q Hq]; [|lia]. destruct (Z.odd (mIntRegs vm)); lia. }
    rewrite (proj2 (Z.ltb_lt k 8)) in Enp by lia.
    destruct (s_push_ints vm k t y Hi) as (vm' & Hp & Hpu); [lia|lia|by rewrite E2|]. exists vm'. split; [|done].
    assert (Evm : (if Z.odd (mIntRegs vm) then p_with_regs (mIntRegs vm + 1) (mFloatRegs vm) vm else vm) = p_with_regs k (mFloatRegs vm) vm).
    { rewrite Eal. destruct (Z.odd _); [done|]. rewrite Z.add_0_r. by destruct vm. }
    rewrite Evm. unfold arg_words in Hp. rewrite Hwd in Hp. cbn [foldM] in Hp. unfold int_reg in Hp.
    cbn [mIntRegs p_with_regs] in Hp. rewrite (proj2 (Z.ltb_lt _ _)) in Hp by lia.
    apply bind_Some in Hp as (vm1 & Hp1 & Hp). rewrite Hp1. cbn [mbind option_bind].
    apply bind_Some in Hp as (vm2 & Hp & [= ->]).
    assert (mIntRegs vm1 = k + 1) as Ek by (unfold put_int in Hp1; by apply bind_Some in Hp1 as (d & _ & [= <-])).
    rewrite Ek, (proj2 (Z.ltb_lt _ _)) in Hp by lia. exact Hp.
  - apply s_push_dword; try done; [lia|]. rewrite Enp. rewrite (proj2 (Z.ltb_ge k 8)); [done|].
    apply Z.mod_divide in Hm2 as [q Hq]; [|lia]. destruct (Z.odd (mIntRegs vm)); lia.
Qed.

Lemma push_arg_sysv vm x :
  s_inv vm -> s_room vm -> arg_ok x ->
  exists y vm', conv (a_ty x) y = a_val x /\ (is_float (a_ty x) = true -> y = a_val x) /\
    push_arg (C := C) vm x = Some vm' /\ s_pushed vm vm' (a_ty x) y.
Proof.
  intros Hi Hr Hx. destruct (push_arg_ppc32 SysV cs vm x Hx) as (y & Hy & Hyf & ->). exists y.
  unfold again_Int. rewrite (si_vt vm Hi). cbn [ppc32_CallVM deref gVT_ppc32_sysv vt_argFloat vt_argDouble vt_argLongLong].
  destruct (a_ty x) eqn:Et;
    first [destruct (argFloat_sysv vm y Hi Hr) as (vm' & -> & ?); by exists vm'
          |destruct (argDouble_sysv vm y Hi Hr) as (vm' & -> & ?); by exists vm'
          |destruct (argLongLong_sysv vm (a_ty x) y Hi Hr) as (vm' & -> & ?); [by rewrite Et..|]; rewrite Et in *; by exists vm'
          |destruct (argInt_sysv vm (a_ty x) y Hi Hr) as (vm' & -> & ?); [by rewrite Et..|]; rewrite Et in *; by exists vm'].
Qed.

(** *** Reading it back *)

Record s_at (c : counters) (vf : DCCallVM_ppc32) (p : DCArgs) : Prop := {
  sa_count : {| c_int := ireg_count p; c_float := freg_count p; c_stack := stackptr p |} = c;
  sa_data : ireg_data p = mIntData vf /\ forall k, 0 <= k < 8 -> aget k (freg_data p) = aget k (mFloatData vf);
  sa_mem : prefix (vec_bytes (mVecHead vf)) (par_mem p);
}.

(** A value on the stack. *)
Lemma sysv_rd vf p t y off :
  prefix (vec_bytes (mVecHead vf)) (par_mem p) -> holds vf t y (OnStack off) ->
  rd off (Z.to_nat (arg_size t)) (par_mem p) = Some (enc BigEndian (Z.to_nat (arg_size t)) y).
Proof. intros Hp H. by eapply rd_prefix. Qed.

Lemma sysv_read_float vf p t y c :
  s_at c vf p -> counters_ok c -> c_stack c + 7 < 2 ^ 32 -> val_ok t y -> is_float t = true -> (t = TFloat -> ~ is_nan32 y) ->
  holds vf t y (next_place is_float t c).1 ->
  exists p', dcbArg (ArgReader := RD) t p = Some (y, p') /\ s_at (next_place is_float t c).2 vf p'.
Proof.
  intros [Hc [Hid Hfd] Hm] [Hci Hcf [Hcs Hcm]] Hb Hx%val_ok_conv Hft Hn Hh. subst c. cbn [c_int c_float c_stack] in *.
  unfold next_place in *. rewrite Hft in *. cbn [c_float] in *.
  destruct t; try discriminate; cbn [dcbArg ppc32_ArgReader]; unfold dcbArgFloat, dcbArgDouble, dcbArgFloat_sysv, dcbArgDouble_sysv;
    destruct (Z.ltb_spec (freg_count p) 8).
  - cbn in Hh. destruct Hh as (_ & _ & [= <-] & Hh). rewrite Hfd, Hh by lia. cbn [mbind option_bind]. eexists.
    assert (E : d2f (f2d y) = y) by (apply d2f_f2d; [rewrite <- Hx; apply wrapU_range; lia|by apply Hn]).
    rewrite E, Hx. by split.
  - pose proof (sysv_rd vf p TFloat y _ Hm Hh) as Hrd. unfold on_stack in *. cbn [arg_size is_wide c_stack c_float] in *.
    rewrite align_up_id in * by (done || lia). change (Z.to_nat 4) with 4%nat in Hrd. rewrite Hrd. cbn [mbind option_bind].
    eexists. split; [by rewrite dec_enc, conv_wrapU, Hx by (vm_compute; done)|]. by split.
  - cbn in Hh. destruct Hh as (_ & _ & [= <-] & Hh). rewrite Hfd, Hh by lia. cbn [mbind option_bind]. eexists.
    rewrite Hx. by split.
  - pose proof (sysv_rd vf p TDouble y _ Hm Hh) as Hrd. unfold on_stack in *. cbn [arg_size is_wide c_stack c_float] in *.
    rewrite round8_ok by (done || lia). change (Z.to_nat 8) with 8%nat in Hrd. rewrite Hrd. cbn [mbind option_bind].
    eexists. split; [by rewrite dec_enc, conv_wrapU, Hx by (vm_compute; done)|]. by split.
Qed.

Lemma sysv_read_int vf p t y c :
  s_at c vf p -> counters_ok c -> is_wide t = false -> is_float t = false -> holds vf t y (next_place is_float t c).1 ->
  exists p', dcbArgInt_sysv cs p = Some (conv TInt y, p') /\ s_at (next_place is_float t c).2 vf p'.
Proof.
  intros [Hc [Hid Hfd] Hm] [Hci Hcf [Hcs Hcm]] Hwd Hft Hh. subst c. cbn [c_int c_float c_stack] in *.
  unfold next_place in *. rewrite Hft, Hwd in *. cbn [c_int] in *. unfold dcbArgInt_sysv. destruct (Z.ltb_spec (ireg_count p) 8).
  - cbn in Hh. destruct Hh as (_ & _ & Hh). unfold arg_words in Hh. rewrite Hwd in Hh. specialize (Hh 0%nat _ eq_refl).
    rewrite Z.add_0_r in Hh. rewrite Hid, Hh. cbn [mbind option_bind]. eexists. split; [by rewrite conv_conv|]. by split.
  - pose proof (sysv_rd vf p t y _ Hm Hh) as Hrd. unfold on_stack, arg_size in *. rewrite Hwd in *. cbn [c_stack c_float] in *.
    rewrite align_up_id in * by (done || lia). change (Z.to_nat 4) with 4%nat in Hrd. rewrite Hrd. cbn [mbind option_bind].
    eexists. split; [by rewrite dec_enc, conv_wrapU by (vm_compute; done)|]. split; try done. cbn. f_equal. lia.
Qed.

Lemma sysv_read_wide vf p t y c :
  s_at c vf p -> counters_ok c -> c_stack c + 7 < 2 ^ 32 -> is_wide t = true -> is_float t = false -> holds vf t y (next_place is_float t c).1 ->
  exists p', dcbArgULongLong_sysv cs p = Some (conv TULongLong y, p') /\ s_at (next_place is_float t c).2 vf p'.
Proof.
  intros [Hc [Hid Hfd] Hm] [Hci Hcf [Hcs Hcm]] Hb Hwd Hft Hh. subst c. cbn [c_int c_float c_stack] in *.
  destruct (align2 (ireg_count p) Hci) as [Eal Eland].
  pose proof (align_up_mod (ireg_count p) 2 ltac:(lia)) as [q Hq]%Z.mod_divide; [|lia].
  unfold next_place in *. rewrite Hft, Hwd in *. cbn [c_int] in *. unfold dcbArgULongLong_sysv. rewrite Eland.
  destruct (Z.ltb_spec (align_up (ireg_count p) 2) 8).
  - rewrite (proj2 (Z.ltb_lt (ireg_count p) 7)) by (destruct (Z.odd (ireg_count p)); lia).
    cbn in Hh. destruct Hh as (_ & _ & Hh). unfold arg_words in Hh. rewrite Hwd in Hh.
    pose proof (Hh 0%nat _ eq_refl) as H0. pose proof (Hh 1%nat _ eq_refl) as H1. rewrite Z.add_0_r in H0.
    change (Z.of_nat 1) with 1 in H1. rewrite Hid, H0, H1. cbn [mbind option_bind]. assert (E : conv TULongLong (conv TUInt (word0 cs y) * 2 ^ 32 + conv TUInt (word1 cs y)) = conv TULongLong y).
    { unfold word0, word1. rewrite !conv_conv by (vm_compute; done). change (conv TUInt ?z) with (wrapU 32 z).
      rewrite Z.add_comm, (Z.mul_comm _ (2 ^ 32)), dword_join. by rewrite conv_wrapU by (vm_compute; done). }
    rewrite E. eexists. split; [done|]. by split.
  - rewrite (proj2 (Z.ltb_ge (ireg_count p) 7)) by (destruct (Z.odd (ireg_count p)); lia).
    pose proof (sysv_rd vf p t y _ Hm Hh) as Hrd. unfold on_stack, arg_size in *. rewrite Hwd in *. cbn [c_stack c_float] in *.
    rewrite round8_ok by (done || lia). change (Z.to_nat 8) with 8%nat in Hrd. rewrite Hrd. cbn [mbind option_bind].
    eexists. split; [by rewrite dec_enc, conv_wrapU by (vm_compute; done)|]. by split.
Qed.

Lemma sysv_read vf p t x y c :
  s_at c vf p -> counters_ok c -> c_stack c + 7 < 2 ^ 32 -> val_ok t x -> conv t y = x -> (is_float t = true -> y = x) ->
  (t = TFloat -> ~ is_nan32 x) -> holds vf t y (next_place is_float t c).1 ->
  exists p', dcbArg (ArgReader := RD) t p = Some (x, p') /\ s_at (next_place is_float t c).2 vf p'.
Proof.
  intros Hat Hc Hb Hx Hy Hyf Hn Hh.
  destruct (is_float t) eqn:Hft; [rewrite (Hyf eq_refl) in Hh; by apply (sysv_read_float vf)|]. clear Hyf Hn.
  apply val_ok_conv in Hx.
  assert (Hcc : forall t' t'', ty_bits t <= ty_bits t' -> ty_bits t <= ty_bits t'' -> conv t (conv t' (conv t'' y)) = x)
    by (intros; by rewrite !conv_conv).
  destruct (is_wide t) eqn:Hwd.
  - destruct (sysv_read_wide vf p t y c) as (p' & Hr & Hat'); try done. exists p'. split; [|done].
    destruct t; try discriminate; cbn [dcbArg ppc32_ArgReader]; unfold dcbArgLongLong, dcbArgULongLong, mbind, SO_bind, mret, SO_ret;
      rewrite Hr; cbn [option_bind]; do 2 f_equal; first [exact Hy|by rewrite conv_conv].
  - destruct (sysv_read_int vf p t y c) as (p' & Hr & Hat'); try done. exists p'. split; [|done].
    destruct t; try discriminate; cbn [dcbArg ppc32_ArgReader];
      unfold dcbArgLong, dcbArgULong, dcbArgChar, dcbArgUChar, dcbArgShort, dcbArgUShort, dcbArgBool, dcbArgPointer, dcbArgUInt,
        dcbArgInt, mbind, SO_bind, mret, SO_ret; rewrite Hr; cbn [option_bind]; do 2 f_equal;
      first [exact Hy|apply Hcc; vm_compute; done|by rewrite conv_conv by (vm_compute; done)].
Qed.

Definition sysv_room (vm : DCCallVM_ppc32) (x : arg) : Prop :=
  s_room vm /\ (a_ty x = TFloat -> ~ is_nan32 (a_val x)).

Lemma s_room_bound vm : s_inv vm -> s_room vm -> mSize (mVecHead vm) + 7 < 2 ^ 32.
Proof.
  intros [_ [[_ _ [_ Hw]] _] _ _ _] Hr. unfold s_room in Hr. pose proof (align_up_bounds (mSize (mVecHead vm)) 8).
  cbn in Hw. lia.
Qed.

Lemma sysv_step vm x :
  s_inv vm -> sysv_room vm x -> arg_ok x ->
  exists vm', push_arg (C := C) vm x = Some vm' /\ s_inv vm' /\ s_ext vm vm' /\
    forall vf p, s_inv vf -> s_ext vm' vf -> s_at (counters_of vm) vf p ->
      exists p', dcbArg (ArgReader := RD) (a_ty x) p = Some (a_val x, p') /\ s_at (counters_of vm') vf p'.
Proof.
  intros Hi [Hr Hn] Hx. destruct (push_arg_sysv vm x Hi Hr Hx) as (y & vm' & Hy & Hyf & Hp & [Hi' Hx' Hc Hh _]). exists vm'.
  split_and!; try done. intros vf p Hvf Hxf Hat. rewrite Hc.
  apply (sysv_read vf p _ _ y); try done; [apply Hi|by apply s_room_bound|by eapply holds_ext].
Qed.

#[export] Instance sysv_CallConv : CallConv DCCallVM_ppc32 DCArgs (H := C) (H0 := RD) := {
  cc_inv := s_inv;
  cc_room := sysv_room;
  cc_ext := s_ext;
  cc_at vm vf p := s_at (counters_of vm) vf p;
  cc_ext_refl := s_ext_refl;
  cc_ext_trans := s_ext_trans;
  cc_step := sysv_step;
}.

(** *** Whole argument lists *)

Definition sysv_placed (vf : DCCallVM_ppc32) (x : arg) (pl : place) : Prop :=
  exists y, conv (a_ty x) y = a_val x /\ (is_float (a_ty x) = true -> y = a_val x) /\ holds vf (a_ty x) y pl.

Lemma push_list_sysv l : forall vm,
  s_inv vm -> align_up (mSize (mVecHead vm)) 8 + 8 * Z.of_nat (length l) <= mTotal (mVecHead vm) -> Forall arg_ok l ->
  exists vf, push_args (C := C) vm l = Some vf /\ s_inv vf /\ s_ext vm vf /\
    mTotal (mVecHead vf) = mTotal (mVecHead vm) /\ length (vec_data (mVecHead vf)) = length (vec_data (mVecHead vm)) /\
    (Forall (fun x => a_ty x = TFloat -> ~ is_nan32 (a_val x)) l -> room_for (CC := sysv_CallConv) vm l) /\
    Forall2 (sysv_placed vf) l (places is_float (map a_ty l) (counters_of vm)).
Proof.
  induction l as [|x l IH]; intros vm Hi Hr Hl.
  { exists vm. split_and!; try done; constructor. }
  cbn [length] in Hr. apply Forall_cons in Hl as [Hx Hl].
  assert (Hrx : s_room vm) by (unfold s_room; lia).
  destruct (push_arg_sysv vm x Hi Hrx Hx) as (y & vm' & Hy & Hyf & Hp & [Hi' Hx1 Hc Hh [Ht Hlen]]).
  pose proof (next_place_stack is_float (a_ty x) _ (si_count vm Hi)) as Hst. rewrite <- Hc in Hst. cbn [counters_of c_stack] in Hst.
  destruct (IH vm' Hi') as (vf & Hpf & Hif & Hxf & Htf & Hlf & Hroom & Hall); [lia|done|].
  exists vf. split_and!; try congruence.
  - unfold push_args. cbn [foldM]. rewrite Hp. exact Hpf.
  - by eapply s_ext_trans.
  - intros [Hfx Hfl]%Forall_cons. split; [by split|]. intros vm1 H1. rewrite Hp in H1. injection H1 as <-. by apply Hroom.
  - cbn [map places]. rewrite Hc in Hall. destruct (next_place is_float (a_ty x) (counters_of vm)) as [pl c']. constructor; [|done].
    exists y. split_and!; try done. by eapply holds_ext.
Qed.
End SysV.
