(* ===== verification/Ppc32Props.v ===== *)
(** * 32-bit PowerPC: whole calls *)

From S2P Require Export Ppc32Proofs.

(** ** Results *)

Section Results.
Variable cs : bool.
#[local] Hint Extern 0 DataModel => exact (ppc32_dm cs) : typeclass_instances.

(** Whatever the [DCValue] held before: a caller gets what the handler stored. *)
Lemma ppc32_result t x slot r0 :
  length slot = 8%nat -> val_ok t x -> (t = TFloat -> ~ is_nan32 x) ->
  exists result, dcvalue_set t x slot = Some result /\
    exists r, callback_exit r0 (sigchar_of t) result = Some r /\ ret_value t r = x.
Proof.
  intros Lc Hx%val_ok_conv Hn. unfold dcvalue_set. set (n := Z.to_nat (sizeof_cty t)). set (o := dcvalue_off t).
  assert (Hw : 8 * Z.of_nat n = ty_bits t) by (destruct t; done).
  assert (Hno : (o = 0 /\ n = 8%nat /\ is_wide t = true) \/ (0 <= o /\ o + Z.of_nat n = 4 /\ is_wide t = false))
    by (unfold n, o; destruct t; vm_compute; auto; right; repeat split; done).
  assert (Hfl : t = TFloat -> o = 0 /\ n = 4%nat) by (intros ->; done).
  clearbody n o. destruct Hno as [(-> & -> & Hwide)|(Ho & Hon & Hwide)].
  - rewrite wr_all by (by rewrite length_enc). eexists. split; [done|]. set (bs := enc BigEndian 8 x).
    assert (H8 : rd 0 8 bs = Some bs) by (rewrite <- (app_nil_r bs) at 1; by apply rd0_app).
    destruct (rd_split 4 4 _ _ _ H8) as [H0 H4]. change (0 + Z.of_nat 4) with 4 in H4.
    assert (Hd : dec BigEndian bs = wrapU 64 x) by apply dec_enc.
    pose proof (dec_be_app (take 4 bs) (drop 4 bs)) as E. rewrite take_drop in E.
    change (8 * Z.of_nat (length (drop 4 bs))) with 32 in E.
    unfold callback_exit. rewrite sigchar_float, sigchar_double. destruct t; try done;
      rewrite ?H8, ?H0, ?H4; cbn [mbind option_bind]; eexists; (split; [done|]); cbn [ret_value ret_r3 ret_r4 ret_f1];
      rewrite <- ?E, Hd; by rewrite conv_wrapU.
  - rewrite wr_Some by (rewrite ?length_enc, ?Lc; lia). eexists. split; [done|]. rewrite length_enc.
    set (result := _ ++ _ ++ _). set (w := take (Z.to_nat o) slot ++ enc BigEndian n x).
    assert (Er : result = w ++ drop 4 slot).
    { unfold result, w. rewrite <- app_assoc. do 2 f_equal. by replace (Z.to_nat o + n)%nat with 4%nat by lia. }
    assert (Lw : length w = 4%nat) by (unfold w; rewrite length_app, length_enc, length_take, Lc; lia).
    assert (H0 : rd 0 4 result = Some w) by (rewrite Er; by apply rd0_app).
    assert (H4 : rd 4 4 result = Some (drop 4 slot)).
    { rewrite Er. apply rd_app; [by rewrite Lw|by rewrite length_drop, Lc]. }
    assert (Hc : conv t (dec BigEndian w) = x).
    { unfold w. rewrite dec_be_app, length_enc, dec_enc, Hw. rewrite <- (conv_wrapU t (ty_bits t)) by done.
      pose proof (ty_bits_pos t). unfold wrapU. rewrite Z.mul_comm, Z.mod_add by (pose proof (pow2_pos (ty_bits t)); lia).
      rewrite Z.mod_mod by (pose proof (pow2_pos (ty_bits t)); lia). fold (wrapU (ty_bits t) x). by rewrite conv_wrapU. }
    unfold callback_exit. rewrite sigchar_float, sigchar_double. destruct t; try done;
      rewrite ?H0, ?H4; cbn [mbind option_bind]; eexists; (split; [done|]); cbn [ret_value ret_r3 ret_f1]; try done.
    destruct (Hfl eq_refl) as [-> ->]. assert (dec BigEndian w = x) as ->.
    { unfold w. change (take (Z.to_nat 0) slot) with (@nil Z). cbn [app]. rewrite dec_enc. exact Hx. }
    rewrite d2f_f2d; [done| |by apply Hn]. rewrite <- Hx. apply wrapU_range. lia.
Qed.
End Results.

(** A callback, entered in state [cpu], that reads its arguments, leaves the
    registers [r0] and returns a scalar ([base]: the address of the parameter area). *)
Definition ppc32_run_callback (a : ppc32_abi) (cs : bool) (base : Z) (ts : list cty) (rt : cty) (f : list arg -> Z)
    (r0 : ppc32_ret) (cpu : ppc32_cpu) : option ppc32_ret :=
  '(l, p) ← read_args (RD := ppc32_ArgReader a cs) ts (dcCallbackThunkEntry cpu);
  result ← dcvalue_set (DM := ppc32_dm cs) rt (f l) (callback_slot a base p);
  callback_exit r0 (sigchar_of rt) result.

(** A handler that reads its arguments first. *)
Lemma run_handler_args a cs base ts l : forall p,
  run_handler a cs base (map HArg ts ++ l) (p, callback_slot a base p) =
  ('(xs, p) ← read_args (RD := ppc32_ArgReader a cs) ts p;
   '(ys, result) ← run_handler a cs base l (p, callback_slot a base p);
   Some (xs ++ ys, result)).
Proof.
  induction ts as [|t ts IH]; intros p; cbn [map app read_args run_handler].
  - cbn [mbind option_bind app]. by destruct (run_handler _ _ _ l _) as [[]|].
  - cbn [handler_step]. destruct (dcbArg t p) as [[x p1]|]; [|done]. cbn [mbind option_bind].
    assert (E : match a with Darwin => value_of_args base p1 | SysV => callback_slot a base p end = callback_slot a base p1) by by destruct a.
    rewrite E, IH. destruct (read_args ts p1) as [[xs p2]|]; [|done]. cbn [mbind option_bind].
    by destruct (run_handler _ _ _ l _) as [[]|].
Qed.

(** On Darwin the order matters: a handler that stores a 64-bit result before it
    reads an [int] gets the register whose number it has just returned. *)
Theorem darwin_result_before_argument cs base n cpu x :
  0 <= n < 8 -> aget n (gprs cpu) = Some x ->
  let ops := [HResult TLongLong n; HArg TInt] in
  option_map fst (run_handler Darwin cs base ops (dcCallbackThunkEntry cpu, callback_slot Darwin base (dcCallbackThunkEntry cpu)))
    = Some [Arg TInt (wrapS 32 x)] /\
  option_map fst (run_handler SysV cs base ops (dcCallbackThunkEntry cpu, callback_slot SysV base (dcCallbackThunkEntry cpu)))
    = option_map (fun y => [Arg TInt (wrapS 32 y)]) (aget 0 (gprs cpu)).
Proof.
  intros Hn Hx ops. set (p := dcCallbackThunkEntry cpu).
  assert (Hset : forall slot, length slot = 8%nat -> dcvalue_set (DM := ppc32_dm cs) TLongLong n slot = Some (enc BigEndian 8 n))
    by (intros slot Ls; unfold dcvalue_set; by rewrite wr_all by (by rewrite length_enc)).
  assert (Hlo : dec BigEndian (drop 4 (enc BigEndian 8 n)) = n).
  { rewrite enc8_words, drop_app_length' by by rewrite length_enc. rewrite dec_enc. apply wrapU_id. unfold in_u. lia. }
  unfold ops. cbn [run_handler handler_step]. rewrite !Hset by (by destruct p). cbn [mbind option_bind handler_step].
  split.
  - unfold args_of_value. rewrite Hlo. cbn [dcbArg ppc32_ArgReader]. unfold dcbArgInt, dcbArgInt_darwin.
    cbn [ireg_count ireg_data args_at p dcCallbackThunkEntry]. rewrite wrapS_id by (unfold in_s; lia).
    rewrite (proj2 (Z.ltb_lt n 8)) by lia. by rewrite Hx.
  - cbn [dcbArg ppc32_ArgReader]. unfold dcbArgInt, dcbArgInt_sysv. cbn [ireg_count ireg_data p dcCallbackThunkEntry].
    change (0 <? 8) with true. cbv iota. by destruct (aget 0 (gprs cpu)).
Qed.

(** ** Where the callee finds its arguments *)

(** Darwin: the argument that starts at word [km.1], the [km.2]-th of the
    floating-point ones. *)
Record darwin_in (cs : bool) (cpu : ppc32_cpu) (x : arg) (km : Z * Z) : Prop := {
  din_area : exists bs, rd (4 * km.1) (Z.to_nat (arg_size (a_ty x))) (par_area cpu) = Some bs /\
             conv (DM := ppc32_dm cs) (a_ty x) (dec BigEndian bs) = a_val x;
  din_gpr : forall j, km.1 <= j < km.1 + arg_size (a_ty x) / 4 -> j < 8 ->
            exists bs, rd (4 * j) 4 (par_area cpu) = Some bs /\ aget j (gprs cpu) = Some (wrapS 32 (dec BigEndian bs));
  din_fpr : forall y, arg_fpr (a_ty x) (a_val x) = Some y -> km.2 < 13 -> aget km.2 (fprs cpu) = Some y;
}.

(** System V: the argument at the place [pl]. *)
Definition sysv_in (cs : bool) (cpu : ppc32_cpu) (x : arg) (pl : place) : Prop :=
  let c := conv (DM := ppc32_dm cs) (a_ty x) in
  match pl with
  | InGpr k =>
    if is_wide (a_ty x)
    then exists hi lo, aget k (gprs cpu) = Some hi /\ aget (k + 1) (gprs cpu) = Some lo /\
           c (wrapU 32 lo + 2 ^ 32 * wrapU 32 hi) = a_val x
    else exists w, aget k (gprs cpu) = Some w /\ c w = a_val x
  | InFpr k => exists y, arg_fpr (a_ty x) (a_val x) = Some y /\ aget k (fprs cpu) = Some y
  | OnStack off => exists bs, rd off (Z.to_nat (arg_size (a_ty x))) (par_area cpu) = Some bs /\ c (dec BigEndian bs) = a_val x
  end.

Definition args_in (a : ppc32_abi) (cs : bool) (cpu : ppc32_cpu) (l : list arg) : Prop :=
  match a with
  | Darwin => Forall2 (darwin_in cs cpu) l (darwin_places l 0 0)
  | SysV => Forall2 (sysv_in cs cpu) l (places is_float (map a_ty l) {| c_int := 0; c_float := 0; c_stack := 0 |})
  end.

(** ** Whole calls *)

Definition default_vt (a : ppc32_abi) : ppc32_vt :=
  match a with Darwin => gVT_ppc32_darwin_p | SysV => gVT_ppc32_sysv_p end.

(** What the VM is allocated with; on Darwin every call copies eight words. *)
Record ppc32_alloc (a : ppc32_abi) (cs : bool) (vm : DCCallVM_ppc32) : Prop := {
  al_vec : vec_wf (DM := ppc32_dm cs) (mVecHead vm) /\ 0 <= mTotal (mVecHead vm);
  al_data : (match a with Darwin => 32 | SysV => 0 end) <= Z.of_nat (length (vec_data (mVecHead vm)));
  al_bytes : Forall is_byte (vec_data (mVecHead vm));
  al_regs : length (mIntData vm) = 8%nat /\ length (mFloatData vm) = 13%nat;
}.

Section Props.
Variable a : ppc32_abi.
Variable cs : bool.
#[local] Hint Extern 0 DataModel => exact (ppc32_dm cs) : typeclass_instances.
#[local] Abbreviation C := (ppc32_CallVM a cs).

Lemma dcCall_as_ppc32 rt vm target :
  p_vt vm = default_vt a ->
  dcCall_as (C := C) rt vm target =
  match a with Darwin => dc_callvm_call_ppc32_darwin vm target | SysV => dc_callvm_call_ppc32_sysv vm target end.
Proof.
  intros Hv. unfold dcCall_as, dcCallBool, dcCallChar, dcCallShort, dcCallInt, dcCallLong, dcCallLongLong,
    dcCallFloat, dcCallDouble, dcCallPointer, vtable. destruct rt; cbn; rewrite Hv; by destruct a.
Qed.

(** What the kernel of the default convention makes of a finished VM. *)
Lemma ppc32_call_enter rt vf target :
  p_vt vf = default_vt a -> vec_wf (mVecHead vf) -> vec_room (mVecHead vf) 0 -> Forall is_byte (vec_data (mVecHead vf)) ->
  (match a with Darwin => 32 | SysV => 0 end) <= Z.of_nat (length (vec_data (mVecHead vf))) ->
  mSize (mVecHead vf) mod 4 = 0 ->
  exists cpu, kernel_enter (dcCall_as (C := C) rt vf target) = Some cpu /\ gprs cpu = mIntData vf /\
    fprs cpu = (match a with Darwin => mFloatData vf | SysV => take 8 (mFloatData vf) end) /\
    prefix (vec_bytes (mVecHead vf)) (par_area cpu).
Proof.
  intros Hv [Hs Ht [_ Hw]] Hr Hb Hl Hm. rewrite dcCall_as_ppc32 by done. unfold vec_room in Hr. cbn in Hw.
  destruct a; cbn [dc_callvm_call_ppc32_darwin dc_callvm_call_ppc32_sysv kernel_enter]; unfold dcVecSize.
  - destruct (load_stack_ok BigEndian (Z.max (mSize (mVecHead vf)) (8 * 4)) (vec_data (mVecHead vf))) as (ws & -> & Hst); [done|lia|lia| |].
    { destruct (Z.max_spec (mSize (mVecHead vf)) (8 * 4)) as [[_ ->]|[_ ->]]; done. }
    eexists. split_and!; [done..|]. cbn [par_area]. rewrite Hst. apply take_prefix_take. lia.
  - destruct (load_stack_ok BigEndian (mSize (mVecHead vf)) (vec_data (mVecHead vf))) as (ws & -> & Hst); [done|lia|lia|done|].
    eexists. split_and!; [done..|]. cbn [par_area]. by rewrite Hst.
Qed.
End Props.

Section Abis.
Variable cs : bool.
#[local] Hint Extern 0 DataModel => exact (ppc32_dm cs) : typeclass_instances.

Lemma darwin_placed_in vf cpu x km :
  d_inv cs vf -> 0 <= km.1 -> gprs cpu = mIntData vf -> fprs cpu = mFloatData vf ->
  prefix (vec_bytes (mVecHead vf)) (par_area cpu) -> darwin_placed cs vf x km -> darwin_in cs cpu x km.
Proof.
  intros Hi H0 Hg Hf Hpre [(bs & Hrd & Hc) Hfp]. split; [|intros j Hj H8|by rewrite Hf].
  - exists bs. split; [by eapply rd_prefix|done].
  - pose proof (rd_bound _ _ _ _ Hrd) as [_ Hb]. pose proof (arg_size_cases (a_ty x)) as Hsz.
    assert (Hend : 4 * j + Z.of_nat 4 <= Z.of_nat (length (vec_bytes (mVecHead vf)))).
    { destruct Hsz as [E|E]; rewrite E in *; [change (4 / 4) with 1 in Hj|change (8 / 4) with 2 in Hj]; lia. }
    destruct (rd_Some (4 * j) 4 (vec_bytes (mVecHead vf))) as (w & Hw & _); [lia..|].
    exists w. split; [by eapply rd_prefix|]. rewrite Hg. apply (di_mirror cs vf Hi j w); [lia|done].
Qed.

Lemma darwin_places_nonneg l : forall k m, 0 <= k -> Forall (fun km => 0 <= km.1) (darwin_places l k m).
Proof.
  induction l as [|x l IH]; intros k m Hk; cbn; constructor; [done|]. apply IH.
  destruct (arg_size_cases (a_ty x)) as [-> | ->]; [change (4 / 4) with 1|change (8 / 4) with 2]; lia.
Qed.

Lemma darwin_args_in vf cpu l :
  d_inv cs vf -> gprs cpu = mIntData vf -> fprs cpu = mFloatData vf -> prefix (vec_bytes (mVecHead vf)) (par_area cpu) ->
  Forall2 (darwin_placed cs vf) l (darwin_places l 0 0) -> args_in Darwin cs cpu l.
Proof.
  intros Hi Hg Hf Hpre Hall. cbn [args_in]. pose proof (darwin_places_nonneg l 0 0 ltac:(lia)) as Hnn.
  apply Forall2_same_length_lookup. apply Forall2_same_length_lookup in Hall as [Hlen Hall]. split; [done|].
  intros i x km Hx Hkm. apply (darwin_placed_in vf); try done; [|by eapply Hall].
  rewrite Forall_lookup in Hnn. by eapply Hnn.
Qed.

Lemma sysv_placed_in vf cpu x pl :
  s_inv cs vf -> gprs cpu = mIntData vf -> fprs cpu = take 8 (mFloatData vf) ->
  prefix (vec_bytes (mVecHead vf)) (par_area cpu) -> sysv_placed cs vf x pl -> sysv_in cs cpu x pl.
Proof.
  intros Hi Hg Hf Hpre (y & Hy & Hyf & Hh). unfold sysv_in. destruct pl as [k|k|off]; cbn [holds] in Hh.
  - destruct Hh as (_ & _ & Hh). unfold arg_words in Hh. rewrite Hg. destruct (is_wide (a_ty x)) eqn:Hwd.
    + pose proof (Hh 0%nat _ eq_refl) as H0. pose proof (Hh 1%nat _ eq_refl) as H1. rewrite Z.add_0_r in H0.
      do 2 eexists. split; [exact H0|]. split; [exact H1|]. unfold word0, word1. change (conv TInt ?z) with (wrapS 32 z).
      rewrite !wrapU_wrapS by lia. rewrite dword_join, conv_wrapU; [done|]. by destruct (a_ty x).
    + pose proof (Hh 0%nat _ eq_refl) as H0. rewrite Z.add_0_r in H0. eexists. split; [exact H0|].
      rewrite conv_conv; [done|]. by destruct (a_ty x).
  - destruct Hh as (Hk & z & Hz & Hh). pose proof (si_count cs vf Hi) as [_ Hc _]. cbn in Hc.
    exists z. assert (Ex : y = a_val x) by (apply Hyf; by destruct (a_ty x)). rewrite <- Ex. split; [done|].
    rewrite Hf. unfold aget in *. rewrite (proj2 (Z.leb_le 0 k)) in * by lia. rewrite lookup_take_lt by lia. exact Hh.
  - eexists. split; [by eapply rd_prefix|]. rewrite dec_enc, conv_wrapU; [done|]. unfold arg_size. by destruct (a_ty x).
Qed.

Lemma sysv_args_in vf cpu l :
  s_inv cs vf -> gprs cpu = mIntData vf -> fprs cpu = take 8 (mFloatData vf) ->
  prefix (vec_bytes (mVecHead vf)) (par_area cpu) ->
  Forall2 (sysv_placed cs vf) l (places is_float (map a_ty l) {| c_int := 0; c_float := 0; c_stack := 0 |}) -> args_in SysV cs cpu l.
Proof. intros. eapply Forall2_impl; [eassumption|]. intros. by eapply sysv_placed_in. Qed.
End Abis.

(** ** From end to end *)

Section EndToEnd.
Variable a : ppc32_abi.
Variable cs : bool.
#[local] Hint Extern 0 DataModel => exact (ppc32_dm cs) : typeclass_instances.
#[local] Abbreviation C := (ppc32_CallVM a cs).

Definition reset_vm (vm0 : DCCallVM_ppc32) : DCCallVM_ppc32 :=
  p_with_regs 0 0 (p_with_vec (dcVecReset (mVecHead vm0)) vm0).

Lemma length_callback_slot base p : length (callback_slot a base p) = 8%nat.
Proof. by destruct a. Qed.

(** The callee is entered with every argument in its place, and a reader that
    starts there reads the arguments. *)
Lemma ppc32_entered vm0 l rt target :
  ppc32_alloc a cs vm0 -> p_vt vm0 = default_vt a -> 8 * Z.of_nat (length l) <= mTotal (mVecHead vm0) -> Forall arg_ok l ->
  exists vf cpu, push_args (C := C) (reset_vm vm0) l = Some vf /\ kernel_enter (dcCall_as (C := C) rt vf target) = Some cpu /\
    args_in a cs cpu l /\
    (Forall (fun x => a_ty x = TFloat -> ~ is_nan32 (a_val x)) l ->
     exists p, read_args (RD := ppc32_ArgReader a cs) (map a_ty l) (dcCallbackThunkEntry cpu) = Some (l, p)).
Proof.
  intros [[Hw Ht] Hd Hb Hregs] Hvt Hroom Hl. pose proof Hw as [_ Htot [Hw0 Hwt]].
  assert (Hw' : vec_wf (dcVecReset (mVecHead vm0))) by (split; cbn; [lia|exact Htot|by split]).
  destruct a.
  - assert (Hi : d_inv cs (reset_vm vm0)).
    { split; cbn; try done. intros k bs Hk Hrd. apply rd_bound in Hrd. change (length _) with 0%nat in Hrd. lia. }
    destruct (push_list_darwin cs l (reset_vm vm0) 0 Hi) as (vf & Hp & Hif & _ & Htf & Hlf & Hrf & Hall); [done|lia|cbn; lia|done|].
    destruct (ppc32_call_enter Darwin cs rt vf target) as (cpu & Hk & Hg & Hfp & Hpre); [apply Hif..|rewrite Hlf; exact Hd| |].
    { rewrite (di_size cs vf Hif), Z.mul_comm. by apply Z.mod_mul. }
    exists vf, cpu. split_and!; [done|done|by apply (darwin_args_in cs vf)|]. intros Hfl.
    destruct (push_args_inv (CC := darwin_CallConv cs) _ l Hi (Hrf Hfl) Hl) as (vf' & Hp' & _ & _ & Hread).
    rewrite Hp in Hp'. injection Hp' as <-. destruct (Hread (dcCallbackThunkEntry cpu)) as (p' & Hrd & _); [by split|]. by exists p'.
  - assert (Hi : s_inv cs (reset_vm vm0)) by (by split; [done|split; [done|unfold vec_room; cbn; lia]|done|split; cbn; [lia..|done]|done]).
    destruct (push_list_sysv cs l (reset_vm vm0) Hi) as (vf & Hp & Hif & _ & Htf & Hlf & Hrf & Hall);
      [change (align_up (mSize (mVecHead (reset_vm vm0))) 8) with 0; cbn; lia|done|].
    pose proof (si_count cs vf Hif) as [_ _ [_ Hm]].
    destruct (ppc32_call_enter SysV cs rt vf target) as (cpu & Hk & Hg & Hfp & Hpre); [apply Hif..|lia|exact Hm|].
    exists vf, cpu. split_and!; [done|done|by apply (sysv_args_in cs vf)|]. intros Hfl.
    destruct (push_args_inv (CC := sysv_CallConv cs) _ l Hi (Hrf Hfl) Hl) as (vf' & Hp' & _ & _ & Hread).
    rewrite Hp in Hp'. injection Hp' as <-. destruct (Hread (dcCallbackThunkEntry cpu)) as (p' & Hrd & _); [|by exists p'].
    split; [done| |done]. split; [done|]. intros k Hk8. cbn [freg_data dcCallbackThunkEntry]. rewrite Hfp. unfold aget.
    rewrite (proj2 (Z.leb_le 0 k)) by lia. by rewrite lookup_take_lt by lia.
Qed.

(** C34: scalar calls on 32-bit PowerPC, on Darwin and with the System V ABI, are
    transparent from end to end, and the arguments are where the ABI says.  For
    every argument list that fits the vector - on Darwin one of at least eight
    words - a reset VM in the default mode, given the arguments, enters the callee
    with every argument in its place: on Darwin in its words of the parameter area,
    of which the first eight are in r3-r10, and the first thirteen floating-point
    ones in f1-f13; with System V in the next general registers (64-bit integers
    in a pair that starts at an even one), the next of f1-f8, or on the stack
    with natural alignment.  A callback entered like this that reads its arguments
    before it sets its result reads exactly those - NaNs of type [float] excepted -
    and the caller gets its result. *)
Theorem ppc32_scalar_call_end_to_end vm0 l rt f r0 base target :
  ppc32_alloc a cs vm0 -> p_vt vm0 = default_vt a -> 8 * Z.of_nat (length l) <= mTotal (mVecHead vm0) ->
  Forall arg_ok l -> val_ok rt (f l) -> (rt = TFloat -> ~ is_nan32 (f l)) ->
  exists vm vf cpu,
    dcReset (C := C) vm0 = Some vm /\ push_args (C := C) vm l = Some vf /\
    kernel_enter (dcCall_as (C := C) rt vf target) = Some cpu /\
    args_in a cs cpu l /\
    (Forall (fun x => a_ty x = TFloat -> ~ is_nan32 (a_val x)) l ->
     exists r, ppc32_run_callback a cs base (map a_ty l) rt f r0 cpu = Some r /\ ret_value rt r = f l).
Proof.
  intros Hal Hvt Hroom Hl Hf Hn. destruct (ppc32_entered vm0 l rt target Hal Hvt Hroom Hl) as (vf & cpu & Hp & Hk & Hin & Hread).
  exists (reset_vm vm0), vf, cpu. split_and!; try done.
  - unfold dcReset, vtable. cbn [ppc32_CallVM mVTpointer deref]. by destruct (p_vt vm0).
  - intros Hfl. destruct (Hread Hfl) as (p & Hrd).
    destruct (ppc32_result cs rt (f l) (callback_slot a base p) r0 (length_callback_slot base p) Hf Hn) as (result & Hset & r & Hexit & Hret).
    exists r. split; [|done]. unfold ppc32_run_callback. rewrite Hrd. cbn [mbind option_bind]. rewrite Hset. exact Hexit.
Qed.

(** On Darwin a VM of less than eight words is too small for every call. *)
Theorem ppc32_darwin_small_vm_overread mem alloc size vm rt target :
  a = Darwin -> Z.of_nat (length alloc) = size -> 0 <= size < 32 ->
  dcNewCallVM a mem (Some alloc) size = Some vm -> kernel_enter (dcCall_as (C := C) rt vm target) = None.
Proof.
  intros Ha Hl Hs [= <-]. rewrite dcCall_as_ppc32 by (by subst a). rewrite Ha. unfold dc_callvm_call_ppc32_darwin. cbn.
  change (Z.to_nat (wrapU 32 (0 `max` (8 * 4)) / 4)) with 8%nat.
  destruct (load_words BigEndian 4 8 0 alloc) as [ws|] eqn:E; [|done].
  destruct (load_words_aget _ _ _ 7 _ _ _ E) as (bs & Hrd & _); [lia|]. apply rd_bound in Hrd. lia.
Qed.
End EndToEnd.
