(* ===== verification/PpcExamples.v ===== *)
(** * PowerPC: the properties at concrete inputs *)

From S2P Require Ppc64Props Ppc32Props.

Module Bits64.
Import Ppc64Props.

Definition ex_vm_ppc64 (t : ppc64_vt) : DCCallVM_ppc64 :=
  {| p_vt := t; p_mError := 0; mIntRegs := 3; mFloatRegs := 1; mIntData := replicate 8 0xcc; mFloatData := replicate 13 0xcc;
     mVecHead := {| mTotal := 128; mSize := 16; vec_data := replicate 128 0xcc |} |}.

(** Ten arguments: the last two are in the parameter area, the [float] in f2 as well. *)
Definition ex_args_ppc64 : list arg :=
  [Arg TInt (-7); Arg TDouble 0x3ff8000000000000; Arg TUChar 200; Arg TBool 1; Arg TLongLong (-2)] ++
  map (Arg TShort) [-1; -2; -3] ++ [Arg TFloat 0x3f800000; Arg TPointer 0x123456789abcdef0].

Lemma ppc64_scalar_call_end_to_end_witness :
  exists vm vf cpu,
    dcReset (C := ppc64_CallVM ELFv2 true (fun _ => 0xee)) (ex_vm_ppc64 gVT_ppc64_p) = Some vm /\
    push_args (DM := ppc64_dm ELFv2 true) (C := ppc64_CallVM ELFv2 true (fun _ => 0xee)) vm ex_args_ppc64 = Some vf /\
    kernel_enter ELFv2 (dcCall_as (C := ppc64_CallVM ELFv2 true (fun _ => 0xee)) TFloat vf 0) = Some cpu /\
    Forall2 (arg_in ELFv2 true false cpu) ex_args_ppc64
      [(0, 0); (1, 0); (2, 1); (3, 1); (4, 1); (5, 1); (6, 1); (7, 1); (8, 1); (9, 2)] /\
    (Forall (fun a => a_ty a = TFloat -> false = false /\ ~ is_nan32 (a_val a)) ex_args_ppc64 ->
     exists r, ppc64_run_callback ELFv2 true (map a_ty ex_args_ppc64) TFloat (fun _ => 0x40400000)
                 {| ret_r3 := 5; ret_f1 := 6 |} cpu = Some r /\
       ret_value (DM := ppc64_dm ELFv2 true) TFloat r = 0x40400000).
Proof.
  apply (ppc64_scalar_call_end_to_end ELFv2 true (fun _ => 0xee) (ex_vm_ppc64 gVT_ppc64_p) ex_args_ppc64 TFloat
           (fun _ => 0x40400000) {| ret_r3 := 5; ret_f1 := 6 |} 0).
  - constructor; [split; [constructor; cbn; lia|vm_compute; discriminate]|reflexivity| |split; reflexivity].
    apply Forall_replicate. done.
  - discriminate.
  - vm_compute. discriminate.
  - repeat (constructor; [first [reflexivity|right; reflexivity]|]). constructor.
  - reflexivity.
  - intros _ [H _]. vm_compute in H. discriminate.
Defined.

(** The same from version 1, where the area is filled from its start. *)
Example ppc64_v1_area :
  (vf ← push_args (DM := ppc64_dm ELFv1 true) (C := ppc64_CallVM ELFv1 true (fun _ => 0))
          (p_with_regs 0 0 (p_with_vec (dcVecReset (mVecHead (ex_vm_ppc64 gVT_ppc64_p))) (ex_vm_ppc64 gVT_ppc64_p)))
          [Arg TInt (-1); Arg TFloat 0x3f800000];
   Some (vec_bytes (mVecHead vf)))
  = Some [255; 255; 255; 255; 255; 255; 255; 255; 0; 0; 0; 0; 0x3f; 0x80; 0; 0].
Proof. reflexivity. Qed.

End Bits64.

Module Bits32.
Import Ppc32Props.

Definition ex_vm_ppc32 (t : ppc32_vt) : DCCallVM_ppc32 :=
  {| p_vt := t; p_mError := 0; mIntRegs := 3; mFloatRegs := 1; mIntData := replicate 8 0xcc; mFloatData := replicate 13 0xcc;
     mVecHead := {| mTotal := 128; mSize := 16; vec_data := replicate 128 0xcc |} |}.

(** A [long long] skips a register, the last two arguments are on the stack. *)
Definition ex_args_ppc32 : list arg :=
  [Arg TInt (-7); Arg TDouble 0x3ff8000000000000; Arg TLongLong (-2); Arg TUChar 200; Arg TBool 1; Arg TFloat 0x3f800000;
   Arg TShort (-3); Arg TULong 4000000000; Arg TLongLong 5].

Lemma ppc32_scalar_call_end_to_end_witness :
  exists vm vf cpu,
    dcReset (C := ppc32_CallVM SysV true) (ex_vm_ppc32 gVT_ppc32_sysv_p) = Some vm /\
    push_args (DM := ppc32_dm true) (C := ppc32_CallVM SysV true) vm ex_args_ppc32 = Some vf /\
    kernel_enter (dcCall_as (C := ppc32_CallVM SysV true) TFloat vf 0) = Some cpu /\
    Forall2 (sysv_in true cpu) ex_args_ppc32
      [InGpr 0; InFpr 0; InGpr 2; InGpr 4; InGpr 5; InFpr 1; InGpr 6; InGpr 7; OnStack 0] /\
    (Forall (fun x => a_ty x = TFloat -> ~ is_nan32 (a_val x)) ex_args_ppc32 ->
     exists r, ppc32_run_callback SysV true 0x1008 (map a_ty ex_args_ppc32) TFloat (fun _ => 0x40400000)
                 {| ret_r3 := 5; ret_r4 := 6; ret_f1 := 7 |} cpu = Some r /\
       ret_value (DM := ppc32_dm true) TFloat r = 0x40400000).
Proof.
  apply (ppc32_scalar_call_end_to_end SysV true (ex_vm_ppc32 gVT_ppc32_sysv_p) ex_args_ppc32 TFloat
           (fun _ => 0x40400000) {| ret_r3 := 5; ret_r4 := 6; ret_f1 := 7 |} 0x1008 0).
  - constructor; [split; [constructor; cbn; lia|vm_compute; discriminate]|vm_compute; discriminate| |split; reflexivity].
    apply Forall_replicate. done.
  - reflexivity.
  - vm_compute. discriminate.
  - repeat (constructor; [first [reflexivity|right; reflexivity]|]). constructor.
  - reflexivity.
  - intros _ [H _]. vm_compute in H. discriminate.
Defined.

(** The same arguments on Darwin, where registers mirror the parameter area. *)
Example ppc32_darwin_regs :
  (vm ← dcReset (C := ppc32_CallVM Darwin true) (ex_vm_ppc32 gVT_ppc32_darwin_p);
   vf ← push_args (DM := ppc32_dm true) (C := ppc32_CallVM Darwin true) vm ex_args_ppc32;
   cpu ← kernel_enter (dcCall_as (C := ppc32_CallVM Darwin true) TInt vf 0);
   Some (gprs cpu, take 2 (fprs cpu), take 12 (par_area cpu)))
  = Some ([-7; 0x3ff80000; 0; -1; -2; -56; 1; 0x3f800000], [0x3ff8000000000000; 0x3ff0000000000000],
          [255; 255; 255; 249; 0x3f; 0xf8; 0; 0; 0; 0; 0; 0]).
Proof. reflexivity. Qed.

End Bits32.
