(* ===== verification/Mips.v ===== *)
(** * MIPS: what the 32-bit ABIs share
      (dyncall/dyncall.h, dyncall_value.h,
       dyncallback/dyncall_callback_mips.c, dyncall_thunk_mips.{h,c})

    All of it depends on the byte order [e] of the processor. *)

From S2P Require Export Words.

Definition DC_CALL_C_MIPS32_EABI : Z := 12.
Definition DC_CALL_C_MIPS32_O32 : Z := 16.
Definition DC_CALL_C_MIPS64_N32 : Z := 17.
Definition DC_CALL_C_MIPS64_N64 : Z := 18.

Definition mips32_dm (e : endian) (char_signed : bool) : DataModel := {|
  dm_endian := e; dm_size_bits := 32; dm_long_bits := 32; dm_char_signed := char_signed
|}.

#[export] Instance mips32_dm_ok e cs : DataModelOk (DM := mips32_dm e cs).
Proof. split; cbn; auto. Qed.

Record DCCallback := { cb_handler : Z; cb_userdata : Z }.

Definition dcbInitCallback2 (signature : list DCsigchar) (handler userdata : Z) : DCCallback :=
  {| cb_handler := handler; cb_userdata := userdata |}.

(** Small members of a big-endian [DCValue] are in the low part of its first
    word, a [float] is in its second one. *)
Definition dcvalue_off (e : endian) {DM : DataModel} (t : cty) : Z :=
  match e, t with
  | BigEndian, (TChar | TUChar | TShort | TUShort) => 4 - sizeof_cty t
  | BigEndian, TFloat => 4
  | _, _ => 0
  end.

Definition dcvalue_set (e : endian) {DM : DataModel} (t : cty) (x : Z) (result : list Z) : option (list Z) :=
  wr (dcvalue_off e t) (enc e (Z.to_nat (sizeof_cty t)) x) result.

(** Both callback entries clear the [DCValue]. *)
Definition callback_slot (e : endian) : list Z := enc e 4 0 ++ enc e 4 0.

(** [dcbInitThunk] (dyncall_thunk_mips.c): the halfwords of an instruction are
    stored in the order of the processor. *)
Definition hi16 (x : Z) : Z := wrapU 16 (Z.shiftr (wrapU 32 x) 16).
Definition lo16 (x : Z) : Z := wrapU 16 (wrapU 32 x).

Definition halves (e : endian) (hi lo : Z) : list Z :=
  match e with
  | BigEndian => enc e 2 hi ++ enc e 2 lo
  | LittleEndian => enc e 2 lo ++ enc e 2 hi
  end.

Definition dcbInitThunk (e : endian) (p entry : Z) : list Z :=
  halves e 0x3c0c (hi16 p) ++ halves e 0x3c19 (hi16 entry) ++ halves e 0x3739 (lo16 entry)
  ++ enc e 4 0x03200008 ++ halves e 0x358c (lo16 p).

(** The first word of a doubleword is its low one, or its high one. *)
Definition first_word (e : endian) (x : Z) : Z := match e with LittleEndian => x | BigEndian => x / 2 ^ 32 end.
Definition second_word (e : endian) (x : Z) : Z := match e with LittleEndian => x / 2 ^ 32 | BigEndian => x end.

(** The doubleword of two words in memory. *)
Definition two_words (e : endian) (w0 w1 : Z) : Z :=
  match e with LittleEndian => w0 + 2 ^ 32 * w1 | BigEndian => w1 + 2 ^ 32 * w0 end.

Lemma enc_dword e x : enc e 8 x = enc e 4 (first_word e x) ++ enc e 4 (second_word e x).
Proof. destruct e; [apply (le_split_app 4 4)|apply (enc_be_app 4 4)]. Qed.

Lemma dec_words e a b : length a = 4%nat -> length b = 4%nat -> dec e (a ++ b) = two_words e (dec e a) (dec e b).
Proof.
  intros Ha Hb. destruct e; cbn [two_words].
  - unfold dec. rewrite le_join_app, Ha. done.
  - by rewrite dec_be_app, Hb.
Qed.

Lemma two_words_of e x : two_words e (wrapU 32 (first_word e x)) (wrapU 32 (second_word e x)) = wrapU 64 x.
Proof. destruct e; apply dword_join. Qed.

(** What [dcbArgULongLong] makes of two words it reads one after the other. *)
Definition join_words (e : endian) (w0 w1 : Z) : Z :=
  match e with
  | LittleEndian => Z.lor w0 (Z.shiftl w1 32)
  | BigEndian => Z.lor (Z.shiftl w0 32) w1
  end.

Lemma join_words_of e x : join_words e (wrapU 32 (first_word e x)) (wrapU 32 (second_word e x)) = wrapU 64 x.
Proof.
  rewrite <- (two_words_of e x). destruct e; cbn [join_words two_words]; [rewrite Z.lor_comm|];
    apply shiftl_lor, wrapU_range; lia.
Qed.

(** ** Results *)

(** Zeros around an object in the place of small integers do not matter. *)
Lemma dec_pad e k bs :
  dec e (match e with LittleEndian => bs ++ replicate k 0 | BigEndian => replicate k 0 ++ bs end) = dec e bs.
Proof.
  assert (Hz : forall e', dec e' (replicate k 0) = 0).
  { intros e'. unfold dec. assert (H0 : le_join (replicate k 0) = 0) by (induction k as [|k IH]; cbn; [done|rewrite IH; done]).
    destruct e'; [done|]. rewrite rev_alt. fold (reverse (replicate k 0)). by rewrite reverse_replicate. }
  destruct e.
  - specialize (Hz LittleEndian). unfold dec in *. rewrite le_join_app, Hz. lia.
  - rewrite dec_be_app, Hz. lia.
Qed.

(** What a handler leaves in the cleared [DCValue]. *)
Lemma dcvalue_set_words e cs t x :
  val_ok (DM := mips32_dm e cs) t x ->
  exists w0 w1, dcvalue_set e (DM := mips32_dm e cs) t x (callback_slot e) = Some (w0 ++ w1) /\
    length w0 = 4%nat /\ length w1 = 4%nat /\
    (if is_wide t then two_words e (dec e w0) (dec e w1) = wrapU 64 x
     else conv (DM := mips32_dm e cs) t (dec e (match e, t with BigEndian, TFloat => w1 | _, _ => w0 end)) = x).
Proof.
  intros Hx%val_ok_conv. unfold dcvalue_set. set (n := Z.to_nat (sizeof_cty (DM := mips32_dm e cs) t)).
  assert (Hw : ty_bits (DM := mips32_dm e cs) t = 8 * Z.of_nat n) by by destruct t.
  assert (Hc : conv (DM := mips32_dm e cs) t (dec e (enc e n x)) = x).
  { rewrite dec_enc, conv_wrapU; [done|]. lia. }
  destruct (is_wide t) eqn:Hwd.
  - assert (n = 8%nat) as -> by by destruct t. assert (dcvalue_off e (DM := mips32_dm e cs) t = 0) as -> by by destruct e, t.
    rewrite wr_all by by destruct e. rewrite enc_dword. do 2 eexists. split; [done|].
    rewrite !length_enc. split_and!; [done..|]. rewrite !dec_enc. apply two_words_of.
  - assert (Hn : (n = 4 \/ n = 2 \/ n = 1)%nat) by (unfold n; destruct t; first [discriminate|vm_compute; auto]).
    set (z := replicate (4 - n) 0). set (bs := enc e n x) in *.
    pose (w := match e with LittleEndian => bs ++ z | BigEndian => z ++ bs end).
    assert (Lw : length w = 4%nat) by (unfold w, z, bs; destruct e; rewrite length_app, length_enc, length_replicate; lia).
    assert (Hcw : conv (DM := mips32_dm e cs) t (dec e w) = x) by (unfold w, z; by rewrite dec_pad).
    assert (Lb : length bs = n) by apply length_enc.
    assert (Hwr : wr (dcvalue_off e (DM := mips32_dm e cs) t) bs (callback_slot e)
                  = Some (match e, t with BigEndian, TFloat => replicate 4 0 ++ w | _, _ => w ++ replicate 4 0 end)).
    { unfold w, z, n in *. clearbody bs. clear Hc Hcw Hw Hx w z n.
      destruct e, t; try discriminate Hwd; (destruct bs as [|b0 [|b1 [|b2 [|b3 [|]]]]]; cbn in Lb; try discriminate Lb; reflexivity). }
    rewrite Hwr. destruct e; [exists w, (replicate 4 0); by split_and!|].
    destruct t; try discriminate Hwd; first [exists w, (replicate 4 0); by split_and!|exists (replicate 4 0), w; by split_and!].
Qed.
