(* ===== verification/MipsO32.v ===== *)
(** * MIPS o32: call VM, kernel, callbacks and argument access
      (dyncall/dyncall_callvm_mips_o32.{h,c}, dyncall_call_mips_o32.S,
       dyncallback/dyncall_args_mips.h, dyncall_args_mips_o32.c,
       dyncall_callback_mips_o32.S)

    All arguments are in the vector, doublewords aligned; the kernel copies it to
    the stack and loads its first four words into $4-$7.  With hardware floating
    point the first two arguments, if they are floating-point ones, are in $f12
    and $f14 as well. *)

From S2P Require Export Mips.

(** ** Argument access in a callback (dyncall_args_mips.h, dyncall_args_mips_o32.c)

    [stackptr] is an index of [arg_mem], in which the sixteen bytes of the spilled
    floating-point registers come right before the arguments. *)

Record DCArgs := { freg_count : Z; stackptr : Z; arg_mem : list Z }.

Definition o_at (fc sp : Z) (p : DCArgs) : DCArgs := {| freg_count := fc; stackptr := sp; arg_mem := arg_mem p |}.

Section Args.
Variable e : endian.
Variable hard : bool.
Variable char_signed : bool.
#[local] Hint Extern 0 DataModel => exact (mips32_dm e char_signed) : typeclass_instances.

Definition dcbArgInt : SO DCArgs Z := fun p =>
  let fc := if hard then 2 else freg_count p in
  bs ← rd (stackptr p) 4 (arg_mem p);
  Some (conv TInt (dec e bs), o_at fc (stackptr p + 4) p).

Definition dcbArgUInt : SO DCArgs Z := x ← dcbArgInt; mret (conv TUInt x).

(** [p->stackptr += ((int)p->stackptr & 4)] *)
Definition skip_slot (p : DCArgs) : DCArgs := o_at (freg_count p) (stackptr p + Z.land (stackptr p) 4) p.

Definition dcbArgULongLong : SO DCArgs Z :=
  fun p => (w0 ← dcbArgUInt; w1 ← dcbArgUInt; mret (conv TULongLong (join_words e w0 w1)) : SO DCArgs Z) (skip_slot p).

Definition dcbArgLongLong : SO DCArgs Z := x ← dcbArgULongLong; mret (conv TLongLong x).
Definition dcbArgLong : SO DCArgs Z := x ← dcbArgUInt; mret (conv TLong x).
Definition dcbArgULong : SO DCArgs Z := x ← dcbArgUInt; mret (conv TULong x).
Definition dcbArgChar : SO DCArgs Z := x ← dcbArgUInt; mret (conv TChar x).
Definition dcbArgUChar : SO DCArgs Z := x ← dcbArgUInt; mret (conv TUChar x).
Definition dcbArgShort : SO DCArgs Z := x ← dcbArgUInt; mret (conv TShort x).
Definition dcbArgUShort : SO DCArgs Z := x ← dcbArgUInt; mret (conv TUShort x).
Definition dcbArgBool : SO DCArgs Z := x ← dcbArgUInt; mret (conv TBool x).
Definition dcbArgPointer : SO DCArgs Z := x ← dcbArgUInt; mret (conv TPointer x).

(** A [float] in one of the first two registers is [u[..].f[0]] or, in big-endian
    order, [u[..].f[1]]. *)
Definition float_half : Z := match e with LittleEndian => 0 | BigEndian => 4 end.

Definition dcbArgFloat : SO DCArgs Z := fun p =>
  if hard && (freg_count p <? 2) then
    bs ← rd (stackptr p + Z.land (stackptr p) 4 - 16 + float_half) 4 (arg_mem p);
    Some (conv TFloat (dec e bs), o_at (freg_count p + 1) (stackptr p + 4) p)
  else
    bs ← rd (stackptr p) 4 (arg_mem p);
    Some (conv TFloat (dec e bs), o_at (freg_count p) (stackptr p + 4) p).

(** The two halves are copied one by one. *)
Definition dcbArgDouble : SO DCArgs Z := fun p =>
  let p := skip_slot p in
  let '(from, fc) := if hard && (freg_count p <? 2) then (stackptr p - 16, freg_count p + 1)
                     else (stackptr p, freg_count p) in
  f0 ← rd from 4 (arg_mem p);
  f1 ← rd (from + 4) 4 (arg_mem p);
  Some (conv TDouble (dec e (f0 ++ f1)), o_at fc (stackptr p + 8) p).

#[export] Instance o32_ArgReader : ArgReader DCArgs := {
  dcbArg t :=
    match t with
    | TBool => dcbArgBool | TChar => dcbArgChar | TUChar => dcbArgUChar
    | TShort => dcbArgShort | TUShort => dcbArgUShort | TInt => dcbArgInt
    | TUInt => dcbArgUInt | TLong => dcbArgLong | TULong => dcbArgULong
    | TLongLong => dcbArgLongLong | TULongLong => dcbArgULongLong
    | TFloat => dcbArgFloat | TDouble => dcbArgDouble
    | TPointer | TString => dcbArgPointer
    end;
}.
End Args.

(** ** Machine state and callbacks *)

(** $4-$7, $f12 and $f14 as doublewords (with hardware floating point), and the
    stack of the callee, whose first sixteen bytes belong to $4-$7. *)
Record o32_cpu := { gprs : list Z; fprs : list Z; cpu_stack : list Z }.

(** [dcCallbackThunkEntry] spills $4-$7 to their place on the stack, and the
    floating-point registers before it ([junk]: what is there otherwise). *)
Definition dcCallbackThunkEntry (e : endian) (hard : bool) (junk : list Z) (cpu : o32_cpu) : option DCArgs :=
  stack ← wr 0 (store_words e 4 (gprs cpu)) (cpu_stack cpu);
  Some {| freg_count := 0; stackptr := 16; arg_mem := (if hard then store_words e 8 (fprs cpu) else junk) ++ stack |}.

(** $2, $3, and $f0 as a doubleword. *)
Record o32_ret := { ret_2 : Z; ret_3 : Z; ret_f0 : Z }.

(** Without hardware floating point a big-endian [float] is moved from the second
    word ([r0]: the registers as the handler left them). *)
Definition callback_exit (e : endian) (hard : bool) (r0 : o32_ret) (ch : DCsigchar) (result : list Z) : option o32_ret :=
  w0 ← rd 0 4 result;
  w1 ← rd 4 4 result;
  d ← rd 0 8 result;
  let '(v0, v1) := (dec e w0, dec e w1) in
  Some (if hard then {| ret_2 := v0; ret_3 := v1; ret_f0 := dec e d |}
        else {| ret_2 := match e with
                         | BigEndian => if Ascii.eqb ch DC_SIGCHAR_FLOAT then v1 else v0
                         | LittleEndian => v0
                         end;
                ret_3 := v1; ret_f0 := ret_f0 r0 |}).

(** Where a caller finds a result: a [float] is the low word of $f0. *)
Definition ret_value (e : endian) (hard : bool) {DM : DataModel} (t : cty) (r : o32_ret) : Z :=
  match t with
  | TFloat => conv t (if hard then ret_f0 r else ret_2 r)
  | TDouble => conv t (if hard then ret_f0 r else two_words e (ret_2 r) (ret_3 r))
  | TLongLong | TULongLong => conv t (two_words e (ret_2 r) (ret_3 r))
  | _ => conv t (ret_2 r)
  end.

(** ** The call VM *)

Inductive o32_vt := gVT_mips_o32_p.

(** [mRegData] is the object [u] (sixteen bytes, with hardware floating point). *)
Record DCCallVM_mips_o32 := {
  o_mVTpointer : o32_vt; o_mError : Z; mArgCount : Z; mRegData : list Z; mVecHead : DCVecHead
}.

Definition o_with_vt (vt : o32_vt) (err : Z) (p : DCCallVM_mips_o32) : DCCallVM_mips_o32 :=
  {| o_mVTpointer := vt; o_mError := err; mArgCount := mArgCount p; mRegData := mRegData p; mVecHead := mVecHead p |}.
Definition o_with_vec (v : DCVecHead) (p : DCCallVM_mips_o32) : DCCallVM_mips_o32 :=
  {| o_mVTpointer := o_mVTpointer p; o_mError := o_mError p; mArgCount := mArgCount p; mRegData := mRegData p; mVecHead := v |}.
Definition o_with_count (n : Z) (p : DCCallVM_mips_o32) : DCCallVM_mips_o32 :=
  {| o_mVTpointer := o_mVTpointer p; o_mError := o_mError p; mArgCount := n; mRegData := mRegData p; mVecHead := mVecHead p |}.
Definition o_with_regs (d : list Z) (p : DCCallVM_mips_o32) : DCCallVM_mips_o32 :=
  {| o_mVTpointer := o_mVTpointer p; o_mError := o_mError p; mArgCount := mArgCount p; mRegData := d; mVecHead := mVecHead p |}.

Record o32_kernel := dcCall_mips_o32 { k_target : Z; k_regdata : list Z; k_size : Z; k_data : list Z }.

(** The copy loop counts the bytes down to zero, four at a time. *)
Definition kernel_enter (e : endian) (hard : bool) (k : o32_kernel) : option o32_cpu :=
  let size := wrapU 32 (k_size k) in
  if size mod 4 =? 0 then
    stack ← load_words e 4 (Z.to_nat (size / 4)) 0 (k_data k);
    f ← (if hard then load_words e 8 2 0 (k_regdata k) else Some []);
    regs ← load_words e 4 4 0 (k_data k);
    Some {| gprs := regs; fprs := f; cpu_stack := store_words e 4 stack |}
  else None.

Section O32.
Variable e : endian.
Variable hard : bool.
Variable char_signed : bool.
#[local] Hint Extern 0 DataModel => exact (mips32_dm e char_signed) : typeclass_instances.

Definition dc_callvm_free_mips_o32 (_ : DCCallVM_mips_o32) : unit := tt.
Definition dc_callvm_reset_mips_o32 (self : DCCallVM_mips_o32) : option DCCallVM_mips_o32 :=
  Some (o_with_count 0 (o_with_vec (dcVecReset (mVecHead self)) self)).

Definition o_append (self : DCCallVM_mips_o32) (bs : list Z) : option DCCallVM_mips_o32 :=
  v ← dcVecAppend (mVecHead self) bs (Z.of_nat (length bs)); Some (o_with_vec v self).

(** [dcVecSkip(&self->mVecHead, dcVecSize(&self->mVecHead) & 4)] *)
Definition o_align (self : DCCallVM_mips_o32) : DCCallVM_mips_o32 :=
  o_with_vec (dcVecSkip (mVecHead self) (Z.land (dcVecSize (mVecHead self)) 4)) self.

(** [self->mArgCount++] *)
Definition o_count (self : DCCallVM_mips_o32) : DCCallVM_mips_o32 := o_with_count (mArgCount self + 1) self.

(** A store into [u[mArgCount]] for the first two arguments. *)
Definition o_put (off : Z) (bs : list Z) (self : DCCallVM_mips_o32) : option DCCallVM_mips_o32 :=
  if hard && (mArgCount self <? 2)
  then d ← wr (8 * mArgCount self + off) bs (mRegData self); Some (o_with_regs d self)
  else Some self.

Definition dc_callvm_argInt_mips_o32 (self : DCCallVM_mips_o32) (i : Z) : option DCCallVM_mips_o32 :=
  self ← o_append self (enc e 4 i); Some (o_count self).
Definition dc_callvm_argPointer_mips_o32 (self : DCCallVM_mips_o32) (x : Z) := dc_callvm_argInt_mips_o32 self (conv TInt x).
Definition dc_callvm_argBool_mips_o32 (self : DCCallVM_mips_o32) (x : Z) := dc_callvm_argInt_mips_o32 self (conv TInt x).
Definition dc_callvm_argChar_mips_o32 (self : DCCallVM_mips_o32) (x : Z) := dc_callvm_argInt_mips_o32 self (conv TInt x).
Definition dc_callvm_argShort_mips_o32 (self : DCCallVM_mips_o32) (x : Z) := dc_callvm_argInt_mips_o32 self (conv TInt x).
Definition dc_callvm_argLong_mips_o32 (self : DCCallVM_mips_o32) (x : Z) := dc_callvm_argInt_mips_o32 self (conv TInt x).

Definition dc_callvm_argLongLong_mips_o32 (self : DCCallVM_mips_o32) (x : Z) : option DCCallVM_mips_o32 :=
  self ← o_append (o_align self) (enc e 8 x); Some (o_count self).

Definition dc_callvm_argFloat_mips_o32 (self : DCCallVM_mips_o32) (x : Z) : option DCCallVM_mips_o32 :=
  self ← o_append self (enc e 4 x);
  self ← o_put (float_half e) (enc e 4 x) self;
  Some (o_count self).

Definition dc_callvm_argDouble_mips_o32 (self : DCCallVM_mips_o32) (x : Z) : option DCCallVM_mips_o32 :=
  self ← o_append (o_align self) (enc e 8 x);
  self ← o_put 0 (enc e 8 x) self;
  Some (o_count self).

(** A multiple of 8, and at least the 16 bytes of $4-$7. *)
Definition dc_callvm_call_mips_o32 (self : DCCallVM_mips_o32) (target : Z) : o32_kernel :=
  let size := Z.max 16 (Z.land (size_t (wrapU 32 (dcVecSize (mVecHead self)) + 7)) (size_t (-8))) in
  dcCall_mips_o32 target (mRegData self) size (vec_data (mVecHead self)).

Definition dc_callvm_mode_mips_o32 (self : DCCallVM_mips_o32) (mode : Z) : option DCCallVM_mips_o32 :=
  Some
    (if (mode =? DC_CALL_C_DEFAULT) || (mode =? DC_CALL_C_DEFAULT_THIS) || (mode =? DC_CALL_C_MIPS32_O32)
        || (mode =? DC_CALL_C_ELLIPSIS) || (mode =? DC_CALL_C_ELLIPSIS_VARARGS)
     then o_with_vt gVT_mips_o32_p DC_ERROR_NONE self
     else o_with_vt (o_mVTpointer self) DC_ERROR_UNSUPPORTED_MODE self).

Definition gVT_mips_o32 : DCCallVM_vt DCCallVM_mips_o32 o32_kernel o32_ret := Build_DCCallVM_vt
  dc_callvm_free_mips_o32 dc_callvm_reset_mips_o32 dc_callvm_mode_mips_o32
  dc_callvm_argBool_mips_o32 dc_callvm_argChar_mips_o32 dc_callvm_argShort_mips_o32 dc_callvm_argInt_mips_o32
  dc_callvm_argLong_mips_o32 dc_callvm_argLongLong_mips_o32 dc_callvm_argFloat_mips_o32
  dc_callvm_argDouble_mips_o32 dc_callvm_argPointer_mips_o32
  None (* argAggr *)
  dc_callvm_call_mips_o32 dc_callvm_call_mips_o32 dc_callvm_call_mips_o32 dc_callvm_call_mips_o32
  dc_callvm_call_mips_o32 dc_callvm_call_mips_o32 dc_callvm_call_mips_o32 dc_callvm_call_mips_o32
  dc_callvm_call_mips_o32 dc_callvm_call_mips_o32
  None (* callAggr *)
  None (* beginAggr *).

(** [dcNewCallVM]: [alloc] is the memory behind the header, of the requested size. *)
Definition dcNewCallVM (mem : DCCallVM_mips_o32) (alloc : option (list Z)) (size : Z) : option DCCallVM_mips_o32 :=
  alloc ← alloc;
  p ← dc_callvm_mode_mips_o32 mem DC_CALL_C_DEFAULT;
  dc_callvm_reset_mips_o32 (o_with_vec (dcVecInit alloc size) p).

#[export] Instance o32_CallVM : CallVM DCCallVM_mips_o32 o32_vt o32_kernel o32_ret := {
  mVTpointer := o_mVTpointer;
  mError := o_mError;
  deref _ := gVT_mips_o32;
}.
End O32.
