(* ===== verification/MipsO32Proofs.v ===== *)
(** * MIPS o32: calls and callbacks agree

    Vector and reader, registers and stack of a call. *)

From S2P Require Export MipsO32.

Section O32.
Variable e : endian.
Variable hard : bool.
Variable cs : bool.
#[local] Hint Extern 0 DataModel => exact (mips32_dm e cs) : typeclass_instances.
#[local] Abbreviation C := (o32_CallVM e hard cs).
#[local] Abbreviation RD := (o32_ArgReader e hard cs).

(** ** Pushing an argument *)

(** Where an argument goes in the vector, and in its slot of [u]. *)
Definition arg_start (t : cty) (s : Z) : Z := align_up s (arg_size t).
Definition in_slot (t : cty) : Z := match t with TFloat => float_half e | _ => 0 end.

Lemma in_slot_fits t : 0 <= in_slot t /\ in_slot t + arg_size t <= 8.
Proof. unfold in_slot, float_half. by destruct t, e. Qed.

(** What all argument functions amount to. *)
Definition o_push (vm : DCCallVM_mips_o32) (t : cty) (y : Z) : option DCCallVM_mips_o32 :=
  let bs := enc e (Z.to_nat (arg_size t)) y in
  vm ← o_append e cs (if is_wide t then o_align e cs vm else vm) bs;
  vm ← (if is_float t then o_put hard (in_slot t) bs vm else Some vm);
  Some (o_count vm).

Lemma push_arg_o32 vm a :
  arg_ok a -> exists y, push_arg (C := C) vm a = o_push vm (a_ty a) y /\ conv (a_ty a) y = a_val a /\
    (is_float (a_ty a) = true -> y = a_val a).
Proof.
  destruct a as [t x]. unfold arg_ok. cbn [a_ty a_val]. intros Hx%val_ok_conv. pose proof (conv_api_value t x) as E.
  assert (E4 : conv t (conv TInt (api_value t x)) = x \/ 32 < ty_bits t).
  { destruct (decide (ty_bits t <= 32)); [left|right; lia]. by rewrite conv_conv, E. }
  destruct t; (eexists; split_and!; [reflexivity| |done]); cbn [api_value] in *;
    first [exact Hx|exact (eq_trans E Hx)|destruct E4 as [E4|E4]; [exact E4|vm_compute in E4; done]].
Qed.

Record o_inv (vm : DCCallVM_mips_o32) : Prop := {
  oi_vec : vec_wf (mVecHead vm) /\ vec_room (mVecHead vm) 0;
  oi_word : mSize (mVecHead vm) mod 4 = 0;
  oi_bytes : Forall is_byte (vec_data (mVecHead vm));
  oi_count : 0 <= mArgCount vm;
  oi_regs : hard = true -> length (mRegData vm) = 16%nat /\ Forall is_byte (mRegData vm);
}.

Record o_ext (vm vm' : DCCallVM_mips_o32) : Prop := {
  ox_bytes : prefix (vec_bytes (mVecHead vm)) (vec_bytes (mVecHead vm'));
  ox_count : mArgCount vm <= mArgCount vm';
  ox_regs : forall off n, off + Z.of_nat n <= 8 * mArgCount vm -> rd off n (mRegData vm') = rd off n (mRegData vm);
}.

Lemma o_ext_refl vm : o_ext vm vm.
Proof. by split. Qed.

Lemma o_ext_trans a b c : o_ext a b -> o_ext b c -> o_ext a c.
Proof. intros [H1 H2 H3] [G1 G2 G3]. split; [by etrans|lia|]. intros off n H. by rewrite G3, H3 by lia. Qed.

(** [vm'] is [vm] with one more argument. *)
Record o_pushed (vm vm' : DCCallVM_mips_o32) (t : cty) (y : Z) : Prop := {
  op_inv : o_inv vm';
  op_ext : o_ext vm vm';
  op_size : mSize (mVecHead vm') = arg_start t (mSize (mVecHead vm)) + arg_size t;
  op_count : mArgCount vm' = mArgCount vm + 1;
  op_same : mTotal (mVecHead vm') = mTotal (mVecHead vm) /\
            length (vec_data (mVecHead vm')) = length (vec_data (mVecHead vm));
  op_mem : rd (arg_start t (mSize (mVecHead vm))) (Z.to_nat (arg_size t)) (vec_bytes (mVecHead vm'))
           = Some (enc e (Z.to_nat (arg_size t)) y);
  op_reg : hard = true -> is_float t = true -> mArgCount vm < 2 ->
           rd (8 * mArgCount vm + in_slot t) (Z.to_nat (arg_size t)) (mRegData vm') = Some (enc e (Z.to_nat (arg_size t)) y);
}.

(** The vector. *)
Lemma o_append_ok vm t y :
  o_inv vm -> fits (mVecHead vm) ->
  exists w, o_append e cs (if is_wide t then o_align e cs vm else vm) (enc e (Z.to_nat (arg_size t)) y) = Some (o_with_vec w vm) /\
    vec_wf w /\ mTotal w = mTotal (mVecHead vm) /\ mSize w = arg_start t (mSize (mVecHead vm)) + arg_size t /\
    mSize w <= mTotal w /\ mSize w mod 4 = 0 /\
    length (vec_data w) = length (vec_data (mVecHead vm)) /\ prefix (vec_bytes (mVecHead vm)) (vec_bytes w) /\
    Forall is_byte (vec_data w) /\
    rd (arg_start t (mSize (mVecHead vm))) (Z.to_nat (arg_size t)) (vec_bytes w) = Some (enc e (Z.to_nat (arg_size t)) y).
Proof.
  intros [[Hw H0] Hm Hb _ _] Hf. pose proof (arg_size_cases t) as Hsz. pose proof Hf as Hf'. unfold fits in Hf'.
  pose proof (align_up_bounds (mSize (mVecHead vm)) 8).
  set (s := arg_start t (mSize (mVecHead vm))).
  assert (Hal : (if is_wide t then o_align e cs vm else vm) = o_with_vec (dcVecResize (mVecHead vm) s) vm /\
            mSize (mVecHead vm) <= s <= align_up (mSize (mVecHead vm)) 8 /\ s mod 4 = 0).
  { unfold s, arg_start, arg_size. destruct (is_wide t).
    - unfold o_align. rewrite skip_to_8 by done. split; [done|]. split; [lia|].
      pose proof (align_up_mod (mSize (mVecHead vm)) 8 ltac:(lia)) as [q ->]%Z.mod_divide; [|lia].
      replace (q * 8) with (q * 2 * 4) by lia. by apply Z.mod_mul.
    - rewrite align_up_id by (done || lia). split; [|split; [lia|done]].
      destruct vm as [vt er ac rg w]. by destruct w. }
  destruct Hal as (Eal & Hs & Hsm). rewrite Eal.
  destruct (dcVecResize_forward (mVecHead vm) s Hw ltac:(lia)) as [Hw' Hpre].
  destruct (dcVecAppend_ok (dcVecResize (mVecHead vm) s) (enc e (Z.to_nat (arg_size t)) y) (arg_size t) Hw')
    as (w & Hv & Hww & Ht & Hsw & Hl & Hbs & _); [rewrite length_enc; lia|unfold vec_room; cbn; lia|].
  exists w. unfold o_append. rewrite length_enc, Z2Nat.id by lia. cbn [mVecHead o_with_vec]. rewrite Hv. cbn [mbind option_bind].
  cbn [dcVecResize mSize mTotal vec_data] in *. split_and!; try done; try lia.
  - rewrite Hsw. rewrite Z.add_mod, Hsm by lia. by destruct Hsz as [-> | ->].
  - rewrite Hbs. etrans; [exact Hpre|by apply prefix_app_r].
  - eapply dcVecAppend_bytes; [exact Hv|done|apply enc_bytes].
  - rewrite Hbs. apply rd_app; [|by rewrite length_enc]. rewrite length_vec_bytes; [done|done|]. unfold vec_room. cbn. lia.
Qed.

Lemma o_push_ok vm t y :
  o_inv vm -> fits (mVecHead vm) -> exists vm', o_push vm t y = Some vm' /\ o_pushed vm vm' t y.
Proof.
  intros Hi Hf. destruct (o_append_ok vm t y Hi Hf) as (w & Hap & Hww & Htw & Hsw & Hrw & Hmw & Hlw & Hpw & Hbw & Hrd).
  destruct Hi as [_ _ _ Hc Hr]. unfold o_push. rewrite Hap. cbn [mbind option_bind].
  assert (Hput : exists d, (if is_float t then o_put hard (in_slot t) (enc e (Z.to_nat (arg_size t)) y) (o_with_vec w vm)
                            else Some (o_with_vec w vm)) = Some (o_with_regs d (o_with_vec w vm)) /\
            (hard = true -> length d = 16%nat /\ Forall is_byte d) /\
            (forall off n, off + Z.of_nat n <= 8 * mArgCount vm -> rd off n d = rd off n (mRegData vm)) /\
            (hard = true -> is_float t = true -> mArgCount vm < 2 ->
               rd (8 * mArgCount vm + in_slot t) (Z.to_nat (arg_size t)) d = Some (enc e (Z.to_nat (arg_size t)) y))).
  { pose proof (in_slot_fits t) as Hin.
    assert (Hno : Some (o_with_vec w vm) = Some (o_with_regs (mRegData vm) (o_with_vec w vm))) by by destruct vm.
    destruct (is_float t) eqn:Hft; [|exists (mRegData vm); by split_and!].
    unfold o_put. cbn [mArgCount o_with_vec mRegData]. destruct (hard) eqn:Eh; cbn [andb].
    2: { exists (mRegData vm). by split_and!. }
    destruct (Z.ltb_spec (mArgCount vm) 2).
    2: { exists (mRegData vm). split_and!; try done. lia. }
    destruct (Hr eq_refl) as [Hl16 Hb16]. pose proof (arg_size_cases t) as Hsz.
    assert (Lbs : Z.of_nat (length (enc e (Z.to_nat (arg_size t)) y)) = arg_size t) by (rewrite length_enc; lia).
    destruct (wr (8 * mArgCount vm + in_slot t) (enc e (Z.to_nat (arg_size t)) y) (mRegData vm)) as [d|] eqn:Hwr.
    2: { rewrite wr_Some in Hwr by lia. done. }
    exists d. cbn [mbind option_bind]. split_and!; [done| | |].
    - intros _. split; [by rewrite (length_wr _ _ _ _ Hwr)|]. eapply wr_bytes; [exact Hwr|done|apply enc_bytes].
    - intros off n Hn. eapply rd_wr_other; [exact Hwr|]. left. lia.
    - intros _ _ _. eapply rd_wr_same; [exact Hwr|by rewrite length_enc]. }
  destruct Hput as (d & -> & Hd1 & Hd2 & Hd3). cbn [mbind option_bind]. eexists. split; [done|].
  split; cbn; try done.
  - split; cbn; try done; [split; [done|unfold vec_room; lia]|lia].
  - split; cbn; [done|lia|done].
Qed.

(** ** Reading it back *)

(** The reader stands behind the arguments of [vm], in a memory that holds those of
    [vf].  As long as it counts less than two arguments, all of them were
    floating-point ones, so that the next slot of [u] is where it looks. *)
Record o_std (vm vf : DCCallVM_mips_o32) (p : DCArgs) : Prop := {
  os_ptr : stackptr p = 16 + mSize (mVecHead vm);
  os_mem : exists fp, length fp = 16%nat /\ prefix (fp ++ vec_bytes (mVecHead vf)) (arg_mem p) /\
           (hard = true -> fp = mRegData vf);
  os_count : hard = true -> 0 <= freg_count p /\
             (freg_count p < 2 -> freg_count p = mArgCount vm /\ align_up (mSize (mVecHead vm)) 8 = 8 * mArgCount vm);
}.

Lemma o_std_rd vm vf p off n bs :
  o_std vm vf p -> rd off n (vec_bytes (mVecHead vf)) = Some bs -> rd (16 + off) n (arg_mem p) = Some bs.
Proof.
  intros [_ (fp & Hl & Hpre & _) _] Hrd. eapply rd_prefix; [exact Hpre|].
  change 16 with (Z.of_nat 16). rewrite <- Hl. by apply rd_app_r.
Qed.

Lemma o_std_rd_reg vm vf p off n bs :
  hard = true -> o_std vm vf p -> rd off n (mRegData vf) = Some bs -> rd off n (arg_mem p) = Some bs.
Proof.
  intros Hh [_ (fp & Hl & Hpre & Hfp) _] Hrd. rewrite <- (Hfp Hh) in Hrd. eapply rd_prefix; [|exact Hrd].
  etrans; [|exact Hpre]. by apply prefix_app_r.
Qed.

Lemma skip_slot_at p s : stackptr p = 16 + s -> s mod 4 = 0 -> stackptr (skip_slot p) = 16 + align_up s 8.
Proof.
  intros Hp Hm. unfold skip_slot. cbn [stackptr o_at]. rewrite Hp, align_up_8, land_4 by
    (try done; rewrite Z.add_mod, Hm by lia; done).
  rewrite Z.add_mod by lia. change (16 mod 8) with 0. rewrite Z.add_0_l, Z.mod_mod by lia. lia.
Qed.

Lemma o_read_uint p w :
  rd (stackptr p) 4 (arg_mem p) = Some (enc e 4 w) ->
  dcbArgUInt e hard cs p = Some (wrapU 32 w, o_at (if hard then 2 else freg_count p) (stackptr p + 4) p).
Proof.
  intros Hrd. unfold dcbArgUInt, dcbArgInt, mbind, SO_bind, mret, SO_ret. rewrite Hrd. cbn [option_bind].
  do 2 f_equal. rewrite dec_enc. change (8 * Z.of_nat 4) with 32. rewrite conv_conv by done.
  change (wrapU 32 (wrapU 32 w) = wrapU 32 w). by rewrite wrapU_wrapU.
Qed.

Lemma o_read_ulonglong p y :
  rd (stackptr (skip_slot p)) 8 (arg_mem p) = Some (enc e 8 y) ->
  dcbArgULongLong e hard cs p =
  Some (conv TULongLong y, o_at (if hard then 2 else freg_count p) (stackptr (skip_slot p) + 8) p).
Proof.
  intros Hrd. destruct (rd_split 4 4 _ _ _ Hrd) as [H1 H2]. rewrite enc_dword in H1, H2.
  rewrite take_app_length' in H1 by by rewrite length_enc. rewrite drop_app_length' in H2 by by rewrite length_enc.
  unfold dcbArgULongLong, mbind, SO_bind, mret, SO_ret. rewrite (o_read_uint (skip_slot p) _ H1). cbn [option_bind].
  rewrite (o_read_uint (o_at _ _ (skip_slot p)) _ H2). cbn [option_bind]. rewrite join_words_of.
  do 2 f_equal; [by rewrite conv_wrapU|]. unfold o_at, skip_slot. cbn. f_equal; [by destruct hard|lia].
Qed.

(** The state after an integer, and after a floating-point argument. *)
Lemma o_std_int vm vm' vf p t y sp fc :
  o_std vm vf p -> o_pushed vm vm' t y -> sp = 16 + mSize (mVecHead vm') -> (hard = true -> fc = 2) ->
  o_std vm' vf (o_at fc sp p).
Proof.
  intros [_ Hm _] _ Hs Hfc. split; [done|exact Hm|]. intros Hh. cbn. rewrite (Hfc Hh). lia.
Qed.

Lemma o_std_float vm vm' vf p t y sp :
  o_inv vm -> o_std vm vf p -> o_pushed vm vm' t y -> sp = 16 + mSize (mVecHead vm') ->
  o_std vm' vf (o_at (if hard && (freg_count p <? 2) then freg_count p + 1 else freg_count p) sp p).
Proof.
  intros Hi [_ Hm Hc] Hpu Hs. split; [done|exact Hm|]. intros Hh. destruct (Hc Hh) as [H0 H2]. rewrite Hh. cbn [andb freg_count o_at].
  destruct (Z.ltb_spec (freg_count p) 2) as [Hlt|]; [|lia]. split; [lia|]. intros H1. destruct (H2 Hlt) as [E1 E2].
  destruct Hi as [[[Hsz _ _] _] _ _ _ _]. pose proof (align_up_bounds (mSize (mVecHead vm)) 8).
  rewrite (op_count _ _ _ _ Hpu), (op_size _ _ _ _ Hpu). split; [lia|].
  replace (mArgCount vm) with 0 in * by lia. replace (mSize (mVecHead vm)) with 0 in * by lia.
  unfold arg_start. by destruct (arg_size_cases t) as [-> | ->].
Qed.

Lemma o_read_int vm vm' vf p t x y :
  o_inv vm -> o_pushed vm vm' t y -> conv t y = x -> is_float t = false -> o_ext vm' vf -> o_std vm vf p ->
  exists p', dcbArg (ArgReader := RD) t p = Some (x, p') /\ o_std vm' vf p'.
Proof.
  intros Hi Hpu Hy Hft [Xb _ _] Hst. pose proof (os_ptr _ _ _ Hst) as Hp. pose proof (oi_word _ Hi) as Hm.
  pose proof (op_size _ _ _ _ Hpu) as Hsz. pose proof (op_mem _ _ _ _ Hpu) as Hrd.
  apply (rd_prefix _ _ _ _ _ Xb) in Hrd. apply (o_std_rd _ _ _ _ _ _ Hst) in Hrd.
  unfold arg_start, arg_size in Hrd, Hsz. destruct (is_wide t) eqn:Hwd.
  - change (Z.to_nat 8) with 8%nat in Hrd. rewrite <- (skip_slot_at p) in Hrd by done.
    pose proof (o_read_ulonglong p y Hrd) as Hr. rewrite (skip_slot_at p _ Hp Hm) in Hr.
    eexists. split; [|eapply (o_std_int vm); [done..| |]].
    + destruct t; try discriminate; cbn [dcbArg o32_ArgReader]; unfold dcbArgLongLong, mbind, SO_bind, mret, SO_ret; rewrite Hr;
        cbn [option_bind]; do 2 f_equal; first [exact Hy|by rewrite conv_conv].
    + cbn. lia.
    + by intros ->.
  - rewrite align_up_id in Hrd, Hsz by (done || lia). rewrite <- Hp in Hrd. change (Z.to_nat 4) with 4%nat in Hrd.
    pose proof (o_read_uint p y Hrd) as Hr.
    assert (Hc : forall t', ty_bits t <= ty_bits t' -> conv t (conv t' (wrapU 32 y)) = x).
    { intros. rewrite conv_conv, conv_wrapU; [done| |done]. by destruct t. }
    assert (H1 : conv t (wrapU 32 y) = x) by (rewrite conv_wrapU; [done|by destruct t]).
    assert (HI : dcbArgInt e hard cs p = Some (conv TInt y, o_at (if hard then 2 else freg_count p) (stackptr p + 4) p)).
    { unfold dcbArgInt. rewrite Hrd. cbn [mbind option_bind]. do 2 f_equal. rewrite dec_enc. by rewrite conv_wrapU. }
    eexists. split; [|eapply (o_std_int vm); [done..| |]].
    + destruct t; try discriminate; cbn [dcbArg o32_ArgReader];
        unfold dcbArgLong, dcbArgULong, dcbArgChar, dcbArgUChar, dcbArgShort, dcbArgUShort, dcbArgBool, dcbArgPointer,
          mbind, SO_bind, mret, SO_ret; rewrite ?Hr, ?HI; cbn [option_bind]; do 2 f_equal; first [exact Hy|exact H1|exact H1].
    + cbn. lia.
    + by intros ->.
Qed.

Lemma o_read_float vm vm' vf p x :
  o_inv vm -> o_pushed vm vm' TFloat x -> conv TFloat x = x -> o_ext vm' vf -> o_std vm vf p ->
  exists p', dcbArgFloat e hard cs p = Some (x, p') /\ o_std vm' vf p'.
Proof.
  intros Hi Hpu Hx [Xb Xc Xr] Hst. pose proof (os_ptr _ _ _ Hst) as Hp. pose proof (oi_word _ Hi) as Hm.
  pose proof (op_size _ _ _ _ Hpu) as Hsz. pose proof (op_mem _ _ _ _ Hpu) as Hrd. unfold arg_start, arg_size in *.
  cbn [is_wide] in *. rewrite align_up_id in Hsz, Hrd by (done || lia).
  assert (Hd : conv TFloat (dec e (enc e 4 x)) = x) by (by rewrite dec_enc, conv_wrapU).
  pose proof (o_std_float vm vm' vf p TFloat x (stackptr p + 4) Hi Hst Hpu ltac:(lia)) as Hst'. unfold dcbArgFloat.
  destruct (hard && (freg_count p <? 2)) eqn:Eb.
  - apply andb_prop in Eb as [Hh Hlt%Z.ltb_lt]. destruct (os_count _ _ _ Hst Hh) as [H0 H2]. destruct (H2 Hlt) as [E1 E2].
    pose proof (op_reg _ _ _ _ Hpu Hh eq_refl ltac:(lia)) as Hreg. cbn [in_slot] in Hreg. unfold arg_size in Hreg. cbn [is_wide] in Hreg.
    assert (Hb : 8 * mArgCount vm + float_half e + Z.of_nat (Z.to_nat 4) <= 8 * mArgCount vm')
      by (rewrite (op_count _ _ _ _ Hpu); unfold float_half; destruct e; lia).
    rewrite <- Xr in Hreg by exact Hb. apply (o_std_rd_reg _ _ _ _ _ _ Hh Hst) in Hreg.
    pose proof (skip_slot_at p _ Hp Hm) as Hsk. unfold skip_slot in Hsk. cbn [stackptr o_at] in Hsk. rewrite Hsk, E2.
    replace (16 + 8 * mArgCount vm - 16 + float_half e) with (8 * mArgCount vm + float_half e) by lia.
    change (Z.to_nat 4) with 4%nat in Hreg. rewrite Hreg. cbn [mbind option_bind]. rewrite Hd. by eexists.
  - apply (rd_prefix _ _ _ _ _ Xb) in Hrd. apply (o_std_rd _ _ _ _ _ _ Hst) in Hrd. rewrite <- Hp in Hrd.
    change (Z.to_nat 4) with 4%nat in Hrd. rewrite Hrd. cbn [mbind option_bind]. rewrite Hd. by eexists.
Qed.

Lemma o_read_double vm vm' vf p x :
  o_inv vm -> o_pushed vm vm' TDouble x -> conv TDouble x = x -> o_ext vm' vf -> o_std vm vf p ->
  exists p', dcbArgDouble e hard cs p = Some (x, p') /\ o_std vm' vf p'.
Proof.
  intros Hi Hpu Hx [Xb Xc Xr] Hst. pose proof (os_ptr _ _ _ Hst) as Hp. pose proof (oi_word _ Hi) as Hm.
  pose proof (op_size _ _ _ _ Hpu) as Hsz. pose proof (op_mem _ _ _ _ Hpu) as Hrd. unfold arg_start, arg_size in *.
  cbn [is_wide] in *. pose proof (skip_slot_at p _ Hp Hm) as Hsk.
  assert (Hd : conv TDouble (dec e (enc e 8 x)) = x) by (by rewrite dec_enc, conv_wrapU).
  pose proof (o_std_float vm vm' vf p TDouble x (stackptr (skip_slot p) + 8) Hi Hst Hpu ltac:(lia)) as Hst'.
  assert (Hcopy : forall from, rd from 8 (arg_mem p) = Some (enc e 8 x) ->
            (f0 ← rd from 4 (arg_mem p); f1 ← rd (from + 4) 4 (arg_mem p); Some (conv TDouble (dec e (f0 ++ f1)))) = Some x).
  { intros from Hf. destruct (rd_split 4 4 _ _ _ Hf) as [-> H4]. change (Z.of_nat 4) with 4 in H4. rewrite H4.
    cbn [mbind option_bind]. by rewrite take_drop, Hd. }
  unfold dcbArgDouble. cbv zeta. cbn [freg_count arg_mem skip_slot o_at].
  assert (Hfrom : exists from, rd from 8 (arg_mem p) = Some (enc e 8 x) /\
            (if hard && (freg_count p <? 2) then (stackptr (skip_slot p) - 16, freg_count p + 1) else (stackptr (skip_slot p), freg_count p))
            = (from, if hard && (freg_count p <? 2) then freg_count p + 1 else freg_count p)).
  { destruct (hard && (freg_count p <? 2)) eqn:Eb; (eexists; split; [|reflexivity]).
    - apply andb_prop in Eb as [Hh Hlt%Z.ltb_lt]. destruct (os_count _ _ _ Hst Hh) as [H0 H2]. destruct (H2 Hlt) as [E1 E2].
      pose proof (op_reg _ _ _ _ Hpu Hh eq_refl ltac:(lia)) as Hreg. cbn [in_slot] in Hreg. rewrite Z.add_0_r in Hreg.
      unfold arg_size in Hreg. cbn [is_wide] in Hreg. rewrite <- Xr in Hreg by (rewrite (op_count _ _ _ _ Hpu); lia).
      apply (o_std_rd_reg _ _ _ _ _ _ Hh Hst) in Hreg. rewrite Hsk, E2. by replace (16 + 8 * mArgCount vm - 16) with (8 * mArgCount vm) by lia.
    - apply (rd_prefix _ _ _ _ _ Xb) in Hrd. apply (o_std_rd _ _ _ _ _ _ Hst) in Hrd. by rewrite Hsk. }
  destruct Hfrom as (from & Hrd8 & Efrom). specialize (Hcopy from Hrd8).
  change (freg_count (skip_slot p)) with (freg_count p). change (arg_mem (skip_slot p)) with (arg_mem p). rewrite Efrom.
  destruct (rd from 4 (arg_mem p)) as [f0|]; [|done]. cbn [mbind option_bind] in *.
  destruct (rd (from + 4) 4 (arg_mem p)) as [f1|]; [|done]. cbn [mbind option_bind] in *. assert (Ex : conv TDouble (dec e (f0 ++ f1)) = x) by congruence.
  rewrite Ex. eexists. split; [done|]. exact Hst'.
Qed.

Lemma o32_step vm a :
  o_inv vm -> fits (mVecHead vm) -> arg_ok a ->
  exists vm', push_arg (C := C) vm a = Some vm' /\ o_inv vm' /\ o_ext vm vm' /\
    forall vf p, o_inv vf -> o_ext vm' vf -> o_std vm vf p ->
      exists p', dcbArg (ArgReader := RD) (a_ty a) p = Some (a_val a, p') /\ o_std vm' vf p'.
Proof.
  intros Hi Hf Ha. destruct (push_arg_o32 vm a Ha) as (y & -> & Hy & Hyf).
  destruct (o_push_ok vm (a_ty a) y Hi Hf) as (vm' & -> & Hpu). exists vm'. split_and!; [done|apply Hpu..|].
  intros vf p _ Hxf Hst. unfold arg_ok in Ha. apply val_ok_conv in Ha.
  destruct (is_float (a_ty a)) eqn:Eft; [|by apply (o_read_int vm vm' vf p _ _ y)].
  rewrite (Hyf eq_refl) in Hpu. destruct (a_ty a); try discriminate; [by apply (o_read_float vm)|by apply (o_read_double vm)].
Qed.

#[export] Instance o32_CallConv : CallConv DCCallVM_mips_o32 DCArgs (H := C) (H0 := RD) := {
  cc_inv := o_inv;
  cc_room vm _ := fits (mVecHead vm);
  cc_ext := o_ext;
  cc_at := o_std;
  cc_ext_refl := o_ext_refl;
  cc_ext_trans := o_ext_trans;
  cc_step := o32_step;
}.

(** ** Whole argument lists *)

(** The offset of every argument among the argument words, and its number. *)
Fixpoint o32_places (ts : list cty) (s k : Z) : list (Z * Z) :=
  match ts with
  | [] => []
  | t :: ts => (arg_start t s, k) :: o32_places ts (arg_start t s + arg_size t) (k + 1)
  end.

Record o32_placed (vf : DCCallVM_mips_o32) (a : arg) (sk : Z * Z) : Prop := {
  opl_mem : exists y, conv (a_ty a) y = a_val a /\
    rd sk.1 (Z.to_nat (arg_size (a_ty a))) (vec_bytes (mVecHead vf)) = Some (enc e (Z.to_nat (arg_size (a_ty a))) y);
  opl_reg : hard = true -> is_float (a_ty a) = true -> sk.2 < 2 ->
    rd (8 * sk.2 + in_slot (a_ty a)) (Z.to_nat (arg_size (a_ty a))) (mRegData vf)
      = Some (enc e (Z.to_nat (arg_size (a_ty a))) (a_val a));
}.

Lemma arg_start_8 t s : s mod 4 = 0 -> align_up (arg_start t s + arg_size t) 8 <= align_up s 8 + 8.
Proof.
  intros Hm. unfold arg_start. pose proof (align_up_bounds s 8).
  destruct (Z.mod_divide (align_up s 8) 8) as [H8 _]; [lia|]. destruct H8 as [q Hq]; [by apply align_up_mod|].
  apply align_up_least; [lia|exists (q + 1); lia|].
  destruct (arg_size_cases t) as [-> | ->]; [rewrite align_up_id by (done || lia)|]; lia.
Qed.

Lemma push_list_o32 l : forall vm,
  o_inv vm -> align_up (mSize (mVecHead vm)) 8 + 8 * Z.of_nat (length l) <= mTotal (mVecHead vm) -> Forall arg_ok l ->
  exists vf, push_args (C := C) vm l = Some vf /\ o_inv vf /\ o_ext vm vf /\
    mTotal (mVecHead vf) = mTotal (mVecHead vm) /\ length (vec_data (mVecHead vf)) = length (vec_data (mVecHead vm)) /\
    align_up (mSize (mVecHead vf)) 8 <= mTotal (mVecHead vf) /\ room_for (CC := o32_CallConv) vm l /\
    Forall2 (o32_placed vf) l (o32_places (map a_ty l) (mSize (mVecHead vm)) (mArgCount vm)).
Proof.
  induction l as [|a l IH]; intros vm Hi Hr Hl; [cbn in Hr; exists vm; split_and!; try done; try lia; constructor|].
  cbn [length] in Hr. apply Forall_cons in Hl as [Ha Hl].
  assert (Hf : fits (mVecHead vm)) by (unfold fits; lia).
  destruct (push_arg_o32 vm a Ha) as (y & Hpa & Hy & Hyf).
  destruct (o_push_ok vm (a_ty a) y Hi Hf) as (vm' & Hp & [Hi' Hx Hs Hc [Ht Hl'] Hmem Hreg]). rewrite Hp in Hpa.
  pose proof (arg_start_8 (a_ty a) _ (oi_word _ Hi)) as H8. rewrite <- Hs in H8.
  destruct (IH vm' Hi') as (vf & Hpf & Hif & Hxf & Htf & Hlf & Hav & Hroom & Hall); [lia|done|]. rewrite Hs, Hc in Hall.
  exists vf. split_and!; try congruence.
  - unfold push_args. cbn [foldM]. rewrite Hpa. exact Hpf.
  - by eapply o_ext_trans.
  - split; [exact Hf|]. intros vm1 H1. rewrite Hpa in H1. by injection H1 as <-.
  - cbn [map o32_places]. constructor; [|done]. destruct Hxf as [Xb Xc Xr]. split; cbn [fst snd].
    + exists y. split; [done|]. by eapply rd_prefix.
    + intros Hh Hfl Hlt. rewrite <- (Hyf Hfl). rewrite Xr; [by apply Hreg|]. pose proof (in_slot_fits (a_ty a)). pose proof (arg_size_cases (a_ty a)). lia.
Qed.

Lemma o32_places_mod ts : forall s k, s mod 4 = 0 -> Forall (fun sk => sk.1 mod 4 = 0) (o32_places ts s k).
Proof.
  induction ts as [|t ts IH]; intros s k Hs; cbn; constructor; cbn.
  - unfold arg_start. destruct (arg_size_cases t) as [-> | ->]; [by rewrite align_up_id|].
    destruct (Z.mod_divide (align_up s 8) 8) as [H8 _]; [lia|]. destruct H8 as [q ->]; [by apply align_up_mod|].
    replace (q * 8) with (q * 2 * 4) by lia. by apply Z.mod_mul.
  - apply IH. unfold arg_start. destruct (arg_size_cases t) as [-> | ->].
    + rewrite align_up_id by done. rewrite Z.add_mod, Hs by lia. done.
    + destruct (Z.mod_divide (align_up s 8) 8) as [H8 _]; [lia|]. destruct H8 as [q ->]; [by apply align_up_mod|].
      replace (q * 8 + 8) with ((q * 2 + 2) * 4) by lia. by apply Z.mod_mul.
Qed.

Lemma o32_places_nonneg ts : forall s k, 0 <= k -> Forall (fun sk => 0 <= sk.2) (o32_places ts s k).
Proof. induction ts as [|t ts IH]; intros s k Hk; cbn; constructor; [done|]. apply IH. lia. Qed.

(** ** Registers and stack of the callee *)

(** Argument word [k], in a register or on the stack. *)
Definition arg_word (cpu : o32_cpu) (k : Z) : option Z :=
  if k <? 4 then aget k (gprs cpu) else bs ← rd (4 * k) 4 (cpu_stack cpu); Some (dec e bs).

Lemma o32_kernel_enter_ok target regs size k :
  (hard = true -> length regs = 16%nat /\ Forall is_byte regs) ->
  Forall is_byte k -> 16 <= size <= Z.of_nat (length k) -> size < 2 ^ 32 -> size mod 4 = 0 ->
  exists cpu, kernel_enter e hard (dcCall_mips_o32 target regs size k) = Some cpu /\
    cpu_stack cpu = take (Z.to_nat size) k /\ store_words e 4 (gprs cpu) = take 16 k /\
    (hard = true -> store_words e 8 (fprs cpu) = regs) /\
    (hard = true -> forall i, 0 <= i < 2 -> exists bs, rd (8 * i) 8 regs = Some bs /\ aget i (fprs cpu) = Some (dec e bs)) /\
    (forall i bs, 0 <= i -> rd (4 * i) 4 (take (Z.to_nat size) k) = Some bs -> arg_word cpu i = Some (dec e bs)).
Proof.
  intros Hr Hb Hs Hsm Hm. unfold kernel_enter. cbn [k_data k_size k_regdata]. rewrite wrapU_id by (unfold in_u; lia).
  rewrite (proj2 (Z.eqb_eq _ _)) by done. pose proof (Z.div_mod size 4 ltac:(lia)) as Hd.
  destruct (load_words_copy e 4 (Z.to_nat (size / 4)) 0 k Hb) as (ws & -> & _ & Hst); [lia..|].
  destruct (load_words_copy e 4 4 0 k Hb) as (gs & Hgs & _ & Hstg); [lia..|].
  change (Z.to_nat 0) with 0%nat in *. rewrite drop_0 in *.
  assert (Hfr : exists f, (if hard then load_words e 8 2 0 regs else Some []) = Some f /\ (hard = true -> store_words e 8 f = regs) /\
    (hard = true -> forall i, 0 <= i < 2 -> exists bs, rd (8 * i) 8 regs = Some bs /\ aget i f = Some (dec e bs))).
  { destruct hard; [|by exists []]. destruct (Hr eq_refl) as [Hl16 Hb16].
    destruct (load_words_copy e 8 2 0 regs Hb16) as (f & Hlf & _ & Hstf); [lia..|]. exists f. split; [done|].
    split; intros _; [|intros i H2; exact (load_words_aget _ _ _ i _ _ _ Hlf H2)]. rewrite Hstf. change (Z.to_nat 0) with 0%nat. rewrite drop_0. by rewrite take_ge by (cbn; lia). }
  destruct Hfr as (f & -> & Hf & Hfa). cbn [mbind option_bind]. rewrite Hgs. cbn [mbind option_bind].
  eexists. split; [done|]. cbn [cpu_stack gprs fprs]. rewrite Hst, Hstg.
  replace (Z.to_nat (size / 4) * 4)%nat with (Z.to_nat size) by lia. split_and!; try done.
  intros i bs Hi0 Hrd. unfold arg_word. cbn [gprs cpu_stack]. destruct (Z.ltb_spec i 4).
  - destruct (load_words_aget _ _ _ i _ _ _ Hgs ltac:(lia)) as (bs' & Hrd' & ->).
    apply (rd_prefix _ _ _ k) in Hrd; [|apply prefix_take]. change (0 + Z.of_nat 4 * i) with (4 * i) in Hrd'.
    rewrite Hrd in Hrd'. by injection Hrd' as <-.
  - by rewrite Hrd.
Qed.
End O32.
