(* ===== verification/MipsO32Props.v ===== *)
(** * MIPS o32: whole calls *)

From S2P Require Export MipsO32Proofs.

(** A callback, entered in state [cpu], that reads its arguments, leaves the
    registers [r0] and returns a scalar ([junk]: the sixteen bytes before the
    arguments where no register is stored). *)
Definition o32_run_callback (e : endian) (hard cs : bool) (junk : list Z) (ts : list cty) (rt : cty) (f : list arg -> Z)
    (r0 : o32_ret) (cpu : o32_cpu) : option o32_ret :=
  p ← dcCallbackThunkEntry e hard junk cpu;
  '(l, _) ← read_args (RD := o32_ArgReader e hard cs) ts p;
  result ← dcvalue_set e (DM := mips32_dm e cs) rt (f l) (callback_slot e);
  callback_exit e hard r0 (sigchar_of rt) result.

(** The argument that starts at byte [sk.1] of the argument words, the [sk.2]-th
    of all: words 0 to 3 are $4-$7, and one of the first two that is a
    floating-point one is in $f12 or $f14 as well. *)
Record o32_in (e : endian) (hard cs : bool) (cpu : o32_cpu) (a : arg) (sk : Z * Z) : Prop := {
  oin_words :
    if is_wide (a_ty a)
    then exists w0 w1, arg_word e cpu (sk.1 / 4) = Some w0 /\ arg_word e cpu (sk.1 / 4 + 1) = Some w1 /\
         conv (DM := mips32_dm e cs) (a_ty a) (two_words e w0 w1) = a_val a
    else exists w, arg_word e cpu (sk.1 / 4) = Some w /\ conv (DM := mips32_dm e cs) (a_ty a) w = a_val a;
  oin_fpr : hard = true -> is_float (a_ty a) = true -> sk.2 < 2 ->
    exists d, aget sk.2 (fprs cpu) = Some d /\ conv (DM := mips32_dm e cs) (a_ty a) d = a_val a;
}.

(** What the VM is allocated with: every call reads four words. *)
Record o32_alloc (e : endian) (hard cs : bool) (vm : DCCallVM_mips_o32) : Prop := {
  al_vec : vec_wf (DM := mips32_dm e cs) (mVecHead vm) /\ 0 <= mTotal (mVecHead vm);
  al_data : 16 <= Z.of_nat (length (vec_data (mVecHead vm)));
  al_bytes : Forall is_byte (vec_data (mVecHead vm));
  al_regs : hard = true -> length (mRegData vm) = 16%nat /\ Forall is_byte (mRegData vm);
}.

Section Props.
Variable e : endian.
Variable hard : bool.
Variable cs : bool.
#[local] Hint Extern 0 DataModel => exact (mips32_dm e cs) : typeclass_instances.
#[local] Abbreviation C := (o32_CallVM e hard cs).

Lemma o32_result t x r0 :
  val_ok t x -> exists result, dcvalue_set e t x (callback_slot e) = Some result /\
    exists r, callback_exit e hard r0 (sigchar_of t) result = Some r /\ ret_value e hard t r = x.
Proof.
  intros Hx. destruct (dcvalue_set_words e cs t x Hx) as (w0 & w1 & Hset & L0 & L1 & Hv). apply val_ok_conv in Hx.
  exists (w0 ++ w1). split; [exact Hset|]. unfold callback_exit.
  rewrite (rd0_app w0 w1 4) by done. rewrite (rd_app 4 4 w0 w1) by (rewrite ?L0; done).
  rewrite <- (app_nil_r (w0 ++ w1)), (rd0_app (w0 ++ w1) [] 8) by (rewrite length_app; lia).
  cbn [mbind option_bind]. eexists. split; [done|]. rewrite sigchar_float, dec_words by done.
  destruct (is_wide t) eqn:Hwd.
  - destruct t; try discriminate Hwd; destruct hard; cbn [ret_value ret_2 ret_3 ret_f0];
      try (destruct e; cbn [ret_value ret_2 ret_3 ret_f0]); rewrite Hv; (etrans; [by apply conv_wrapU|exact Hx]).
  - destruct t; try discriminate Hwd; destruct hard, e; cbn [ret_value ret_2 ret_f0 two_words] in *; try exact Hv;
      (rewrite <- Hv; cbn [conv]; unfold wrapU; rewrite Z.mul_comm, Z.mod_add by lia; done).
Qed.

(** ** Arguments of the callee *)

Lemma o32_placed_in vf cpu a sk :
  (forall i bs, 0 <= i -> rd (4 * i) 4 (vec_bytes (mVecHead vf)) = Some bs -> arg_word e cpu i = Some (dec e bs)) ->
  (hard = true -> forall i, 0 <= i < 2 -> exists bs, rd (8 * i) 8 (mRegData vf) = Some bs /\ aget i (fprs cpu) = Some (dec e bs)) ->
  0 <= sk.2 -> conv (a_ty a) (a_val a) = a_val a -> sk.1 mod 4 = 0 ->
  o32_placed e hard cs vf a sk -> o32_in e hard cs cpu a sk.
Proof.
  intros Hw Hf H0 Hx Hm [(y & Hy & Hrd) Hreg]. pose proof (rd_bound _ _ _ _ Hrd) as [Hs _].
  pose proof (Z.div_mod (sk.1) 4 ltac:(lia)) as Hd. rewrite Hm, Z.add_0_r in Hd. split.
  - rewrite Hd in Hrd. unfold arg_size in Hrd. destruct (is_wide (a_ty a)) eqn:Ew.
    + destruct (rd_split 4 4 _ _ _ Hrd) as [Hr0 H1]. rewrite enc_dword in Hr0, H1.
      rewrite take_app_length' in Hr0 by by rewrite length_enc. rewrite drop_app_length' in H1 by by rewrite length_enc.
      replace (4 * (sk.1 / 4) + Z.of_nat 4) with (4 * (sk.1 / 4 + 1)) in H1 by lia.
      do 2 eexists. split; [apply Hw; [lia|exact Hr0]|]. split; [apply Hw; [lia|exact H1]|].
      rewrite !dec_enc. change (8 * Z.of_nat 4) with 32. rewrite two_words_of, conv_wrapU; [done|]. by destruct (a_ty a).
    + eexists. split; [apply Hw; [lia|exact Hrd]|]. rewrite dec_enc, conv_wrapU; [done|]. by destruct (a_ty a).
  - intros Hh Hfl Hk. specialize (Hreg Hh Hfl Hk). destruct (Hf Hh (sk.2) ltac:(lia)) as (bs & Hbs & Ha).
    exists (dec e bs). split; [done|]. pose proof (rd_split 4 4 _ _ _ Hbs) as [Hlo Hhi]. pose proof (rd_length _ _ _ _ Hbs) as Lb.
    rewrite <- (take_drop 4 bs), dec_words by (rewrite ?length_take, ?length_drop, Lb; done).
    unfold in_slot, arg_size in Hreg. destruct (a_ty a); try discriminate Hfl; cbn [is_wide] in Hreg.
    + change (Z.to_nat 4) with 4%nat in Hreg. unfold float_half in Hreg. rewrite <- Hx.
      destruct e; [rewrite Z.add_0_r, Hlo in Hreg|change 4 with (Z.of_nat 4) in Hreg; rewrite Hhi in Hreg];
        injection Hreg as ->; cbn [two_words]; rewrite dec_enc;
        cbn [conv]; unfold wrapU; rewrite (Z.mul_comm (2 ^ 32)), Z.mod_add by lia; change (8 * Z.of_nat 4) with 32; by rewrite Z.mod_mod by lia.
    + rewrite Z.add_0_r in Hreg. change (Z.to_nat 8) with 8%nat in Hreg. rewrite Hbs in Hreg. injection Hreg as ->.
      rewrite <- dec_words by (rewrite ?length_take, ?length_drop, Lb; done). rewrite take_drop, dec_enc. rewrite <- Hx at 2. by apply conv_wrapU.
Qed.
(** [(size + 7) & (-8UL)] is the next multiple of 8. *)
Lemma o32_call_size vf target rt :
  vec_wf (mVecHead vf) -> align_up (mSize (mVecHead vf)) 8 <= mTotal (mVecHead vf) ->
  dcCall_as (C := C) rt vf target =
  dcCall_mips_o32 target (mRegData vf) (Z.max 16 (align_up (mSize (mVecHead vf)) 8)) (vec_data (mVecHead vf)).
Proof.
  intros [Hs Ht [_ Hw]] Ha. pose proof (align_up_bounds (mSize (mVecHead vf)) 8 ltac:(lia)). cbn in Hw.
  assert (E : dcCall_as (C := C) rt vf target = dc_callvm_call_mips_o32 e cs vf target) by by destruct rt.
  rewrite E. unfold dc_callvm_call_mips_o32, dcVecSize. do 2 f_equal. rewrite wrapU_id by (unfold in_u; lia).
  apply round_up_8; lia.
Qed.

Definition o32_reset (vm0 : DCCallVM_mips_o32) : DCCallVM_mips_o32 :=
  o_with_count 0 (o_with_vec (dcVecReset (mVecHead vm0)) vm0).

(** C35: scalar calls on MIPS with the o32 ABI, in either byte order, with and
    without hardware floating point, are transparent from end to end, and the
    arguments are where the ABI says.  For every argument list that fits the vector
    of a VM of at least four words, the VM, reset and given the arguments, enters
    the callee with each argument in the next one or two argument words -
    doublewords aligned, the first four words in $4-$7 - and those of the first two
    arguments that are floating-point ones also in $f12 and $f14 if there is
    hardware for them.  A callback entered like this reads exactly those arguments,
    and the caller gets its result. *)
Theorem o32_scalar_call_end_to_end vm0 l rt f r0 junk target :
  o32_alloc e hard cs vm0 -> 8 * Z.of_nat (length l) <= mTotal (mVecHead vm0) -> length junk = 16%nat ->
  Forall arg_ok l -> val_ok rt (f l) ->
  exists vm vf cpu r,
    dcReset (C := C) vm0 = Some vm /\ push_args (C := C) vm l = Some vf /\
    kernel_enter e hard (dcCall_as (C := C) rt vf target) = Some cpu /\
    Forall2 (o32_in e hard cs cpu) l (o32_places (map a_ty l) 0 0) /\
    o32_run_callback e hard cs junk (map a_ty l) rt f r0 cpu = Some r /\ ret_value e hard rt r = f l.
Proof.
  intros [[Hw Ht] Hd Hb Hr] Hroom Hj Hl Hf.
  assert (Hi : o_inv e hard cs (o32_reset vm0))
    by (destruct Hw; split; cbn; done).
  destruct (push_list_o32 e hard cs l (o32_reset vm0) Hi) as (vf & Hp & Hif & _ & Htf & Hlf & Hav & Hrf & Hall);
    [change (align_up (mSize (mVecHead (o32_reset vm0))) 8) with 0; cbn; lia|done|].
  destruct (push_args_inv (CC := o32_CallConv e hard cs) _ l Hi Hrf Hl) as (vf' & Hp' & _ & _ & Hread).
  rewrite Hp in Hp'. injection Hp' as <-.
  destruct Hif as [[Hwf _] _ Hbf _ Hregs]. pose proof Hwf as [Hs0 Htot [_ Hw32]]. cbn in Hw32.
  pose proof (align_up_bounds (mSize (mVecHead vf)) 8 ltac:(lia)) as Hab.
  change (length (vec_data (mVecHead (o32_reset vm0)))) with (length (vec_data (mVecHead vm0))) in Hlf.
  set (size := Z.max 16 (align_up (mSize (mVecHead vf)) 8)).
  assert (Hm4 : size mod 4 = 0).
  { unfold size. destruct (Z.max_spec 16 (align_up (mSize (mVecHead vf)) 8)) as [[_ ->]|[_ ->]]; [|done].
    destruct (Z.mod_divide (align_up (mSize (mVecHead vf)) 8) 8) as [H8 _]; [lia|]. destruct H8 as [q ->]; [by apply align_up_mod|].
    replace (q * 8) with (q * 2 * 4) by lia. by apply Z.mod_mul. }
  destruct (o32_kernel_enter_ok e hard target (mRegData vf) size (vec_data (mVecHead vf)))
    as (cpu & Hk & Hst & Hg & Hfs & Hfa & Hword); [done|done|lia|lia|done|].
  assert (Hpre : prefix (vec_bytes (mVecHead vf)) (take (Z.to_nat size) (vec_data (mVecHead vf))))
    by (apply take_prefix_take; lia).
  assert (Hent : exists p, dcCallbackThunkEntry e hard junk cpu = Some p /\ o_std hard (o32_reset vm0) vf p).
  { unfold dcCallbackThunkEntry. rewrite Hg, Hst.
    assert (Lg : length (take 16 (vec_data (mVecHead vf))) = 16%nat) by (rewrite length_take; lia).
    rewrite wr_Some by (rewrite ?Lg, ?length_take; lia). cbn [mbind option_bind]. eexists. split; [done|].
    rewrite Lg. change (Z.to_nat 0) with 0%nat. change (0 + 16)%nat with 16%nat. rewrite take_0. cbn [app].
    assert (E : take 16 (vec_data (mVecHead vf)) ++ drop 16 (take (Z.to_nat size) (vec_data (mVecHead vf)))
                = take (Z.to_nat size) (vec_data (mVecHead vf))).
    { etrans; [|apply (take_drop 16)]. f_equal. rewrite take_take. f_equal. lia. }
    rewrite E. split; cbn; [done| |].
    - eexists. split_and!; [|by apply prefix_app|].
      + destruct hard; [|done]. rewrite Hfs by done. by apply Hregs.
      + intros Hh. rewrite Hh. by apply Hfs.
    - intros _. split; [done|]. by intros _. }
  destruct Hent as (p & Hent & Hat). destruct (Hread p Hat) as (p' & Hrd & _).
  destruct (o32_result rt (f l) r0 Hf) as (result & Hset & r & Hexit & Hret).
  exists (o32_reset vm0), vf, cpu, r. split_and!; try done.
  - rewrite o32_call_size by done. exact Hk.
  - pose proof (o32_places_mod (map a_ty l) 0 0 eq_refl) as Hmod. pose proof (o32_places_nonneg (map a_ty l) 0 0 ltac:(lia)) as Hnn.
    apply Forall2_same_length_lookup. apply Forall2_same_length_lookup in Hall as [Hlen Hall]. split; [done|].
    intros i a sk Ha Hsk. rewrite Forall_lookup in Hmod, Hnn. apply (o32_placed_in vf); eauto.
    + intros j bs Hj0 Hrdj. apply Hword; [done|]. by eapply rd_prefix.
    + apply val_ok_conv. by apply (Forall_lookup_1 _ _ i a Hl).
  - unfold o32_run_callback. rewrite Hent. cbn [mbind option_bind]. rewrite Hrd. cbn [mbind option_bind]. rewrite Hset. exact Hexit.
Qed.

(** A VM of less than four words is too small for every call. *)
Theorem o32_small_vm_overread mem alloc size vm rt target :
  Z.of_nat (length alloc) = size -> 0 <= size < 16 ->
  dcNewCallVM mem (Some alloc) size = Some vm -> kernel_enter e hard (dcCall_as (C := C) rt vm target) = None.
Proof.
  intros Hl Hs [= <-]. rewrite o32_call_size; [|split; cbn; lia|change (0 <= size); lia]. unfold kernel_enter.
  change (k_data _) with alloc. change (wrapU 32 (k_size _)) with 16. cbn [Z.eqb].
  change (16 mod 4 =? 0) with true. change (Z.to_nat (16 / 4)) with 4%nat. cbv iota.
  destruct (load_words e 4 4 0 alloc) as [ws|] eqn:E; [|done].
  destruct (load_words_aget _ _ _ 3 _ _ _ E) as (bs & Hrd & _); [lia|]. apply rd_bound in Hrd. lia.
Qed.
End Props.
