(* ===== verification/MipsEabi.v ===== *)
(** * MIPS EABI: call VM, kernel, callbacks and argument access
      (dyncall/dyncall_callvm_mips_eabi.{h,c}, dyncall_call_mips_eabi_gas.s,
       dyncallback/dyncall_args_mips.{h,c}, dyncall_callback_mips_eabi_gas.s)

    Eight integer registers and eight for [float]s; 64-bit values, [double]s
    included, take a pair of integer registers that starts at an even one. *)

From S2P Require Export Mips.

(** ** Argument access in a callback (dyncall_args_mips.{h,c})

    [stackptr] is an index of the memory from the stack pointer of the caller on,
    which is aligned. *)

Record DCArgs := {
  ireg_data : list Z; freg_data : list Z; reg_count_i : Z; reg_count_f : Z; stackptr : Z; arg_mem : list Z
}.

Definition ea_at (i f sp : Z) (p : DCArgs) : DCArgs :=
  {| ireg_data := ireg_data p; freg_data := freg_data p; reg_count_i := i; reg_count_f := f; stackptr := sp;
     arg_mem := arg_mem p |}.

Section Args.
Variable e : endian.
Variable char_signed : bool.
#[local] Hint Extern 0 DataModel => exact (mips32_dm e char_signed) : typeclass_instances.

Definition dcbArgInt : SO DCArgs Z := fun p =>
  if reg_count_i p <? 8 then
    x ← aget (reg_count_i p) (ireg_data p);
    Some (conv TInt x, ea_at (reg_count_i p + 1) (reg_count_f p) (stackptr p) p)
  else
    bs ← rd (stackptr p) 4 (arg_mem p);
    Some (conv TInt (dec e bs), ea_at (reg_count_i p) (reg_count_f p) (stackptr p + 4) p).

Definition dcbArgUInt : SO DCArgs Z := x ← dcbArgInt; mret (conv TUInt x).

(** A register and a word of the stack are skipped if they are odd ones, wherever
    the value is. *)
Definition skip_odd (p : DCArgs) : DCArgs :=
  ea_at (reg_count_i p + Z.land (reg_count_i p) 1) (reg_count_f p) (stackptr p + Z.land (Z.land (stackptr p) 4) (-4)) p.

Definition dcbArgULongLong : SO DCArgs Z :=
  fun p => (w0 ← dcbArgUInt; w1 ← dcbArgUInt; mret (conv TULongLong (join_words e w0 w1)) : SO DCArgs Z) (skip_odd p).

Definition dcbArgLongLong : SO DCArgs Z := x ← dcbArgULongLong; mret (conv TLongLong x).
Definition dcbArgLong : SO DCArgs Z := x ← dcbArgUInt; mret (conv TLong x).
Definition dcbArgULong : SO DCArgs Z := x ← dcbArgUInt; mret (conv TULong x).
Definition dcbArgChar : SO DCArgs Z := x ← dcbArgUInt; mret (conv TChar x).
Definition dcbArgUChar : SO DCArgs Z := x ← dcbArgUInt; mret (conv TUChar x).
Definition dcbArgShort : SO DCArgs Z := x ← dcbArgUInt; mret (conv TShort x).
Definition dcbArgUShort : SO DCArgs Z := x ← dcbArgUInt; mret (conv TUShort x).
Definition dcbArgBool : SO DCArgs Z := x ← dcbArgUInt; mret (conv TBool x).
Definition dcbArgPointer : SO DCArgs Z := x ← dcbArgUInt; mret (conv TPointer x).

Definition dcbArgFloat : SO DCArgs Z := fun p =>
  if reg_count_f p <? 8 then
    x ← aget (reg_count_f p) (freg_data p);
    Some (conv TFloat x, ea_at (reg_count_i p) (reg_count_f p + 1) (stackptr p) p)
  else
    bs ← rd (stackptr p) 4 (arg_mem p);
    Some (conv TFloat (dec e bs), ea_at (reg_count_i p) (reg_count_f p) (stackptr p + 4) p).

Definition dcbArgDouble : SO DCArgs Z := x ← dcbArgULongLong; mret (conv TDouble x).

#[export] Instance eabi_ArgReader : ArgReader DCArgs := {
  dcbArg t :=
    match t with
    | TBool => dcbArgBool | TChar => dcbArgChar | TUChar => dcbArgUChar
    | TShort => dcbArgShort | TUShort => dcbArgUShort | TInt => dcbArgInt
    | TUInt => dcbArgUInt | TLong => dcbArgLong | TULong => dcbArgULong
    | TLongLong => dcbArgLongLong | TULongLong => dcbArgULongLong
    | TFloat => dcbArgFloat | TDouble => dcbArgDouble
    | TPointer | TString => dcbArgPointer
    end;
}.
End Args.

(** ** Machine state and callbacks *)

(** $4-$11, $f12-$f19, and the stack of the callee. *)
Record eabi_cpu := { gprs : list Z; fprs : list Z; cpu_stack : list Z }.

Definition dcCallbackThunkEntry (cpu : eabi_cpu) : DCArgs :=
  {| ireg_data := gprs cpu; freg_data := fprs cpu; reg_count_i := 0; reg_count_f := 0; stackptr := 0;
     arg_mem := cpu_stack cpu |}.

(** $2, $3, and $f0 as a doubleword. *)
Record eabi_ret := { ret_2 : Z; ret_3 : Z; ret_f0 : Z }.

Definition callback_exit (e : endian) (result : list Z) : option eabi_ret :=
  w0 ← rd 0 4 result;
  w1 ← rd 4 4 result;
  d ← rd 0 8 result;
  Some {| ret_2 := dec e w0; ret_3 := dec e w1; ret_f0 := dec e d |}.

(** Where a caller finds a result: a [float] is the low word of $f0. *)
Definition ret_value (e : endian) {DM : DataModel} (t : cty) (r : eabi_ret) : Z :=
  match t with
  | TFloat => conv t (ret_f0 r)
  | TDouble | TLongLong | TULongLong => conv t (two_words e (ret_2 r) (ret_3 r))
  | _ => conv t (ret_2 r)
  end.

(** ** The call VM *)

Inductive eabi_vt := gVT_mips_eabi_p.

Record DCCallVM_mips_eabi := {
  ea_mVTpointer : eabi_vt; ea_mError : Z; mIntRegs : Z; mSingleRegs : Z;
  mIntData : list Z; mSingleData : list Z; mVecHead : DCVecHead
}.

Definition ea_with_vt (vt : eabi_vt) (err : Z) (p : DCCallVM_mips_eabi) : DCCallVM_mips_eabi :=
  {| ea_mVTpointer := vt; ea_mError := err; mIntRegs := mIntRegs p; mSingleRegs := mSingleRegs p;
     mIntData := mIntData p; mSingleData := mSingleData p; mVecHead := mVecHead p |}.
Definition ea_with_vec (v : DCVecHead) (p : DCCallVM_mips_eabi) : DCCallVM_mips_eabi :=
  {| ea_mVTpointer := ea_mVTpointer p; ea_mError := ea_mError p; mIntRegs := mIntRegs p; mSingleRegs := mSingleRegs p;
     mIntData := mIntData p; mSingleData := mSingleData p; mVecHead := v |}.
Definition ea_with_ints (n : Z) (d : list Z) (p : DCCallVM_mips_eabi) : DCCallVM_mips_eabi :=
  {| ea_mVTpointer := ea_mVTpointer p; ea_mError := ea_mError p; mIntRegs := n; mSingleRegs := mSingleRegs p;
     mIntData := d; mSingleData := mSingleData p; mVecHead := mVecHead p |}.
Definition ea_with_singles (n : Z) (d : list Z) (p : DCCallVM_mips_eabi) : DCCallVM_mips_eabi :=
  {| ea_mVTpointer := ea_mVTpointer p; ea_mError := ea_mError p; mIntRegs := mIntRegs p; mSingleRegs := n;
     mIntData := mIntData p; mSingleData := d; mVecHead := mVecHead p |}.

Record eabi_kernel := dcCall_mips_eabi {
  k_target : Z; k_ints : list Z; k_singles : list Z; k_size : Z; k_data : list Z
}.

(** The size is rounded up to a multiple of 8; the copy loop counts it down to zero. *)
Definition kernel_enter (e : endian) (k : eabi_kernel) : option eabi_cpu :=
  let size := Z.land (wrapU 32 (k_size k + 7)) (wrapU 32 (-8)) in
  stack ← load_words e 4 (Z.to_nat (size / 4)) 0 (k_data k);
  Some {| gprs := k_ints k; fprs := k_singles k; cpu_stack := store_words e 4 stack |}.

Section Eabi.
Variable e : endian.
Variable char_signed : bool.
#[local] Hint Extern 0 DataModel => exact (mips32_dm e char_signed) : typeclass_instances.

Definition dc_callvm_free_mips_eabi (_ : DCCallVM_mips_eabi) : unit := tt.
Definition dc_callvm_reset_mips_eabi (self : DCCallVM_mips_eabi) : option DCCallVM_mips_eabi :=
  Some (ea_with_singles 0 (mSingleData self) (ea_with_ints 0 (mIntData self)
         (ea_with_vec (dcVecReset (mVecHead self)) self))).

Definition ea_append (self : DCCallVM_mips_eabi) (bs : list Z) : option DCCallVM_mips_eabi :=
  v ← dcVecAppend (mVecHead self) bs (Z.of_nat (length bs)); Some (ea_with_vec v self).

(** [dcVecSkip(&self->mVecHead, dcVecSize(&self->mVecHead) & 4)] *)
Definition ea_align (self : DCCallVM_mips_eabi) : DCCallVM_mips_eabi :=
  ea_with_vec (dcVecSkip (mVecHead self) (Z.land (dcVecSize (mVecHead self)) 4)) self.

(** [mIntData[mIntRegs++] = i] *)
Definition put_int (i : Z) (self : DCCallVM_mips_eabi) : option DCCallVM_mips_eabi :=
  d ← aset (mIntRegs self) i (mIntData self); Some (ea_with_ints (mIntRegs self + 1) d self).

Definition dc_callvm_argInt_mips_eabi (self : DCCallVM_mips_eabi) (i : Z) : option DCCallVM_mips_eabi :=
  if mIntRegs self <? 8 then put_int i self else ea_append self (enc e 4 i).
Definition dc_callvm_argPointer_mips_eabi (self : DCCallVM_mips_eabi) (x : Z) := dc_callvm_argInt_mips_eabi self (conv TInt x).
Definition dc_callvm_argBool_mips_eabi (self : DCCallVM_mips_eabi) (x : Z) := dc_callvm_argInt_mips_eabi self (conv TInt x).
Definition dc_callvm_argChar_mips_eabi (self : DCCallVM_mips_eabi) (x : Z) := dc_callvm_argInt_mips_eabi self (conv TInt x).
Definition dc_callvm_argShort_mips_eabi (self : DCCallVM_mips_eabi) (x : Z) := dc_callvm_argInt_mips_eabi self (conv TInt x).
Definition dc_callvm_argLong_mips_eabi (self : DCCallVM_mips_eabi) (x : Z) := dc_callvm_argInt_mips_eabi self (conv TInt x).

Definition dc_callvm_argLongLong_mips_eabi (self : DCCallVM_mips_eabi) (Lv : Z) : option DCCallVM_mips_eabi :=
  if mIntRegs self <? 7 then
    let self := ea_with_ints (mIntRegs self + Z.land (mIntRegs self) 1) (mIntData self) self in
    self ← put_int (conv TInt (first_word e Lv)) self;
    put_int (conv TInt (second_word e Lv)) self
  else
    let self := ea_with_ints 8 (mIntData self) self in
    ea_append (ea_align self) (enc e 8 Lv).

Definition dc_callvm_argFloat_mips_eabi (self : DCCallVM_mips_eabi) (x : Z) : option DCCallVM_mips_eabi :=
  if mSingleRegs self <? 8 then
    d ← aset (mSingleRegs self) x (mSingleData self); Some (ea_with_singles (mSingleRegs self + 1) d self)
  else ea_append self (enc e 4 x).

Definition dc_callvm_argDouble_mips_eabi (self : DCCallVM_mips_eabi) (x : Z) : option DCCallVM_mips_eabi :=
  dc_callvm_argLongLong_mips_eabi self (conv TLongLong x).

Definition dc_callvm_call_mips_eabi (self : DCCallVM_mips_eabi) (target : Z) : eabi_kernel :=
  dcCall_mips_eabi target (mIntData self) (mSingleData self) (dcVecSize (mVecHead self)) (vec_data (mVecHead self)).

Definition dc_callvm_mode_mips_eabi (self : DCCallVM_mips_eabi) (mode : Z) : option DCCallVM_mips_eabi :=
  Some
    (if (mode =? DC_CALL_C_DEFAULT) || (mode =? DC_CALL_C_DEFAULT_THIS) || (mode =? DC_CALL_C_MIPS32_EABI)
        || (mode =? DC_CALL_C_ELLIPSIS) || (mode =? DC_CALL_C_ELLIPSIS_VARARGS)
     then ea_with_vt gVT_mips_eabi_p DC_ERROR_NONE self
     else ea_with_vt (ea_mVTpointer self) DC_ERROR_UNSUPPORTED_MODE self).

Definition gVT_mips_eabi : DCCallVM_vt DCCallVM_mips_eabi eabi_kernel eabi_ret := Build_DCCallVM_vt
  dc_callvm_free_mips_eabi dc_callvm_reset_mips_eabi dc_callvm_mode_mips_eabi
  dc_callvm_argBool_mips_eabi dc_callvm_argChar_mips_eabi dc_callvm_argShort_mips_eabi dc_callvm_argInt_mips_eabi
  dc_callvm_argLong_mips_eabi dc_callvm_argLongLong_mips_eabi dc_callvm_argFloat_mips_eabi
  dc_callvm_argDouble_mips_eabi dc_callvm_argPointer_mips_eabi
  None (* argAggr *)
  dc_callvm_call_mips_eabi dc_callvm_call_mips_eabi dc_callvm_call_mips_eabi dc_callvm_call_mips_eabi
  dc_callvm_call_mips_eabi dc_callvm_call_mips_eabi dc_callvm_call_mips_eabi dc_callvm_call_mips_eabi
  dc_callvm_call_mips_eabi dc_callvm_call_mips_eabi
  None (* callAggr *)
  None (* beginAggr *).

(** [dcNewCallVM]: [malloc] gives the memory behind the header, of which sixteen
    bytes are not the vector's. *)
Definition dcNewCallVM (mem : DCCallVM_mips_eabi) (malloc : Z -> option (list Z)) (size : Z) : option DCCallVM_mips_eabi :=
  alloc ← malloc (size + 16);
  p ← dc_callvm_mode_mips_eabi mem DC_CALL_C_DEFAULT;
  dc_callvm_reset_mips_eabi (ea_with_vec (dcVecInit alloc size) p).

#[export] Instance eabi_CallVM : CallVM DCCallVM_mips_eabi eabi_vt eabi_kernel eabi_ret := {
  mVTpointer := ea_mVTpointer;
  mError := ea_mError;
  deref _ := gVT_mips_eabi;
}.
End Eabi.
