(* ===== verification/MipsEabiProofs.v ===== *)
(** * MIPS EABI: calls and callbacks agree

    VM and reader find the place of an argument by the same counts - except that
    the reader also aligns its place on the stack for a 64-bit value that is in
    registers. *)

From S2P Require Export MipsEabi.

(** The types that go to floating-point registers. *)
Definition is_single (t : cty) : bool := match t with TFloat => true | _ => false end.

Section Eabi.
Variable e : endian.
Variable cs : bool.
#[local] Hint Extern 0 DataModel => exact (mips32_dm e cs) : typeclass_instances.
#[local] Abbreviation C := (eabi_CallVM e cs).
#[local] Abbreviation RD := (eabi_ArgReader e cs).

(** The argument [a] is where [pl] says, in registers or on the stack [mem]. *)
Definition holds (ints singles mem : list Z) (a : arg) (pl : place) : Prop :=
  let c := conv (a_ty a) in
  match pl with
  | InGpr k =>
    if is_wide (a_ty a)
    then exists w0 w1, aget k ints = Some w0 /\ aget (k + 1) ints = Some w1 /\
           c (two_words e (wrapU 32 w0) (wrapU 32 w1)) = a_val a
    else exists w, aget k ints = Some w /\ c w = a_val a
  | InFpr k => exists w, aget k singles = Some w /\ c w = a_val a
  | OnStack off => exists y, rd off (Z.to_nat (arg_size (a_ty a))) mem = Some (enc e (Z.to_nat (arg_size (a_ty a))) y) /\ c y = a_val a
  end.

(** ** Pushing an argument *)

Definition counters_of (vm : DCCallVM_mips_eabi) : counters :=
  {| c_int := mIntRegs vm; c_float := mSingleRegs vm; c_stack := mSize (mVecHead vm) |}.

Record ea_inv (vm : DCCallVM_mips_eabi) : Prop := {
  ei_vec : vec_wf (mVecHead vm) /\ vec_room (mVecHead vm) 0;
  ei_bytes : Forall is_byte (vec_data (mVecHead vm));
  ei_count : counters_ok (counters_of vm);
  ei_len : length (mIntData vm) = 8%nat /\ length (mSingleData vm) = 8%nat;
}.

Record ea_ext (vm vm' : DCCallVM_mips_eabi) : Prop := {
  ex_bytes : prefix (vec_bytes (mVecHead vm)) (vec_bytes (mVecHead vm'));
  ex_ints : mIntRegs vm <= mIntRegs vm' /\ forall k, 0 <= k < mIntRegs vm -> aget k (mIntData vm') = aget k (mIntData vm);
  ex_singles : mSingleRegs vm <= mSingleRegs vm' /\
               forall k, 0 <= k < mSingleRegs vm -> aget k (mSingleData vm') = aget k (mSingleData vm);
}.

Lemma ea_ext_refl vm : ea_ext vm vm.
Proof. by split. Qed.

Lemma ea_ext_trans a b c : ea_ext a b -> ea_ext b c -> ea_ext a c.
Proof.
  intros [H1 [H2 H3] [H4 H5]] [G1 [G2 G3] [G4 G5]]. split; [by etrans|split; [lia|]..]; intros k Hk.
  - by rewrite G3, H3 by lia.
  - by rewrite G5, H5 by lia.
Qed.

(** The place is taken, and the argument is there. *)
Definition placed (vm : DCCallVM_mips_eabi) (a : arg) (pl : place) : Prop :=
  holds (mIntData vm) (mSingleData vm) (vec_bytes (mVecHead vm)) a pl /\
  match pl with
  | InGpr k => 0 <= k /\ k + arg_size (a_ty a) / 4 <= mIntRegs vm
  | InFpr k => 0 <= k < mSingleRegs vm
  | OnStack _ => True
  end.

Lemma ea_placed_ext vm vm' a pl : ea_ext vm vm' -> placed vm a pl -> placed vm' a pl.
Proof.
  intros [Hb [Hi0 Hi] [Hf0 Hf]] [Hh Ht]. unfold placed, arg_size in *. destruct pl as [k|k|o]; cbn [holds] in *.
  - split; [|lia]. destruct (is_wide (a_ty a)).
    + change (8 / 4) with 2 in Ht. rewrite !Hi by lia. exact Hh.
    + change (4 / 4) with 1 in Ht. rewrite Hi by lia. exact Hh.
  - split; [|lia]. by rewrite Hf by lia.
  - destruct Hh as (y & Hrd & Hc). split; [|done]. exists y. split; [by eapply rd_prefix|done].
Qed.

(** [vm'] is [vm] with one more argument, at the next place. *)
Record ea_pushed (vm vm' : DCCallVM_mips_eabi) (a : arg) : Prop := {
  ep_inv : ea_inv vm';
  ep_ext : ea_ext vm vm';
  ep_count : counters_of vm' = (next_place is_single (a_ty a) (counters_of vm)).2;
  ep_place : placed vm' a (next_place is_single (a_ty a) (counters_of vm)).1;
  ep_same : mTotal (mVecHead vm') = mTotal (mVecHead vm) /\
            length (vec_data (mVecHead vm')) = length (vec_data (mVecHead vm));
}.

(** On the stack, with [ic] integer registers gone. *)
Lemma ea_push_stack vm a y ic :
  ea_inv vm -> fits (mVecHead vm) -> mIntRegs vm <= ic <= 8 -> conv (a_ty a) y = a_val a ->
  next_place is_single (a_ty a) (counters_of vm) = on_stack (a_ty a) ic (counters_of vm) ->
  exists vm', ea_append e cs (if is_wide (a_ty a) then ea_align e cs (ea_with_ints ic (mIntData vm) vm)
                             else ea_with_ints ic (mIntData vm) vm) (enc e (Z.to_nat (arg_size (a_ty a))) y) = Some vm' /\ ea_pushed vm vm' a.
Proof.
  destruct a as [t x]. cbn [a_ty a_val]. intros [[Hw H0] Hb [Hci Hcf [Hcs Hcm]] [Hl1 Hl2]] Hr Hic Hy Enp.
  pose proof Hr as Hr'. unfold fits in Hr'. cbn [counters_of c_int c_float c_stack] in *.
  pose proof (arg_size_cases t) as Hsz. pose proof (align_up_bounds (mSize (mVecHead vm)) 8).
  set (off := align_up (mSize (mVecHead vm)) (arg_size t)).
  assert (Hoff : (if is_wide t then ea_align e cs (ea_with_ints ic (mIntData vm) vm) else ea_with_ints ic (mIntData vm) vm)
            = ea_with_vec (dcVecResize (mVecHead vm) off) (ea_with_ints ic (mIntData vm) vm) /\
          mSize (mVecHead vm) <= off <= align_up (mSize (mVecHead vm)) 8 /\ (off + arg_size t) mod 4 = 0).
  { unfold off, arg_size. destruct (is_wide t).
    - unfold ea_align. cbn [mVecHead ea_with_ints]. rewrite skip_to_8 by done. split_and!; [done|lia|lia|].
      pose proof (align_up_mod (mSize (mVecHead vm)) 8 ltac:(lia)) as [q ->]%Z.mod_divide; [|lia].
      replace (q * 8 + 8) with ((2 * q + 2) * 4) by lia. by rewrite Z.mod_mul.
    - rewrite align_up_id by (done || lia). split_and!; [|lia..|].
      + by destruct vm as [v er i f di df []].
      + rewrite Z.add_mod, Hcm by lia. done. }
  destruct Hoff as (-> & Ho1 & Ho2).
  destruct (dcVecResize_forward (mVecHead vm) off Hw ltac:(lia)) as [Hw' Hpre].
  destruct (dcVecAppend_ok (dcVecResize (mVecHead vm) off) (enc e (Z.to_nat (arg_size t)) y) (arg_size t) Hw')
    as (w & Hv & Hww & Htw & Hsw & Hlw & Hbw & _); [rewrite length_enc; lia|unfold vec_room; cbn; lia|].
  unfold ea_append. rewrite length_enc, Z2Nat.id by lia. cbn [mVecHead ea_with_vec]. rewrite Hv. cbn [mbind option_bind].
  eexists. split; [done|]. cbn [dcVecResize mSize mTotal vec_data] in *.
  assert (Hx : prefix (vec_bytes (mVecHead vm)) (vec_bytes w)) by (rewrite Hbw; etrans; [exact Hpre|by apply prefix_app_r]).
  split; cbn [mVecHead ea_with_vec ea_with_ints a_ty]; try done.
  - split; cbn [mVecHead ea_with_vec ea_with_ints mIntData mSingleData]; try done.
    + split; [done|]. unfold vec_room. lia.
    + eapply dcVecAppend_bytes; [exact Hv|done|apply enc_bytes].
    + split; cbn; [lia|lia|]. rewrite Hsw. split; [lia|done].
  - split; cbn; [exact Hx|by split; [lia|]|by split].
  - rewrite Enp. unfold counters_of, on_stack. cbn. by rewrite Hsw.
  - rewrite Enp. split; [|done]. cbn [holds on_stack fst a_ty a_val c_stack counters_of mVecHead ea_with_vec].
    exists y. split; [|done]. rewrite Hbw. apply rd_app; [|by rewrite length_enc].
    rewrite length_vec_bytes; [done|exact Hw'|]. unfold vec_room. cbn. lia.
Qed.

(** In registers: the vector stays. *)
Lemma ea_push_regs vm vm' a :
  ea_inv vm -> mVecHead vm' = mVecHead vm -> counters_ok (counters_of vm') ->
  length (mIntData vm') = 8%nat -> length (mSingleData vm') = 8%nat ->
  mIntRegs vm <= mIntRegs vm' -> (forall k, 0 <= k < mIntRegs vm -> aget k (mIntData vm') = aget k (mIntData vm)) ->
  mSingleRegs vm <= mSingleRegs vm' -> (forall k, 0 <= k < mSingleRegs vm -> aget k (mSingleData vm') = aget k (mSingleData vm)) ->
  counters_of vm' = (next_place is_single (a_ty a) (counters_of vm)).2 ->
  placed vm' a (next_place is_single (a_ty a) (counters_of vm)).1 -> ea_pushed vm vm' a.
Proof.
  intros [Hw Hb _ _] Evec Hc L1 L2 Hi0 Hi Hf0 Hf Hcount Hh.
  split; try done; [split; by rewrite ?Evec|split; by rewrite ?Evec|by rewrite Evec].
Qed.

(** One register after the other. *)
Lemma put_int_ok vm i :
  0 <= mIntRegs vm < 8 -> length (mIntData vm) = 8%nat ->
  exists d, put_int i vm = Some (ea_with_ints (mIntRegs vm + 1) d vm) /\ length d = 8%nat /\
    aget (mIntRegs vm) d = Some i /\ forall k, k <> mIntRegs vm -> aget k d = aget k (mIntData vm).
Proof.
  intros H8 Hl. unfold put_int. rewrite aset_Some by lia. cbn [mbind option_bind]. eexists. split; [done|].
  split_and!; [by rewrite length_insert|apply aget_insert_eq; lia|]. intros k Hk. apply aget_insert_ne; lia.
Qed.

Lemma push_int vm a y :
  ea_inv vm -> fits (mVecHead vm) -> is_wide (a_ty a) = false -> is_single (a_ty a) = false -> conv (a_ty a) y = a_val a ->
  exists vm', dc_callvm_argInt_mips_eabi e cs vm y = Some vm' /\ ea_pushed vm vm' a.
Proof.
  intros Hi Hr Hwd Hsg Hy. pose proof Hi as [_ _ [Hci Hcf Hcs] [Hl1 Hl2]]. cbn [counters_of c_int c_float c_stack] in *.
  unfold dc_callvm_argInt_mips_eabi. destruct (Z.ltb_spec (mIntRegs vm) 8) as [H8|H8].
  - destruct (put_int_ok vm y) as (d & -> & Ld & Hd & Ho); [lia|done|]. eexists. split; [done|].
    assert (Enp : next_place is_single (a_ty a) (counters_of vm)
              = (InGpr (mIntRegs vm), counters_of (ea_with_ints (mIntRegs vm + 1) d vm)))
      by (unfold next_place; rewrite Hsg, Hwd; cbn [c_int counters_of]; by rewrite (proj2 (Z.ltb_lt _ _))).
    apply ea_push_regs; try done; cbn [mIntRegs mSingleRegs mIntData mSingleData ea_with_ints]; try lia.
    + by split; cbn; [lia| |].
    + intros k Hk. apply Ho. lia.
    + by rewrite Enp.
    + rewrite Enp. split; [|unfold arg_size; rewrite Hwd; change (4 / 4) with 1; cbn; lia].
      cbn [fst holds]. rewrite Hwd. by exists y.
  - destruct (ea_push_stack vm a y (mIntRegs vm) Hi Hr ltac:(lia) Hy) as (vm' & Hp & Hpu).
    { unfold next_place. rewrite Hsg, Hwd. cbn [c_int counters_of]. rewrite (proj2 (Z.ltb_ge _ _)) by lia.
      by replace 8 with (mIntRegs vm) by lia. }
    exists vm'. split; [|done]. unfold arg_size in Hp. rewrite Hwd in Hp. rewrite <- Hp. by destruct vm.
Qed.

Lemma push_single vm a y :
  ea_inv vm -> fits (mVecHead vm) -> is_single (a_ty a) = true -> conv (a_ty a) y = a_val a ->
  exists vm', dc_callvm_argFloat_mips_eabi e cs vm y = Some vm' /\ ea_pushed vm vm' a.
Proof.
  intros Hi Hr Hsg Hy. pose proof Hi as [_ _ [Hci Hcf Hcs] [Hl1 Hl2]]. cbn [counters_of c_int c_float c_stack] in *.
  assert (Hwd : is_wide (a_ty a) = false) by by destruct (a_ty a).
  unfold dc_callvm_argFloat_mips_eabi. destruct (Z.ltb_spec (mSingleRegs vm) 8) as [H8|H8].
  - rewrite aset_Some by lia. cbn [mbind option_bind]. eexists. split; [done|]. set (d := <[_ := y]> _).
    assert (Enp : next_place is_single (a_ty a) (counters_of vm)
              = (InFpr (mSingleRegs vm), counters_of (ea_with_singles (mSingleRegs vm + 1) d vm)))
      by (unfold next_place; rewrite Hsg; cbn [c_float counters_of]; by rewrite (proj2 (Z.ltb_lt _ _))).
    apply ea_push_regs; try done; cbn [mIntRegs mSingleRegs mIntData mSingleData ea_with_singles]; try lia.
    + by split; cbn; [|lia|].
    + unfold d. by rewrite length_insert.
    + intros k Hk. apply aget_insert_ne; lia.
    + by rewrite Enp.
    + rewrite Enp. split; [|cbn; lia]. exists y. split; [apply aget_insert_eq; lia|done].
  - destruct (ea_push_stack vm a y (mIntRegs vm) Hi Hr ltac:(lia) Hy) as (vm' & Hp & Hpu).
    { unfold next_place. rewrite Hsg. cbn [c_float c_int counters_of]. by rewrite (proj2 (Z.ltb_ge _ _)) by lia. }
    exists vm'. split; [|done]. unfold arg_size in Hp. rewrite Hwd in Hp. rewrite <- Hp. by destruct vm.
Qed.

Lemma skip_register n : 0 <= n <= 8 -> n + Z.land n 1 = align_up n 2.
Proof.
  intros H. assert (n = 0 \/ n = 1 \/ n = 2 \/ n = 3 \/ n = 4 \/ n = 5 \/ n = 6 \/ n = 7 \/ n = 8) as Hn by lia.
  repeat destruct Hn as [-> | Hn]; try done. by subst.
Qed.

Lemma push_dword vm a y :
  ea_inv vm -> fits (mVecHead vm) -> is_wide (a_ty a) = true -> conv (a_ty a) y = a_val a ->
  exists vm', dc_callvm_argLongLong_mips_eabi e cs vm y = Some vm' /\ ea_pushed vm vm' a.
Proof.
  intros Hi Hr Hwd Hy. pose proof Hi as [_ _ [Hci Hcf Hcs] [Hl1 Hl2]]. cbn [counters_of c_int c_float c_stack] in *.
  assert (Hsg : is_single (a_ty a) = false) by by destruct (a_ty a).
  pose proof (align_up_bounds (mIntRegs vm) 2 ltac:(lia)). pose proof (align_up_mod (mIntRegs vm) 2 ltac:(lia)) as [q Hq]%Z.mod_divide; [|lia].
  unfold dc_callvm_argLongLong_mips_eabi. rewrite skip_register by done. cbv zeta. destruct (Z.ltb_spec (mIntRegs vm) 7) as [H7|H7].
  - set (k := align_up (mIntRegs vm) 2) in *.
    destruct (put_int_ok (ea_with_ints k (mIntData vm) vm) (conv TInt (first_word e y))) as (d & -> & Ld & Hd & Ho);
      [cbn; lia|done|]. cbn [mbind option_bind mIntRegs ea_with_ints mIntData] in *.
    destruct (put_int_ok (ea_with_ints (k + 1) d (ea_with_ints k (mIntData vm) vm)) (conv TInt (second_word e y)))
      as (d' & -> & Ld' & Hd' & Ho'); [cbn; lia|done|]. cbn [mIntRegs ea_with_ints mIntData] in *.
    eexists. split; [done|]. set (vm' := ea_with_ints (k + 1 + 1) d' _).
    assert (Enp : next_place is_single (a_ty a) (counters_of vm) = (InGpr k, counters_of vm')).
    { unfold next_place. rewrite Hsg, Hwd. cbn [c_int counters_of]. fold k. rewrite (proj2 (Z.ltb_lt _ _)) by lia.
      unfold counters_of. cbn. do 2 f_equal. lia. }
    apply ea_push_regs; try done; cbn [mIntRegs mSingleRegs mIntData mSingleData ea_with_ints vm']; try lia.
    + by split; cbn; [lia| |].
    + intros j Hj. rewrite Ho', Ho by lia. done.
    + by rewrite Enp.
    + rewrite Enp. split; [|unfold arg_size; rewrite Hwd; change (8 / 4) with 2; cbn; lia].
      cbn [fst holds mIntData vm' ea_with_ints]. rewrite Hwd. do 2 eexists. split; [rewrite Ho' by lia; exact Hd|]. split; [exact Hd'|].
      change (conv TInt ?z) with (wrapS 32 z). rewrite !wrapU_wrapS, two_words_of, conv_wrapU by (done || by destruct (a_ty a)). done.
  - destruct (ea_push_stack vm a y 8 Hi Hr ltac:(lia) Hy) as (vm' & Hp & Hpu).
    { unfold next_place. rewrite Hsg, Hwd. cbn [c_int counters_of]. by rewrite (proj2 (Z.ltb_ge _ _)) by lia. }
    exists vm'. split; [|done]. unfold arg_size in Hp. rewrite Hwd in Hp. exact Hp.
Qed.

Lemma push_arg_eabi vm a :
  ea_inv vm -> fits (mVecHead vm) -> arg_ok a -> exists vm', push_arg (C := C) vm a = Some vm' /\ ea_pushed vm vm' a.
Proof.
  destruct a as [t x]. intros Hi Hr Hx%val_ok_conv. cbn [a_ty a_val] in Hx. pose proof (conv_api_value t x) as E. rewrite Hx in E.
  assert (E4 : ty_bits t <= 32 -> conv t (conv TInt (api_value t x)) = x) by (intros; by rewrite conv_conv, E).
  assert (E8 : ty_bits t <= 64 -> conv t (conv TLongLong (api_value t x)) = x) by (intros; by rewrite conv_conv, E).
  pose proof (fun y => push_single vm (Arg t x) y Hi Hr) as HF. pose proof (fun y => push_dword vm (Arg t x) y Hi Hr) as HD.
  pose proof (fun y => push_int vm (Arg t x) y Hi Hr) as HI. cbn [a_ty a_val] in HF, HD, HI.
  destruct t;
    first [exact (HF x eq_refl Hx)|exact (HD x eq_refl Hx)|exact (HD _ eq_refl E)|exact (HD _ eq_refl (E8 ltac:(vm_compute; discriminate)))
          |exact (HI x eq_refl eq_refl Hx)|exact (HI _ eq_refl eq_refl E)|exact (HI _ eq_refl eq_refl (E4 ltac:(vm_compute; discriminate)))].
Qed.

(** ** Reading it back *)

Record ea_std (c : counters) (vf : DCCallVM_mips_eabi) (p : DCArgs) : Prop := {
  es_count : {| c_int := reg_count_i p; c_float := reg_count_f p; c_stack := stackptr p |} = c;
  es_regs : ireg_data p = mIntData vf /\ freg_data p = mSingleData vf;
  es_mem : prefix (vec_bytes (mVecHead vf)) (arg_mem p);
}.

(** A 64-bit value goes to registers only while the stack is aligned. *)
Definition regular (t : cty) (c : counters) : bool :=
  negb (is_wide t && (c_int c <? 7)) || (c_stack c mod 8 =? 0).

Lemma read_int_reg p w :
  reg_count_i p < 8 -> aget (reg_count_i p) (ireg_data p) = Some w ->
  dcbArgInt e cs p = Some (conv TInt w, ea_at (reg_count_i p + 1) (reg_count_f p) (stackptr p) p).
Proof. intros H8 Hw. unfold dcbArgInt. rewrite (proj2 (Z.ltb_lt _ _)) by done. by rewrite Hw. Qed.

Lemma read_int_stack p w :
  8 <= reg_count_i p -> rd (stackptr p) 4 (arg_mem p) = Some (enc e 4 w) ->
  dcbArgInt e cs p = Some (conv TInt w, ea_at (reg_count_i p) (reg_count_f p) (stackptr p + 4) p).
Proof.
  intros H8 Hw. unfold dcbArgInt. rewrite (proj2 (Z.ltb_ge _ _)) by done. rewrite Hw. cbn [mbind option_bind].
  by rewrite dec_enc, conv_wrapU.
Qed.

Lemma read_uint p w p' : dcbArgInt e cs p = Some (conv TInt w, p') -> dcbArgUInt e cs p = Some (wrapU 32 w, p').
Proof.
  intros H. unfold dcbArgUInt, mbind, SO_bind, mret, SO_ret. rewrite H. cbn [option_bind]. do 2 f_equal.
  change (conv TUInt (conv TInt w)) with (wrapU 32 (wrapS 32 w)). by rewrite wrapU_wrapS.
Qed.

Lemma join_two_words w0 w1 : join_words e (wrapU 32 w0) (wrapU 32 w1) = two_words e (wrapU 32 w0) (wrapU 32 w1).
Proof.
  destruct e; cbn [join_words two_words]; [rewrite Z.lor_comm|]; apply shiftl_lor, wrapU_range; lia.
Qed.

Lemma read_ulonglong p w0 w1 p1 p2 :
  dcbArgInt e cs (skip_odd p) = Some (conv TInt w0, p1) -> dcbArgInt e cs p1 = Some (conv TInt w1, p2) ->
  dcbArgULongLong e cs p = Some (conv TULongLong (two_words e (wrapU 32 w0) (wrapU 32 w1)), p2).
Proof.
  intros H0%read_uint H1%read_uint. unfold dcbArgULongLong, mbind, SO_bind, mret, SO_ret. rewrite H0. cbn [option_bind].
  rewrite H1. cbn [option_bind]. by rewrite join_two_words.
Qed.

Lemma skip_odd_ok p c vf :
  ea_std c vf p -> counters_ok c -> skip_odd p = ea_at (align_up (c_int c) 2) (c_float c) (align_up (c_stack c) 8) p.
Proof.
  intros [Hc _ _] [Hi _ [Hs Hm]]. subst c. cbn [c_int c_float c_stack] in *. unfold skip_odd.
  rewrite skip_register, land_4, align_up_8 by done. f_equal. f_equal. pose proof (Z.mod_pos_bound (stackptr p) 8 ltac:(lia)).
  assert (stackptr p mod 8 = 0 \/ stackptr p mod 8 = 4) as [-> | ->]; [|done..].
  pose proof (Z.div_mod (stackptr p) 4 ltac:(lia)). pose proof (Z.div_mod (stackptr p) 8 ltac:(lia)). lia.
Qed.

(** The values of integer types as [dcbArgInt], of 64-bit types as [dcbArgULongLong] gives them. *)
Lemma read_value t x w p p' :
  is_wide t = false -> is_single t = false -> conv t w = x -> dcbArgInt e cs p = Some (conv TInt w, p') ->
  dcbArg (ArgReader := RD) t p = Some (x, p').
Proof.
  intros Hwd Hsg Hw H. pose proof (read_uint _ _ _ H) as HU.
  assert (HC : ty_bits t <= 32 -> conv t (wrapU 32 w) = x) by (intros; by rewrite conv_wrapU).
  destruct t; try discriminate; cbn [dcbArg eabi_ArgReader];
    unfold dcbArgLong, dcbArgULong, dcbArgChar, dcbArgUChar, dcbArgShort, dcbArgUShort, dcbArgBool, dcbArgPointer,
      mbind, SO_bind, mret, SO_ret; rewrite ?HU, ?H; cbn [option_bind]; do 2 f_equal;
    first [exact Hw|apply HC; vm_compute; discriminate].
Qed.

Lemma read_wide_value t x z p p' :
  is_wide t = true -> conv t z = x -> dcbArgULongLong e cs p = Some (conv TULongLong z, p') ->
  dcbArg (ArgReader := RD) t p = Some (x, p').
Proof.
  intros Hwd Hz H.
  assert (HC : ty_bits t <= 64 -> conv t (conv TULongLong z) = x) by (intros; by rewrite conv_conv).
  destruct t; try discriminate; cbn [dcbArg eabi_ArgReader]; unfold dcbArgLongLong, dcbArgDouble, mbind, SO_bind, mret, SO_ret;
    rewrite H; cbn [option_bind]; do 2 f_equal; first [exact Hz|apply HC; vm_compute; discriminate].
Qed.

Lemma ea_read vf p a c :
  ea_std c vf p -> counters_ok c -> regular (a_ty a) c = true -> placed vf a (next_place is_single (a_ty a) c).1 ->
  exists p', dcbArg (ArgReader := RD) (a_ty a) p = Some (a_val a, p') /\ ea_std (next_place is_single (a_ty a) c).2 vf p'.
Proof.
  intros Hat Hok Hreg [Hh _]. pose proof (skip_odd_ok p c vf Hat Hok) as Hsk. destruct Hat as [Hc [Hid Hfd] Hm]. rewrite <- Hid, <- Hfd in Hh.
  destruct Hok as [Hci Hcf [Hcs Hcm]]. unfold next_place in *. destruct (is_single (a_ty a)) eqn:Hsg; [|destruct (is_wide (a_ty a)) eqn:Hwd].
  - assert (a_ty a = TFloat) as Et by by destruct (a_ty a). rewrite Et in *. cbn [dcbArg eabi_ArgReader]. unfold dcbArgFloat.
    subst c. cbn [c_int c_float c_stack] in *. destruct (Z.ltb_spec (reg_count_f p) 8).
    + cbn [fst snd holds] in *. rewrite Et in Hh. destruct Hh as (w & Hw & Hx). rewrite Hw. cbn [mbind option_bind].
      eexists. split; [by rewrite Hx|]. by split.
    + cbn [fst snd holds on_stack c_stack] in *. rewrite Et in Hh. destruct Hh as (y & Hw & Hx). unfold arg_size in *. cbn [is_wide] in *.
      rewrite align_up_id in Hw by (done || lia). apply (rd_prefix _ _ _ _ _ Hm) in Hw. change (Z.to_nat 4) with 4%nat in Hw.
      rewrite Hw. cbn [mbind option_bind]. eexists.
      split; [by rewrite dec_enc, conv_wrapU, Hx|]. split; try done. cbn. by rewrite align_up_id by (done || lia).
  - pose proof (align_up_mod (c_int c) 2 ltac:(lia)) as [q Hq]%Z.mod_divide; [|lia]. pose proof (align_up_bounds (c_int c) 2 ltac:(lia)).
    destruct (Z.ltb_spec (align_up (c_int c) 2) 8).
    + cbn [fst snd holds] in *. rewrite Hwd in Hh. destruct Hh as (w0 & w1 & Hw0 & Hw1 & Hx).
      unfold regular in Hreg. rewrite Hwd, (proj2 (Z.ltb_lt (c_int c) 7)) in Hreg by lia. cbn [andb negb orb] in Hreg. apply Z.eqb_eq in Hreg.
      rewrite (align_up_id (c_stack c) 8) in Hsk by (done || lia).
      eexists. split; [eapply (read_wide_value _ _ _ _ _ Hwd Hx), read_ulonglong;
        [rewrite Hsk; apply read_int_reg; [cbn; lia|exact Hw0]|apply read_int_reg; [cbn; lia|exact Hw1]]|].
      split; cbn; [f_equal; lia|done..].
    + cbn [fst snd holds on_stack c_stack c_float] in *. destruct Hh as (y & Hw & Hx). unfold arg_size in *. rewrite Hwd in *.
      apply (rd_prefix _ _ _ _ _ Hm) in Hw. destruct (rd_split 4 4 _ _ _ Hw) as [Hw0 Hw1]. rewrite enc_dword in Hw0, Hw1.
      rewrite take_app_length' in Hw0 by by rewrite length_enc. rewrite drop_app_length' in Hw1 by by rewrite length_enc.
      assert (Hx' : conv (a_ty a) (two_words e (wrapU 32 (first_word e y)) (wrapU 32 (second_word e y))) = a_val a)
        by (rewrite two_words_of, conv_wrapU by (by destruct (a_ty a)); exact Hx).
      eexists. split; [eapply (read_wide_value _ _ _ _ _ Hwd Hx'), read_ulonglong;
        [rewrite Hsk; apply read_int_stack; [cbn; lia|exact Hw0]|apply read_int_stack; [cbn; lia|exact Hw1]]|].
      split; cbn; [f_equal; lia|done..].
  - subst c. cbn [c_int c_float c_stack] in *. destruct (Z.ltb_spec (reg_count_i p) 8).
    + cbn [fst snd holds] in *. rewrite Hwd in Hh. destruct Hh as (w & Hw & Hx).
      eexists. split; [apply (read_value _ _ _ _ _ Hwd Hsg Hx); by apply read_int_reg|]. by split.
    + cbn [fst snd holds on_stack c_stack c_float] in *. destruct Hh as (y & Hw & Hx). unfold arg_size in *. rewrite Hwd in *.
      apply (rd_prefix _ _ _ _ _ Hm) in Hw. rewrite align_up_id in Hw by (done || lia).
      eexists. split; [apply (read_value _ _ _ _ _ Hwd Hsg Hx); apply read_int_stack; [lia|exact Hw]|].
      split; try done. cbn. rewrite align_up_id by (done || lia). f_equal. lia.
Qed.

Definition ea_room (vm : DCCallVM_mips_eabi) (a : arg) : Prop :=
  fits (mVecHead vm) /\ regular (a_ty a) (counters_of vm) = true.

Lemma eabi_step vm a :
  ea_inv vm -> ea_room vm a -> arg_ok a ->
  exists vm', push_arg (C := C) vm a = Some vm' /\ ea_inv vm' /\ ea_ext vm vm' /\
    forall vf p, ea_inv vf -> ea_ext vm' vf -> ea_std (counters_of vm) vf p ->
      exists p', dcbArg (ArgReader := RD) (a_ty a) p = Some (a_val a, p') /\ ea_std (counters_of vm') vf p'.
Proof.
  intros Hi [Hr Hreg] Ha. destruct (push_arg_eabi vm a Hi Hr Ha) as (vm' & Hp & [Hi' Hx Hc Hh _]). exists vm'. split_and!; try done.
  intros vf p _ Hxf Hat. rewrite Hc. apply ea_read; try done; [apply Hi|by eapply ea_placed_ext].
Qed.

#[export] Instance eabi_CallConv : CallConv DCCallVM_mips_eabi DCArgs (H := C) (H0 := RD) := {
  cc_inv := ea_inv;
  cc_room := ea_room;
  cc_ext := ea_ext;
  cc_at vm vf p := ea_std (counters_of vm) vf p;
  cc_ext_refl := ea_ext_refl;
  cc_ext_trans := ea_ext_trans;
  cc_step := eabi_step;
}.

(** ** Whole argument lists *)

(** Every 64-bit value in registers finds the stack aligned. *)
Fixpoint eabi_readable (ts : list cty) (c : counters) : bool :=
  match ts with
  | [] => true
  | t :: ts => regular t c && eabi_readable ts (next_place is_single t c).2
  end.

(** That holds if all [float]s are in registers. *)
Lemma few_floats_readable ts : forall c,
  counters_ok c -> c_float c + Z.of_nat (length (filter (fun t => is_single t) ts)) <= 8 ->
  (c_int c < 7 -> c_stack c mod 8 = 0) -> eabi_readable ts c = true.
Proof.
  induction ts as [|t ts IH]; intros c [Hi Hf [Hs Hm]] Hn Hst; [done|]. cbn [eabi_readable]. apply andb_true_intro. split.
  - unfold regular. destruct (is_wide t); [|done]. cbn [andb]. destruct (Z.ltb_spec (c_int c) 7); [|done].
    cbn [negb orb]. apply Z.eqb_eq. auto.
  - assert (En : length (filter (fun t => is_single t) (t :: ts)) = ((if is_single t then 1 else 0) + length (filter (fun t => is_single t) ts))%nat)
      by (rewrite filter_cons; by destruct (is_single t)).
    rewrite En in Hn. pose proof (align_up_bounds (c_int c) 2 ltac:(lia)).
    pose proof (align_up_mod (c_int c) 2 ltac:(lia)) as [q Hq]%Z.mod_divide; [|lia].
    unfold next_place, on_stack, arg_size. destruct (is_single t) eqn:Hsg; [|destruct (is_wide t) eqn:Hwd].
    + rewrite (proj2 (Z.ltb_lt _ _)) by lia. apply IH; cbn [snd c_float c_int c_stack]; [|lia|done].
      by split; cbn; [|lia|].
    + destruct (Z.ltb_spec (align_up (c_int c) 2) 8); apply IH; cbn [snd c_float c_int c_stack]; try lia.
      * by split; cbn; [lia| |].
      * pose proof (align_up_bounds (c_stack c) 8 ltac:(lia)).
        pose proof (align_up_mod (c_stack c) 8 ltac:(lia)) as [r Hr]%Z.mod_divide; [|lia]. split; cbn; [lia|done|]. split; [lia|].
        rewrite Hr. replace (r * 8 + 8) with ((2 * r + 2) * 4) by lia. by rewrite Z.mod_mul.
    + destruct (Z.ltb_spec (c_int c) 8); apply IH; cbn [snd c_float c_int c_stack]; try lia.
      * by split; cbn; [lia| |].
      * rewrite align_up_id by (done || lia). split; cbn; [lia|done|]. split; [lia|]. rewrite Z.add_mod, Hm by lia. done.
Qed.

Lemma push_list_eabi l : forall vm,
  ea_inv vm -> align_up (mSize (mVecHead vm)) 8 + 8 * Z.of_nat (length l) <= mTotal (mVecHead vm) -> Forall arg_ok l ->
  exists vf, push_args (C := C) vm l = Some vf /\ ea_inv vf /\ ea_ext vm vf /\
    mTotal (mVecHead vf) = mTotal (mVecHead vm) /\ length (vec_data (mVecHead vf)) = length (vec_data (mVecHead vm)) /\
    align_up (mSize (mVecHead vf)) 8 <= mTotal (mVecHead vf) /\
    (eabi_readable (map a_ty l) (counters_of vm) = true -> room_for (CC := eabi_CallConv) vm l) /\
    Forall2 (placed vf) l (places is_single (map a_ty l) (counters_of vm)).
Proof.
  induction l as [|a l IH]; intros vm Hi Hr Hl; [cbn in Hr; exists vm; split_and!; try done; try lia; constructor|].
  cbn [length] in Hr. apply Forall_cons in Hl as [Ha Hl]. assert (Hra : fits (mVecHead vm)) by (unfold fits; lia).
  destruct (push_arg_eabi vm a Hi Hra Ha) as (vm' & Hp & [Hi' Hx1 Hc Hh [Ht Hlen]]).
  pose proof (next_place_stack is_single (a_ty a) _ (ei_count vm Hi)) as Hst. rewrite <- Hc in Hst. cbn [counters_of c_stack] in Hst.
  destruct (IH vm' Hi') as (vf & Hpf & Hif & Hxf & Htf & Hlf & Hav & Hroom & Hall); [lia|done|].
  exists vf. split_and!; try congruence.
  - unfold push_args. cbn [foldM]. rewrite Hp. exact Hpf.
  - by eapply ea_ext_trans.
  - cbn [map eabi_readable]. intros [Hreg Hrd]%andb_prop. split; [by split|]. intros vm1 H1. rewrite Hp in H1. injection H1 as <-.
    apply Hroom. by rewrite Hc.
  - cbn [map places]. rewrite Hc in Hall. destruct (next_place is_single (a_ty a) (counters_of vm)) as [pl c'].
    constructor; [by eapply ea_placed_ext|done].
Qed.
End Eabi.
