(* ===== verification/MipsEabiProps.v ===== *)
(** * MIPS EABI: whole calls *)

From S2P Require Export MipsEabiProofs.

(** A callback, entered in state [cpu], that reads its arguments and returns a
    scalar. *)
Definition eabi_run_callback (e : endian) (cs : bool) (ts : list cty) (rt : cty) (f : list arg -> Z) (cpu : eabi_cpu)
    : option eabi_ret :=
  '(l, _) ← read_args (RD := eabi_ArgReader e cs) ts (dcCallbackThunkEntry cpu);
  result ← dcvalue_set e (DM := mips32_dm e cs) rt (f l) (callback_slot e);
  callback_exit e result.

Definition no_args : counters := {| c_int := 0; c_float := 0; c_stack := 0 |}.

(** Where the callee has its arguments. *)
Definition eabi_in (e : endian) (cs : bool) (cpu : eabi_cpu) : arg -> place -> Prop :=
  holds e cs (gprs cpu) (fprs cpu) (cpu_stack cpu).

(** What the VM is allocated with. *)
Record eabi_alloc (e : endian) (cs : bool) (vm : DCCallVM_mips_eabi) : Prop := {
  al_vec : vec_wf (DM := mips32_dm e cs) (mVecHead vm) /\ 0 <= mTotal (mVecHead vm);
  al_bytes : Forall is_byte (vec_data (mVecHead vm));
  al_regs : length (mIntData vm) = 8%nat /\ length (mSingleData vm) = 8%nat;
}.

Section Props.
Variable e : endian.
Variable cs : bool.
#[local] Hint Extern 0 DataModel => exact (mips32_dm e cs) : typeclass_instances.
#[local] Abbreviation C := (eabi_CallVM e cs).

Lemma eabi_result t x :
  val_ok t x -> exists result, dcvalue_set e t x (callback_slot e) = Some result /\
    exists r, callback_exit e result = Some r /\ ret_value e t r = x.
Proof.
  intros Hx. destruct (dcvalue_set_words e cs t x Hx) as (w0 & w1 & Hset & L0 & L1 & Hv). apply val_ok_conv in Hx.
  exists (w0 ++ w1). split; [exact Hset|]. unfold callback_exit.
  rewrite (rd0_app w0 w1 4) by done. rewrite (rd_app 4 4 w0 w1) by (rewrite ?L0; done).
  rewrite <- (app_nil_r (w0 ++ w1)), (rd0_app (w0 ++ w1) [] 8) by (rewrite length_app; lia).
  cbn [mbind option_bind]. eexists. split; [done|]. rewrite dec_words by done.
  destruct (is_wide t) eqn:Hwd.
  - destruct t; try discriminate Hwd; cbn [ret_value ret_2 ret_3]; rewrite Hv; (etrans; [by apply conv_wrapU|exact Hx]).
  - destruct t; try discriminate Hwd; destruct e; cbn [ret_value ret_2 ret_f0 two_words] in *; try exact Hv;
      (rewrite <- Hv; cbn [conv]; unfold wrapU; rewrite Z.mul_comm, Z.mod_add by lia; done).
Qed.

Lemma eabi_kernel_enter_ok target ints singles size k :
  Forall is_byte k -> 0 <= size -> align_up size 8 < 2 ^ 32 -> align_up size 8 <= Z.of_nat (length k) ->
  kernel_enter e (dcCall_mips_eabi target ints singles size k)
  = Some {| gprs := ints; fprs := singles; cpu_stack := take (Z.to_nat (align_up size 8)) k |}.
Proof.
  intros Hb Hs H32 Hl. unfold kernel_enter. cbn [k_size k_data k_ints k_singles]. rewrite round_up_8 by done.
  pose proof (align_up_bounds size 8 ltac:(lia)). pose proof (align_up_mod size 8 ltac:(lia)) as [q Hq]%Z.mod_divide; [|lia].
  destruct (load_stack_ok e (align_up size 8) k) as (ws & Hws & Hst); [done|lia|lia| |].
  { rewrite Hq. replace (q * 8) with (q * 2 * 4) by lia. by apply Z.mod_mul. }
  rewrite wrapU_id in Hws by (unfold in_u; lia). rewrite Hws. cbn [mbind option_bind]. by rewrite Hst.
Qed.

Definition eabi_reset (vm0 : DCCallVM_mips_eabi) : DCCallVM_mips_eabi :=
  ea_with_singles 0 (mSingleData vm0) (ea_with_ints 0 (mIntData vm0) (ea_with_vec (dcVecReset (mVecHead vm0)) vm0)).

(** C36: scalar calls on MIPS with the EABI, in either byte order, are transparent
    from end to end, and the arguments are where the ABI says.  For every argument
    list that fits the vector, a reset VM, given the arguments, enters the callee
    with every argument in its place: [float]s in the next of $f12-$f19, 64-bit
    values in a pair of $4-$11 that starts at an even one, others in the next of
    these, and what is left on the stack with natural alignment.  A callback
    entered like this reads exactly those arguments, and the caller gets its
    result, provided that every 64-bit value in registers comes when an even number
    of words is on the stack. *)
Theorem eabi_scalar_call_end_to_end vm0 l rt f target :
  eabi_alloc e cs vm0 -> 8 * Z.of_nat (length l) <= mTotal (mVecHead vm0) -> Forall arg_ok l -> val_ok rt (f l) ->
  exists vm vf cpu,
    dcReset (C := C) vm0 = Some vm /\ push_args (C := C) vm l = Some vf /\
    kernel_enter e (dcCall_as (C := C) rt vf target) = Some cpu /\
    Forall2 (eabi_in e cs cpu) l (places is_single (map a_ty l) no_args) /\
    (eabi_readable (map a_ty l) no_args = true ->
     exists r, eabi_run_callback e cs (map a_ty l) rt f cpu = Some r /\ ret_value e rt r = f l).
Proof.
  intros [[Hw Ht] Hb Hr] Hroom Hl Hf.
  assert (Hi : ea_inv e cs (eabi_reset vm0))
    by (destruct Hw; split; cbn; try done; repeat split; cbn; done).
  destruct (push_list_eabi e cs l (eabi_reset vm0) Hi) as (vf & Hp & Hif & _ & Htf & Hlf & Hav & Hrf & Hall);
    [change (align_up (mSize (mVecHead (eabi_reset vm0))) 8) with 0; cbn; lia|done|].
  pose proof Hif as [[[Hs0 Htot [_ Hw32]] _] Hbf _ _]. cbn in Hw32. unfold no_args.
  pose proof (align_up_bounds (mSize (mVecHead vf)) 8 ltac:(lia)) as Hab.
  assert (Hk : kernel_enter e (dcCall_as (C := C) rt vf target) = Some {| gprs := mIntData vf; fprs := mSingleData vf;
                 cpu_stack := take (Z.to_nat (align_up (mSize (mVecHead vf)) 8)) (vec_data (mVecHead vf)) |}).
  { assert (E : dcCall_as (C := C) rt vf target = dc_callvm_call_mips_eabi vf target) by by destruct rt. rewrite E.
    apply eabi_kernel_enter_ok; [done|done|lia|lia]. }
  eexists (eabi_reset vm0), vf, _. split_and!; [done|done|exact Hk| |].
  - eapply Forall2_impl; [exact Hall|]. intros a pl [Hh _]. unfold eabi_in. cbn [gprs fprs cpu_stack].
    destruct pl; try exact Hh. destruct Hh as (y & Hrd & Hc). exists y. split; [|done].
    eapply rd_prefix; [|exact Hrd]. apply take_prefix_take. lia.
  - intros Hreg. destruct (push_args_inv (CC := eabi_CallConv e cs) _ l Hi (Hrf Hreg) Hl) as (vf' & Hp' & _ & _ & Hread).
    rewrite Hp in Hp'. injection Hp' as <-. destruct (eabi_result rt (f l) Hf) as (result & Hset & r & Hexit & Hret).
    edestruct Hread as (p' & Hrd & _); [|exists r; split; [|exact Hret]; unfold eabi_run_callback; rewrite Hrd;
      cbn [mbind option_bind]; rewrite Hset; exact Hexit].
    split; cbn; [done|done|]. apply take_prefix_take. lia.
Qed.
End Props.
