(* ===== verification/Mips64.v ===== *)
(** * MIPS n64 and n32: call VMs, kernels, callbacks and argument access
      (dyncall/dyncall_callvm_mips_n64.{h,c}, dyncall_callvm_mips_n32.{h,c},
       dyncall_call_mips_n64.S, dyncall_call_mips_n32.S,
       dyncallback/dyncall_args_mips.h, dyncall_args_mips64.c,
       dyncall_callback_mips_n64.S, dyncall_thunk_mips64.c)

    Every argument takes one slot of eight bytes.  The first eight slots are
    registers, integer or floating-point ones after the type of the argument,
    and the register of the other kind is skipped.  There is no callback entry for
    n32, which always has hardware floating point. *)

From S2P Require Export Mips Floats.

(** [lb]: the width of [long] and of pointers, 64 with n64 and 32 with n32. *)
Definition mips64_dm (e : endian) (lb : Z) (char_signed : bool) : DataModel := {|
  dm_endian := e; dm_size_bits := lb; dm_long_bits := lb; dm_char_signed := char_signed
|}.

#[export] Instance n64_dm_ok e cs : DataModelOk (DM := mips64_dm e 64 cs).
Proof. split; cbn; auto. Qed.
#[export] Instance n32_dm_ok e cs : DataModelOk (DM := mips64_dm e 32 cs).
Proof. split; cbn; auto. Qed.

(** ** Argument access in a callback (dyncall_args_mips.h, dyncall_args_mips64.c)

    The registers hold doublewords.  Without hardware floating point [ireg_data]
    and [freg_data] are the same object. *)

Record DCArgs := { ireg_data : list Z; freg_data : list Z; reg_count : Z; stackptr : Z; arg_mem : list Z }.

Definition n_at (n sp : Z) (p : DCArgs) : DCArgs :=
  {| ireg_data := ireg_data p; freg_data := freg_data p; reg_count := n; stackptr := sp; arg_mem := arg_mem p |}.

Section Args.
Variable e : endian.
Variable char_signed : bool.
#[local] Hint Extern 0 DataModel => exact (mips64_dm e 64 char_signed) : typeclass_instances.

Definition dcbArgLongLong : SO DCArgs Z := fun p =>
  if reg_count p <? 8 then
    x ← aget (reg_count p) (ireg_data p); Some (conv TLongLong x, n_at (reg_count p + 1) (stackptr p) p)
  else
    bs ← rd (stackptr p) 8 (arg_mem p); Some (conv TLongLong (dec e bs), n_at (reg_count p) (stackptr p + 8) p).

Definition dcbArgULongLong : SO DCArgs Z := x ← dcbArgLongLong; mret (conv TULongLong x).
Definition dcbArgInt : SO DCArgs Z := x ← dcbArgLongLong; mret (conv TInt x).
Definition dcbArgUInt : SO DCArgs Z := x ← dcbArgLongLong; mret (conv TUInt x).
Definition dcbArgLong : SO DCArgs Z := x ← dcbArgLongLong; mret (conv TLong x).
Definition dcbArgULong : SO DCArgs Z := x ← dcbArgLongLong; mret (conv TULong x).
Definition dcbArgChar : SO DCArgs Z := x ← dcbArgLongLong; mret (conv TChar x).
Definition dcbArgUChar : SO DCArgs Z := x ← dcbArgLongLong; mret (conv TUChar x).
Definition dcbArgShort : SO DCArgs Z := x ← dcbArgLongLong; mret (conv TShort x).
Definition dcbArgUShort : SO DCArgs Z := x ← dcbArgLongLong; mret (conv TUShort x).
Definition dcbArgBool : SO DCArgs Z := x ← dcbArgLongLong; mret (conv TBool x).
Definition dcbArgPointer : SO DCArgs Z := x ← dcbArgLongLong; mret (conv TPointer x).

Definition dcbArgDouble : SO DCArgs Z := fun p =>
  if reg_count p <? 8 then
    x ← aget (reg_count p) (freg_data p); Some (conv TDouble x, n_at (reg_count p + 1) (stackptr p) p)
  else
    bs ← rd (stackptr p) 8 (arg_mem p); Some (conv TDouble (dec e bs), n_at (reg_count p) (stackptr p + 8) p).

(** Right-justified in the register (the index is 0 or 1 after the byte order),
    left-justified on the stack. *)
Definition dcbArgFloat : SO DCArgs Z := fun p =>
  if reg_count p <? 8 then
    x ← aget (reg_count p) (freg_data p);
    bs ← rd (match e with LittleEndian => 0 | BigEndian => 4 end) 4 (enc e 8 x);
    Some (conv TFloat (dec e bs), n_at (reg_count p + 1) (stackptr p) p)
  else
    bs ← rd (stackptr p) 4 (arg_mem p); Some (conv TFloat (dec e bs), n_at (reg_count p) (stackptr p + 8) p).

#[export] Instance n64_ArgReader : ArgReader DCArgs := {
  dcbArg t :=
    match t with
    | TBool => dcbArgBool | TChar => dcbArgChar | TUChar => dcbArgUChar
    | TShort => dcbArgShort | TUShort => dcbArgUShort | TInt => dcbArgInt
    | TUInt => dcbArgUInt | TLong => dcbArgLong | TULong => dcbArgULong
    | TLongLong => dcbArgLongLong | TULongLong => dcbArgULongLong
    | TFloat => dcbArgFloat | TDouble => dcbArgDouble
    | TPointer | TString => dcbArgPointer
    end;
}.
End Args.

(** ** Machine state, callbacks and thunks *)

(** $4-$11 and $f12-$f19 (with hardware floating point), as doublewords, and the
    stack of the callee. *)
Record mips64_cpu := { gprs : list Z; fprs : list Z; cpu_stack : list Z }.

Definition dcCallbackThunkEntry (hard : bool) (cpu : mips64_cpu) : DCArgs :=
  {| ireg_data := gprs cpu; freg_data := if hard then fprs cpu else gprs cpu; reg_count := 0; stackptr := 0;
     arg_mem := cpu_stack cpu |}.

Record mips64_ret := { ret_2 : Z; ret_f0 : Z }.

Definition callback_slot (e : endian) : list Z := enc e 8 0.

(** [r0]: the registers as the handler left them. *)
Definition callback_exit (e : endian) (hard : bool) (r0 : mips64_ret) (result : list Z) : option mips64_ret :=
  v ← rd 0 8 result;
  Some {| ret_2 := dec e v; ret_f0 := if hard then dec e v else ret_f0 r0 |}.

(** Members of a big-endian [DCValue] end at its eighth byte. *)
Definition dcvalue_off (e : endian) {DM : DataModel} (t : cty) : Z :=
  match e with LittleEndian => 0 | BigEndian => 8 - sizeof_cty t end.

Definition dcvalue_set (e : endian) {DM : DataModel} (t : cty) (x : Z) (result : list Z) : option (list Z) :=
  wr (dcvalue_off e t) (enc e (Z.to_nat (sizeof_cty t)) x) result.

Definition ret_value (hard : bool) {DM : DataModel} (t : cty) (r : mips64_ret) : Z :=
  conv t (if hard && is_float t then ret_f0 r else ret_2 r).

Definition b_48_63 (x : Z) : Z := wrapU 16 (Z.shiftr (wrapU 64 x) 48).
Definition b_32_47 (x : Z) : Z := wrapU 16 (Z.shiftr (wrapU 64 x) 32).
Definition b_16_31 (x : Z) : Z := wrapU 16 (Z.shiftr (wrapU 64 x) 16).
Definition b_00_15 (x : Z) : Z := wrapU 16 (wrapU 64 x).

Definition dcbInitThunk (e : endian) (p entry : Z) : list Z :=
  halves e 0x3c18 (b_48_63 p) ++ halves e 0x3718 (b_32_47 p) ++ enc e 4 0x0018c438
  ++ halves e 0x3718 (b_16_31 p) ++ enc e 4 0x0018c438
  ++ halves e 0x3c19 (b_48_63 entry) ++ halves e 0x3739 (b_32_47 entry) ++ enc e 4 0x0019cc38
  ++ halves e 0x3739 (b_16_31 entry) ++ enc e 4 0x0019cc38
  ++ halves e 0x3739 (b_00_15 entry) ++ enc e 4 0x03200008 ++ halves e 0x3718 (b_00_15 p).

(** ** The call VMs *)

(** The default table and the one for variable arguments. *)
Inductive mips64_vt := gVT_mips_p | gVT_mips_ellipsis_p.

(** [mFloatData] is the bytes of eight unions of [float] and [double]. *)
Record DCCallVM_mips_n64 := {
  n_mVTpointer : mips64_vt; n_mError : Z; mRegCount : Z;
  mIntData : list Z; mFloatData : list Z; mUseDouble : Z; mVecHead : DCVecHead
}.

Definition n_with_vt (vt : mips64_vt) (err : Z) (p : DCCallVM_mips_n64) : DCCallVM_mips_n64 :=
  {| n_mVTpointer := vt; n_mError := err; mRegCount := mRegCount p; mIntData := mIntData p; mFloatData := mFloatData p;
     mUseDouble := mUseDouble p; mVecHead := mVecHead p |}.
Definition n_with_vec (v : DCVecHead) (p : DCCallVM_mips_n64) : DCCallVM_mips_n64 :=
  {| n_mVTpointer := n_mVTpointer p; n_mError := n_mError p; mRegCount := mRegCount p; mIntData := mIntData p;
     mFloatData := mFloatData p; mUseDouble := mUseDouble p; mVecHead := v |}.
Definition n_with_regs (n : Z) (ints floats : list Z) (use : Z) (p : DCCallVM_mips_n64) : DCCallVM_mips_n64 :=
  {| n_mVTpointer := n_mVTpointer p; n_mError := n_mError p; mRegCount := n; mIntData := ints;
     mFloatData := floats; mUseDouble := use; mVecHead := mVecHead p |}.

(** [mIntData[mRegCount++] = x] *)
Definition put_int (x : Z) (p : DCCallVM_mips_n64) : option DCCallVM_mips_n64 :=
  d ← aset (mRegCount p) x (mIntData p);
  Some (n_with_regs (mRegCount p + 1) d (mFloatData p) (mUseDouble p) p).

(** [mFloatData[mRegCount++]], the member of these bytes. *)
Definition put_float (bs : list Z) (p : DCCallVM_mips_n64) : option DCCallVM_mips_n64 :=
  d ← wr (8 * mRegCount p) bs (mFloatData p);
  Some (n_with_regs (mRegCount p + 1) (mIntData p) d (mUseDouble p) p).

Definition use_double (p : DCCallVM_mips_n64) : DCCallVM_mips_n64 :=
  n_with_regs (mRegCount p) (mIntData p) (mFloatData p) (Z.lor (mUseDouble p) (Z.shiftl 1 (mRegCount p))) p.

Record mips64_kernel := dcCall_mips_n64 {
  k_target : Z; k_ints : list Z; k_floats : list Z; k_use_double : Z; k_size : Z; k_data : list Z
}.

(** A [double], or a [float] in the low word ([up]: what the load leaves above it). *)
Definition load_fpr (e : endian) (up : Z -> Z) (floats : list Z) (use : Z) (i : Z) : option Z :=
  if Z.testbit use i
  then bs ← rd (8 * i) 8 floats; Some (dec e bs)
  else bs ← rd (8 * i) 4 floats; Some (dec e bs + 2 ^ 32 * wrapU 32 (up i)).

(** The copy loop counts the size down to zero, eight bytes at a time. *)
Definition kernel_enter (e : endian) (hard : bool) (up : Z -> Z) (k : mips64_kernel) : option mips64_cpu :=
  if k_size k mod 8 =? 0 then
    stack ← load_words e 8 (Z.to_nat (k_size k / 8)) 0 (k_data k);
    f ← (if hard then mapM (load_fpr e up (k_floats k) (k_use_double k)) (seqZ 0 8) else Some []);
    Some {| gprs := k_ints k; fprs := f; cpu_stack := store_words e 8 stack |}
  else None.

(** *** n64 *)

Section N64.
Variable e : endian.
Variable lb : Z.
Variable hard : bool.
Variable char_signed : bool.
#[local] Hint Extern 0 DataModel => exact (mips64_dm e lb char_signed) : typeclass_instances.

Definition dc_callvm_free_mips_n64 (_ : DCCallVM_mips_n64) : unit := tt.
Definition dc_callvm_reset_mips_n64 (self : DCCallVM_mips_n64) : option DCCallVM_mips_n64 :=
  Some (n_with_regs 0 (mIntData self) (mFloatData self) (if hard then 0 else mUseDouble self)
         (n_with_vec (dcVecReset (mVecHead self)) self)).

Definition n_append (self : DCCallVM_mips_n64) (bs : list Z) : option DCCallVM_mips_n64 :=
  v ← dcVecAppend (mVecHead self) bs (Z.of_nat (length bs)); Some (n_with_vec v self).
Definition n_skip (self : DCCallVM_mips_n64) (size : Z) : DCCallVM_mips_n64 :=
  n_with_vec (dcVecSkip (mVecHead self) size) self.

Definition dc_callvm_argLongLong_mips_n64 (self : DCCallVM_mips_n64) (x : Z) : option DCCallVM_mips_n64 :=
  if mRegCount self <? 8 then put_int x self else n_append self (enc e 8 x).
Definition dc_callvm_argInt_mips_n64 (self : DCCallVM_mips_n64) (x : Z) := dc_callvm_argLongLong_mips_n64 self (conv TLongLong x).
Definition dc_callvm_argPointer_mips_n64 (self : DCCallVM_mips_n64) (x : Z) := dc_callvm_argLongLong_mips_n64 self (conv TLongLong x).
Definition dc_callvm_argBool_mips_n64 (self : DCCallVM_mips_n64) (x : Z) := dc_callvm_argLongLong_mips_n64 self (conv TLongLong x).
Definition dc_callvm_argChar_mips_n64 (self : DCCallVM_mips_n64) (x : Z) := dc_callvm_argLongLong_mips_n64 self (conv TLongLong x).
Definition dc_callvm_argShort_mips_n64 (self : DCCallVM_mips_n64) (x : Z) := dc_callvm_argLongLong_mips_n64 self (conv TLongLong x).
Definition dc_callvm_argLong_mips_n64 (self : DCCallVM_mips_n64) (x : Z) := dc_callvm_argLongLong_mips_n64 self (conv TLongLong x).

Definition dc_callvm_argDouble_mips_n64 (self : DCCallVM_mips_n64) (x : Z) : option DCCallVM_mips_n64 :=
  if hard then
    if mRegCount self <? 8 then put_float (enc e 8 x) (use_double self) else n_append self (enc e 8 x)
  else dc_callvm_argLongLong_mips_n64 self (conv TLongLong x).

(** Without hardware floating point, the doubleword of the array [f]. *)
Definition dc_callvm_argFloat_mips_n64 (self : DCCallVM_mips_n64) (x : Z) : option DCCallVM_mips_n64 :=
  if hard then
    if mRegCount self <? 8 then put_float (enc e 4 x) self
    else self ← n_append self (enc e 4 x); Some (n_skip self 4)
  else
    let f := match e with
             | BigEndian => if mRegCount self <? 8 then (0, x) else (x, 0)
             | LittleEndian => (x, 0)
             end in
    dc_callvm_argLongLong_mips_n64 self (conv TLongLong (dec e (enc e 4 f.1 ++ enc e 4 f.2))).

Definition dc_callvm_argDouble_mips_n64_ellipsis (self : DCCallVM_mips_n64) (x : Z) :=
  dc_callvm_argLongLong_mips_n64 self (conv TLongLong x).
Definition dc_callvm_argFloat_mips_n64_ellipsis (self : DCCallVM_mips_n64) (x : Z) :=
  dc_callvm_argDouble_mips_n64_ellipsis self (f2d x).

Definition dc_callvm_call_mips_n64 (self : DCCallVM_mips_n64) (target : Z) : mips64_kernel :=
  let size := Z.max 16 (Z.land (size_t (wrapU 32 (dcVecSize (mVecHead self)) + 7)) (size_t (-8))) in
  dcCall_mips_n64 target (mIntData self) (mFloatData self) (mUseDouble self) size (vec_data (mVecHead self)).

Definition dc_callvm_mode_mips_n64 (self : DCCallVM_mips_n64) (mode : Z) : option DCCallVM_mips_n64 :=
  Some
    (if (mode =? DC_CALL_C_DEFAULT) || (mode =? DC_CALL_C_DEFAULT_THIS) || (mode =? DC_CALL_C_MIPS64_N64)
        || (mode =? DC_CALL_C_ELLIPSIS) then n_with_vt gVT_mips_p DC_ERROR_NONE self
     else if mode =? DC_CALL_C_ELLIPSIS_VARARGS then n_with_vt gVT_mips_ellipsis_p DC_ERROR_NONE self
     else n_with_vt (n_mVTpointer self) DC_ERROR_UNSUPPORTED_MODE self).

Definition gVT_mips_n64 : DCCallVM_vt DCCallVM_mips_n64 mips64_kernel mips64_ret := Build_DCCallVM_vt
  dc_callvm_free_mips_n64 dc_callvm_reset_mips_n64 dc_callvm_mode_mips_n64
  dc_callvm_argBool_mips_n64 dc_callvm_argChar_mips_n64 dc_callvm_argShort_mips_n64 dc_callvm_argInt_mips_n64
  dc_callvm_argLong_mips_n64 dc_callvm_argLongLong_mips_n64 dc_callvm_argFloat_mips_n64
  dc_callvm_argDouble_mips_n64 dc_callvm_argPointer_mips_n64
  None (* argAggr *)
  dc_callvm_call_mips_n64 dc_callvm_call_mips_n64 dc_callvm_call_mips_n64 dc_callvm_call_mips_n64
  dc_callvm_call_mips_n64 dc_callvm_call_mips_n64 dc_callvm_call_mips_n64 dc_callvm_call_mips_n64
  dc_callvm_call_mips_n64 dc_callvm_call_mips_n64
  None (* callAggr *)
  None (* beginAggr *).

Definition gVT_mips_n64_ellipsis : DCCallVM_vt DCCallVM_mips_n64 mips64_kernel mips64_ret := Build_DCCallVM_vt
  dc_callvm_free_mips_n64 dc_callvm_reset_mips_n64 dc_callvm_mode_mips_n64
  dc_callvm_argBool_mips_n64 dc_callvm_argChar_mips_n64 dc_callvm_argShort_mips_n64 dc_callvm_argInt_mips_n64
  dc_callvm_argLong_mips_n64 dc_callvm_argLongLong_mips_n64 dc_callvm_argFloat_mips_n64_ellipsis
  dc_callvm_argDouble_mips_n64_ellipsis dc_callvm_argPointer_mips_n64
  None (* argAggr *)
  dc_callvm_call_mips_n64 dc_callvm_call_mips_n64 dc_callvm_call_mips_n64 dc_callvm_call_mips_n64
  dc_callvm_call_mips_n64 dc_callvm_call_mips_n64 dc_callvm_call_mips_n64 dc_callvm_call_mips_n64
  dc_callvm_call_mips_n64 dc_callvm_call_mips_n64
  None (* callAggr *)
  None (* beginAggr *).

(** [dcNewCallVM]: [alloc] is the memory behind the header, of the requested size. *)
Definition dcNewCallVM (mem : DCCallVM_mips_n64) (alloc : option (list Z)) (size : Z) : option DCCallVM_mips_n64 :=
  alloc ← alloc;
  p ← dc_callvm_mode_mips_n64 mem DC_CALL_C_DEFAULT;
  dc_callvm_reset_mips_n64 (n_with_vec (dcVecInit alloc size) p).

#[export] Instance n64_CallVM : CallVM DCCallVM_mips_n64 mips64_vt mips64_kernel mips64_ret := {
  mVTpointer := n_mVTpointer;
  mError := n_mError;
  deref vt := match vt with gVT_mips_p => gVT_mips_n64 | gVT_mips_ellipsis_p => gVT_mips_n64_ellipsis end;
}.
End N64.

(** *** n32 *)

(** The VM has the members of the n64 one, and the kernel its instructions. *)
Definition DCCallVM_mips_n32 := DCCallVM_mips_n64.

Section N32.
Variable e : endian.
(** What follows the parameter in memory when its address is read as a [DClonglong]. *)
Variable beyond : list Z.
Variable char_signed : bool.
#[local] Hint Extern 0 DataModel => exact (mips64_dm e 32 char_signed) : typeclass_instances.

Definition dc_callvm_free_mips_n32 (_ : DCCallVM_mips_n32) : unit := tt.
Definition dc_callvm_reset_mips_n32 (self : DCCallVM_mips_n32) : option DCCallVM_mips_n32 :=
  Some (n_with_regs 0 (mIntData self) (mFloatData self) 0
         (n_with_vec (dcVecReset (mVecHead self)) self)).

Definition n32_append (self : DCCallVM_mips_n32) (bs : list Z) : option DCCallVM_mips_n32 :=
  v ← dcVecAppend (mVecHead self) bs (Z.of_nat (length bs)); Some (n_with_vec v self).
Definition n32_skip (self : DCCallVM_mips_n32) (size : Z) : DCCallVM_mips_n32 :=
  n_with_vec (dcVecSkip (mVecHead self) size) self.

Definition dc_callvm_argLongLong_mips_n32 (self : DCCallVM_mips_n32) (x : Z) : option DCCallVM_mips_n32 :=
  if mRegCount self <? 8 then put_int x self else n32_append self (enc e 8 x).
Definition dc_callvm_argInt_mips_n32 (self : DCCallVM_mips_n32) (x : Z) := dc_callvm_argLongLong_mips_n32 self (conv TLongLong x).
(** [*(DClonglong* )&x] reads eight bytes of a parameter of four. *)
Definition dc_callvm_argPointer_mips_n32 (self : DCCallVM_mips_n32) (x : Z) :=
  dc_callvm_argLongLong_mips_n32 self (conv TLongLong (dec e (enc e 4 x ++ beyond))).
Definition dc_callvm_argBool_mips_n32 (self : DCCallVM_mips_n32) (x : Z) := dc_callvm_argLongLong_mips_n32 self (conv TLongLong x).
Definition dc_callvm_argChar_mips_n32 (self : DCCallVM_mips_n32) (x : Z) := dc_callvm_argLongLong_mips_n32 self (conv TLongLong x).
Definition dc_callvm_argShort_mips_n32 (self : DCCallVM_mips_n32) (x : Z) := dc_callvm_argLongLong_mips_n32 self (conv TLongLong x).
Definition dc_callvm_argLong_mips_n32 (self : DCCallVM_mips_n32) (x : Z) := dc_callvm_argLongLong_mips_n32 self (conv TLongLong x).

Definition dc_callvm_argDouble_mips_n32 (self : DCCallVM_mips_n32) (x : Z) : option DCCallVM_mips_n32 :=
  if mRegCount self <? 8 then put_float (enc e 8 x) (use_double self) else n32_append self (enc e 8 x).

Definition dc_callvm_argFloat_mips_n32 (self : DCCallVM_mips_n32) (x : Z) : option DCCallVM_mips_n32 :=
  if mRegCount self <? 8 then put_float (enc e 4 x) self
  else self ← n32_append self (enc e 4 x); Some (n32_skip self 4).

Definition dc_callvm_argDouble_mips_n32_ellipsis (self : DCCallVM_mips_n32) (x : Z) :=
  dc_callvm_argLongLong_mips_n32 self (conv TLongLong x).
Definition dc_callvm_argFloat_mips_n32_ellipsis (self : DCCallVM_mips_n32) (x : Z) :=
  dc_callvm_argDouble_mips_n32_ellipsis self (f2d x).

Definition dc_callvm_call_mips_n32 (self : DCCallVM_mips_n32) (target : Z) : mips64_kernel :=
  let size := Z.max 16 (Z.land (size_t (wrapU 32 (dcVecSize (mVecHead self)) + 7)) (size_t (-8))) in
  dcCall_mips_n64 target (mIntData self) (mFloatData self) (mUseDouble self) size (vec_data (mVecHead self)).

Definition dc_callvm_mode_mips_n32 (self : DCCallVM_mips_n32) (mode : Z) : option DCCallVM_mips_n32 :=
  Some
    (if (mode =? DC_CALL_C_DEFAULT) || (mode =? DC_CALL_C_DEFAULT_THIS) || (mode =? DC_CALL_C_MIPS64_N32)
        || (mode =? DC_CALL_C_ELLIPSIS) then n_with_vt gVT_mips_p DC_ERROR_NONE self
     else if mode =? DC_CALL_C_ELLIPSIS_VARARGS then n_with_vt gVT_mips_ellipsis_p DC_ERROR_NONE self
     else n_with_vt (n_mVTpointer self) DC_ERROR_UNSUPPORTED_MODE self).

Definition gVT_mips_n32 : DCCallVM_vt DCCallVM_mips_n32 mips64_kernel mips64_ret := Build_DCCallVM_vt
  dc_callvm_free_mips_n32 dc_callvm_reset_mips_n32 dc_callvm_mode_mips_n32
  dc_callvm_argBool_mips_n32 dc_callvm_argChar_mips_n32 dc_callvm_argShort_mips_n32 dc_callvm_argInt_mips_n32
  dc_callvm_argLong_mips_n32 dc_callvm_argLongLong_mips_n32 dc_callvm_argFloat_mips_n32
  dc_callvm_argDouble_mips_n32 dc_callvm_argPointer_mips_n32
  None (* argAggr *)
  dc_callvm_call_mips_n32 dc_callvm_call_mips_n32 dc_callvm_call_mips_n32 dc_callvm_call_mips_n32
  dc_callvm_call_mips_n32 dc_callvm_call_mips_n32 dc_callvm_call_mips_n32 dc_callvm_call_mips_n32
  dc_callvm_call_mips_n32 dc_callvm_call_mips_n32
  None (* callAggr *)
  None (* beginAggr *).

Definition gVT_mips_n32_ellipsis : DCCallVM_vt DCCallVM_mips_n32 mips64_kernel mips64_ret := Build_DCCallVM_vt
  dc_callvm_free_mips_n32 dc_callvm_reset_mips_n32 dc_callvm_mode_mips_n32
  dc_callvm_argBool_mips_n32 dc_callvm_argChar_mips_n32 dc_callvm_argShort_mips_n32 dc_callvm_argInt_mips_n32
  dc_callvm_argLong_mips_n32 dc_callvm_argLongLong_mips_n32 dc_callvm_argFloat_mips_n32_ellipsis
  dc_callvm_argDouble_mips_n32_ellipsis dc_callvm_argPointer_mips_n32
  None (* argAggr *)
  dc_callvm_call_mips_n32 dc_callvm_call_mips_n32 dc_callvm_call_mips_n32 dc_callvm_call_mips_n32
  dc_callvm_call_mips_n32 dc_callvm_call_mips_n32 dc_callvm_call_mips_n32 dc_callvm_call_mips_n32
  dc_callvm_call_mips_n32 dc_callvm_call_mips_n32
  None (* callAggr *)
  None (* beginAggr *).

(** [dcNewCallVM_n32]: [alloc] is the memory behind the header, of the requested size. *)
Definition dcNewCallVM_n32 (mem : DCCallVM_mips_n32) (alloc : option (list Z)) (size : Z) : option DCCallVM_mips_n32 :=
  alloc ← alloc;
  p ← dc_callvm_mode_mips_n32 mem DC_CALL_C_DEFAULT;
  dc_callvm_reset_mips_n32 (n_with_vec (dcVecInit alloc size) p).

#[export] Instance n32_CallVM : CallVM DCCallVM_mips_n32 mips64_vt mips64_kernel mips64_ret := {
  mVTpointer := n_mVTpointer;
  mError := n_mError;
  deref vt := match vt with gVT_mips_p => gVT_mips_n32 | gVT_mips_ellipsis_p => gVT_mips_n32_ellipsis end;
}.
End N32.
