(* ===== verification/Mips64Proofs.v ===== *)
(** * MIPS n64 and n32: calls and callbacks agree

    Argument [k] of a call has slot [k]: register [k] of its kind, or the eight
    bytes from [8 * (k - 8)] on of the stack. *)

From S2P Require Export Mips64.

(** The bytes of its slot on the stack, or in the union, that a value takes. *)
Definition used_bytes (t : cty) : nat := match t with TFloat => 4 | _ => 8 end.

Lemma used_bytes_cases t : used_bytes t = 4%nat \/ used_bytes t = 8%nat.
Proof. destruct t; auto. Qed.

(** ** What is where *)

Section Places.
Variable e : endian.
Variable lb : Z.
Variable hard : bool.
Variable cs : bool.
#[local] Hint Extern 0 DataModel => exact (mips64_dm e lb cs) : typeclass_instances.
Context {OK : DataModelOk (DM := mips64_dm e lb cs)}.

(** In register [k]. *)
Definition in_reg (ints floats : list Z) (a : arg) (k : Z) : Prop :=
  exists w, aget k (if hard && is_float (a_ty a) then floats else ints) = Some w /\ conv (a_ty a) w = a_val a.

(** On the stack. *)
Definition in_stack (mem : list Z) (a : arg) (k : Z) : Prop :=
  exists y, rd (8 * (k - 8)) (used_bytes (a_ty a)) mem = Some (enc e (used_bytes (a_ty a)) y) /\ conv (a_ty a) y = a_val a.

Definition n64_in (cpu : mips64_cpu) (a : arg) (k : Z) : Prop :=
  if k <? 8 then in_reg (gprs cpu) (fprs cpu) a k else in_stack (cpu_stack cpu) a k.

(** What the VM has for register [k]. *)
Definition vm_reg (vm : DCCallVM_mips_n64) (a : arg) (k : Z) : Prop :=
  if hard && is_float (a_ty a)
  then rd (8 * k) (used_bytes (a_ty a)) (mFloatData vm) = Some (enc e (used_bytes (a_ty a)) (a_val a)) /\
       Z.testbit (mUseDouble vm) k = is_wide (a_ty a) /\ conv (a_ty a) (a_val a) = a_val a
  else exists w, aget k (mIntData vm) = Some w /\ conv (a_ty a) w = a_val a.

Definition placed (vm : DCCallVM_mips_n64) (a : arg) (k : Z) : Prop :=
  if k <? 8 then 0 <= k < mRegCount vm /\ vm_reg vm a k else in_stack (vec_bytes (mVecHead vm)) a k.

Record n_inv (vm : DCCallVM_mips_n64) : Prop := {
  ni_vt : n_mVTpointer vm = gVT_mips_p;
  ni_vec : vec_wf (mVecHead vm) /\ vec_room (mVecHead vm) 0;
  ni_bytes : Forall is_byte (vec_data (mVecHead vm));
  ni_slots : mSize (mVecHead vm) mod 8 = 0;
  ni_count : 0 <= mRegCount vm <= 8 /\ (mRegCount vm < 8 -> mSize (mVecHead vm) = 0);
  ni_len : length (mIntData vm) = 8%nat /\ (hard = true -> length (mFloatData vm) = 64%nat);
  ni_use : hard = true -> forall j, mRegCount vm <= j -> Z.testbit (mUseDouble vm) j = false;
}.

Record n_ext (vm vm' : DCCallVM_mips_n64) : Prop := {
  nx_bytes : prefix (vec_bytes (mVecHead vm)) (vec_bytes (mVecHead vm'));
  nx_count : mRegCount vm <= mRegCount vm';
  nx_ints : forall k, 0 <= k < mRegCount vm -> aget k (mIntData vm') = aget k (mIntData vm);
  nx_floats : forall k n, 0 <= k < mRegCount vm -> (n <= 8)%nat -> rd (8 * k) n (mFloatData vm') = rd (8 * k) n (mFloatData vm);
  nx_use : forall k, 0 <= k < mRegCount vm -> Z.testbit (mUseDouble vm') k = Z.testbit (mUseDouble vm) k;
}.

Lemma n_ext_refl vm : n_ext vm vm.
Proof. by split. Qed.

Lemma n_ext_trans a b c : n_ext a b -> n_ext b c -> n_ext a c.
Proof.
  intros [H1 H2 H3 H4 H5] [G1 G2 G3 G4 G5]. split; [by etrans|lia|..]; intros k.
  - intros Hk. by rewrite G3, H3 by lia.
  - intros n Hk Hn. by rewrite G4, H4 by lia.
  - intros Hk. by rewrite G5, H5 by lia.
Qed.

Lemma n_placed_ext vm vm' a k : n_ext vm vm' -> placed vm a k -> placed vm' a k.
Proof.
  intros [Hb Hc Hi Hf Hu]. unfold placed, vm_reg. destruct (k <? 8).
  - intros [Hk Hp]. split; [lia|]. destruct (hard && is_float (a_ty a)).
    + rewrite Hf, Hu by (lia || destruct (used_bytes_cases (a_ty a)); lia). exact Hp.
    + rewrite Hi by lia. exact Hp.
  - intros (y & Hrd & Hy). exists y. split; [by eapply rd_prefix|done].
Qed.

(** The slot of the next argument. *)
Definition next_slot (vm : DCCallVM_mips_n64) : Z := mRegCount vm + mSize (mVecHead vm) / 8.

Record n_pushed (vm vm' : DCCallVM_mips_n64) (a : arg) : Prop := {
  np_inv : n_inv vm';
  np_ext : n_ext vm vm';
  np_place : placed vm' a (next_slot vm);
  np_next : next_slot vm' = next_slot vm + 1;
  np_size : mSize (mVecHead vm') <= mSize (mVecHead vm) + 8;
  np_state : (mRegCount vm < 8 -> mRegCount vm' = mRegCount vm + 1 /\ mSize (mVecHead vm') = mSize (mVecHead vm)) /\
             (8 <= mRegCount vm -> mRegCount vm' = mRegCount vm /\ mSize (mVecHead vm') = mSize (mVecHead vm) + 8);
  np_same : mTotal (mVecHead vm') = mTotal (mVecHead vm) /\
            length (vec_data (mVecHead vm')) = length (vec_data (mVecHead vm));
}.

(** ** Pushing an argument *)

(** On the stack, whatever brings the slot there. *)
Lemma n_push_stack vm a w y :
  n_inv vm -> 8 <= mRegCount vm -> vec_wf w -> mTotal w = mTotal (mVecHead vm) -> mSize w = mSize (mVecHead vm) + 8 ->
  mSize w <= mTotal w -> length (vec_data w) = length (vec_data (mVecHead vm)) -> Forall is_byte (vec_data w) ->
  prefix (vec_bytes (mVecHead vm)) (vec_bytes w) -> conv (a_ty a) y = a_val a ->
  rd (mSize (mVecHead vm)) (used_bytes (a_ty a)) (vec_bytes w) = Some (enc e (used_bytes (a_ty a)) y) ->
  n_pushed vm (n_with_vec w vm) a.
Proof.
  intros [Hv [Hw _] Hb Hm [Hc1 Hc2] Hl Hu] H8 Hww Ht Hs Hr Hlen Hbw Hpre Hy Hrd.
  pose proof (Z.div_mod (mSize (mVecHead vm)) 8 ltac:(lia)) as Hd.
  assert (Hnext : mSize w / 8 = mSize (mVecHead vm) / 8 + 1)
    by (rewrite Hs; replace (mSize (mVecHead vm) + 8) with (mSize (mVecHead vm) + 1 * 8) by lia; by rewrite Z.div_add by lia).
  destruct Hww as [Hw0 Hw1 Hw2]. split; unfold next_slot; cbn; try done; try lia.
  - split; cbn; try done; [split; [done|unfold vec_room; lia]|rewrite Hs|split; [lia|lia]].
    rewrite Z.add_mod, Hm by lia. done.
  - destruct Hw as [Hs0 _ _]. pose proof (Z.div_pos (mSize (mVecHead vm)) 8 Hs0 ltac:(lia)).
    unfold placed. cbn. rewrite (proj2 (Z.ltb_ge _ _)) by lia.
    exists y. split; [|done]. rewrite <- Hrd. f_equal. lia.
Qed.

Lemma n_append_ok vm bs :
  n_inv vm -> vec_room (mVecHead vm) (Z.of_nat (length bs)) -> Forall is_byte bs ->
  exists w, n_append e lb cs vm bs = Some (n_with_vec w vm) /\ vec_wf w /\ mTotal w = mTotal (mVecHead vm) /\
    mSize w = mSize (mVecHead vm) + Z.of_nat (length bs) /\ length (vec_data w) = length (vec_data (mVecHead vm)) /\
    Forall is_byte (vec_data w) /\ vec_bytes w = vec_bytes (mVecHead vm) ++ bs.
Proof.
  intros [_ [Hw H0] Hb _ _ _ _] Hr Hbs. unfold n_append.
  destruct (dcVecAppend_ok (mVecHead vm) bs (Z.of_nat (length bs)) Hw) as (w & Hv & Hww & Ht & Hs & Hl & Hbw & _); [done|done|].
  rewrite Hv. cbn [mbind option_bind]. exists w. split_and!; try done. eapply dcVecAppend_bytes; [exact Hv|done|done].
Qed.

(** Eight bytes, of which the first ones are the value. *)
Lemma n_push_append vm a bs y :
  n_inv vm -> 8 <= mRegCount vm -> vec_room (mVecHead vm) 8 -> length bs = 8%nat -> Forall is_byte bs ->
  take (used_bytes (a_ty a)) bs = enc e (used_bytes (a_ty a)) y -> conv (a_ty a) y = a_val a ->
  exists vm', n_append e lb cs vm bs = Some vm' /\ n_pushed vm vm' a.
Proof.
  intros Hi H8 Hr Hl Hb Ht Hy. pose proof (ni_vec vm Hi) as [Hw H0].
  destruct (n_append_ok vm bs Hi) as (w & -> & Hww & Htw & Hsw & Hlw & Hbw & Hby); [by rewrite Hl|done|].
  eexists. split; [done|]. rewrite Hl in Hsw. unfold vec_room in Hr.
  apply (n_push_stack _ _ _ y); try done; [lia|rewrite Hby; by apply prefix_app_r|].
  rewrite Hby, <- Ht. assert (E : rd (mSize (mVecHead vm)) 8 (vec_bytes (mVecHead vm) ++ bs) = Some bs)
    by (apply rd_app; [by rewrite length_vec_bytes|done]).
  destruct (used_bytes_cases (a_ty a)) as [-> | ->]; [by destruct (rd_split 4 4 _ _ _ E)|by rewrite take_ge by lia].
Qed.

(** Four bytes, and four more that are left as they are. *)
Lemma n_push_float_stack vm a :
  n_inv vm -> 8 <= mRegCount vm -> vec_room (mVecHead vm) 8 -> a_ty a = TFloat -> arg_ok a ->
  exists vm', (self ← n_append e lb cs vm (enc e 4 (a_val a)); Some (n_skip e lb cs self 4)) = Some vm' /\ n_pushed vm vm' a.
Proof.
  intros Hi H8 Hr Et Hx%val_ok_conv. pose proof (ni_vec vm Hi) as [Hw H0]. unfold vec_room in Hr.
  destruct (n_append_ok vm (enc e 4 (a_val a)) Hi) as (w & -> & Hww & Htw & Hsw & Hlw & Hbw & Hby);
    [rewrite length_enc; unfold vec_room; lia|apply enc_bytes|]. rewrite length_enc in Hsw.
  cbn [mbind option_bind]. unfold n_skip. cbn [mVecHead n_with_vec].
  rewrite dcVecSkip_ok by (try done; unfold vec_room; lia).
  destruct (dcVecResize_forward w (mSize w + 4) Hww ltac:(lia)) as [Hw' Hpre].
  eexists. split; [done|]. change (n_with_vec ?x (n_with_vec _ ?v)) with (n_with_vec x v).
  assert (Hp : prefix (vec_bytes (mVecHead vm) ++ enc e 4 (a_val a)) (vec_bytes (dcVecResize w (mSize w + 4)))) by by rewrite <- Hby.
  apply (n_push_stack _ _ _ (a_val a)); cbn [dcVecResize mTotal mSize vec_data]; try done; try lia.
  - etrans; [|exact Hp]. by apply prefix_app_r.
  - rewrite Et. cbn [used_bytes]. eapply rd_prefix; [exact Hp|]. apply rd_app; [by rewrite length_vec_bytes|by rewrite length_enc].
Qed.

(** In a register. *)
Lemma n_push_reg vm vm' a :
  n_inv vm -> mRegCount vm < 8 -> n_mVTpointer vm' = n_mVTpointer vm -> mVecHead vm' = mVecHead vm ->
  mRegCount vm' = mRegCount vm + 1 -> length (mIntData vm') = 8%nat -> (hard = true -> length (mFloatData vm') = 64%nat) ->
  (forall k, 0 <= k < mRegCount vm -> aget k (mIntData vm') = aget k (mIntData vm)) ->
  (forall k n, 0 <= k < mRegCount vm -> (n <= 8)%nat -> rd (8 * k) n (mFloatData vm') = rd (8 * k) n (mFloatData vm)) ->
  (forall k, k <> mRegCount vm -> Z.testbit (mUseDouble vm') k = Z.testbit (mUseDouble vm) k) ->
  vm_reg vm' a (mRegCount vm) -> n_pushed vm vm' a.
Proof.
  intros [Hv [Hw H0] Hb Hm [Hc1 Hc2] Hl Hu] H8 Ev Evec Ec L1 L2 Hi Hf Huse Hreg. pose proof (Hc2 H8) as Hz.
  split; unfold next_slot; rewrite ?Evec, ?Ec, ?Hz; cbn; try done; try lia.
  - split; rewrite ?Evec, ?Ec; try done; [congruence|lia|]. intros Hh j Hj. rewrite Huse by lia. apply Hu; [done|lia].
  - split; rewrite ?Evec, ?Ec; try done; try lia. intros k Hk. apply Huse. lia.
  - change (0 / 8) with 0. rewrite Z.add_0_r. unfold placed. rewrite (proj2 (Z.ltb_lt _ _)) by lia. split; [lia|done].
Qed.

Lemma n_push_ll vm a y :
  n_inv vm -> vec_room (mVecHead vm) 8 -> hard && is_float (a_ty a) = false -> (mRegCount vm < 8 -> conv (a_ty a) y = a_val a) ->
  (8 <= mRegCount vm -> exists y', take (used_bytes (a_ty a)) (enc e 8 y) = enc e (used_bytes (a_ty a)) y' /\ conv (a_ty a) y' = a_val a) ->
  exists vm', dc_callvm_argLongLong_mips_n64 e lb cs vm y = Some vm' /\ n_pushed vm vm' a.
Proof.
  intros Hi Hr Hfp Hreg Hst. unfold dc_callvm_argLongLong_mips_n64. destruct (Z.ltb_spec (mRegCount vm) 8) as [H8|H8].
  - pose proof Hi as [_ _ _ _ [Hc1 _] [Hl1 Hl2] _]. unfold put_int. rewrite aset_Some by lia. cbn [mbind option_bind].
    eexists. split; [done|]. apply n_push_reg; cbn; try done.
    + by rewrite length_insert.
    + intros k Hk. apply aget_insert_ne; lia.
    + unfold vm_reg. rewrite Hfp. cbn. exists y. split; [apply aget_insert_eq; lia|by apply Hreg].
  - destruct (Hst H8) as (y' & Ht & Hy). apply (n_push_append _ _ _ y'); try done; [by rewrite length_enc|apply enc_bytes].
Qed.

(** Without hardware for floats, and for other types. *)
Lemma n_push_int vm a y :
  n_inv vm -> vec_room (mVecHead vm) 8 -> a_ty a <> TFloat -> hard && is_float (a_ty a) = false -> conv (a_ty a) y = a_val a ->
  exists vm', dc_callvm_argLongLong_mips_n64 e lb cs vm y = Some vm' /\ n_pushed vm vm' a.
Proof.
  intros Hi Hr Hnf Hfp Hy. apply n_push_ll; try done. intros _. exists y. split; [|done].
  assert (used_bytes (a_ty a) = 8%nat) as -> by by destruct (a_ty a). by rewrite take_ge by by rewrite length_enc.
Qed.

Lemma n_put_float_ok vm bs :
  n_inv vm -> hard = true -> mRegCount vm < 8 -> (length bs <= 8)%nat ->
  exists d, put_float bs vm = Some (n_with_regs (mRegCount vm + 1) (mIntData vm) d (mUseDouble vm) vm) /\
    length d = length (mFloatData vm) /\ rd (8 * mRegCount vm) (length bs) d = Some bs /\
    forall k n, 0 <= k < mRegCount vm -> (n <= 8)%nat -> rd (8 * k) n d = rd (8 * k) n (mFloatData vm).
Proof.
  intros [_ _ _ _ [Hc1 _] [_ Hl2] _] Hh H8 Hl. specialize (Hl2 Hh). unfold put_float.
  destruct (wr (8 * mRegCount vm) bs (mFloatData vm)) as [d|] eqn:Hwr; [|rewrite wr_Some in Hwr by lia; done].
  exists d. cbn [mbind option_bind]. split_and!; [done|by apply (length_wr _ _ _ _ Hwr)|by eapply rd_wr_same|].
  intros k n Hk Hn. eapply rd_wr_other; [exact Hwr|]. left. lia.
Qed.

Lemma n_push_double vm a :
  n_inv vm -> vec_room (mVecHead vm) 8 -> a_ty a = TDouble -> arg_ok a ->
  exists vm', dc_callvm_argDouble_mips_n64 e lb hard cs vm (a_val a) = Some vm' /\ n_pushed vm vm' a.
Proof.
  intros Hi Hr Et Hx%val_ok_conv. unfold dc_callvm_argDouble_mips_n64. destruct hard eqn:Eh.
  - destruct (Z.ltb_spec (mRegCount vm) 8) as [H8|H8].
    + pose proof Hi as [_ _ _ _ [Hc1 _] [Hl1 Hl2] Hu].
      assert (Hwr : exists d, wr (8 * mRegCount vm) (enc e 8 (a_val a)) (mFloatData vm) = Some d) by
        (rewrite wr_Some by (rewrite ?length_enc, ?(Hl2 Eh); lia); by eexists).
      destruct Hwr as (d & Hwr). unfold put_float. cbn [mRegCount mFloatData use_double n_with_regs]. rewrite Hwr. cbn [mbind option_bind].
      eexists. split; [done|]. apply n_push_reg; cbn; try done.
      * intros _. rewrite (length_wr _ _ _ _ Hwr). by apply Hl2.
      * intros k n Hk Hn. eapply rd_wr_other; [exact Hwr|]. left. lia.
      * intros k Hk. rewrite Z.lor_spec, Z.shiftl_1_l, Z.pow2_bits_false by lia. apply orb_false_r.
      * unfold vm_reg. rewrite Eh, Et. cbn [is_float andb used_bytes is_wide mFloatData mUseDouble use_double n_with_regs].
        split; [by eapply rd_wr_same; [exact Hwr|rewrite length_enc]|]. split; [|by rewrite <- Et].
        rewrite Z.lor_spec, Z.shiftl_1_l, Z.pow2_bits_true by lia. apply orb_true_r.
    + apply (n_push_append _ _ _ (a_val a)); try done; [by rewrite length_enc|apply enc_bytes|].
      rewrite Et. cbn [used_bytes]. by rewrite take_ge by by rewrite length_enc.
  - apply n_push_int; try done; [by rewrite Et|by rewrite Eh|]. rewrite Et in *. by rewrite conv_conv.
Qed.

Lemma n_push_float vm a :
  n_inv vm -> vec_room (mVecHead vm) 8 -> a_ty a = TFloat -> arg_ok a ->
  exists vm', dc_callvm_argFloat_mips_n64 e lb hard cs vm (a_val a) = Some vm' /\ n_pushed vm vm' a.
Proof.
  intros Hi Hr Et Ha. pose proof Ha as Hx%val_ok_conv. rewrite Et in Hx. unfold dc_callvm_argFloat_mips_n64. destruct hard eqn:Eh.
  - destruct (Z.ltb_spec (mRegCount vm) 8) as [H8|H8]; [|by apply n_push_float_stack].
    pose proof Hi as [_ _ _ _ [Hc1 _] [Hl1 Hl2] Hu].
    destruct (n_put_float_ok vm (enc e 4 (a_val a)) Hi Eh H8) as (d & -> & Ld & Hd & Ho); [by rewrite length_enc; lia|].
    eexists. split; [done|]. apply n_push_reg; cbn; try done.
    + intros _. rewrite Ld. by apply Hl2.
    + unfold vm_reg. rewrite Eh, Et. cbn [is_float andb used_bytes is_wide mFloatData mUseDouble n_with_regs].
      rewrite length_enc in Hd. split_and!; [done| |done]. apply Hu; [done|lia].
  - set (f := match e with BigEndian => _ | LittleEndian => _ end).
    apply n_push_ll; try done; [by rewrite Eh|..].
    + intros H8. rewrite Et, conv_conv by (vm_compute; done). rewrite dec_words, !dec_enc by by rewrite length_enc.
      unfold f. rewrite (proj2 (Z.ltb_lt _ _)) by done. change (8 * Z.of_nat 4) with 32. rewrite <- Hx.
      destruct e; cbn [fst snd two_words]; rewrite Z.mul_0_r, Z.add_0_r; cbn [conv]; by rewrite !wrapU_wrapU.
    + intros H8. exists (a_val a). rewrite Et. split; [|done]. cbn [used_bytes].
      assert (Ef : f.1 = a_val a) by (unfold f; destruct e; [done|by rewrite (proj2 (Z.ltb_ge _ _))]).
      change (conv TLongLong ?z) with (wrapS 64 z). rewrite (enc_wrapS e 8) by lia.
      rewrite enc_dec_n; [|apply Forall_app; split; apply enc_bytes|by rewrite length_app, !length_enc].
      rewrite take_app_length' by by rewrite length_enc. by rewrite Ef.
Qed.

Lemma push_arg_n64 vm a :
  n_inv vm -> vec_room (mVecHead vm) 8 -> arg_ok a ->
  exists vm', push_arg (C := n64_CallVM e lb hard cs) vm a = Some vm' /\ n_pushed vm vm' a.
Proof.
  intros Hi Hr Ha. pose proof Ha as Hx%val_ok_conv. pose proof (conv_api_value (a_ty a) (a_val a)) as E. rewrite Hx in E.
  assert (Hd : deref (CallVM := n64_CallVM e lb hard cs) (mVTpointer (CallVM := n64_CallVM e lb hard cs) vm) = gVT_mips_n64 e lb hard cs)
    by (cbn; by rewrite (ni_vt vm Hi)).
  assert (E8 : conv (a_ty a) (conv TLongLong (api_value (a_ty a) (a_val a))) = a_val a) by (rewrite conv_conv; [done|apply ty_bits_pos]).
  pose proof (n_push_float vm a Hi Hr) as HF. pose proof (n_push_double vm a Hi Hr) as HD.
  pose proof (fun y => n_push_int vm a y Hi Hr) as HI. unfold push_arg, dcArgBool, dcArgChar, dcArgShort, dcArgInt, dcArgLong, dcArgLongLong,
    dcArgFloat, dcArgDouble, dcArgPointer, vtable. rewrite Hd. clear Hd.
  destruct (a_ty a) eqn:Et; rewrite ?andb_false_r in HI;
    first [exact (HF eq_refl Ha)|exact (HD eq_refl Ha)|exact (HI _ ltac:(discriminate) eq_refl E)|exact (HI _ ltac:(discriminate) eq_refl E8)].
Qed.
End Places.

(** ** Whole argument lists, and the kernel *)

Section Lists.
Variable e : endian.
Variable lb : Z.
Variable hard : bool.
Variable cs : bool.
#[local] Hint Extern 0 DataModel => exact (mips64_dm e lb cs) : typeclass_instances.
Context {OK : DataModelOk (DM := mips64_dm e lb cs)}.

Lemma push_list_n64 l : forall vm,
  n_inv e lb hard cs vm -> mSize (mVecHead vm) + 8 * Z.of_nat (length l) <= mTotal (mVecHead vm) -> Forall arg_ok l ->
  exists vf, push_args (C := n64_CallVM e lb hard cs) vm l = Some vf /\ n_inv e lb hard cs vf /\ n_ext vm vf /\
    mTotal (mVecHead vf) = mTotal (mVecHead vm) /\ length (vec_data (mVecHead vf)) = length (vec_data (mVecHead vm)) /\
    Forall2 (placed e lb hard cs vf) l (seqZ (next_slot vm) (Z.of_nat (length l))).
Proof.
  induction l as [|a l IH]; intros vm Hi Hr Hl; [exists vm; split_and!; try done; constructor|].
  cbn [length] in Hr. apply Forall_cons in Hl as [Ha Hl].
  destruct (push_arg_n64 e lb hard cs vm a Hi) as (vm' & Hp & [Hi' Hx1 Hh Hn Hsz _ [Ht Hlen]]); [unfold vec_room; lia|done|].
  destruct (IH vm' Hi') as (vf & Hpf & Hif & Hxf & Htf & Hlf & Hall); [lia|done|].
  exists vf. split_and!; try congruence.
  - unfold push_args. cbn [foldM]. rewrite Hp. exact Hpf.
  - by eapply n_ext_trans.
  - rewrite seqZ_cons by (cbn; lia). constructor; [by eapply n_placed_ext|].
    replace (Z.succ (next_slot vm)) with (next_slot vm') by lia.
    replace (Z.pred (Z.of_nat (length (a :: l)))) with (Z.of_nat (length l)) by (cbn; lia). exact Hall.
Qed.

(** A register has what the VM had for it. *)
Lemma load_fpr_ok up vm a k :
  hard && is_float (a_ty a) = true -> vm_reg e lb hard cs vm a k ->
  exists d, load_fpr e up (mFloatData vm) (mUseDouble vm) k = Some d /\ conv (a_ty a) d = a_val a.
Proof.
  intros Hf. unfold vm_reg, load_fpr. rewrite Hf. intros (Hrd & -> & Hx). apply andb_prop in Hf as [_ Hf].
  destruct (a_ty a) eqn:Et; try discriminate Hf; cbn [is_wide used_bytes] in *; rewrite Hrd; cbn [mbind option_bind]; eexists; (split; [done|]).
  - rewrite dec_enc. change (8 * Z.of_nat 4) with 32. rewrite <- Hx at 2. cbn [conv].
    unfold wrapU at 1. rewrite Z.mul_comm, Z.mod_add by lia. change (wrapU 32 (wrapU 32 (a_val a)) = wrapU 32 (a_val a)). by apply wrapU_wrapU.
  - rewrite dec_enc. rewrite <- Hx at 2. cbn [conv]. by apply wrapU_wrapU.
Qed.

Lemma n64_kernel_enter_ok up target vf size :
  n_inv e lb hard cs vf -> 0 <= size <= Z.of_nat (length (vec_data (mVecHead vf))) -> size mod 8 = 0 ->
  exists cpu, kernel_enter e hard up (dcCall_mips_n64 target (mIntData vf) (mFloatData vf) (mUseDouble vf) size (vec_data (mVecHead vf)))
              = Some cpu /\ cpu_stack cpu = take (Z.to_nat size) (vec_data (mVecHead vf)) /\
    forall a k, 0 <= k < 8 -> vm_reg e lb hard cs vf a k -> in_reg e lb hard cs (gprs cpu) (fprs cpu) a k.
Proof.
  intros Hi Hs Hm. unfold kernel_enter. cbn [k_size k_data k_ints k_floats k_use_double]. rewrite Hm. cbn [Z.eqb].
  pose proof (Z.div_mod size 8 ltac:(lia)) as Hd.
  destruct (load_words_copy e 8 (Z.to_nat (size / 8)) 0 (vec_data (mVecHead vf)) (ni_bytes _ _ _ _ _ Hi)) as (ws & -> & _ & Hst); [lia..|].
  assert (Hf : exists f, (if hard then mapM (load_fpr e up (mFloatData vf) (mUseDouble vf)) (seqZ 0 8) else Some []) = Some f /\
            (hard = true -> forall k, 0 <= k < 8 -> load_fpr e up (mFloatData vf) (mUseDouble vf) k = aget k f)).
  { destruct hard eqn:Eh; [|by exists []].
    destruct (mapM (load_fpr e up (mFloatData vf) (mUseDouble vf)) (seqZ 0 8)) as [f|] eqn:Em.
    - exists f. split; [done|]. intros _ k Hk. apply mapM_Some_1 in Em. apply Forall2_same_length_lookup in Em as [Hl Em].
      assert (Hlk : seqZ 0 8 !! Z.to_nat k = Some k) by (rewrite lookup_seqZ_lt by lia; f_equal; lia).
      rewrite length_seqZ in Hl. destruct (lookup_lt_is_Some_2 f (Z.to_nat k)) as [d Hdk]; [lia|].
      rewrite (Em _ _ _ Hlk Hdk). unfold aget. rewrite (proj2 (Z.leb_le 0 k)) by lia. done.
    - exfalso. apply eq_None_not_Some in Em. apply Em, mapM_is_Some_2. apply Forall_lookup. intros i k Hk.
      apply lookup_seqZ in Hk as [-> Hk]. destruct Hi as [_ _ _ _ _ [_ Hl2] _]. specialize (Hl2 eq_refl).
      change (is_Some (load_fpr e up (mFloatData vf) (mUseDouble vf) (0 + Z.of_nat i))). unfold load_fpr.
      destruct (Z.testbit (mUseDouble vf) (0 + Z.of_nat i)); [destruct (rd_Some (8 * (0 + Z.of_nat i)) 8 (mFloatData vf)) as (bs & -> & _)
                                |destruct (rd_Some (8 * (0 + Z.of_nat i)) 4 (mFloatData vf)) as (bs & -> & _)]; try lia; by eexists. }
  destruct Hf as (f & Hf & Hfr). cbn [mbind option_bind]. rewrite Hf. cbn [mbind option_bind]. eexists. split; [done|].
  cbn [cpu_stack gprs fprs]. split.
  - rewrite Hst. change (Z.to_nat 0) with 0%nat. rewrite drop_0. f_equal. lia.
  - intros a k Hk Hreg. unfold in_reg. destruct (hard && is_float (a_ty a)) eqn:Ef.
    + destruct (load_fpr_ok up vf a k Ef Hreg) as (d & Hld & Hx). exists d. split; [|done].
      apply andb_prop in Ef as [Eh _]. by rewrite <- Hfr.
    + unfold vm_reg in Hreg. by rewrite Ef in Hreg.
Qed.

Lemma n64_call_size vf target :
  vec_wf (mVecHead vf) -> mSize (mVecHead vf) mod 8 = 0 -> mSize (mVecHead vf) <= mTotal (mVecHead vf) -> mTotal (mVecHead vf) < 2 ^ 32 ->
  lb = 32 \/ lb = 64 ->
  dc_callvm_call_mips_n64 e lb cs vf target =
  dcCall_mips_n64 target (mIntData vf) (mFloatData vf) (mUseDouble vf) (Z.max 16 (mSize (mVecHead vf))) (vec_data (mVecHead vf)).
Proof.
  intros [Hs Ht _] Hm Hr H32 Hlb. unfold dc_callvm_call_mips_n64, dcVecSize. do 2 f_equal. rewrite wrapU_id by (unfold in_u; lia).
  pose proof (Z.div_mod (mSize (mVecHead vf)) 8 ltac:(lia)) as Hd. unfold size_t. cbn [dm_size_bits mips64_dm].
  assert (H7 : mSize (mVecHead vf) + 7 < 2 ^ 32) by (change (2 ^ 32) with (536870912 * 8) in *; lia).
  rewrite (wrapU_id lb (mSize (mVecHead vf) + 7)) by (unfold in_u; destruct Hlb as [-> | ->]; lia).
  change (-8) with (- 2 ^ 3). rewrite land_neg_pow2 by (unfold in_u; destruct Hlb as [-> | ->]; lia). change (2 ^ 3) with 8.
  assert (E : (mSize (mVecHead vf) + 7) / 8 = mSize (mVecHead vf) / 8) by (symmetry; apply Z.div_unique with 7; lia). lia.
Qed.

(** Registers and stack of the callee. *)
Lemma n64_placed_in vf cpu a k :
  (forall a k, 0 <= k < 8 -> vm_reg e lb hard cs vf a k -> in_reg e lb hard cs (gprs cpu) (fprs cpu) a k) ->
  prefix (vec_bytes (mVecHead vf)) (cpu_stack cpu) -> placed e lb hard cs vf a k -> n64_in e lb hard cs cpu a k.
Proof.
  intros Hreg Hpre. unfold placed, n64_in. destruct (Z.ltb_spec k 8).
  - intros [Hk Hr]. apply Hreg; [lia|done].
  - intros (y & Hrd & Hy). exists y. split; [by eapply rd_prefix|done].
Qed.
End Lists.

(** ** Reading it back *)

Section Read.
Variable e : endian.
Variable hard : bool.
Variable cs : bool.
#[local] Hint Extern 0 DataModel => exact (mips64_dm e 64 cs) : typeclass_instances.
#[local] Abbreviation C := (n64_CallVM e 64 hard cs).
#[local] Abbreviation RD := (n64_ArgReader e cs).

Record n_std (vm vf : DCCallVM_mips_n64) (p : DCArgs) : Prop := {
  ns_count : reg_count p = mRegCount vm /\ stackptr p = mSize (mVecHead vm);
  ns_regs : forall a k, 0 <= k < 8 -> vm_reg e 64 hard cs vf a k -> in_reg e 64 hard cs (ireg_data p) (freg_data p) a k;
  ns_soft : hard = false -> freg_data p = ireg_data p;
  ns_mem : prefix (vec_bytes (mVecHead vf)) (arg_mem p);
}.

(** The reader behind the next argument. *)
Definition n_next (p : DCArgs) : DCArgs :=
  if reg_count p <? 8 then n_at (reg_count p + 1) (stackptr p) p else n_at (reg_count p) (stackptr p + 8) p.

(** What the reader finds: a register of the kind, or a slot. *)
Definition found (p : DCArgs) (a : arg) : Prop :=
  if reg_count p <? 8
  then exists w, aget (reg_count p) (if is_float (a_ty a) then freg_data p else ireg_data p) = Some w /\ conv (a_ty a) w = a_val a
  else exists y, rd (stackptr p) (used_bytes (a_ty a)) (arg_mem p) = Some (enc e (used_bytes (a_ty a)) y) /\ conv (a_ty a) y = a_val a.

Lemma placed_found vm vf p a :
  n_inv e 64 hard cs vm -> n_std vm vf p -> placed e 64 hard cs vf a (next_slot vm) -> found p a.
Proof.
  intros [_ [[Hs _ _] _] _ Hm [Hc1 Hc2] _ _] [[Hp1 Hp2] Hreg Hsoft Hpre]. unfold found, next_slot, placed. rewrite Hp1, Hp2.
  pose proof (Z.div_mod (mSize (mVecHead vm)) 8 ltac:(lia)) as Hd. destruct (Z.ltb_spec (mRegCount vm) 8) as [H8|H8].
  - rewrite (Hc2 H8). change (0 / 8) with 0. rewrite Z.add_0_r, (proj2 (Z.ltb_lt _ _)) by lia. intros [Hk Hr].
    apply Hreg in Hr; [|lia]. unfold in_reg in Hr. destruct hard; [exact Hr|]. cbn [andb] in Hr. rewrite Hsoft by done. by destruct (is_float _).
  - pose proof (Z.div_pos (mSize (mVecHead vm)) 8 Hs ltac:(lia)). rewrite (proj2 (Z.ltb_ge _ _)) by lia. intros (y & Hrd & Hy).
    exists y. split; [|done]. eapply rd_prefix; [exact Hpre|]. rewrite <- Hrd. f_equal. lia.
Qed.

Lemma read_ll p a :
  a_ty a <> TFloat -> is_float (a_ty a) = false -> found p a ->
  exists w, dcbArgLongLong e cs p = Some (conv TLongLong w, n_next p) /\ conv (a_ty a) w = a_val a.
Proof.
  intros Hnf Hf. unfold found, n_next, dcbArgLongLong. rewrite Hf. destruct (reg_count p <? 8).
  - intros (w & -> & Hx). by exists w.
  - intros (y & Hrd & Hx). assert (used_bytes (a_ty a) = 8%nat) as E by by destruct (a_ty a). rewrite E in Hrd. rewrite Hrd.
    exists y. split; [|done]. cbn [mbind option_bind]. rewrite dec_enc, conv_wrapU; [done|]. by vm_compute.
Qed.

Lemma n_read p a : arg_ok a -> found p a -> dcbArg (ArgReader := RD) (a_ty a) p = Some (a_val a, n_next p).
Proof.
  intros Ha%val_ok_conv Hfd. destruct (is_float (a_ty a)) eqn:Hf.
  - unfold found, n_next in *. rewrite Hf in Hfd. destruct (a_ty a) eqn:Et; try discriminate; cbn [dcbArg n64_ArgReader]; unfold dcbArgFloat, dcbArgDouble;
      destruct (reg_count p <? 8); cbn [used_bytes] in Hfd.
    + destruct Hfd as (w & -> & Hx). cbn [mbind option_bind].
      assert (Hh : rd (match e with LittleEndian => 0 | BigEndian => 4 end) 4 (enc e 8 w) = Some (enc e 4 w)).
      { assert (H8 : rd 0 8 (enc e 8 w) = Some (enc e 8 w)) by (rewrite <- (app_nil_r (enc e 8 w)) at 1; by apply rd0_app, length_enc).
        destruct (rd_split 4 4 _ _ _ H8) as [Hlo Hhi]. rewrite enc_dword in Hlo, Hhi at 2.
        rewrite take_app_length' in Hlo by by rewrite length_enc. rewrite drop_app_length' in Hhi by by rewrite length_enc. by destruct e. }
      rewrite Hh. cbn [mbind option_bind]. rewrite dec_enc, conv_wrapU by (by vm_compute). by rewrite Hx.
    + destruct Hfd as (y & -> & Hx). cbn [mbind option_bind]. rewrite dec_enc, conv_wrapU by (by vm_compute). by rewrite Hx.
    + destruct Hfd as (w & -> & Hx). cbn [mbind option_bind]. by rewrite Hx.
    + destruct Hfd as (y & -> & Hx). cbn [mbind option_bind]. rewrite dec_enc, conv_wrapU by (by vm_compute). by rewrite Hx.
  - destruct (read_ll p a) as (w & Hr & Hx); [by destruct (a_ty a)|done|done|].
    assert (HC : conv (a_ty a) (conv TLongLong w) = a_val a) by (rewrite conv_conv; [done|apply ty_bits_pos]).
    destruct (a_ty a); try discriminate; cbn [dcbArg n64_ArgReader];
      unfold dcbArgULongLong, dcbArgInt, dcbArgUInt, dcbArgLong, dcbArgULong, dcbArgChar, dcbArgUChar, dcbArgShort, dcbArgUShort,
        dcbArgBool, dcbArgPointer, mbind, SO_bind, mret, SO_ret; rewrite Hr; cbn [option_bind]; do 2 f_equal; first [exact HC|exact Hx].
Qed.

Definition n_room (vm : DCCallVM_mips_n64) (a : arg) : Prop := vec_room (mVecHead vm) 8.

Lemma n64_step vm a :
  n_inv e 64 hard cs vm -> n_room vm a -> arg_ok a ->
  exists vm', push_arg (C := C) vm a = Some vm' /\ n_inv e 64 hard cs vm' /\ n_ext vm vm' /\
    forall vf p, n_inv e 64 hard cs vf -> n_ext vm' vf -> n_std vm vf p ->
      exists p', dcbArg (ArgReader := RD) (a_ty a) p = Some (a_val a, p') /\ n_std vm' vf p'.
Proof.
  intros Hi Hr Ha. destruct (push_arg_n64 e 64 hard cs vm a Hi Hr Ha) as (vm' & Hp & [Hi' Hx Hh _ _ [Hs1 Hs2] _]). exists vm'. split_and!; try done.
  intros vf p _ Hxf Hat. exists (n_next p). split.
  - apply n_read; [done|]. apply (placed_found vm vf); try done. by eapply n_placed_ext.
  - destruct Hat as [[Hp1 Hp2] Hreg Hsoft Hpre]. unfold n_next. rewrite Hp1, Hp2.
    destruct (Z.ltb_spec (mRegCount vm) 8) as [H8|H8]; split; cbn; try done; [by destruct (Hs1 H8)|by destruct (Hs2 H8)].
Qed.

#[export] Instance n64_CallConv : CallConv DCCallVM_mips_n64 DCArgs (H := C) (H0 := RD) := {
  cc_inv := n_inv e 64 hard cs;
  cc_room := n_room;
  cc_ext := n_ext;
  cc_at := n_std;
  cc_ext_refl := n_ext_refl;
  cc_ext_trans := n_ext_trans;
  cc_step := n64_step;
}.

Lemma n64_room l : forall vm,
  n_inv e 64 hard cs vm -> mSize (mVecHead vm) + 8 * Z.of_nat (length l) <= mTotal (mVecHead vm) -> Forall arg_ok l ->
  room_for (CC := n64_CallConv) vm l.
Proof.
  induction l as [|a l IH]; intros vm Hi Hr Hl; [done|]. cbn [length] in Hr. apply Forall_cons in Hl as [Ha Hl].
  assert (Hra : vec_room (mVecHead vm) 8) by (unfold vec_room; lia). split; [exact Hra|]. intros vm1 H1.
  destruct (push_arg_n64 e 64 hard cs vm a Hi Hra Ha) as (vm' & Hp & [Hi' _ _ _ Hsz _ [Ht _]]). rewrite Hp in H1. injection H1 as <-.
  apply IH; [done|lia|done].
Qed.
End Read.
