(* ===== verification/Mips64Props.v ===== *)
(** * MIPS n64 and n32: whole calls *)

From S2P Require Export Mips64Proofs.

(** What the VM is allocated with: every call reads sixteen bytes of the vector,
    and takes its size for a 32-bit number. *)
Record mips64_alloc (e : endian) (lb : Z) (hard cs : bool) (vm : DCCallVM_mips_n64) : Prop := {
  al_vec : vec_wf (DM := mips64_dm e lb cs) (mVecHead vm) /\ 0 <= mTotal (mVecHead vm) < 2 ^ 32;
  al_data : 16 <= Z.of_nat (length (vec_data (mVecHead vm)));
  al_bytes : Forall is_byte (vec_data (mVecHead vm));
  al_regs : length (mIntData vm) = 8%nat /\ (hard = true -> length (mFloatData vm) = 64%nat);
  al_vt : n_mVTpointer vm = gVT_mips_p;
}.

Definition n64_reset (hard : bool) (vm0 : DCCallVM_mips_n64) : DCCallVM_mips_n64 :=
  n_with_regs 0 (mIntData vm0) (mFloatData vm0) (if hard then 0 else mUseDouble vm0)
    (n_with_vec (dcVecReset (mVecHead vm0)) vm0).

(** ** The callee of a call *)

Section Enter.
Variable e : endian.
Variable lb : Z.
Variable hard : bool.
Variable cs : bool.
#[local] Hint Extern 0 DataModel => exact (mips64_dm e lb cs) : typeclass_instances.
Context {OK : DataModelOk (DM := mips64_dm e lb cs)}.

Lemma n64_reset_inv vm0 : mips64_alloc e lb hard cs vm0 -> n_inv e lb hard cs (n64_reset hard vm0).
Proof.
  intros [[[Hs Ht Hw] H0] Hd Hb [Hl1 Hl2] Hv]. split; cbn; try done; [split; [by split|unfold vec_room; cbn; lia]|].
  intros Hh j Hj. rewrite Hh. apply Z.bits_0.
Qed.

(** Every argument is in its slot. *)
Lemma n64_entered vm0 l up target :
  mips64_alloc e lb hard cs vm0 -> 8 * Z.of_nat (length l) <= mTotal (mVecHead vm0) -> Forall arg_ok l -> lb = 32 \/ lb = 64 ->
  exists vf cpu, push_args (C := n64_CallVM e lb hard cs) (n64_reset hard vm0) l = Some vf /\ n_inv e lb hard cs vf /\
    kernel_enter e hard up (dc_callvm_call_mips_n64 e lb cs vf target) = Some cpu /\
    Forall2 (n64_in e lb hard cs cpu) l (seqZ 0 (Z.of_nat (length l))) /\
    (forall a k, 0 <= k < 8 -> vm_reg e lb hard cs vf a k -> in_reg e lb hard cs (gprs cpu) (fprs cpu) a k) /\
    prefix (vec_bytes (mVecHead vf)) (cpu_stack cpu).
Proof.
  intros Hal Hroom Hl Hlb. pose proof (n64_reset_inv vm0 Hal) as Hi. destruct Hal as [[Hw H0] Hd _ _ _].
  destruct (push_list_n64 e lb hard cs l (n64_reset hard vm0) Hi) as (vf & Hp & Hif & _ & Htf & Hlf & Hall); [cbn; lia|done|].
  pose proof Hif as [_ [[Hs Ht Hw'] Hr] _ Hm _ _ _]. unfold vec_room in Hr. cbn in Htf, Hlf.
  assert (Hm8 : Z.max 16 (mSize (mVecHead vf)) mod 8 = 0)
    by (destruct (Z.max_spec 16 (mSize (mVecHead vf))) as [[_ ->]|[_ ->]]; done).
  destruct (n64_kernel_enter_ok e lb hard cs up target vf (Z.max 16 (mSize (mVecHead vf))) Hif) as (cpu & Hk & Hst & Hreg); [lia|done|].
  assert (Hpre : prefix (vec_bytes (mVecHead vf)) (cpu_stack cpu)) by (rewrite Hst; apply take_prefix_take; lia).
  exists vf, cpu. split_and!; try done.
  - rewrite n64_call_size by (done || lia). exact Hk.
  - change (next_slot (n64_reset hard vm0)) with 0 in Hall. eapply Forall2_impl; [exact Hall|]. intros. by eapply n64_placed_in.
Qed.
End Enter.

(** ** n64 *)

(** A callback, entered in state [cpu], that reads its arguments, leaves the
    registers [r0] and returns a scalar. *)
Definition n64_run_callback (e : endian) (hard cs : bool) (ts : list cty) (rt : cty) (f : list arg -> Z) (r0 : mips64_ret)
    (cpu : mips64_cpu) : option mips64_ret :=
  '(l, _) ← read_args (RD := n64_ArgReader e cs) ts (dcCallbackThunkEntry hard cpu);
  result ← dcvalue_set e (DM := mips64_dm e 64 cs) rt (f l) (callback_slot e);
  callback_exit e hard r0 result.

Section N64.
Variable e : endian.
Variable hard : bool.
Variable cs : bool.
#[local] Hint Extern 0 DataModel => exact (mips64_dm e 64 cs) : typeclass_instances.
#[local] Abbreviation C := (n64_CallVM e 64 hard cs).

Lemma n64_result t x r0 :
  val_ok t x -> exists result, dcvalue_set e t x (callback_slot e) = Some result /\
    exists r, callback_exit e hard r0 result = Some r /\ ret_value hard t r = x.
Proof.
  intros Hx%val_ok_conv. unfold dcvalue_set. set (n := Z.to_nat (sizeof_cty t)). set (bs := enc e n x).
  assert (Hw : ty_bits t = 8 * Z.of_nat n) by by destruct t.
  assert (Hn : (n <= 8)%nat /\ Z.of_nat n = sizeof_cty t) by (unfold n; destruct t; vm_compute; split; lia || done).
  destruct Hn as [Hn Hsz]. assert (Lb : length bs = n) by apply length_enc.
  set (result := match e with LittleEndian => bs ++ replicate (8 - n) 0 | BigEndian => replicate (8 - n) 0 ++ bs end).
  assert (Hslot : callback_slot e = replicate 8 0) by by destruct e.
  assert (Hset : wr (dcvalue_off e t) bs (callback_slot e) = Some result).
  { rewrite Hslot. unfold dcvalue_off, result. rewrite <- Hsz.
    destruct e; rewrite wr_Some by (rewrite ?length_replicate; lia); rewrite take_replicate, drop_replicate, Lb; f_equal.
    replace (Z.to_nat (8 - Z.of_nat n)) with (8 - n)%nat by lia. rewrite Nat.min_l by lia.
      replace (8 - (8 - n + n))%nat with 0%nat by lia. cbn [replicate]. by rewrite app_nil_r. }
  exists result. split; [exact Hset|]. unfold callback_exit.
  assert (Lr : length result = 8%nat) by (unfold result; destruct e; rewrite length_app, length_replicate, Lb; lia).
  rewrite <- (app_nil_r result), (rd0_app result [] 8) by done. cbn [mbind option_bind]. eexists. split; [done|].
  assert (Hd : conv t (dec e result) = x) by (unfold result; rewrite dec_pad; unfold bs; rewrite dec_enc, conv_wrapU by lia; exact Hx).
  unfold ret_value. cbn [ret_2 ret_f0]. by destruct hard, (is_float t).
Qed.

(** C37: scalar calls on MIPS with the n64 ABI, in either byte order, with and
    without hardware floating point, are transparent from end to end, and the
    arguments are where the ABI says.  For every argument list that fits the vector
    of a VM of at least sixteen bytes, the VM, reset and in the default mode, given
    the arguments, enters the callee with argument [k] in slot [k]: the first eight
    slots are $4-$11, or $f12-$f19 for floating-point arguments if there is hardware
    for them ([float]s in the low word, whatever is above it), the others eight
    bytes of the stack each.  A callback entered like this reads exactly those
    arguments, and the caller gets its result. *)
Theorem n64_scalar_call_end_to_end vm0 l rt f r0 up target :
  mips64_alloc e 64 hard cs vm0 -> 8 * Z.of_nat (length l) <= mTotal (mVecHead vm0) -> Forall arg_ok l -> val_ok rt (f l) ->
  exists vm vf cpu r,
    dcReset (C := C) vm0 = Some vm /\ push_args (C := C) vm l = Some vf /\
    kernel_enter e hard up (dcCall_as (C := C) rt vf target) = Some cpu /\
    Forall2 (n64_in e 64 hard cs cpu) l (seqZ 0 (Z.of_nat (length l))) /\
    n64_run_callback e hard cs (map a_ty l) rt f r0 cpu = Some r /\ ret_value hard rt r = f l.
Proof.
  intros Hal Hroom Hl Hf. destruct (n64_entered e 64 hard cs vm0 l up target Hal Hroom Hl (or_intror eq_refl))
    as (vf & cpu & Hp & Hif & Hk & Hin & Hreg & Hpre).
  pose proof (n64_reset_inv e 64 hard cs vm0 Hal) as Hi.
  assert (Hroom' : room_for (CC := n64_CallConv e hard cs) (n64_reset hard vm0) l) by (apply n64_room; [done|cbn; lia|done]).
  destruct (push_args_inv (CC := n64_CallConv e hard cs) _ l Hi Hroom' Hl) as (vf' & Hp' & _ & _ & Hread).
  rewrite Hp in Hp'. injection Hp' as <-.
  destruct (Hread (dcCallbackThunkEntry hard cpu)) as (p' & Hrd & _).
  { split; cbn; [done| |by intros ->|done]. intros a k Hk8 Hr. specialize (Hreg a k Hk8 Hr). unfold in_reg in *. by destruct hard. }
  destruct (n64_result rt (f l) r0 Hf) as (result & Hset & r & Hexit & Hret).
  exists (n64_reset hard vm0), vf, cpu, r. split_and!; try done.
  - unfold dcReset, vtable. cbn. by rewrite (al_vt _ _ _ _ _ Hal).
  - assert (E : dcCall_as (C := C) rt vf target = dc_callvm_call_mips_n64 e 64 cs vf target)
      by (unfold dcCall_as, dcCallBool, dcCallChar, dcCallShort, dcCallInt, dcCallLong, dcCallLongLong, dcCallFloat, dcCallDouble,
          dcCallPointer, vtable; destruct rt; cbn; by destruct (n_mVTpointer vf)).
    rewrite E. exact Hk.
  - unfold n64_run_callback. rewrite Hrd. cbn [mbind option_bind]. rewrite Hset. exact Hexit.
Qed.

(** A VM of less than sixteen bytes is too small for every call. *)
Theorem n64_small_vm_overread mem alloc size up vm target :
  Z.of_nat (length alloc) = size -> 0 <= size < 16 ->
  dcNewCallVM hard mem (Some alloc) size = Some vm ->
  kernel_enter e hard up (dc_callvm_call_mips_n64 e 64 cs vm target) = None.
Proof.
  intros Hl Hs [= <-]. rewrite n64_call_size; [|apply _|split; cbn; lia|done|cbn; lia|cbn; lia|by right]. unfold kernel_enter.
  cbn [k_size k_data mVecHead n_with_regs n_with_vec dcVecReset dcVecResize dcVecInit mSize mTotal vec_data].
  change (Z.max 16 0) with 16. change (16 mod 8 =? 0) with true. change (Z.to_nat (16 / 8)) with 2%nat. cbv iota.
  destruct (load_words e 8 2 0 alloc) as [ws|] eqn:E; [|done].
  destruct (load_words_aget _ _ _ 1 _ _ _ E) as (bs & Hrd & _); [lia|]. apply rd_bound in Hrd. lia.
Qed.
End N64.

(** ** n32 *)

Section N32.
Variable e : endian.
Variable beyond : list Z.
Variable cs : bool.
#[local] Hint Extern 0 DataModel => exact (mips64_dm e 32 cs) : typeclass_instances.
#[local] Abbreviation C := (n32_CallVM e beyond cs).

Definition is_pointer (t : cty) : bool := match t with TPointer | TString => true | _ => false end.

(** But for pointers, the VM does what the n64 one does. *)
Lemma n32_push_arg vm a :
  is_pointer (a_ty a) = false -> push_arg (C := C) vm a = push_arg (C := n64_CallVM e 32 true cs) vm a.
Proof.
  destruct a as [t x]. cbn [a_ty]. unfold push_arg, dcArgBool, dcArgChar, dcArgShort, dcArgInt, dcArgLong, dcArgLongLong,
    dcArgFloat, dcArgDouble, vtable. cbn [a_ty a_val n32_CallVM n64_CallVM mVTpointer deref].
  by destruct t, (n_mVTpointer vm).
Qed.

Lemma n32_push_args l : forall vm,
  Forall (fun a => is_pointer (a_ty a) = false) l -> push_args (C := C) vm l = push_args (C := n64_CallVM e 32 true cs) vm l.
Proof.
  induction l as [|a l IH]; intros vm Hl; [done|]. apply Forall_cons in Hl as [Ha Hl]. unfold push_args in *. cbn [foldM].
  rewrite n32_push_arg by done. destruct (push_arg (C := n64_CallVM e 32 true cs) vm a) as [vm'|]; [|done]. cbn [mbind option_bind]. by apply IH.
Qed.

(** Arguments other than pointers are where the ABI says, too. *)
Theorem n32_args_at_abi_locations vm0 l rt up target :
  mips64_alloc e 32 true cs vm0 -> 8 * Z.of_nat (length l) <= mTotal (mVecHead vm0) -> Forall arg_ok l ->
  Forall (fun a => is_pointer (a_ty a) = false) l ->
  exists vm vf cpu,
    dcReset (C := C) vm0 = Some vm /\ push_args (C := C) vm l = Some vf /\
    kernel_enter e true up (dcCall_as (C := C) rt vf target) = Some cpu /\
    Forall2 (n64_in e 32 true cs cpu) l (seqZ 0 (Z.of_nat (length l))).
Proof.
  intros Hal Hroom Hl Hnp. destruct (n64_entered e 32 true cs vm0 l up target Hal Hroom Hl (or_introl eq_refl))
    as (vf & cpu & Hp & _ & Hk & Hin & _).
  exists (n64_reset true vm0), vf, cpu. split_and!; [| |  |done].
  - unfold dcReset, vtable. cbn. by rewrite (al_vt _ _ _ _ _ Hal).
  - by rewrite n32_push_args.
  - assert (E : dcCall_as (C := C) rt vf target = dc_callvm_call_mips_n64 e 32 cs vf target)
      by (unfold dcCall_as, dcCallBool, dcCallChar, dcCallShort, dcCallInt, dcCallLong, dcCallLongLong, dcCallFloat, dcCallDouble,
          dcCallPointer, vtable; destruct rt; cbn; by destruct (n_mVTpointer vf)).
    rewrite E. exact Hk.
Qed.
End N32.

(** A pointer in big-endian order is in the upper half of its register, and the
    callee takes the word beyond the parameter for it. *)
Theorem n32_big_endian_pointer_lost cs beyond vm x :
  length beyond = 4%nat -> n_mVTpointer vm = gVT_mips_p -> mRegCount vm = 0 -> length (mIntData vm) = 8%nat ->
  exists vm' w, push_arg (DM := mips64_dm BigEndian 32 cs) (C := n32_CallVM BigEndian beyond cs) vm (Arg TPointer x) = Some vm' /\
    aget 0 (mIntData vm') = Some w /\ wrapU 32 w = wrapU 32 (dec BigEndian beyond).
Proof.
  intros Hl Hv Hc Hd. unfold push_arg, dcArgPointer, vtable. cbn [a_ty a_val n32_CallVM mVTpointer deref]. rewrite Hv.
  cbn [gVT_mips_n32 vt_argPointer]. unfold dc_callvm_argPointer_mips_n32, dc_callvm_argLongLong_mips_n32, put_int. rewrite Hc.
  cbn [Z.ltb Z.compare]. rewrite aset_Some by lia. cbn [mbind option_bind]. do 2 eexists. split; [done|]. cbn [mIntData n_with_regs].
  split; [apply aget_insert_eq; lia|]. rewrite dec_words by (rewrite ?length_enc; done). cbn [two_words]. cbn [conv].
  rewrite wrapU_wrapS by lia. unfold wrapU. by rewrite Z.mul_comm, Z.mod_add by lia.
Qed.
