(* ===== verification/MipsExamples.v ===== *)
(** * MIPS: the properties at concrete inputs *)

From S2P Require MipsO32Props MipsEabiProps Mips64Props.

Module O32.
Import MipsO32Props.

Definition ex_vm : DCCallVM_mips_o32 :=
  {| o_mVTpointer := gVT_mips_o32_p; o_mError := 0; mArgCount := 5; mRegData := replicate 16 0xcc;
     mVecHead := {| mTotal := 72; mSize := 16; vec_data := replicate 72 0xcc |} |}.

(** The [double] is the second argument: it goes to $f14 and to $6 and $7. *)
Definition ex_args : list arg :=
  [Arg TFloat 0x3f800000; Arg TDouble 0x3ff8000000000000; Arg TUChar 200; Arg TLongLong (-2); Arg TFloat 0x40000000;
   Arg TBool 1; Arg TShort (-3)].

Lemma o32_scalar_call_end_to_end_witness :
  exists vm vf cpu r,
    dcReset (C := o32_CallVM BigEndian true true) ex_vm = Some vm /\
    push_args (DM := mips32_dm BigEndian true) (C := o32_CallVM BigEndian true true) vm ex_args = Some vf /\
    kernel_enter BigEndian true (dcCall_as (C := o32_CallVM BigEndian true true) TFloat vf 0) = Some cpu /\
    Forall2 (o32_in BigEndian true true cpu) ex_args [(0, 0); (8, 1); (16, 2); (24, 3); (32, 4); (36, 5); (40, 6)] /\
    o32_run_callback BigEndian true true (replicate 16 0) (map a_ty ex_args) TFloat (fun _ => 0x40400000)
      {| ret_2 := 5; ret_3 := 6; ret_f0 := 7 |} cpu = Some r /\
    ret_value BigEndian true (DM := mips32_dm BigEndian true) TFloat r = 0x40400000.
Proof.
  apply (o32_scalar_call_end_to_end BigEndian true true ex_vm ex_args TFloat (fun _ => 0x40400000)
           {| ret_2 := 5; ret_3 := 6; ret_f0 := 7 |} (replicate 16 0) 0).
  - constructor; [split; [constructor; cbn; lia|vm_compute; discriminate]|vm_compute; discriminate|apply Forall_replicate; done|].
    split; [reflexivity|apply Forall_replicate; done].
  - vm_compute. discriminate.
  - reflexivity.
  - repeat (constructor; [first [reflexivity|right; reflexivity]|]). constructor.
  - reflexivity.
Defined.

(** Both byte orders: $4-$7, $f12 and $f14. *)
Example o32_registers e :
  (vm ← dcReset (C := o32_CallVM e true true) ex_vm;
   vf ← push_args (DM := mips32_dm e true) (C := o32_CallVM e true true) vm ex_args;
   cpu ← kernel_enter e true (dcCall_as (C := o32_CallVM e true true) TInt vf 0);
   Some (gprs cpu, map (wrapU 32) (take 1 (fprs cpu)), drop 1 (fprs cpu)))
  = Some (match e with
          | BigEndian => [0x3f800000; 0xcccccccc; 0x3ff80000; 0]
          | LittleEndian => [0x3f800000; 0xcccccccc; 0; 0x3ff80000]
          end, [0x3f800000], [0x3ff8000000000000]).
Proof. by destruct e. Qed.
End O32.

Module Eabi.
Import MipsEabiProps.

Definition ex_vm : DCCallVM_mips_eabi :=
  {| ea_mVTpointer := gVT_mips_eabi_p; ea_mError := 0; mIntRegs := 8; mSingleRegs := 3; mIntData := replicate 8 0xcc;
     mSingleData := replicate 8 0xcc; mVecHead := {| mTotal := 128; mSize := 16; vec_data := replicate 144 0xcc |} |}.

(** The [long long] skips $5, the last two arguments are on the stack. *)
Definition ex_args : list arg :=
  [Arg TUChar 200; Arg TLongLong (-2); Arg TFloat 0x3f800000; Arg TDouble 0x3ff8000000000000; Arg TShort (-3); Arg TBool 1;
   Arg TInt (-7); Arg TULongLong 5].

Lemma eabi_scalar_call_end_to_end_witness :
  exists vm vf cpu,
    dcReset (C := eabi_CallVM LittleEndian true) ex_vm = Some vm /\
    push_args (DM := mips32_dm LittleEndian true) (C := eabi_CallVM LittleEndian true) vm ex_args = Some vf /\
    kernel_enter LittleEndian (dcCall_as (C := eabi_CallVM LittleEndian true) TFloat vf 0) = Some cpu /\
    Forall2 (eabi_in LittleEndian true cpu) ex_args
      [InGpr 0; InGpr 2; InFpr 0; InGpr 4; InGpr 6; InGpr 7; OnStack 0; OnStack 8] /\
    (eabi_readable (map a_ty ex_args) no_args = true ->
     exists r, eabi_run_callback LittleEndian true (map a_ty ex_args) TFloat (fun _ => 0x40400000) cpu = Some r /\
       ret_value LittleEndian (DM := mips32_dm LittleEndian true) TFloat r = 0x40400000).
Proof.
  apply (eabi_scalar_call_end_to_end LittleEndian true ex_vm ex_args TFloat (fun _ => 0x40400000) 0).
  - constructor; [split; [constructor; cbn; lia|vm_compute; discriminate]|apply Forall_replicate; done|split; reflexivity].
  - vm_compute. discriminate.
  - repeat (constructor; [first [reflexivity|right; reflexivity]|]). constructor.
  - reflexivity.
Defined.

Example ex_args_readable : eabi_readable (map a_ty ex_args) no_args = true.
Proof. reflexivity. Qed.

(** Nine [float]s, one of them on the stack, then a [long long] in registers: the
    reader skips the next word of the stack, which holds the next argument. *)
Definition ex_many_floats : list arg :=
  replicate 9 (Arg TFloat 0x3f800000) ++ [Arg TLongLong (-2); Arg TFloat 0x40000000; Arg TFloat 0x40400000].

Example float_overflow_misread :
  eabi_readable (map a_ty ex_many_floats) no_args = false /\
  (vm ← dcReset (C := eabi_CallVM LittleEndian true) ex_vm;
   vf ← push_args (DM := mips32_dm LittleEndian true) (C := eabi_CallVM LittleEndian true) vm ex_many_floats;
   cpu ← kernel_enter LittleEndian (dcCall_as (C := eabi_CallVM LittleEndian true) TInt vf 0);
   '(l, _) ← read_args (RD := eabi_ArgReader LittleEndian true) (take 11 (map a_ty ex_many_floats)) (dcCallbackThunkEntry cpu);
   Some (drop 9 l)) = Some [Arg TLongLong (-2); Arg TFloat 0x40400000].
Proof. split; reflexivity. Qed.
End Eabi.

Module N64.
Import Mips64Props.

Definition ex_vm : DCCallVM_mips_n64 :=
  {| n_mVTpointer := gVT_mips_p; n_mError := 0; mRegCount := 3; mIntData := replicate 8 0xcc;
     mFloatData := replicate 64 0xcc; mUseDouble := 5; mVecHead := {| mTotal := 80; mSize := 16; vec_data := replicate 80 0xcc |} |}.

(** The last two are on the stack. *)
Definition ex_args : list arg :=
  [Arg TUChar 200; Arg TLongLong (-2); Arg TFloat 0x3f800000; Arg TDouble 0x3ff8000000000000; Arg TShort (-3); Arg TBool 1;
   Arg TPointer 0x120001000; Arg TULongLong 5; Arg TFloat 0x40000000; Arg TInt (-7)].

Lemma n64_scalar_call_end_to_end_witness :
  exists vm vf cpu r,
    dcReset (C := n64_CallVM BigEndian 64 true true) ex_vm = Some vm /\
    push_args (DM := mips64_dm BigEndian 64 true) (C := n64_CallVM BigEndian 64 true true) vm ex_args = Some vf /\
    kernel_enter BigEndian true (fun _ => 0xee) (dcCall_as (C := n64_CallVM BigEndian 64 true true) TFloat vf 0) = Some cpu /\
    Forall2 (n64_in BigEndian 64 true true cpu) ex_args (seqZ 0 10) /\
    n64_run_callback BigEndian true true (map a_ty ex_args) TFloat (fun _ => 0x40400000) {| ret_2 := 5; ret_f0 := 6 |} cpu = Some r /\
    ret_value true (DM := mips64_dm BigEndian 64 true) TFloat r = 0x40400000.
Proof.
  apply (n64_scalar_call_end_to_end BigEndian true true ex_vm ex_args TFloat (fun _ => 0x40400000) {| ret_2 := 5; ret_f0 := 6 |}
           (fun _ => 0xee) 0).
  - constructor; [split; [constructor; cbn; lia|vm_compute; split; [discriminate|reflexivity]]|vm_compute; discriminate
                 |apply Forall_replicate; done|split; reflexivity|reflexivity].
  - vm_compute. discriminate.
  - repeat (constructor; [first [reflexivity|right; reflexivity]|]). constructor.
  - reflexivity.
Defined.

(** With variable arguments a [float] goes to an integer register, as a [double]. *)
Example ellipsis_float :
  (vm ← dcMode (C := n64_CallVM LittleEndian 64 true true) ex_vm DC_CALL_C_ELLIPSIS_VARARGS;
   vm ← dcReset (C := n64_CallVM LittleEndian 64 true true) vm;
   vf ← push_args (DM := mips64_dm LittleEndian 64 true) (C := n64_CallVM LittleEndian 64 true true) vm [Arg TFloat 0x3f800000];
   aget 0 (mIntData vf)) = Some 0x3ff0000000000000.
Proof. reflexivity. Qed.
End N64.
