(* ===== verification/DynloadElf.v ===== *)
(** * Symbol tables of ELF files (dynload/dynload_syms_elf.c)

    [dlSymsInit] maps a file and walks its section headers; the other functions
    index the tables it found.  Pointers into the mapping are offsets in it. *)

From S2P Require Export Api.

(** The structures of <elf.h>, which is not part of the library: where they keep
    the members that are used.  An access outside the file is [None]. *)
Record Elf_Shdr := { sh_type : Z; sh_offset : Z; sh_size : Z; sh_link : Z; sh_entsize : Z }.

Class ElfFormat := {
  SHT_DYNSYM : Z;
  SHT_STRTAB : Z;
  ELFCLASS : Z;
  ei_class : list Z -> option Z;
  e_phoff : list Z -> option Z;
  e_shoff : list Z -> option Z;
  e_shnum : list Z -> option Z;
  sizeof_Shdr : Z;
  shdr_at : Z -> list Z -> option Elf_Shdr;
  sizeof_Sym : Z;
  st_name_at : Z -> list Z -> option Z;
  sht_distinct : SHT_DYNSYM <> SHT_STRTAB;
}.

Record DLSyms := {
  pStrTab : option Z;
  pSymTab : option Z;
  strTabSize : Z;
  nSymbols : Z;
  pElf_Ehdr : list Z;
  file : Z;
  fileSize : Z;
}.

Section Elf.
Context {DM : DataModel} {ELF : ElfFormat}.

(** One section of the traversal. *)
Definition visit (pSyms : DLSyms) (pSection : Elf_Shdr) : option DLSyms :=
  if sh_type pSection =? SHT_DYNSYM then
    match pSymTab pSyms with
    | Some _ => Some pSyms
    | None =>
      if sh_entsize pSection =? 0 then None (* division by zero *)
      else Some {| pStrTab := pStrTab pSyms; pSymTab := Some (sh_offset pSection);
                   strTabSize := strTabSize pSyms;
                   nSymbols := size_t (sh_size pSection / sh_entsize pSection);
                   pElf_Ehdr := pElf_Ehdr pSyms; file := file pSyms; fileSize := fileSize pSyms |}
    end
  else if sh_type pSection =? SHT_STRTAB then
    match pStrTab pSyms with
    | Some _ => Some pSyms
    | None => Some {| pStrTab := Some (sh_offset pSection); pSymTab := pSymTab pSyms;
                      strTabSize := size_t (sh_size pSection); nSymbols := nSymbols pSyms;
                      pElf_Ehdr := pElf_Ehdr pSyms; file := file pSyms; fileSize := fileSize pSyms |}
    end
  else Some pSyms.

(** [for (i = 1; i < e_shnum; i++)], left when both tables were found; the fuel
    bounds the iterations. *)
Fixpoint traverse (fuel : nat) (pS shnum i : Z) (pSyms : DLSyms) : option DLSyms :=
  if i <? shnum then
    match fuel with
    | O => None
    | S fuel =>
      pSection ← shdr_at (pS + i * sizeof_Shdr) (pElf_Ehdr pSyms);
      pSyms ← visit pSyms pSection;
      match pSymTab pSyms, pStrTab pSyms with
      | Some _, Some _ => Some pSyms
      | _, _ => traverse fuel pS shnum (i + 1) pSyms
      end
    end
  else Some pSyms.

(** The file as [stat] and [open] find it, with its descriptor, and the mapping;
    a failing assertion aborts. *)
Definition dlSymsInit (libPath : option (Z * Z)) (mapping : list Z) : option (option DLSyms) :=
  match libPath with
  | None => Some None
  | Some (fd, st_size) =>
    cls ← ei_class mapping;
    phoff ← e_phoff mapping;
    shoff ← e_shoff mapping;
    shnum ← e_shnum mapping;
    if (cls =? ELFCLASS) && (0 <? phoff) && (0 <? shoff) then
      pSyms ← traverse (Z.to_nat shnum) shoff shnum 1
        {| pStrTab := None; pSymTab := None; strTabSize := 0; nSymbols := 0;
           pElf_Ehdr := mapping; file := fd; fileSize := st_size |};
      Some (Some pSyms)
    else None
  end.

Definition dlSymsCount (pSyms : option DLSyms) : Z :=
  match pSyms with Some p => conv TInt (nSymbols p) | None => 0 end.

(** [NULL], or the position of the name in the mapping. *)
Definition dlSymsName (pSyms : option DLSyms) (index : Z) : option (option Z) :=
  match pSyms with
  | None => Some None
  | Some p =>
    match pSymTab p with
    | None => Some None
    | Some symtab =>
      if (index <? 0) || (nSymbols p <=? index) then Some None
      else
        st_name ← st_name_at (symtab + index * sizeof_Sym) (pElf_Ehdr p);
        let str_index := conv TInt st_name in
        if (str_index <? 0) || (strTabSize p <=? str_index) then Some None
        else match pStrTab p with
             | Some strtab => Some (Some (strtab + str_index))
             | None => None
             end
    end
  end.

(** [dladdr] of the system: the address and the name of the symbol at or below
    an address. *)
Definition dlSymsNameFromValue (dladdr : Z -> option (Z * Z)) (value : Z) : option Z :=
  match dladdr value with
  | Some (dli_saddr, dli_sname) => if value =? dli_saddr then Some dli_sname else None
  | None => None
  end.

(** What is given back, in this order. *)
Inductive released := Unmapped (m : list Z) (size : Z) | Closed (fd : Z) | Freed.

Definition dlSymsCleanup (pSyms : option DLSyms) : list released :=
  match pSyms with
  | Some p => [Unmapped (pElf_Ehdr p) (fileSize p); Closed (file p); Freed]
  | None => []
  end.

(** ** What the tables are

    The first section of each kind, in the order of the headers, where
    header 0 does not count. *)
Definition sections (m : list Z) (shoff shnum : Z) : option (list Elf_Shdr) :=
  mapM (fun i => shdr_at (shoff + i * sizeof_Shdr) m) (seqZ 1 (shnum - 1)).

Definition first_of (t : Z) (l : list Elf_Shdr) : option Elf_Shdr := List.find (fun s => sh_type s =? t) l.

(** The file is an ELF file of the right class whose headers are all there. *)
Record elf_file (m : list Z) (secs : list Elf_Shdr) : Prop := {
  ef_class : ei_class m = Some ELFCLASS;
  ef_phoff : exists p, e_phoff m = Some p /\ 0 < p;
  ef_sections : exists s n, e_shoff m = Some s /\ 0 < s /\ e_shnum m = Some n /\ sections m s n = Some secs;
  ef_entsize : Forall (fun s => sh_type s = SHT_DYNSYM -> sh_entsize s <> 0) secs;
}.

(** The tables after some sections were visited. *)
Record holds_first (p : DLSyms) (l : list Elf_Shdr) : Prop := {
  hf_sym : pSymTab p = sh_offset <$> first_of SHT_DYNSYM l;
  hf_num : nSymbols p = match first_of SHT_DYNSYM l with
                        | Some s => size_t (sh_size s / sh_entsize s) | None => 0 end;
  hf_str : pStrTab p = sh_offset <$> first_of SHT_STRTAB l;
  hf_size : strTabSize p = match first_of SHT_STRTAB l with Some s => size_t (sh_size s) | None => 0 end;
}.

Lemma first_of_app t l1 l2 :
  first_of t (l1 ++ l2) = match first_of t l1 with Some s => Some s | None => first_of t l2 end.
Proof. induction l1 as [|s l1 IH]; [done|]. cbn. by destruct (sh_type s =? t). Qed.

Lemma visit_first p l s :
  holds_first p l -> (sh_type s = SHT_DYNSYM -> sh_entsize s <> 0) ->
  exists p', visit p s = Some p' /\ holds_first p' (l ++ [s]) /\ pElf_Ehdr p' = pElf_Ehdr p /\
    file p' = file p /\ fileSize p' = fileSize p.
Proof.
  intros [H1 H2 H3 H4] He. unfold visit.
  destruct (Z.eqb_spec (sh_type s) SHT_DYNSYM) as [Hd|Hd].
  - assert (Hn : (sh_type s =? SHT_STRTAB) = false) by (apply Z.eqb_neq; rewrite Hd; apply sht_distinct).
    rewrite H1. destruct (first_of SHT_DYNSYM l) as [s0|] eqn:E; cbn [fmap option_fmap option_map].
    + exists p. split_and!; try done. constructor; rewrite !first_of_app, ?E; cbn; rewrite ?Hn, ?H1, ?E; try done;
        by destruct (first_of SHT_STRTAB l).
    + rewrite (proj2 (Z.eqb_neq _ _)) by auto. eexists. split_and!; [done| |done..].
      constructor; rewrite !first_of_app, ?E; cbn; rewrite ?Hn, ?Hd, ?Z.eqb_refl; try done;
        rewrite ?H3, ?H4; by destruct (first_of SHT_STRTAB l).
  - apply Z.eqb_neq in Hd. destruct (Z.eqb_spec (sh_type s) SHT_STRTAB) as [Hs|Hs].
    + rewrite H3. destruct (first_of SHT_STRTAB l) as [s0|] eqn:E; cbn [fmap option_fmap option_map].
      * exists p. split_and!; try done. constructor; rewrite !first_of_app, ?E; cbn; rewrite ?Hd, ?H3, ?E; try done;
          by destruct (first_of SHT_DYNSYM l).
      * eexists. split_and!; [done| |done..].
        constructor; rewrite !first_of_app, ?E; cbn; rewrite ?Hd, ?Hs, ?Z.eqb_refl; try done;
          rewrite ?H1, ?H2; by destruct (first_of SHT_DYNSYM l).
    + apply Z.eqb_neq in Hs. exists p. split_and!; try done.
      constructor; rewrite first_of_app; cbn; rewrite ?Hd, ?Hs, ?H1, ?H2, ?H3, ?H4;
        [by destruct (first_of SHT_DYNSYM l)|by destruct (first_of SHT_DYNSYM l)
        |by destruct (first_of SHT_STRTAB l)|by destruct (first_of SHT_STRTAB l)].
Qed.

Lemma holds_first_more p l l' :
  holds_first p l -> pSymTab p <> None -> pStrTab p <> None -> holds_first p (l ++ l').
Proof.
  intros [H1 H2 H3 H4] Hs Ht. rewrite H1 in Hs. rewrite H3 in Ht.
  destruct (first_of SHT_DYNSYM l) eqn:E1; [|done]. destruct (first_of SHT_STRTAB l) eqn:E2; [|done].
  constructor; rewrite first_of_app, ?E1, ?E2; done.
Qed.

Lemma traverse_total pS shnum rest : forall fuel i p seen,
  holds_first p seen ->
  mapM (fun i => shdr_at (pS + i * sizeof_Shdr) (pElf_Ehdr p)) (seqZ i (shnum - i)) = Some rest ->
  Forall (fun s => sh_type s = SHT_DYNSYM -> sh_entsize s <> 0) rest -> shnum - i <= Z.of_nat fuel ->
  exists p', traverse fuel pS shnum i p = Some p' /\ holds_first p' (seen ++ rest) /\
    pElf_Ehdr p' = pElf_Ehdr p /\ file p' = file p /\ fileSize p' = fileSize p.
Proof.
  induction rest as [|s rest IH]; intros fuel i p seen Hp Hm He Hf.
  - assert (shnum <= i).
    { destruct (Z.le_gt_cases shnum i); [done|]. rewrite seqZ_cons in Hm by lia. cbn in Hm.
      destruct (shdr_at _ _); [|done]. cbn in Hm. by destruct (mapM _ _). }
    exists p. rewrite app_nil_r. destruct fuel; cbn [traverse]; rewrite (proj2 (Z.ltb_ge _ _)) by lia; done.
  - destruct (Z.le_gt_cases shnum i).
    { rewrite seqZ_nil in Hm by lia. done. }
    rewrite seqZ_cons in Hm by lia. cbn [mapM] in Hm.
    destruct (shdr_at (pS + i * sizeof_Shdr) (pElf_Ehdr p)) as [s0|] eqn:Es; [|done]. cbn in Hm.
    replace (Z.pred (shnum - i)) with (shnum - (i + 1)) in Hm by lia. change (Z.succ i) with (i + 1) in Hm.
    destruct (mapM _ _) as [rest0|] eqn:Er; [|done]. cbn in Hm. injection Hm as -> ->.
    apply Forall_cons in He as [Hes He].
    destruct fuel as [|fuel]; [lia|]. cbn [traverse]. rewrite (proj2 (Z.ltb_lt _ _)), Es by lia. cbn [mbind option_bind].
    destruct (visit_first p seen s Hp Hes) as (p1 & -> & Hp1 & Ee & Ef & Ez). cbn [mbind option_bind].
    destruct (IH fuel (i + 1) p1 (seen ++ [s]) Hp1) as (p2 & E2 & Hp2 & ?); [by rewrite Ee|done|lia|].
    rewrite <- app_assoc in Hp2. cbn [app] in Hp2.
    destruct (pSymTab p1) as [a|] eqn:Ea; [destruct (pStrTab p1) as [b|] eqn:Eb|].
    + exists p1. split_and!; try done. replace (seen ++ s :: rest) with ((seen ++ [s]) ++ rest) by by rewrite <- app_assoc.
      apply holds_first_more; [done|by rewrite Ea|by rewrite Eb].
    + exists p2. rewrite E2. intuition congruence.
    + exists p2. rewrite E2. intuition congruence.
Qed.

Lemma init_ok m secs fd st_size :
  elf_file m secs ->
  exists p, dlSymsInit (Some (fd, st_size)) m = Some (Some p) /\ holds_first p secs /\
    pElf_Ehdr p = m /\ file p = fd /\ fileSize p = st_size.
Proof.
  intros [Hc (ph & Hph & ?) (sh & n & Hsh & ? & Hn & Hsec) He]. unfold dlSymsInit. rewrite Hc, Hph, Hsh, Hn.
  cbn [mbind option_bind]. rewrite Z.eqb_refl, !(proj2 (Z.ltb_lt _ _)) by done. cbn [andb].
  set (p0 := Build_DLSyms _ _ _ _ _ _ _).
  destruct (traverse_total sh n secs (Z.to_nat n) 1 p0 []) as (p & -> & Hp & ? & ? & ?); [by constructor|exact Hsec|done|lia|].
  by exists p.
Qed.

(** C23: [dlSymsInit] returns for every ELF file whose section headers are all
    in the file and whose symbol tables have entries of some size: the walk
    ends after at most [e_shnum] headers, and it found the first dynamic symbol
    table and the first string table of the file, in whatever order they are. *)
Theorem elf_dlSymsInit_terminates m secs fd st_size :
  elf_file m secs ->
  exists p, dlSymsInit (Some (fd, st_size)) m = Some (Some p) /\
    pElf_Ehdr p = m /\ file p = fd /\ fileSize p = st_size /\
    pSymTab p = sh_offset <$> first_of SHT_DYNSYM secs /\
    dlSymsCount (Some p) = match first_of SHT_DYNSYM secs with
                           | Some s => conv TInt (size_t (sh_size s / sh_entsize s)) | None => 0 end /\
    pStrTab p = sh_offset <$> first_of SHT_STRTAB secs.
Proof.
  intros Hf. destruct (init_ok m secs fd st_size Hf) as (p & Hp & [H1 H2 H3 H4] & ?). exists p.
  split_and!; try done; [by intuition..|]. cbn [dlSymsCount]. rewrite H2. by destruct (first_of SHT_DYNSYM secs).
Qed.

(** ** Names

    The standard says where the name of symbol [i] is: in the string table
    that the symbol table section is linked to. *)
Definition linked_strtab (m : list Z) (shoff : Z) (symtab : Elf_Shdr) : option Elf_Shdr :=
  shdr_at (shoff + sh_link symtab * sizeof_Shdr) m.

Definition name_position (m : list Z) (shoff : Z) (symtab : Elf_Shdr) (i : Z) : option Z :=
  strtab ← linked_strtab m shoff symtab;
  st_name ← st_name_at (sh_offset symtab + i * sizeof_Sym) m;
  Some (sh_offset strtab + st_name).

(** C24: names are looked up as the ELF standard says, provided that the first
    string table of the file is the one the symbol table is linked to.  With an
    index outside of the table, [dlSymsName] gives [NULL] and reads nothing.  With
    an index below the count, it gives [NULL] if the offset of the name is not
    inside the first string table (or does not fit an [int]); otherwise the
    position of the symbol's name, if the first string table is the linked one:
    the library takes the first without asking, and whenever the linked one is
    elsewhere, every name it gives is wrong. *)
Theorem elf_dlSymsName_linked m secs fd st_size p shoff symtab i :
  elf_file m secs -> e_shoff m = Some shoff ->
  dlSymsInit (Some (fd, st_size)) m = Some (Some p) ->
  first_of SHT_DYNSYM secs = Some symtab -> in_u dm_size_bits (sh_size symtab / sh_entsize symtab) ->
  if (0 <=? i) && (i <? sh_size symtab / sh_entsize symtab)
  then forall strtab name,
    first_of SHT_STRTAB secs = Some strtab -> in_u dm_size_bits (sh_size strtab) ->
    st_name_at (sh_offset symtab + i * sizeof_Sym) m = Some name -> in_u 32 name ->
    if (name <? sh_size strtab) && (name <? 2 ^ 31)
    then exists pos, dlSymsName (Some p) i = Some (Some pos) /\
           forall linked, linked_strtab m shoff symtab = Some linked ->
             (Some pos = name_position m shoff symtab i <-> sh_offset strtab = sh_offset linked)
    else dlSymsName (Some p) i = Some None
  else dlSymsName (Some p) i = Some None.
Proof.
  intros Hf Hsh Hinit Hsym Hnum.
  destruct (init_ok m secs fd st_size Hf) as (p' & Hp & [H1 H2 H3 H4] & Hm & _). rewrite Hinit in Hp. injection Hp as <-.
  rewrite Hsym in H1, H2. unfold size_t in H2. rewrite !wrapU_id in H2 by done.
  unfold dlSymsName, name_position. rewrite H1, H2. cbn [fmap option_fmap option_map].
  destruct (Z.leb_spec 0 i) as [Hi|Hi]; [|by rewrite (proj2 (Z.ltb_lt i 0) Hi)].
  rewrite (proj2 (Z.ltb_ge i 0) Hi), Z.leb_antisym. cbn [orb andb].
  destruct (i <? sh_size symtab / sh_entsize symtab); [|done]. cbn [negb].
  intros strtab name Hstr Hsz Hst Hname. rewrite Hstr in H3, H4. unfold size_t in H4. rewrite wrapU_id in H4 by done.
  rewrite H3, H4, Hm, Hst. cbn [fmap option_fmap option_map mbind option_bind].
  unfold conv. cbn [ty_bits]. unfold in_u in Hname.
  destruct (Z.ltb_spec name (2 ^ 31)) as [Hint|Hint].
  - rewrite wrapS_id by (unfold in_s; lia). rewrite (proj2 (Z.ltb_ge name 0)), Z.leb_antisym, andb_true_r by lia. cbn [orb].
    destruct (name <? sh_size strtab); cbn [negb]; [|done]. eexists. split; [done|].
    intros linked Hlink. rewrite Hlink. cbn [mbind option_bind]. split; [intros [= E]; lia|intros ->; done].
  - rewrite andb_false_r. unfold wrapS.
    rewrite <- (Z.mod_unique (name + 2 ^ (32 - 1)) (2 ^ 32) 1 (name - 2 ^ 31)) by lia.
    by rewrite (proj2 (Z.ltb_lt _ 0)) by lia.
Qed.

End Elf.

(** ** A small 64-bit file

    The layout of the structures is that of the ELF-64 object file format. *)

Definition elf_dm : DataModel :=
  {| dm_endian := LittleEndian; dm_size_bits := 64; dm_long_bits := 64; dm_char_signed := true |}.

Definition field (n : nat) (off : Z) (m : list Z) : option Z := dec LittleEndian <$> rd off n m.

Definition elf64 : ElfFormat := {|
  SHT_DYNSYM := 11; SHT_STRTAB := 3; ELFCLASS := 2;
  ei_class := field 1 4; e_phoff := field 8 32; e_shoff := field 8 40; e_shnum := field 2 60;
  sizeof_Shdr := 64;
  shdr_at off m :=
    ty ← field 4 (off + 4) m; o ← field 8 (off + 24) m; sz ← field 8 (off + 32) m;
    link ← field 4 (off + 40) m; es ← field 8 (off + 56) m;
    Some {| sh_type := ty; sh_offset := o; sh_size := sz; sh_link := link; sh_entsize := es |};
  sizeof_Sym := 24;
  st_name_at := field 4;
  sht_distinct := ltac:(lia);
|}.

Definition ex_shdr (ty off size link entsize : Z) : list Z :=
  enc LittleEndian 4 0 ++ enc LittleEndian 4 ty ++ replicate 16 0 ++ enc LittleEndian 8 off ++
  enc LittleEndian 8 size ++ enc LittleEndian 4 link ++ replicate 12 0 ++ enc LittleEndian 8 entsize.

(** Header, a string table with the names [f] and [g], two symbols, and the
    headers of the empty section, the symbols and the strings. *)
Definition ex_elf : list Z :=
  [127; 69; 76; 70; 2] ++ replicate 27 0 ++ enc LittleEndian 8 64 ++ enc LittleEndian 8 120 ++
  replicate 12 0 ++ enc LittleEndian 2 3 ++ replicate 2 0 ++
  [0; 102; 0; 103; 0; 0; 0; 0] ++
  enc LittleEndian 4 1 ++ replicate 20 0 ++ enc LittleEndian 4 3 ++ replicate 20 0 ++
  ex_shdr 0 0 0 0 0 ++ ex_shdr 11 72 48 2 24 ++ ex_shdr 3 64 8 0 0.

Definition ex_secs : list Elf_Shdr := [Build_Elf_Shdr 11 72 48 2 24; Build_Elf_Shdr 3 64 8 0 0].

Lemma ex_elf_file : elf_file (ELF := elf64) ex_elf ex_secs.
Proof.
  constructor.
  - reflexivity.
  - exists 64. split; reflexivity.
  - exists 120, 3. repeat split; reflexivity.
  - repeat constructor; cbn; lia.
Qed.

Lemma elf_dlSymsInit_terminates_witness :
  exists p, dlSymsInit (DM := elf_dm) (ELF := elf64) (Some (3, 312)) ex_elf = Some (Some p) /\
    pElf_Ehdr p = ex_elf /\ file p = 3 /\ fileSize p = 312 /\
    pSymTab p = Some 72 /\ dlSymsCount (DM := elf_dm) (Some p) = 2 /\ pStrTab p = Some 64.
Proof. apply (elf_dlSymsInit_terminates (DM := elf_dm) (ELF := elf64) ex_elf ex_secs 3 312 ex_elf_file). Defined.

(** The second symbol is [g], at position 67; there is no third. *)
Lemma elf_dlSymsName_linked_witness :
  exists p, dlSymsInit (DM := elf_dm) (ELF := elf64) (Some (3, 312)) ex_elf = Some (Some p) /\
    (exists pos, dlSymsName (DM := elf_dm) (ELF := elf64) (Some p) 1 = Some (Some pos) /\
      forall linked, linked_strtab (ELF := elf64) ex_elf 120 (Build_Elf_Shdr 11 72 48 2 24) = Some linked ->
      (Some pos = Some 67 <-> 64 = sh_offset linked)) /\
    dlSymsName (DM := elf_dm) (ELF := elf64) (Some p) 2 = Some None.
Proof.
  assert (Hnum : in_u (dm_size_bits (DataModel := elf_dm)) (48 / 24)) by (vm_compute; split; (discriminate || reflexivity)).
  eexists. split; [reflexivity|]. split.
  - eapply (elf_dlSymsName_linked (DM := elf_dm) (ELF := elf64) ex_elf ex_secs 3 312 _ 120
             (Build_Elf_Shdr 11 72 48 2 24) 1 ex_elf_file eq_refl eq_refl eq_refl Hnum (Build_Elf_Shdr 3 64 8 0 0) 3);
      try reflexivity; vm_compute; split; (discriminate || reflexivity).
  - apply (elf_dlSymsName_linked (DM := elf_dm) (ELF := elf64) ex_elf ex_secs 3 312 _ 120
             (Build_Elf_Shdr 11 72 48 2 24) 2 ex_elf_file eq_refl eq_refl eq_refl Hnum).
Defined.
