(* ===== verification/DynloadPe.v ===== *)
(** * Symbol tables of Windows modules (dynload/dynload_syms_pe.c)

    The library is loaded, and its export directory read in place.  [m] is the
    image at its base address; what the code reaches through relative addresses
    are offsets in it. *)

From S2P Require Export Api.

(** The headers of <windows.h>: where the members that are used are. *)
Class PeFormat := {
  IMAGE_DIRECTORY_ENTRY_EXPORT : Z;
  sizeof_OptionalHeader_fixed : Z; (** offset of [DataDirectory] *)
  e_lfanew : list Z -> option Z;
  SizeOfOptionalHeader : Z -> list Z -> option Z; (** at a PE header *)
  NumberOfRvaAndSizes : Z -> list Z -> option Z;
  export_VirtualAddress : Z -> list Z -> option Z;
  AddressOfNames : Z -> list Z -> option Z; (** at an export directory *)
  AddressOfFunctions : Z -> list Z -> option Z;
  AddressOfNameOrdinals : Z -> list Z -> option Z;
  NumberOfNames : Z -> list Z -> option Z;
}.

Record DLSyms := {
  pLib : Z;
  pBase : Z;
  pNames : Z;
  pFuncs : Z;
  pOrds : Z;
  count : Z;
}.

Section Pe.
Context {DM : DataModel} {PE : PeFormat}.

(** [dlLoadLibrary] gave the handle [lib], which is the address of the image
    [m]; the number is that of the references to the library that are held. *)
Definition dlSymsInit (lib : option (Z * list Z)) (held : Z) : option (option DLSyms * Z) :=
  match lib with
  | None => Some (None, held)
  | Some (base, m) =>
    let held := held + 1 in
    nt ← e_lfanew m;
    opt ← SizeOfOptionalHeader nt m;
    if opt <? sizeof_OptionalHeader_fixed then Some (None, held)
    else
      n ← NumberOfRvaAndSizes nt m;
      if n <=? IMAGE_DIRECTORY_ENTRY_EXPORT then Some (None, held)
      else
        va ← export_VirtualAddress nt m;
        if va =? 0 then Some (None, held)
        else
          names ← AddressOfNames va m;
          funcs ← AddressOfFunctions va m;
          ords ← AddressOfNameOrdinals va m;
          cnt ← NumberOfNames va m;
          Some (Some {| pLib := base; pBase := base; pNames := names; pFuncs := funcs; pOrds := ords;
                        count := size_t cnt |}, held)
  end.

Definition dlSymsCleanup (pSyms : option DLSyms) (held : Z) : Z :=
  match pSyms with Some _ => held - 1 | None => held end.

Definition dlSymsCount (pSyms : option DLSyms) : Z :=
  match pSyms with Some p => conv TInt (count p) | None => 0 end.

(** [NULL], or the address of the name. *)
Definition dlSymsName (m : list Z) (pSyms : option DLSyms) (index : Z) : option (option Z) :=
  match pSyms with
  | None => Some None
  | Some p =>
    if (index <? 0) || (count p <=? index) then Some None
    else rva ← rd (pNames p + 4 * index) 4 m; Some (Some (size_t (pBase p + dec LittleEndian rva)))
  end.

(** The address of the function that the name with some index is for. *)
Definition func_addr (m : list Z) (p : DLSyms) (i : Z) : option Z :=
  ord ← rd (pOrds p + 2 * i) 2 m;
  rva ← rd (pFuncs p + 4 * dec LittleEndian ord) 4 m;
  Some (size_t (pBase p + dec LittleEndian rva)).

(** [for(i=0; i<c; ++i)] *)
Fixpoint search (fuel : nat) (m : list Z) (p : DLSyms) (value i c : Z) : option (option Z) :=
  if i <? c then
    match fuel with
    | O => None
    | S fuel =>
      a ← func_addr m p i;
      if a =? value then dlSymsName m (Some p) i else search fuel m p value (i + 1) c
    end
  else Some None.

Definition dlSymsNameFromValue (m : list Z) (p : DLSyms) (value : Z) : option (option Z) :=
  let c := dlSymsCount (Some p) in search (Z.to_nat c) m p value 0 c.

(** ** Lookup by address

    The tables of the [n] names lie in the image. *)
Definition tables_ok (m : list Z) (p : DLSyms) (n : Z) : Prop :=
  forall i, 0 <= i < n ->
    (exists a, func_addr m p i = Some a) /\ (exists a, dlSymsName m (Some p) i = Some (Some a)).

(** The least index at or behind [i] whose function has the address. *)
Definition least_index (m : list Z) (p : DLSyms) (value i n k : Z) : Prop :=
  i <= k < n /\ func_addr m p k = Some value /\ forall j, i <= j < k -> func_addr m p j <> Some value.

Lemma search_spec m p value n : forall fuel i,
  tables_ok m p n -> 0 <= i -> n - i <= Z.of_nat fuel ->
  (exists k, least_index m p value i n k /\ search fuel m p value i n = dlSymsName m (Some p) k) \/
  (search fuel m p value i n = Some None /\ forall j, i <= j < n -> func_addr m p j <> Some value).
Proof.
  induction fuel as [|fuel IH]; intros i Ht Hi Hf; cbn [search]; destruct (Z.ltb_spec i n) as [Hlt|Hge]; try lia.
  - right. split; [done|]. intros. lia.
  - destruct (Ht i ltac:(lia)) as [[a Ha] _]. rewrite Ha. cbn [mbind option_bind].
    destruct (Z.eqb_spec a value) as [->|Hne].
    + left. exists i. split; [|done]. split; [lia|]. split; [done|]. intros. lia.
    + destruct (IH (i + 1) Ht ltac:(lia) ltac:(lia)) as [(k & (Hk & Hv & Hl) & ->)|[-> Hl]].
      * left. exists k. split; [|done]. split; [lia|]. split; [done|].
        intros j Hj. destruct (decide (j = i)) as [->|]; [congruence|]. apply Hl. lia.
      * right. split; [done|]. intros j Hj. destruct (decide (j = i)) as [->|]; [congruence|]. apply Hl. lia.
  - right. split; [done|]. intros. lia.
Qed.

(** C25: looking a symbol up by its address ends after at most [dlSymsCount]
    steps and gives the name with the least index among those of a function
    at this address, or [NULL] when no name has one. *)
Theorem pe_dlSymsNameFromValue_least m p value :
  0 <= count p < 2 ^ 31 -> tables_ok m p (count p) ->
  exists r, dlSymsNameFromValue m p value = Some r /\
    match r with
    | Some name => exists k, least_index m p value 0 (count p) k /\ dlSymsName m (Some p) k = Some (Some name)
    | None => forall j, 0 <= j < count p -> func_addr m p j <> Some value
    end.
Proof.
  intros Hc Ht. unfold dlSymsNameFromValue, dlSymsCount.
  replace (conv TInt (count p)) with (count p) by (unfold conv; cbn [ty_bits]; rewrite wrapS_id by (unfold in_s; lia); done).
  destruct (search_spec m p value (count p) (Z.to_nat (count p)) 0 Ht) as [(k & Hk & ->)|[-> Hn]]; [lia|lia| |].
  - destruct Hk as (Hk & Hv & Hl). destruct (Ht k Hk) as [_ [name Hname]].
    exists (Some name). split; [done|]. by exists k.
  - by exists None.
Qed.

End Pe.

(** ** Two names in an image *)

Definition pe_dm : DataModel :=
  {| dm_endian := LittleEndian; dm_size_bits := 64; dm_long_bits := 32; dm_char_signed := true |}.

(** Names at 24 and 26, functions at 0x40 and 0x80, exported in reverse order. *)
Definition ex_pe : list Z :=
  enc LittleEndian 4 24 ++ enc LittleEndian 4 26 ++ enc LittleEndian 4 0x40 ++ enc LittleEndian 4 0x80 ++
  enc LittleEndian 2 1 ++ enc LittleEndian 2 0 ++ replicate 4 0 ++ [102; 0; 103; 0].

Definition ex_syms : DLSyms :=
  {| pLib := 0x10000; pBase := 0x10000; pNames := 0; pFuncs := 8; pOrds := 16; count := 2 |}.

Lemma ex_tables : tables_ok (DM := pe_dm) ex_pe ex_syms 2.
Proof.
  intros i Hi. assert (i = 0 \/ i = 1) as [-> | ->] by lia; split; eexists; vm_compute; reflexivity.
Qed.

Lemma pe_dlSymsNameFromValue_least_witness :
  exists r, dlSymsNameFromValue (DM := pe_dm) ex_pe ex_syms 0x10080 = Some r /\
    match r with
    | Some name => exists k, least_index (DM := pe_dm) ex_pe ex_syms 0x10080 0 2 k /\
                     dlSymsName (DM := pe_dm) ex_pe (Some ex_syms) k = Some (Some name)
    | None => forall j, 0 <= j < 2 -> func_addr (DM := pe_dm) ex_pe ex_syms j <> Some 0x10080
    end.
Proof.
  apply (pe_dlSymsNameFromValue_least (DM := pe_dm) ex_pe ex_syms 0x10080); [vm_compute; split; [discriminate|reflexivity]|].
  apply ex_tables.
Defined.
