(* ===== verification/DynloadMacho.v ===== *)
(** * Symbol tables of Mach-O images (dynload/dynload_syms_mach-o.c)

    [dlSymsInit] opens a library, finds its image among those that are mapped and
    walks the load commands behind the image's header; names are looked up through
    [dladdr].  Pointers are addresses of the process. *)

From S2P Require Export DynloadElf.

(** The structures of <mach-o/loader.h> and <mach-o/nlist.h>, which are not part of
    the library, as they are read from memory: an access outside it is [None]. *)
Record mach_header := { h_magic : Z; h_filetype : Z; h_ncmds : Z }.
Record load_command := { lc_cmd : Z; lc_cmdsize : Z }.
Record segment_command := { sg_segname : string; sg_vmaddr : Z; sg_fileoff : Z }.
Record symtab_command := { st_symoff : Z; st_nsyms : Z; st_stroff : Z }.
Record nlist := { n_type : Z; n_value : Z }.

Class MachFormat := {
  MACH_HEADER_MAGIC_NR : Z;
  MH_DYLIB : Z;
  SEGMENT_COMMAND_ID : Z;
  LC_SYMTAB : Z;
  N_STAB : Z;
  N_TYPE : Z;
  N_SECT : Z;
  sizeof_mach_header : Z;
  sizeof_symtab_command : Z;
  sizeof_nlist : Z;
  header_at : Z -> option mach_header;
  command_at : Z -> option load_command;
  segment_at : Z -> option segment_command;
  symtab_at : Z -> option symtab_command;
  nlist_at : Z -> option nlist;
  commands_distinct : SEGMENT_COMMAND_ID <> LC_SYMTAB;
}.

(** [dlopen] and [dlclose] on a state of the loader that counts how often each
    handle is open; a handle is not NULL.  Without a path the handle is that of
    the process. *)
Class Dlfcn (LS : Type) := {
  dl_open : option (list Z) -> LS -> option (Z * LS);
  dl_close : Z -> LS -> LS;
  dl_count : LS -> Z -> nat;
  dl_open_ok : forall path ls h ls', dl_open path ls = Some (h, ls') ->
    h <> 0 /\ forall k, dl_count ls' k = (dl_count ls k + if (k =? h)%Z then 1 else 0)%nat;
  dl_close_ok : forall h ls k, dl_count (dl_close h ls) k = (dl_count ls k - if (k =? h)%Z then 1 else 0)%nat;
}.

Record DLSyms := {
  pLib : Z;
  pStringTable : Z;
  pSymbolTable : Z;
  symbolCount : Z;
  symOffset : Z;
}.

(** What the loop over the load commands keeps. *)
Record scan := { s_base : Z; s_slide : Z; s_offset : Z; s_syms : option DLSyms }.

Section Macho.
Context {DM : DataModel} {MACH : MachFormat} {LS : Type} {DL : Dlfcn LS}.

Definition uintptr (x : Z) : Z := wrapU dm_size_bits x.

(** The mapped images: the name, if there is one, and the address of the header.
    An image is ours if opening it by name gives our handle. *)
Fixpoint find_image (lib : Z) (images : list (option (list Z) * Z)) (ls : LS) : option Z * LS :=
  match images with
  | [] => (None, ls)
  | (None, _) :: images => find_image lib images ls
  | (Some name, header) :: images =>
    match dl_open (Some name) ls with
    | Some (lib', ls) =>
      let ls := dl_close lib' ls in
      if lib =? lib' then (Some header, ls) else find_image lib images ls
    | None => find_image lib images ls
    end
  end.

Definition visit_segment (header : Z) (seg : segment_command) (s : scan) : scan :=
  let s := if String.eqb (sg_segname seg) "__TEXT"
           then {| s_base := s_base s; s_slide := uintptr (header - sg_vmaddr seg); s_offset := s_offset s; s_syms := s_syms s |}
           else s in
  if String.eqb (sg_segname seg) "__LINKEDIT"
  then {| s_base := uintptr (sg_vmaddr seg - sg_fileoff seg + s_slide s); s_slide := s_slide s; s_offset := s_slide s;
          s_syms := s_syms s |}
  else s.

Definition visit_symtab (lib : Z) (scmd : symtab_command) (s : scan) : scan :=
  {| s_base := s_base s; s_slide := s_slide s; s_offset := s_offset s;
     s_syms := Some {| pLib := lib; pStringTable := uintptr (s_base s + st_stroff scmd);
                       pSymbolTable := uintptr (s_base s + st_symoff scmd);
                       symbolCount := st_nsyms scmd; symOffset := s_offset s |} |}.

(** [n] load commands from [cmd] on; a symbol table command of another size ends
    the loop. *)
Fixpoint load_commands (lib header : Z) (n : nat) (cmd : Z) (s : scan) : option scan :=
  match n with
  | O => Some s
  | S n =>
    c ← command_at cmd;
    let next := load_commands lib header n (uintptr (cmd + lc_cmdsize c)) in
    if lc_cmd c =? SEGMENT_COMMAND_ID then
      seg ← segment_at cmd; next (visit_segment header seg s)
    else if lc_cmd c =? LC_SYMTAB then
      match s_syms s with
      | Some _ => next s
      | None =>
        if lc_cmdsize c =? sizeof_symtab_command
        then scmd ← symtab_at cmd; next (visit_symtab lib scmd s)
        else Some s
      end
    else next s
  end.

(** [None]: undefined behaviour; the symbols, or NULL, and the loader. *)
Definition dlSymsInit (images : list (option (list Z) * Z)) (libPath : option (list Z)) (ls : LS)
    : option (option DLSyms * LS) :=
  match dl_open libPath ls with
  | None => Some (None, ls)
  | Some (lib, ls) =>
    let '(pHeader, ls) := find_image lib images ls in
    syms ← match pHeader with
           | None => Some None
           | Some header =>
             h ← header_at header;
             if (h_magic h =? MACH_HEADER_MAGIC_NR) && (h_filetype h =? MH_DYLIB) then
               s ← load_commands lib header (Z.to_nat (h_ncmds h)) (uintptr (header + sizeof_mach_header))
                     {| s_base := header; s_slide := 0; s_offset := 0; s_syms := None |};
               Some (s_syms s)
             else Some None
           end;
    match syms with
    | Some p => Some (Some p, ls)
    | None => Some (None, dl_close lib ls)
    end
  end.

(** The memory is given back as well. *)
Definition dlSymsCleanup (pSyms : option DLSyms) (ls : LS) : LS * list released :=
  match pSyms with
  | Some p => (dl_close (pLib p) ls, [Freed])
  | None => (ls, [])
  end.

Definition dlSymsCount (pSyms : option DLSyms) : Z :=
  match pSyms with Some p => conv TInt (symbolCount p) | None => 0 end.

(** The symbol at or below an address, as [dladdr] of the system gives it. *)
Definition dlSymsNameFromValue (dladdr : Z -> option (Z * Z)) (value : Z) : option Z :=
  match dladdr value with
  | Some (dli_saddr, dli_sname) => if value =? dli_saddr then Some dli_sname else None
  | None => None
  end.

(** The index is not checked. *)
Definition dlSymsName (dladdr : Z -> option (Z * Z)) (pSyms : option DLSyms) (index : Z) : option (option Z) :=
  match pSyms with
  | None => Some None
  | Some p =>
    nl ← nlist_at (uintptr (pSymbolTable p + index * sizeof_nlist));
    if (Z.land (n_type nl) N_TYPE =? N_SECT) && (Z.land (n_type nl) N_STAB =? 0)
    then Some (dlSymsNameFromValue dladdr (uintptr (n_value nl + symOffset p)))
    else Some None
  end.

(** ** The loader's counts *)

Definition opened (pSyms : option DLSyms) (k : Z) : nat :=
  match pSyms with Some p => if k =? pLib p then 1%nat else 0%nat | None => 0%nat end.

Lemma find_image_counts lib images : forall ls header ls',
  find_image lib images ls = (header, ls') -> forall k, dl_count ls' k = dl_count ls k.
Proof.
  induction images as [|[[name|] hd] images IH]; intros ls header ls' H k; cbn [find_image] in H.
  - by injection H as _ <-.
  - destruct (dl_open (Some name) ls) as [[lib' ls1]|] eqn:Ho; [|by eapply IH].
    destruct (dl_open_ok _ _ _ _ Ho) as [_ Hc].
    assert (Hcl : dl_count (dl_close lib' ls1) k = dl_count ls k) by (rewrite dl_close_ok, Hc; destruct (k =? lib'); lia).
    destruct (lib =? lib'); [by injection H as _ <-|]. rewrite <- Hcl. by eapply IH.
  - by eapply IH.
Qed.

Lemma load_commands_lib lib header n : forall cmd s s',
  load_commands lib header n cmd s = Some s' -> (forall p, s_syms s = Some p -> pLib p = lib) ->
  forall p, s_syms s' = Some p -> pLib p = lib.
Proof.
  induction n as [|n IH]; intros cmd s s' H Hs p Hp; cbn [load_commands] in H; [injection H as <-; auto|].
  apply bind_Some in H as (c & _ & H).
  destruct (lc_cmd c =? SEGMENT_COMMAND_ID); [|destruct (lc_cmd c =? LC_SYMTAB); [|by eapply IH]].
  - apply bind_Some in H as (seg & _ & H). eapply IH; [exact H| |exact Hp]. unfold visit_segment. intros q Hq. apply Hs.
    destruct (String.eqb _ _), (String.eqb _ _); exact Hq.
  - destruct (s_syms s) as [q|] eqn:Es; [eapply IH; [exact H| |exact Hp]; by rewrite Es|].
    destruct (lc_cmdsize c =? sizeof_symtab_command); [|injection H as <-; by rewrite Es in Hp].
    apply bind_Some in H as (scmd & _ & H). eapply IH; [exact H| |exact Hp]. by intros ? [= <-].
Qed.

(** C38: reading the symbols of a Mach-O library leaves the loader's counts balanced.
    Whatever images are mapped and whatever their load commands are, [dlSymsInit]
    leaves exactly one more open handle, that of the library, if it returns
    symbols, and none if it returns NULL, although it opens every image to compare
    it with the library; and [dlSymsCleanup] closes that handle. *)
Theorem macho_dlSymsInit_balanced images libPath ls syms ls' :
  dlSymsInit images libPath ls = Some (syms, ls') ->
  (forall k, dl_count ls' k = (dl_count ls k + opened syms k)%nat) /\
  (forall k, dl_count (dlSymsCleanup syms ls').1 k = dl_count ls k).
Proof.
  intros H. assert (Hc : forall k, dl_count ls' k = (dl_count ls k + opened syms k)%nat).
  { unfold dlSymsInit in H. destruct (dl_open libPath ls) as [[lib ls1]|] eqn:Ho; [|injection H as <- <-; cbn; lia].
    destruct (dl_open_ok _ _ _ _ Ho) as [_ Hc1]. destruct (find_image lib images ls1) as [header ls2] eqn:Hf.
    pose proof (find_image_counts _ _ _ _ _ Hf) as Hc2. apply bind_Some in H as (r & Hr & H). intros k.
    destruct r as [p|]; injection H as <- <-; cbn [opened].
    - assert (pLib p = lib) as ->; [|by rewrite Hc2, Hc1].
      destruct header as [header|]; [|done]. apply bind_Some in Hr as (h & _ & Hr). destruct (_ && _); [|done].
      apply bind_Some in Hr as (s & Hs & [= Hp]). by eapply load_commands_lib.
    - rewrite dl_close_ok, Hc2, Hc1. destruct (k =? lib); lia. }
  split; [exact Hc|]. intros k. destruct syms as [p|]; cbn [dlSymsCleanup fst].
  - rewrite dl_close_ok, Hc. cbn [opened]. destruct (k =? pLib p); lia.
  - rewrite Hc. cbn. lia.
Qed.

(** ** The tables

    The commands of an image, as far as they matter. *)
Inductive command := Segment (seg : segment_command) | Symtab (scmd : symtab_command) | Other.

Definition parse_command (cmd : Z) : option (command * Z) :=
  c ← command_at cmd;
  if lc_cmd c =? SEGMENT_COMMAND_ID then seg ← segment_at cmd; Some (Segment seg, lc_cmdsize c)
  else if lc_cmd c =? LC_SYMTAB then
    if lc_cmdsize c =? sizeof_symtab_command then scmd ← symtab_at cmd; Some (Symtab scmd, lc_cmdsize c) else None
  else Some (Other, lc_cmdsize c).

Fixpoint parse_commands (n : nat) (cmd : Z) : option (list command) :=
  match n with
  | O => Some []
  | S n => '(c, size) ← parse_command cmd; l ← parse_commands n (uintptr (cmd + size)); Some (c :: l)
  end.

Definition visit_command (lib header : Z) (s : scan) (c : command) : scan :=
  match c with
  | Segment seg => visit_segment header seg s
  | Symtab scmd => match s_syms s with Some _ => s | None => visit_symtab lib scmd s end
  | Other => s
  end.

(** Where all commands have the right size, the loop visits one after the other. *)
Lemma load_commands_fold lib header n : forall cmd l s,
  parse_commands n cmd = Some l -> load_commands lib header n cmd s = Some (fold_left (visit_command lib header) l s).
Proof.
  induction n as [|n IH]; intros cmd l s H; cbn [parse_commands load_commands] in *; [by injection H as <-|].
  apply bind_Some in H as ([c size] & Hc & H). apply bind_Some in H as (l' & Hl & [= <-]). cbn [fold_left].
  unfold parse_command in Hc. apply bind_Some in Hc as (lc & -> & Hc). cbn [mbind option_bind].
  destruct (lc_cmd lc =? SEGMENT_COMMAND_ID); [|destruct (lc_cmd lc =? LC_SYMTAB); [destruct (lc_cmdsize lc =? sizeof_symtab_command)|]]; try done.
  - apply bind_Some in Hc as (seg & -> & [= <- <-]). cbn [mbind option_bind]. by apply IH.
  - apply bind_Some in Hc as (scmd & -> & [= <- <-]). cbn [mbind option_bind visit_command].
    destruct (s_syms s); by apply IH.
  - injection Hc as <- <-. by apply IH.
Qed.

Definition named (name : string) (c : command) : bool :=
  match c with Segment seg => String.eqb (sg_segname seg) name | _ => false end.
Definition is_symtab (c : command) : bool := match c with Symtab _ => true | _ => false end.

(** Neither the two segments nor a symbol table. *)
Definition plain (c : command) : Prop := named "__TEXT" c = false /\ named "__LINKEDIT" c = false /\ is_symtab c = false.

Lemma visit_plain lib header l : forall s, Forall plain l -> fold_left (visit_command lib header) l s = s.
Proof.
  induction l as [|c l IH]; intros s Hl; [done|]. apply Forall_cons in Hl as [(Ht & Hk & Hs) Hl]. cbn [fold_left].
  rewrite IH by done. destruct c as [seg|scmd|]; try done. cbn in *. unfold visit_segment. by rewrite Ht, Hk.
Qed.

Lemma visit_keeps_syms lib header l : forall s p,
  s_syms s = Some p -> s_syms (fold_left (visit_command lib header) l s) = Some p.
Proof.
  induction l as [|c l IH]; intros s p Hs; [done|]. cbn [fold_left]. apply IH. destruct c as [seg|scmd|]; cbn; [|by rewrite Hs|done].
  unfold visit_segment. by destruct (String.eqb _ _), (String.eqb _ _).
Qed.

(** The symbol table of a library is found where it is mapped.  The image has its
    text, the data for the linker and the symbol table command in this order, as
    the linker writes them: then the tables are at the addresses at which bytes
    [symoff] and [stroff] of the file are mapped with the second segment, moved by
    what the image was moved by, and so are the symbols' values. *)
Theorem macho_symbol_table_mapped images libPath ls lib ls1 header ls2 h l0 text l1 linkedit l2 scmd l3 :
  dl_open libPath ls = Some (lib, ls1) -> find_image lib images ls1 = (Some header, ls2) ->
  header_at header = Some h -> h_magic h = MACH_HEADER_MAGIC_NR -> h_filetype h = MH_DYLIB ->
  parse_commands (Z.to_nat (h_ncmds h)) (uintptr (header + sizeof_mach_header))
    = Some (l0 ++ Segment text :: l1 ++ Segment linkedit :: l2 ++ Symtab scmd :: l3) ->
  sg_segname text = "__TEXT" -> sg_segname linkedit = "__LINKEDIT" -> Forall plain (l0 ++ l1 ++ l2) ->
  let moved := header - sg_vmaddr text in
  let mapped off := uintptr (sg_vmaddr linkedit + moved + (off - sg_fileoff linkedit)) in
  dlSymsInit images libPath ls
  = Some (Some {| pLib := lib; pStringTable := mapped (st_stroff scmd); pSymbolTable := mapped (st_symoff scmd);
                  symbolCount := st_nsyms scmd; symOffset := uintptr moved |}, ls2).
Proof.
  intros Ho Hf Hh Hm Hd Hp Ht Hk Hpl moved mapped. unfold dlSymsInit. rewrite Ho, Hf, Hh. cbn [mbind option_bind].
  rewrite Hm, Hd, !Z.eqb_refl. cbn [andb]. rewrite (load_commands_fold _ _ _ _ _ _ Hp). cbn [mbind option_bind].
  apply Forall_app in Hpl as [H0 [H1 H2]%Forall_app].
  rewrite !fold_left_app. cbn [fold_left]. rewrite (visit_plain _ _ l0) by done. rewrite !fold_left_app. cbn [fold_left].
  rewrite (visit_plain _ _ l1) by done. rewrite !fold_left_app. cbn [fold_left]. rewrite (visit_plain _ _ l2) by done.
  assert (E : forall a b, uintptr (uintptr a + b) = uintptr (a + b)) by (intros; unfold uintptr, wrapU; by rewrite Zplus_mod_idemp_l).
  assert (E' : forall a b, uintptr (a + uintptr b) = uintptr (a + b)) by (intros; unfold uintptr, wrapU; by rewrite Zplus_mod_idemp_r).
  cbn [visit_command].
  set (s1 := visit_segment header text _). set (s2 := visit_segment header linkedit _).
  assert (H1' : s1 = {| s_base := header; s_slide := uintptr moved; s_offset := 0; s_syms := None |})
    by (unfold s1, visit_segment; by rewrite Ht).
  assert (H2' : s2 = {| s_base := uintptr (sg_vmaddr linkedit - sg_fileoff linkedit + uintptr moved); s_slide := uintptr moved;
                        s_offset := uintptr moved; s_syms := None |}) by (unfold s2, visit_segment; by rewrite Hk, H1').
  rewrite H2'. cbn [s_syms]. erewrite visit_keeps_syms by reflexivity. cbn [s_base s_offset].
  do 4 f_equal; unfold mapped; rewrite E', E; f_equal; lia.
Qed.

(** A symbol that is defined in a section and is no debugging entry has the name
    [dladdr] has for its address in memory. *)
Theorem macho_dlSymsName_defined dladdr p index nl name :
  nlist_at (uintptr (pSymbolTable p + index * sizeof_nlist)) = Some nl ->
  Z.land (n_type nl) N_TYPE = N_SECT -> Z.land (n_type nl) N_STAB = 0 ->
  dladdr (uintptr (n_value nl + symOffset p)) = Some (uintptr (n_value nl + symOffset p), name) ->
  dlSymsName dladdr (Some p) index = Some (Some name).
Proof.
  intros Hn Ht Hs Hd. unfold dlSymsName, dlSymsNameFromValue. rewrite Hn. cbn [mbind option_bind].
  by rewrite Ht, Hs, !Z.eqb_refl, Hd, Z.eqb_refl.
Qed.

(** Unlike the other two implementations, this one reads the entry of any index. *)
Theorem macho_dlSymsName_unchecked dladdr p index :
  dlSymsCount (Some p) <= index -> nlist_at (uintptr (pSymbolTable p + index * sizeof_nlist)) = None ->
  dlSymsName dladdr (Some p) index = None.
Proof. intros _ Hn. unfold dlSymsName. by rewrite Hn. Qed.
End Macho.

(** ** The properties at concrete inputs *)

Module Examples.

Definition ex_dm : DataModel :=
  {| dm_endian := LittleEndian; dm_size_bits := 64; dm_long_bits := 64; dm_char_signed := true |}.

(** A library linked at 0x100000 and mapped at 0x701000: its commands, of which the
    third is the symbol table, and one symbol. *)
Definition ex_commands : list (Z * (load_command * option segment_command * option symtab_command)) :=
  [(0x701020, ({| lc_cmd := 25; lc_cmdsize := 72 |}, Some {| sg_segname := "__TEXT"; sg_vmaddr := 0x100000; sg_fileoff := 0 |}, None));
   (0x701068, ({| lc_cmd := 25; lc_cmdsize := 72 |},
               Some {| sg_segname := "__LINKEDIT"; sg_vmaddr := 0x104000; sg_fileoff := 0x3000 |}, None));
   (0x7010b0, ({| lc_cmd := 2; lc_cmdsize := 24 |}, None, Some {| st_symoff := 0x3100; st_nsyms := 1; st_stroff := 0x3200 |}))].

Definition ex_lookup {A} (a : Z) (l : list (Z * A)) : option A := snd <$> List.find (fun x => fst x =? a) l.

#[refine] Definition ex_mach : MachFormat := {|
  MACH_HEADER_MAGIC_NR := 0xfeedfacf; MH_DYLIB := 6; SEGMENT_COMMAND_ID := 25; LC_SYMTAB := 2;
  N_STAB := 0xe0; N_TYPE := 0x0e; N_SECT := 0x0e;
  sizeof_mach_header := 32; sizeof_symtab_command := 24; sizeof_nlist := 16;
  header_at a := if a =? 0x701000 then Some {| h_magic := 0xfeedfacf; h_filetype := 6; h_ncmds := 3 |} else None;
  command_at a := (fun x => x.1.1) <$> ex_lookup a ex_commands;
  segment_at a := x ← ex_lookup a ex_commands; x.1.2;
  symtab_at a := x ← ex_lookup a ex_commands; x.2;
  nlist_at a := if a =? 0x705100 then Some {| n_type := 0x0f; n_value := 0x100040 |} else None;
|}.
Proof. discriminate. Defined.

(** Handles by the first letter of a path. *)
#[refine] Definition ex_dlfcn : Dlfcn (Z -> nat) := {|
  dl_open path ls := match path with
                     | Some (c :: _) => if c =? 0 then None else Some (c, fun k => (ls k + if (k =? c)%Z then 1 else 0)%nat)
                     | Some [] => None
                     | None => Some (1, fun k => (ls k + if (k =? 1)%Z then 1 else 0)%nat)
                     end;
  dl_close h ls k := (ls k - if (k =? h)%Z then 1 else 0)%nat;
  dl_count ls k := ls k;
|}.
Proof.
  - intros [[|c path]|] ls h ls' H; [done| |by injection H as <- <-]. destruct (Z.eqb_spec c 0); [done|]. injection H as <- <-. done.
  - done.
Defined.

Definition ex_images : list (option (list Z) * Z) := [(None, 0x400000); (Some [98], 0x600000); (Some [97], 0x701000)].
Definition ex_loader : Z -> nat := fun k => if k =? 98 then 2%nat else 0%nat.
Definition ex_syms : DLSyms :=
  {| pLib := 97; pStringTable := 0x705200; pSymbolTable := 0x705100; symbolCount := 1; symOffset := 0x601000 |}.

Example ex_init :
  exists ls', dlSymsInit (DM := ex_dm) (MACH := ex_mach) (DL := ex_dlfcn) ex_images (Some [97]) ex_loader = Some (Some ex_syms, ls') /\
    map ls' [97; 98] = [1%nat; 2%nat].
Proof. eexists. split; vm_compute; reflexivity. Qed.

(** Without a path: the handle of the process is that of none of the images, and
    is closed again. *)
Example ex_init_process :
  exists ls', dlSymsInit (DM := ex_dm) (MACH := ex_mach) (DL := ex_dlfcn) ex_images None ex_loader = Some (None, ls') /\
    map ls' [1; 97; 98] = [0%nat; 0%nat; 2%nat].
Proof. eexists. split; vm_compute; reflexivity. Qed.

Lemma macho_dlSymsInit_balanced_witness :
  exists ls', dlSymsInit (DM := ex_dm) (MACH := ex_mach) (DL := ex_dlfcn) ex_images (Some [97]) ex_loader = Some (Some ex_syms, ls') /\
    (forall k, ls' k = (ex_loader k + opened (Some ex_syms) k)%nat) /\
    (forall k, (dlSymsCleanup (DL := ex_dlfcn) (Some ex_syms) ls').1 k = ex_loader k).
Proof.
  eexists. split; [reflexivity|].
  apply (macho_dlSymsInit_balanced (DM := ex_dm) (MACH := ex_mach) (DL := ex_dlfcn) ex_images (Some [97]) ex_loader (Some ex_syms)).
  reflexivity.
Defined.

(** The symbol is found at its address in memory. *)
Example ex_name :
  dlSymsName (DM := ex_dm) (MACH := ex_mach) (fun a => if a =? 0x701040 then Some (0x701040, 0x705204) else None) (Some ex_syms) 0
  = Some (Some 0x705204).
Proof. reflexivity. Qed.

End Examples.
