(* ===== verification/DynloadPath.v ===== *)
(** * Libraries and their paths (dynload/dynload_unix.c, dynload_windows.c)

    The functions of the system are parameters; strings are lists of characters
    without the terminating zero. *)

From S2P Require Export Api.

(** [sOut] is the output buffer.  [strcpy] copies with the terminator. *)
Definition strcpy (dst src : list Z) : option (list Z) := wr 0 (src ++ [0]) dst.

(** ** Unix *)

Section Unix.

(** [dlopen] with the flags of a library that is loaded already, or newly; no
    handle is 0. *)
Variable dlopen : list Z -> option Z.

Definition dlLoadLibrary (libPath : list Z) : option Z := dlopen libPath.

(** Returns the length; the buffer changes only if it is big enough. *)
Definition dl_strlen_strcpy (dst src : list Z) (dstSize : Z) : option (Z * list Z) :=
  let l := Z.of_nat (length src) in
  if l <? dstSize then dst ← strcpy dst src; Some (l, dst) else Some (l, dst).

(** An object of the process, as [dl_iterate_phdr] presents it: its name and
    its relocation base; the virtual addresses of its loadable segments. *)
Record phdr_info := { dlpi_name : list Z; dlpi_addr : Z; dlpi_load : list Z }.

(** [dladdr]: the file an address belongs to. *)
Variable dladdr : Z -> option (list Z).

Definition iter_phdr_cb (info : phdr_info) (pLib : option Z) (bufSize : Z) (sOut : list Z)
    : option (Z * list Z) :=
  let lib := match pLib with Some _ => dlopen (dlpi_name info) | None => None end in
  if decide (lib = pLib) then
    '(l, sOut) ← dl_strlen_strcpy sOut (dlpi_name info) bufSize;
    '(l, sOut) ← (if (l =? 0) && bool_decide (pLib = None) then
                    let vladdr := match dlpi_load info with
                                  | p_vaddr :: _ => dlpi_addr info + p_vaddr
                                  | [] => dlpi_addr info
                                  end in
                    match dladdr vladdr with
                    | Some dli_fname => dl_strlen_strcpy sOut dli_fname bufSize
                    | None => Some (l, sOut)
                    end
                  else Some (l, sOut));
    Some (l + 1, sOut)
  else Some (0, sOut).

(** [dl_iterate_phdr] calls a function for the objects of the process until it
    returns something else than 0, and returns that. *)
Variable dl_iterate_phdr : (phdr_info -> list Z -> option (Z * list Z)) -> list Z -> option (Z * list Z).

Definition dlGetLibraryPath (pLib : option Z) (sOut : list Z) (bufSize : Z) : option (Z * list Z) :=
  dl_iterate_phdr (fun info => iter_phdr_cb info pLib bufSize) sOut.

Definition iterates (objs : list phdr_info) : Prop :=
  forall cb s, dl_iterate_phdr cb s =
    (fix go (l : list phdr_info) (s : list Z) : option (Z * list Z) :=
       match l with
       | [] => Some (0, s)
       | info :: l => '(r, s) ← cb info s; if r =? 0 then go l s else Some (r, s)
       end) objs s.

(** What the manual promises: the size with the terminator, and the path itself
    in the buffer if it fits; the rest of the buffer stays. *)
Definition path_result (path : list Z) (bufSize : Z) (sOut : list Z) (r : Z) (sOut' : list Z) : Prop :=
  r = Z.of_nat (length path) + 1 /\ length sOut' = length sOut /\
  (r <= bufSize -> rd 0 (Z.to_nat r) sOut' = Some (path ++ [0])) /\
  forall off n, bufSize <= off -> rd off n sOut' = rd off n sOut.

Lemma strlen_strcpy_ok dst src size :
  0 <= size <= Z.of_nat (length dst) ->
  exists dst', dl_strlen_strcpy dst src size = Some (Z.of_nat (length src), dst') /\
    path_result src size dst (Z.of_nat (length src) + 1) dst'.
Proof.
  intros Hs. unfold dl_strlen_strcpy, path_result.
  destruct (Z.ltb_spec (Z.of_nat (length src)) size) as [Hlt|Hge].
  - unfold strcpy. destruct (wr 0 (src ++ [0]) dst) as [dst'|] eqn:E.
    + cbn [mbind option_bind]. exists dst'. split; [done|]. split; [done|]. split; [by eapply length_wr|].
      split; [intros _; eapply rd_wr_same; [exact E|]; rewrite length_app; cbn; lia|].
      intros off n Ho. eapply rd_wr_other; [exact E|]. rewrite length_app. cbn. lia.
    + rewrite wr_Some in E; [done|lia|]. rewrite length_app. cbn. lia.
  - exists dst. split; [done|]. split; [done|]. split; [done|]. split; [lia|done].
Qed.

(** The name the system reports for the object that is asked for: of the first
    object that opens with the handle, or of the executable - by address, when
    its own name is empty.  It is empty when that fails as well, or when the
    object with the handle has an empty name. *)
Definition object_name (objs : list phdr_info) (pLib : option Z) : option (list Z) :=
  match pLib with
  | Some _ => dlpi_name <$> List.find (fun o => bool_decide (dlopen (dlpi_name o) = pLib)) objs
  | None =>
    match objs with
    | [] => None
    | o :: _ =>
      match dlpi_name o with
      | [] => match dladdr (dlpi_addr o + default 0 (head (dlpi_load o))) with Some f => Some f | None => Some [] end
      | name => Some name
      end
    end
  end.

Lemma iter_cb_found o pLib bufSize sOut :
  0 <= bufSize <= Z.of_nat (length sOut) ->
  match pLib with Some _ => dlopen (dlpi_name o) | None => None end = pLib ->
  exists path r sOut', object_name [o] pLib = Some path /\
    iter_phdr_cb o pLib bufSize sOut = Some (r, sOut') /\ path_result path bufSize sOut r sOut'.
Proof.
  intros Hb Hlib. unfold iter_phdr_cb. rewrite Hlib, decide_True by done.
  destruct (strlen_strcpy_ok sOut (dlpi_name o) bufSize Hb) as (s1 & -> & Hp1). cbn [mbind option_bind].
  destruct pLib as [h|].
  - rewrite bool_decide_eq_false_2, andb_false_r by done. cbn [mbind option_bind object_name].
    cbn [List.find]. rewrite bool_decide_eq_true_2 by done. by eexists _, _, _.
  - cbn [object_name]. rewrite bool_decide_eq_true_2, andb_true_r by done.
    destruct (dlpi_name o) as [|c name] eqn:En; [|by eexists _, _, _]. cbn [length Z.of_nat Z.eqb].
    replace (match dlpi_load o with [] => dlpi_addr o | p_vaddr :: _ => dlpi_addr o + p_vaddr end)
      with (dlpi_addr o + default 0 (head (dlpi_load o))) by (destruct (dlpi_load o); cbn; lia).
    destruct (dladdr _) as [fname|]; [|by eexists _, _, _].
    destruct Hp1 as (_ & Hl1 & _ & Ho1).
    destruct (strlen_strcpy_ok s1 fname bufSize) as (s2 & -> & Hp2); [by rewrite Hl1|]. cbn [mbind option_bind].
    eexists _, _, _. split; [done|]. split; [done|]. destruct Hp2 as (? & ? & ? & Ho2). split; [done|]. split; [congruence|]. split; [done|].
    intros off n Ho. by rewrite Ho2, Ho1.
Qed.

Lemma iterated_path objs pLib sOut bufSize :
  iterates objs -> 0 <= bufSize <= Z.of_nat (length sOut) ->
  exists r sOut', dlGetLibraryPath pLib sOut bufSize = Some (r, sOut') /\
    match object_name objs pLib with
    | Some path => path_result path bufSize sOut r sOut'
    | None => r = 0 /\ sOut' = sOut
    end.
Proof.
  intros Hit Hb. unfold dlGetLibraryPath. rewrite Hit. clear Hit.
  induction objs as [|o objs IH]; [exists 0, sOut; split; [done|]; by destruct pLib|].
  destruct (decide (match pLib with Some _ => dlopen (dlpi_name o) | None => None end = pLib)) as [Hlib|Hlib].
  - destruct (iter_cb_found o pLib bufSize sOut Hb Hlib) as (path & r & s' & Ho & -> & Hp). cbn [mbind option_bind].
    rewrite (proj2 (Z.eqb_neq _ _)) by (destruct Hp as [-> _]; lia). exists r, s'. split; [done|].
    replace (object_name (o :: objs) pLib) with (Some path); [done|]. rewrite <- Ho. destruct pLib; [|done].
    cbn. by rewrite bool_decide_eq_true_2.
  - unfold iter_phdr_cb. rewrite decide_False by done. cbn [mbind option_bind Z.eqb].
    destruct IH as (r & s' & E & Hp). exists r, s'. split; [exact E|].
    replace (object_name (o :: objs) pLib) with (object_name objs pLib); [done|].
    destruct pLib; [|done]. cbn. by rewrite bool_decide_eq_false_2.
Qed.

(** *** Systems with [dlinfo], Darwin, and the rest *)

Variable dlinfo : option Z -> option (list Z). (** the name in the link map; [None] is RTLD_SELF *)
Variable image_names : list (list Z). (** of the images, by index *)
Variable dlsym_fini : option Z -> option Z. (** the address of [_fini] *)

Definition dlGetLibraryPath_dlinfo (pLib : option Z) (sOut : list Z) (bufSize : Z) : option (Z * list Z) :=
  match dlinfo pLib with
  | Some l_name => '(l, sOut) ← dl_strlen_strcpy sOut l_name bufSize; Some (l + 1, sOut)
  | None => Some (0, sOut)
  end.

(** [for(i=_dyld_image_count(); i>0;)]: handles agree up to their low two bits. *)
Fixpoint darwin_search (i : nat) (pLib : Z) (sOut : list Z) (bufSize : Z) : option (Z * list Z) :=
  match i with
  | O => Some (0, sOut)
  | S i =>
    libPath ← image_names !! i;
    match dlopen libPath with
    | Some lib =>
      if Z.lxor pLib lib <? 4
      then '(l, sOut) ← dl_strlen_strcpy sOut libPath bufSize; Some (l + 1, sOut)
      else darwin_search i pLib sOut bufSize
    | None => darwin_search i pLib sOut bufSize
    end
  end.

Definition dlGetLibraryPath_darwin (pLib : option Z) (sOut : list Z) (bufSize : Z) : option (Z * list Z) :=
  match pLib with
  | None =>
    match image_names with
    | libPath :: _ => '(l, sOut) ← dl_strlen_strcpy sOut libPath bufSize; Some (l + 1, sOut)
    | [] => Some (0, sOut)
    end
  | Some pLib => darwin_search (length image_names) pLib sOut bufSize
  end.

Definition dlGetLibraryPath_dladdr (pLib : option Z) (sOut : list Z) (bufSize : Z) : option (Z * list Z) :=
  match dlsym_fini pLib with
  | Some s =>
    match dladdr s with
    | Some dli_fname => '(l, sOut) ← dl_strlen_strcpy sOut dli_fname bufSize; Some (l + 1, sOut)
    | None => Some (0, sOut)
    end
  | None => Some (0, sOut)
  end.

(** The last image with the handle. *)
Definition darwin_image (pLib : Z) : option (list Z) :=
  List.find (fun name => match dlopen name with Some lib => Z.lxor pLib lib <? 4 | None => false end) (rev image_names).

Lemma strcpy_result src sOut bufSize :
  0 <= bufSize <= Z.of_nat (length sOut) ->
  exists r sOut', ('(l, s) ← dl_strlen_strcpy sOut src bufSize; Some (l + 1, s)) = Some (r, sOut') /\
    path_result src bufSize sOut r sOut'.
Proof. intros Hb. destruct (strlen_strcpy_ok sOut src bufSize Hb) as (s & -> & Hp). by eexists _, _. Qed.

Lemma darwin_search_ok pLib sOut bufSize i :
  0 <= bufSize <= Z.of_nat (length sOut) -> (i <= length image_names)%nat ->
  exists r sOut', darwin_search i pLib sOut bufSize = Some (r, sOut') /\
    match List.find (fun name => match dlopen name with Some lib => Z.lxor pLib lib <? 4 | None => false end)
            (rev (take i image_names)) with
    | Some path => path_result path bufSize sOut r sOut'
    | None => r = 0 /\ sOut' = sOut
    end.
Proof.
  intros Hb. induction i as [|i IH]; intros Hi; [by exists 0, sOut|]. cbn [darwin_search].
  destruct (lookup_lt_is_Some_2 image_names i ltac:(lia)) as [name Hn]. rewrite Hn. cbn [mbind option_bind].
  rewrite (take_S_r _ _ _ Hn), rev_app_distr. cbn [rev app List.find].
  destruct (dlopen name) as [lib|]; [|apply IH; lia]. destruct (Z.lxor pLib lib <? 4); [|apply IH; lia].
  by apply strcpy_result.
Qed.

(** A path that can be looked up: an empty name is none. *)
Definition path_of (name : option (list Z)) : option (list Z) :=
  name ← name; if decide (name = []) then None else Some name.

(** The promise of the manual for a path, or for none. *)
Definition outcome (path : option (list Z)) (sOut : list Z) (bufSize : Z) (call : option (Z * list Z)) : Prop :=
  exists r sOut', call = Some (r, sOut') /\
    match path with Some path => path_result path bufSize sOut r sOut' | None => r = 0 /\ sOut' = sOut end.

(** What the code does: it takes an empty name for a path. *)
Lemma name_reported objs pLib sOut bufSize :
  iterates objs -> 0 <= bufSize <= Z.of_nat (length sOut) ->
  outcome (object_name objs pLib) sOut bufSize (dlGetLibraryPath pLib sOut bufSize) /\
  outcome (dlinfo pLib) sOut bufSize (dlGetLibraryPath_dlinfo pLib sOut bufSize) /\
  outcome (match pLib with Some h => darwin_image h | None => head image_names end) sOut bufSize
    (dlGetLibraryPath_darwin pLib sOut bufSize) /\
  outcome (s ← dlsym_fini pLib; dladdr s) sOut bufSize (dlGetLibraryPath_dladdr pLib sOut bufSize).
Proof.
  intros Hit Hb. unfold outcome, dlGetLibraryPath_dlinfo, dlGetLibraryPath_darwin, dlGetLibraryPath_dladdr.
  split_and!; [by apply iterated_path|..].
  - destruct (dlinfo pLib); [by apply strcpy_result|by exists 0, sOut].
  - destruct pLib as [h|]; [|destruct image_names; [by exists 0, sOut|by apply strcpy_result]].
    destruct (darwin_search_ok h sOut bufSize (length image_names) Hb (le_n _)) as (r & s' & E & Hr).
    exists r, s'. split; [done|]. unfold darwin_image. by rewrite firstn_all in Hr.
  - destruct (dlsym_fini pLib) as [s|]; [|by exists 0, sOut]. cbn [mbind option_bind].
    destruct (dladdr s); [by apply strcpy_result|by exists 0, sOut].
Qed.

(** Without an empty name, that is the promise. *)
Lemma reported_outcome name sOut bufSize call :
  name <> Some [] -> outcome name sOut bufSize call -> outcome (path_of name) sOut bufSize call.
Proof. destruct name as [[|c name]|]; intros Hn H; [by destruct Hn|exact H|exact H]. Qed.

(** C26: [dlGetLibraryPath] does what the manual says on every Unix, as long as
    the system does not report an empty name: it returns the size of the path
    with its terminator, puts the path into the buffer when it fits, never
    writes behind [bufSize] bytes, and returns 0 with the buffer untouched when
    no name is found.  Which name that is depends on the system: that of the
    first object that opens with the handle (without a handle the executable's,
    which is looked up by address when it is empty), the one in the link map,
    that of the last image of Darwin with the handle, or that of the file
    [_fini] belongs to.  For an empty name - of an executable that [dladdr] does
    not know, or of the object with the handle - the promise is broken, see
    [unix_empty_name]. *)
Theorem unix_dlGetLibraryPath_correct objs pLib sOut bufSize :
  iterates objs -> 0 <= bufSize <= Z.of_nat (length sOut) ->
  (object_name objs pLib <> Some [] ->
   outcome (path_of (object_name objs pLib)) sOut bufSize (dlGetLibraryPath pLib sOut bufSize)) /\
  (dlinfo pLib <> Some [] ->
   outcome (path_of (dlinfo pLib)) sOut bufSize (dlGetLibraryPath_dlinfo pLib sOut bufSize)) /\
  (let name := match pLib with Some h => darwin_image h | None => head image_names end in
   name <> Some [] -> outcome (path_of name) sOut bufSize (dlGetLibraryPath_darwin pLib sOut bufSize)) /\
  (let name := s ← dlsym_fini pLib; dladdr s in
   name <> Some [] -> outcome (path_of name) sOut bufSize (dlGetLibraryPath_dladdr pLib sOut bufSize)).
Proof.
  intros Hit Hb. destruct (name_reported objs pLib sOut bufSize Hit Hb) as (H1 & H2 & H3 & H4).
  split_and!; [..|intros name|intros name]; intros Hn; by apply reported_outcome.
Qed.

(** For an empty name every version returns 1, the size of an empty string, where
    the manual has 0; the executable has one when its own is empty and [dladdr]
    fails. *)
Theorem unix_empty_name objs pLib sOut bufSize :
  iterates objs -> 0 <= bufSize <= Z.of_nat (length sOut) ->
  let empty call := exists sOut', call = Some (1, sOut') /\ path_result [] bufSize sOut 1 sOut' in
  path_of (Some []) = None /\
  (object_name objs pLib = Some [] -> empty (dlGetLibraryPath pLib sOut bufSize)) /\
  (dlinfo pLib = Some [] -> empty (dlGetLibraryPath_dlinfo pLib sOut bufSize)) /\
  (match pLib with Some h => darwin_image h | None => head image_names end = Some [] ->
   empty (dlGetLibraryPath_darwin pLib sOut bufSize)) /\
  ((s ← dlsym_fini pLib; dladdr s) = Some [] -> empty (dlGetLibraryPath_dladdr pLib sOut bufSize)).
Proof.
  intros Hit Hb empty. destruct (name_reported objs pLib sOut bufSize Hit Hb) as (H1 & H2 & H3 & H4).
  assert (H : forall name call, outcome name sOut bufSize call -> name = Some [] -> empty call).
  { intros name call (r & s' & Hc & Hr) ->. exists s'. pose proof Hr as [Hr1 _]. cbn in Hr1. by subst r. }
  split; [done|]. split_and!; eapply H; eassumption.
Qed.

Lemma executable_without_name o objs :
  dlpi_name o = [] -> dladdr (dlpi_addr o + default 0 (head (dlpi_load o))) = None ->
  object_name (o :: objs) None = Some [].
Proof. intros Hn Hd. cbn. by rewrite Hn, Hd. Qed.

End Unix.

(** ** Windows

    Strings are UTF-8 outside and lists of wide characters for the system. *)

Section Windows.
Variable dlAllocMem : Z -> bool. (** whether an allocation of a size succeeds *)
Variable MultiByteToWideChar : list Z -> option (list Z).
Variable WideCharToMultiByte : list Z -> list Z.
Variable LoadLibraryW : list Z -> option Z.
Variable GetModuleHandle : option Z. (** of the process *)
(** The result and the characters written for a buffer of some size. *)
Variable GetModuleFileNameW : option Z -> Z -> Z * list Z.

Definition sizeof_wchar_t : Z := 2.

(** The wide string up to its terminator. *)
Fixpoint wstr (ws : list Z) : list Z :=
  match ws with c :: ws => if c =? 0 then [] else c :: wstr ws | [] => [] end.

Definition dlLoadLibrary_win (libPath : option (list Z)) : option (option Z) :=
  match libPath with
  | None => Some GetModuleHandle
  | Some path =>
    match MultiByteToWideChar path with
    | None => Some None
    | Some conv =>
      let r := Z.of_nat (length conv) + 1 in
      if dlAllocMem ((r + 1) * sizeof_wchar_t) then
        (* the conversion with its terminator, and room for one more *)
        let ws := conv ++ [0; 0] in
        ws ← aset (r - 1) 46 ws;
        ws ← aset r 0 ws;
        Some (LoadLibraryW (wstr ws))
      else Some None
    end
  end.

Definition MAX_EXT_PATH : Z := Z.shiftl 1 15.

Fixpoint path_loop (fuel : nat) (pLib : option Z) (nc : Z) (sOut : list Z) (bufSize : Z) : option (Z * list Z) :=
  if nc <=? MAX_EXT_PATH then
    match fuel with
    | O => None
    | S fuel =>
      if dlAllocMem (nc * sizeof_wchar_t) then
        let '(r, ws) := GetModuleFileNameW pLib nc in
        if r =? nc then path_loop fuel pLib (Z.shiftl nc 1) sOut bufSize
        else if r =? 0 then Some (0, sOut)
        else
          let u := WideCharToMultiByte ws in
          let r := Z.of_nat (length u) + 1 in
          if r <=? bufSize then sOut ← strcpy sOut u; Some (r, sOut) else Some (r, sOut)
      else Some (0, sOut)
    end
  else Some (0, sOut).

Definition dlGetLibraryPath_win (pLib : option Z) (sOut : list Z) (bufSize : Z) : option (Z * list Z) :=
  path_loop 10 pLib (Z.shiftl 1 6) sOut bufSize.

(** The documented result of [GetModuleFileNameW]: the length of the path, the
    size of the buffer if the path was truncated, or 0. *)
Definition file_names (path : option Z -> option (list Z)) : Prop :=
  forall h nc, 0 < nc -> GetModuleFileNameW h nc =
    match path h with
    | None => (0, [])
    | Some w => if Z.of_nat (length w) <? nc then (Z.of_nat (length w), w) else (nc, take (Z.to_nat (nc - 1)) w)
    end.

Lemma path_loop_spec path pLib sOut bufSize : forall fuel nc,
  file_names path -> (forall n, dlAllocMem n = true) -> 0 <= bufSize <= Z.of_nat (length sOut) ->
  0 < nc -> nc * 2 ^ Z.of_nat fuel = 2 ^ 16 ->
  (forall w, path pLib = Some w -> w <> [] /\ (fuel = O -> nc / 2 <= Z.of_nat (length w))) ->
  exists r sOut', path_loop fuel pLib nc sOut bufSize = Some (r, sOut') /\
    match path pLib with
    | Some w => if Z.of_nat (length w) <? MAX_EXT_PATH
                then path_result (WideCharToMultiByte w) bufSize sOut r sOut' else r = 0 /\ sOut' = sOut
    | None => r = 0 /\ sOut' = sOut
    end.
Proof.
  intros fuel. change MAX_EXT_PATH with (2 ^ 15).
  induction fuel as [|fuel IH]; intros nc Hn Hal Hb Hnc Hp Hw; cbn [path_loop]; change MAX_EXT_PATH with (2 ^ 15).
  - change (2 ^ Z.of_nat 0) with 1 in Hp. rewrite Z.mul_1_r in Hp. subst nc. exists 0, sOut. split; [done|].
    destruct (path pLib) as [w|] eqn:Ew; [|done]. destruct (Hw w eq_refl) as [_ Hl]. specialize (Hl eq_refl).
    change (2 ^ 16 / 2) with (2 ^ 15) in Hl. by rewrite (proj2 (Z.ltb_ge _ _)).
  - rewrite Nat2Z.inj_succ, Z.pow_succ_r in Hp by lia.
    pose proof (Z.pow_pos_nonneg 2 (Z.of_nat fuel) ltac:(lia) ltac:(lia)).
    assert (Hle : nc <= 2 ^ 15) by nia.
    rewrite (proj2 (Z.leb_le _ _)), Hal, Hn by done.
    destruct (path pLib) as [w|] eqn:Ew; [|].
    + destruct (Hw w eq_refl) as [Hne _]. destruct (Z.ltb_spec (Z.of_nat (length w)) nc) as [Hlt|Hge].
      * rewrite (proj2 (Z.eqb_neq _ _)) by lia. rewrite (proj2 (Z.eqb_neq _ _)) by (destruct w; cbn; [done|lia]).
        rewrite (proj2 (Z.ltb_lt (Z.of_nat (length w)) (2 ^ 15))) by lia.
        destruct (strlen_strcpy_ok sOut (WideCharToMultiByte w) bufSize Hb) as (s' & E & Hr).
        unfold dl_strlen_strcpy in E. exists (Z.of_nat (length (WideCharToMultiByte w)) + 1), s'. split; [|done].
        replace (Z.of_nat (length (WideCharToMultiByte w)) + 1 <=? bufSize)
          with (Z.of_nat (length (WideCharToMultiByte w)) <? bufSize) by lia.
        destruct (_ <? bufSize); [|by injection E as ->].
        destruct (strcpy _ _); cbn in *; [|done]. by injection E as ->.
      * rewrite Z.eqb_refl, Z.shiftl_mul_pow2 by lia. change (2 ^ 1) with 2.
        apply (IH (nc * 2) Hn Hal Hb); [lia|lia|].
        intros w' [= <-]. split; [done|]. intros _. rewrite Z.div_mul by lia. done.
    + rewrite (proj2 (Z.eqb_neq 0 nc)) by lia. by exists 0, sOut.
Qed.

(** [dlGetLibraryPath] on Windows ends after at most ten buffers of doubling
    size and keeps the promise of the manual for every path Windows can have:
    a path shorter than 32768 characters is returned with its UTF-8 size and,
    when it fits, in the buffer; for a longer one or an unknown module the
    result is 0 and the buffer untouched. *)
Theorem windows_dlGetLibraryPath_correct path pLib sOut bufSize :
  file_names path -> (forall n, dlAllocMem n = true) -> 0 <= bufSize <= Z.of_nat (length sOut) ->
  (forall w, path pLib = Some w -> w <> []) ->
  exists r sOut', dlGetLibraryPath_win pLib sOut bufSize = Some (r, sOut') /\
    match path pLib with
    | Some w => if Z.of_nat (length w) <? MAX_EXT_PATH
                then path_result (WideCharToMultiByte w) bufSize sOut r sOut' else r = 0 /\ sOut' = sOut
    | None => r = 0 /\ sOut' = sOut
    end.
Proof.
  intros Hn Hal Hb Hw. apply path_loop_spec; try done.
  intros w Ew. split; [by apply Hw|]. intros E. discriminate E.
Qed.

End Windows.

(** ** Concrete systems *)

Definition ex_objs : list phdr_info :=
  [{| dlpi_name := []; dlpi_addr := 0x400000; dlpi_load := [0x40] |};
   {| dlpi_name := [108; 105; 98]; dlpi_addr := 0x7f0000; dlpi_load := [] |}].

Definition ex_dlopen (name : list Z) : option Z := if decide (name = [108; 105; 98]) then Some 0x5000 else None.
Definition ex_dladdr (a : Z) : option (list Z) := if a =? 0x400040 then Some [47; 97] else None.
Definition ex_iterate (cb : phdr_info -> list Z -> option (Z * list Z)) (s : list Z) : option (Z * list Z) :=
  (fix go (l : list phdr_info) (s : list Z) : option (Z * list Z) :=
     match l with
     | [] => Some (0, s)
     | info :: l => '(r, s) ← cb info s; if r =? 0 then go l s else Some (r, s)
     end) ex_objs s.

(** The executable has no name and is found by address; the library's handle
    has flags in its low bits. *)
Lemma unix_dlGetLibraryPath_correct_witness :
  outcome (Some [47; 97]) (replicate 16 7) 16
    (dlGetLibraryPath ex_dlopen ex_dladdr ex_iterate None (replicate 16 7) 16) /\
  outcome None (replicate 16 7) 16 (dlGetLibraryPath_dlinfo (fun _ => None) None (replicate 16 7) 16) /\
  outcome (Some [97]) (replicate 16 7) 16
    (dlGetLibraryPath_darwin ex_dlopen [[97]; [108; 105; 98]] None (replicate 16 7) 16) /\
  outcome (Some [47; 97]) (replicate 16 7) 16
    (dlGetLibraryPath_dladdr ex_dladdr (fun _ => Some 0x400040) None (replicate 16 7) 16).
Proof.
  destruct (unix_dlGetLibraryPath_correct ex_dlopen ex_dladdr ex_iterate (fun _ => None) [[97]; [108; 105; 98]]
           (fun _ => Some 0x400040) ex_objs None (replicate 16 7) 16) as (H1 & H2 & H3 & H4);
    [intros cb s; reflexivity|vm_compute; split; discriminate|].
  split; [|split; [|split]]; [apply H1|apply H2|apply H3|apply H4]; vm_compute; discriminate.
Defined.

(** Without [dladdr] the executable has an empty name. *)
Lemma unix_empty_name_witness :
  exists sOut', dlGetLibraryPath ex_dlopen (fun _ => None) ex_iterate None (replicate 16 7) 16 = Some (1, sOut') /\
    path_result [] 16 (replicate 16 7) 1 sOut'.
Proof.
  apply (unix_empty_name ex_dlopen (fun _ => None) ex_iterate (fun _ => None) [] (fun _ => None) ex_objs None (replicate 16 7) 16);
    [intros cb s; reflexivity|vm_compute; split; discriminate|by apply executable_without_name].
Defined.

(** A path of 70 characters does not fit the first buffer. *)
Definition ex_path (h : option Z) : option (list Z) := match h with Some _ => Some (replicate 70 97) | None => None end.
Definition ex_GetModuleFileNameW (h : option Z) (nc : Z) : Z * list Z :=
  match ex_path h with
  | None => (0, [])
  | Some w => if Z.of_nat (length w) <? nc then (Z.of_nat (length w), w) else (nc, take (Z.to_nat (nc - 1)) w)
  end.

Lemma windows_dlGetLibraryPath_correct_witness :
  exists r sOut', dlGetLibraryPath_win (fun _ => true) id ex_GetModuleFileNameW (Some 1) (replicate 80 7) 80 = Some (r, sOut') /\
    path_result (replicate 70 97) 80 (replicate 80 7) r sOut'.
Proof.
  apply (windows_dlGetLibraryPath_correct (fun _ => true) id ex_GetModuleFileNameW ex_path (Some 1) (replicate 80 7) 80);
    [intros h nc _; reflexivity|done|vm_compute; split; discriminate|intros w [= <-]; discriminate].
Defined.
