(* ===== verification/LibSymbols.v ===== *)
(** * What a library is made of
      (lib/Affix.cxx: Affix_list_symbols; lib/Affix/Lib.cxx: Affix_Lib_path;
       over dynload_unix.c and dynload_syms_elf.c)

    Both functions ask dynload for the path of a loaded library, into a buffer
    of 1024 bytes; the first then reads the symbol table of that file. *)

From S2P Require Export DynloadElf DynloadPath.
#[local] Open Scope Z_scope.

(** The bytes up to the first NUL. *)
Fixpoint until_nul (l : list Z) : option (list Z) :=
  match l with
  | [] => None
  | b :: l => if b =? 0 then Some [] else s ← until_nul l; Some (b :: s)
  end.

Definition cstr_at (m : list Z) (pos : Z) : option (list Z) :=
  if 0 <=? pos then until_nul (drop (Z.to_nat pos) m) else None.

(** A Perl exception, or a value; undefined behaviour is [None]. *)
Inductive answer (A : Type) := Value (x : A) | Throws (msg : string).
Arguments Value {A}. Arguments Throws {A}.

Section Symbols.
Context {DM : DataModel} {ELF : ElfFormat}.
Variable dlopen : list Z -> option Z.
Variable dladdr : Z -> option (list Z).
Variable dl_iterate_phdr : (phdr_info -> list Z -> option (Z * list Z)) -> list Z -> option (Z * list Z).
(** The file at a path: descriptor and size, if it can be opened, and its contents. *)
Variable files : list Z -> option (Z * Z) * list Z.

#[local] Abbreviation get_path := (dlGetLibraryPath dlopen dladdr dl_iterate_phdr).

Definition dl_handle (lib : Z) : option Z := if lib =? 0 then None else Some lib.

(** [newSVpv(symbolName, 0)] for every symbol with a name; [strlen(NULL)] is undefined. *)
Fixpoint push_names (syms : option DLSyms) (mapping : list Z) (indices : list Z) : option (list (list Z)) :=
  match indices with
  | [] => Some []
  | i :: indices =>
    symbolName ← dlSymsName syms i;
    pos ← symbolName;
    s ← cstr_at mapping pos;
    l ← push_names syms mapping indices;
    Some (if decide (s = []) then l else s :: l)
  end.

(** The argument is the address an object refers to, or none. *)
Definition Affix_list_symbols (lib : option Z) : option (answer (list (list Z))) :=
  match lib with
  | None => Some (Throws "lib is not of type Affix::Lib")
  | Some lib =>
    '(len, name) ← get_path (dl_handle lib) (repeat 0 1024) 1024;
    if len =? 0 then Some (Throws "Failed to get library name")
    else
      path ← until_nul name;
      let '(file, mapping) := files path in
      syms ← dlSymsInit file mapping;
      l ← push_names syms mapping (seqZ 0 (dlSymsCount syms));
      Some (Value l)
  end.

Definition Affix_Lib_path (lib : option Z) : option (answer (list Z)) :=
  match lib with
  | None => Some (Throws "lib is not of type Affix::Lib")
  | Some lib =>
    '(len, name) ← get_path (dl_handle lib) (repeat 0 1024) 1024;
    if len =? 0 then Some (Throws "Failed to get library name")
    else bs ← rd 0 (Z.to_nat (len - 1)) name; Some (Value bs)
  end.

(** The cache of a library's symbols is a hash of Perl's, named after its path; the
    values come in the order of the hash.  [hv_iternext] croaks on no hash. *)
Definition Affix_Lib_list_unmangled_symbols {SV} (cache : list Z -> option (list SV)) (lib : option Z) : option (answer (list SV)) :=
  match lib with
  | None => Some (Throws "lib is not of type Affix::Lib")
  | Some lib =>
    '(len, name) ← get_path (dl_handle lib) (repeat 0 1024) 1024;
    if len =? 0 then Some (Throws "Failed to get library name")
    else
      path ← until_nul name;
      match cache path with
      | Some values => Some (Value values)
      | None => Some (Throws "Bad hash")
      end
  end.

(** ** Names *)

Definition no_nul (s : list Z) : Prop := Forall (fun b => b <> 0) s.

Lemma until_nul_app s l : no_nul s -> until_nul (s ++ 0 :: l) = Some s.
Proof. induction 1 as [|b s Hb _ IH]; [done|]. cbn. by rewrite (proj2 (Z.eqb_neq _ _)), IH by done. Qed.

Lemma path_of_lib objs lib path :
  iterates dl_iterate_phdr objs -> object_name dlopen dladdr objs (dl_handle lib) = Some path ->
  exists name, get_path (dl_handle lib) (repeat 0 1024) 1024 = Some (Z.of_nat (length path) + 1, name) /\
    (Z.of_nat (length path) < 1024 -> exists rest, name = path ++ 0 :: rest).
Proof.
  intros Hit Hp. destruct (iterated_path dlopen dladdr dl_iterate_phdr objs (dl_handle lib) (repeat 0 1024) 1024 Hit)
    as (r & name & Hg & Hr); [rewrite repeat_length; lia|].
  rewrite Hp in Hr. destruct Hr as (-> & Hl & Hrd & _). exists name. split; [done|]. intros Hlt.
  specialize (Hrd ltac:(lia)). pose proof (rd_bound _ _ _ _ Hrd) as Hb.
  destruct (rd_Some 0 (Z.to_nat (Z.of_nat (length path) + 1)) name) as (bs & Hrd' & _ & E); [lia..|].
  rewrite Hrd in Hrd'. injection Hrd' as <-. change (Z.to_nat 0) with 0%nat in E. rewrite drop_0 in E.
  exists (drop (Z.to_nat (Z.of_nat (length path) + 1)) name).
  rewrite <- (take_drop (Z.to_nat (Z.of_nat (length path) + 1)) name) at 1. by rewrite <- E, <- app_assoc.
Qed.

(** What the ELF standard says the names are: strings of the string table. *)
Definition symbol_name (m : list Z) (symtab strtab : Elf_Shdr) (i : Z) : option (list Z) :=
  name ← st_name_at (sh_offset symtab + i * sizeof_Sym) m;
  if (0 <=? name) && (name <? Z.min (sh_size strtab) (2 ^ 31)) then cstr_at m (sh_offset strtab + name) else None.

Definition symbol_names (m : list Z) (symtab strtab : Elf_Shdr) : option (list (list Z)) :=
  mapM (symbol_name m symtab strtab) (seqZ 0 (sh_size symtab / sh_entsize symtab)).

Definition named (s : list Z) : Prop := s <> [].
#[export] Instance named_dec s : Decision (named s) := decide (s <> []).

Lemma push_names_ok p m symtab strtab l : forall names,
  pSymTab p = Some (sh_offset symtab) -> pStrTab p = Some (sh_offset strtab) -> pElf_Ehdr p = m ->
  strTabSize p = sh_size strtab -> Forall (fun i => 0 <= i < nSymbols p) l ->
  mapM (symbol_name m symtab strtab) l = Some names ->
  push_names (Some p) m l = Some (filter named names).
Proof.
  intros names Hs Ht Hm Hz. revert names. induction l as [|i l IH]; intros names Hl; cbn [mapM push_names].
  { by intros [= <-]. }
  apply Forall_cons in Hl as [Hi Hl]. intros (s & Hsn & Hn)%bind_Some. apply bind_Some in Hn as (names' & Hn & [= <-]).
  unfold symbol_name in Hsn. apply bind_Some in Hsn as (name & Hst & Hsn).
  destruct ((0 <=? name) && (name <? Z.min (sh_size strtab) (2 ^ 31))) eqn:E; [|done]. apply andb_true_iff in E as [E1%Z.leb_le E2%Z.ltb_lt].
  assert (dlSymsName (Some p) i = Some (Some (sh_offset strtab + name))) as ->.
  { unfold dlSymsName. rewrite Hs, Ht, Hm, Hz, Hst. rewrite (proj2 (Z.ltb_ge i 0)), (proj2 (Z.leb_gt _ i)) by lia.
    cbn [orb mbind option_bind]. unfold conv. rewrite wrapS_id by (unfold in_s; lia).
    by rewrite (proj2 (Z.ltb_ge name 0)), (proj2 (Z.leb_gt _ name)) by lia. }
  cbn [mbind option_bind]. rewrite Hsn. cbn [mbind option_bind]. rewrite (IH names') by done. cbn [mbind option_bind].
  rewrite filter_cons. destruct (decide (s = [])) as [->|Hne]; [by rewrite decide_False by (intros H; by apply H)|by rewrite decide_True].
Qed.

(** C33: [list_symbols] lists exactly the named symbols of the library, in the order of
    its symbol table.  For every loaded library whose path fits the buffer and whose
    file is an ELF file with the symbol table linked to the first string table, the
    result holds the names the ELF standard gives the symbols, each with its bytes,
    the empty ones left out; and [Affix::Lib::path] is the path. *)
Theorem list_symbols_complete objs lib path fd st_size m secs shoff symtab strtab linked names :
  iterates dl_iterate_phdr objs -> object_name dlopen dladdr objs (dl_handle lib) = Some path ->
  no_nul path -> Z.of_nat (length path) < 1024 ->
  files path = (Some (fd, st_size), m) -> elf_file m secs -> e_shoff m = Some shoff ->
  first_of SHT_DYNSYM secs = Some symtab -> first_of SHT_STRTAB secs = Some strtab ->
  linked_strtab m shoff symtab = Some linked -> sh_offset linked = sh_offset strtab ->
  in_u dm_size_bits (sh_size strtab) -> in_u dm_size_bits (sh_size symtab / sh_entsize symtab) ->
  sh_size symtab / sh_entsize symtab < 2 ^ 31 -> symbol_names m symtab linked = Some names -> sh_size linked = sh_size strtab ->
  Affix_list_symbols (Some lib) = Some (Value (filter named names)) /\ Affix_Lib_path (Some lib) = Some (Value path).
Proof.
  intros Hit Hp Hnn Hlen Hf Helf Hsh Hsym Hstr _ Hoff Hsz Hnum Hint Hnames Hlsz.
  destruct (path_of_lib objs lib path Hit Hp) as (name & Hg & Hname). destruct (Hname Hlen) as (rest & ->).
  unfold Affix_list_symbols, Affix_Lib_path. rewrite Hg. cbn [mbind option_bind].
  rewrite (proj2 (Z.eqb_neq _ _)) by lia. rewrite until_nul_app by done. cbn [mbind option_bind]. rewrite Hf.
  destruct (init_ok m secs fd st_size Helf) as (p & -> & [H1 H2 H3 H4] & Hm & _). cbn [mbind option_bind].
  rewrite Hsym in H1, H2. rewrite Hstr in H3, H4. unfold size_t in *.
  rewrite wrapU_id in H2 by done. rewrite wrapU_id in H4 by done.
  assert (Hc : dlSymsCount (Some p) = sh_size symtab / sh_entsize symtab).
  { cbn [dlSymsCount]. rewrite H2. unfold conv. rewrite wrapS_id; [done|lia|]. unfold in_s, in_u in *. cbn. lia. }
  split.
  - rewrite Hc, (push_names_ok p m symtab strtab _ names); try done.
    + apply Forall_seqZ. intros i Hi. rewrite H2. lia.
    + unfold symbol_names, symbol_name in *. by rewrite Hoff, Hlsz in Hnames.
  - replace (Z.to_nat (Z.of_nat (length path) + 1 - 1)) with (length path) by lia. by rewrite rd0_app.
Qed.

(** The unmangled symbols are those the cache has for the path; without a cache the
    call croaks. *)
Theorem list_unmangled_symbols_cached {SV} (cache : list Z -> option (list SV)) objs lib path :
  iterates dl_iterate_phdr objs -> object_name dlopen dladdr objs (dl_handle lib) = Some path ->
  no_nul path -> Z.of_nat (length path) < 1024 ->
  Affix_Lib_list_unmangled_symbols cache (Some lib)
  = Some match cache path with Some values => Value values | None => Throws "Bad hash" end.
Proof.
  intros Hit Hp Hnn Hlen. destruct (path_of_lib objs lib path Hit Hp) as (name & Hg & Hname).
  destruct (Hname Hlen) as (rest & ->). unfold Affix_Lib_list_unmangled_symbols. rewrite Hg. cbn [mbind option_bind].
  rewrite (proj2 (Z.eqb_neq _ _)) by lia. rewrite until_nul_app by done. cbn [mbind option_bind]. by destruct (cache path).
Qed.
End Symbols.

(** ** The small file of DynloadElf.v as a loaded library *)

Definition ex_path : list Z := [47; 97].
Definition ex_objs : list phdr_info := [Build_phdr_info ex_path 0 []].
Definition ex_dlopen (path : list Z) : option Z := if decide (path = ex_path) then Some 7 else None.
Definition ex_files (path : list Z) : option (Z * Z) * list Z :=
  if decide (path = ex_path) then (Some (3, 312), ex_elf) else (None, []).

Definition ex_iterate (cb : phdr_info -> list Z -> option (Z * list Z)) : list Z -> option (Z * list Z) :=
  (fix go (l : list phdr_info) (s : list Z) : option (Z * list Z) :=
     match l with
     | [] => Some (0, s)
     | info :: l => '(r, s) ← cb info s; if r =? 0 then go l s else Some (r, s)
     end) ex_objs.

Lemma list_symbols_complete_witness :
  Affix_list_symbols (DM := elf_dm) (ELF := elf64) ex_dlopen (fun _ => None) ex_iterate ex_files (Some 7)
    = Some (Value [[102]; [103]]) /\
  Affix_Lib_path ex_dlopen (fun _ => None) ex_iterate (Some 7) = Some (Value ex_path).
Proof.
  apply (list_symbols_complete (DM := elf_dm) (ELF := elf64) ex_dlopen (fun _ => None) ex_iterate ex_files ex_objs 7 ex_path 3 312
           ex_elf ex_secs 120 (Build_Elf_Shdr 11 72 48 2 24) (Build_Elf_Shdr 3 64 8 0 0) (Build_Elf_Shdr 3 64 8 0 0) [[102]; [103]]);
    try reflexivity; try exact ex_elf_file; try (vm_compute; split; (discriminate || reflexivity)).
  repeat constructor; discriminate.
Defined.
