(* ===== verification/CallbackAlloc.v ===== *)
(** * Creating and freeing callbacks
      (dyncallback/dyncall_callback.c, dyncall_alloc_wx_mmap.c,
       dyncall_alloc_wx_win32.c, dyncall_alloc_wx_malloc.c, and
       [dcbNewCallback2] of the platforms)

    A callback is an object with code at its start, in memory of its own that is
    writable while it is filled in and executable afterwards. *)

From S2P Require Export Prelude.
From stdpp Require Import gmap.
#[local] Open Scope Z_scope.

Record prot := { PROT_READ : bool; PROT_WRITE : bool; PROT_EXEC : bool }.
Record region := { r_size : Z; r_prot : prot; r_data : list Z }.

(** The memory services of the system, on a state of their own.  [mapped]
    observes the regions by address; requests may fail, and then change
    nothing. *)
Class Memory (W : Type) := {
  mapped : W -> Z -> option region;
  mmap : Z -> prot -> W -> option Z * W;
  mprotect : Z -> Z -> prot -> W -> Z * W;
  munmap : Z -> Z -> W -> W;
  store : Z -> Z -> list Z -> W -> option W;
  mmap_law n pr w a w' :
    0 <= n -> mmap n pr w = (a, w') ->
    match a with
    | Some a => mapped w a = None /\ exists d, length d = Z.to_nat n /\
        forall b, mapped w' b = if b =? a then Some (Build_region n pr d) else mapped w b
    | None => forall b, mapped w' b = mapped w b
    end;
  mprotect_law a n pr w e w' :
    mprotect a n pr w = (e, w') ->
    forall b, mapped w' b = if (e =? 0) && (b =? a)
      then (fun r => Build_region (r_size r) pr (r_data r)) <$> mapped w a else mapped w b;
  munmap_law a n w : forall b, mapped (munmap a n w) b = if b =? a then None else mapped w b;
  store_law a off bs w r d :
    mapped w a = Some r -> PROT_WRITE (r_prot r) = true -> wr off bs (r_data r) = Some d ->
    exists w', store a off bs w = Some w' /\
      forall b, mapped w' b = if b =? a then Some (Build_region (r_size r) (r_prot r) d) else mapped w b;
}.

Section Callbacks.
Context {W : Type} {MEM : Memory W}.

(** Programs over the system, which collect the states they go through. *)
Definition M (A : Type) : Type := W * list W -> option (A * (W * list W)).
#[local] Instance M_ret : MRet M := fun A x s => Some (x, s).
#[local] Instance M_bind : MBind M := fun A B f m s => '(x, s) ← m s; f x s.
Definition sys {A} (f : W -> A * W) : M A := fun '(w, tr) => let '(x, w) := f w in Some (x, (w, tr ++ [w])).
Definition sys_store (a off : Z) (bs : list Z) : M unit := fun '(w, tr) => w ← store a off bs w; Some (tt, (w, tr ++ [w])).

(** The three implementations of memory for code. *)
Inductive alloc_wx := wx_mmap (no_mprotect : bool) | wx_win32 | wx_malloc.
Variable alloc : alloc_wx.

Definition prot_rw : prot := Build_prot true true false.
Definition prot_rx : prot := Build_prot true false true.
Definition prot_rwx : prot := Build_prot true true true.

(** The protection the memory starts with; that of [malloc] is the system's. *)
Definition MMAP_PROT_INIT : prot :=
  match alloc with wx_mmap true | wx_win32 => prot_rwx | wx_mmap false | wx_malloc => prot_rw end.

(** An error code, and the memory; [malloc] does not report failure. *)
Definition dcAllocWX (size : Z) : M (Z * option Z) :=
  p ← sys (mmap size MMAP_PROT_INIT);
  match p, alloc with
  | None, (wx_mmap _ | wx_win32) => mret (-1, None)
  | _, _ => mret (0, p)
  end.

Definition dcInitExecWX (p size : Z) : M Z :=
  match alloc with
  | wx_mmap false => sys (mprotect p size prot_rx)
  | _ => mret 0
  end.

Definition dcFreeWX (p size : Z) : M unit := sys (fun w => (tt, munmap p size w)).

(** The object of a platform: the thunk, and the members behind it. *)
Record callback := { cb_thunk : list Z; cb_members : list Z }.
Definition object (c : callback) : list Z := cb_thunk c ++ cb_members c.
Definition sizeof_callback (c : callback) : Z := Z.of_nat (length (object c)).

Definition dcbNewCallback2 (c : callback) : M (option Z) :=
  '(err, pcb) ← dcAllocWX (sizeof_callback c);
  if negb (err =? 0) then mret None
  else match pcb with
  | None => fun _ => None (* a null pointer is written through *)
  | Some pcb =>
    _ ← sys_store pcb (Z.of_nat (length (cb_thunk c))) (cb_members c); (* dcbInitCallback2 *)
    _ ← sys_store pcb 0 (cb_thunk c); (* dcbInitThunk *)
    err ← dcInitExecWX pcb (sizeof_callback c);
    if negb (err =? 0) then _ ← dcFreeWX pcb (sizeof_callback c); mret None
    else mret (Some pcb)
  end.

Definition dcbFreeCallback (pcb : Z) (c : callback) : M unit := dcFreeWX pcb (sizeof_callback c).

(** ** Lifetimes

    A process that creates and frees callbacks in any order; the live ones with
    their addresses, and all states so far. *)
Inductive reach (w0 : W) : W -> list (Z * callback) -> list W -> Prop :=
| reach_init : reach w0 w0 [] [w0]
| reach_new w live tr c a w' tr' :
    reach w0 w live tr -> dcbNewCallback2 c (w, tr) = Some (Some a, (w', tr')) -> reach w0 w' ((a, c) :: live) tr'
| reach_fail w live tr c w' tr' :
    reach w0 w live tr -> dcbNewCallback2 c (w, tr) = Some (None, (w', tr')) -> reach w0 w' live tr'
| reach_free w l1 l2 tr a c w' tr' :
    reach w0 w (l1 ++ (a, c) :: l2) tr -> dcbFreeCallback a c (w, tr) = Some (tt, (w', tr')) ->
    reach w0 w' (l1 ++ l2) tr'.

(** The protection a callback ends with. *)
Definition final_prot : prot := match alloc with wx_mmap false => prot_rx | _ => MMAP_PROT_INIT end.

(** [u] differs from [w] at most at [a], which is free or has one of the
    protections the library asks for. *)
Definition only_at (w : W) (a : Z) (u : W) : Prop :=
  (forall b, b <> a -> mapped u b = mapped w b) /\
  (mapped u a = None \/ exists r, mapped u a = Some r /\ (r_prot r = MMAP_PROT_INIT \/ r_prot r = final_prot)).

Definition visited (w u : W) : Prop :=
  (forall b, mapped u b = mapped w b) \/ exists a, mapped w a = None /\ only_at w a u.

Lemma fill_object c d :
  length d = length (object c) ->
  exists d1, wr (Z.of_nat (length (cb_thunk c))) (cb_members c) d = Some d1 /\ wr 0 (cb_thunk c) d1 = Some (object c).
Proof.
  unfold object. rewrite length_app. intros Hl. rewrite wr_Some by lia. eexists. split; [done|].
  rewrite Nat2Z.id, drop_ge, app_nil_r by lia.
  rewrite wr_Some by (rewrite ?length_app, ?length_take; lia).
  change (Z.to_nat 0) with 0%nat. rewrite take_0, drop_app_length' by (rewrite length_take; lia). done.
Qed.

(** A region of the library's own changes its protection or contents. *)
Lemma only_at_step w a u u' r :
  only_at w a u -> (forall b, mapped u' b = if b =? a then Some r else mapped u b) ->
  r_prot r = MMAP_PROT_INIT \/ r_prot r = final_prot -> only_at w a u'.
Proof.
  intros [Ho _] Hu Hr. split.
  - intros b Hb. rewrite Hu, (proj2 (Z.eqb_neq b a)) by done. by apply Ho.
  - right. exists r. by rewrite Hu, Z.eqb_refl.
Qed.

Lemma exec_step :
  ((forall p n, dcInitExecWX p n = fun s => Some (0, s)) /\ final_prot = MMAP_PROT_INIT) \/
  ((forall p n, dcInitExecWX p n = sys (mprotect p n prot_rx)) /\ final_prot = prot_rx).
Proof. unfold dcInitExecWX, final_prot, MMAP_PROT_INIT. destruct alloc as [[]| |]; auto. Qed.

Lemma new_callback c w tr :
  alloc <> wx_malloc ->
  exists res w' us, dcbNewCallback2 c (w, tr) = Some (res, (w', tr ++ us)) /\ Forall (visited w) us /\
    match res with
    | Some a =>
      mapped w a = None /\ mapped w' a = Some (Build_region (sizeof_callback c) final_prot (object c)) /\
      (forall b, b <> a -> mapped w' b = mapped w b)
    | None => forall b, mapped w' b = mapped w b
    end.
Proof.
  intros Hne. set (n := sizeof_callback c). assert (Hn : 0 <= n) by (unfold n, sizeof_callback; lia).
  unfold dcbNewCallback2, dcAllocWX, sys. fold n. unfold mbind, M_bind, mret, M_ret. cbn [mbind option_bind].
  destruct (mmap n MMAP_PROT_INIT w) as [p w1] eqn:Em. pose proof (mmap_law _ _ _ _ _ Hn Em) as Hm.
  cbn [mbind option_bind]. destruct p as [a|].
  2: { exists None, w1, [w1]. destruct alloc; try done; (split; [done|]; split; [constructor; [by left|constructor]|done]). }
  destruct Hm as (Hfree & d & Hld & Hm).
  assert (H1 : only_at w a w1).
  { split; [intros b Hb; by rewrite Hm, (proj2 (Z.eqb_neq b a))|]. right.
    exists (Build_region n MMAP_PROT_INIT d). rewrite Hm, Z.eqb_refl. auto. }
  destruct (fill_object c d) as (d1 & Hd1 & Hd2); [unfold n, sizeof_callback in Hld; lia|].
  assert (Hwr : PROT_WRITE MMAP_PROT_INIT = true) by (unfold MMAP_PROT_INIT; by destruct alloc as [[]| |]).
  destruct (store_law a (Z.of_nat (length (cb_thunk c))) (cb_members c) w1 (Build_region n MMAP_PROT_INIT d) d1)
    as (w2 & E2 & Hm2); [by rewrite Hm, Z.eqb_refl|exact Hwr|exact Hd1|].
  pose proof (only_at_step w a w1 w2 _ H1 Hm2 (or_introl eq_refl)) as H2.
  destruct (store_law a 0 (cb_thunk c) w2 (Build_region n MMAP_PROT_INIT d1) (object c))
    as (w3 & E3 & Hm3); [by rewrite Hm2, Z.eqb_refl|exact Hwr|exact Hd2|].
  pose proof (only_at_step w a w2 w3 _ H2 Hm3 (or_introl eq_refl)) as H3.
  cbn [mbind option_bind Z.eqb negb]. unfold sys_store. rewrite E2. cbn [mbind option_bind]. rewrite E3.
  cbn [mbind option_bind].
  assert (Hw3 : mapped w3 a = Some (Build_region n MMAP_PROT_INIT (object c)) /\
            forall b, b <> a -> mapped w3 b = mapped w b).
  { split; [by rewrite Hm3, Z.eqb_refl|apply H3]. }
  assert (Hvis : forall u, only_at w a u -> visited w u) by (intros; right; by exists a).
  assert (Hv : Forall (visited w) [w1; w2; w3]) by auto.
  destruct exec_step as [[Hx Hfin]|[Hx Hfin]].
  - rewrite Hx. cbn. exists (Some a), w3, [w1; w2; w3]. rewrite <- !app_assoc. split; [done|]. split; [done|].
    rewrite Hfin. split_and!; [done|apply Hw3..].
  - rewrite Hx. unfold sys. cbn [mbind option_bind]. destruct (mprotect a n prot_rx w3) as [e w4] eqn:Ep.
    pose proof (mprotect_law _ _ _ _ _ _ Ep) as Hp. cbn [mbind option_bind].
    destruct (Z.eqb_spec e 0) as [->|He]; cbn [negb andb] in *.
    + destruct Hw3 as [Ha3 Ho3]. rewrite Ha3 in Hp. cbn [fmap option_fmap option_map r_size r_data] in Hp.
      pose proof (only_at_step w a w3 w4 _ H3 Hp (or_intror (eq_sym Hfin))) as H4.
      exists (Some a), w4, [w1; w2; w3; w4]. rewrite <- !app_assoc. split; [done|].
      split; [apply (Forall_app_2 _ _ [w4] Hv); auto|].
      split_and!; [done|rewrite Hp, Z.eqb_refl, Hfin; done|apply H4].
    + unfold dcFreeWX, sys. cbn [mbind option_bind]. exists None, (munmap a n w4), [w1; w2; w3; w4; munmap a n w4].
      rewrite <- !app_assoc. split; [done|].
      assert (H4 : only_at w a w4).
      { split; [intros b Hb; rewrite Hp; by apply H3|rewrite Hp; apply H3]. }
      assert (Hend : forall b, mapped (munmap a n w4) b = mapped w b).
      { intros b. rewrite munmap_law. destruct (Z.eqb_spec b a) as [->|]; [done|]. by apply H4. }
      split; [|done]. apply (Forall_app_2 _ _ [w4; munmap a n w4] Hv). constructor; [auto|]. constructor; [by left|done].
Qed.
(** A state in which the library's regions were free at the start and have a
    protection it asks for. *)
Definition own_only (w0 u : W) : Prop :=
  forall b, mapped u b = mapped w0 b \/
    mapped w0 b = None /\ exists r, mapped u b = Some r /\ (r_prot r = MMAP_PROT_INIT \/ r_prot r = final_prot).

(** What holds of every process: the live callbacks are mapped with their
    contents, and everything else is as it was at the start. *)
Record lifetime (w0 w : W) (live : list (Z * callback)) (tr : list W) : Prop := {
  lt_fresh : Forall (fun ac => mapped w0 ac.1 = None) live;
  lt_nodup : NoDup live.*1;
  lt_live : Forall (fun '(a, c) => mapped w a = Some (Build_region (sizeof_callback c) final_prot (object c))) live;
  lt_rest : forall b, b ∉ live.*1 -> mapped w b = mapped w0 b;
  lt_trace : Forall (own_only w0) tr;
}.

Lemma lifetime_now w0 w live tr : lifetime w0 w live tr -> own_only w0 w.
Proof.
  intros [Hfr _ Hlive Hrest _] b. destruct (decide (b ∈ live.*1)) as [Hin|]; [right|left; by apply Hrest].
  apply list_elem_of_fmap in Hin as ([a c] & -> & Hin). rewrite Forall_forall in Hfr, Hlive.
  split; [by apply (Hfr (a, c))|]. eexists. split; [by apply (Hlive (a, c))|]. by right.
Qed.

Lemma lifetime_free w0 w live tr a : lifetime w0 w live tr -> mapped w a = None -> mapped w0 a = None.
Proof.
  intros [Hfr _ _ Hrest _] Ha. destruct (decide (a ∈ live.*1)) as [Hin|Hin]; [|by rewrite <- (Hrest a Hin)].
  apply list_elem_of_fmap in Hin as ([? c] & -> & Hin). rewrite Forall_forall in Hfr. by apply (Hfr _ Hin).
Qed.

Lemma visited_trace w0 w live tr us :
  lifetime w0 w live tr -> Forall (visited w) us -> Forall (own_only w0) us.
Proof.
  intros Hl Hus. rewrite Forall_forall in Hus |- *. intros u Hin b. specialize (Hus u Hin).
  pose proof (lifetime_now _ _ _ _ Hl b) as Hw. destruct Hus as [Hu|(a & Ha & Ho & Hua)]; [by rewrite Hu|].
  destruct (decide (b = a)) as [->|Hb]; [|by rewrite Ho].
  pose proof (lifetime_free _ _ _ _ a Hl Ha). destruct Hua as [Hua|Hua]; [left; congruence|by right].
Qed.

Lemma reach_lifetime w0 w live tr : alloc <> wx_malloc -> reach w0 w live tr -> lifetime w0 w live tr.
Proof.
  intros Hne H. induction H as [|w live tr c a w' tr' _ IH Hn|w live tr c w' tr' _ IH Hn|w l1 l2 tr a c w' tr' _ IH Hn].
  - constructor; [by apply Forall_nil_2|by apply NoDup_nil_2|by apply Forall_nil_2|done|].
    apply Forall_cons. split; [intros b; by left|by apply Forall_nil_2].
  - destruct (new_callback c w tr Hne) as (res & w1 & us & E & Hus & Hr). rewrite E in Hn. injection Hn as -> -> <-.
    destruct Hr as (Hfree & Hnew & Hother). pose proof IH as [Hfr Hnd Hlive Hrest Htr].
    assert (Hout : a ∉ live.*1).
    { intros ([a' c'] & -> & Hin)%list_elem_of_fmap. rewrite Forall_forall in Hlive. specialize (Hlive _ Hin).
      cbn in *. congruence. }
    constructor; cbn.
    + constructor; [|done]. cbn. by rewrite <- (Hrest a Hout).
    + by constructor.
    + constructor; [done|]. rewrite Forall_forall in Hlive |- *. intros [b cb] Hin. rewrite Hother; [by apply (Hlive (b, cb))|].
      intros ->. apply Hout. apply list_elem_of_fmap. by exists (a, cb).
    + intros b Hb. apply not_elem_of_cons in Hb as [? Hb]. rewrite Hother by done. by apply Hrest.
    + apply Forall_app. split; [done|]. by eapply visited_trace.
  - destruct (new_callback c w tr Hne) as (res & w1 & us & E & Hus & Hr). rewrite E in Hn. injection Hn as -> -> <-.
    pose proof IH as [Hfr Hnd Hlive Hrest Htr]. constructor; try done.
    + rewrite Forall_forall in Hlive |- *. intros [b cb] Hin. rewrite Hr. by apply (Hlive (b, cb)).
    + intros b Hb. rewrite Hr. by apply Hrest.
    + apply Forall_app. split; [done|]. by eapply visited_trace.
  - unfold dcbFreeCallback, dcFreeWX, sys in Hn. injection Hn as <- <-. pose proof IH as [Hfr Hnd Hlive Hrest Htr].
    rewrite fmap_app in *. cbn [fmap list_fmap fst] in *.
    apply Forall_app in Hfr as [Hf1 [Hfa Hf2]%Forall_cons]. apply Forall_app in Hlive as [Hl1 [_ Hl2]%Forall_cons].
    apply NoDup_app in Hnd as (Hn1 & Hn12 & [Hna Hn2]%NoDup_cons).
    assert (Ha1 : a ∉ l1.*1) by (intros Hin; apply (Hn12 a Hin); left).
    assert (Hk : forall l : list (Z * callback), a ∉ l.*1 -> 
      Forall (fun '(b, cb) => mapped w b = Some (Build_region (sizeof_callback cb) final_prot (object cb))) l ->
      Forall (fun '(b, cb) => mapped (munmap a (sizeof_callback c) w) b =
                Some (Build_region (sizeof_callback cb) final_prot (object cb))) l).
    { intros l Hal Hl. rewrite Forall_forall in Hl |- *. intros [b cb] Hin. rewrite munmap_law, (proj2 (Z.eqb_neq b a)).
      - by apply (Hl (b, cb)).
      - intros ->. apply Hal, list_elem_of_fmap. by exists (a, cb). }
    constructor.
    + apply Forall_app. by split.
    + rewrite fmap_app. apply NoDup_app. split_and!; [done| |done]. intros b Hb Hb2. apply (Hn12 b Hb). by right.
    + apply Forall_app. split; by apply Hk.
    + intros b Hb. rewrite fmap_app in Hb. apply not_elem_of_app in Hb as [Hb1 Hb2]. rewrite munmap_law.
      destruct (Z.eqb_spec b a) as [->|Hne']; [done|]. apply Hrest. rewrite not_elem_of_app, not_elem_of_cons. done.
    + apply Forall_app. split; [done|]. constructor; [|constructor]. intros b. rewrite munmap_law.
      destruct (Z.eqb_spec b a) as [->|]; [by left|]. by apply (lifetime_now _ _ _ _ IH).
Qed.
(** C27: callbacks are created and freed without a trace.  In whatever order a
    process does so, and whichever requests to the system fail, each live
    callback has a region of its own that holds its thunk and members, all
    other memory is as it was at the start, and the next creation does not go
    wrong.  With [mprotect] no region the library made is writable and
    executable at the same time, in any state on the way. *)
Theorem callback_lifetimes w0 w live tr :
  alloc <> wx_malloc -> reach w0 w live tr ->
  NoDup live.*1 /\
  Forall (fun '(a, c) => mapped w a = Some (Build_region (sizeof_callback c) final_prot (object c))) live /\
  (forall b, b ∉ live.*1 -> mapped w b = mapped w0 b) /\
  (forall c, exists res, dcbNewCallback2 c (w, tr) = Some res) /\
  (alloc = wx_mmap false ->
   Forall (fun u => forall a r, mapped u a = Some r -> mapped w0 a = None ->
     PROT_WRITE (r_prot r) && PROT_EXEC (r_prot r) = false) tr).
Proof.
  intros Hne Hr. pose proof (reach_lifetime w0 w live tr Hne Hr) as [_ Hnd Hlive Hrest Htr]. split_and!; try done.
  - intros c. destruct (new_callback c w tr Hne) as (res & w' & us & -> & _). by eexists.
  - intros E. eapply Forall_impl; [exact Htr|]. intros u Hu a r Ha H0. specialize (Hu a).
    destruct Hu as [Hu|(_ & r' & Hu & Hp)]; [congruence|]. rewrite Ha in Hu. injection Hu as <-.
    destruct exec_step as [[Hx _]|[_ Hfin]]; [|rewrite Hfin in Hp; unfold MMAP_PROT_INIT in Hp; rewrite E in Hp].
    + unfold MMAP_PROT_INIT, final_prot in Hp. rewrite E in Hp. by destruct Hp as [-> | ->].
    + by destruct Hp as [-> | ->].
Qed.

End Callbacks.

(** ** Systems without anonymous mappings

    There, [dcAllocWX] maps /dev/zero and keeps the file descriptor in front of the
    memory it returns.  What the system does with descriptors, and that the memory
    services leave them alone: *)
Class DevZero (W : Type) `{Memory W} := {
  fd_open : W -> Z -> bool;
  dev_zero : W -> option Z * W;
  close : Z -> W -> W;
  dev_zero_law w r w' : dev_zero w = (r, w') ->
    (forall b, mapped w' b = mapped w b) /\
    match r with
    | Some fd => in_s 32 fd /\ fd_open w fd = false /\ forall k, fd_open w' k = (k =? fd) || fd_open w k
    | None => forall k, fd_open w' k = fd_open w k
    end;
  close_law fd w : (forall b, mapped (close fd w) b = mapped w b) /\
    forall k, fd_open (close fd w) k = negb (k =? fd) && fd_open w k;
  mmap_fds n pr w k : fd_open (mmap n pr w).2 k = fd_open w k;
  munmap_fds a n w k : fd_open (munmap a n w) k = fd_open w k;
  mprotect_fds a n pr w k : fd_open (mprotect a n pr w).2 k = fd_open w k;
  store_fds a off bs w w' k : store a off bs w = Some w' -> fd_open w' k = fd_open w k;
}.

Section DevZero.
Context {W : Type} {MEM : Memory W} {DEV : DevZero W}.
Variable end_ : endian.
Variable no_mprotect : bool.

Definition sizeof_int : Z := 4.

(** The protection of [MMAP_PROT_INIT]. *)
#[local] Abbreviation prot_init := (MMAP_PROT_INIT (wx_mmap no_mprotect)).

Definition dcAllocWX_devzero (size : Z) (w : W) : option ((Z * option Z) * W) :=
  match dev_zero w with
  | (None, w) => Some ((-1, None), w)
  | (Some fd, w) =>
    match mmap (size + sizeof_int) prot_init w with
    | (None, w) => Some ((-1, None), close fd w)
    | (Some p, w) => w ← store p 0 (enc end_ 4 fd) w; Some ((0, Some (p + sizeof_int)), w)
    end
  end.

Definition dcInitExecWX_devzero (p size : Z) (w : W) : Z * W :=
  if no_mprotect then (0, w) else mprotect (p - sizeof_int) (size + sizeof_int) prot_rx w.

(** The descriptor is read from the memory. *)
Definition dcFreeWX_devzero (p size : Z) (w : W) : option W :=
  r ← mapped w (p - sizeof_int);
  bs ← (if PROT_READ (r_prot r) then rd 0 4 (r_data r) else None);
  Some (munmap (p - sizeof_int) (size + sizeof_int) (close (wrapS 32 (dec end_ bs)) w)).

(** [p] has its descriptor [fd] in front of it. *)
Definition holds_fd (w : W) (p fd : Z) : Prop :=
  exists r, mapped w (p - sizeof_int) = Some r /\ PROT_READ (r_prot r) = true /\ rd 0 4 (r_data r) = Some (enc end_ 4 fd).

(** What an allocation does, which never goes wrong. *)
Definition devzero_allocated (w : W) (res : Z * option Z) (w1 : W) : Prop :=
  match res with
  | (err, Some p) => err = 0 /\ mapped w (p - sizeof_int) = None /\
      (forall b, b <> p - sizeof_int -> mapped w1 b = mapped w b) /\
      exists fd, in_s 32 fd /\ fd_open w fd = false /\ holds_fd w1 p fd /\ forall k, fd_open w1 k = (k =? fd) || fd_open w k
  | (err, None) => err = -1 /\ (forall b, mapped w1 b = mapped w b) /\ forall k, fd_open w1 k = fd_open w k
  end.

Lemma dcAllocWX_devzero_ok size w :
  0 <= size -> exists res w1, dcAllocWX_devzero size w = Some (res, w1) /\ devzero_allocated w res w1.
Proof.
  unfold dcAllocWX_devzero, sizeof_int. intros Hs.
  destruct (dev_zero w) as [[fd|] w2] eqn:Hd; apply dev_zero_law in Hd as [Hm Hf]; [|by eexists _, _].
  destruct Hf as (Hfd & Hnew & Hopen). destruct (mmap (size + 4) prot_init w2) as [[a|] w3] eqn:Ha;
    pose proof (mmap_fds (size + 4) prot_init w2) as Hf3; rewrite Ha in Hf3; cbn [snd] in Hf3; apply mmap_law in Ha; try lia.
  - destruct Ha as (Hfree & d & Hl & Hmap).
    assert (exists d', wr 0 (enc end_ 4 fd) d = Some d') as [d' Hw] by (rewrite wr_Some by (rewrite ?length_enc; lia); eauto).
    assert (mapped w3 a = Some (Build_region (size + 4) prot_init d)) as Hr by by rewrite Hmap, Z.eqb_refl.
    destruct (store_law a 0 _ w3 _ d' Hr ltac:(by destruct no_mprotect) Hw) as (w4 & Hst & Hmap4).
    rewrite Hst. cbn. eexists _, _. split; [done|]. cbn. rewrite Z.add_simpl_r. split_and!; [done|by rewrite <- Hm|..].
    + intros b Hb. rewrite Hmap4, Hmap, Hm. apply Z.eqb_neq in Hb. by rewrite Hb.
    + exists fd. split_and!; [done..| |].
      * unfold holds_fd, sizeof_int. rewrite Z.add_simpl_r, Hmap4, Z.eqb_refl. eexists. split; [done|].
        split; [by destruct no_mprotect|]. by eapply rd_wr_same; [|rewrite length_enc].
      * intros k. by rewrite (store_fds _ _ _ _ _ k Hst), Hf3, Hopen.
  - eexists _, _. split; [done|]. destruct (close_law fd w3) as [Hcm Hcf]. split_and!; [done| |]; intros k.
    + by rewrite Hcm, Ha, Hm.
    + rewrite Hcf, Hf3, Hopen. destruct (Z.eqb_spec k fd) as [->|]; [by rewrite Hnew|done].
Qed.

(** Without anonymous mappings, too, memory for a callback is given back without a
    trace: a failed allocation leaves neither memory nor a descriptor behind, and
    after one that succeeds the release closes exactly the descriptor it opened,
    whatever happened to the memory behind it and elsewhere in between. *)
Theorem devzero_no_trace size w :
  0 <= size -> exists res w1, dcAllocWX_devzero size w = Some (res, w1) /\
  match res with
  | (err, None) => err = -1 /\ (forall b, mapped w1 b = mapped w b) /\ forall k, fd_open w1 k = fd_open w k
  | (err, Some p) => err = 0 /\ exists fd, fd_open w fd = false /\ fd_open w1 fd = true /\
      forall w2, holds_fd w2 p fd -> exists w3, dcFreeWX_devzero p size w2 = Some w3 /\
        (forall b, mapped w3 b = if b =? p - sizeof_int then None else mapped w2 b) /\
        forall k, fd_open w3 k = negb (k =? fd) && fd_open w2 k
  end.
Proof.
  intros Hs. destruct (dcAllocWX_devzero_ok size w Hs) as ([err [p|]] & w1 & Ha & H); exists (err, Some p) || exists (err, None);
    exists w1; (split; [exact Ha|]); [|exact H].
  destruct H as (He & _ & _ & fd & Hfd & Hnew & _ & Hopen). split; [done|]. exists fd. split; [done|].
  split; [by rewrite Hopen, Z.eqb_refl|]. intros w2 (r & Hr & Hp & Hrd). unfold dcFreeWX_devzero. rewrite Hr. cbn. rewrite Hp, Hrd. cbn.
  rewrite dec_enc, wrapS_wrapU, wrapS_id by (done || lia). destruct (close_law fd w2) as [Hcm Hcf].
  eexists. split; [done|]. split; intros k; [by rewrite munmap_law, Hcm|by rewrite munmap_fds, Hcf].
Qed.

(** The memory of a callback starts behind the descriptor, which leaves it
    misaligned where pointers have eight bytes. *)
Theorem devzero_misaligned size w err p w1 :
  (forall n pr w a w', mmap n pr w = (Some a, w') -> a mod 8 = 0) ->
  dcAllocWX_devzero size w = Some ((err, Some p), w1) -> p mod 8 = 4.
Proof.
  unfold dcAllocWX_devzero, sizeof_int. intros Hal H. destruct (dev_zero w) as [[fd|] w2]; [|discriminate].
  destruct (mmap _ _ w2) as [[a|] w3] eqn:Ha; [|discriminate]. apply Hal in Ha. apply bind_Some in H as (w4 & _ & [= _ <- _]). by rewrite Z.add_mod, Ha by lia.
Qed.
End DevZero.

(** ** A process with a small memory

    Regions are placed one behind the other. *)
Definition memory : Type := Z * gmap Z region.

Lemma insert_at (g : gmap Z region) a b r : <[a := r]> g !! b = if b =? a then Some r else g !! b.
Proof. rewrite lookup_insert. destruct (Z.eqb_spec b a); case_decide; congruence. Qed.

#[export, refine] Instance memory_ok : Memory memory := {
  mapped w a := w.2 !! a;
  mmap n pr w :=
    match w.2 !! w.1 with
    | None => (Some w.1, (w.1 + n + 1, <[w.1 := Build_region n pr (replicate (Z.to_nat n) 0)]> w.2))
    | Some _ => (None, w)
    end;
  mprotect a n pr w :=
    match w.2 !! a with
    | Some r => (0, (w.1, <[a := Build_region (r_size r) pr (r_data r)]> w.2))
    | None => (-1, w)
    end;
  munmap a n w := (w.1, delete a w.2);
  store a off bs w :=
    r ← w.2 !! a; d ← wr off bs (r_data r);
    if PROT_WRITE (r_prot r) then Some (w.1, <[a := Build_region (r_size r) (r_prot r) d]> w.2) else None;
}.
Proof.
  { intros n pr [next g] a w' _. cbn. destruct (g !! next) eqn:E; intros [= <- <-]; [done|]. split; [done|].
    eexists. split; [apply length_replicate|]. intros b. apply insert_at. }
  { intros a n pr [next g] e w'. cbn. destruct (g !! a) as [r|] eqn:E; intros [= <- <-] b; cbn; [|done].
    apply insert_at. }
  { intros a n [next g] b. cbn. rewrite lookup_delete. destruct (Z.eqb_spec b a); case_decide; congruence. }
  { intros a off bs [next g] r d. cbn. intros -> Hp Hd. cbn. rewrite Hd. cbn. rewrite Hp. eexists. split; [done|].
    intros b. apply insert_at. }
Defined.

Definition ex_callback (x : Z) : callback := {| cb_thunk := [0xff; 0xe0]; cb_members := [x; x + 1] |}.

(** Two callbacks are made and the first is freed. *)
Lemma callback_lifetimes_witness :
  exists w live tr, reach (wx_mmap false) (0, ∅ : gmap Z region) w live tr /\
    live.*1 = [5] /\ NoDup live.*1 /\
    Forall (fun '(a, c) => mapped w a =
      Some (Build_region (sizeof_callback c) (final_prot (wx_mmap false)) (object c))) live /\
    (forall b, b ∉ live.*1 -> mapped w b = mapped (0, ∅ : gmap Z region) b) /\
    (forall c, exists res, dcbNewCallback2 (wx_mmap false) c (w, tr) = Some res) /\
    (wx_mmap false = wx_mmap false ->
     Forall (fun u => forall a r, mapped u a = Some r -> mapped (0, ∅ : gmap Z region) a = None ->
       PROT_WRITE (r_prot r) && PROT_EXEC (r_prot r) = false) tr).
Proof.
  assert (H : exists w tr, reach (wx_mmap false) (0, ∅ : gmap Z region) w [(5, ex_callback 2)] tr).
  { pose proof (reach_init (wx_mmap false) (0, ∅ : gmap Z region)) as H.
    eapply (reach_new _ _ _ _ _ (ex_callback 1)) in H; [|vm_compute; reflexivity].
    eapply (reach_new _ _ _ _ _ (ex_callback 2)) in H; [|vm_compute; reflexivity].
    eapply (reach_free _ _ _ [_] []) in H; [|reflexivity]. do 2 eexists. exact H. }
  destruct H as (w & tr & H). exists w, [(5, ex_callback 2)], tr. split; [exact H|]. split; [reflexivity|].
  apply (callback_lifetimes (wx_mmap false) (0, ∅ : gmap Z region) w [(5, ex_callback 2)] tr); [discriminate|exact H].
Defined.

(** The same process with file descriptors, which are numbered one after the other. *)
Definition memory_fds : Type := memory * (Z * gset Z).

#[export, refine] Instance memory_fds_ok : Memory memory_fds := {
  mapped w a := mapped w.1 a;
  mmap n pr w := ((mmap n pr w.1).1, ((mmap n pr w.1).2, w.2));
  mprotect a n pr w := ((mprotect a n pr w.1).1, ((mprotect a n pr w.1).2, w.2));
  munmap a n w := (munmap a n w.1, w.2);
  store a off bs w := m ← store a off bs w.1; Some (m, w.2);
}.
Proof.
  { intros n pr w a w' Hn [= <- <-]. cbn -[mmap mapped]. apply (mmap_law n pr w.1); [done|]. apply surjective_pairing. }
  { intros a n pr w e w' [= <- <-]. cbn -[mprotect mapped]. apply (mprotect_law a n pr w.1). apply surjective_pairing. }
  { intros a n w b. apply (munmap_law a n w.1). }
  { intros a off bs w r d Hr Hp Hw. destruct (store_law a off bs w.1 r d Hr Hp Hw) as (m & -> & Hm). eexists. split; [done|exact Hm]. }
Defined.

#[export, refine] Instance dev_zero_ok : DevZero memory_fds := {
  fd_open w k := bool_decide (k ∈ w.2.2);
  dev_zero w :=
    if decide (in_s 32 w.2.1 /\ w.2.1 ∉ w.2.2) then (Some w.2.1, (w.1, (w.2.1 + 1, {[w.2.1]} ∪ w.2.2))) else (None, w);
  close fd w := (w.1, (w.2.1, w.2.2 ∖ {[fd]}));
}.
Proof.
  { intros w r w' H. case_decide as Hd; injection H as <- <-; [|done]. split; [done|]. destruct Hd as [Hd Hn].
    split; [done|]. split; [by apply bool_decide_eq_false_2|]. intros k. cbn.
    destruct (Z.eqb_spec k w.2.1); [apply bool_decide_eq_true_2; set_solver|]. cbn. apply bool_decide_ext. set_solver. }
  { intros fd w. split; [done|]. intros k. cbn.
    destruct (Z.eqb_spec k fd); cbn; [apply bool_decide_eq_false_2; set_solver|]. apply bool_decide_ext. set_solver. }
  all: try done.
  { intros a off bs w w' k H. by apply bind_Some in H as (m & _ & [= <-]). }
Defined.

(** A callback of eight bytes is made and freed. *)
Example devzero_run :
  let w : memory_fds := ((8, ∅), (3, {[0; 1; 2]})) in
  match dcAllocWX_devzero LittleEndian false 8 w with
  | Some ((0, Some p), w1) =>
    p = 12 /\ fd_open w1 3 = true /\
    match dcFreeWX_devzero LittleEndian p 8 w1 with
    | Some w2 => mapped w2 8 = None /\ fd_open w2 3 = false /\ fd_open w2 2 = true
    | None => False
    end
  | _ => False
  end.
Proof. vm_compute. repeat split. Qed.
