(* ===== verification/Perl.v ===== *)
(** * Perl values and C memory as the marshalling code sees them
      (lib/Affix.h, and the Perl API it includes)

    Perl is not part of the repository: its scalars are an abstract type with
    the operations of the Perl API the code uses, and the laws of the
    constructors that perlapi documents.  C memory is a finite map from
    addresses to bytes; an access outside the allocated blocks is [Fault]. *)

From S2P Require Export Api.
From stdpp Require Export gmap.
#[global] Open Scope Z_scope.

(** ** The Perl API

    Integers are those of a 64-bit Perl ([IV] and [UV] have 64 bits); a
    floating-point number is the bit pattern of its [double]; strings are lists
    of bytes. *)

Class Perl (SV : Type) := {
  SvOK : SV -> bool;        (** defined *)
  SvREADONLY : SV -> bool;
  SvIOK : SV -> bool;
  SvUOK : SV -> bool;
  SvNOK : SV -> bool;
  SvPOK : SV -> bool;
  SvUTF8 : SV -> bool;
  SvTRUE : SV -> bool;
  SvIV : SV -> Z;
  SvUV : SV -> Z;
  SvNV : SV -> Z;
  SvPV : SV -> list Z;
  SvPVbyte : SV -> option (list Z);          (** croaks on wide characters *)
  av_of : SV -> option (list (option SV));   (** the array a reference refers to *)
  hv_of : SV -> option (list Z -> option SV); (** the hash a reference refers to *)
  pointer_of : SV -> option (option Z);      (** of an [Affix::Pointer]: its address slot *)
  newSV : SV;
  newSVbool : bool -> SV;
  newSViv : Z -> SV;
  newSVuv : Z -> SV;
  newSVnv : Z -> SV;
  newSVpvn : list Z -> bool -> SV;           (** bytes, and whether they are UTF-8 *)
  SvIV_set : SV -> Z -> SV;                  (** the scalar with an integer value besides *)
  newRV_av : list SV -> SV;
  newRV_hv : list (list Z * SV) -> SV;       (** stores in this order *)
  is_utf8_string : list Z -> bool;
  sv_utf8_decode : SV -> SV;
  uvchr_to_utf8 : Z -> list Z;
}.

(** The documented laws: conversions give values of their type, and a new
    scalar holds what it was made from. *)
Class PerlLaws (SV : Type) `{Perl SV} : Prop := {
  SvIV_range : forall sv, in_s 64 (SvIV sv);
  SvUV_range : forall sv, in_u 64 (SvUV sv);
  SvNV_range : forall sv, in_u 64 (SvNV sv);
  SvPV_bytes : forall sv, Forall is_byte (SvPV sv);
  newSV_undef : SvOK newSV = false;
  newSVbool_true : forall b, SvTRUE (newSVbool b) = b;
  newSViv_iv : forall i, in_s 64 i -> SvIV (newSViv i) = i;
  newSVuv_uv : forall u, in_u 64 u -> SvUV (newSVuv u) = u;
  newSVnv_nv : forall d, in_u 64 d -> SvNV (newSVnv d) = d;
  newSVpvn_pv : forall s u, Forall is_byte s -> SvPV (newSVpvn s u) = s;
  SvIV_set_iv : forall sv i, in_s 64 i -> SvIV (SvIV_set sv i) = i;
  newRV_av_av : forall l, av_of (newRV_av l) = Some (map Some l);
  newRV_hv_hv : forall l, NoDup (map fst l) ->
    exists f, hv_of (newRV_hv l) = Some f /\
      (forall k v, In (k, v) l -> f k = Some v) /\ (forall k, ~ In k (map fst l) -> f k = None);
}.

(** ** Memory *)

Abbreviation heap := (gmap Z Z).

(** [n] zero bytes at [p]. *)
Fixpoint zeros (p : Z) (n : nat) (h : heap) : heap :=
  match n with O => h | S n => <[p := 0]> (zeros (p + 1) n h) end.

Fixpoint load (p : Z) (n : nat) (h : heap) : option (list Z) :=
  match n with
  | O => Some []
  | S n => b ← h !! p; bs ← load (p + 1) n h; Some (b :: bs)
  end.

(** A store outside the allocated blocks is undefined. *)
Fixpoint store (p : Z) (bs : list Z) (h : heap) : option heap :=
  match bs with
  | [] => Some h
  | b :: bs => _ ← h !! p; store (p + 1) bs (<[p := b]> h)
  end.

(** The units of [w] bytes from [p] up to, and without, the first zero one
    ([strlen], [wcslen]).  Each step reads another address, so that [size h + 1]
    steps find a zero or leave the allocated blocks. *)
Fixpoint scan (w : nat) (fuel : nat) (p : Z) (h : heap) : option (list (list Z)) :=
  match fuel with
  | O => None
  | S fuel =>
    u ← load p w h;
    if forallb (Z.eqb 0) u then Some []
    else us ← scan w fuel (p + Z.of_nat w) h; Some (u :: us)
  end.

(** ** The effects of the C code *)

Inductive outcome (A : Type) :=
  | Ret (x : A) (h : heap)
  | Croak (msg : string)      (** a Perl exception *)
  | NoMemory                  (** the allocator ends the process *)
  | Fault.                    (** undefined behaviour *)
Arguments Ret {A}. Arguments Croak {A}. Arguments NoMemory {A}. Arguments Fault {A}.

Definition C (A : Type) : Type := heap -> outcome A.

#[export] Instance C_ret : MRet C := fun A x h => Ret x h.
#[export] Instance C_bind : MBind C := fun A B f m h =>
  match m h with
  | Ret x h => f x h
  | Croak msg => Croak msg
  | NoMemory => NoMemory
  | Fault => Fault
  end.

Definition croak {A} (msg : string) : C A := fun _ => Croak msg.
Definition fault {A} : C A := fun _ => Fault.
Definition or_fault {A} (o : option A) : C A := fun h => match o with Some x => Ret x h | None => Fault end.

(** Reads and writes ([*(T * )ptr], [Copy], [Move]). *)
Definition Load (p : Z) (n : nat) : C (list Z) :=
  fun h => match load p n h with Some bs => Ret bs h | None => Fault end.
Definition Store (p : Z) (bs : list Z) : C unit :=
  fun h => match store p bs h with Some h => Ret tt h | None => Fault end.
Definition Scan (w : nat) (p : Z) : C (list (list Z)) :=
  fun h => match scan w (S (size h)) p h with Some us => Ret us h | None => Fault end.

(** Perl's allocator, which gives a block of its own or none. *)
Class Allocator `{DM : DataModel} := {
  malloc : heap -> Z -> option Z;
  malloc_law : forall h n p, malloc h n = Some p ->
    0 < p < 2 ^ dm_size_bits /\ p + n <= 2 ^ dm_size_bits /\ forall a, p <= a < p + n -> h !! a = None;
}.

(** [Newxz], [safecalloc]: zeroed memory, or the end of the process. *)
Definition Newxz `{Allocator} (n : Z) : C Z := fun h =>
  match malloc h n with
  | Some p => Ret p (zeros p (Z.to_nat n) h)
  | None => NoMemory
  end.

(** Loops over a list, and over the elements of a Perl array, of which element
    [x] goes to [p + x * n]. *)
Definition for_ {A} (body : A -> C unit) : list A -> C unit :=
  fix go l := match l with [] => mret tt | a :: l => _ ← body a; go l end.

Definition for_elems {SV} (n : Z) (value : SV -> C (list Z)) : list (option SV) -> Z -> C unit :=
  fix go array p := match array with
  | [] => mret tt
  | sv :: array =>
    sv ← or_fault sv; (* a hole in the array: av_fetch gives NULL *)
    bs ← value sv;
    _ ← Store p bs;
    go array (p + n)
  end.

Definition collect {A B} (f : A -> C B) : list A -> C (list B) :=
  fix go l := match l with [] => mret [] | a :: l => x ← f a; xs ← go l; mret (x :: xs) end.
