(* ===== verification/Marshal.v ===== *)
(** * Types and marshalling
      (lib/Affix.h, lib/Affix/marshal.cxx, lib/Affix/Aggregate.cxx,
       lib/Affix/Utils.cxx, lib/Affix/wchar_t.cxx, lib/Affix/Type/Struct.pm)

    [sv2ptr] stores a Perl value in C memory as its type says, [ptr2sv] makes a
    Perl value of C memory, and [_aggregate] describes a type to dyncall. *)

From S2P Require Export Perl.
#[local] Open Scope Z_scope.
#[local] Set Warnings "-register-all".

(** ** Type flags (Affix.h)

    A flag is a character; signatures are strings of them. *)

Inductive flag :=
  | VOID_FLAG | BOOL_FLAG | SCHAR_FLAG | CHAR_FLAG | UCHAR_FLAG | WCHAR_FLAG
  | SHORT_FLAG | USHORT_FLAG | INT_FLAG | UINT_FLAG | LONG_FLAG | ULONG_FLAG
  | LONGLONG_FLAG | ULONGLONG_FLAG | FLOAT_FLAG | DOUBLE_FLAG
  | WSTRING_FLAG | STDSTRING_FLAG | STRUCT_FLAG | CPPSTRUCT_FLAG | UNION_FLAG
  | AFFIX_FLAG | CODEREF_FLAG | POINTER_FLAG | SV_FLAG.

#[export] Instance flag_eq_dec : EqDecision flag.
Proof. solve_decision. Defined.

Definition flag_char (f : flag) : ascii :=
  match f with
  | VOID_FLAG => "v" | BOOL_FLAG => "b" | SCHAR_FLAG => "a" | CHAR_FLAG => "c"
  | UCHAR_FLAG => "h" | WCHAR_FLAG => "w" | SHORT_FLAG => "s" | USHORT_FLAG => "t"
  | INT_FLAG => "i" | UINT_FLAG => "j" | LONG_FLAG => "l" | ULONG_FLAG => "m"
  | LONGLONG_FLAG => "x" | ULONGLONG_FLAG => "y" | FLOAT_FLAG => "f" | DOUBLE_FLAG => "d"
  | WSTRING_FLAG => "<" | STDSTRING_FLAG => "Y" | STRUCT_FLAG => "A" | CPPSTRUCT_FLAG => "B"
  | UNION_FLAG => "u" | AFFIX_FLAG => "@" | CODEREF_FLAG => "&" | POINTER_FLAG => "P"
  | SV_FLAG => "?"
  end%char.

Definition all_flags : list flag :=
  [VOID_FLAG; BOOL_FLAG; SCHAR_FLAG; CHAR_FLAG; UCHAR_FLAG; WCHAR_FLAG; SHORT_FLAG; USHORT_FLAG;
   INT_FLAG; UINT_FLAG; LONG_FLAG; ULONG_FLAG; LONGLONG_FLAG; ULONGLONG_FLAG; FLOAT_FLAG;
   DOUBLE_FLAG; WSTRING_FLAG; STDSTRING_FLAG; STRUCT_FLAG; CPPSTRUCT_FLAG; UNION_FLAG; AFFIX_FLAG;
   CODEREF_FLAG; POINTER_FLAG; SV_FLAG].

(** The [switch] over a signature character. *)
Definition flag_of_char (c : ascii) : option flag :=
  find (fun f => Ascii.eqb (flag_char f) c) all_flags.

Lemma flag_of_flag_char f : flag_of_char (flag_char f) = Some f.
Proof. by destruct f. Qed.

(** The C type of the scalar flags. *)
Definition flag_cty (f : flag) : option cty :=
  match f with
  | SHORT_FLAG => Some TShort | USHORT_FLAG => Some TUShort
  | INT_FLAG => Some TInt | UINT_FLAG => Some TUInt
  | LONG_FLAG => Some TLong | ULONG_FLAG => Some TULong
  | LONGLONG_FLAG => Some TLongLong | ULONGLONG_FLAG => Some TULongLong
  | FLOAT_FLAG => Some TFloat | DOUBLE_FLAG => Some TDouble
  | _ => None
  end.

(** ** Type objects

    A type is a blessed Perl array; the members are its slots.  Slot 12 holds
    the name of a field and also the argument types of a [CodeRef]
    ([SLOT_TYPE_FIELD], [SLOT_CODEREF_ARGS]). *)

Inductive agg_slot := AggNone | AggObj (ag : DCaggr) | AggOther.
Inductive subtype (T : Type) := NoSub | Sub (t : T) | Fields (fs : list T).
Inductive slot12 (T : Type) := NoField | FieldName (name : list Z) | CodeArgs (args : list T).
Arguments NoSub {T}. Arguments Sub {T}. Arguments Fields {T}.
Arguments NoField {T}. Arguments FieldName {T}. Arguments CodeArgs {T}.

Inductive axt := Axt {
  t_isa_type : bool;          (** derived from Affix::Type *)
  t_isa_pointer : bool;       (** derived from Affix::Type::Pointer *)
  t_isa_char : bool;          (** derived from Affix::Type::Char *)
  t_numeric : flag;
  t_sizeof : Z;
  t_alignment : Z;
  t_offset : Z;
  t_subtype : subtype axt;
  t_arraylen : Z;
  t_aggregate : agg_slot;
  t_slot12 : slot12 axt;
  t_sig : list ascii          (** [SLOT_CODEREF_SIG] *)
}.

Definition t_field (t : axt) : option (list Z) :=
  match t_slot12 t with FieldName n => Some n | _ => None end.
Definition t_args (t : axt) : option (list axt) :=
  match t_slot12 t with CodeArgs l => Some l | _ => None end.

(** The userdata of a callback ([CodeRef]). *)
Record CodeRef (SV : Type) := {
  cr_signature : list ascii;
  cr_argtypes : list axt;
  cr_restype : axt;
  cr_restype_c : flag;
  cr_cv : SV;
}.
Arguments Build_CodeRef {SV}. Arguments cr_signature {SV}. Arguments cr_argtypes {SV}.
Arguments cr_restype {SV}. Arguments cr_restype_c {SV}. Arguments cr_cv {SV}.

(** What marshalling asks of the rest of the system: objects of the Perl
    classes of Affix, callbacks, and the C library's multibyte conversion. *)
Class Services (SV : Type) := {
  new_pointer_obj : axt -> option Z -> SV;      (** an [Affix::Pointer::Unmanaged] *)
  pinned_sv : axt -> Z -> SV;                   (** an undefined scalar with [_pin] magic *)
  new_xsub : axt -> Z -> SV;                    (** a sub that calls a function of a CodeRef type *)
  dcbNewCallback : CodeRef SV -> C Z;
  sv_address : SV -> Z;                         (** the scalar itself, as a pointer *)
  sv_at : Z -> SV;                              (** and back *)
  mbstowcs : list Z -> list Z;
}.

(** ** Utilities (Utils.cxx) *)

Definition padding_needed_for (offset alignment : Z) : Z :=
  if alignment =? 0 then 0
  else
    let misalignment := offset mod alignment in
    if negb (misalignment =? 0) then alignment - misalignment
    else 0.

Definition type_as_dc (f : flag) : option ascii :=
  match f with
  | VOID_FLAG => Some DC_SIGCHAR_VOID
  | BOOL_FLAG => Some DC_SIGCHAR_BOOL
  | CHAR_FLAG => Some DC_SIGCHAR_CHAR
  | SHORT_FLAG => Some DC_SIGCHAR_SHORT
  | INT_FLAG => Some DC_SIGCHAR_INT
  | LONG_FLAG => Some DC_SIGCHAR_LONG
  | LONGLONG_FLAG => Some DC_SIGCHAR_LONGLONG
  | FLOAT_FLAG => Some DC_SIGCHAR_FLOAT
  | DOUBLE_FLAG => Some DC_SIGCHAR_DOUBLE
  | WSTRING_FLAG | CODEREF_FLAG | POINTER_FLAG | STDSTRING_FLAG => Some DC_SIGCHAR_POINTER
  | UCHAR_FLAG => Some DC_SIGCHAR_UCHAR
  | USHORT_FLAG => Some DC_SIGCHAR_USHORT
  | UINT_FLAG => Some DC_SIGCHAR_UINT
  | ULONG_FLAG => Some DC_SIGCHAR_ULONG
  | ULONGLONG_FLAG => Some DC_SIGCHAR_ULONGLONG
  | STRUCT_FLAG | CPPSTRUCT_FLAG | UNION_FLAG => Some DC_SIGCHAR_AGGREGATE
  | WCHAR_FLAG => Some (flag_char WCHAR_FLAG)
  | _ => None (* -1 *)
  end.

(** ** Wide characters (wchar_t.cxx, outside Windows) *)

Section Marshal.
Context {SV : Type} {P : Perl SV} {DM : DataModel} {AL : Allocator} {SRV : Services SV}.

#[local] Abbreviation e := dm_endian.

(** The size of [wchar_t]. *)
Variable wchar_size : nat.

(** The conversions of the C compiler between [float] and [double]. *)
Variable double_to_float : Z -> Z.
Variable float_to_double : Z -> Z.

Definition isASCII (c : Z) : bool := (0 <=? c) && (c <? 128).

(** The bytes up to the first zero ([sv_setpv] takes a C string). *)
Fixpoint c_string (bs : list Z) : list Z :=
  match bs with [] => [] | b :: bs => if b =? 0 then [] else b :: c_string bs end.

Definition wchar2utf (src : list Z) : SV :=
  let dst := concat (map (fun c => if isASCII c then [c] else uvchr_to_utf8 c) src) in
  sv_utf8_decode (newSVpvn (c_string dst) false).

(** The wide string without its terminator; for a scalar that is not UTF-8 the
    result is uninitialised memory. *)
Definition utf2wchar (src : SV) : C (list Z) :=
  if SvUTF8 src then mret (mbstowcs (SvPV src)) else fault.

(** ** From Perl to C: [sv2ptr] *)

Definition SIZEOF_BOOL : Z := 1.
Definition SIZEOF_INT : Z := 4.
Definition SIZEOF_INTPTR_T : Z := dm_size_bits / 8.
Definition ptr_bytes (p : Z) : list Z := enc e (Z.to_nat SIZEOF_INTPTR_T) p.

(** Memory for the result where the caller gave none. *)
Definition alloc_unless (ret n : Z) : C Z := if ret =? 0 then Newxz n else mret ret.

Definition mismatch {A} : C A := croak "Data type mismatch for Pointer[%s] [%d]".

Definition sv2ptr_void (data : SV) (ret : Z) : C Z :=
  if SvOK data then
    match pointer_of data with
    | Some (Some addr) => mret (wrapU dm_size_bits addr)
    | Some None => mret ret
    | None =>
      match SvPVbyte data with
      | None => croak "Wide character in %s"
      | Some ptr =>
        ret ← alloc_unless ret (Z.of_nat (length ptr));
        _ ← Store ret ptr;
        mret ret
      end
    end
  else mret ret.

Definition bool_bytes (data : SV) : list Z := [if SvTRUE data then 1 else 0].

Definition sv2ptr_bool (data : SV) (ret : Z) : C Z :=
  match av_of data with
  | Some array =>
    ret ← alloc_unless ret (Z.of_nat (length array) * SIZEOF_BOOL);
    _ ← for_elems SIZEOF_BOOL (fun sv => mret (bool_bytes sv)) array ret;
    mret ret
  | None =>
    ret ← alloc_unless ret SIZEOF_BOOL;
    _ ← Store ret (bool_bytes data);
    mret ret
  end.

(** [Char], [SChar] and, with [uchar], [UChar]: integers from an array, in a
    block of [int]s; else the bytes of the string and a terminator. *)
Definition sv2ptr_char (uchar : bool) (data : SV) (ret : Z) : C Z :=
  if SvOK data then
    match av_of data with
    | Some array =>
      let len := Z.of_nat (length array) in
      ret ← alloc_unless ret ((if uchar then len + 1 else len) * SIZEOF_INT);
      _ ← for_elems 1 (fun sv => mret (enc e 1 (if uchar then SvUV sv else SvIV sv))) array ret;
      mret ret
    | None =>
      let i := SvPV data in
      ret ← alloc_unless ret (Z.of_nat (length i) + 1);
      _ ← Store ret i;
      mret ret
    end
  else mret ret.

(** The numeric types: which scalars count as numbers, and the conversion
    [i = SvIV(data)], [SvUV] or [SvNV]. *)
Definition is_number (t : cty) (data : SV) : bool :=
  if is_float t then SvNOK data || SvIOK data else SvIOK data.

Definition number_of (t : cty) (data : SV) : Z :=
  match t with
  | TUShort | TUInt => SvUV data
  | TFloat => double_to_float (SvNV data)
  | TDouble => SvNV data
  | _ => SvIV data
  end.

Definition number_bytes (t : cty) (data : SV) : list Z :=
  enc e (Z.to_nat (sizeof_cty t)) (number_of t data).

Definition sv2ptr_number (t : cty) (data : SV) (ret : Z) : C Z :=
  if SvOK data then
    if is_number t data then
      ret ← alloc_unless ret (sizeof_cty t);
      _ ← Store ret (number_bytes t data);
      mret ret
    else match av_of data with
    | Some array =>
      ret ← alloc_unless ret (Z.of_nat (length array) * sizeof_cty t);
      _ ← for_elems (sizeof_cty t) (fun sv => mret (number_bytes t sv)) array ret;
      mret ret
    | None => mismatch
    end
  else mret ret.

(** [CodeRef]: a callback with the sub as its userdata.  The slots of the
    arguments must hold an array. *)
Definition sv2ptr_coderef (type : axt) (data : SV) : C Z :=
  if SvOK data then
    match t_args type, t_subtype type with
    | Some args, Sub restype =>
      dcbNewCallback (Build_CodeRef (t_sig type) args restype (t_numeric restype) data)
    | _, _ => fault
    end
  else Newxz SIZEOF_INTPTR_T.

(** [WChar], debugging output included: [DumpHex] reads 16 bytes at [ret], and
    the wide string goes to [ret] whether there is memory or not. *)
Definition sv2ptr_wchar (data : SV) (ret : Z) : C Z :=
  value ← utf2wchar data;
  _ ← Load ret 16;
  _ ← Load ret 16;
  _ ← Store ret (concat (map (enc e wchar_size) value));
  mret ret.

(** The fields of a [Struct] and of a [Union]; [marshal] is [sv2ptr]. *)
Definition sv2ptr_field (marshal : axt -> SV -> Z -> C Z) (ret : Z) (field : axt) (data : SV) : C unit :=
  if t_isa_pointer field then
    ptr ← marshal field data 0;
    Store (ret + t_offset field) (ptr_bytes ptr)
  else
    _ ← marshal field data (ret + t_offset field);
    mret tt.

Definition field_name (field : axt) : C (list Z) :=
  match t_field field with
  | None => croak "Malformed Struct[...] field; missing field name"
  | Some name => mret name
  end.

Definition sv2ptr_struct_field (marshal : axt -> SV -> Z -> C Z) (hv : list Z -> option SV)
    (ret : Z) (field : axt) : C unit :=
  name ← field_name field;
  match hv name with
  | None => croak "Malformed Struct[...]; missing '%s' field"
  | Some data => sv2ptr_field marshal ret field data
  end.

(** The loop over the fields of a union, which counts those that are given. *)
Definition sv2ptr_union_fields (marshal : axt -> SV -> Z -> C Z) (hv : list Z -> option SV)
    (ret : Z) : list axt -> bool -> C bool :=
  fix go fields okay := match fields with
  | [] => mret okay
  | field :: fields =>
    name ← field_name field;
    match hv name with
    | None => go fields okay
    | Some data =>
      _ ← sv2ptr_field marshal ret field data;
      go fields true
    end
  end.

Fixpoint sv2ptr (type : axt) (data : SV) (ret : Z) {struct type} : C Z :=
  if negb (SvOK data) && SvREADONLY data then mret 0 (* explicit undef *)
  else match t_numeric type with
  | VOID_FLAG => sv2ptr_void data ret
  | BOOL_FLAG => sv2ptr_bool data ret
  | CHAR_FLAG | SCHAR_FLAG => sv2ptr_char false data ret
  | UCHAR_FLAG => sv2ptr_char true data ret
  | SHORT_FLAG => sv2ptr_number TShort data ret
  | USHORT_FLAG => sv2ptr_number TUShort data ret
  | INT_FLAG => sv2ptr_number TInt data ret
  | UINT_FLAG => sv2ptr_number TUInt data ret
  | LONG_FLAG => sv2ptr_number TLong data ret
  | ULONG_FLAG => sv2ptr_number TULong data ret
  | LONGLONG_FLAG => sv2ptr_number TLongLong data ret
  | ULONGLONG_FLAG => sv2ptr_number TULongLong data ret
  | FLOAT_FLAG => sv2ptr_number TFloat data ret
  | DOUBLE_FLAG => sv2ptr_number TDouble data ret
  | POINTER_FLAG =>
    match t_subtype type with
    | Sub subtype =>
      if t_isa_pointer subtype then
        if SvOK data then
          match av_of data with
          | Some array =>
            ret ← alloc_unless ret (Z.of_nat (length array) * SIZEOF_INTPTR_T);
            _ ← for_elems SIZEOF_INTPTR_T
                  (fun sv => i ← sv2ptr subtype sv 0; mret (ptr_bytes i)) array ret;
            mret ret
          | None =>
            ret ← alloc_unless ret SIZEOF_INTPTR_T;
            i ← sv2ptr subtype data 0;
            _ ← Store ret (ptr_bytes i);
            mret ret
          end
        else mret ret
      else if negb (t_isa_type subtype) then croak "subtype is not of type Affix::Type"
      else match pointer_of data with
      | Some (Some addr) => mret (wrapU dm_size_bits addr)
      | Some None => mret ret
      | None => sv2ptr subtype data 0
      end
    | _ => fault
    end
  | SV_FLAG => mret (sv_address data)
  | CODEREF_FLAG => sv2ptr_coderef type data
  | WCHAR_FLAG => sv2ptr_wchar data ret
  | STRUCT_FLAG =>
    match hv_of data with
    | None => mret 0 (* after a warning *)
    | Some hv =>
      ret ← alloc_unless ret (t_sizeof type);
      match t_subtype type with
      | Fields fields =>
        _ ← for_ (sv2ptr_struct_field (fun t d r => sv2ptr t d r) hv ret) fields;
        mret ret
      | _ => fault
      end
    end
  | UNION_FLAG =>
    match hv_of data with
    | None => mret 0
    | Some hv =>
      ret ← alloc_unless ret (t_sizeof type);
      match t_subtype type with
      | Fields fields =>
        okay ← sv2ptr_union_fields (fun t d r => sv2ptr t d r) hv ret fields false;
        if okay : bool then mret ret
        else croak "Malformed Union[...] field; missing defined field"
      | _ => fault
      end
    end
  | _ => croak "Attempt to marshal unknown/unhandled type in sv2ptr: %s"
  end.

(** ** From C to Perl: [ptr2sv] *)

Definition ptr2obj (type : axt) (ptr : Z) : SV :=
  new_pointer_obj type (if ptr =? 0 then None else Some ptr).

(** [newSViv] takes an [IV]: a larger unsigned value wraps. *)
Definition newSViv_of (z : Z) : SV := newSViv (wrapS 64 z).

Definition number_sv (t : cty) (x : Z) : SV :=
  match t with
  | TUShort => newSVuv x
  | TFloat => newSVnv (float_to_double x)
  | TDouble => newSVnv x
  | _ => newSViv_of x
  end.

Definition ptr2sv_number (t : cty) (ptr : Z) : C SV :=
  bs ← Load ptr (Z.to_nat (sizeof_cty t));
  mret (number_sv t (conv t (dec e bs))).

Definition ptr2sv_char (ptr : Z) : C SV :=
  units ← Scan 1 ptr;
  let s := concat units in
  mret (newSVpvn s (is_utf8_string s)).

(** For an empty wide string nothing is assigned to the result. *)
Definition ptr2sv_wchar (ptr : Z) : C SV :=
  units ← Scan wchar_size ptr;
  match units with
  | [] => fault
  | _ => mret (wchar2utf (map (dec e) units))
  end.

Definition load_ptr (ptr : Z) : C Z :=
  bs ← Load ptr (Z.to_nat SIZEOF_INTPTR_T);
  mret (dec e bs).

(** The pointers from [ptr] up to, and with, the first NULL. *)
Definition ptr2sv_pointers (unmarshal : Z -> C SV) (ptr : Z) : C (list SV) := fun h =>
  (fix go (fuel : nat) (p : Z) : C (list SV) :=
     match fuel with
     | O => fault
     | S fuel =>
       tmp ← load_ptr p;
       sv ← unmarshal tmp;
       if negb (tmp =? 0) then svs ← go fuel (p + SIZEOF_INTPTR_T); mret (sv :: svs)
       else mret [sv]
     end) (S (size h)) ptr h.

(** One field of a struct. *)
Definition ptr2sv_struct_field (unmarshal : axt -> Z -> C SV) (ptr : Z) (subtype : axt)
    : C (list Z * SV) :=
  let p := ptr + t_offset subtype in
  val ← (if t_isa_pointer subtype then
           q ← load_ptr p;
           if q =? 0 then mret newSV
           else match t_subtype subtype with
             | Sub sub => if t_isa_char sub then unmarshal sub q else mret newSV
             | _ => fault
             end
         else match t_numeric subtype with
           | CHAR_FLAG | SCHAR_FLAG | UCHAR_FLAG =>
             bs ← Load p 1; mret (newSVpvn bs (is_utf8_string bs))
           | _ => unmarshal subtype p
           end);
  name ← or_fault (t_field subtype);
  mret (name, val).

(** One field of a union: a scalar that is read when it is used. *)
Definition ptr2sv_union_field (ptr : Z) (subtype : axt) : C (list Z * SV) :=
  let p := ptr + t_offset subtype in
  val ← (if t_isa_pointer subtype then q ← load_ptr p; mret (pinned_sv subtype q)
         else mret (pinned_sv subtype p));
  name ← or_fault (t_field subtype);
  mret (name, val).

Fixpoint ptr2sv (type : axt) (ptr : Z) {struct type} : C SV :=
  if ptr =? 0 then mret newSV
  else match t_numeric type with
  | VOID_FLAG => mret (ptr2obj type ptr)
  | BOOL_FLAG => bs ← Load ptr 1; mret (newSVbool (negb (dec e bs =? 0)))
  | CHAR_FLAG | SCHAR_FLAG | UCHAR_FLAG => ptr2sv_char ptr
  | SHORT_FLAG => ptr2sv_number TShort ptr
  | USHORT_FLAG => ptr2sv_number TUShort ptr
  | INT_FLAG => ptr2sv_number TInt ptr
  | UINT_FLAG => ptr2sv_number TUInt ptr
  | LONG_FLAG => ptr2sv_number TLong ptr
  | ULONG_FLAG => ptr2sv_number TULong ptr
  | LONGLONG_FLAG => ptr2sv_number TLongLong ptr
  | ULONGLONG_FLAG => ptr2sv_number TULongLong ptr
  | FLOAT_FLAG => ptr2sv_number TFloat ptr
  | DOUBLE_FLAG => ptr2sv_number TDouble ptr
  | POINTER_FLAG =>
    match t_subtype type with
    | Sub subtype =>
      match t_numeric subtype with
      | POINTER_FLAG =>
        svs ← ptr2sv_pointers (fun p => ptr2sv subtype p) ptr;
        mret (newRV_av svs)
      | CHAR_FLAG | UCHAR_FLAG | SCHAR_FLAG => ptr2sv subtype ptr
      | WCHAR_FLAG => ptr2sv_wchar ptr
      | _ =>
        if t_arraylen type =? 1 then ptr2sv subtype ptr
        else
          svs ← collect (fun x => ptr2sv subtype (ptr + Z.of_nat x * t_sizeof subtype))
                  (seq 0 (Z.to_nat (wrapU dm_size_bits (t_arraylen type))));
          mret (newRV_av svs)
      end
    | _ => fault
    end
  | SV_FLAG => mret (sv_at ptr)
  | WCHAR_FLAG => ptr2sv_wchar ptr
  | CODEREF_FLAG => mret (new_xsub type ptr)
  | STRUCT_FLAG =>
    match t_subtype type with
    | Fields fields =>
      kvs ← collect (ptr2sv_struct_field (fun t p => ptr2sv t p) ptr) fields;
      mret (newRV_hv kvs)
    | _ => fault
    end
  | UNION_FLAG =>
    match t_subtype type with
    | Fields fields =>
      kvs ← collect (ptr2sv_union_field ptr) fields;
      mret (newRV_hv kvs)
    | _ => fault
    end
  | _ => croak "Attempt to marshal unknown/unhandled type in ptr2sv: %s "
  end.

(** ** Describing a type to dyncall: [_aggregate]

    [sysv] and [junk] are those of [dcNewAggr] and [dcCloseAggr]. *)

Variable sysv : bool.
Variable junk : list Z.

Definition field_sigchar (f : flag) : option DCsigchar :=
  match f with
  | BOOL_FLAG => Some DC_SIGCHAR_BOOL
  | CHAR_FLAG => Some DC_SIGCHAR_CHAR
  | UCHAR_FLAG => Some DC_SIGCHAR_UCHAR
  | SHORT_FLAG => Some DC_SIGCHAR_SHORT
  | USHORT_FLAG => Some DC_SIGCHAR_USHORT
  | INT_FLAG => Some DC_SIGCHAR_INT
  | UINT_FLAG => Some DC_SIGCHAR_UINT
  | LONG_FLAG => Some DC_SIGCHAR_LONG
  | ULONG_FLAG => Some DC_SIGCHAR_ULONG
  | LONGLONG_FLAG => Some DC_SIGCHAR_LONGLONG
  | ULONGLONG_FLAG => Some DC_SIGCHAR_ULONGLONG
  | FLOAT_FLAG => Some DC_SIGCHAR_FLOAT
  | DOUBLE_FLAG => Some DC_SIGCHAR_DOUBLE
  | POINTER_FLAG | CODEREF_FLAG | WSTRING_FLAG => Some DC_SIGCHAR_POINTER
  | WCHAR_FLAG => Some DC_SIGCHAR_LONGLONG
  | _ => None
  end.

(** The loop over the fields; [describe] is [_aggregate]. *)
Definition aggregate_field (describe : axt -> C DCaggr) (ag : DCaggr) (field : axt) : C DCaggr :=
  match t_numeric field with
  | STRUCT_FLAG | UNION_FLAG | CPPSTRUCT_FLAG =>
    sub ← describe field;
    or_fault (dcAggrField ag DC_SIGCHAR_AGGREGATE (t_offset field) 1 (Some sub))
  | f =>
    match field_sigchar f with
    | Some c => or_fault (dcAggrField ag c (t_offset field) 1 None)
    | None => croak "Unhandled type in aggregate: %s"
    end
  end.

Definition aggregate_fields (describe : axt -> C DCaggr) : list axt -> DCaggr -> C DCaggr :=
  fix go fields ag := match fields with
  | [] => mret ag
  | field :: fields => ag ← aggregate_field describe ag field; go fields ag
  end.

Fixpoint _aggregate (type : axt) {struct type} : C DCaggr :=
  match t_numeric type with
  | STRUCT_FLAG | CPPSTRUCT_FLAG | UNION_FLAG =>
    match t_aggregate type with
    | AggObj ag => mret ag
    | AggOther => croak "Oh, no..."
    | AggNone =>
      match t_subtype type with
      | Fields fields =>
        let ag := dcNewAggr junk (Z.of_nat (length fields)) (t_sizeof type) in
        ag ← aggregate_fields (fun t => _aggregate t) fields ag;
        or_fault (dcCloseAggr sysv ag)
      | _ => fault
      end
    end
  | _ => croak "Unsupported aggregate: %s"
  end.

(** ** The type constructors of Affix::Type *)

Definition AFFIX_ALIGNBYTES : Z := 8.

(** The sizes registered by Platform.cxx; the alignments of the compilers of
    64-bit systems are the same. *)
Definition SIZEOF (f : flag) : Z :=
  match f with
  | VOID_FLAG => 0
  | BOOL_FLAG => SIZEOF_BOOL
  | CHAR_FLAG | SCHAR_FLAG | UCHAR_FLAG => 1
  | WCHAR_FLAG => Z.of_nat wchar_size
  | POINTER_FLAG | CODEREF_FLAG | WSTRING_FLAG | STDSTRING_FLAG => SIZEOF_INTPTR_T
  | _ => match flag_cty f with Some t => sizeof_cty t | None => 0 end
  end.

Definition scalar_type (f : flag) : axt :=
  Axt true false (match f with CHAR_FLAG => true | _ => false end)
    f (SIZEOF f) (SIZEOF f) 0 NoSub 1 AggNone NoField [].

Definition pointer_type (sub : axt) (len : Z) : axt :=
  Axt true true false POINTER_FLAG SIZEOF_INTPTR_T SIZEOF_INTPTR_T 0 (Sub sub) len AggNone NoField [].

Definition String_type : axt := pointer_type (scalar_type CHAR_FLAG) 1.

(** [padding_needed_for] of Affix::Platform, which is not that of Utils.cxx. *)
Definition padding_needed_for_pm (offset alignment : Z) : Z :=
  if offset =? 0 then alignment
  else if alignment =? 0 then 0
  else
    let misalignment := offset mod alignment in
    if negb (misalignment =? 0) then alignment - misalignment else 0.

Definition set_field (offset : Z) (name : list Z) (t : axt) : axt :=
  Axt (t_isa_type t) (t_isa_pointer t) (t_isa_char t) (t_numeric t) (t_sizeof t) (t_alignment t)
    offset (t_subtype t) (t_arraylen t) (t_aggregate t) (FieldName name) (t_sig t).

(** The loop of [Struct]: the fields with their offsets, and the size.  [None]
    is the exception of a division by zero. *)
Fixpoint struct_layout (types : list (list Z * axt)) (sizeof : Z) : option (list axt * Z) :=
  match types with
  | [] => Some ([], sizeof)
  | (name, t) :: types =>
    if t_alignment t =? 0 then None
    else
      let offset := (sizeof + t_alignment t - 1) / t_alignment t * t_alignment t in
      '(fs, size) ← struct_layout types (offset + t_sizeof t);
      Some (set_field offset name t :: fs, size)
  end.

Definition Struct (types : list (list Z * axt)) : option axt :=
  '(store, sizeof) ← struct_layout types 0;
  Some (Axt true false false STRUCT_FLAG
          (sizeof + padding_needed_for_pm sizeof AFFIX_ALIGNBYTES) AFFIX_ALIGNBYTES
          0 (Fields store) 1 AggNone NoField []).

End Marshal.
