(* ===== verification/MarshalProofs.v ===== *)
(** * Marshalling: the memory lemmas

    A small program logic for [C]: [wp m h Q] says that [m] run on [h] has no
    undefined behaviour and throws no exception, and that [Q] holds of its
    result.  Running out of memory ends the process and is allowed. *)

From S2P Require Export Marshal.
#[local] Open Scope Z_scope.

(** ** Weakest preconditions *)

Definition wp {A} (m : C A) (h : heap) (Q : A -> heap -> Prop) : Prop :=
  match m h with Ret x h' => Q x h' | NoMemory => True | Croak _ | Fault => False end.

Lemma wp_ret {A} (x : A) h (Q : A -> heap -> Prop) : Q x h -> wp (mret x) h Q.
Proof. done. Qed.

Lemma wp_bind {A B} (m : C A) (f : A -> C B) h Q :
  wp m h (fun x h' => wp (f x) h' Q) -> wp (x ← m; f x) h Q.
Proof. unfold wp, mbind, C_bind. by destruct (m h). Qed.

Lemma wp_mono {A} (m : C A) h (Q Q' : A -> heap -> Prop) :
  wp m h Q -> (forall x h', Q x h' -> Q' x h') -> wp m h Q'.
Proof. unfold wp. destruct (m h); auto. Qed.

(** ** Blocks and loads *)

Definition block (p n : Z) (h : heap) : Prop := forall a, p <= a < p + n -> is_Some (h !! a).

Lemma lookup_zeros n : forall p h a,
  zeros p n h !! a = if (p <=? a) && (a <? p + Z.of_nat n) then Some 0 else h !! a.
Proof.
  induction n as [|n IH]; intros p h a; cbn [zeros].
  - destruct (Z.leb_spec p a), (Z.ltb_spec a (p + Z.of_nat 0)); cbn [andb]; (done || lia).
  - destruct (Z.eq_dec p a) as [->|Hne].
    + rewrite lookup_insert_eq, Z.leb_refl, (proj2 (Z.ltb_lt _ _)) by lia. done.
    + rewrite lookup_insert_ne by done. rewrite IH.
      destruct (Z.leb_spec (p + 1) a), (Z.ltb_spec a (p + 1 + Z.of_nat n)), (Z.leb_spec p a),
        (Z.ltb_spec a (p + Z.of_nat (S n))); cbn [andb]; (done || lia).
Qed.

Lemma load_spec n : forall p h bs,
  load p n h = Some bs <-> length bs = n /\ forall i b, bs !! i = Some b -> h !! (p + Z.of_nat i) = Some b.
Proof.
  induction n as [|n IH]; intros p h bs; cbn [load].
  - split; [intros [= <-]; split; [done|]; intros i b Hi; by rewrite lookup_nil in Hi|].
    intros [Hl _]. by destruct bs.
  - split.
    + intros (b & Hb & (bs' & Hbs & [= <-])%bind_Some)%bind_Some.
      apply IH in Hbs as [Hl Hbs]. split; [cbn; by rewrite Hl|].
      intros [|i] c Hc; cbn in Hc; [injection Hc as <-; by rewrite Z.add_0_r|].
      specialize (Hbs i c Hc). rewrite <- Hbs. f_equal. lia.
    + intros [Hl Hbs]. destruct bs as [|b bs]; [done|]. injection Hl as Hl.
      pose proof (Hbs O b eq_refl) as Hb. rewrite Z.add_0_r in Hb. rewrite Hb. cbn [mbind option_bind].
      rewrite (proj2 (IH (p + 1) h bs)); [done|]. split; [done|]. intros i c Hc.
      rewrite <- (Hbs (S i) c Hc). f_equal. lia.
Qed.

Lemma load_agree p n h h' :
  (forall a, p <= a < p + Z.of_nat n -> h' !! a = h !! a) -> load p n h' = load p n h.
Proof.
  revert p; induction n as [|n IH]; intros p Ha; cbn [load]; [done|].
  rewrite Ha by lia. rewrite (IH (p + 1)); [done|]. intros a H. apply Ha. lia.
Qed.

Lemma load_block p bs h : load p (length bs) h = Some bs -> block p (Z.of_nat (length bs)) h.
Proof.
  intros [_ H]%load_spec a Ha. destruct (lookup_lt_is_Some_2 bs (Z.to_nat (a - p)) ltac:(lia)) as [b Hb].
  specialize (H _ b Hb). replace (p + Z.of_nat (Z.to_nat (a - p))) with a in H by lia. by exists b.
Qed.

Lemma load_app p n m h bs1 bs2 :
  load p n h = Some bs1 -> load (p + Z.of_nat n) m h = Some bs2 -> load p (n + m) h = Some (bs1 ++ bs2).
Proof.
  intros [H1 H1']%load_spec [H2 H2']%load_spec. apply load_spec. split; [rewrite length_app; lia|].
  intros i b [Hb|[Hi Hb]]%lookup_app_Some; [auto|].
  specialize (H2' _ b Hb). rewrite <- H2'. f_equal. lia.
Qed.

Lemma store_spec bs : forall p h, block p (Z.of_nat (length bs)) h ->
  exists h', store p bs h = Some h' /\ load p (length bs) h' = Some bs /\
    (forall a, ~ p <= a < p + Z.of_nat (length bs) -> h' !! a = h !! a) /\
    (forall a, is_Some (h !! a) -> is_Some (h' !! a)).
Proof.
  induction bs as [|b bs IH]; intros p h Hb; cbn [store length load].
  - by exists h.
  - destruct (Hb p ltac:(cbn [length]; lia)) as [x Hx]. rewrite Hx. cbn [mbind option_bind].
    destruct (IH (p + 1) (<[p := b]> h)) as (h' & Hs & Hl & Ho & Hd).
    { intros a Ha. destruct (Z.eq_dec p a) as [->|]; [rewrite lookup_insert_eq; by eexists|].
      rewrite lookup_insert_ne by done. apply Hb. cbn [length] in *. lia. }
    exists h'. split; [done|]. split_and!.
    + rewrite Ho by lia. rewrite lookup_insert_eq. cbn [mbind option_bind]. by rewrite Hl.
    + intros a Ha. rewrite Ho by lia. apply lookup_insert_ne. lia.
    + intros a Ha. apply Hd. destruct (Z.eq_dec p a) as [->|]; [rewrite lookup_insert_eq; by eexists|].
      by rewrite lookup_insert_ne.
Qed.

Lemma store_fault bs : forall p h a,
  p <= a < p + Z.of_nat (length bs) -> h !! a = None -> store p bs h = None.
Proof.
  induction bs as [|b bs IH]; intros p h a Ha Hn; cbn [store length] in *; [lia|].
  destruct (h !! p) eqn:Hp; [|done]. cbn [mbind option_bind].
  apply (IH _ _ a); [|rewrite lookup_insert_ne; [done|congruence]].
  assert (a <> p) by congruence. lia.
Qed.

Lemma block_size p n h : block p (Z.of_nat n) h -> (n <= size h)%nat.
Proof.
  intros Hb. rewrite <- size_dom.
  set (l := map (fun i => p + Z.of_nat i) (seq 0 n)).
  assert (Hl : length l = n) by (unfold l; by rewrite length_map, length_seq).
  assert (Hnd : NoDup l).
  { unfold l. apply NoDup_fmap_2; [intros x y; lia|]. apply NoDup_seq. }
  rewrite <- Hl at 1. rewrite <- (size_list_to_set (C := gset Z) l Hnd).
  apply subseteq_size. intros a Ha%elem_of_list_to_set.
  apply elem_of_dom, Hb. unfold l in Ha. apply list_elem_of_fmap in Ha as (i & -> & Hi%elem_of_seq). lia.
Qed.

(** The units of a string are found with the fuel of [Scan]. *)
Lemma scan_units w us h : (0 < w)%nat -> forall p fuel,
  Forall (fun u => length u = w /\ forallb (Z.eqb 0) u = false) us ->
  load p (length (concat us) + w) h = Some (concat us ++ repeat 0 w) ->
  (length us < fuel)%nat -> scan w fuel p h = Some us.
Proof.
  intros Hw. induction us as [|u us IH]; intros p fuel Hus Hl Hf; (destruct fuel as [|fuel]; [lia|]);
    cbn [concat app length] in *.
  - cbn [scan Nat.add] in *. rewrite Hl. cbn [mbind option_bind].
    assert (forallb (Z.eqb 0) (repeat 0 w) = true) as -> by (clear; by induction w as [|w IH]). done.
  - inversion Hus as [|?? [Hu Hnz] Hus']; subst. rewrite <- app_assoc in Hl.
    pose proof Hl as [Hlen Hlk]%load_spec.
    assert (Hl1 : load p (length u) h = Some u).
    { apply load_spec. split; [done|]. intros i b Hi. apply Hlk.
      rewrite lookup_app_l by (by eapply lookup_lt_Some). done. }
    cbn [scan]. rewrite Hl1. cbn [mbind option_bind]. rewrite Hnz.
    rewrite IH; [done|done| |lia].
    apply load_spec. rewrite length_app in Hlen |- *. rewrite repeat_length in *. split; [lia|].
    intros i b Hi. specialize (Hlk (length u + i)%nat b). rewrite lookup_app_r in Hlk by lia.
    rewrite Nat.add_comm, Nat.add_sub in Hlk. rewrite <- (Hlk Hi). f_equal. lia.
Qed.

Definition no_zero (s : list Z) : bool := forallb (fun b => negb (b =? 0)) s.

Lemma concat_singletons {A} (s : list A) : concat (map (fun b => [b]) s) = s.
Proof. induction s as [|b s IH]; [done|]. cbn. by rewrite IH. Qed.


(** ** What an operation changes

    [touches W h h']: nothing allocated in [h] is freed, and outside [W] nothing
    allocated in [h] is changed. *)

Definition touches (W : Z -> Prop) (h h' : heap) : Prop :=
  forall a, is_Some (h !! a) -> is_Some (h' !! a) /\ (~ W a -> h' !! a = h !! a).

Definition within (lo n : Z) (a : Z) : Prop := lo <= a < lo + n.

Lemma touches_refl W h : touches W h h.
Proof. done. Qed.

Lemma touches_trans W h1 h2 h3 : touches W h1 h2 -> touches W h2 h3 -> touches W h1 h3.
Proof.
  intros H12 H23 a Ha. destruct (H12 a Ha) as [Hs E12]. destruct (H23 a Hs) as [? E23].
  split; [done|]. intros Hn. rewrite E23, E12; done.
Qed.

Lemma touches_mono (W W' : Z -> Prop) h h' :
  (forall a, is_Some (h !! a) -> W a -> W' a) -> touches W h h' -> touches W' h h'.
Proof. intros Hw H a Ha. destruct (H a Ha). split; [done|]. intros Hn. auto. Qed.

Lemma touches_block W p n h h' : touches W h h' -> block p n h -> block p n h'.
Proof. intros H Hb a Ha. by apply H, Hb. Qed.

(** ** Rules for the memory operations *)

Lemma load_length p n h bs : load p n h = Some bs -> length bs = n.
Proof. by intros [? _]%load_spec. Qed.

Lemma Scan_string p s h :
  no_zero s = true -> load p (length s + 1) h = Some (s ++ [0]) ->
  Scan 1 p h = Ret (map (fun b => [b]) s) h.
Proof.
  intros Hz Hl. unfold Scan. rewrite (scan_units 1 (map (fun b => [b]) s)); [done|lia| | |].
  - apply List.Forall_forall. intros u (b & <- & Hb)%in_map_iff. split; [done|].
    unfold no_zero in Hz. rewrite forallb_forall in Hz. specialize (Hz b Hb).
    cbn [forallb]. rewrite Z.eqb_sym, andb_true_r. by apply negb_true_iff.
  - by rewrite concat_singletons.
  - rewrite length_map. pose proof (load_length _ _ _ _ Hl) as Hn. rewrite <- Hn in Hl.
    apply load_block, block_size in Hl. lia.
Qed.

Lemma wp_Store p bs h (Q : unit -> heap -> Prop) :
  block p (Z.of_nat (length bs)) h ->
  (forall h', load p (length bs) h' = Some bs -> touches (within p (Z.of_nat (length bs))) h h' -> Q tt h') ->
  wp (Store p bs) h Q.
Proof.
  intros Hb HQ. destruct (store_spec bs p h Hb) as (h' & Hs & Hl & Ho & Hd).
  unfold wp, Store. rewrite Hs. apply HQ; [done|]. intros a Ha. split; [by apply Hd|]. apply Ho.
Qed.

Lemma wp_Newxz `{AL : Allocator} n h (Q : Z -> heap -> Prop) :
  0 <= n ->
  (forall p h', 0 < p < 2 ^ dm_size_bits -> p + n <= 2 ^ dm_size_bits -> (forall a, within p n a -> h !! a = None) ->
     (forall a, within p n a -> h' !! a = Some 0) -> touches (fun _ => False) h h' -> Q p h') ->
  wp (Newxz n) h Q.
Proof.
  intros Hn HQ. unfold wp, Newxz. destruct (malloc h n) as [p|] eqn:E; [|done].
  apply malloc_law in E as (Hp & Hmax & Hfresh).
  assert (Hz : forall a, zeros p (Z.to_nat n) h !! a
            = if (p <=? a) && (a <? p + n) then Some 0 else h !! a).
  { intros a. rewrite lookup_zeros, Z2Nat.id by done. done. }
  apply HQ; try done.
  - intros a [Ha1 Ha2]. rewrite Hz, (proj2 (Z.leb_le _ _)), (proj2 (Z.ltb_lt _ _)) by lia. done.
  - intros a Ha. rewrite Hz. destruct (Z.leb_spec p a), (Z.ltb_spec a (p + n)); cbn [andb]; try done.
    rewrite Hfresh in Ha by lia. by destruct Ha.
Qed.

(** ** Memory that a reader depends on

    [reads m x F h]: [m] reads [x] from [h], and from every heap that agrees
    with it on [F]. *)

Definition reads {A} (m : C A) (x : A) (F : Z -> Prop) (h : heap) : Prop :=
  (forall a, F a -> is_Some (h !! a)) /\
  forall h', (forall a, F a -> h' !! a = h !! a) -> m h' = Ret x h'.

Lemma reads_touches {A} (m : C A) x F W h h' :
  reads m x F h -> touches W h h' -> (forall a, F a -> ~ W a) -> reads m x F h'.
Proof.
  intros [Hd Hr] Ht Hw. split.
  - intros a Ha. by apply Ht, Hd.
  - intros h2 H2. apply Hr. intros a Ha. rewrite H2 by done. apply Ht; auto.
Qed.

Lemma reads_now {A} (m : C A) x F h : reads m x F h -> m h = Ret x h.
Proof. intros [_ Hr]. by apply Hr. Qed.

Lemma reads_ret {A} (x : A) h : reads (mret x) x (fun _ => False) h.
Proof. by split. Qed.

Lemma reads_bind {A B} (m : C A) (f : A -> C B) x y F G h :
  reads m x F h -> reads (f x) y G h -> reads (x ← m; f x) y (fun a => F a \/ G a) h.
Proof.
  intros [Hd1 H1] [Hd2 H2]. split; [intros a [?|?]; auto|]. intros h' Ha.
  unfold mbind, C_bind. rewrite H1 by auto. apply H2. auto.
Qed.

Lemma reads_mono {A} (m : C A) x (F G : Z -> Prop) h :
  reads m x F h -> (forall a, F a -> G a) -> (forall a, G a -> is_Some (h !! a)) -> reads m x G h.
Proof. intros [_ H] HFG Hd. split; auto. Qed.

Lemma reads_Load p bs h n :
  load p n h = Some bs -> reads (Load p n) bs (within p (Z.of_nat n)) h.
Proof.
  intros Hl. pose proof (load_length _ _ _ _ Hl) as <-. split; [apply (load_block _ _ _ Hl)|].
  intros h' Ha. unfold Load. by rewrite (load_agree _ _ h h' Ha), Hl.
Qed.

Lemma reads_Scan p s h :
  no_zero s = true -> load p (length s + 1) h = Some (s ++ [0]) ->
  reads (Scan 1 p) (map (fun b => [b]) s) (within p (Z.of_nat (length s + 1))) h.
Proof.
  intros Hz Hl. pose proof (load_length _ _ _ _ Hl) as Hn. split.
  - rewrite <- Hn in Hl |- *. apply (load_block _ _ _ Hl).
  - intros h' Ha. apply Scan_string; [done|]. by rewrite (load_agree _ _ h h' Ha).
Qed.
