(* ===== verification/MarshalProps.v ===== *)
(** * Marshalling: what comes back

    The specification of marshalling without memory ([view]), the values it
    applies to ([fits]), and the round trip through C memory. *)

From S2P Require Export MarshalProofs.
#[local] Open Scope Z_scope.

(** Induction over types, through the subtype and the fields. *)
Section Induction.
Variable Q : axt -> Prop.
Definition on_subtype (s : subtype axt) : Prop :=
  match s with NoSub => True | Sub t => Q t | Fields fs => Forall Q fs end.
Hypothesis step : forall t, on_subtype (t_subtype t) -> Q t.

Fixpoint axt_nested_ind (t : axt) : Q t.
Proof.
  apply step. destruct t as [?????? ? [|s|fs]]; cbn; [done|apply axt_nested_ind|].
  induction fs; constructor; auto.
Defined.
End Induction.

Section Spec.
Context {SV : Type} {P : Perl SV} {DM : DataModel} {OK : DataModelOk} {AL : Allocator} {SRV : Services SV}.
#[local] Abbreviation e := dm_endian.
Variable wchar_size : nat.
Variable double_to_float : Z -> Z.
Variable float_to_double : Z -> Z.

#[local] Abbreviation sv2ptr := (sv2ptr wchar_size double_to_float).
#[local] Abbreviation ptr2sv := (ptr2sv wchar_size float_to_double).
#[local] Abbreviation number_of := (number_of double_to_float).
#[local] Abbreviation number_sv := (number_sv float_to_double).

(** ** Values that fit a type *)

Definition is_None_b {A} (o : option A) : bool := match o with None => true | _ => false end.

Definition is_char (f : flag) : bool :=
  match f with CHAR_FLAG | SCHAR_FLAG | UCHAR_FLAG => true | _ => false end.

(** Strings that end where C says. *)
Definition string_ok (d : SV) : bool := SvOK d && is_None_b (av_of d) && no_zero (SvPV d).

(** A pointer to characters. *)
Definition is_string (t : axt) : bool :=
  match t_subtype t with
  | Sub s => t_isa_type s && negb (t_isa_pointer s) && t_isa_char s && is_char (t_numeric s)
  | _ => false
  end.

(** Fields in order, without overlap, inside their struct. *)
Fixpoint layout (fs : list axt) (lo size : Z) : bool :=
  match fs with
  | [] => lo <=? size
  | f :: fs => (lo <=? t_offset f) && layout fs (t_offset f + t_sizeof f) size
  end.

(** A value for a place of the type: a number for a number, one character for
    a character, a string for a pointer to characters, a hash with all fields
    for a struct. *)
Fixpoint fits (t : axt) (d : SV) : bool :=
  match t_numeric t with
  | BOOL_FLAG =>
    negb (t_isa_pointer t) && (t_sizeof t =? 1) && (SvOK d || negb (SvREADONLY d)) && is_None_b (av_of d)
  | CHAR_FLAG | SCHAR_FLAG | UCHAR_FLAG =>
    negb (t_isa_pointer t) && (t_sizeof t =? 1) && SvOK d && is_None_b (av_of d)
    && (Nat.eqb (length (SvPV d)) 1)
  | POINTER_FLAG =>
    t_isa_pointer t && (t_sizeof t =? SIZEOF_INTPTR_T) && is_string t && string_ok d
    && is_None_b (pointer_of d)
  | STRUCT_FLAG =>
    negb (t_isa_pointer t) && SvOK d &&
    match hv_of d, t_subtype t with
    | Some hv, Fields fs =>
      layout fs 0 (t_sizeof t) &&
      forallb (fun f => match t_field f with
        | Some name => match hv name with Some x => fits f x | None => false end
        | None => false
        end) fs
    | _, _ => false
    end
  | f =>
    match flag_cty f with
    | Some ty => negb (t_isa_pointer t) && (t_sizeof t =? sizeof_cty ty) && SvOK d && is_number ty d
    | None => false
    end
  end.

(** The value Perl gets back. *)
Definition string_view (d : SV) : SV := newSVpvn (SvPV d) (is_utf8_string (SvPV d)).

Fixpoint view (t : axt) (d : SV) : SV :=
  match t_numeric t with
  | BOOL_FLAG => newSVbool (SvTRUE d)
  | CHAR_FLAG | SCHAR_FLAG | UCHAR_FLAG | POINTER_FLAG => string_view d
  | STRUCT_FLAG =>
    match hv_of d, t_subtype t with
    | Some hv, Fields fs =>
      newRV_hv (map (fun f =>
        let name := default [] (t_field f) in
        (name, match hv name with Some x => view f x | None => newSV end)) fs)
    | _, _ => newSV
    end
  | f => match flag_cty f with Some ty => number_sv ty (conv ty (number_of ty d)) | None => newSV end
  end.

(** ** Scalars and strings *)

Lemma sizeof_ty_bits t : t <> TBool -> 8 * Z.of_nat (Z.to_nat (sizeof_cty t)) = ty_bits t.
Proof. destruct OK as [[E|E] [E'|E']], t; cbn; rewrite ?E, ?E'; (done || lia). Qed.

Lemma sizeof_pos t : 0 < sizeof_cty t.
Proof. destruct OK as [[E|E] [E'|E']], t; cbn; rewrite ?E, ?E'; (done || lia). Qed.

Lemma conv_number_bytes t d :
  t <> TBool -> conv t (dec e (number_bytes double_to_float t d)) = conv t (number_of t d).
Proof.
  intros Ht. unfold number_bytes. rewrite dec_enc, sizeof_ty_bits by done. apply conv_wrapU. lia.
Qed.

Lemma length_number_bytes t d :
  Z.of_nat (length (number_bytes double_to_float t d)) = sizeof_cty t.
Proof. unfold number_bytes. rewrite length_enc. pose proof (sizeof_pos t). lia. Qed.

(** What is known after [m] put a value in a block at [p]. *)
Definition stored {A} (p n : Z) (m : C A) (x : A) (h h' : heap) : Prop :=
  touches (within p n) h h' /\
  exists F, (forall a, F a -> within p n a \/ h !! a = None) /\ reads m x F h'.

Lemma number_stored ty d p h :
  ty <> TBool -> SvOK d = true -> is_number ty d = true -> 0 < p -> block p (sizeof_cty ty) h ->
  wp (sv2ptr_number double_to_float ty d p) h (fun q h' => q = p /\ stored p (sizeof_cty ty) (ptr2sv_number float_to_double ty p)
      (number_sv ty (conv ty (number_of ty d))) h h').
Proof.
  intros Ht Hok Hn Hp Hb. unfold sv2ptr_number. rewrite Hok, Hn. unfold alloc_unless.
  rewrite (proj2 (Z.eqb_neq p 0)) by lia. apply wp_bind, wp_ret, wp_bind.
  apply wp_Store; rewrite length_number_bytes; [done|]. intros h' Hl Htch. apply wp_ret.
  split; [done|]. split; [done|]. exists (within p (sizeof_cty ty)). split; [by left|].
  unfold ptr2sv_number. rewrite <- conv_number_bytes by done.
  eapply reads_mono; [eapply reads_bind; [apply reads_Load|apply reads_ret]| |].
  - rewrite <- Hl. f_equal. pose proof (length_number_bytes ty d). lia.
  - intros a [Ha|[]]. pose proof (sizeof_pos ty). by rewrite Z2Nat.id in Ha by lia.
  - apply (touches_block _ _ _ _ _ Htch Hb).
Qed.

Lemma touches_fresh p n h h1 h2 :
  (forall a, within p n a -> h !! a = None) -> touches (fun _ => False) h h1 ->
  touches (within p n) h1 h2 -> touches (fun _ => False) h h2.
Proof.
  intros Hf H1 H2 a Ha. destruct (H1 a Ha) as [Hs1 E1]. destruct (H2 a Hs1) as [Hs2 E2].
  split; [done|]. intros Hn. rewrite E2, E1; [done|done|]. intros Hw. rewrite Hf in Ha by done. by destruct Ha.
Qed.

(** A string goes to a new block, with its terminator. *)
Lemma string_block u d h :
  string_ok d = true ->
  wp (sv2ptr_char u d 0) h (fun q h' =>
    (0 < q < 2 ^ dm_size_bits) /\ touches (fun _ => False) h h' /\
    (forall a, within q (Z.of_nat (length (SvPV d) + 1)) a -> h !! a = None) /\
    load q (length (SvPV d) + 1) h' = Some (SvPV d ++ [0])).
Proof.
  unfold string_ok. intros [[Hok Hav]%andb_prop Hz]%andb_prop. unfold sv2ptr_char. rewrite Hok.
  destruct (av_of d); [done|]. unfold alloc_unless. cbn [Z.eqb]. set (s := SvPV d) in *.
  apply wp_bind, wp_Newxz; [lia|]. intros q h1 Hq Hmax Hfresh Hzero Ht1.
  apply wp_bind, wp_Store; [intros a Ha; rewrite Hzero by (unfold within; lia); by eexists|].
  intros h2 Hl Ht2. apply wp_ret. split; [lia|]. split_and!.
  - eapply touches_fresh, touches_mono, Ht2; [exact Hfresh|done|unfold within; lia].
  - intros a Ha. apply Hfresh. unfold within in *. lia.
  - apply load_app; [done|]. cbn [load].
    destruct (Ht2 (q + Z.of_nat (length s))) as [_ ->]; unfold within; try lia; rewrite Hzero by (unfold within; lia);
      [done|by eexists].
Qed.

Lemma string_stored u d h :
  string_ok d = true ->
  wp (sv2ptr_char u d 0) h (fun q h' =>
    (0 < q < 2 ^ dm_size_bits) /\ touches (fun _ => False) h h' /\
    exists F, (forall a, F a -> h !! a = None) /\ reads (ptr2sv_char q) (string_view d) F h').
Proof.
  intros Hs. eapply wp_mono; [by apply string_block|]. intros q h2 (Hq & Ht & Hfresh & Hend).
  split; [done|]. split; [done|]. exists (within q (Z.of_nat (length (SvPV d) + 1))). split; [exact Hfresh|].
  apply andb_prop in Hs as [_ Hz]. unfold ptr2sv_char, string_view.
  eapply reads_mono; [eapply reads_bind; [by apply reads_Scan|]| |].
  - cbn beta zeta. rewrite concat_singletons. apply reads_ret.
  - by intros a [Ha|[]].
  - intros a Ha. pose proof (load_block q (SvPV d ++ [0]) h2) as Hb. rewrite length_app in Hb. by apply Hb.
Qed.

(** ** The cases of [sv2ptr] and [ptr2sv] *)

Ltac by_case t := destruct t as [??? f]; destruct f; cbn in *; simplify_eq; try done.

Lemma sv2ptr_scalar t ty d r :
  flag_cty (t_numeric t) = Some ty -> SvOK d = true -> sv2ptr t d r = sv2ptr_number double_to_float ty d r.
Proof. intros H Hok. by_case t; by rewrite Hok. Qed.

Lemma sv2ptr_boolean t d r :
  t_numeric t = BOOL_FLAG -> SvOK d || negb (SvREADONLY d) = true -> sv2ptr t d r = sv2ptr_bool d r.
Proof. intros H Hok. by_case t. destruct (SvOK d); [done|]. cbn in *. by rewrite <- (negb_involutive (SvREADONLY d)), Hok. Qed.

Lemma sv2ptr_chars t d r :
  is_char (t_numeric t) = true -> SvOK d = true -> exists u, sv2ptr t d r = sv2ptr_char u d r.
Proof. intros H Hok. by_case t; rewrite Hok; by eexists. Qed.

Lemma sv2ptr_pointer t s d r :
  t_numeric t = POINTER_FLAG -> t_subtype t = Sub s -> t_isa_type s = true -> t_isa_pointer s = false ->
  SvOK d = true -> pointer_of d = None -> sv2ptr t d r = sv2ptr s d 0.
Proof. intros H Hs H1 H2 Hok Hp. by_case t. by rewrite Hok, H2, H1, Hp. Qed.

Lemma sv2ptr_struct t fs hv d r :
  t_numeric t = STRUCT_FLAG -> t_subtype t = Fields fs -> SvOK d = true -> hv_of d = Some hv ->
  sv2ptr t d r = (ret ← alloc_unless r (t_sizeof t);
                  _ ← for_ (sv2ptr_struct_field sv2ptr hv ret) fs; mret ret).
Proof. intros H Hs Hok Hh. by_case t. by rewrite Hok, Hh. Qed.

Lemma ptr2sv_scalar t ty p :
  flag_cty (t_numeric t) = Some ty -> p <> 0 -> ptr2sv t p = ptr2sv_number float_to_double ty p.
Proof. intros H Hp. by_case t; by rewrite (proj2 (Z.eqb_neq p 0)). Qed.

Lemma ptr2sv_boolean t p :
  t_numeric t = BOOL_FLAG -> p <> 0 ->
  ptr2sv t p = (bs ← Load p 1; mret (newSVbool (negb (dec e bs =? 0)))).
Proof. intros H Hp. by_case t; by rewrite (proj2 (Z.eqb_neq p 0)). Qed.

Lemma ptr2sv_chars t p : is_char (t_numeric t) = true -> p <> 0 -> ptr2sv t p = ptr2sv_char p.
Proof. intros H Hp. by_case t; by rewrite (proj2 (Z.eqb_neq p 0)). Qed.

Lemma ptr2sv_pointer t s p :
  t_numeric t = POINTER_FLAG -> t_subtype t = Sub s -> is_char (t_numeric s) = true -> p <> 0 ->
  ptr2sv t p = ptr2sv s p.
Proof.
  intros H Hs Hc Hp. by_case t. rewrite (proj2 (Z.eqb_neq p 0)) by done. by destruct (t_numeric s).
Qed.

Lemma ptr2sv_struct t fs p :
  t_numeric t = STRUCT_FLAG -> t_subtype t = Fields fs -> p <> 0 ->
  ptr2sv t p = (kvs ← collect (ptr2sv_struct_field ptr2sv p) fs; mret (newRV_hv kvs)).
Proof. intros H Hs Hp. by_case t. by rewrite (proj2 (Z.eqb_neq p 0)). Qed.

(** ** One field *)

(** The value of a field goes to its place, and what it points to is new. *)
Definition field_ok (t : axt) : Prop := forall d name p h,
  fits t d = true -> t_field t = Some name -> 0 < p -> 0 <= t_offset t ->
  block (p + t_offset t) (t_sizeof t) h ->
  wp (sv2ptr_field sv2ptr p t d) h (fun _ h' =>
    stored (p + t_offset t) (t_sizeof t) (ptr2sv_struct_field ptr2sv p t) (name, view t d) h h').

Lemma reads_named t (m : C SV) name v F h :
  t_field t = Some name -> reads m v F h ->
  reads (val ← m; name ← or_fault (t_field t); mret (name, val)) (name, v) F h.
Proof.
  intros -> Hr. eapply reads_mono; [eapply reads_bind; [exact Hr|]| |apply Hr].
  - exact (reads_ret (name, v) h).
  - by intros a [?|[]].
Qed.

Lemma field_in_place t d name v p h :
  t_isa_pointer t = false -> is_char (t_numeric t) = false -> t_field t = Some name ->
  wp (sv2ptr t d (p + t_offset t)) h (fun _ h' =>
    stored (p + t_offset t) (t_sizeof t) (ptr2sv t (p + t_offset t)) v h h') ->
  wp (sv2ptr_field sv2ptr p t d) h (fun _ h' =>
    stored (p + t_offset t) (t_sizeof t) (ptr2sv_struct_field ptr2sv p t) (name, v) h h').
Proof.
  intros Hi Hc Hname Hw. unfold sv2ptr_field, ptr2sv_struct_field. rewrite Hi. apply wp_bind.
  eapply wp_mono; [exact Hw|]. intros q h' [Ht (F & HF & Hr)]. apply wp_ret. split; [done|].
  exists F. split; [done|]. apply reads_named; [done|].
  destruct (t_numeric t); done.
Qed.

Lemma bool_stored d p h :
  av_of d = None -> 0 < p -> block p 1 h ->
  wp (sv2ptr_bool d p) h (fun q h' => q = p /\
    stored p 1 (bs ← Load p 1; mret (newSVbool (negb (dec e bs =? 0)))) (newSVbool (SvTRUE d)) h h').
Proof.
  intros Hav Hp Hb. unfold sv2ptr_bool, alloc_unless. rewrite Hav, (proj2 (Z.eqb_neq _ 0)) by lia.
  apply wp_bind, wp_ret, wp_bind. apply wp_Store; [done|]. intros h' Hl Htch. apply wp_ret.
  split; [done|]. split; [done|]. exists (within p 1). split; [by left|].
  eapply reads_mono; [eapply reads_bind; [by apply reads_Load|]| |].
  - replace (SvTRUE d) with (negb (dec e (bool_bytes d) =? 0)); [apply reads_ret|].
    unfold bool_bytes. by destruct (SvTRUE d), e.
  - by intros a [?|[]].
  - apply (touches_block _ _ _ _ _ Htch Hb).
Qed.

Lemma fits_bool t d :
  fits t d = true -> t_numeric t = BOOL_FLAG ->
  t_isa_pointer t = false /\ t_sizeof t = 1 /\ SvOK d || negb (SvREADONLY d) = true /\ av_of d = None.
Proof.
  intros Hf Ht. by_case t. rewrite !andb_true_iff in Hf. destruct Hf as [[[Hi Hs] Hok] Hn].
  apply negb_true_iff in Hi. apply Z.eqb_eq in Hs. by destruct (av_of d).
Qed.

Lemma fits_number t ty d :
  fits t d = true -> flag_cty (t_numeric t) = Some ty ->
  t_isa_pointer t = false /\ t_sizeof t = sizeof_cty ty /\ SvOK d = true /\ is_number ty d = true /\
  ty <> TBool /\ view t d = number_sv ty (conv ty (number_of ty d)).
Proof.
  intros Hf Hty.
  assert (H : negb (t_isa_pointer t) && (t_sizeof t =? sizeof_cty ty) && SvOK d && is_number ty d = true)
    by (by_case t).
  rewrite !andb_true_iff in H. destruct H as [[[Hi%negb_true_iff Hs%Z.eqb_eq] Hok] Hn].
  split_and!; try done; clear -Hty; by_case t.
Qed.

Lemma field_number t ty : flag_cty (t_numeric t) = Some ty -> field_ok t.
Proof.
  intros Hty d name p h Hfits Hname Hp Ho Hb.
  destruct (fits_number t ty d Hfits Hty) as (Hi & Hs & Hok & Hn & Hne & ->).
  apply field_in_place; [done|clear -Hty; by_case t|done|].
  rewrite (sv2ptr_scalar t ty), (ptr2sv_scalar t ty), Hs by (done || lia). rewrite Hs in Hb.
  eapply wp_mono; [apply number_stored; done || lia|]. by intros q h' [_ ?].
Qed.

Lemma field_bool t : t_numeric t = BOOL_FLAG -> field_ok t.
Proof.
  intros Ht d name p h Hfits Hname Hp Ho Hb. destruct (fits_bool t d Hfits Ht) as (Hi & Hs & Hok & Hav).
  assert (Hv : view t d = newSVbool (SvTRUE d)) by (clear -Ht; by_case t).
  rewrite Hv. apply field_in_place; [done|by rewrite Ht|done|].
  rewrite sv2ptr_boolean, ptr2sv_boolean, Hs by (done || lia). rewrite Hs in Hb.
  eapply wp_mono; [apply bool_stored; done || lia|]. by intros q h' [_ ?].
Qed.

Lemma field_char t : is_char (t_numeric t) = true -> field_ok t.
Proof.
  intros Ht d name p h Hfits Hname Hp Ho Hb.
  assert (Hf : negb (t_isa_pointer t) && (t_sizeof t =? 1) && SvOK d && is_None_b (av_of d)
            && Nat.eqb (length (SvPV d)) 1 = true) by (clear -Hfits Ht; by_case t).
  assert (Hv : view t d = string_view d) by (clear -Ht; by_case t).
  apply andb_prop in Hf as [[[[Hi Hs]%andb_prop Hok]%andb_prop Hn]%andb_prop Hl].
  apply negb_true_iff in Hi. apply Z.eqb_eq in Hs. apply Nat.eqb_eq in Hl. rewrite Hv.
  unfold sv2ptr_field, ptr2sv_struct_field. rewrite Hi, Hs. rewrite Hs in Hb.
  destruct (sv2ptr_chars t d (p + t_offset t) Ht Hok) as [u ->].
  unfold sv2ptr_char. rewrite Hok. destruct (av_of d); [done|]. unfold alloc_unless.
  rewrite (proj2 (Z.eqb_neq _ 0)) by lia. apply wp_bind, wp_bind, wp_ret, wp_bind.
  apply wp_Store; rewrite Hl; [done|]. intros h' Hld Htch. apply wp_ret, wp_ret. split; [done|].
  exists (within (p + t_offset t) 1). split; [by left|]. apply reads_named; [done|].
  eapply reads_mono.
  - assert (E : forall (m : C SV), match t_numeric t with CHAR_FLAG | SCHAR_FLAG | UCHAR_FLAG => m | _ => ptr2sv t (p + t_offset t) end = m)
      by (intros; by destruct (t_numeric t)).
    rewrite E. eapply reads_bind; [by apply reads_Load|apply reads_ret].
  - by intros a [?|[]].
  - apply (touches_block _ _ _ _ _ Htch Hb).
Qed.

Lemma ptr_bits : 8 * SIZEOF_INTPTR_T = dm_size_bits /\ 0 < SIZEOF_INTPTR_T.
Proof. unfold SIZEOF_INTPTR_T. destruct OK as [_ [E|E]]; rewrite E; done. Qed.

Lemma reads_load_ptr a q h :
  0 <= q < 2 ^ dm_size_bits -> load a (length (ptr_bytes q)) h = Some (ptr_bytes q) ->
  reads (load_ptr a) q (within a SIZEOF_INTPTR_T) h.
Proof.
  intros Hq Hl. unfold load_ptr. destruct ptr_bits as [Hb Hpos].
  assert (Hd : dec e (ptr_bytes q) = q).
  { unfold ptr_bytes. rewrite dec_enc, Z2Nat.id, Hb by lia. by apply wrapU_id. }
  assert (Hlen : Z.of_nat (length (ptr_bytes q)) = SIZEOF_INTPTR_T)
    by (unfold ptr_bytes; rewrite length_enc; lia).
  pose proof (load_block _ _ _ Hl) as Hbl. rewrite Hlen in Hbl.
  unfold ptr_bytes at 1 in Hl. rewrite length_enc in Hl.
  eapply reads_mono; [eapply reads_bind; [by apply reads_Load|]| |].
  - cbv beta. rewrite Hd. apply reads_ret.
  - intros b [Hw|[]]. by rewrite Z2Nat.id in Hw by lia.
  - exact Hbl.
Qed.

Lemma field_string t : t_numeric t = POINTER_FLAG -> field_ok t.
Proof.
  intros Ht d name p h Hfits Hname Hp Ho Hb.
  assert (Hf : t_isa_pointer t && (t_sizeof t =? SIZEOF_INTPTR_T) && is_string t && string_ok d
            && is_None_b (pointer_of d) = true) by (clear -Hfits Ht; by_case t).
  assert (Hv : view t d = string_view d) by (clear -Ht; by_case t).
  apply andb_prop in Hf as [[[[Hi Hs]%andb_prop His]%andb_prop Hstr]%andb_prop Hpo].
  apply Z.eqb_eq in Hs. rewrite Hv, Hs in *. unfold is_string in His.
  destruct (t_subtype t) as [|s|] eqn:Esub; try done.
  apply andb_prop in His as [[[Ht1 Ht2%negb_true_iff]%andb_prop Ht3]%andb_prop Ht4].
  assert (Hok : SvOK d = true) by (unfold string_ok in Hstr; by destruct (SvOK d)).
  destruct (pointer_of d) eqn:Epo; [done|]. destruct ptr_bits as [_ Hpos].
  unfold sv2ptr_field, ptr2sv_struct_field. rewrite Hi, Esub, Ht3.
  rewrite (sv2ptr_pointer t s) by done. destruct (sv2ptr_chars s d 0 Ht4 Hok) as [u ->].
  apply wp_bind. eapply wp_mono; [by apply string_stored|]. intros q h1 (Hq & Ht1' & F & HF & Hr).
  assert (Hlen : Z.of_nat (length (ptr_bytes q)) = SIZEOF_INTPTR_T)
    by (unfold ptr_bytes; rewrite length_enc; lia).
  apply wp_Store; rewrite Hlen; [by apply (touches_block _ _ _ _ _ Ht1')|]. intros h2 Hl Ht2'.
  split.
  { eapply touches_trans; [eapply touches_mono, Ht1'; done|done]. }
  exists (fun a => within (p + t_offset t) SIZEOF_INTPTR_T a \/ F a). split; [intros a [?|?]; auto|].
  apply reads_named; [done|]. eapply reads_bind; [apply (reads_load_ptr _ q); [lia|exact Hl]|]. cbv beta.
  rewrite (proj2 (Z.eqb_neq q 0)), ptr2sv_chars by (done || lia).
  eapply reads_touches; [exact Hr|exact Ht2'|]. intros a Ha Hw. destruct (Hb a Hw) as [x Hx].
  by rewrite HF in Hx.
Qed.

(** ** All fields *)

Definition field_fits (hv : list Z -> option SV) (f : axt) : bool :=
  match t_field f with
  | Some name => match hv name with Some x => fits f x | None => false end
  | None => false
  end.

Definition field_view (hv : list Z -> option SV) (f : axt) : list Z * SV :=
  let name := default [] (t_field f) in
  (name, match hv name with Some x => view f x | None => newSV end).

Lemma layout_le fs : forall lo size, layout fs lo size = true ->
  Forall (fun f => 0 <= t_sizeof f) fs -> lo <= size.
Proof.
  induction fs as [|f fs IH]; intros lo size Hl Hs; cbn in Hl.
  - by apply Z.leb_le.
  - apply andb_prop in Hl as [Hlo%Z.leb_le Hl]. inversion Hs as [|?? Hf Hs']; subst.
    specialize (IH _ _ Hl Hs'). lia.
Qed.

Lemma field_fits_spec hv f :
  field_fits hv f = true -> exists name x, t_field f = Some name /\ hv name = Some x /\ fits f x = true.
Proof. unfold field_fits. destruct (t_field f) as [n|]; [|done]. destruct (hv n) as [x|] eqn:E; [|done]. eauto. Qed.

Lemma fits_struct t d :
  fits t d = true -> t_numeric t = STRUCT_FLAG ->
  exists hv fs, t_isa_pointer t = false /\ SvOK d = true /\ hv_of d = Some hv /\ t_subtype t = Fields fs /\
    layout fs 0 (t_sizeof t) = true /\ forallb (field_fits hv) fs = true.
Proof.
  intros Hf Ht. by_case t. apply andb_prop in Hf as [[Hi%negb_true_iff Hok]%andb_prop Hf].
  destruct (hv_of d) as [hv|]; [|done]. case_match; try done.
  apply andb_prop in Hf as [Hl Hf]. by eauto 10.
Qed.

Lemma fits_size t : forall d, fits t d = true -> 0 <= t_sizeof t.
Proof.
  induction t as [t IH] using axt_nested_ind. intros d Hf.
  destruct (decide (t_numeric t = STRUCT_FLAG)) as [Hn|Hn].
  - destruct (fits_struct t d Hf Hn) as (hv & fs & _ & _ & _ & Hs & Hl & Hfs). rewrite Hs in IH. cbn in IH.
    apply (layout_le fs 0); [done|]. rewrite forallb_forall in Hfs. rewrite List.Forall_forall in IH |- *.
    intros f Hin. destruct (field_fits_spec hv f (Hfs f Hin)) as (name & x & _ & _ & Hx). by apply (IH f Hin x).
  - destruct ptr_bits as [_ Hp]. pose proof (sizeof_pos TLong) as Hs. clear IH.
    destruct t as [??? f sz]; destruct f; cbn in *; try done; rewrite ?andb_true_iff in Hf;
      destruct_and?; repeat match goal with H : (_ =? _) = true |- _ => apply Z.eqb_eq in H end;
      subst; lia.
Qed.

Lemma fields_ok hv p size fs : forall lo h,
  Forall field_ok fs -> Forall (fun f => 0 <= t_sizeof f) fs -> forallb (field_fits hv) fs = true ->
  layout fs lo size = true -> 0 < p -> 0 <= lo -> block (p + lo) (size - lo) h ->
  wp (for_ (sv2ptr_struct_field sv2ptr hv p) fs) h (fun _ h' =>
    stored (p + lo) (size - lo) (collect (ptr2sv_struct_field ptr2sv p) fs) (map (field_view hv) fs) h h').
Proof.
  induction fs as [|f fs IH]; intros lo h Hok Hsz Hfits Hl Hp Hlo Hb.
  { apply wp_ret. split; [done|]. exists (fun _ => False). split; [done|]. apply reads_ret. }
  inversion Hok as [|?? Hf Hok']; inversion Hsz as [|?? Hs Hsz']; subst.
  cbn [forallb layout map] in *. apply andb_prop in Hfits as [Hff Hfits]. apply andb_prop in Hl as [Hlof%Z.leb_le Hl].
  pose proof (layout_le _ _ _ Hl Hsz') as Hend. unfold field_fits in Hff.
  destruct (t_field f) as [name|] eqn:Hname; [|done]. destruct (hv name) as [x|] eqn:Hx; [|done].
  assert (Hview : field_view hv f = (name, view f x)) by (unfold field_view; rewrite Hname; cbn; by rewrite Hx).
  cbn [for_]. apply wp_bind. unfold sv2ptr_struct_field at 1, field_name. rewrite Hname.
  apply wp_bind, wp_ret. rewrite Hx.
  eapply wp_mono; [apply Hf; try done; [lia|intros a Ha; apply Hb; lia]|].
  intros _ h1 [Ht1 (F1 & HF1 & Hr1)].
  eapply wp_mono; [apply (IH (t_offset f + t_sizeof f) h1); try done; [lia|]|].
  { apply (touches_block _ _ _ _ _ Ht1). intros a Ha. apply Hb. lia. }
  intros _ h2 [Ht2 (F2 & HF2 & Hr2)]. split.
  { eapply touches_trans; (eapply touches_mono; [|eassumption]); unfold within; intros; lia. }
  exists (fun a => F1 a \/ (F2 a \/ False)). split.
  { intros a [[Ha|Ha]%HF1|[[Ha|Ha]%HF2|[]]]; unfold within in *; [left; lia|by right|left; lia|].
    destruct (h !! a) eqn:E; [|by right]. destruct (Ht1 a ltac:(by eexists)) as [[y Hy] _]. by rewrite Ha in Hy. }
  cbn [collect]. rewrite Hview. eapply reads_bind; [|eapply reads_bind; [exact Hr2|apply reads_ret]].
  eapply reads_touches; [exact Hr1|exact Ht2|]. intros a Ha Hw. destruct (HF1 a Ha) as [Hw1|Hn].
  - unfold within in *. lia.
  - destruct (Hb a) as [y Hy]; [unfold within in *; lia|]. by rewrite Hn in Hy.
Qed.

(** ** Whole types *)

Lemma struct_stored t d p h :
  (forall fs, t_subtype t = Fields fs -> Forall field_ok fs) ->
  fits t d = true -> t_numeric t = STRUCT_FLAG -> 0 < p -> block p (t_sizeof t) h ->
  wp (sv2ptr t d p) h (fun q h' => q = p /\ stored p (t_sizeof t) (ptr2sv t p) (view t d) h h').
Proof.
  intros Hok Hf Ht Hp Hb. destruct (fits_struct t d Hf Ht) as (hv & fs & Hi & Hd & Hhv & Hs & Hl & Hfs).
  rewrite (sv2ptr_struct t fs hv), (ptr2sv_struct t fs) by (done || lia).
  assert (Hv : view t d = newRV_hv (map (field_view hv) fs)) by (clear -Ht Hhv Hs; by_case t; by rewrite Hhv).
  rewrite Hv. unfold alloc_unless. rewrite (proj2 (Z.eqb_neq p 0)) by lia. apply wp_bind, wp_ret, wp_bind.
  eapply wp_mono; [apply (fields_ok hv p (t_sizeof t) fs 0 h); try done|].
  - by apply Hok.
  - rewrite forallb_forall in Hfs. apply List.Forall_forall. intros f Hin.
    destruct (field_fits_spec hv f (Hfs f Hin)) as (name & x & _ & _ & Hx). by apply (fits_size f x).
  - by rewrite Z.add_0_r, Z.sub_0_r.
  - rewrite Z.add_0_r, Z.sub_0_r. intros [] h' [Htch (F & HF & Hr)]. apply wp_ret.
    split; [done|]. split; [done|]. exists F. split; [done|].
    eapply reads_mono; [eapply reads_bind; [exact Hr|apply reads_ret]| |apply Hr]. by intros a [?|[]].
Qed.

Lemma all_fields_ok t : field_ok t.
Proof.
  induction t as [t IH] using axt_nested_ind.
  destruct (flag_cty (t_numeric t)) as [ty|] eqn:Hty; [by eapply field_number|].
  destruct (t_numeric t) eqn:Ht; try done; try (by apply field_bool); try (by apply field_char; rewrite Ht);
    try (by apply field_string); intros d name p h Hf; try solve [exfalso; clear -Hf Ht; by_case t].
  intros Hname Hp Ho Hb. destruct (fits_struct t d Hf Ht) as (hv & fs & Hi & _).
  apply field_in_place; [done|by rewrite Ht|done|].
  eapply wp_mono; [apply struct_stored; try done; [|lia]|by intros q h' [_ ?]].
  intros fs' Hs. by rewrite Hs in IH.
Qed.

(** A value for a whole block: as for a place, but a string of any length for
    characters. *)
Definition fits_value (t : axt) (d : SV) : bool :=
  if is_char (t_numeric t) then string_ok d else fits t d.

(** New memory for the value: nothing old is changed. *)
Definition placed (rd : Z -> C SV) (v : SV) (h : heap) (p : Z) (h' : heap) : Prop :=
  0 < p < 2 ^ dm_size_bits /\ touches (fun _ => False) h h' /\
  exists F, (forall a, F a -> h !! a = None) /\ reads (rd p) v F h'.

Lemma alloc_placed n (m : Z -> C Z) (body : Z -> C Z) rd v h :
  0 <= n -> (forall r, m r = (r ← alloc_unless r n; body r)) ->
  (forall p h, 0 < p -> block p n h -> wp (m p) h (fun q h' => q = p /\ stored p n (rd p) v h h')) ->
  wp (m 0) h (placed rd v h).
Proof.
  intros Hn Hm Hp. rewrite Hm. apply wp_bind. unfold alloc_unless. cbn [Z.eqb].
  apply wp_Newxz; [done|]. intros p h1 Hpos _ Hfresh Hzero Ht1.
  assert (Hb : block p n h1) by (intros a Ha; rewrite Hzero by done; by eexists).
  specialize (Hp p h1 (proj1 Hpos) Hb). rewrite Hm in Hp. unfold alloc_unless in Hp.
  rewrite (proj2 (Z.eqb_neq p 0)) in Hp by lia.
  eapply wp_mono; [exact Hp|]. intros q h2 [-> [Ht2 (F & HF & Hr)]]. split; [done|].
  split; [by eapply touches_fresh|]. exists F. split; [|done]. intros a Ha.
  destruct (HF a Ha) as [Hw|Hn1]; [by apply Hfresh|].
  destruct (h !! a) eqn:E; [|done]. destruct (Ht1 a ltac:(by eexists)) as [[y Hy] _]. by rewrite Hn1 in Hy.
Qed.

Lemma string_placed t s u d h :
  string_ok d = true -> (forall p, p <> 0 -> ptr2sv t p = ptr2sv_char p) -> view s d = string_view d ->
  wp (sv2ptr_char u d 0) h (placed (ptr2sv t) (view s d) h).
Proof.
  intros Hs Hp ->. eapply wp_mono; [by apply string_stored|].
  intros q h' (Hq & Ht & F & HF & Hr). split; [lia|]. split; [done|]. exists F. rewrite Hp by lia. done.
Qed.

Lemma string_ok_defined d : string_ok d = true -> SvOK d = true.
Proof. unfold string_ok. by destruct (SvOK d). Qed.

(** What [sv2ptr] allocates for a value, [ptr2sv] reads as its view. *)
Lemma marshal_placed t d h :
  fits_value t d = true -> wp (sv2ptr t d 0) h (placed (ptr2sv t) (view t d) h).
Proof.
  unfold fits_value. intros Hf. destruct (is_char (t_numeric t)) eqn:Hc.
  { destruct (sv2ptr_chars t d 0 Hc) as [u ->]; [by apply string_ok_defined|].
    apply string_placed; [done|intros; by apply ptr2sv_chars|clear -Hc; by_case t]. }
  destruct (flag_cty (t_numeric t)) as [ty|] eqn:Hty.
  { destruct (fits_number t ty d Hf Hty) as (_ & Hs & Hok & Hn & Hne & ->).
    rewrite (sv2ptr_scalar t ty) by done.
    apply (alloc_placed (sizeof_cty ty) (sv2ptr_number double_to_float ty d)
             (fun r => _ ← Store r (number_bytes double_to_float ty d); mret r)).
    - pose proof (sizeof_pos ty). lia.
    - intros r. unfold sv2ptr_number. by rewrite Hok, Hn.
    - intros p h1 Hp Hb. rewrite (ptr2sv_scalar t ty) by (done || lia). by apply number_stored. }
  destruct (t_numeric t) eqn:Ht; try done; try solve [exfalso; clear -Hf Ht; by_case t].
  - destruct (fits_bool t d Hf Ht) as (_ & _ & Hok & Hav). rewrite sv2ptr_boolean by done.
    assert (Hv : view t d = newSVbool (SvTRUE d)) by (clear -Ht; by_case t). rewrite Hv.
    apply (alloc_placed 1 (sv2ptr_bool d) (fun r => _ ← Store r (bool_bytes d); mret r)); [done| |].
    + intros r. unfold sv2ptr_bool. by rewrite Hav.
    + intros p h1 Hp Hb. rewrite (ptr2sv_boolean t) by (done || lia). by apply bool_stored.
  - destruct (fits_struct t d Hf Ht) as (hv & fs & Hi & Hok & Hhv & Hs & _).
    apply (alloc_placed (t_sizeof t) (sv2ptr t d)
             (fun r => _ ← for_ (sv2ptr_struct_field sv2ptr hv r) fs; mret r)).
    + by apply (fits_size t d).
    + intros r. by apply sv2ptr_struct.
    + intros p h1 Hp Hb. apply struct_stored; try done. intros fs' _. apply List.Forall_forall.
      intros f _. apply all_fields_ok.
  - assert (Hp : is_string t && string_ok d && is_None_b (pointer_of d) = true).
    { clear -Hf Ht. by_case t. rewrite !andb_true_iff in *. tauto. }
    rewrite !andb_true_iff in Hp. destruct Hp as [[His Hstr] Hpo]. destruct (pointer_of d) eqn:Epo; [done|].
    unfold is_string in His. destruct (t_subtype t) as [|s|] eqn:Esub; try done.
    rewrite !andb_true_iff in His. destruct His as [[[H1 H2%negb_true_iff] H3] H4].
    pose proof (string_ok_defined d Hstr) as Hok. rewrite (sv2ptr_pointer t s) by done.
    destruct (sv2ptr_chars s d 0 H4 Hok) as [u ->].
    apply string_placed; [done| |clear -Ht; by_case t].
    intros p Hp. rewrite (ptr2sv_pointer t s) by done. by apply ptr2sv_chars.
Qed.

(** ** Nothing is lost *)

(** Numbers in the range of their type, and fields with different names. *)
Fixpoint exact (t : axt) (d : SV) : bool :=
  match t_numeric t with
  | STRUCT_FLAG =>
    match hv_of d, t_subtype t with
    | Some hv, Fields fs =>
      bool_decide (NoDup (map (fun f => default [] (t_field f)) fs)) &&
      forallb (fun f => match hv (default [] (t_field f)) with Some x => exact f x | None => false end) fs
    | _, _ => false
    end
  | f =>
    match flag_cty f with
    | Some TFloat => float_to_double (conv TFloat (double_to_float (SvNV d))) =? SvNV d
    | Some ty => conv ty (number_of ty d) =? number_of ty d
    | None => true
    end
  end.

(** The same number, string or truth value, and for structs in every field. *)
Definition same_number (ty : cty) (d v : SV) : Prop :=
  match ty with
  | TUShort => SvUV v = SvUV d
  | TUInt => SvIV v = SvUV d
  | TFloat | TDouble => SvNV v = SvNV d
  | _ => SvIV v = SvIV d
  end.

Fixpoint same (t : axt) (d v : SV) : Prop :=
  match t_numeric t with
  | BOOL_FLAG => SvTRUE v = SvTRUE d
  | CHAR_FLAG | SCHAR_FLAG | UCHAR_FLAG | POINTER_FLAG => SvPV v = SvPV d
  | STRUCT_FLAG =>
    match hv_of d, hv_of v, t_subtype t with
    | Some hv, Some hv', Fields fs =>
      (fix all fs := match fs with
       | [] => True
       | f :: fs =>
         match hv (default [] (t_field f)), hv' (default [] (t_field f)) with
         | Some x, Some y => same f x y
         | _, _ => False
         end /\ all fs
       end) fs
    | _, _, _ => False
    end
  | f => match flag_cty f with Some ty => same_number ty d v | None => True end
  end.

Context {PL : PerlLaws SV}.

Lemma same_number_view ty d :
  ty <> TBool -> is_number ty d = true ->
  match ty with
  | TFloat => float_to_double (conv TFloat (double_to_float (SvNV d))) =? SvNV d
  | _ => conv ty (number_of ty d) =? number_of ty d
  end = true ->
  same_number ty d (number_sv ty (conv ty (number_of ty d))).
Proof.
  intros Hne Hn H. pose proof (SvIV_range d) as HI. pose proof (SvUV_range d) as HU. pose proof (SvNV_range d) as HN.
  assert (Hint : conv ty (SvIV d) = SvIV d -> SvIV (newSViv_of (conv ty (SvIV d))) = SvIV d).
  { intros E. unfold newSViv_of. by rewrite E, wrapS_id, newSViv_iv by done. }
  destruct ty; try done; apply Z.eqb_eq in H; cbn [same_number Marshal.number_sv Marshal.number_of] in *;
    try (by apply Hint); rewrite ?H.
  - by apply newSVuv_uv.
  - assert (in_s 64 (SvUV d)).
    { rewrite <- H. cbn. pose proof (wrapU_range 32 (SvUV d) ltac:(done)). unfold in_u, in_s in *. lia. }
    unfold newSViv_of. by rewrite wrapS_id, newSViv_iv by done.
  - by apply newSVnv_nv.
  - by apply newSVnv_nv.
Qed.

(** The fields of the returned hash. *)
Lemma field_views hv fs :
  NoDup (map (fun f => default [] (t_field f)) fs) -> forallb (field_fits hv) fs = true ->
  exists hv', hv_of (newRV_hv (map (field_view hv) fs)) = Some hv' /\
    forall f, In f fs -> exists x, hv (default [] (t_field f)) = Some x /\ fits f x = true /\
      hv' (default [] (t_field f)) = Some (view f x).
Proof.
  intros Hnd Hfits. destruct (newRV_hv_hv (map (field_view hv) fs)) as (hv' & Hh & Hin & _).
  { by rewrite map_map. }
  exists hv'. split; [done|]. intros f Hf. rewrite forallb_forall in Hfits.
  destruct (field_fits_spec hv f (Hfits f Hf)) as (name & x & Hname & Hx & Hfx).
  exists x. rewrite Hname. cbn. split_and!; [done|done|]. apply Hin.
  apply in_map_iff. exists f. split; [|done]. unfold field_view. rewrite Hname. cbn. by rewrite Hx.
Qed.

Lemma same_string_view d : SvPV (string_view d) = SvPV d.
Proof. apply newSVpvn_pv, SvPV_bytes. Qed.

Lemma same_view t : forall d, fits t d = true -> exact t d = true -> same t d (view t d).
Proof.
  induction t as [t IH] using axt_nested_ind. intros d Hf Hx.
  destruct (flag_cty (t_numeric t)) as [ty|] eqn:Hty.
  { destruct (fits_number t ty d Hf Hty) as (_ & _ & _ & Hn & Hne & ->). clear IH Hf.
    assert (Hs : same_number ty d (number_sv ty (conv ty (number_of ty d)))).
    { apply same_number_view; try done. clear Hn. by_case t. }
    by_case t. }
  destruct (t_numeric t) eqn:Ht; try done; try solve [exfalso; clear -Hf Ht; by_case t].
  1-4, 6: clear IH; by_case t; first [apply newSVbool_true|apply same_string_view].
  destruct (fits_struct t d Hf Ht) as (hv & fs & _ & _ & Hhv & Hs & _ & Hfs). rewrite Hs in IH. cbn in IH.
  assert (Hex : NoDup (map (fun f => default [] (t_field f)) fs) /\
            forallb (fun f => match hv (default [] (t_field f)) with Some x => exact f x | None => false end) fs = true).
  { clear -Hx Ht Hhv Hs. by_case t. rewrite Hhv in Hx. apply andb_prop in Hx as [Hx%bool_decide_eq_true_1 ?]. done. }
  destruct Hex as [Hnd Hex]. destruct (field_views hv fs Hnd Hfs) as (hv' & Hh' & Hin).
  assert (Hv : view t d = newRV_hv (map (field_view hv) fs)) by (clear -Ht Hhv Hs; by_case t; by rewrite Hhv).
  rewrite Hv. clear Hf Hx Hv Hnd Hfs. assert (Hgoal : forall l, incl l fs -> Forall (fun t => forall d, fits t d = true -> exact t d = true -> same t d (view t d)) l ->
    (fix all fs := match fs with
       | [] => True
       | f :: fs =>
         match hv (default [] (t_field f)), hv' (default [] (t_field f)) with
         | Some x, Some y => same f x y
         | _, _ => False
         end /\ all fs
       end) l).
  { intros l Hl. induction 1 as [|f l Hf _ IHl]; [done|].
    destruct (Hin f (Hl f (or_introl eq_refl))) as (x & Hx & Hfx & ->). rewrite forallb_forall in Hex.
    specialize (Hex f (Hl f (or_introl eq_refl))). rewrite Hx in Hex |- *.
    split; [by apply Hf|]. apply IHl. intros g Hg. apply Hl. by right. }
  specialize (Hgoal fs (fun _ H => H) IH). clear -Ht Hhv Hs Hh' Hgoal. by_case t. by rewrite Hhv, Hh'.
Qed.

(** C2: values survive the way to C and back.  For every value that fits its
    type - numbers in range, strings, and structs of these, nested to any depth,
    in any layout without overlap - [sv2ptr] stays inside memory it allocated
    for it, changes nothing that existed before, and [ptr2sv] makes a value of
    that memory that is the same number, string or hash. *)
Theorem marshal_roundtrip t d h :
  fits_value t d = true -> exact t d = true ->
  wp (sv2ptr t d 0) h (fun p h' =>
    0 < p /\ (forall a b, h !! a = Some b -> h' !! a = Some b) /\
    exists v, ptr2sv t p h' = Ret v h' /\ same t d v).
Proof.
  intros Hf Hx. eapply wp_mono; [by apply marshal_placed|]. intros p h' (Hp & Ht & F & _ & Hr).
  split; [lia|]. split.
  - intros a b Ha. rewrite <- Ha. apply Ht; [by eexists|auto].
  - exists (view t d). split; [by eapply reads_now|]. unfold fits_value in Hf.
    destruct (is_char (t_numeric t)) eqn:Hc; [|by apply same_view].
    clear -Hc PL. by_case t; apply same_string_view.
Qed.

(** ** What does not fit *)

(** A character field takes the whole string.  [sv2ptr] has no bound for
    the string of a [Char] field: all its bytes are stored from the field on,
    over what follows it in the struct and behind the struct, and when they
    reach memory that is not allocated the behaviour is undefined. *)
Theorem char_field_overrun t d p h :
  is_char (t_numeric t) = true -> t_isa_pointer t = false -> SvOK d = true -> av_of d = None ->
  p + t_offset t <> 0 ->
  let n := Z.of_nat (length (SvPV d)) in
  (block (p + t_offset t) n h ->
     exists h', sv2ptr_field sv2ptr p t d h = Ret tt h' /\
       load (p + t_offset t) (length (SvPV d)) h' = Some (SvPV d)) /\
  (~ block (p + t_offset t) n h -> sv2ptr_field sv2ptr p t d h = Fault).
Proof.
  intros Hc Hi Hok Hav Hp n. unfold sv2ptr_field. rewrite Hi.
  destruct (sv2ptr_chars t d (p + t_offset t) Hc Hok) as [u ->].
  unfold sv2ptr_char, alloc_unless. rewrite Hok, Hav, (proj2 (Z.eqb_neq _ 0)) by done.
  unfold mbind, C_bind, mret, C_ret, Store. split.
  - intros Hb. destruct (store_spec _ _ _ Hb) as (h' & -> & Hl & _). by exists h'.
  - intros Hb. destruct (store _ _ _) eqn:E; [|done]. exfalso. apply Hb. intros a Ha.
    destruct (h !! a) eqn:Ea; [by eexists|]. by rewrite (store_fault _ _ _ a Ha Ea) in E.
Qed.

(** An unsigned 64-bit integer comes back as a signed one. *)
Theorem ulonglong_reads_signed t p h u :
  t_numeric t = ULONGLONG_FLAG -> 0 < p -> 2 ^ 63 <= u < 2 ^ 64 -> load p 8 h = Some (enc e 8 u) ->
  exists v, ptr2sv t p h = Ret v h /\ SvIV v = u - 2 ^ 64.
Proof.
  intros Ht Hp Hu Hl. rewrite (ptr2sv_scalar t TULongLong) by (done || lia || by rewrite Ht).
  unfold ptr2sv_number, mbind, C_bind, Load. cbn [sizeof_cty]. change (Z.to_nat 8) with 8%nat. rewrite Hl.
  eexists. split; [reflexivity|]. rewrite dec_enc. cbn [Marshal.number_sv conv].
  rewrite wrapU_wrapU, wrapU_id by (unfold in_u; lia). unfold newSViv_of, wrapS.
  replace (u + 2 ^ (64 - 1)) with (u - 2 ^ 63 + 1 * 2 ^ 64) by lia. rewrite Z.mod_add, Z.mod_small by lia.
  rewrite newSViv_iv; [lia|]. unfold in_s. lia.
Qed.

(** An empty wide string has no value. *)
Theorem empty_wide_string_undefined t p h :
  t_numeric t = WCHAR_FLAG -> p <> 0 -> (0 < wchar_size)%nat -> load p wchar_size h = Some (repeat 0 wchar_size) ->
  ptr2sv t p h = Fault.
Proof.
  intros Ht Hp Hw Hl. assert (E : ptr2sv t p = ptr2sv_wchar wchar_size p)
    by (clear -Ht Hp; by_case t; by rewrite (proj2 (Z.eqb_neq p 0))).
  rewrite E. unfold ptr2sv_wchar, mbind, C_bind, Scan. rewrite (scan_units wchar_size []); try done. cbn. lia.
Qed.

End Spec.
