(* ===== verification/Pointer.v ===== *)
(** * Pointer objects and the memory functions (lib/Affix/Type/Pointer.cxx)

    There are two kinds of pointer objects: arrays ([malloc], [sv2ptr]) whose
    first slot has the address, and references to a scalar with the address
    ([calloc], [realloc], [memchr], ...).  Both are objects of the class
    Affix::Pointer::Unmanaged; what a function does with the other kind is what
    the Perl API does.

    [M] adds to the memory of [C] the table of the blocks [free] and [realloc]
    take.  Blocks that marshalling allocates are not in it, unless the initial
    table has them. *)

From S2P Require Export Marshal.
#[local] Open Scope Z_scope.
#[local] Set Warnings "-register-all".

(** ** The Perl API *)

Class PointerObjects (SV : Type) := {
  sv_derived_from : SV -> string -> bool;
  pointer_subtype : SV -> axt;           (** of an array: [SLOT_POINTER_SUBTYPE] *)
  pointer_position : SV -> Z;            (** [SLOT_POINTER_POSITION] *)
  SvIV_rv : SV -> Z;                     (** [SvIV(SvRV(sv))] *)
  sv_setref_pv : string -> Z -> SV;      (** a new reference to a scalar with this address *)
  type_of : SV -> option axt;            (** the type object a reference refers to *)
  new_pointer_array : option Z -> SV -> SV;  (** address and subtype; one element, at position 0 *)
  Void_Pointer : axt;                    (** of [Affix::_Void_Pointer] *)
}.

(** [set_isa] of [boot_Affix_Pointer]. *)
Definition boot_isa : list (string * string) :=
  [("Affix::Pointer::Unmanaged", "Affix::Pointer"); ("Affix::Type::Ref", "Affix::Type::Pointer"); ("Affix::Ref", "Affix::Pointer")]%string.

Definition isa (c k : string) : bool :=
  String.eqb c k || existsb (fun '(a, b) => String.eqb a c && String.eqb b k) boot_isa.

(** What perlapi says of [sv_setref_pv] and [sv_derived_from], and what [ptr2obj]
    makes. *)
Class PointerLaws (SV : Type) `{Perl SV} `{Services SV} `{PointerObjects SV} : Prop := {
  setref_isa : forall c p k, p <> 0 -> sv_derived_from (sv_setref_pv c p) k = isa c k;
  setref_rv : forall c p, p <> 0 -> in_u 64 p -> SvIV_rv (sv_setref_pv c p) = wrapS 64 p;
  setref_null : forall c, SvOK (sv_setref_pv c 0) = false;
  setref_no_array : forall c p, pointer_of (sv_setref_pv c p) = None;
  setref_no_number : forall c p, p <> 0 -> SvIOK (sv_setref_pv c p) = false /\ SvPOK (sv_setref_pv c p) = false;
  array_pointer_of : forall t a, pointer_of (new_pointer_obj t a) = Some a;
  array_isa : forall t a k, sv_derived_from (new_pointer_obj t a) k = isa "Affix::Pointer::Unmanaged" k;
  array_subtype : forall t a, pointer_subtype (new_pointer_obj t a) = t /\ pointer_position (new_pointer_obj t a) = 0;
}.

(** ** Memory with blocks *)

Abbreviation blocks := (gmap Z Z).

Definition M (A : Type) : Type := blocks -> C (A * blocks).

#[export] Instance M_ret : MRet M := fun A x bl => mret (x, bl).
#[export] Instance M_bind : MBind M := fun A B f m bl => (x ← m bl; f x.1 x.2).

Definition lift {A} (m : C A) : M A := fun bl => x ← m; mret (x, bl).
Definition croakM {A} (msg : string) : M A := fun _ => croak msg.

(** [bs] from [p] on becomes memory; [n] bytes from [p] on are no longer. *)
Fixpoint map_bytes (p : Z) (bs : list Z) (h : heap) : heap :=
  match bs with [] => h | b :: bs => <[p := b]> (map_bytes (p + 1) bs h) end.
Fixpoint unmap (p : Z) (n : nat) (h : heap) : heap :=
  match n with O => h | S n => delete p (unmap (p + 1) n h) end.

Section Pointer.
Context {SV : Type} {P : Perl SV} {DM : DataModel} {AL : Allocator} {SRV : Services SV} {PO : PointerObjects SV}.
Variable double_to_float : Z -> Z.
Variable float_to_double : Z -> Z.
Variable wchar_size : nat.
(** What newly allocated memory holds. *)
Variable uninit : Z -> Z.

Definition INT2PTR (i : Z) : Z := wrapU dm_size_bits i.

(** Perl's allocator ends the process when there is no memory; a block of its
    own it gives for no bytes, too. *)
Definition try_malloc (n : Z) : M Z := fun bl h =>
  let n := Z.max 1 n in
  match malloc h n with
  | Some p => Ret (p, <[p := n]> bl) (map_bytes p (map uninit (seqZ p n)) h)
  | None => Ret (0, bl) h
  end.

Definition no_memory {A} : M A := fun _ _ => NoMemory.

Definition safemalloc (n : Z) : M Z := p ← try_malloc n; if p =? 0 then no_memory else mret p.

Definition safecalloc (num size : Z) : M Z :=
  if 2 ^ dm_size_bits <=? num * size then croakM "panic: memory wrap"
  else
    p ← safemalloc (num * size);
    _ ← lift (Store p (repeat 0 (Z.to_nat (num * size))));
    mret p.

Definition safefree (p : Z) : M unit := fun bl h =>
  if p =? 0 then Ret (tt, bl) h
  else match bl !! p with
       | Some n => Ret (tt, delete p bl) (unmap p (Z.to_nat n) h)
       | None => Fault
       end.

Definition block_size (p : Z) : M Z := fun bl => lift (or_fault (bl !! p)) bl.

Definition saferealloc (p n : Z) : M Z :=
  if n =? 0 then _ ← safefree p; mret 0
  else if p =? 0 then safemalloc n
  else
    k ← block_size p;
    old ← lift (Load p (Z.to_nat (Z.min k n)));
    _ ← safefree p;
    q ← safemalloc n;
    _ ← lift (Store q old);
    mret q.

(** ** The C library *)

Fixpoint memchr_from (p : Z) (c : Z) (n : nat) (h : heap) : outcome Z :=
  match n with
  | O => Ret 0 h
  | S n =>
    match h !! p with
    | Some b => if b =? wrapU 8 c then Ret p h else memchr_from (p + 1) c n h
    | None => Fault
    end
  end.

Definition memchr (p c count : Z) : C Z := memchr_from p c (Z.to_nat count).

(** Only the sign of [memcmp]'s result is specified. *)
Fixpoint cmp_bytes (a b : list Z) : Z :=
  match a, b with
  | x :: a, y :: b => if x =? y then cmp_bytes a b else Z.sgn (x - y)
  | _, _ => 0
  end.

(** A source is memory, or the buffer of a Perl string, which ends with a NUL. *)
Inductive source := Memory (p : Z) | Buffer (s : list Z).

Definition read_source (s : source) (n : Z) : C (list Z) :=
  match s with
  | Memory p => Load p (Z.to_nat n)
  | Buffer s => if n <=? Z.of_nat (length s) + 1 then mret (take (Z.to_nat n) (s ++ [0])) else fault
  end.

Definition memcmp (lhs : Z) (rhs : source) (count : Z) : C Z :=
  a ← Load lhs (Z.to_nat count);
  b ← read_source rhs count;
  mret (cmp_bytes a b).

Definition memset (dest ch count : Z) : C Z :=
  _ ← Store dest (repeat (wrapU 8 ch) (Z.to_nat count));
  mret dest.

(** The regions of [memcpy] must not overlap. *)
Definition overlap (dest : Z) (src : source) (n : Z) : bool :=
  match src with Memory p => (p <? dest + n) && (dest <? p + n) | Buffer _ => false end.

Definition memmove (dest : Z) (src : source) (n : Z) : C Z :=
  bs ← read_source src n;
  _ ← Store dest bs;
  mret dest.

Definition memcpy (dest : Z) (src : source) (n : Z) : C Z :=
  if overlap dest src n then fault else memmove dest src n.

(** ** The functions

    A function returns scalars, and may change the variable of its first argument. *)

Record xs := { xs_return : list SV; xs_arg0 : option SV }.

Definition XSRETURN (l : list SV) : M xs := mret {| xs_return := l; xs_arg0 := None |}.

Definition usage {A} (params : string) : M A := croakM ("Usage: " ++ params).
Definition not_a_pointer {A} (what : string) : M A := croakM (what ++ " is not of type Affix::Pointer").

Definition is_pointer (sv : SV) : bool := sv_derived_from sv "Affix::Pointer".

(** [AXT_POINTER_ADDR] of an array; the check comes first. *)
Definition address_slot (sv : SV) : M (option Z) :=
  match pointer_of sv with Some slot => mret slot | None => not_a_pointer "ptr" end.

(** The address of the functions that "have not been updated". *)
Definition scalar_address (what : string) (sv : SV) : M Z :=
  if is_pointer sv then mret (INT2PTR (SvIV_rv sv)) else not_a_pointer what.

Definition lhs_address (what : string) (sv : SV) : M Z :=
  if is_pointer sv then mret (INT2PTR (SvIV_rv sv))
  else if SvIOK sv then mret (INT2PTR (SvIV sv))
  else not_a_pointer what.

Definition src_address (sv : SV) : M source :=
  if is_pointer sv then mret (Memory (INT2PTR (SvIV_rv sv)))
  else if SvIOK sv then mret (Memory (INT2PTR (SvIV sv)))
  else if SvPOK sv then mret (Buffer (SvPV sv))
  else not_a_pointer "dest".

Definition unmanaged (p : Z) : SV := sv_setref_pv "Affix::Pointer::Unmanaged" p.

(** [(char)*SvPV_nolen(sv)] *)
Definition first_char (sv : SV) : Z := wrapS 8 (hd 0 (SvPV sv)).

Definition with_sizeof (n : Z) (t : axt) : axt :=
  Axt (t_isa_type t) (t_isa_pointer t) (t_isa_char t) (t_numeric t) n (t_alignment t) (t_offset t)
      (t_subtype t) (t_arraylen t) (t_aggregate t) (t_slot12 t) (t_sig t).

Definition _Void (ptr size : Z) : SV := ptr2obj (with_sizeof (wrapS 64 size) Void_Pointer) ptr.

Definition Affix_malloc (args : list SV) : M xs :=
  match args with
  | [size] =>
    let size := size_t (SvUV size) in
    p ← safemalloc size;
    XSRETURN [_Void p size]
  | _ => usage "size"
  end.

Definition Affix_calloc (args : list SV) : M xs :=
  match args with
  | [num; size] => p ← safecalloc (size_t (SvUV num)) (size_t (SvUV size)); XSRETURN [unmanaged p]
  | _ => usage "num, size"
  end.

(** The variable of the argument gets an object of another class: the name has
    one colon too few. *)
Definition Affix_realloc (args : list SV) : M xs :=
  match args with
  | [ptr; size] =>
    p ← scalar_address "ptr" ptr;
    p ← saferealloc p (size_t (SvUV size));
    mret {| xs_return := [unmanaged p]; xs_arg0 := Some (sv_setref_pv "Affix::Pointer:Unmanaged" p) |}
  | _ => usage "ptr, size"
  end.

Definition Affix_free (args : list SV) : M xs :=
  match args with
  | [ptr] =>
    slot ← address_slot ptr;
    _ ← match slot with Some p => safefree p | None => mret tt end;
    mret {| xs_return := [newSV]; xs_arg0 := Some newSV |}
  | _ => usage "ptr"
  end.

Definition Affix_memchr (args : list SV) : M xs :=
  match args with
  | [ptr; ch; count] =>
    p ← scalar_address "ptr" ptr;
    r ← lift (memchr p (first_char ch) (size_t (SvUV count)));
    XSRETURN [unmanaged r]
  | _ => usage "ptr, ch, count"
  end.

Definition Affix_memcmp (args : list SV) : M xs :=
  match args with
  | [lhs; rhs; count] =>
    l ← lhs_address "ptr" lhs;
    r ← src_address rhs;
    i ← lift (memcmp l r (size_t (SvUV count)));
    XSRETURN [newSViv i]
  | _ => usage "lhs, rhs, count"
  end.

Definition Affix_memset (args : list SV) : M xs :=
  match args with
  | [dest; ch; count] =>
    d ← scalar_address "dest" dest;
    r ← lift (memset d (first_char ch) (size_t (SvUV count)));
    XSRETURN [unmanaged r]
  | _ => usage "dest, ch, count"
  end.

Definition Affix_memcpy (args : list SV) : M xs :=
  match args with
  | [dest; src; nitems] =>
    d ← lhs_address "dest" dest;
    s ← src_address src;
    r ← lift (memcpy d s (size_t (SvUV nitems)));
    XSRETURN [unmanaged r]
  | _ => usage "dest, src, nitems"
  end.

Definition Affix_memmove (args : list SV) : M xs :=
  match args with
  | [dest; src; nitems] =>
    d ← lhs_address "dest" dest;
    s ← src_address src;
    r ← lift (memmove d s (size_t (SvUV nitems)));
    XSRETURN [unmanaged r]
  | _ => usage "dest, src, nitems"
  end.

(** [strdup] copies up to the first NUL; its block is one of C's [malloc]. *)
Definition Affix_strdup (args : list SV) : M xs :=
  match args with
  | [str1] =>
    let s := c_string (SvPV str1) ++ [0] in
    p ← try_malloc (Z.of_nat (length s));
    _ ← (if p =? 0 then mret tt else lift (Store p s));
    XSRETURN [unmanaged p]
  | _ => usage "str1"
  end.

Definition Affix_Pointer_raw (args : list SV) : M xs :=
  let raw ptr size utf8 :=
    slot ← address_slot ptr;
    match slot with
    | Some p => bs ← lift (Load p (Z.to_nat (size_t (SvUV size)))); XSRETURN [newSVpvn bs utf8]
    | None => XSRETURN [newSV]
    end in
  match args with
  | [ptr; size] => raw ptr size false
  | [ptr; size; utf8] => raw ptr size (SvTRUE utf8)
  | _ => usage "ptr, size[, utf8]"
  end.

Definition Affix_Pointer_sv (args : list SV) : M xs :=
  match args with
  | [ptr] =>
    slot ← address_slot ptr;
    match slot with
    | Some p =>
      let tmp := p + t_sizeof (pointer_subtype ptr) * pointer_position ptr in
      sv ← lift (ptr2sv wchar_size float_to_double (pointer_subtype ptr) (INT2PTR tmp));
      XSRETURN [sv]
    | None => XSRETURN [newSV]
    end
  | _ => usage "ptr"
  end.

(** [_DumpHex]: what it prints is not modelled. *)
Definition Affix_Pointer_DumpHex (args : list SV) : M xs :=
  match args with
  | [ptr; size] =>
    slot ← address_slot ptr;
    match slot with
    | Some p =>
      let len := size_t (SvUV size) in
      if len =? 0 then croakM "ZERO LENGTH"
      else _ ← lift (Load p (Z.to_nat len)); XSRETURN []
    | None => XSRETURN []
    end
  | _ => usage "ptr, size"
  end.

(** The [safefree] of the destructor is commented out. *)
Definition Affix_Pointer_DESTROY (args : list SV) : M xs :=
  match args with
  | [ptr] => if is_pointer ptr then XSRETURN [] else not_a_pointer "ptr"
  | _ => usage "ptr"
  end.

(** Takes the pointer for the type. *)
Definition Affix_cast (args : list SV) : M xs :=
  match args with
  | [ptr; type] =>
    if sv_derived_from ptr "Affix::Type" then
      t ← lift (or_fault (type_of ptr));
      p ← lift (sv2ptr wchar_size double_to_float t ptr 0);
      _ ← (if p =? 0 then mret [] else lift (Load p 16));
      XSRETURN [new_pointer_array (if p =? 0 then None else Some p) type]
    else croakM "type is not of type Affix::Type::Pointer"
  | _ => usage "pointer, type"
  end.

(** [Affix::sv2ptr] and [Affix::ptr2sv] run outside of the block table; the
    second takes an array for a reference to one, which is undefined. *)
Definition Affix_sv2ptr (args : list SV) : C (list SV) :=
  match args with
  | [type; data] =>
    if sv_derived_from type "Affix::Type::Pointer" then
      t ← or_fault (type_of type);
      p ← sv2ptr wchar_size double_to_float t data 0;
      mret [ptr2obj t p]
    else croak "type is not of type Affix::Type::Pointer"
  | _ => croak "Usage: type, data"
  end.

Definition Affix_ptr2sv (args : list SV) : C (list SV) :=
  match args with
  | [type; ptr] =>
    if sv_derived_from type "Affix::Type" then
      match pointer_of ptr with
      | Some _ => fault
      | None => croak "ptr is not of type Affix::Pointer"
      end
    else croak "type is not of type Affix::Type"
  | _ => croak "Usage: type, ptr"
  end.
End Pointer.
