(* ===== verification/PointerProps.v ===== *)
(** * Pointer objects: blocks, copies and the two kinds of objects *)

From S2P Require Export Pointer MarshalProofs.
#[local] Open Scope Z_scope.

(** ** Outcomes *)

(** [Q] holds of the result, if there is one. *)
Definition post {A} (m : M A) (bl : blocks) (h : heap) (Q : A -> blocks -> heap -> Prop) : Prop :=
  match m bl h with Ret r h' => Q r.1 r.2 h' | _ => True end.

Lemma post_ret {A} (x : A) bl h (Q : A -> blocks -> heap -> Prop) : Q x bl h -> post (mret x) bl h Q.
Proof. done. Qed.

Lemma post_bind {A B} (m : M A) (f : A -> M B) bl h Q :
  post m bl h (fun x bl' h' => post (f x) bl' h' Q) -> post (x ← m; f x) bl h Q.
Proof. unfold post, mbind, M_bind, mbind, C_bind. by destruct (m bl h). Qed.

Lemma post_mono {A} (m : M A) bl h (Q Q' : A -> blocks -> heap -> Prop) :
  post m bl h Q -> (forall x bl' h', Q x bl' h' -> Q' x bl' h') -> post m bl h Q'.
Proof. unfold post. destruct (m bl h); auto. Qed.

Lemma post_lift {A} (m : C A) bl h Q :
  (forall x h', m h = Ret x h' -> Q x bl h') -> post (lift m) bl h Q.
Proof. unfold post, lift, mbind, C_bind. destruct (m h); cbn; auto. Qed.

Lemma post_croak {A} msg bl h (Q : A -> blocks -> heap -> Prop) : post (croakM msg) bl h Q.
Proof. done. Qed.

(** ** Memory *)

Lemma lookup_map_bytes bs : forall p h a,
  map_bytes p bs h !! a =
  if (p <=? a) && (a <? p + Z.of_nat (length bs)) then bs !! Z.to_nat (a - p) else h !! a.
Proof.
  induction bs as [|b bs IH]; intros p h a; cbn [map_bytes length].
  - destruct (Z.leb_spec p a), (Z.ltb_spec a (p + Z.of_nat 0)); cbn [andb]; try done. lia.
  - destruct (Z.eq_dec a p) as [->|Hne].
    + rewrite lookup_insert_eq, Z.sub_diag. destruct (Z.leb_spec p p), (Z.ltb_spec p (p + Z.of_nat (S (length bs)))); cbn; try done; lia.
    + rewrite lookup_insert_ne by done. rewrite IH.
      destruct (Z.leb_spec (p + 1) a), (Z.leb_spec p a), (Z.ltb_spec a (p + 1 + Z.of_nat (length bs))),
        (Z.ltb_spec a (p + Z.of_nat (S (length bs)))); cbn [andb]; try done; try lia.
      by replace (Z.to_nat (a - p)) with (S (Z.to_nat (a - (p + 1)))) by lia.
Qed.

Lemma lookup_unmap n : forall p h a,
  unmap p n h !! a = if (p <=? a) && (a <? p + Z.of_nat n) then None else h !! a.
Proof.
  induction n as [|n IH]; intros p h a; cbn [unmap].
  - destruct (Z.leb_spec p a), (Z.ltb_spec a (p + Z.of_nat 0)); cbn [andb]; try done. lia.
  - destruct (Z.eq_dec a p) as [->|Hne].
    + rewrite lookup_delete_eq. destruct (Z.leb_spec p p), (Z.ltb_spec p (p + Z.of_nat (S n))); cbn; try done; lia.
    + rewrite lookup_delete_ne by done. rewrite IH.
      destruct (Z.leb_spec (p + 1) a), (Z.leb_spec p a), (Z.ltb_spec a (p + 1 + Z.of_nat n)),
        (Z.ltb_spec a (p + Z.of_nat (S n))); cbn [andb]; try done; lia.
Qed.

(** Every block of the table is allocated, and no two share a byte. *)
Record blocks_ok (bl : blocks) (h : heap) : Prop := {
  bo_cells : forall p n, bl !! p = Some n -> 0 < n /\ block p n h;
  bo_disjoint : forall p n q m a, bl !! p = Some n -> bl !! q = Some m -> within p n a -> within q m a -> p = q;
}.

(** What a call that releases at most the block [r] may do to the blocks. *)
Definition kept (r : option Z) (bl : blocks) (bl' : blocks) (h' : heap) : Prop :=
  blocks_ok bl' h' /\ forall p n, bl !! p = Some n -> r <> Some p -> bl' !! p = Some n.

Lemma blocks_ok_touches W bl h h' : blocks_ok bl h -> touches W h h' -> blocks_ok bl h'.
Proof.
  intros [Hc Hd] Ht. split; [|done]. intros p n Hp. destruct (Hc p n Hp) as [Hn Hb]. split; [done|].
  by eapply touches_block.
Qed.

Lemma kept_touches W r bl h h' : blocks_ok bl h -> touches W h h' -> kept r bl bl h'.
Proof. intros Hb Ht. split; [by eapply blocks_ok_touches|done]. Qed.

Lemma kept_trans r bl bl1 h1 bl2 h2 : kept r bl bl1 h1 -> kept r bl1 bl2 h2 -> kept r bl bl2 h2.
Proof. intros [_ H1] [Hb H2]. split; [done|]. intros p n Hp Hr. auto. Qed.

Section Pointer.
Context {SV : Type} {P : Perl SV} {DM : DataModel} {AL : Allocator} {SRV : Services SV} {PO : PointerObjects SV}.
Variable uninit : Z -> Z.

(** ** The allocator *)

Lemma post_try_malloc n bl h :
  blocks_ok bl h ->
  post (try_malloc uninit n) bl h (fun p bl' h' =>
    p = 0 /\ bl' = bl /\ h' = h \/
    0 < p < 2 ^ dm_size_bits /\ bl !! p = None /\ bl' = <[p := Z.max 1 n]> bl /\ blocks_ok bl' h' /\
      touches (fun _ => False) h h' /\ block p (Z.max 1 n) h').
Proof.
  intros [Hc Hd]. unfold post, try_malloc. destruct (malloc h (Z.max 1 n)) as [p|] eqn:E; [|by left].
  apply malloc_law in E as (Hp & Hmax & Hfresh). cbn [fst snd]. right. set (k := Z.max 1 n) in *.
  set (h' := map_bytes p (map uninit (seqZ p k)) h).
  assert (Hl : forall a, h' !! a = if (p <=? a) && (a <? p + k) then map uninit (seqZ p k) !! Z.to_nat (a - p) else h !! a).
  { intros a. unfold h'. rewrite lookup_map_bytes, length_map, length_seqZ, Z2Nat.id by lia. done. }
  assert (Hnew : block p k h').
  { intros a Ha. rewrite Hl, (proj2 (Z.leb_le p a)), (proj2 (Z.ltb_lt a (p + k))) by lia. cbn [andb].
    apply lookup_lt_is_Some. rewrite length_map, length_seqZ. lia. }
  assert (Ht : touches (fun _ => False) h h').
  { intros a Ha. rewrite Hl. destruct (Z.leb_spec p a), (Z.ltb_spec a (p + k)); cbn [andb]; try done.
    rewrite Hfresh in Ha by lia. by destruct Ha. }
  assert (Hdisj : forall q m a, bl !! q = Some m -> within q m a -> within p k a -> False).
  { intros q m a Hq Ha Hpa. destruct (Hc q m Hq) as [_ Hb]. destruct (Hb a Ha) as [x Hx]. by rewrite Hfresh in Hx. }
  assert (Hnone : bl !! p = None).
  { destruct (bl !! p) as [m|] eqn:Hq; [|done]. destruct (Hc p m Hq) as [Hm _].
    exfalso. apply (Hdisj p m p Hq); unfold within; lia. }
  split_and!; try done; [lia..|]. split.
  - intros q m. destruct (decide (p = q)) as [->|Hne].
    + rewrite lookup_insert_eq. intros [= <-]. split; [lia|done].
    + rewrite lookup_insert_ne by done. intros Hq. destruct (Hc q m Hq). split; [done|]. by eapply touches_block.
  - intros q m q' m' a. destruct (decide (p = q)) as [->|Hne], (decide (q = q')) as [->|Hne']; try done.
    + rewrite lookup_insert_eq, lookup_insert_ne by done. intros [= <-] Hq' Ha Ha'. by destruct (Hdisj q' m' a).
    + destruct (decide (p = q')) as [->|Hne2].
      * rewrite lookup_insert_eq, lookup_insert_ne by done. intros Hq [= <-] Ha Ha'. by destruct (Hdisj q m a).
      * rewrite !lookup_insert_ne by done. apply Hd.
Qed.

Lemma kept_insert r (bl : blocks) p n h : bl !! p = None -> blocks_ok (<[p := n]> bl) h -> kept r bl (<[p := n]> bl) h.
Proof. intros Hn Hb. split; [done|]. intros q m Hq _. rewrite lookup_insert_ne; [done|]. intros ->. congruence. Qed.

Lemma post_safemalloc n bl h :
  blocks_ok bl h ->
  post (safemalloc uninit n) bl h (fun p bl' h' =>
    0 < p < 2 ^ dm_size_bits /\ bl !! p = None /\ bl' = <[p := Z.max 1 n]> bl /\ blocks_ok bl' h' /\
      touches (fun _ => False) h h' /\ block p (Z.max 1 n) h').
Proof.
  intros Hb. unfold safemalloc. apply post_bind. eapply post_mono; [by apply post_try_malloc|].
  intros p bl' h' [(-> & -> & ->)|Hp]; [done|]. by rewrite (proj2 (Z.eqb_neq _ _)) by lia.
Qed.

Lemma post_safefree p bl h :
  blocks_ok bl h ->
  post (safefree p) bl h (fun _ bl' h' =>
    kept (Some p) bl bl' h' /\ (p <> 0 -> exists n, bl !! p = Some n /\ bl' = delete p bl /\ h' = unmap p (Z.to_nat n) h)).
Proof.
  intros [Hc Hd]. unfold post, safefree. destruct (Z.eqb_spec p 0) as [->|Hne]; [cbn; split; [by split|done]|].
  destruct (bl !! p) as [n|] eqn:E; [|done]. cbn [fst snd]. split; [|eauto]. split.
  - split.
    + intros q m. destruct (decide (p = q)) as [->|Hpq]; [by rewrite lookup_delete_eq|].
      rewrite lookup_delete_ne by done. intros Hq. destruct (Hc q m Hq) as [Hm Hb]. split; [done|]. intros a Ha.
      rewrite lookup_unmap. destruct (Z.leb_spec p a), (Z.ltb_spec a (p + Z.of_nat (Z.to_nat n))); cbn [andb]; try by apply Hb.
      destruct (Hpq (Hd p n q m a E Hq ltac:(unfold within; lia) Ha)).
    + intros q m q' m' a [Hq Hq1]%lookup_delete_Some [Hq2 Hq3]%lookup_delete_Some. by apply Hd.
  - intros q m Hq Hr. rewrite lookup_delete_ne; [done|]. intros ->. by apply Hr.
Qed.

Lemma store_touches bs p h h' :
  store p bs h = Some h' ->
  touches (within p (Z.of_nat (length bs))) h h' /\ load p (length bs) h' = Some bs /\ block p (Z.of_nat (length bs)) h.
Proof.
  intros Hs. assert (Hb : block p (Z.of_nat (length bs)) h).
  { intros a Ha. destruct (h !! a) eqn:E; [done|]. rewrite (store_fault bs p h a) in Hs; done. }
  destruct (store_spec bs p h Hb) as (h1 & Hs1 & Hl & Ho & Hd). rewrite Hs in Hs1. injection Hs1 as <-.
  split_and!; try done. intros a Ha. split; [by apply Hd|]. apply Ho.
Qed.

Lemma Ret_Load p n h bs h' : Load p n h = Ret bs h' -> h' = h /\ load p n h = Some bs.
Proof. unfold Load. destruct (load p n h); [|done]. by intros [= -> ->]. Qed.

Lemma Ret_Store p bs h x h' : Store p bs h = Ret x h' -> store p bs h = Some h'.
Proof. unfold Store. destruct (store p bs h); [|done]. by intros [= _ ->]. Qed.

Lemma post_saferealloc p n bl h :
  blocks_ok bl h -> post (saferealloc uninit p n) bl h (fun _ bl' h' => kept (Some p) bl bl' h').
Proof.
  intros Hb. unfold saferealloc. destruct (n =? 0).
  { apply post_bind. eapply post_mono; [by apply post_safefree|]. intros _ bl' h' [Hk _]. exact Hk. }
  destruct (p =? 0).
  { eapply post_mono; [by apply post_safemalloc|]. intros q bl' h' (_ & Hq & -> & Hok & _). by apply kept_insert. }
  apply post_bind, post_lift. intros k h1 Hk. assert (h1 = h) as ->.
  { unfold or_fault in Hk. destruct (bl !! p); [|done]. by injection Hk. }
  apply post_bind, post_lift. intros old h1 [-> Hold]%Ret_Load.
  apply post_bind. eapply post_mono; [by apply post_safefree|]. intros _ bl1 h1 [Hk1 _].
  apply post_bind. eapply post_mono; [by apply post_safemalloc, Hk1|]. intros q bl2 h2 (_ & Hq & -> & Hok & _).
  apply post_bind, post_lift. intros _ h3 [Ht _]%Ret_Store%store_touches. apply post_ret.
  eapply kept_trans; [exact Hk1|]. apply kept_insert; [done|]. by eapply blocks_ok_touches.
Qed.

(** ** The functions keep the blocks *)

(** Frees nothing, and knows nothing of the table. *)
Definition quiet {A} (m : C A) : Prop := forall h x h', m h = Ret x h' -> touches (fun _ => True) h h'.

Lemma quiet_ret {A} (x : A) : quiet (mret x).
Proof. intros h y h' [= _ <-]. apply touches_refl. Qed.

Lemma quiet_bind {A B} (m : C A) (f : A -> C B) : quiet m -> (forall x, quiet (f x)) -> quiet (x ← m; f x).
Proof.
  intros Hm Hf h y h'. unfold mbind, C_bind. destruct (m h) as [x h1| | |] eqn:E; try done. intros H.
  eapply touches_trans; [by eapply Hm|by eapply Hf].
Qed.

Lemma quiet_Load p n : quiet (Load p n).
Proof. intros h x h' [-> _]%Ret_Load. apply touches_refl. Qed.

Lemma quiet_Store p bs : quiet (Store p bs).
Proof. intros h x h' [Ht _]%Ret_Store%store_touches. eapply touches_mono; [|exact Ht]. done. Qed.

Lemma quiet_memchr p c n : quiet (memchr p c n).
Proof.
  unfold memchr. intros h x h'. generalize (Z.to_nat n) as k. intros k. revert p. induction k as [|k IH]; intros p; cbn.
  - intros [= _ <-]. apply touches_refl.
  - destruct (h !! p); [|done]. destruct (_ =? _); [intros [= _ <-]; apply touches_refl|apply IH].
Qed.

Lemma quiet_source s n : quiet (read_source s n).
Proof. destruct s; [apply quiet_Load|]. cbn. destruct (_ <=? _); [apply quiet_ret|]. by intros h x h'. Qed.

Create HintDb quiet.
#[local] Hint Resolve quiet_ret quiet_bind quiet_Load quiet_Store quiet_memchr quiet_source : quiet.

Lemma quiet_memcmp l r n : quiet (memcmp l r n).
Proof. unfold memcmp. eauto with quiet. Qed.

Lemma quiet_memset d c n : quiet (memset d c n).
Proof. unfold memset. eauto with quiet. Qed.

Lemma quiet_memmove d s n : quiet (memmove d s n).
Proof. unfold memmove. eauto with quiet. Qed.

Lemma quiet_memcpy d s n : quiet (memcpy d s n).
Proof. unfold memcpy. destruct (overlap d s n); [by intros h x h'|apply quiet_memmove]. Qed.

Lemma post_quiet {A B} (m : C A) (f : A -> M B) r bl h :
  blocks_ok bl h -> quiet m ->
  (forall x h', blocks_ok bl h' -> post (f x) bl h' (fun _ bl' h'' => kept r bl bl' h'')) ->
  post (x ← lift m; f x) bl h (fun _ bl' h' => kept r bl bl' h').
Proof.
  intros Hb Hq Hf. apply post_bind, post_lift. intros x h' Hm. apply Hf. eapply blocks_ok_touches; [done|by eapply Hq].
Qed.

(** The functions of [boot_Affix_Pointer] that handle memory. *)
Inductive memory_function :=
  | F_malloc | F_calloc | F_realloc | F_free | F_memchr | F_memcmp | F_memset | F_memcpy | F_memmove | F_strdup
  | F_raw | F_dump | F_DESTROY.

Definition call (f : memory_function) : list SV -> M (xs (SV := SV)) :=
  match f with
  | F_malloc => Affix_malloc uninit | F_calloc => Affix_calloc uninit | F_realloc => Affix_realloc uninit
  | F_free => Affix_free | F_memchr => Affix_memchr | F_memcmp => Affix_memcmp | F_memset => Affix_memset
  | F_memcpy => Affix_memcpy | F_memmove => Affix_memmove | F_strdup => Affix_strdup uninit
  | F_raw => Affix_Pointer_raw | F_dump => Affix_Pointer_DumpHex | F_DESTROY => Affix_Pointer_DESTROY
  end.

(** The block a call may release. *)
Definition releases (f : memory_function) (args : list SV) : option Z :=
  match f, args with
  | F_free, [ptr] => match pointer_of ptr with Some slot => slot | None => None end
  | F_realloc, [ptr; _] => Some (INT2PTR (SvIV_rv ptr))
  | _, _ => None
  end.

Lemma post_scalar_address what sv bl h Q :
  Q (INT2PTR (SvIV_rv sv)) bl h -> post (scalar_address what sv) bl h Q.
Proof. unfold scalar_address. by destruct (is_pointer sv). Qed.

Lemma post_any_address {A} (m : M A) r bl h (B : Type) (f : A -> M B) :
  (forall x bl' h', m bl h = Ret (x, bl') h' -> bl' = bl /\ h' = h) -> (forall x, post (f x) bl h (fun _ bl' h' => kept r bl bl' h')) ->
  post (x ← m; f x) bl h (fun _ bl' h' => kept r bl bl' h').
Proof.
  intros Hm Hf. apply post_bind. unfold post. destruct (m bl h) as [[x bl'] h'| | |] eqn:E; try done.
  destruct (Hm _ _ _ eq_refl) as [-> ->]. apply Hf.
Qed.

Lemma lhs_address_pure what sv bl h x bl' h' : lhs_address what sv bl h = Ret (x, bl') h' -> bl' = bl /\ h' = h.
Proof. unfold lhs_address. destruct (is_pointer sv), (SvIOK sv); try done; by intros [= _ <- <-]. Qed.

Lemma src_address_pure sv bl h x bl' h' : src_address sv bl h = Ret (x, bl') h' -> bl' = bl /\ h' = h.
Proof. unfold src_address. destruct (is_pointer sv), (SvIOK sv), (SvPOK sv); try done; by intros [= _ <- <-]. Qed.

Lemma address_slot_pure sv bl h x bl' h' : address_slot sv bl h = Ret (x, bl') h' -> bl' = bl /\ h' = h.
Proof. unfold address_slot. destruct (pointer_of sv); [by intros [= _ <- <-]|done]. Qed.

Lemma scalar_address_pure what sv bl h x bl' h' : scalar_address what sv bl h = Ret (x, bl') h' -> bl' = bl /\ h' = h.
Proof. unfold scalar_address. destruct (is_pointer sv); [by intros [= _ <- <-]|done]. Qed.

(** A call with too few or too many arguments throws. *)
Ltac arguments args := destruct args as [|? [|? [|? [|? args]]]]; try apply post_croak.

Lemma call_kept f args bl h :
  blocks_ok bl h -> post (call f args) bl h (fun _ bl' h' => kept (releases f args) bl bl' h').
Proof.
  intros Hb. assert (Hret : forall r (x : xs (SV := SV)) h', blocks_ok bl h' -> post (mret x) bl h' (fun _ bl' h' => kept r bl bl' h'))
    by (intros; by split).
  destruct f; cbn [call]; [unfold Affix_malloc|unfold Affix_calloc|unfold Affix_realloc|unfold Affix_free|
    unfold Affix_memchr|unfold Affix_memcmp|unfold Affix_memset|unfold Affix_memcpy|unfold Affix_memmove|unfold Affix_strdup|
    unfold Affix_Pointer_raw|unfold Affix_Pointer_DumpHex|unfold Affix_Pointer_DESTROY]; arguments args.
  - apply post_bind. eapply post_mono; [by apply post_safemalloc|]. intros p bl' h' (_ & Hp & -> & Hok & _).
    apply post_ret. by apply kept_insert.
  - apply post_bind. unfold safecalloc. destruct (_ <=? _); [apply post_croak|].
    apply post_bind. eapply post_mono; [by apply post_safemalloc|]. intros p bl' h' (_ & Hp & -> & Hok & _).
    apply post_bind, post_lift. intros _ h2 [Ht _]%Ret_Store%store_touches. do 2 apply post_ret.
    apply kept_insert; [done|]. by eapply blocks_ok_touches.
  - apply post_bind, post_scalar_address. apply post_bind. eapply post_mono; [by apply post_saferealloc|].
    intros p bl' h' Hk. by apply post_ret.
  - unfold address_slot. cbn [releases]. destruct (pointer_of s) as [slot|]; [|done]. apply post_bind, post_ret.
    apply post_bind. destruct slot as [p|]; [|by apply post_ret, Hret].
    eapply post_mono; [by apply post_safefree|]. intros _ bl' h' [Hk _]. by apply post_ret.
  - apply post_any_address; [apply scalar_address_pure|]. intros p. apply post_quiet; [done|apply quiet_memchr|]. intros; by apply Hret.
  - apply post_any_address; [apply lhs_address_pure|]. intros l. apply post_any_address; [apply src_address_pure|]. intros r.
    apply post_quiet; [done|apply quiet_memcmp|]. intros; by apply Hret.
  - apply post_any_address; [apply scalar_address_pure|]. intros p. apply post_quiet; [done|apply quiet_memset|]. intros; by apply Hret.
  - apply post_any_address; [apply lhs_address_pure|]. intros l. apply post_any_address; [apply src_address_pure|]. intros r.
    apply post_quiet; [done|apply quiet_memcpy|]. intros; by apply Hret.
  - apply post_any_address; [apply lhs_address_pure|]. intros l. apply post_any_address; [apply src_address_pure|]. intros r.
    apply post_quiet; [done|apply quiet_memmove|]. intros; by apply Hret.
  - apply post_bind. eapply post_mono; [by apply post_try_malloc|]. intros p bl' h' [(-> & -> & ->)|(Hp0 & Hp & -> & Hok & _)].
    { apply post_bind, post_ret. by apply Hret. }
    rewrite (proj2 (Z.eqb_neq _ _)) by lia. apply post_bind, post_lift. intros _ h2 [Ht _]%Ret_Store%store_touches.
    apply post_ret. apply kept_insert; [done|]. by eapply blocks_ok_touches.
  - apply post_any_address; [apply address_slot_pure|]. intros [p|]; [|by apply Hret].
    apply post_quiet; [done|apply quiet_Load|]. intros; by apply Hret.
  - apply post_any_address; [apply address_slot_pure|]. intros [p|]; [|by apply Hret].
    apply post_quiet; [done|apply quiet_Load|]. intros; by apply Hret.
  - apply post_any_address; [apply address_slot_pure|]. intros [p|]; [|by apply Hret].
    destruct (_ =? 0); [apply post_croak|]. apply post_quiet; [done|apply quiet_Load|]. intros; by apply Hret.
  - destruct (is_pointer s); [by apply Hret|apply post_croak].
Qed.

(** ** Programs *)

(** A call that throws leaves memory as it was. *)
Definition step (st : blocks * heap) (c : memory_function * list SV) : option (blocks * heap) :=
  match call c.1 c.2 st.1 st.2 with
  | Ret (_, bl) h => Some (bl, h)
  | Croak _ => Some st
  | NoMemory | Fault => None
  end.

Definition run_calls (st : blocks * heap) (l : list (memory_function * list SV)) : option (blocks * heap) := foldM step st l.

Definition spares (p : Z) (c : memory_function * list SV) : Prop := releases c.1 c.2 <> Some p.

Lemma step_kept c bl h bl' h' :
  blocks_ok bl h -> step (bl, h) c = Some (bl', h') -> kept (releases c.1 c.2) bl bl' h'.
Proof.
  intros Hb Hs. pose proof (call_kept c.1 c.2 bl h Hb) as Hk. unfold post in Hk. unfold step in Hs. cbn [fst snd] in Hs.
  destruct (call c.1 c.2 bl h) as [[x bl1] h1| | |]; try done; injection Hs as <- <-; [exact Hk|by split].
Qed.

Lemma run_calls_kept l : forall bl h bl' h',
  blocks_ok bl h -> run_calls (bl, h) l = Some (bl', h') ->
  blocks_ok bl' h' /\ forall p n, bl !! p = Some n -> Forall (spares p) l -> bl' !! p = Some n.
Proof.
  induction l as [|c l IH]; intros bl h bl' h' Hb Hr; [injection Hr as <- <-; by split|].
  apply bind_Some in Hr as ([bl1 h1] & Hs & Hr). destruct (step_kept c bl h bl1 h1 Hb Hs) as [Hb1 Hk].
  destruct (IH bl1 h1 bl' h' Hb1 Hr) as [Hb' Hk']. split; [done|].
  intros p n Hp [Hc Hl]%Forall_cons. apply Hk'; [by apply Hk|done].
Qed.

(** A program that calls the memory functions in any order, with any
    arguments, keeps the allocator's blocks in order: whatever it has done, every
    block of the table is allocated memory, no two blocks share a byte, and a block
    is still there, with its size, unless a call to [free] or [realloc] named it. *)
Theorem memory_calls_keep_blocks l bl h bl' h' :
  blocks_ok bl h -> run_calls (bl, h) l = Some (bl', h') ->
  blocks_ok bl' h' /\ forall p n, bl !! p = Some n -> Forall (spares p) l -> bl' !! p = Some n.
Proof. apply run_calls_kept. Qed.

Context {LAWS : PointerLaws SV} {OK : DataModelOk}.

Lemma Affix_malloc_Ret size bl h r bl1 h1 :
  blocks_ok bl h -> Affix_malloc uninit [size] bl h = Ret (r, bl1) h1 ->
  exists p, r = {| xs_return := [_Void p (size_t (SvUV size))]; xs_arg0 := None |} /\ p <> 0 /\
    bl !! p = None /\ bl1 = <[p := Z.max 1 (size_t (SvUV size))]> bl /\ blocks_ok bl1 h1 /\
    unmap p (Z.to_nat (Z.max 1 (size_t (SvUV size)))) h1 = h.
Proof.
  intros Hb Hm. set (n := size_t (SvUV size)) in *. pose proof (post_safemalloc n bl h Hb) as Hp.
  unfold Affix_malloc in Hm. fold n in Hm. unfold mbind at 1, M_bind at 1, mbind, C_bind in Hm. unfold post in Hp.
  destruct (safemalloc uninit n bl h) as [[p bl'] h'| | |] eqn:E; try done. injection Hm as <- <- <-. cbn [fst snd] in Hp.
  destruct Hp as (Hp0 & Hn & -> & Hok & _). exists p. split_and!; try done; [lia|].
  unfold safemalloc, mbind, M_bind, try_malloc, mbind, C_bind in E. cbn zeta in E.
  destruct (malloc h (Z.max 1 n)) as [q|] eqn:Em; [|done]. cbn [fst snd] in E.
  destruct (q =? 0) eqn:Eq; [done|]. injection E as -> _ <-. apply malloc_law in Em as (_ & _ & Hfresh).
  apply map_eq. intros a. rewrite lookup_unmap, lookup_map_bytes, length_map, length_seqZ, Z2Nat.id by lia.
  destruct (Z.leb_spec p a), (Z.ltb_spec a (p + Z.max 1 n)); cbn [andb]; try done. by rewrite Hfresh by lia.
Qed.

Lemma Affix_free_array t p bl h :
  Affix_free [ptr2obj t p] bl h =
  match safefree p bl h with
  | Ret (_, bl') h' => Ret ({| xs_return := [newSV]; xs_arg0 := Some newSV |}, bl') h'
  | Croak msg => Croak msg | NoMemory => NoMemory | Fault => Fault
  end.
Proof.
  unfold Affix_free, address_slot, ptr2obj. rewrite array_pointer_of. unfold safefree.
  destruct (p =? 0) eqn:E; [done|]. unfold mbind, M_bind, mbind, C_bind, mret, M_ret, mret, C_ret.
  cbn -[Z.eqb]. rewrite E. by destruct (bl !! p).
Qed.

(** C31: what [malloc] gave can be freed at any time.  Whatever the program has
    done since, without freeing or reallocating the block, [free] takes the object
    [malloc] returned, releases exactly the block, and the variable becomes
    undefined; at once it takes memory back to where it was. *)
Theorem malloc_free_live size bl h r bl1 h1 :
  blocks_ok bl h -> Affix_malloc uninit [size] bl h = Ret (r, bl1) h1 ->
  exists ptr p, xs_return r = [ptr] /\ bl !! p = None /\
    (forall l bl2 h2, run_calls (bl1, h1) l = Some (bl2, h2) -> Forall (spares p) l ->
       Affix_free [ptr] bl2 h2 =
       Ret ({| xs_return := [newSV]; xs_arg0 := Some newSV |}, delete p bl2)
           (unmap p (Z.to_nat (Z.max 1 (size_t (SvUV size)))) h2)) /\
    Affix_free [ptr] bl1 h1 = Ret ({| xs_return := [newSV]; xs_arg0 := Some newSV |}, bl) h.
Proof.
  intros Hb Hm. destruct (Affix_malloc_Ret size bl h r bl1 h1 Hb Hm) as (p & -> & Hp & Hn & -> & Hok & Hun).
  assert (Hfree : forall l bl2 h2, run_calls (<[p := Z.max 1 (size_t (SvUV size))]> bl, h1) l = Some (bl2, h2) -> Forall (spares p) l ->
       Affix_free [_Void p (size_t (SvUV size))] bl2 h2 =
       Ret ({| xs_return := [newSV]; xs_arg0 := Some newSV |}, delete p bl2)
           (unmap p (Z.to_nat (Z.max 1 (size_t (SvUV size)))) h2)).
  { intros l bl2 h2 Hr Hl. assert (Hp2 : bl2 !! p = Some (Z.max 1 (size_t (SvUV size)))).
    { destruct (run_calls_kept l _ h1 bl2 h2 Hok Hr) as [_ Hk]. apply Hk; [by rewrite lookup_insert_eq|done]. }
    unfold _Void. rewrite Affix_free_array. unfold safefree. by rewrite (proj2 (Z.eqb_neq _ _)), Hp2 by done. }
  exists (_Void p (size_t (SvUV size))), p. split_and!; try done.
  rewrite (Hfree [] _ h1) by done. by rewrite delete_insert_id, Hun by done.
Qed.

(** ** Copying and comparing *)

Lemma load_of_block p n h : 0 <= n -> block p n h -> exists bs, load p (Z.to_nat n) h = Some bs.
Proof.
  intros Hn Hb. rewrite <- (Z2Nat.id n Hn) in Hb. revert p Hb. generalize (Z.to_nat n) as k. clear.
  induction k as [|k IH]; intros p Hb; [by exists []|]. cbn [load].
  destruct (Hb p ltac:(lia)) as [x ->]. cbn [mbind option_bind]. destruct (IH (p + 1)) as [bs ->]; [|by eexists].
  intros a Ha. apply Hb. lia.
Qed.

Lemma cmp_bytes_refl bs : cmp_bytes bs bs = 0.
Proof. induction bs as [|b bs IH]; [done|]. cbn. by rewrite Z.eqb_refl. Qed.

Lemma lhs_address_pointer what sv bl h : is_pointer sv = true -> lhs_address what sv bl h = Ret (INT2PTR (SvIV_rv sv), bl) h.
Proof. intros H. unfold lhs_address. by rewrite H. Qed.

Lemma src_address_pointer sv bl h : is_pointer sv = true -> src_address sv bl h = Ret (Memory (INT2PTR (SvIV_rv sv)), bl) h.
Proof. intros H. unfold src_address. by rewrite H. Qed.

Lemma memmove_Ret d s n bs h :
  0 <= n -> block d n h -> load s (Z.to_nat n) h = Some bs ->
  exists h', memmove d (Memory s) n h = Ret d h' /\ load d (Z.to_nat n) h' = Some bs /\ touches (within d n) h h'.
Proof.
  intros Hn Hd Hs. pose proof (load_length _ _ _ _ Hs) as Hl.
  destruct (store_spec bs d h) as (h' & Hst & Hld & Ho & Hdom); [by rewrite Hl, Z2Nat.id|]. rewrite Hl in *. rewrite Z2Nat.id in Ho by done.
  exists h'. split_and!; [|done|].
  - unfold memmove, read_source, Load, Store, mbind, C_bind. by rewrite Hs, Hst.
  - intros a Ha. split; [by apply Hdom|]. apply Ho.
Qed.

(** Copying through pointer objects does what it says.  [memmove] between two
    blocks, overlapping or not, leaves at the destination the bytes that were at
    the source, changes nothing else and returns the destination; [memcpy] does
    the same when the regions do not overlap, and [memcmp] then finds them equal. *)
Theorem memmove_copies dest src nitems bl h :
  let d := INT2PTR (SvIV_rv dest) in
  let s := INT2PTR (SvIV_rv src) in
  let n := size_t (SvUV nitems) in
  is_pointer dest = true -> is_pointer src = true -> 0 <= n -> block d n h -> block s n h ->
  exists h', Affix_memmove [dest; src; nitems] bl h = Ret ({| xs_return := [unmanaged d]; xs_arg0 := None |}, bl) h' /\
    load d (Z.to_nat n) h' = load s (Z.to_nat n) h /\ touches (within d n) h h' /\
    (d + n <= s \/ s + n <= d ->
     Affix_memcpy [dest; src; nitems] bl h = Affix_memmove [dest; src; nitems] bl h /\
     Affix_memcmp [dest; src; nitems] bl h' = Ret ({| xs_return := [newSViv 0]; xs_arg0 := None |}, bl) h').
Proof.
  intros d s n Hpd Hps Hn Hbd Hbs. destruct (load_of_block s n h Hn Hbs) as [bs Hs].
  destruct (memmove_Ret d s n bs h Hn Hbd Hs) as (h' & Hm & Hl & Ht). exists h'.
  assert (Hmv : Affix_memmove [dest; src; nitems] bl h = Ret ({| xs_return := [unmanaged d]; xs_arg0 := None |}, bl) h').
  { unfold Affix_memmove, mbind, M_bind, mbind, C_bind. rewrite lhs_address_pointer by done. cbn [fst snd].
    rewrite src_address_pointer by done. cbn [fst snd]. unfold lift, mbind, C_bind. fold d s n. by rewrite Hm. }
  split_and!; [done|by rewrite Hs|done|]. intros Hdisj. split.
  - unfold Affix_memcpy, Affix_memmove, mbind, M_bind, mbind, C_bind. rewrite lhs_address_pointer by done. cbn [fst snd].
    rewrite src_address_pointer by done. cbn [fst snd]. unfold lift, mbind, C_bind, memcpy, overlap. fold d s n.
    destruct (Z.ltb_spec s (d + n)), (Z.ltb_spec d (s + n)); cbn [andb]; try done. lia.
  - assert (Hs' : load s (Z.to_nat n) h' = Some bs).
    { rewrite <- Hs. apply load_agree. intros a Ha. rewrite Z2Nat.id in Ha by done. apply (Ht a (Hbs a Ha)). unfold within. lia. }
    unfold Affix_memcmp, mbind, M_bind, mbind, C_bind. rewrite lhs_address_pointer by done. cbn [fst snd].
    rewrite src_address_pointer by done. cbn [fst snd]. unfold lift, memcmp, read_source, Load, mbind, C_bind. fold d s n.
    by rewrite Hl, Hs', cmp_bytes_refl.
Qed.

(** ** The two kinds of objects *)

(** Blocks behind objects that refer to a scalar: the functions for arrays throw. *)
Lemma scalar_object_rejected c p bl h :
  Affix_free [sv_setref_pv c p] bl h = Croak "ptr is not of type Affix::Pointer".
Proof. unfold Affix_free, address_slot. by rewrite setref_no_array. Qed.

(** C32: memory from [calloc] and [strdup] cannot be freed: the block is in the table,
    but [free] throws on the object they return, whatever has happened in between. *)
Theorem calloc_block_cannot_be_freed f args bl h r bl1 h1 :
  blocks_ok bl h -> f = F_calloc \/ f = F_strdup -> call f args bl h = Ret (r, bl1) h1 ->
  exists ptr, xs_return r = [ptr] /\
    (forall bl2 h2, Affix_free [ptr] bl2 h2 = Croak "ptr is not of type Affix::Pointer") /\
    (SvOK ptr = true -> exists p n, 0 < n /\ bl !! p = None /\ bl1 !! p = Some n /\ is_pointer ptr = true /\
       INT2PTR (SvIV_rv ptr) = p).
Proof.
  intros Hb Hf Hc.
  assert (Hshape : exists p, r = {| xs_return := [unmanaged p]; xs_arg0 := None |} /\
            (p <> 0 -> 0 < p < 2 ^ dm_size_bits /\ exists n, 0 < n /\ bl !! p = None /\ bl1 !! p = Some n)).
  { assert (Hp : post (call f args) bl h (fun r bl' _ => exists p, r = {| xs_return := [unmanaged p]; xs_arg0 := None |} /\
                    (p <> 0 -> 0 < p < 2 ^ dm_size_bits /\ exists n, 0 < n /\ bl !! p = None /\ bl' !! p = Some n))).
    { destruct Hf as [-> | ->]; cbn [call]; [unfold Affix_calloc|unfold Affix_strdup]; arguments args.
      - apply post_bind. unfold safecalloc. destruct (_ <=? _); [apply post_croak|].
        apply post_bind. eapply post_mono; [by apply post_safemalloc|]. intros p bl' h' (Hp0 & Hp & -> & _).
        apply post_bind, post_lift. intros _ h2 _. do 2 apply post_ret. exists p. split; [done|]. intros _. split; [done|].
        eexists. split; [|split; [done|apply lookup_insert_eq]]. lia.
      - apply post_bind. eapply post_mono; [by apply post_try_malloc|]. intros p bl' h' [(-> & -> & ->)|(Hp0 & Hp & -> & _)].
        { apply post_bind, post_ret. by exists 0. }
        rewrite (proj2 (Z.eqb_neq _ _)) by lia. apply post_bind, post_lift. intros _ h2 _. apply post_ret.
        exists p. split; [done|]. intros _. split; [done|]. eexists. split; [|split; [done|apply lookup_insert_eq]]. lia. }
    unfold post in Hp. by rewrite Hc in Hp. }
  destruct Hshape as (p & -> & Hp). exists (unmanaged p). split; [done|]. split; [intros; apply scalar_object_rejected|].
  intros Hok. assert (Hp0 : p <> 0) by (intros ->; unfold unmanaged in Hok; by rewrite setref_null in Hok).
  destruct (Hp Hp0) as (Hr & n & Hn & Hb0 & Hb1). exists p, n. split_and!; try done.
  - unfold is_pointer, unmanaged. by rewrite setref_isa.
  - assert (Hw : dm_size_bits <= 64 /\ 0 < dm_size_bits) by (destruct dm_size_ok; lia).
    assert (Hle : 2 ^ dm_size_bits <= 2 ^ 64) by (apply Z.pow_le_mono_r; lia).
    unfold unmanaged, INT2PTR. rewrite setref_rv, wrapU_wrapS by (unfold in_u in *; lia). apply wrapU_id. unfold in_u. lia.
Qed.

(** The functions whose first argument is a pointer. *)
Definition takes_pointer (f : memory_function) : bool :=
  match f with F_malloc | F_calloc | F_strdup => false | _ => true end.

(** What [realloc] leaves in the variable of its argument. *)
Lemma misnamed_rejected q f args bl h :
  q <> 0 -> takes_pointer f = true ->
  exists msg, call f (sv_setref_pv "Affix::Pointer:Unmanaged" q :: args) bl h = Croak msg.
Proof.
  intros Hq Hf. set (v := sv_setref_pv _ q). assert (Hp : is_pointer v = false) by (unfold is_pointer, v; by rewrite setref_isa).
  assert (Hn : pointer_of v = None) by apply setref_no_array. destruct (setref_no_number "Affix::Pointer:Unmanaged" q Hq) as [Hi _].
  fold v in Hi. clearbody v.
  destruct f; try discriminate; cbn [call]; [unfold Affix_realloc|unfold Affix_free|unfold Affix_memchr|unfold Affix_memcmp|
    unfold Affix_memset|unfold Affix_memcpy|unfold Affix_memmove|unfold Affix_Pointer_raw|unfold Affix_Pointer_DumpHex|
    unfold Affix_Pointer_DESTROY]; destruct args as [|? [|? [|? args]]]; try (by eexists);
    unfold scalar_address, address_slot, lhs_address; rewrite ?Hp, ?Hn, ?Hi; by eexists.
Qed.

Lemma Ret_bind {A B} (m : M A) (f : A -> M B) bl h r h' :
  (x ← m; f x) bl h = Ret r h' -> exists x bl1 h1, m bl h = Ret (x, bl1) h1 /\ f x bl1 h1 = Ret r h'.
Proof. unfold mbind, M_bind, mbind, C_bind. destruct (m bl h) as [[x bl1] h1| | |]; try done. by exists x, bl1, h1. Qed.

Lemma Ret_lift {A} (m : C A) bl h x bl' h' : lift m bl h = Ret (x, bl') h' -> bl' = bl /\ m h = Ret x h'.
Proof. unfold lift, mbind, C_bind. destruct (m h) as [y h1| | |]; try done. by intros [= -> -> ->]. Qed.

(** [realloc] keeps what fits.  The object it returns is a pointer to a block
    of the new size that starts with the bytes of the old one, as many as both
    have, and the old block is gone unless the new one took its place; but the
    variable it was called with now holds an object of a class that no function
    takes for a pointer. *)
Theorem realloc_keeps_contents ptr size bl h r bl1 h1 :
  let p := INT2PTR (SvIV_rv ptr) in
  let n := size_t (SvUV size) in
  blocks_ok bl h -> p <> 0 -> 0 < n -> Affix_realloc uninit [ptr; size] bl h = Ret (r, bl1) h1 ->
  exists q k v, r = {| xs_return := [unmanaged q]; xs_arg0 := Some v |} /\ is_pointer (unmanaged q) = true /\
    bl !! p = Some k /\ bl1 !! q = Some n /\ (q <> p -> bl1 !! p = None) /\
    load q (Z.to_nat (Z.min k n)) h1 = load p (Z.to_nat (Z.min k n)) h /\
    (forall f args bl2 h2, takes_pointer f = true -> exists msg, call f (v :: args) bl2 h2 = Croak msg).
Proof.
  intros p n Hb Hp Hn Hr. unfold Affix_realloc in Hr. apply Ret_bind in Hr as (x & bl' & h' & Ha & Hr).
  assert (x = p) as ->. { unfold scalar_address in Ha. destruct (is_pointer ptr); [|done]. by injection Ha as <- _ _. }
  apply scalar_address_pure in Ha as [-> ->]. apply Ret_bind in Hr as (q & bl2 & h2 & Hre & Hr). injection Hr as <- <- <-.
  fold n in Hre. unfold saferealloc in Hre. rewrite (proj2 (Z.eqb_neq n 0)), (proj2 (Z.eqb_neq p 0)) in Hre by lia.
  apply Ret_bind in Hre as (k & bl' & h' & Hk & Hre). apply Ret_lift in Hk as [-> Hk].
  unfold or_fault in Hk. destruct (bl !! p) as [k'|] eqn:Ep; [|done]. injection Hk as -> <-.
  apply Ret_bind in Hre as (old & bl' & h' & Hold & Hre). apply Ret_lift in Hold as [-> [-> Hold]%Ret_Load].
  apply Ret_bind in Hre as (u & bl3 & h3 & Hfree & Hre).
  pose proof (post_safefree p bl h Hb) as Hpf. unfold post in Hpf. rewrite Hfree in Hpf. cbn [fst snd] in Hpf.
  destruct Hpf as [[Hb3 _] Hpf]. destruct (Hpf Hp) as (k' & Ek & -> & ->).
  apply Ret_bind in Hre as (q' & bl4 & h4 & Hmal & Hre).
  pose proof (post_safemalloc n _ _ Hb3) as Hpm. unfold post in Hpm. rewrite Hmal in Hpm. cbn [fst snd] in Hpm.
  destruct Hpm as (Hq & Hqn & -> & Hb4 & _ & _).
  apply Ret_bind in Hre as (u' & bl5 & h5 & Hst & Hre). apply Ret_lift in Hst as [-> Hst%Ret_Store%store_touches].
  injection Hre as <- <- <-. destruct Hst as (_ & Hl & _). rewrite (load_length _ _ _ _ Hold) in Hl.
  exists q', k, (sv_setref_pv "Affix::Pointer:Unmanaged" q'). split_and!; try done.
  - unfold is_pointer, unmanaged. rewrite setref_isa by lia. done.
  - rewrite lookup_insert_eq. f_equal. lia.
  - intros Hne. rewrite lookup_insert_ne by done. apply lookup_delete_eq.
  - by rewrite Hl, Hold.
  - intros f args bl2 h2 Hf. apply misnamed_rejected; [lia|done].
Qed.

(** [cast] wants its first argument to be a type, which no pointer object is. *)
Theorem cast_rejects_pointers dtf wc ptr type bl h :
  (exists t a, ptr = new_pointer_obj t a) \/ (exists p, p <> 0 /\ ptr = unmanaged p) ->
  Affix_cast dtf wc [ptr; type] bl h = Croak "type is not of type Affix::Type::Pointer".
Proof.
  intros [(t & a & ->)|(p & Hp & ->)]; unfold Affix_cast, unmanaged; [by rewrite array_isa|by rewrite setref_isa].
Qed.
End Pointer.
