(* ===== verification/PerlModel.v ===== *)
(** * A concrete Perl
      (an instance of the interface of Perl.v)

    Scalars as an inductive type, a hash as the list of its stores, and an
    allocator that takes the first free 16-byte boundary behind all blocks.  It
    satisfies the laws the marshalling theorems assume, and makes them run. *)

From S2P Require Export Marshal.
From stdpp Require Import pretty.
#[local] Open Scope Z_scope.
#[local] Set Warnings "-register-all".

Inductive sv :=
  | Undef (readonly : bool)
  | Bool (b : bool)
  | IVal (i : Z)
  | UVal (u : Z)
  | NVal (d : Z)
  | PVal (s : list Z) (utf8 : bool)
  | Dual (s : list Z) (i : Z)
  | ARef (l : list (option sv))
  | HRef (l : list (list Z * sv))
  | Obj (type : axt) (addr : option Z)
  | SetRef (pkg : string) (addr : Z)
  | Pin (addr : Z)
  | Code (addr : Z).

Definition void_type : axt := Axt true false false VOID_FLAG 0 1 0 NoSub 0 AggNone NoField [].

Definition bytes_of (s : string) : list Z := map (fun c => Z.of_N (N_of_ascii c)) (String.list_ascii_of_string s).
Definition byte_of (b : Z) : Z := b mod 256.

Fixpoint hash_find (l : list (list Z * sv)) (k : list Z) : option sv :=
  match l with
  | [] => None
  | (k', v) :: l => match hash_find l k with Some w => Some w | None => if decide (k = k') then Some v else None end
  end.

Definition sv_pv (d : sv) : list Z :=
  match d with
  | PVal s _ | Dual s _ => map byte_of s
  | Bool true => [49]
  | IVal i => bytes_of (pretty (wrapS 64 i))
  | UVal u => bytes_of (pretty (wrapU 64 u))
  | _ => []
  end.

Definition sv_iv (d : sv) : Z :=
  match d with Bool true => 1 | IVal i | Dual _ i => wrapS 64 i | UVal u => wrapS 64 u | _ => 0 end.

#[export] Instance sv_Perl : Perl sv := {
  SvOK d := match d with Undef _ | Pin _ => false | _ => true end;
  SvREADONLY d := match d with Undef r => r | _ => false end;
  SvIOK d := match d with Bool _ | IVal _ | UVal _ | Dual _ _ => true | _ => false end;
  SvUOK d := match d with UVal _ => true | _ => false end;
  SvNOK d := match d with NVal _ => true | _ => false end;
  SvPOK d := match d with PVal _ _ | Dual _ _ => true | _ => false end;
  SvUTF8 d := match d with PVal _ u => u | _ => false end;
  SvTRUE d := match d with
    | Undef _ | Pin _ => false | Bool b => b
    | IVal i => negb (wrapS 64 i =? 0) | UVal u => negb (wrapU 64 u =? 0) | NVal d => negb (d =? 0)
    | PVal s _ => negb (Nat.eqb (length s) 0) | _ => true end;
  SvIV := sv_iv;
  SvUV d := match d with UVal u => wrapU 64 u | _ => wrapU 64 (sv_iv d) end;
  SvNV d := match d with NVal d => wrapU 64 d | _ => 0 end;
  SvPV := sv_pv;
  SvPVbyte d := match d with PVal _ true => None | _ => Some (sv_pv d) end;
  av_of d := match d with ARef l => Some l | _ => None end;
  hv_of d := match d with HRef l => Some (hash_find l) | _ => None end;
  pointer_of d := match d with Obj _ a => Some a | _ => None end;
  newSV := Undef false;
  newSVbool := Bool;
  newSViv := IVal;
  newSVuv := UVal;
  newSVnv := NVal;
  newSVpvn := PVal;
  SvIV_set d i := Dual (sv_pv d) i;
  newRV_av l := ARef (map Some l);
  newRV_hv := HRef;
  is_utf8_string := forallb (fun b => b <? 128);
  sv_utf8_decode d := match d with PVal s _ => PVal s true | _ => d end;
  uvchr_to_utf8 c := [192 + c / 64 mod 32; 128 + c mod 64];
}.

Lemma byte_ofs s : Forall is_byte (map byte_of s).
Proof. apply List.Forall_forall. intros b (x & <- & _)%in_map_iff. unfold is_byte, byte_of. apply Z.mod_pos_bound. lia. Qed.

Lemma bytes_of_bytes s : Forall is_byte (bytes_of s).
Proof.
  apply List.Forall_forall. intros b (x & <- & _)%in_map_iff. unfold is_byte.
  pose proof (N_ascii_bounded x). lia.
Qed.

Lemma hash_find_None l k : ~ In k (map fst l) -> hash_find l k = None.
Proof.
  induction l as [|[k' v] l IH]; [done|]. cbn. intros Hn. rewrite IH by tauto.
  case_decide; [|done]. subst. tauto.
Qed.

Lemma hash_find_Some l k v : NoDup (map fst l) -> In (k, v) l -> hash_find l k = Some v.
Proof.
  induction l as [|[k' v'] l IH]; [done|]. cbn. intros [Hn Hnd]%NoDup_cons [[= -> ->]|Hin].
  - rewrite hash_find_None by (by rewrite <- list_elem_of_In). by rewrite decide_True.
  - by rewrite IH.
Qed.

#[export] Instance sv_PerlLaws : PerlLaws sv.
Proof.
  constructor; cbn; try done.
  - intros d. destruct d; cbn; try (by apply wrapS_range); try done. by destruct b.
  - intros d. destruct d; by apply wrapU_range.
  - intros d. destruct d; first [by apply wrapU_range|done].
  - intros d. destruct d; cbn; try done; try apply byte_ofs; try apply bytes_of_bytes. destruct b; repeat constructor; done.
  - intros i Hi. by apply wrapS_id.
  - intros u Hu. by apply wrapU_id.
  - intros d Hd. by apply wrapU_id.
  - intros s _ Hs. induction Hs as [|b s Hb _ IH]; [done|]. cbn. rewrite IH. f_equal. by apply Z.mod_small.
  - intros d i Hi. by apply wrapS_id.
  - intros l Hl. eexists. split; [done|]. split; [intros k v; by apply hash_find_Some|intros k; by apply hash_find_None].
Qed.

(** ** The allocator *)

Section Alloc.
Context {DM : DataModel}.

Definition top (h : heap) : Z := map_fold (fun a _ m => Z.max a m) 0 h.

Lemma top_spec h : 0 <= top h /\ forall a, is_Some (h !! a) -> a <= top h.
Proof.
  unfold top. apply (fin_maps.map_fold_weak_ind (fun r (h : heap) => 0 <= r /\ forall a, is_Some (h !! a) -> a <= r)).
  - split; [done|]. intros a [x Hx]. by rewrite lookup_empty in Hx.
  - intros i x m r _ [H0 IH]. split; [lia|]. intros a. destruct (decide (i = a)) as [->|Hne]; [lia|].
    rewrite lookup_insert_ne by done. intros Ha%IH. lia.
Qed.

Definition first_free (h : heap) : Z := (top h / 16 + 1) * 16.

#[export, program] Instance bump : Allocator := {
  malloc h n := let p := first_free h in if p + Z.max n 1 <=? 2 ^ dm_size_bits then Some p else None;
}.
Next Obligation.
  intros h n p. cbn beta zeta. destruct (Z.leb_spec (first_free h + Z.max n 1) (2 ^ dm_size_bits)); [|done].
  intros [= <-]. destruct (top_spec h) as [H0 Hd]. unfold first_free in *.
  pose proof (Z.div_mod (top h) 16 ltac:(lia)). pose proof (Z.mod_pos_bound (top h) 16 ltac:(lia)).
  split_and!; try lia. intros a Ha. destruct (h !! a) eqn:E; [|done]. specialize (Hd a ltac:(by eexists)). lia.
Qed.

#[export] Instance sv_Services : Services sv := {
  new_pointer_obj := Obj;
  pinned_sv _ a := Pin a;
  new_xsub _ a := Code a;
  dcbNewCallback _ := Newxz 64;
  sv_address _ := 4096;
  sv_at _ := Undef false;
  mbstowcs s := s;
}.
End Alloc.
