(* ===== verification/PointerExamples.v ===== *)
(** * Pointer objects on concrete values

    The theorems of PointerProps.v with the Perl of PerlModel.v on x86-64.  The
    integer value of an array is 0 here. *)

From S2P Require Import PointerProps PerlModel X64.
#[local] Open Scope Z_scope.

Section Examples.
#[local] Instance lp64 : DataModel := x64_dm false.
#[local] Instance lp64_ok : DataModelOk := x64_dm_ok false.

Definition void_pointer : axt := Axt true true false POINTER_FLAG 8 8 0 (Sub void_type) 1 AggNone NoField [].

#[local] Instance sv_PointerObjects : PointerObjects sv := {
  sv_derived_from d k := match d with SetRef c _ => isa c k | Obj _ _ => isa "Affix::Pointer::Unmanaged" k | _ => false end;
  pointer_subtype d := match d with Obj t _ => t | _ => void_type end;
  pointer_position _ := 0;
  SvIV_rv d := match d with SetRef _ a => wrapS 64 a | _ => 0 end;
  sv_setref_pv c a := if a =? 0 then Undef false else SetRef c a;
  type_of _ := None;
  new_pointer_array a _ := Obj void_type a;
  Void_Pointer := void_pointer;
}.

#[local] Instance sv_PointerLaws : PointerLaws sv.
Proof.
  split; cbn; try done; intros c p;
    try (intros Hp; by rewrite (proj2 (Z.eqb_neq p 0) Hp)); try (intros k Hp; by rewrite (proj2 (Z.eqb_neq p 0) Hp)).
  by destruct (p =? 0).
Qed.

Definition junk (_ : Z) : Z := 0xcc.

Definition after (r : outcome (xs (SV := sv) * blocks)) : blocks * heap :=
  match r with Ret (_, bl) h => (bl, h) | _ => (∅, ∅) end.
Definition value (r : outcome (xs (SV := sv) * blocks)) : sv :=
  match r with Ret (x, _) _ => hd (Undef true) (xs_return x) | _ => Undef true end.

(** A block of five bytes and one of eight. *)
Definition m1 := Affix_malloc junk [IVal 5] ∅ ∅.
Definition m2 := Affix_calloc junk [IVal 2; IVal 4] (after m1).1 (after m1).2.
Definition m3 := Affix_strdup junk [PVal (bytes_of "abcdefg") false] (after m2).1 (after m2).2.

Lemma empty_ok : blocks_ok ∅ ∅.
Proof. split; intros p n; intros; by rewrite lookup_empty in *. Qed.

Lemma memory_calls_keep_blocks_witness :
  blocks_ok ∅ ∅ /\
  blocks_ok (default (∅, ∅) (run_calls junk (∅, ∅) [(F_malloc, [IVal 5]); (F_calloc, [IVal 2; IVal 4])])).1
            (default (∅, ∅) (run_calls junk (∅, ∅) [(F_malloc, [IVal 5]); (F_calloc, [IVal 2; IVal 4])])).2.
Proof.
  split; [apply empty_ok|].
  eapply (memory_calls_keep_blocks junk [(F_malloc, [IVal 5]); (F_calloc, [IVal 2; IVal 4])] ∅ ∅); [apply empty_ok|].
  vm_compute. reflexivity.
Defined.

Lemma malloc_free_live_witness :
  exists ptr p, [value m1] = [ptr] /\ (∅ : blocks) !! p = None /\
    (forall l bl2 h2, run_calls junk (after m1) l = Some (bl2, h2) -> Forall (spares p) l ->
       Affix_free [ptr] bl2 h2 =
       Ret ({| xs_return := [newSV]; xs_arg0 := Some newSV |}, delete p bl2) (unmap p 5 h2)) /\
    Affix_free [ptr] (after m1).1 (after m1).2 = Ret ({| xs_return := [newSV]; xs_arg0 := Some newSV |}, ∅) ∅.
Proof.
  assert (E : Affix_malloc junk [IVal 5] ∅ ∅ = Ret ({| xs_return := [value m1]; xs_arg0 := None |}, (after m1).1) (after m1).2)
    by (vm_compute; reflexivity).
  rewrite (surjective_pairing (after m1)).
  exact (malloc_free_live junk (IVal 5) ∅ ∅ _ _ _ empty_ok E).
Defined.

Lemma memmove_copies_witness :
  exists h', Affix_memmove [value m2; value m3; IVal 4] (after m3).1 (after m3).2
             = Ret ({| xs_return := [unmanaged 32]; xs_arg0 := None |}, (after m3).1) h' /\
    load 32 4 h' = load 48 4 (after m3).2 /\ touches (within 32 4) (after m3).2 h' /\
    (32 + 4 <= 48 \/ 48 + 4 <= 32 ->
     Affix_memcpy [value m2; value m3; IVal 4] (after m3).1 (after m3).2
     = Affix_memmove [value m2; value m3; IVal 4] (after m3).1 (after m3).2 /\
     Affix_memcmp [value m2; value m3; IVal 4] (after m3).1 h'
     = Ret ({| xs_return := [newSViv 0]; xs_arg0 := None |}, (after m3).1) h').
Proof.
  assert (B : forall p n, forallb (fun i => match (after m3).2 !! (p + Z.of_nat i) with Some _ => true | None => false end) (seq 0 n) = true ->
            MarshalProofs.block p (Z.of_nat n) (after m3).2).
  { intros p n H a Ha. rewrite forallb_forall in H. specialize (H (Z.to_nat (a - p))).
    rewrite in_seq, Z2Nat.id in H by lia. replace (p + (a - p)) with a in H by lia.
    destruct ((after m3).2 !! a); [done|]. assert (false = true) by (apply H; lia). done. }
  pose proof (memmove_copies (value m2) (value m3) (IVal 4) (after m3).1 (after m3).2) as H. cbv zeta in H.
  assert (INT2PTR (SvIV_rv (value m2)) = 32) as E2 by (vm_compute; reflexivity). rewrite E2 in H.
  assert (INT2PTR (SvIV_rv (value m3)) = 48) as E3 by (vm_compute; reflexivity). rewrite E3 in H.
  change (size_t (SvUV (IVal 4))) with 4 in H. change (Z.to_nat 4) with 4%nat in H.
  apply H; [vm_compute; reflexivity|vm_compute; reflexivity|lia| |].
  - apply (B 32 4%nat). vm_compute. reflexivity.
  - apply (B 48 4%nat). vm_compute. reflexivity.
Defined.

Lemma calloc_block_cannot_be_freed_witness :
  exists ptr, [value m2] = [ptr] /\
    (forall bl2 h2, Affix_free [ptr] bl2 h2 = Croak "ptr is not of type Affix::Pointer") /\
    (SvOK ptr = true -> exists p n, 0 < n /\ (after m1).1 !! p = None /\ (after m2).1 !! p = Some n /\ is_pointer ptr = true /\
       INT2PTR (SvIV_rv ptr) = p).
Proof.
  assert (Hok : blocks_ok (after m1).1 (after m1).2).
  { apply (run_calls_kept junk [(F_malloc, [IVal 5])] ∅ ∅); [apply empty_ok|]. vm_compute. reflexivity. }
  assert (E : call junk F_calloc [IVal 2; IVal 4] (after m1).1 (after m1).2
              = Ret ({| xs_return := [value m2]; xs_arg0 := None |}, (after m2).1) (after m2).2) by (vm_compute; reflexivity).
  exact (calloc_block_cannot_be_freed junk F_calloc [IVal 2; IVal 4] _ _ _ _ _ Hok (or_introl eq_refl) E).
Defined.

(** The variable keeps a misnamed object. *)
Definition m4 := Affix_realloc junk [value m3; IVal 20] (after m3).1 (after m3).2.

Lemma realloc_keeps_contents_witness :
  exists q k v, {| xs_return := [value m4]; xs_arg0 := Some (SetRef "Affix::Pointer:Unmanaged" 48) |}
                = {| xs_return := [unmanaged q]; xs_arg0 := Some v |} /\ is_pointer (unmanaged q) = true /\
    (after m3).1 !! 48 = Some k /\ (after m4).1 !! q = Some 20 /\ (q <> 48 -> (after m4).1 !! 48 = None) /\
    load q (Z.to_nat (Z.min k 20)) (after m4).2 = load 48 (Z.to_nat (Z.min k 20)) (after m3).2 /\
    (forall f args bl2 h2, takes_pointer f = true -> exists msg, call junk f (v :: args) bl2 h2 = Croak msg).
Proof.
  assert (Hok : blocks_ok (after m3).1 (after m3).2).
  { apply (run_calls_kept junk [(F_malloc, [IVal 5]); (F_calloc, [IVal 2; IVal 4]); (F_strdup, [PVal (bytes_of "abcdefg") false])] ∅ ∅);
      [apply empty_ok|]. vm_compute. reflexivity. }
  assert (E : Affix_realloc junk [value m3; IVal 20] (after m3).1 (after m3).2
              = Ret ({| xs_return := [value m4]; xs_arg0 := Some (SetRef "Affix::Pointer:Unmanaged" 48) |}, (after m4).1) (after m4).2)
    by (vm_compute; reflexivity).
  pose proof (realloc_keeps_contents junk (value m3) (IVal 20) _ _ {| xs_return := [value m4]; xs_arg0 := Some (SetRef "Affix::Pointer:Unmanaged" 48) |} (after m4).1 (after m4).2 Hok) as H. cbv zeta in H.
  assert (INT2PTR (SvIV_rv (value m3)) = 48) as E3 by (vm_compute; reflexivity). rewrite E3 in H.
  change (size_t (SvUV (IVal 20))) with 20 in H. exact (H ltac:(lia) ltac:(lia) E).
Defined.

(** [malloc]'s object given to [memset]: the write goes to the integer value of the array. *)
Example malloc_object_elsewhere :
  Affix_memset [value m1; PVal (bytes_of "x") false; IVal 3] (after m1).1 (after m1).2 = Fault.
Proof. reflexivity. Qed.
End Examples.
