(* ===== verification/MarshalAggr.v ===== *)
(** * Types by value: [Struct], [_aggregate] and the call VM

    The layout [Struct] computes, its description for dyncall, and what the
    classification makes of it. *)

From S2P Require Export Marshal AggregateProps X64.
#[local] Open Scope Z_scope.

(** ** The layout of [Struct] *)

Section Types.
Context {DM : DataModel} {OK : DataModelOk}.
Variable wchar_size : nat.
Variable sysv : bool.
Variable junk : list Z.

#[local] Abbreviation scalar_type := (scalar_type wchar_size).
#[local] Abbreviation describe := (_aggregate sysv junk).

(** The C type of a field, by the documentation of the types ([Char] is [char],
    [UShort] is [unsigned short], [Pointer] is [void *], ...): a table of its own,
    which does not look at the signature characters of [_aggregate].  [Bool],
    [WChar] and [SChar] are left out: dyncall has no type for them. *)
Definition desc_cty (f : flag) : option cty :=
  match f with
  | CHAR_FLAG => Some TChar | UCHAR_FLAG => Some TUChar
  | SHORT_FLAG => Some TShort | USHORT_FLAG => Some TUShort
  | INT_FLAG => Some TInt | UINT_FLAG => Some TUInt
  | LONG_FLAG => Some TLong | ULONG_FLAG => Some TULong
  | LONGLONG_FLAG => Some TLongLong | ULONGLONG_FLAG => Some TULongLong
  | FLOAT_FLAG => Some TFloat | DOUBLE_FLAG => Some TDouble
  | POINTER_FLAG | CODEREF_FLAG | WSTRING_FLAG => Some TPointer
  | _ => None
  end.

(** The scalars of a type placed at [base], as C sees them: their offsets and
    C types, read off the type and not off its description. *)
Fixpoint type_leaves (t : axt) (base : Z) {struct t} : list (Z * cty) :=
  match t_numeric t with
  | STRUCT_FLAG =>
    match t_subtype t with
    | Fields fs => concat (map (fun f => type_leaves f (base + t_offset f)) fs)
    | _ => []
    end
  | f => match desc_cty f with Some ty => [(base, ty)] | None => [] end
  end.

(** The scalar flags of the numbers and characters. *)
Definition plain_flag (f : flag) : bool :=
  match f with CHAR_FLAG | UCHAR_FLAG => true | _ => match flag_cty f with Some _ => true | None => false end end.

(** Types for fields of structs that are passed by value. *)
Inductive by_value : axt -> Prop :=
  | bv_scalar f : plain_flag f = true -> by_value (scalar_type f)
  | bv_pointer sub len : by_value (pointer_type sub len)
  | bv_struct types t : (forall n s, In (n, s) types -> by_value s) -> Struct types = Some t -> by_value t.

(** What a description needs of the type of a field. *)
Definition value_type (t : axt) : Prop :=
  In (t_alignment t) [1; 2; 4; 8] /\ 0 <= t_sizeof t /\
  if decide (t_numeric t = STRUCT_FLAG) then t_alignment t = 8
  else exists ty, desc_cty (t_numeric t) = Some ty /\ t_sizeof t = sizeof_cty ty /\ t_alignment t = sizeof_cty ty.

Lemma plain_cty f : plain_flag f = true ->
  f <> STRUCT_FLAG /\ exists ty, desc_cty f = Some ty /\ SIZEOF wchar_size f = sizeof_cty ty.
Proof. destruct f; cbn; try done; intros _; (split; [done|]); eexists; (split; [reflexivity|done]). Qed.

(** The character [_aggregate] writes for a field is that of its C type. *)
Lemma field_sigchar_cty f ty : desc_cty f = Some ty ->
  exists c, field_sigchar f = Some c /\ cty_of_sigchar c = Some ty.
Proof. destruct f; cbn; try done; intros [= <-]; eexists; split; reflexivity. Qed.

Lemma type_leaves_scalar t base ty :
  desc_cty (t_numeric t) = Some ty -> type_leaves t base = [(base, ty)].
Proof. destruct t as [? ? ? n]. cbn [t_numeric type_leaves]. destruct n; cbn; try done; by intros [= <-]. Qed.

Lemma type_leaves_struct t base fs : t_numeric t = STRUCT_FLAG -> t_subtype t = Fields fs ->
  type_leaves t base = concat (map (fun f => type_leaves f (base + t_offset f)) fs).
Proof. destruct t. cbn. by intros -> ->. Qed.

Lemma type_leaves_set_field off n t : type_leaves (set_field off n t) = type_leaves t.
Proof. by destruct t. Qed.

Lemma Struct_inv types t :
  Struct types = Some t -> exists fs size, struct_layout types 0 = Some (fs, size) /\
    t = Axt true false false STRUCT_FLAG (size + padding_needed_for_pm size AFFIX_ALIGNBYTES)
          AFFIX_ALIGNBYTES 0 (Fields fs) 1 AggNone NoField [].
Proof.
  unfold Struct. destruct (struct_layout types 0) as [[fs size]|]; [|done]. cbn. intros [= <-]. eauto.
Qed.

Lemma align_up lo a : 0 < a -> let off := (lo + a - 1) / a * a in lo <= off < lo + a /\ off mod a = 0.
Proof.
  intros Ha off. split; [|apply Z.mod_mul; lia]. unfold off.
  pose proof (Z.div_mod (lo + a - 1) a ltac:(lia)). pose proof (Z.mod_pos_bound (lo + a - 1) a ltac:(lia)). nia.
Qed.

(** Each field is the given type at the first aligned offset behind the
    previous field, and the size ends behind the last one. *)
Lemma struct_layout_spec types : forall lo fs size,
  0 <= lo -> (forall n s, In (n, s) types -> value_type s) -> struct_layout types lo = Some (fs, size) ->
  lo <= size /\ Forall2 (fun nt f => exists off, f = set_field off nt.1 nt.2 /\
    lo <= off /\ off mod t_alignment nt.2 = 0 /\ off + t_sizeof nt.2 <= size) types fs.
Proof.
  induction types as [|[n t] types IH]; intros lo fs size Hlo Hv H; cbn [struct_layout] in H.
  - injection H as <- <-. split; [lia|constructor].
  - destruct (Z.eqb_spec (t_alignment t) 0) as [|Ha]; [done|].
    destruct (Hv n t (or_introl eq_refl)) as (Hal & Hs & _).
    assert (Hpos : 0 < t_alignment t) by (destruct Hal as [<-|[<-|[<-|[<-|[]]]]]; lia).
    pose proof (align_up lo (t_alignment t) Hpos) as [Hoff Hmod]. cbn zeta in *.
    set (off := (lo + t_alignment t - 1) / t_alignment t * t_alignment t) in *.
    apply bind_Some in H as ([fs' size'] & H & [= <- <-]).
    apply IH in H as [Hsz Hfs]; [|lia|intros; eapply Hv; by right].
    split; [lia|]. constructor.
    + exists off. split_and!; try done; lia.
    + eapply Forall2_impl; [exact Hfs|]. intros [n' t'] f (o & -> & ? & ? & ?). exists o. split_and!; try done; lia.
Qed.

Lemma pad_8 size : 0 <= size ->
  size <= size + padding_needed_for_pm size AFFIX_ALIGNBYTES /\
  (size + padding_needed_for_pm size AFFIX_ALIGNBYTES) mod 8 = 0.
Proof.
  intros Hs. unfold padding_needed_for_pm, AFFIX_ALIGNBYTES. destruct (Z.eqb_spec size 0) as [->|]; [done|].
  cbn [Z.eqb]. pose proof (Z.mod_pos_bound size 8 ltac:(lia)). pose proof (Z.div_mod size 8 ltac:(lia)).
  destruct (Z.eqb_spec (size mod 8) 0) as [E|E]; cbn [negb]; [rewrite Z.add_0_r; split; [lia|done]|].
  split; [lia|]. replace (size + (8 - size mod 8)) with ((size / 8 + 1) * 8) by lia. by apply Z.mod_mul.
Qed.

Lemma by_value_type t : by_value t -> value_type t.
Proof.
  intros H. induction H as [f Hf|sub len|types t _ IH Ht].
  - destruct (plain_cty f Hf) as (Hne & ty & Hty & Hsz). unfold value_type. cbn. rewrite Hsz.
    split; [apply sizeof_cty_pow2|]. pose proof (sizeof_cty_range ty). split; [lia|].
    rewrite decide_False by done. by exists ty.
  - unfold value_type. cbn. pose proof (sizeof_cty_range TPointer). split; [apply (sizeof_cty_pow2 TPointer)|].
    split; [cbn in *; unfold SIZEOF_INTPTR_T; lia|]. by exists TPointer.
  - destruct (Struct_inv _ _ Ht) as (fs & size & Hl & ->).
    apply struct_layout_spec in Hl as [Hs _]; [|done|done]. pose proof (pad_8 size Hs) as [Hp _].
    unfold value_type. cbn [t_alignment t_sizeof t_numeric]. split; [cbn; tauto|]. split; [lia|]. by rewrite decide_True.
Qed.

(** ** The description of a struct *)

(** [d] is what [_aggregate] declares for a field. *)
Definition declares (f : axt) (d : field_decl) : Prop :=
  let '(ty, off, len, sub) := d in
  off = t_offset f /\ len = 1 /\
  if decide (t_numeric f = STRUCT_FLAG)
  then ty = DC_SIGCHAR_AGGREGATE /\ exists s, sub = Some s /\ forall h, describe f h = Ret s h
  else desc_cty (t_numeric f) <> None /\ field_sigchar (t_numeric f) = Some ty /\ sub = None.

Lemma aggregate_fields_declared fs ds : Forall2 declares fs ds -> forall ag h,
  aggregate_fields describe fs ag h = or_fault (add_fields ag ds) h.
Proof.
  induction 1 as [|f [[[ty off] len] sub] fs ds Hd _ IH]; intros ag h; [done|].
  destruct Hd as (-> & -> & Hd). cbn [aggregate_fields]. unfold mbind at 1, C_bind.
  assert (E : aggregate_field describe ag f h = or_fault (dcAggrField ag ty (t_offset f) 1 sub) h).
  { unfold aggregate_field. case_decide as Hn.
    - destruct Hd as (-> & s & -> & Hs). rewrite Hn. unfold mbind, C_bind. by rewrite Hs.
    - destruct Hd as (Hc & Hty & ->). destruct (t_numeric f); try done; by injection Hty as <-. }
  rewrite E. unfold add_fields. cbn [foldM]. destruct (dcAggrField ag ty (t_offset f) 1 sub) as [ag'|]; [|done].
  cbn [or_fault mbind option_bind]. apply IH.
Qed.

Lemma describe_set_field off n t : describe (set_field off n t) = describe t.
Proof. by destruct t. Qed.

(** The closed description of a struct type, and the one before closing. *)
Record described (t : axt) (ag0 ag : DCaggr) : Prop := {
  de_run : forall h, describe t h = Ret ag h;
  de_close : dcCloseAggr sysv ag0 = Some ag;
  de_wf0 : desc_wf ag0;
  de_wf : desc_wf ag;
  de_size : ag_size ag = t_sizeof t;
  de_lay : forall base, base mod 8 = 0 -> lay_ok ag base = true;
  de_classes : ag_sysv_classes ag0 = junk;
  de_leaves : forall base, leaves ag base = type_leaves t base;
  de_fields : exists fs, t_subtype t = Fields fs /\ map f_offset (ag_fields ag) = map t_offset fs /\
    map (fun f => cty_of_sigchar (f_type f)) (ag_fields ag) = map (fun f => desc_cty (t_numeric f)) fs;
}.

Lemma mod_sum a b m : m <> 0 -> a mod m = 0 -> b mod m = 0 -> (a + b) mod m = 0.
Proof. intros Hm Ha Hb. by rewrite Z.add_mod, Ha, Hb by done. Qed.

(** What is declared for a field, and where it lies. *)
Definition declared (total : Z) (f : axt) (d : field_decl) : Prop :=
  declares f d /\ decl_wf d /\ (forall base, base mod 8 = 0 -> field_lay total base (field_of d)) /\
  (forall base, field_leaves base (field_of d) = type_leaves f (base + t_offset f)) /\
  f_offset (field_of d) = t_offset f /\ cty_of_sigchar (f_type (field_of d)) = desc_cty (t_numeric f).

(** A field that is no array has the leaves of its one element. *)
Lemma field_leaves_1 base f : f_array_len f = 1 -> field_leaves base f = elem_leaves f (base + f_offset f).
Proof.
  intros E. unfold field_leaves. rewrite E. change (seqZ 0 1) with [0]. cbn [map concat].
  by rewrite app_nil_r, Z.mul_0_r, Z.add_0_r.
Qed.

Lemma declare_field n t off total :
  value_type t -> (t_numeric t = STRUCT_FLAG -> exists ag0 ag, described t ag0 ag) ->
  0 <= off -> off mod t_alignment t = 0 -> off + t_sizeof t <= total ->
  exists d, declared total (set_field off n t) d.
Proof.
  intros (Hal & Hsz & Hv) Hd Ho Hmod Hend. case_decide as Hn.
  - destruct (Hd Hn) as (ag0 & ag & []). exists (DC_SIGCHAR_AGGREGATE, off, 1, Some ag).
    unfold declared, declares. rewrite describe_set_field. cbn [t_offset t_numeric set_field].
    rewrite decide_True by done. rewrite Hn. split; [split_and!; [done..|by exists ag]|]. split; [cbn; by eauto|].
    split; [|split; [|done]].
    2: { intros base. rewrite field_leaves_1, type_leaves_set_field by done. apply de_leaves0. }
    intros base Hb. rewrite Hv in Hmod. unfold field_lay, field_of. cbn -[Z.modulo].
    rewrite de_size0. split_and!; [lia|lia|lia|by apply (mod_sum base off 8)|].
    intros i Hi. apply de_lay0. replace i with 0 by lia. rewrite Z.mul_0_r, Z.add_0_r. by apply (mod_sum base off 8).
  - destruct Hv as (ty & E & Hs & Ha). destruct (field_sigchar_cty _ _ E) as (c & Hc & Hty).
    exists (c, off, 1, None). unfold declared, declares. cbn [t_offset t_numeric set_field].
    rewrite decide_False by done.
    rewrite E. split; [done|]. unfold decl_wf, field_of. rewrite Hty. split; [done|]. split; [|split; [|done]].
    2: { intros base. rewrite field_leaves_1, type_leaves_set_field, (type_leaves_scalar _ _ _ E) by done.
         unfold elem_leaves. cbn [f_type f_offset]. by rewrite Hty. }
    intros base Hb. unfold field_lay. cbn -[Z.modulo sizeof_cty]. rewrite Hty, <- Hs.
    split_and!; [lia|lia|lia|]. rewrite Ha, <- Hs in *. pose proof (sizeof_cty_range ty). 
    apply mod_sum; [lia|by apply mod8_aligned|done].
Qed.

Lemma declare_fields total types fs :
  Forall2 (fun nt f => exists off, f = set_field off nt.1 nt.2 /\
    0 <= off /\ off mod t_alignment nt.2 = 0 /\ off + t_sizeof nt.2 <= total) types fs ->
  (forall n t, In (n, t) types -> value_type t /\ (t_numeric t = STRUCT_FLAG -> exists ag0 ag, described t ag0 ag)) ->
  exists ds, Forall2 (declared total) fs ds.
Proof.
  induction 1 as [|[n t] f types fs (off & -> & Ho & Hm & He) _ IH]; intros H; [by exists []|].
  destruct IH as [ds Hds]; [intros; eapply H; by right|]. destruct (H n t (or_introl eq_refl)) as [Hv Hd].
  destruct (declare_field n t off total Hv Hd Ho Hm He) as [d Hd']. exists (d :: ds). by constructor.
Qed.

Lemma struct_described types t :
  (3 <= length junk)%nat -> Struct types = Some t ->
  (forall n s, In (n, s) types -> value_type s /\ (t_numeric s = STRUCT_FLAG -> exists ag0 ag, described s ag0 ag)) ->
  exists ag0 ag, described t ag0 ag.
Proof.
  intros Hj Ht H. destruct (Struct_inv _ _ Ht) as (fs & size & Hl & Et).
  apply struct_layout_spec in Hl as [Hsz Hfs]; [|done|intros n s Hin; by apply (H n s)].
  pose proof (pad_8 size Hsz) as [Hpad _].
  destruct (declare_fields (t_sizeof t) types fs) as [ds Hds]; [|done|].
  { rewrite Et. cbn [t_sizeof]. eapply Forall2_impl; [exact Hfs|].
    intros nt f (off & -> & ? & ? & ?). exists off. split_and!; (done || lia). }
  assert (Hlen : length fs = length ds) by (by eapply Forall2_length).
  assert (Hwf : Forall decl_wf ds).
  { apply Forall_forall. intros d [i Hi]%list_elem_of_lookup. destruct (Forall2_lookup_r _ _ _ _ _ Hds Hi) as (f & _ & _ & ? & _). done. }
  set (ag00 := dcNewAggr junk (Z.of_nat (length fs)) (t_sizeof t)).
  assert (Hts : 0 <= t_sizeof t) by (rewrite Et; cbn [t_sizeof]; lia).
  destruct (add_fields_wf ds ag00 (new_wf junk _ _ Hts) Hwf) as (ag0 & Ha & Hw & Esz & _ & Ec & _); [cbn; lia|].
  destruct (close_total sysv ag0 Hw) as (ag & Hc); [by rewrite Ec|].
  pose proof (add_fields_exact _ _ _ Ha) as Ef. cbn in Ef.
  destruct (close_level _ _ _ Hc) as (E1 & _ & _ & E4 & _).
  assert (Hrun : forall h, describe t h = Ret ag h).
  { intros h. rewrite Et. cbn [_aggregate t_numeric t_aggregate t_subtype t_sizeof].
    replace (size + padding_needed_for_pm size AFFIX_ALIGNBYTES) with (t_sizeof t) by (by rewrite Et).
    unfold mbind, C_bind. rewrite (aggregate_fields_declared fs ds).
    - fold ag00. rewrite Ha. cbn [or_fault]. by rewrite Hc.
    - eapply Forall2_impl; [exact Hds|]. by intros ?? [? _]. }
  assert (Hsize : ag_size ag = t_sizeof t) by (rewrite E1; exact Esz).
  assert (Hcls : ag_sysv_classes ag0 = junk) by exact Ec.
  exists ag0, ag. refine (Build_described t ag0 ag Hrun Hc Hw (close_wf _ _ _ Hw Hc) Hsize _ Hcls _ _).
  - intros base Hb. apply lay_ok_intro. rewrite E4, Hsize, Ef.
    apply List.Forall_forall. intros g (d & <- & Hd)%in_map_iff. apply list_elem_of_In, list_elem_of_lookup in Hd as [i Hi].
    destruct (Forall2_lookup_r _ _ _ _ _ Hds Hi) as (f & _ & _ & _ & Hlay & _). by apply Hlay.
  - intros base. rewrite leaves_unfold, E4, Ef, (type_leaves_struct t base fs) by (by rewrite Et).
    f_equal. clear -Hds. induction Hds as [|f d fs ds (_ & _ & _ & Hlv & _) _ IH]; [done|].
    cbn [map]. by rewrite IH, Hlv.
  - exists fs. split; [by rewrite Et|]. rewrite E4, Ef. clear -Hds.
    split; (induction Hds as [|f d fs ds (_ & _ & _ & _ & Ho & Hc) _ IH]; cbn [map]; [done|by f_equal]).
Qed.

Lemma by_value_described t :
  (3 <= length junk)%nat -> by_value t -> t_numeric t = STRUCT_FLAG -> exists ag0 ag, described t ag0 ag.
Proof.
  intros Hj H. induction H as [f Hf|sub len|types t Hv IH Ht]; [|done|].
  - cbn. destruct (plain_cty f Hf). done.
  - intros _. eapply struct_described; [done|exact Ht|]. intros n s Hin. split; [apply by_value_type|]; eauto.
Qed.

(** C3: structs of plain fields are described to dyncall as they are laid out.
    For every struct built with [Struct] from [Char], [UChar], the numbers
    [Short] to [ULongLong], [Float], [Double], pointers and such structs, nested
    to any depth (no [Bool], [WChar] or [SChar], whose description differs from
    C's: [bool_field_to_memory]), [_aggregate] succeeds.  The description is well
    formed, has the size of the type and a field at each offset with the C type
    of the field (the table [desc_cty]); its scalars, nested ones included, are
    those of the type ([type_leaves]), and the System V classes are the ones the
    ABI prescribes for these scalars at these offsets: MEMORY above 16 bytes,
    else the class of each eightbyte. *)
Theorem struct_by_value types t :
  (3 <= length junk)%nat -> (forall n s, In (n, s) types -> by_value s) -> Struct types = Some t ->
  exists ag fs, (forall h, describe t h = Ret ag h) /\ t_subtype t = Fields fs /\
    desc_wf ag /\ lay_ok ag 0 = true /\ ag_size ag = t_sizeof t /\ t_sizeof t mod 8 = 0 /\
    map f_offset (ag_fields ag) = map t_offset fs /\
    map (fun f => cty_of_sigchar (f_type f)) (ag_fields ag) = map (fun f => desc_cty (t_numeric f)) fs /\
    (forall base, leaves ag base = type_leaves t base) /\
    (sysv = true ->
     if decide (16 < t_sizeof t) then aget 0 (ag_sysv_classes ag) = Some SYSVC_MEMORY
     else aget 0 (ag_sysv_classes ag) = Some (abi_class 0 (type_leaves t 0)) /\
          aget 1 (ag_sysv_classes ag) = Some (abi_class 1 (type_leaves t 0))).
Proof.
  intros Hj Hv Ht. destruct (Struct_inv _ _ Ht) as (fs0 & size & Hl & Et).
  assert (Hn : t_numeric t = STRUCT_FLAG) by (by rewrite Et).
  destruct (by_value_described t Hj (bv_struct types t Hv Ht) Hn) as (ag0 & ag & [Hrun Hc Hw0 Hw Hsz Hlay Hcls Hlvs Hfs]).
  destruct Hfs as (fs & Hs & Ho & Hty). exists ag, fs.
  assert (Hlv : leaves ag 0 = leaves ag0 0).
  { destruct (close_level _ _ _ Hc) as (_ & _ & _ & E & _). by rewrite !leaves_unfold, E. }
  assert (Hl0 : lay_ok ag0 0 = true).
  { apply lay_ok_intro. destruct (close_level _ _ _ Hc) as (E1 & _ & _ & E4 & _). rewrite <- E1, <- E4.
    by apply lay_ok_fields, Hlay. }
  assert (Hmod : t_sizeof t mod 8 = 0).
  { rewrite Et. cbn [t_sizeof]. apply pad_8. apply struct_layout_spec in Hl as [? _]; [done..|].
    intros n s Hin. by eapply by_value_type, Hv. }
  split_and!; try done; [by apply Hlay|]. intros E. rewrite E in Hc. rewrite <- Hlvs, Hlv, <- Hsz.
  destruct (close_level _ _ _ Hc) as (E1 & _). rewrite E1. case_decide as Hbig.
  - destruct (finish_large ag0 Hbig) as (ag' & Hc' & ?); [rewrite Hcls; lia|]. congruence.
  - destruct (finish_laid_out ag0 Hw0) as (ag' & rest & Hc' & E'); [by rewrite Hcls|done|lia|].
    rewrite Hc in Hc'. injection Hc' as <-. by rewrite E'.
Qed.

End Types.

(** ** Where the layout is not C's *)

(** A [Bool] behind another field sends a struct to memory.  The size of
    the type is that of [bool], but it is described as dyncall's boolean, an
    [int].  [Struct[ c => Char, b => Bool ]] has the boolean at offset 1, where
    no [int] can be: it is classified MEMORY and passed on the stack, while a C
    compiler passes [struct { char c; bool b; }] in an integer register. *)
Theorem bool_field_to_memory junk h :
  (3 <= length junk)%nat ->
  exists t ag,
    Struct
      [([99], scalar_type (DM := x64_dm false) 4 CHAR_FLAG); ([98], scalar_type (DM := x64_dm false) 4 BOOL_FLAG)]
    = Some t /\
    _aggregate (DM := x64_dm false) true junk t h = Ret ag h /\
    aget 0 (ag_sysv_classes ag) = Some SYSVC_MEMORY /\
    abi_class (DM := x64_dm false) 0 [(0, TChar); (1, TUChar)] = SYSVC_INTEGER.
Proof.
  intros Hj. destruct junk as [|a [|b [|c junk]]]; cbn in Hj; try lia.
  eexists _, _. split; [vm_compute; reflexivity|]. split; [vm_compute; reflexivity|].
  split; vm_compute; reflexivity.
Qed.

(** A nested struct is aligned to eight bytes and padded to a multiple of eight,
    whatever its fields: [Struct[ a => Int, b => Struct[ c => Int ] ]] has [b] at
    offset 8 and size 16, where C has offset 4 and size 8. *)
Theorem nested_struct_layout_differs :
  exists inner t, Struct [([99], scalar_type (DM := x64_dm false) 4 INT_FLAG)] = Some inner /\
    Struct [([97], scalar_type (DM := x64_dm false) 4 INT_FLAG); ([98], inner)] = Some t /\
    t_sizeof inner = 8 /\ t_sizeof t = 16 /\
    match t_subtype t with Fields fs => map t_offset fs | _ => [] end = [0; 8].
Proof. eexists _, _. split; [vm_compute; reflexivity|]. split; [vm_compute; reflexivity|]. by vm_compute. Qed.
