(* ===== verification/StructType.v ===== *)
(** * Struct and union types are well formed (lib/Affix/Type/Struct.pm, Union.pm)

    [Struct] never fails for types that can be stored, its fields are aligned
    and do not overlap, and its values are exactly the hashes with a value for
    each field: what the marshalling theorems ask of a type holds of every type
    the constructors build.  [Union] gives every field room and alignment;
    [offsetof] finds fields down to the second level. *)

From S2P Require Export MarshalProps MarshalAggr.
From stdpp Require Import gmap.
#[local] Open Scope Z_scope.

Section StructType.
Context {SV : Type} {P : Perl SV} {DM : DataModel} {OK : DataModelOk}.
Variable wchar_size : nat.

#[local] Abbreviation scalar_type := (scalar_type wchar_size).
#[local] Abbreviation String_type := (String_type wchar_size).
#[local] Abbreviation fits := MarshalProps.fits.

(** The flags of booleans, characters and numbers. *)
Definition stored_flag (f : flag) : bool :=
  match f with
  | BOOL_FLAG | CHAR_FLAG | SCHAR_FLAG | UCHAR_FLAG => true
  | f => negb (is_None_b (flag_cty f))
  end.

(** The types of values that [sv2ptr] puts in memory. *)
Inductive storable : axt -> Prop :=
  | st_scalar f : stored_flag f = true -> storable (scalar_type f)
  | st_string : storable String_type
  | st_struct types t : (forall n s, In (n, s) types -> storable s) -> Struct types = Some t -> storable t.

Definition sized (t : axt) : Prop := 0 < t_alignment t /\ 0 <= t_sizeof t.

Lemma layout_weaken fs size size' : size <= size' -> forall lo, layout fs lo size = true -> layout fs lo size' = true.
Proof.
  intros Hs. induction fs as [|f fs IH]; intros lo Hl; cbn [layout] in *.
  - apply Z.leb_le in Hl. apply Z.leb_le. lia.
  - apply andb_prop in Hl as [-> Hl]. by apply IH.
Qed.

(** The field of a type, at the first place behind [lo]. *)
Definition field_at (lo : Z) (nt : list Z * axt) (f : axt) : Prop :=
  exists off, f = set_field off nt.1 nt.2 /\ lo <= off /\ off mod t_alignment nt.2 = 0.

Lemma struct_layout_total types : forall lo,
  0 <= lo -> (forall n s, In (n, s) types -> sized s) ->
  exists fs size, struct_layout types lo = Some (fs, size) /\ lo <= size /\
    layout fs lo size = true /\ Forall2 (field_at lo) types fs.
Proof.
  induction types as [|[n t] types IH]; intros lo Hlo Hv; cbn [struct_layout].
  - exists [], lo. split_and!; [done|lia|apply Z.leb_le; lia|constructor].
  - destruct (Hv n t (or_introl eq_refl)) as [Ha Hs]. rewrite (proj2 (Z.eqb_neq (t_alignment t) 0)) by lia.
    pose proof (align_up lo (t_alignment t) Ha) as [Hoff Hmod]. cbn zeta in *.
    set (off := (lo + t_alignment t - 1) / t_alignment t * t_alignment t) in *.
    destruct (IH (off + t_sizeof t)) as (fs & size & -> & Hle & Hl & Hf); [lia|intros; eapply Hv; by right|].
    exists (set_field off n t :: fs), size. cbn [mbind option_bind layout t_offset t_sizeof set_field].
    split_and!; [done|lia| |].
    + rewrite (proj2 (Z.leb_le _ _)) by lia. done.
    + constructor; [exists off; split_and!; (done || lia)|]. eapply Forall2_impl; [exact Hf|].
      intros nt f (o & -> & Ho & Hm). exists o. split_and!; (done || lia).
Qed.

Lemma Struct_total types :
  (forall n s, In (n, s) types -> sized s) ->
  exists t fs, Struct types = Some t /\ t_numeric t = STRUCT_FLAG /\ t_isa_pointer t = false /\
    t_subtype t = Fields fs /\ t_alignment t = 8 /\ 0 <= t_sizeof t /\ t_sizeof t mod 8 = 0 /\
    layout fs 0 (t_sizeof t) = true /\ Forall2 (field_at 0) types fs.
Proof.
  intros Hv. destruct (struct_layout_total types 0 ltac:(lia) Hv) as (fs & size & Hl & Hs & Hlay & Hf).
  destruct (pad_8 size Hs) as [Hle Hmod]. unfold Struct. rewrite Hl. cbn [mbind option_bind].
  eexists _, fs. split; [reflexivity|]. cbn [t_numeric t_isa_pointer t_subtype t_alignment t_sizeof].
  split_and!; try done; [lia|by eapply layout_weaken].
Qed.

Lemma SIZEOF_pos f : stored_flag f = true -> 0 < SIZEOF wchar_size f.
Proof.
  intros Hf. destruct f; try done; cbn [SIZEOF flag_cty]; apply sizeof_pos.
Qed.

Lemma storable_sized t : storable t -> sized t.
Proof.
  intros H. induction H as [f Hf| |types t _ IH Ht].
  - pose proof (SIZEOF_pos f Hf). split; cbn; lia.
  - pose proof ptr_bits. split; cbn; lia.
  - destruct (Struct_total types IH) as (t' & fs & E & _ & _ & _ & Ha & Hs & _).
    rewrite Ht in E. injection E as <-. split; lia.
Qed.

(** Where a type is placed makes no difference to its values. *)
Lemma fits_set_field off n t d : fits (set_field off n t) d = fits t d.
Proof. by destruct t. Qed.

Lemma fits_struct_fields t fs d hv :
  t_numeric t = STRUCT_FLAG -> t_isa_pointer t = false -> t_subtype t = Fields fs ->
  SvOK d = true -> hv_of d = Some hv -> layout fs 0 (t_sizeof t) = true ->
  fits t d = forallb (field_fits hv) fs.
Proof.
  intros Ht Hi Hs Hok Hhv Hl. destruct t as [? ip ? f ??? sub]. cbn in *. subst. cbn.
  by rewrite Hok, Hhv, Hl.
Qed.

Lemma all_fields_fit hv types fs :
  Forall2 (field_at 0) types fs ->
  forallb (field_fits hv) fs = true <-> forall n s, In (n, s) types -> exists x, hv n = Some x /\ fits s x = true.
Proof.
  induction 1 as [|[n t] f types fs (off & -> & _ & _) _ IH]; [by split|].
  cbn [forallb fst snd]. rewrite andb_true_iff, IH. unfold field_fits at 1.
  change (t_field (set_field off n t)) with (Some n). cbn match. split.
  - intros [Hx Hall] n' s' [[= <- <-]|Hin]; [|by apply Hall].
    destruct (hv n) as [x|]; [|done]. rewrite fits_set_field in Hx. by exists x.
  - intros Hall. split; [|intros n' s' Hin; apply Hall; by right].
    destruct (Hall n t (or_introl eq_refl)) as (x & -> & Hx). by rewrite fits_set_field.
Qed.

(** C4: [Struct] makes well-formed types.  For fields of any storable types,
    [Struct] succeeds; every field has its name, its type and an aligned offset;
    the fields are in order, do not overlap and end within the size, a multiple
    of eight; the type is storable again; and its values are exactly the hashes
    with a fitting value for every field. *)
Theorem Struct_well_formed types :
  (forall n s, In (n, s) types -> storable s) ->
  exists t fs, Struct types = Some t /\ storable t /\ t_subtype t = Fields fs /\ t_sizeof t mod 8 = 0 /\
    layout fs 0 (t_sizeof t) = true /\ Forall2 (field_at 0) types fs /\
    forall d hv, SvOK d = true -> hv_of d = Some hv ->
      fits t d = true <-> forall n s, In (n, s) types -> exists x, hv n = Some x /\ fits s x = true.
Proof.
  intros Hst. destruct (Struct_total types) as (t & fs & E & Hn & Hi & Hs & Ha & Hp & Hm & Hl & Hf).
  { intros n s Hin. by eapply storable_sized, Hst. }
  exists t, fs. split_and!; try done; [by eapply st_struct|].
  intros d hv Hok Hhv. rewrite (fits_struct_fields t fs d hv) by done. by apply all_fields_fit.
Qed.

(** ** Unions (lib/Affix/Type/Union.pm)

    The loop: every field is at the start; the size and the alignment are those of
    the first field of the greatest size. *)
Fixpoint union_layout (types : list (list Z * axt)) (sizeof alignment : Z) : list axt * Z * Z :=
  match types with
  | [] => ([], sizeof, alignment)
  | (field, t) :: types =>
    let '(sizeof, alignment) := if sizeof <? t_sizeof t then (t_sizeof t, t_alignment t) else (sizeof, alignment) in
    let '(store, size, al) := union_layout types sizeof alignment in
    (set_field 0 field t :: store, size, al)
  end.

Definition Union (types : list (list Z * axt)) : axt :=
  let '(store, sizeof, alignment) := union_layout types 0 0 in
  Axt true false false UNION_FLAG (sizeof + padding_needed_for_pm sizeof AFFIX_ALIGNBYTES) alignment
    0 (Fields store) 1 AggNone NoField [].

(** The types of [storable] have sizes and alignments that grow together. *)
Definition regular (t : axt) : Prop :=
  0 < t_alignment t <= t_sizeof t /\ t_alignment t <= 8 /\ (t_alignment t = t_sizeof t \/ t_alignment t = 8).

Lemma SIZEOF_small f : stored_flag f = true -> SIZEOF wchar_size f <= 8.
Proof.
  destruct f; try done; intros _; cbn [SIZEOF flag_cty sizeof_cty]; try (by vm_compute); destruct OK as [[E|E] _]; by rewrite E.
Qed.

(** Even a struct without fields has a size. *)
Lemma Struct_size_pos types t :
  (forall n s, In (n, s) types -> sized s) -> Struct types = Some t -> 0 < t_sizeof t.
Proof.
  intros Hv Ht. destruct (struct_layout_total types 0 ltac:(lia) Hv) as (fs & size & Hl & Hs & _).
  unfold Struct in Ht. rewrite Hl in Ht. injection Ht as <-. cbn [t_sizeof]. destruct (pad_8 size Hs) as [Hp _].
  destruct (Z.eq_dec size 0) as [->|]; [done|lia].
Qed.

Lemma storable_regular t : storable t -> regular t.
Proof.
  intros H. destruct H as [f Hf| |types t Hst Ht]; unfold regular.
  - pose proof (SIZEOF_pos f Hf). pose proof (SIZEOF_small f Hf). cbn. lia.
  - pose proof ptr_bits as [Hb Hp]. destruct OK as [_ Hs]. cbn. lia.
  - destruct (Struct_total types) as (t' & fs & E & _ & _ & _ & Ha & Hs & Hm & _); [intros; by eapply storable_sized, Hst|].
    rewrite Ht in E. injection E as <-. pose proof (Struct_size_pos types t ltac:(intros; by eapply storable_sized, Hst) Ht).
    pose proof (Z.div_mod (t_sizeof t) 8 ltac:(lia)). lia.
Qed.

Lemma union_layout_max types : forall sizeof alignment,
  let '(store, size, al) := union_layout types sizeof alignment in
  Forall2 (fun nt f => f = set_field 0 nt.1 nt.2) types store /\ sizeof <= size /\
  (forall n t, In (n, t) types -> t_sizeof t <= size) /\
  ((size = sizeof /\ al = alignment) \/ exists n t, In (n, t) types /\ size = t_sizeof t /\ al = t_alignment t).
Proof.
  induction types as [|[n t] types IH]; intros sizeof alignment; cbn [union_layout].
  - split_and!; [constructor|lia|by intros ? ? []|by left].
  - destruct (sizeof <? t_sizeof t) eqn:E.
    + specialize (IH (t_sizeof t) (t_alignment t)). destruct (union_layout types _ _) as [[store size] al].
      destruct IH as (Hf & Hle & Hall & Hmax). apply Z.ltb_lt in E. split_and!; [by constructor|lia| |].
      * intros n' t' [[= <- <-]|Hin]; [lia|by eapply Hall].
      * right. destruct Hmax as [[-> ->]|(n' & t' & Hin & Ht)]; [exists n, t|exists n', t']; split_and!; (by left) || (by right) || apply Ht || done.
    + specialize (IH sizeof alignment). destruct (union_layout types _ _) as [[store size] al].
      destruct IH as (Hf & Hle & Hall & Hmax). apply Z.ltb_ge in E. split_and!; [by constructor|lia| |].
      * intros n' t' [[= <- <-]|Hin]; [lia|by eapply Hall].
      * destruct Hmax as [?|(n' & t' & Hin & Ht)]; [by left|right]. exists n', t'. by split; [right|].
Qed.

(** [Union] has all fields at its start and room for each; its size is a multiple of
    eight.  With fields of storable types its alignment is enough for all of them,
    although it is that of the greatest field alone. *)
Theorem Union_well_formed types :
  (forall n t, In (n, t) types -> storable t) ->
  exists fs, t_subtype (Union types) = Fields fs /\ Forall2 (fun nt f => f = set_field 0 nt.1 nt.2) types fs /\
    t_sizeof (Union types) mod 8 = 0 /\
    forall n t, In (n, t) types -> t_sizeof t <= t_sizeof (Union types) /\ t_alignment t <= t_alignment (Union types).
Proof.
  intros Hst. assert (Hreg : forall n t, In (n, t) types -> regular t) by (intros; by eapply storable_regular, Hst). unfold Union. pose proof (union_layout_max types 0 0) as H.
  destruct (union_layout types 0 0) as [[store size] al]. destruct H as (Hf & Hle & Hall & Hmax).
  destruct (pad_8 size Hle) as [Hp Hm]. exists store. cbn [t_subtype t_sizeof t_alignment]. split_and!; [done..|].
  intros n t Hin. pose proof (Hall n t Hin). destruct (Hreg n t Hin) as (Ht & Hle8 & Ht8).
  assert (exists n' t', In (n', t') types /\ size = t_sizeof t' /\ al = t_alignment t') as (n' & t' & Hin' & -> & ->).
  { destruct Hmax as [[-> ->]|]; [lia|done]. }
  destruct (Hreg n' t' Hin') as (Ht' & Hle8' & Ht8'). split_and!; lia.
Qed.
End StructType.

(** ** Offsets of fields by path (offsetof of Struct.pm and Union.pm)

    The path is split at its dots.  Both versions look for the first field of the
    name and go on with the rest of the path if the field is of their own kind. *)
Section Offsetof.

Definition field_named (t : axt) (field : list Z) : option axt :=
  match t_subtype t with
  | Fields fs => List.find (fun f => bool_decide (t_field f = Some field)) fs
  | _ => None
  end.

(** [length $tail] *)
Definition has_tail (tail : list (list Z)) : bool := match tail with [] | [[]] => false | _ => true end.

(** [None] is the empty list; the flag tells the class, [Struct] or [Union]. *)
Fixpoint offsetof (path : list (list Z)) (t : axt) : option Z :=
  match path with
  | [] => None
  | field :: tail =>
    now ← field_named t field;
    if has_tail tail && bool_decide (t_numeric now = t_numeric t) then offsetof tail now
    else Some (t_offset now + t_offset t)
  end.

(** Where the field is: the offsets on the way to it. *)
Fixpoint place_of (path : list (list Z)) (t : axt) : option Z :=
  match path with
  | [] => Some 0
  | field :: tail => now ← field_named t field; o ← place_of tail now; Some (t_offset now + o)
  end.

(** For fields, and for fields of a field of the same kind, the answer is right. *)
Theorem offsetof_correct t f path now :
  t_offset t = 0 -> field_named t f = Some now ->
  path = [f] \/ (exists g, path = [f; g] /\ g <> [] /\ t_numeric now = t_numeric t) ->
  offsetof path t = place_of path t.
Proof.
  intros Ht Hf [->|(g & -> & Hg & Hk)]; cbn [offsetof place_of]; rewrite Hf; cbn [mbind option_bind].
  - cbn. f_equal. lia.
  - assert (has_tail [g] = true) as -> by by destruct g. rewrite bool_decide_true by done. cbn.
    destruct (field_named now g) as [inner|]; [|done]. cbn. f_equal. lia.
Qed.

(** One level further the offset of the outermost field is lost. *)
Theorem offsetof_deep t f1 t1 f2 t2 f3 t3 :
  field_named t f1 = Some t1 -> field_named t1 f2 = Some t2 -> field_named t2 f3 = Some t3 -> f3 <> [] ->
  t_numeric t1 = t_numeric t -> t_numeric t2 = t_numeric t1 ->
  place_of [f1; f2; f3] t = Some (t_offset t1 + t_offset t2 + t_offset t3) /\
  offsetof [f1; f2; f3] t = Some (t_offset t2 + t_offset t3).
Proof.
  intros H1 H2 H3 Hf3 K1 K2. cbn [offsetof place_of]. rewrite H1. cbn [mbind option_bind]. rewrite H2. cbn [mbind option_bind].
  rewrite H3. cbn [mbind option_bind]. split; [f_equal; lia|].
  rewrite !bool_decide_true by done. assert (has_tail [f3] = true) as -> by by destruct f3. assert (has_tail [f2; f3] = true) as -> by by destruct f2.
  cbn. f_equal. lia.
Qed.
End Offsetof.
