(* ===== verification/TypeObject.v ===== *)
(** * Native type objects (lib/Affix.h: class Affix_Type; lib/Affix.cxx: the Affix_Type functions)

    The class [Affix::Typex]: an object owns a C++ object; the store has the live
    ones by address. *)

From S2P Require Export Prelude.
From stdpp Require Import gmap strings.
#[local] Open Scope Z_scope.

(** The members that are read or written. *)
Record Affix_Type := {
  _stringify : string;
  numeric : Z;
  const_flag : bool;
  pointer_flag : bool;
  size : Z;
  _alignment : Z;
}.

Definition new_Affix_Type (stringify : string) (numeric size alignment : Z) : Affix_Type :=
  {| _stringify := stringify; numeric := wrapS 8 numeric; const_flag := false; pointer_flag := false;
     size := wrapU 64 size; _alignment := wrapU 64 alignment |}.

(** [Perl_form_nocontext("%s%s%s%s%s", ...)] *)
Definition stringify (t : Affix_Type) : string :=
  (if pointer_flag t then "Pointer[ " else "") +:+ (if const_flag t then "Const[ " else "") +:+ _stringify t
  +:+ (if const_flag t then " ]" else "") +:+ (if pointer_flag t then " ]" else "").

Section TypeObject.
Variable ALIGNOF_INTPTR_T : Z.

Definition alignment (t : Affix_Type) : Z := if pointer_flag t then ALIGNOF_INTPTR_T else _alignment t.

(** An exception, nothing, or a value. *)
Inductive reply := Croaks (msg : string) | Empty | Int (i : Z) | Str (s : string).

Abbreviation store := (gmap Z Affix_Type).

(** The methods take the address the object refers to; an address without a live
    object, other than NULL, is undefined ([None]). *)
Definition with_type (p : Z) (st : store) (f : Affix_Type -> option (reply * store)) : option (reply * store) :=
  if p =? 0 then Some (Empty, st) else t ← st !! p; f t.

(** [new] gives an address that is free. *)
Definition Affix_Type_new (fresh : store -> Z) (args : list (string + Z)) (st : store) : option ((reply + Z) * store) :=
  match args with
  | [inl package; inl str; inr flag; inr sizeof; inr align] =>
    let p := fresh st in
    Some (inr p, <[p := new_Affix_Type str flag sizeof align]> st)
  | _ => Some (inl (Croaks "Usage: package, stringify, flag, sizeof, alignment"), st)
  end.

Definition Affix_Type_offset (p : Z) (st : store) : option (reply * store) := Some (Croaks "TODO: offset", st).
Definition Affix_Type_typedef (p : Z) (st : store) : option (reply * store) := Some (Croaks "TODO: typedef", st).
Definition Affix_Type_alignment (p : Z) (st : store) := with_type p st (fun t => Some (Int (wrapS 64 (alignment t)), st)).
Definition Affix_Type_stringify (p : Z) (st : store) := with_type p st (fun t => Some (Str (stringify t), st)).
Definition Affix_Type_sizeof (p : Z) (st : store) := with_type p st (fun t => Some (Int (wrapS 64 (size t)), st)).

Definition set_pointer (b : bool) (t : Affix_Type) : Affix_Type :=
  {| _stringify := _stringify t; numeric := numeric t; const_flag := const_flag t; pointer_flag := b;
     size := size t; _alignment := _alignment t |}.
Definition set_const (b : bool) (t : Affix_Type) : Affix_Type :=
  {| _stringify := _stringify t; numeric := numeric t; const_flag := b; pointer_flag := pointer_flag t;
     size := size t; _alignment := _alignment t |}.

(** [flags]: the arguments behind the object; with four of them the call
    returns nothing instead of throwing. *)
Definition flag_method (set : bool -> Affix_Type -> Affix_Type) (get : Affix_Type -> bool) (p : Z) (flags : list bool) (st : store)
    : option (reply * store) :=
  with_type p st (fun t =>
    match flags with
    | [flag] => Some (Int (Z.b2z (get (set flag t))), <[p := set flag t]> st)
    | [] => Some (Int (Z.b2z (get t)), st)
    | _ => Some (if Nat.eqb (length flags) 4 then Empty else Croaks "Usage: type, [flag]", st)
    end).

Definition Affix_Type_pointer := flag_method set_pointer pointer_flag.
Definition Affix_Type_const := flag_method set_const const_flag.

Definition Affix_Type_DESTROY (p : Z) (st : store) : option (reply * store) :=
  with_type p st (fun _ => Some (Empty, delete p st)).

(** A flag that was set is what the next call finds, the two are independent,
    and only the alignment and the name tell a pointer: the size stays that
    of the type pointed to. *)
Theorem type_flags p t st flag other :
  p <> 0 -> st !! p = Some t ->
  exists st', Affix_Type_pointer p [flag] st = Some (Int (Z.b2z flag), st') /\
    Affix_Type_pointer p [] st' = Some (Int (Z.b2z flag), st') /\
    Affix_Type_const p [] st' = Affix_Type_const p [] (<[p := set_pointer flag t]> st) /\
    Affix_Type_sizeof p st' = Some (Int (wrapS 64 (size t)), st') /\
    Affix_Type_alignment p st' = Some (Int (wrapS 64 (if flag then ALIGNOF_INTPTR_T else _alignment t)), st') /\
    exists st'', Affix_Type_const p [other] st' = Some (Int (Z.b2z other), st'') /\
      Affix_Type_stringify p st'' = Some (Str (stringify (set_const other (set_pointer flag t))), st'') /\
      Affix_Type_pointer p [] st'' = Some (Int (Z.b2z flag), st'').
Proof.
  intros Hp Ht. apply Z.eqb_neq in Hp. exists (<[p := set_pointer flag t]> st).
  unfold Affix_Type_pointer, Affix_Type_const, flag_method, Affix_Type_sizeof, Affix_Type_alignment, Affix_Type_stringify, with_type.
  rewrite Hp, Ht, !lookup_insert_eq. cbn. split_and!; try done. eexists. split; [done|]. by rewrite lookup_insert_eq.
Qed.
End TypeObject.
