(* ===== verification/MarshalExamples.v ===== *)
(** * Marshalling on concrete values

    The theorems of MarshalProps.v at structs built with [Struct], with the
    Perl of PerlModel.v on x86-64 System V. *)

From S2P Require Export MarshalProps MarshalAggr StructType PerlModel X64.
#[local] Open Scope Z_scope.

Section Examples.
#[local] Instance lp64 : DataModel := x64_dm false.
#[local] Instance lp64_ok : DataModelOk := x64_dm_ok false.

#[local] Abbreviation to_c := (sv2ptr 4 (fun x => x)).
#[local] Abbreviation to_perl := (ptr2sv 4 (fun x => x)).

Definition or_void (o : option axt) : axt := default (scalar_type 4 VOID_FLAG) o.

(** [Struct[ x => Double, y => Double ]] and a struct that holds one. *)
Definition point_fields : list (list Z * axt) :=
  [(bytes_of "x", scalar_type 4 DOUBLE_FLAG); (bytes_of "y", scalar_type 4 DOUBLE_FLAG)].
Definition Point : axt := or_void (Struct point_fields).

Definition Thing : axt := or_void (Struct
  [(bytes_of "id", scalar_type 4 INT_FLAG); (bytes_of "name", String_type 4); (bytes_of "pos", Point);
   (bytes_of "flag", scalar_type 4 BOOL_FLAG); (bytes_of "tag", scalar_type 4 CHAR_FLAG);
   (bytes_of "n", scalar_type 4 USHORT_FLAG)]).

Definition thing : sv := HRef
  [(bytes_of "id", IVal (-7)); (bytes_of "name", PVal (bytes_of "fiction") false);
   (bytes_of "pos", HRef [(bytes_of "x", NVal 4607182418800017408); (bytes_of "y", NVal 0)]);
   (bytes_of "flag", Bool true); (bytes_of "tag", PVal (bytes_of "k") false); (bytes_of "n", UVal 65535)].

Example Thing_layout :
  t_sizeof Thing = 40 /\
  match t_subtype Thing with Fields fs => map t_offset fs | _ => [] end = [0; 8; 16; 32; 33; 34].
Proof. by vm_compute. Qed.

Lemma marshal_roundtrip_witness :
  fits_value Thing thing = true /\ exact (fun x => x) (fun x => x) Thing thing = true /\
  (exists p h', to_c Thing thing 0 ∅ = Ret p h') /\
  wp (to_c Thing thing 0) ∅ (fun p h' =>
    0 < p /\ (forall a b, (∅ : heap) !! a = Some b -> h' !! a = Some b) /\
    exists v, to_perl Thing p h' = Ret v h' /\ same Thing thing v).
Proof.
  split; [vm_compute; reflexivity|]. split; [vm_compute; reflexivity|].
  split; [eexists; eexists; vm_compute; reflexivity|].
  apply (marshal_roundtrip 4 (fun x => x) (fun x => x) Thing thing ∅); vm_compute; reflexivity.
Defined.

(** Nine characters for a field of one, in a block of eight bytes. *)
Definition Tag : axt := or_void (Struct [(bytes_of "tag", scalar_type 4 CHAR_FLAG)]).
Definition tag_field : axt := set_field 0 (bytes_of "tag") (scalar_type 4 CHAR_FLAG).
Definition nine : sv := PVal (bytes_of "ninechars") false.

Lemma char_field_overrun_witness :
  t_subtype Tag = Fields [tag_field] /\ t_sizeof Tag = 8 /\
  sv2ptr_field to_c 16 tag_field nine (zeros 16 8 ∅) = Fault /\
  to_c Tag (HRef [(bytes_of "tag", nine)]) 0 ∅ = Fault.
Proof.
  split; [vm_compute; reflexivity|]. split; [vm_compute; reflexivity|]. split; [|vm_compute; reflexivity].
  assert (Hb : ~ MarshalProofs.block (16 + t_offset tag_field) (Z.of_nat (length (SvPV nine))) (zeros 16 8 ∅)).
  { intros Hb. destruct (Hb 24) as [x Hx]; [vm_compute; split; congruence|]. vm_compute in Hx. congruence. }
  exact (proj2 (char_field_overrun 4 (fun x => x) tag_field nine 16 (zeros 16 8 ∅)
                  ltac:(done) ltac:(done) ltac:(done) ltac:(done) ltac:(done)) Hb).
Defined.

Definition thing_fields : list (list Z * axt) :=
  [(bytes_of "id", scalar_type 4 INT_FLAG); (bytes_of "name", String_type 4); (bytes_of "pos", Point);
   (bytes_of "tag", scalar_type 4 CHAR_FLAG); (bytes_of "n", scalar_type 4 USHORT_FLAG)].

Lemma Point_storable : storable 4 Point.
Proof.
  apply (st_struct 4 point_fields); [|vm_compute; reflexivity].
  intros n s [[= _ <-]|[[= _ <-]|[]]]; by apply (st_scalar 4 DOUBLE_FLAG).
Qed.

(** A struct in a struct, a string and three numbers: the offsets are those of
    C, and the values are the hashes with all five. *)
Lemma Struct_well_formed_witness :
  exists t fs, Struct thing_fields = Some t /\ storable 4 t /\ t_subtype t = Fields fs /\ t_sizeof t mod 8 = 0 /\
    layout fs 0 (t_sizeof t) = true /\ Forall2 (field_at 0) thing_fields fs /\
    forall d hv, SvOK d = true -> hv_of d = Some hv ->
      MarshalProps.fits t d = true <-> forall n s, In (n, s) thing_fields -> exists x, hv n = Some x /\ MarshalProps.fits s x = true.
Proof.
  apply (Struct_well_formed 4 thing_fields). intros n s [[= _ <-]|[[= _ <-]|[[= _ <-]|[[= _ <-]|[[= _ <-]|[]]]]]].
  - by apply (st_scalar 4 INT_FLAG).
  - apply st_string.
  - apply Point_storable.
  - by apply (st_scalar 4 CHAR_FLAG).
  - by apply (st_scalar 4 USHORT_FLAG).
Defined.

Lemma Point_by_value : by_value 4 Point.
Proof.
  apply (bv_struct 4 point_fields); [|vm_compute; reflexivity]. intros n s [[= _ <-]|[[= _ <-]|[]]]; by apply (bv_scalar 4 DOUBLE_FLAG).
Qed.

Lemma struct_by_value_witness :
  exists t, Struct thing_fields = Some t /\
  exists ag fs, (forall h, _aggregate true (replicate 8 0) t h = Ret ag h) /\ t_subtype t = Fields fs /\
    desc_wf ag /\ lay_ok ag 0 = true /\ ag_size ag = t_sizeof t /\ t_sizeof t mod 8 = 0 /\
    map f_offset (ag_fields ag) = map t_offset fs /\
    map (fun f => cty_of_sigchar (f_type f)) (ag_fields ag) = map (fun f => desc_cty (t_numeric f)) fs /\
    (forall base, leaves ag base = type_leaves t base) /\
    (true = true ->
     if decide (16 < t_sizeof t) then aget 0 (ag_sysv_classes ag) = Some SYSVC_MEMORY
     else aget 0 (ag_sysv_classes ag) = Some (abi_class 0 (type_leaves t 0)) /\
          aget 1 (ag_sysv_classes ag) = Some (abi_class 1 (type_leaves t 0))).
Proof.
  eexists. split; [vm_compute; reflexivity|].
  apply (struct_by_value 4 true (replicate 8 0) thing_fields); [cbn; lia| |vm_compute; reflexivity].
  intros n s [[= _ <-]|[[= _ <-]|[[= _ <-]|[[= _ <-]|[[= _ <-]|[]]]]]].
  - by apply (bv_scalar 4 INT_FLAG).
  - apply bv_pointer.
  - apply Point_by_value.
  - by apply (bv_scalar 4 CHAR_FLAG).
  - by apply (bv_scalar 4 USHORT_FLAG).
Defined.

Lemma bool_field_to_memory_witness :
  (3 <= length (replicate 8 0))%nat /\
  exists t ag,
    Struct [([99], scalar_type 4 CHAR_FLAG); ([98], scalar_type 4 BOOL_FLAG)] = Some t /\
    _aggregate true (replicate 8 0) t ∅ = Ret ag ∅ /\
    aget 0 (ag_sysv_classes ag) = Some SYSVC_MEMORY /\
    abi_class 0 [(0, TChar); (1, TUChar)] = SYSVC_INTEGER.
Proof. split; [cbn; lia|]. apply (bool_field_to_memory (replicate 8 0) ∅). cbn; lia. Defined.

(** Three structs in one another: [offsetof] is right for two levels and forgets the
    outermost offset at the third. *)
Example offsetof_levels :
  (inner ← Struct [([97], scalar_type 4 CHAR_FLAG); ([98], scalar_type 4 DOUBLE_FLAG)];
   mid ← Struct [([97], scalar_type 4 CHAR_FLAG); ([105], inner)];
   top ← Struct [([97], scalar_type 4 CHAR_FLAG); ([109], mid)];
   Some (offsetof [[105]; [98]] mid, place_of [[105]; [98]] mid,
         offsetof [[109]; [105]; [98]] top, place_of [[109]; [105]; [98]] top))
  = Some (Some 16, Some 16, Some 16, Some 24).
Proof. vm_compute. reflexivity. Qed.

Example union_of_numbers :
  let u := StructType.Union [([99], scalar_type 4 CHAR_FLAG); ([100], scalar_type 4 DOUBLE_FLAG); ([105], scalar_type 4 INT_FLAG)] in
  (t_sizeof u, t_alignment u) = (8, 8).
Proof. vm_compute. reflexivity. Qed.
End Examples.
