(* ===== verification/Fiction.v ===== *)
(** * Calls from Perl and calls back into Perl
      (lib/Affix.cxx: Affix_fiction, Fiction_trigger;
       lib/Affix/Callback.cxx: cbHandlerXXXXX)

    [affix] and [wrap] bind a function of a library to a Perl sub with a
    signature; the sub passes its arguments through a call VM and converts the
    result.  The handler of a callback does the same in the other direction. *)

From S2P Require Export Marshal.
#[local] Open Scope Z_scope.

(** ** The bound function (struct fiction) *)

Record fiction (SV : Type) := {
  fi_lib : Z;
  fi_entry_point : Z;
  fi_symbol : list Z;
  fi_signature : option (list ascii);
  fi_argtypes : list axt;
  fi_restype : option axt;
  fi_res : option SV;
  fi_restype_c : flag;
  fi_aggr_restype : bool;
}.
Arguments Build_fiction {SV}. Arguments fi_lib {SV}. Arguments fi_entry_point {SV}.
Arguments fi_symbol {SV}. Arguments fi_signature {SV}. Arguments fi_argtypes {SV}.
Arguments fi_restype {SV}. Arguments fi_res {SV}. Arguments fi_restype_c {SV}.
Arguments fi_aggr_restype {SV}.

(** The loader of the system, with its state, and the search in Perl. *)
Class Loader (SV LS : Type) := {
  lib_object : SV -> option Z;                (** of an [Affix::Lib] *)
  load_library : option (list Z) -> LS -> option (Z * LS);  (** the executable, or a path *)
  free_library : Z -> LS -> LS;
  find_symbol : LS -> Z -> list Z -> option Z;
  stat_ok : list Z -> bool;
  find_library : SV -> list Z;                (** [Affix::find_library] *)
  is_path : SV -> bool;                       (** of a [Path::Tiny] *)
}.

Section Bind.
Context {SV LS : Type} {P : Perl SV} {LD : Loader SV LS}.

Definition open_library (sv : SV) (ls : LS) : option (Z * LS) :=
  if negb (SvOK sv) && SvREADONLY sv then load_library None ls (* explicit undef *)
  else match lib_object sv with
  | Some lib => Some (lib, ls)
  | None =>
    match load_library (Some (SvPV sv)) ls with
    | Some lib => Some lib
    | None => if negb (stat_ok (SvPV sv)) then load_library (Some (find_library sv)) ls else None
    end
  end.

(** The symbol, and the name of the sub; a pair of both may be given. *)
Definition symbol_and_name (sv : SV) : C (list Z * list Z) :=
  match av_of sv with
  | Some tmp =>
    match tmp with
    | [symbol; name] =>
      symbol ← or_fault symbol;
      if negb (SvPOK symbol) then croak "Undefined symbol name"
      else name ← or_fault name; mret (SvPV symbol, SvPV name)
    | _ => croak "Expected a symbol and name"
    end
  | None =>
    if SvPOK sv then mret (SvPV sv, SvPV sv)
    else fault (* no symbol: NULL is looked up *)
  end.

(** [a->res], which later calls assign to. *)
Definition new_res (restype_c : flag) : option SV :=
  match restype_c with
  | STRUCT_FLAG => None
  | WCHAR_FLAG | WSTRING_FLAG | STDSTRING_FLAG => Some (newSVpvn [] false)
  | _ => Some newSV
  end.

(** [affix] and [wrap]: the argument types are explicit [undef] ([None]) or an
    array; the type of the result may be left out.  The result is the bound
    function and the name it is installed under ([wrap] installs none), beside
    the state of the loader, which an exception leaves as it was then. *)
Definition Affix_fiction (wrap : bool) (lib symbol : SV) (argtypes : option (option (list axt)))
    (restype : option axt) (ls : LS) : C (fiction SV * option (list Z)) * LS :=
  match open_library lib ls with
  | None => (croak "Failed to load library", ls)
  | Some (handle, ls) =>
    ('(sym, name) ← symbol_and_name symbol;
     match find_symbol ls handle sym with
     | None => croak "Failed to locate entry point named %s"
     | Some entry =>
       let c := match restype with Some t => t_numeric t | None => VOID_FLAG end in
       let signature := match argtypes with
         | Some (Some ts) => Some (map (fun t => flag_char (t_numeric t)) ts)
         | _ => None end in
       let types := match argtypes with Some (Some ts) => ts | _ => [] end in
       mret (Build_fiction handle entry sym signature types restype
               (match restype with Some t => new_res (t_numeric t) | None => None end) c
               (match c with STRUCT_FLAG => true | _ => false end),
             if wrap then None else Some name)
     end, ls)
  end.

(** The destructor of a bound function closes its library. *)
Definition Affix_DESTROY (a : fiction SV) (ls : LS) : LS := free_library (fi_lib a) ls.

(** [Affix::load_library], [Affix::free_library]. *)
Definition Affix_load_library (lib : SV) (ls : LS) : option (Z * LS) :=
  if negb (SvOK lib) && SvREADONLY lib then load_library None ls
  else load_library (Some (SvPV lib)) ls.

Definition Affix_free_library (lib : Z) (ls : LS) : LS :=
  if negb (lib =? 0) then free_library lib ls else ls.

(** An exception, or the address of a symbol or undef. *)
Definition Affix_find_symbol (lib symbol : SV) (ls : LS) : (string + option Z) * LS :=
  let opened :=
    if negb (SvOK lib) && SvREADONLY lib then load_library None ls (* explicit undef *)
    else match lib_object lib with
         | Some handle => if handle =? 0 then None else Some (handle, ls)
         | None => if SvPOK lib || is_path lib then load_library (Some (SvPV lib)) ls else None
         end in
  match opened with
  | None => (inr None, ls)
  | Some (handle, ls) =>
    match find_symbol ls handle (SvPV symbol) with
    | None => (inl "Failed to load lib %s"%string, ls)
    | Some p => (inr (Some p), ls)
    end
  end.
End Bind.

(** ** The call (Fiction_trigger) *)

Section Trigger.
Context {SV : Type} {P : Perl SV} {DM : DataModel} {AL : Allocator} {SRV : Services SV}.
Context {VM VT K R : Type} {CV : CallVM VM VT K R}.
Variable wchar_size : nat.
Variable double_to_float : Z -> Z.
Variable float_to_double : Z -> Z.
Variable sysv : bool.
Variable junk : list Z.

#[local] Abbreviation sv2ptr := (sv2ptr wchar_size double_to_float).
#[local] Abbreviation ptr2sv := (ptr2sv wchar_size float_to_double).

(** The address of a C++ string that is gone when the call is made, and what is
    on Perl's stack where no argument was. *)
Variable dead_string : Z.
Variable stack_junk : SV.

(** The character of an argument: an integer, or the first byte of a string
    (the terminator of an empty one). *)
Definition char_arg (arg : SV) : C Z :=
  if SvIOK arg then mret (SvIV arg)
  else match SvPVbyte arg with
  | None => croak "Wide character in %s"
  | Some value => mret (hd 0 value)
  end.

(** What is behind a pointer that is handed on; it is read by the callee. *)
Definition object_at (p n : Z) : C (list Z) := fun h => Ret (default [] (load p (Z.to_nat n) h)) h.

Definition push_sv (vm : VM) (c : ascii) (type : axt) (arg : SV) : C VM :=
  match flag_of_char c with
  | Some VOID_FLAG => mret vm
  | Some BOOL_FLAG => or_fault (dcArgBool vm (if SvTRUE arg then 1 else 0))
  | Some (SCHAR_FLAG | CHAR_FLAG) => x ← char_arg arg; or_fault (dcArgChar vm (conv TChar (wrapS 8 x)))
  | Some UCHAR_FLAG => x ← char_arg arg; or_fault (dcArgChar vm (conv TChar (wrapU 8 x)))
  | Some WCHAR_FLAG =>
    if SvOK arg then str ← utf2wchar arg; or_fault (dcArgLongLong vm (hd 0 str))
    else or_fault (dcArgLongLong vm 0)
  | Some SHORT_FLAG => or_fault (dcArgShort vm (conv TShort (SvIV arg)))
  | Some USHORT_FLAG => or_fault (dcArgShort vm (conv TShort (SvUV arg)))
  | Some INT_FLAG => or_fault (dcArgInt vm (conv TInt (SvIV arg)))
  | Some UINT_FLAG => or_fault (dcArgInt vm (conv TInt (SvUV arg)))
  | Some LONG_FLAG => or_fault (dcArgLong vm (conv TLong (SvIV arg)))
  | Some ULONG_FLAG => or_fault (dcArgLong vm (conv TLong (SvUV arg)))
  | Some LONGLONG_FLAG => or_fault (dcArgLongLong vm (conv TLongLong (SvIV arg)))
  | Some ULONGLONG_FLAG => or_fault (dcArgLongLong vm (conv TLongLong (SvUV arg)))
  | Some FLOAT_FLAG => or_fault (dcArgFloat vm (conv TFloat (double_to_float (SvNV arg))))
  | Some DOUBLE_FLAG => or_fault (dcArgDouble vm (conv TDouble (SvNV arg)))
  | Some WSTRING_FLAG => mret vm (* nothing is passed *)
  | Some STDSTRING_FLAG => if SvOK arg then or_fault (dcArgPointer vm dead_string) else fault
  | Some CODEREF_FLAG => p ← sv2ptr type arg 0; or_fault (dcArgPointer vm p)
  | Some POINTER_FLAG =>
    match t_subtype type with
    | Sub subtype => p ← sv2ptr subtype arg 0; or_fault (dcArgPointer vm p)
    | _ => fault
    end
  | Some STRUCT_FLAG =>
    ag ← _aggregate sysv junk type;
    p ← sv2ptr type arg 0;
    obj ← object_at p (t_sizeof type);
    or_fault (dcArgAggr vm (Some ag) {| op_addr := p; op_obj := obj |})
  | _ => croak "Unhandled argument type: %s"
  end.

(** The arguments of a signature, in step with the types and the stack. *)
Fixpoint push_svs (vm : VM) (sig : list ascii) (types : list axt) (args : list SV) : C VM :=
  match sig, types, args with
  | [], _, _ => mret vm
  | c :: sig, type :: types, arg :: args => vm ← push_sv vm c type arg; push_svs vm sig types args
  | _, _, _ => fault
  end.

(** Without a signature the arguments say what they are; integers are passed
    as [int], and anything else is skipped. *)
Definition push_untyped (vm : VM) (arg : SV) : option VM :=
  if SvNOK arg then dcArgDouble vm (conv TDouble (SvNV arg))
  else if SvUOK arg then dcArgInt vm (conv TInt (SvUV arg))
  else if SvIOK arg then dcArgInt vm (conv TInt (SvIV arg))
  else Some vm.

(** The machine: it runs the call kernel with the function behind it, which
    may use memory, and gives the result as the kernel's return type says. *)
Variable exec_void : K -> C unit.
Variable exec : cty -> K -> C Z.
Variable exec_aggr : K -> option R.

Definition char_sv (x : Z) : SV := SvIV_set (newSVpvn [wrapU 8 x] false) x.

Definition pointer_result (restype : axt) (p : Z) : C SV :=
  if p =? 0 then mret newSV
  else match t_subtype restype with
  | Sub subtype =>
    match t_numeric subtype with
    | CHAR_FLAG | UCHAR_FLAG | SCHAR_FLAG | WCHAR_FLAG | SV_FLAG => ptr2sv restype p
    | _ => mret (ptr2obj restype p)
    end
  | _ => fault
  end.

(** The call by the type of its result, and [a->res]. *)
Definition call_result (a : fiction SV) (vm : VM) (ret_aggr : option DCaggr) : C (option SV) :=
  let target := fi_entry_point a in
  let restype := or_fault (fi_restype a) in
  match fi_restype_c a with
  | VOID_FLAG => _ ← exec_void (dcCallVoid vm target); mret (fi_res a)
  | BOOL_FLAG => x ← exec TBool (dcCallBool vm target); mret (Some (newSVbool (negb (x =? 0))))
  | CHAR_FLAG | SCHAR_FLAG | UCHAR_FLAG => x ← exec TChar (dcCallChar vm target); mret (Some (char_sv x))
  | WCHAR_FLAG =>
    x ← exec TLongLong (dcCallLongLong vm target);
    mret (Some (wchar2utf [wrapS (8 * Z.of_nat wchar_size) x]))
  | SHORT_FLAG => x ← exec TShort (dcCallShort vm target); mret (Some (newSViv x))
  | USHORT_FLAG => x ← exec TShort (dcCallShort vm target); mret (Some (newSVuv (conv TUShort x)))
  | INT_FLAG => x ← exec TInt (dcCallInt vm target); mret (Some (newSViv x))
  | UINT_FLAG => x ← exec TInt (dcCallInt vm target); mret (Some (newSVuv (wrapU 64 x)))
  | LONG_FLAG => x ← exec TLong (dcCallLong vm target); mret (Some (newSViv x))
  | ULONG_FLAG => x ← exec TLong (dcCallLong vm target); mret (Some (newSVuv (wrapU 64 x)))
  | LONGLONG_FLAG => x ← exec TLongLong (dcCallLongLong vm target); mret (Some (newSViv x))
  | ULONGLONG_FLAG => x ← exec TLongLong (dcCallLongLong vm target); mret (Some (newSVuv (wrapU 64 x)))
  | FLOAT_FLAG => x ← exec TFloat (dcCallFloat vm target); mret (Some (newSVnv (float_to_double x)))
  | DOUBLE_FLAG => x ← exec TDouble (dcCallDouble vm target); mret (Some (newSVnv x))
  | POINTER_FLAG =>
    p ← exec TPointer (dcCallPointer vm target);
    restype ← restype; sv ← pointer_result restype p; mret (Some sv)
  | CODEREF_FLAG =>
    p ← exec TPointer (dcCallPointer vm target);
    restype ← restype; sv ← ptr2sv restype p; mret (Some sv)
  | STRUCT_FLAG =>
    restype ← restype;
    ret ← Newxz (t_sizeof restype);
    '(_, obj) ← or_fault (dcCallAggr exec_aggr vm target ret_aggr ret);
    _ ← Store ret obj;
    sv ← ptr2sv restype ret; mret (Some sv)
  | _ => croak "Unknown or unhandled return type: %s"
  end.

Definition Fiction_trigger (a : fiction SV) (cvm : VM) (items : list SV) : C SV :=
  vm ← or_fault (dcReset cvm);
  ret_aggr ← (if fi_aggr_restype a then
                restype ← or_fault (fi_restype a);
                ag ← _aggregate sysv junk restype; mret (Some ag)
              else mret None);
  vm ← (if fi_aggr_restype a then or_fault (dcBeginCallAggr vm ret_aggr) else mret vm);
  vm ← match fi_signature a with
       | Some sig =>
         if negb (Nat.eqb (length items) (length sig)) then croak "%s arguments for %s; expected %ld, found %ld)"
         else push_svs vm sig (fi_argtypes a) items
       | None => or_fault (foldM push_untyped vm items)
       end;
  res ← call_result a vm ret_aggr;
  mret (match res with Some sv => sv | None => hd stack_junk items end).

(** ** The handler of a callback (cbHandlerXXXXX) *)

Context {ARGS : Type} {RD : ArgReader ARGS}.
Variable call_sv : SV -> list SV -> C SV.

(** One argument for the sub; the types whose reader has a signed result are
    widened as such. *)
Definition callback_arg (c : ascii) (type : option axt) (args : ARGS) : C (list SV * ARGS) :=
  let read t := or_fault (dcbArg t args) in
  match flag_of_char c with
  | Some VOID_FLAG => mret ([], args)
  | Some BOOL_FLAG => '(x, args) ← read TBool; mret ([newSVbool (negb (x =? 0))], args)
  | Some (CHAR_FLAG | SCHAR_FLAG | UCHAR_FLAG) => '(x, args) ← read TChar; mret ([char_sv x], args)
  | Some WCHAR_FLAG =>
    '(x, args) ← read TLong;
    let c := wrapS (8 * Z.of_nat wchar_size) x in
    mret ([SvIV_set (wchar2utf [c]) c], args)
  | Some SHORT_FLAG => '(x, args) ← read TShort; mret ([newSViv x], args)
  | Some USHORT_FLAG => '(x, args) ← read TShort; mret ([newSVuv (wrapU 64 x)], args)
  | Some INT_FLAG => '(x, args) ← read TInt; mret ([newSViv x], args)
  | Some UINT_FLAG => '(x, args) ← read TInt; mret ([newSVuv (wrapU 64 x)], args)
  | Some LONG_FLAG => '(x, args) ← read TLong; mret ([newSViv x], args)
  | Some ULONG_FLAG => '(x, args) ← read TLong; mret ([newSVuv (wrapU 64 x)], args)
  | Some LONGLONG_FLAG => '(x, args) ← read TLongLong; mret ([newSViv x], args)
  | Some ULONGLONG_FLAG => '(x, args) ← read TLongLong; mret ([newSVuv (wrapU 64 x)], args)
  | Some FLOAT_FLAG => '(x, args) ← read TFloat; mret ([newSVnv (float_to_double x)], args)
  | Some DOUBLE_FLAG => '(x, args) ← read TDouble; mret ([newSVnv x], args)
  | Some POINTER_FLAG =>
    '(p, args) ← read TPointer;
    type ← or_fault type; sv ← ptr2sv type p; mret ([sv], args)
  | _ => croak "Attempt to pass unknown or unhandled type to CodeRef: %c"
  end.

Fixpoint callback_args (sig : list ascii) (types : list axt) (args : ARGS) : C (list SV * ARGS) :=
  match sig with
  | [] => mret ([], args)
  | c :: sig =>
    '(svs, args) ← callback_arg c (head types) args;
    '(rest, args) ← callback_args sig (tail types) args;
    mret (svs ++ rest, args)
  end.

(** The character of a result. *)
Definition char_result (number : SV -> Z) (sv : SV) : Z := if SvIOK sv then number sv else hd 0 (SvPV sv).

(** The member of [DCValue] that is assigned, its value, and the signature
    character of the result. *)
Definition callback_result (restype : axt) (restype_c : flag) (sv : SV) : C (cty * Z * ascii) :=
  match restype_c with
  | BOOL_FLAG => mret (TBool, if SvTRUE sv then 1 else 0, "B"%char)
  | CHAR_FLAG | SCHAR_FLAG => mret (TChar, conv TChar (char_result SvIV sv), "c"%char)
  | UCHAR_FLAG => mret (TUChar, conv TUChar (char_result SvUV sv), "C"%char)
  | WCHAR_FLAG =>
    if SvPOK sv then wc ← utf2wchar sv; mret (TLong, conv TLong (hd 0 wc), "j"%char)
    else mret (TLong, 0, "j"%char)
  | SHORT_FLAG => mret (TShort, conv TShort (SvIV sv), "s"%char)
  | USHORT_FLAG => mret (TUShort, conv TUShort (SvIV sv), "S"%char)
  | INT_FLAG => mret (TInt, conv TInt (SvIV sv), "i"%char)
  | UINT_FLAG => mret (TUInt, conv TUInt (SvIV sv), "I"%char)
  | LONG_FLAG => mret (TLong, conv TLong (SvIV sv), "j"%char)
  | ULONG_FLAG => mret (TULong, conv TULong (SvIV sv), "J"%char)
  | LONGLONG_FLAG => mret (TLongLong, conv TLongLong (conv TLong (SvIV sv)), "l"%char) (* POPl casts to long *)
  | ULONGLONG_FLAG => mret (TULongLong, conv TULongLong (SvIV sv), "L"%char)
  | FLOAT_FLAG => mret (TFloat, conv TFloat (double_to_float (SvNV sv)), "f"%char)
  | DOUBLE_FLAG => mret (TDouble, conv TDouble (SvNV sv), "d"%char)
  | POINTER_FLAG =>
    match t_subtype restype with
    | Sub subtype => p ← sv2ptr subtype sv 0; mret (TPointer, p, "p"%char)
    | _ => fault
    end
  | _ => croak "Attempt to return unknown or unhandled type from CodeRef: %c"
  end.

Definition cbHandlerXXXXX (c : CodeRef SV) (args : ARGS) : C (option (cty * Z) * ascii) :=
  '(svs, _) ← callback_args (cr_signature c) (cr_argtypes c) args;
  sv ← call_sv (cr_cv c) svs;
  match cr_restype_c c with
  | VOID_FLAG => mret (None, flag_char VOID_FLAG)
  | f => '(t, x, ch) ← callback_result (cr_restype c) f sv; mret (Some (t, x), ch)
  end.

End Trigger.
