(* ===== verification/FictionProofs.v ===== *)
(** * Calls and callbacks: what crosses the border

    The interface of a machine that can call a callback ([Machine]), the value
    of every argument and result on the other side ([delivered], [handed_back]),
    and the lemmas that follow one call from Perl to C and back into Perl. *)

From S2P Require Export MarshalProps Fiction.
From stdpp Require Import gmap.
#[local] Open Scope Z_scope.

(** ** Machines

    What a call needs of a backend: [m_ready n] VMs can be reset for [n]
    arguments; the kernel of a finished VM enters a callback whose reader finds
    the arguments that were passed; and the [DCValue] a handler filled comes
    back through the call function of the same width. *)

Definition signed_of (t : cty) : cty :=
  match t with
  | TUChar => TChar | TUShort => TShort | TUInt => TInt | TULong => TLong | TULongLong => TLongLong
  | t => t
  end.

Class Machine (VM ARGS : Type) {DM : DataModel} {VT K R : Type} `{CallVM VM VT K R}
    `{ArgReader ARGS} := {
  m_ready : nat -> VM -> Prop;
  m_fresh : nat -> VM -> Prop;
  m_enter : K -> option ARGS;                               (** the kernel enters a callback *)
  m_leave : option (cty * Z) -> ascii -> cty -> option Z;   (** and its [DCValue] comes back *)
}.

Class MachineLaws (VM ARGS : Type) `{Machine VM ARGS} : Prop := {
  m_reset : forall n vm, m_ready n vm -> exists vm', dcReset vm = Some vm' /\ m_fresh n vm';
  m_call : forall n vm l, m_fresh n vm -> (length l <= n)%nat -> Forall arg_ok l ->
    exists vf, push_args vm l = Some vf /\ forall target k,
      k = dcCallVoid vf target \/ (exists t, k = dcCall_as t vf target) ->
      exists p p', m_enter k = Some p /\ read_args (map a_ty l) p = Some (l, p');
  m_return : forall t x, val_ok t x ->
    m_leave (Some (t, x)) (sigchar_of t) (signed_of t) = Some (conv (signed_of t) x);
}.

Section Border.
Context {SV : Type} {P : Perl SV} {PL : PerlLaws SV} {DM : DataModel} {OK : DataModelOk}
  {AL : Allocator} {SRV : Services SV}.
Variable wchar_size : nat.
Variable double_to_float : Z -> Z.
Variable float_to_double : Z -> Z.
Variable sysv : bool.
Variable junk : list Z.
Variable dead_string : Z.

#[local] Abbreviation sv2ptr := (sv2ptr wchar_size double_to_float).
#[local] Abbreviation ptr2sv := (ptr2sv wchar_size float_to_double).
#[local] Abbreviation view := (view double_to_float float_to_double).

(** ** The values on the other side *)

(** The reader of an argument, for the types a callback can take. *)
Definition wire_ty (f : flag) : option cty :=
  match f with
  | BOOL_FLAG => Some TBool
  | CHAR_FLAG | SCHAR_FLAG | UCHAR_FLAG => Some TChar
  | POINTER_FLAG => Some TPointer
  | f => t ← flag_cty f; Some (signed_of t)
  end.

Definition char_of (arg : SV) : Z :=
  if SvIOK arg then SvIV arg else hd 0 (default [] (SvPVbyte arg)).

(** A pointer to something that [ptr2sv] reads as the pointee. *)
Definition pointee (type : axt) : option axt :=
  match t_subtype type with
  | Sub s =>
    if is_char (t_numeric s) then Some s
    else match t_numeric s with
    | POINTER_FLAG => None
    | _ => if t_arraylen type =? 1 then Some s else None
    end
  | _ => None
  end.

(** Arguments a callback can be given. *)
Definition passable (type : axt) (arg : SV) : bool :=
  match t_numeric type with
  | POINTER_FLAG => match pointee type with Some s => fits_value s arg | None => false end
  | CHAR_FLAG | SCHAR_FLAG | UCHAR_FLAG => SvIOK arg || negb (is_None_b (SvPVbyte arg))
  | f => negb (is_None_b (wire_ty f))
  end.

Definition number_arg (t : cty) (arg : SV) : Z :=
  match t with
  | TFloat => double_to_float (SvNV arg)
  | TDouble => SvNV arg
  | TUShort | TUInt | TULong | TULongLong => SvUV arg
  | _ => SvIV arg
  end.

(** The scalar made of a number: the readers give the signed value. *)
Definition number_out (t : cty) (x : Z) : SV :=
  match t with
  | TFloat => newSVnv (float_to_double x)
  | TDouble => newSVnv x
  | TUShort | TUInt | TULong | TULongLong => newSVuv (wrapU 64 x)
  | _ => newSViv x
  end.

Definition delivered (type : axt) (arg : SV) : SV :=
  match t_numeric type with
  | BOOL_FLAG => newSVbool (SvTRUE arg)
  | CHAR_FLAG | SCHAR_FLAG | UCHAR_FLAG => char_sv (conv TChar (char_of arg))
  | POINTER_FLAG => match pointee type with Some s => view s arg | None => newSV end
  | f =>
    match flag_cty f with
    | Some t => number_out t (conv (signed_of t) (number_arg t arg))
    | None => newSV
    end
  end.

(** ** Arguments, one at a time *)

(** The scalar for an argument that was read. *)
Definition arg_sv (type : axt) (x : Z) : C SV :=
  match t_numeric type with
  | BOOL_FLAG => mret (newSVbool (negb (x =? 0)))
  | CHAR_FLAG | SCHAR_FLAG | UCHAR_FLAG => mret (char_sv x)
  | POINTER_FLAG => ptr2sv type x
  | f => match flag_cty f with Some t => mret (number_out t x) | None => fault end
  end.

Ltac by_flag t := destruct t as [??? f]; destruct f; cbn in *; simplify_eq; try done.

Lemma callback_arg_sv {ARGS} {RD : ArgReader ARGS} type ty x (p p' : ARGS) sv h :
  wire_ty (t_numeric type) = Some ty -> dcbArg ty p = Some (x, p') -> arg_sv type x h = Ret sv h ->
  callback_arg wchar_size float_to_double (flag_char (t_numeric type)) (Some type) p h = Ret ([sv], p') h.
Proof.
  intros Hty Hr Hsv. unfold callback_arg. rewrite flag_of_flag_char. unfold arg_sv in Hsv.
  destruct (t_numeric type) eqn:E; try done; cbn in Hty; injection Hty as <-;
    unfold mbind, C_bind, or_fault; rewrite Hr; cbn beta iota; try rewrite Hsv;
    cbn in Hsv; try congruence; unfold mret, C_ret in *; congruence.
Qed.

Lemma signed_bits t : ty_bits (signed_of t) = ty_bits t.
Proof. by destruct t. Qed.

Lemma conv_idem t x : conv t (conv t x) = conv t x.
Proof. by apply conv_conv. Qed.

Lemma val_ok_of_conv t x : t <> TBool -> val_ok t (conv t x).
Proof. intros. destruct t; try done; exact (conv_idem _ x). Qed.

(** What the memory holds for a pointer that was passed. *)
Lemma ptr2sv_pointee type s p :
  t_numeric type = POINTER_FLAG -> pointee type = Some s -> p <> 0 ->
  t_numeric s <> WCHAR_FLAG -> ptr2sv type p = ptr2sv s p.
Proof.
  intros Ht Hs Hp Hw. unfold pointee in Hs. destruct (t_subtype type) as [|s'|] eqn:Esub; try done.
  destruct (is_char (t_numeric s')) eqn:Hc.
  { injection Hs as <-. by apply (ptr2sv_pointer _ _ type). }
  assert (Hl : t_arraylen type = 1 /\ s' = s /\ t_numeric s' <> POINTER_FLAG).
  { destruct (t_numeric s'); try done; destruct (Z.eqb_spec (t_arraylen type) 1); try done; by injection Hs. }
  destruct Hl as (Hl & <- & Hnp). clear -Ht Esub Hp Hw Hc Hl Hnp.
  destruct type as [??? f ???????]; cbn in *; subst. rewrite (proj2 (Z.eqb_neq p 0)) by done.
  destruct (t_numeric s'); done.
Qed.

Context {VM VT K R : Type} {CV : CallVM VM VT K R}.
#[local] Abbreviation push_sv := (push_sv wchar_size double_to_float sysv junk dead_string).

(** An argument that was passed: what was pushed, and what will be read. *)
Definition pushed (vm : VM) (type : axt) (arg : SV) (h : heap) (vm' : VM) (h' : heap) : Prop :=
  exists ty x, wire_ty (t_numeric type) = Some ty /\ push_arg vm (Arg ty x) = Some vm' /\ val_ok ty x /\
    touches (fun _ => False) h h' /\
    exists F, (forall a, F a -> h !! a = None) /\ reads (arg_sv type x) (delivered type arg) F h'.

Lemma pushed_now vm type arg h ty x vm' :
  wire_ty (t_numeric type) = Some ty -> push_arg vm (Arg ty x) = Some vm' -> val_ok ty x ->
  (forall h, arg_sv type x h = Ret (delivered type arg) h) -> pushed vm type arg h vm' h.
Proof.
  intros Hty Hp Hx Hsv. exists ty, x. split_and!; try done. exists (fun _ => False). split; [done|].
  split; [done|]. intros h' _. apply Hsv.
Qed.

Lemma wp_or_fault {A} (o : option A) h (Q : A -> heap -> Prop) x : o = Some x -> Q x h -> wp (or_fault o) h Q.
Proof. by intros ->. Qed.

Lemma push_number vm type t arg h :
  flag_cty (t_numeric type) = Some t -> (forall a, arg_ok a -> is_Some (push_arg vm a)) ->
  wp (push_sv vm (flag_char (t_numeric type)) type arg) h (pushed vm type arg h).
Proof.
  intros Ht Hp. set (x := conv (signed_of t) (number_arg t arg)).
  assert (Hx : val_ok (signed_of t) x) by (apply val_ok_of_conv; clear -Ht; by_flag type).
  destruct (Hp (Arg (signed_of t) x) Hx) as [vm' Hvm].
  apply (wp_mono _ _ (fun v h' => v = vm' /\ h' = h)).
  - unfold push_sv. rewrite flag_of_flag_char. unfold push_arg in Hvm.
    clear Hx Hp. subst x. destruct (t_numeric type) eqn:E; try done; injection Ht as <-;
      cbn [a_ty a_val signed_of number_arg] in Hvm; by apply (wp_or_fault _ _ _ _ Hvm).
  - intros v h' [-> ->]. apply (pushed_now _ _ _ _ (signed_of t) x); try done.
    + clear -Ht. by_flag type.
    + intros h1. subst x. unfold arg_sv, delivered. clear -Ht. destruct (t_numeric type); try done; by rewrite Ht.
Qed.

Lemma push_pointer vm type s arg h :
  t_numeric type = POINTER_FLAG -> pointee type = Some s -> fits_value s arg = true ->
  (forall a, arg_ok a -> is_Some (push_arg vm a)) ->
  wp (push_sv vm (flag_char (t_numeric type)) type arg) h (pushed vm type arg h).
Proof.
  intros Ht Hs Hfit Hp. unfold push_sv. rewrite flag_of_flag_char, Ht.
  assert (Hsub : t_subtype type = Sub s).
  { unfold pointee in Hs. destruct (t_subtype type) as [|s'|]; try done. repeat case_match; congruence. }
  rewrite Hsub. apply wp_bind. eapply wp_mono; [by apply (marshal_placed wchar_size double_to_float float_to_double)|].
  intros q h' (Hq & Htch & F & HF & Hr).
  assert (Hx : val_ok TPointer q) by (apply wrapU_id; unfold in_u; lia).
  destruct (Hp (Arg TPointer q) Hx) as [vm' Hvm]. apply (wp_or_fault _ _ _ vm'); [done|].
  exists TPointer, q. split_and!; try done; [by rewrite Ht|]. exists F. split; [done|].
  unfold arg_sv, delivered. rewrite Ht, Hs.
  assert (Hw : t_numeric s <> WCHAR_FLAG).
  { clear -Hfit. unfold fits_value in Hfit. by_flag s. }
  destruct Hr as [Hd Hr]. split; [done|]. intros h2 H2. rewrite (ptr2sv_pointee type s) by (done || lia). by apply Hr.
Qed.

Lemma char_arg_ret arg h :
  SvIOK arg || negb (is_None_b (SvPVbyte arg)) = true -> char_arg arg h = Ret (char_of arg) h.
Proof. unfold char_arg, char_of. destruct (SvIOK arg); [done|]. by destruct (SvPVbyte arg). Qed.

Lemma push_char vm type arg h :
  is_char (t_numeric type) = true -> SvIOK arg || negb (is_None_b (SvPVbyte arg)) = true ->
  (forall a, arg_ok a -> is_Some (push_arg vm a)) ->
  wp (push_sv vm (flag_char (t_numeric type)) type arg) h (pushed vm type arg h).
Proof.
  intros Hc Hf Hp. assert (Hx : val_ok TChar (conv TChar (char_of arg))) by (exact (conv_idem TChar _)).
  destruct (Hp (Arg TChar (conv TChar (char_of arg))) Hx) as [vm' Hvm]. unfold push_arg in Hvm. cbn [a_ty a_val] in Hvm.
  assert (E : push_sv vm (flag_char (t_numeric type)) type arg h = Ret vm' h).
  { unfold push_sv. rewrite flag_of_flag_char.
    pose proof (conv_wrapS TChar 8 (char_of arg) ltac:(done)) as ES.
    pose proof (conv_wrapU TChar 8 (char_of arg) ltac:(done)) as EU.
    destruct (t_numeric type); try done; unfold mbind, C_bind; rewrite char_arg_ret by done; cbn beta iota;
      unfold or_fault; by rewrite ?ES, ?EU, Hvm. }
  unfold wp. rewrite E. apply (pushed_now _ _ _ _ TChar (conv TChar (char_of arg))); try done.
  - clear -Hc. by_flag type.
  - intros h1. unfold arg_sv, delivered. clear -Hc. destruct (t_numeric type); done.
Qed.

Lemma push_passable vm type arg h :
  passable type arg = true -> (forall a, arg_ok a -> is_Some (push_arg vm a)) ->
  wp (push_sv vm (flag_char (t_numeric type)) type arg) h (pushed vm type arg h).
Proof.
  intros Hf Hp. destruct (flag_cty (t_numeric type)) as [t|] eqn:Ht; [by apply (push_number _ _ t)|].
  assert (Hone : forall ty x, val_ok ty x -> exists vm', push_arg vm (Arg ty x) = Some vm') by (intros; by apply Hp).
  unfold passable in Hf. destruct (t_numeric type) eqn:E; try done.
  { destruct (Hone TBool (if SvTRUE arg then 1 else 0)) as [vm' Hvm]; [destruct (SvTRUE arg); cbn; tauto|].
    apply (wp_or_fault _ _ _ vm'); [exact Hvm|]. eapply pushed_now; [by rewrite E|exact Hvm| |].
    + destruct (SvTRUE arg); cbn; tauto.
    + intros h'. unfold arg_sv, delivered. rewrite E. by destruct (SvTRUE arg). }
  1-3: by (rewrite <- E; apply push_char; [rewrite E|..]).
  rewrite <- E. destruct (pointee type) as [s|] eqn:Es; [|done]. by apply (push_pointer vm type s).
Qed.

(** ** Argument lists *)

Definition sig_of (types : list axt) : list ascii := map (fun t => flag_char (t_numeric t)) types.

(** The callback will read these scalars. *)
Definition found (types : list axt) (l : list arg) (svs : list SV) (h : heap) : Prop :=
  Forall3 (fun type a sv => wire_ty (t_numeric type) = Some (a_ty a) /\
                            arg_sv type (a_val a) h = Ret sv h) types l svs.

Lemma push_args_app vm l1 l2 :
  push_args vm (l1 ++ l2) = (vm ← push_args vm l1; push_args vm l2).
Proof.
  revert vm. induction l1 as [|a l1 IH]; intros vm; [done|]. unfold push_args in *. cbn [app foldM].
  destruct (push_arg vm a); [apply IH|done].
Qed.

Lemma push_svs_found n vm0 types args :
  (forall l, (length l <= n)%nat -> Forall arg_ok l -> is_Some (push_args vm0 l)) ->
  Forall2 (fun type arg => passable type arg = true) types args ->
  forall l0 vm h, push_args vm0 l0 = Some vm -> Forall arg_ok l0 -> (length l0 + length types <= n)%nat ->
  wp (push_svs wchar_size double_to_float sysv junk dead_string vm (sig_of types) types args) h
    (fun vf h' => exists l, push_args vm0 (l0 ++ l) = Some vf /\ Forall arg_ok l /\
       length l = length types /\ touches (fun _ => False) h h' /\
       found types l (zip_with delivered types args) h').
Proof.
  intros Hroom Hpass. induction Hpass as [|type arg types args Hf _ IH]; intros l0 vm h Hp Hok Hn.
  - apply wp_ret. exists []. rewrite app_nil_r. split_and!; try done. constructor.
  - cbn [sig_of map push_svs length] in *. apply wp_bind.
    eapply wp_mono; [apply (push_passable vm type arg h Hf)|].
    { intros a Ha. destruct (Hroom (l0 ++ [a])) as [v Hv].
      - rewrite length_app. cbn. lia.
      - apply Forall_app. split; [done|]. by constructor.
      - rewrite push_args_app, Hp in Hv. unfold push_args in Hv. cbn in Hv.
        destruct (push_arg vm a); [by eexists|done]. }
    intros vm1 h1 (ty & x & Hty & Hp1 & Hx & Ht1 & F & HF & Hr).
    eapply wp_mono; [apply (IH (l0 ++ [Arg ty x]) vm1 h1)|].
    + rewrite push_args_app, Hp. unfold push_args. cbn. by rewrite Hp1.
    + apply Forall_app. split; [done|]. by constructor.
    + rewrite length_app. cbn. lia.
    + intros vf h2 (l & Hpf & Hl & Hlen & Ht2 & Hfound). exists (Arg ty x :: l). rewrite <- app_assoc in Hpf.
      split_and!; [exact Hpf|by constructor|cbn; by rewrite Hlen|by eapply touches_trans|].
      constructor; [|done]. split; [done|]. cbn [a_val].
      apply (reads_now _ _ F). by eapply reads_touches; [|exact Ht2|auto].
Qed.

Lemma callback_args_found {ARGS} {RD : ArgReader ARGS} types l svs h : forall (p p' : ARGS),
  found types l svs h -> read_args (map a_ty l) p = Some (l, p') ->
  callback_args wchar_size float_to_double (sig_of types) types p h = Ret (svs, p') h.
Proof.
  intros p p' Hf. revert p p'. induction Hf as [|type a sv types l svs [Hty Hsv] _ IH]; intros p p' Hr.
  - cbn in Hr. injection Hr as <-. done.
  - cbn [map read_args] in Hr. apply bind_Some in Hr as ([x p1] & Hd & ([l' p2] & Hr & [= Hax Hl <-])%bind_Some).
    assert (x = a_val a) as -> by (by rewrite <- Hax). subst l'.
    cbn [sig_of map callback_args]. unfold mbind at 1, C_bind at 1. cbn [head tail].
    rewrite (callback_arg_sv type (a_ty a) (a_val a) p p1 sv h) by done. cbn beta iota.
    unfold mbind, C_bind. unfold sig_of in IH. rewrite (IH _ _ Hr). done.
Qed.

(** ** Results *)

(** The member of [DCValue] a result goes to. *)
Definition result_cty (f : flag) : option cty :=
  match f with
  | BOOL_FLAG => Some TBool
  | CHAR_FLAG | SCHAR_FLAG => Some TChar
  | UCHAR_FLAG => Some TUChar
  | POINTER_FLAG => Some TPointer
  | f => flag_cty f
  end.

(** Results of a sub that a callback can hand back. *)
Definition returnable (rt : axt) (r : SV) : bool :=
  match t_numeric rt with
  | VOID_FLAG => true
  | POINTER_FLAG => is_string rt && string_ok r
  | f => negb (is_None_b (result_cty f))
  end.

Definition number_res (t : cty) (r : SV) : Z :=
  match t with
  | TFloat => double_to_float (SvNV r)
  | TDouble => SvNV r
  | TLongLong => conv TLong (SvIV r)
  | _ => SvIV r
  end.

(** The scalar made of a number that was returned; only [unsigned short] is
    cast back. *)
Definition number_back (t : cty) (x : Z) : SV :=
  match t with TUShort => newSVuv (conv TUShort x) | _ => number_out t x end.

Definition handed_back (rt : axt) (r : SV) : SV :=
  match t_numeric rt with
  | BOOL_FLAG => newSVbool (SvTRUE r)
  | CHAR_FLAG | SCHAR_FLAG => char_sv (conv TChar (char_result SvIV r))
  | UCHAR_FLAG => char_sv (conv TChar (char_result SvUV r))
  | POINTER_FLAG => string_view r
  | f =>
    match flag_cty f with
    | Some t => number_back t (conv (signed_of t) (number_res t r))
    | None => newSV
    end
  end.

(** The scalar of a call by its result. *)
Definition result_sv (rt : axt) (x : Z) : C SV :=
  match t_numeric rt with
  | BOOL_FLAG => mret (newSVbool (negb (x =? 0)))
  | CHAR_FLAG | SCHAR_FLAG | UCHAR_FLAG => mret (char_sv x)
  | POINTER_FLAG => pointer_result wchar_size float_to_double rt x
  | f => match flag_cty f with Some t => mret (number_back t x) | None => fault end
  end.

Lemma handed_back_number rt t r :
  flag_cty (t_numeric rt) = Some t ->
  handed_back rt r = number_back t (conv (signed_of t) (number_res t r)) /\
  (forall x h, result_sv rt x h = Ret (number_back t x) h) /\ result_cty (t_numeric rt) = Some t /\ t <> TBool.
Proof. intros Ht. unfold handed_back, result_sv. by_flag rt. Qed.

(** A result that is on its way: the member of [DCValue], and the scalar the
    caller will make of what comes back. *)
Definition coming_back (rt : axt) (r : SV) (h : heap) (v : cty * Z * ascii) (h' : heap) : Prop :=
  let '(t, x, ch) := v in
  result_cty (t_numeric rt) = Some t /\ ch = sigchar_of t /\ val_ok t x /\
  result_sv rt (conv (signed_of t) x) h' = Ret (handed_back rt r) h'.

Lemma conv_signed t x : conv (signed_of t) (conv t x) = conv (signed_of t) x.
Proof. apply conv_conv. by rewrite signed_bits. Qed.

Lemma result_scalar rt t x ch r h (m : C (cty * Z * ascii)) :
  (forall h, m h = Ret (t, x, ch) h) -> result_cty (t_numeric rt) = Some t -> ch = sigchar_of t -> val_ok t x ->
  (forall h, result_sv rt (conv (signed_of t) x) h = Ret (handed_back rt r) h) ->
  wp m h (coming_back rt r h).
Proof. intros Hm ????. unfold wp. rewrite Hm. split_and!; done. Qed.

#[local] Abbreviation callback_result := (callback_result wchar_size double_to_float).

Lemma result_pointer rt r h :
  t_numeric rt = POINTER_FLAG -> is_string rt = true -> string_ok r = true ->
  wp (callback_result rt (t_numeric rt) r) h (coming_back rt r h).
Proof.
  intros Ht Hs Hr. rewrite Ht. unfold is_string in Hs. unfold Fiction.callback_result.
  destruct (t_subtype rt) as [|s|] eqn:Esub; try done.
  rewrite !andb_true_iff in Hs. destruct Hs as [[[H1 H2%negb_true_iff] H3] H4].
  pose proof (string_ok_defined r Hr) as Hok.
  destruct (sv2ptr_chars wchar_size double_to_float s r 0 H4 Hok) as [u ->].
  apply wp_bind. eapply wp_mono; [by apply string_stored|]. intros q h' (Hq & _ & F & _ & Hrd).
  apply wp_ret. unfold coming_back. rewrite Ht. split_and!; try done.
  { apply wrapU_id. unfold in_u. lia. }
  unfold result_sv, handed_back. rewrite Ht. cbn [signed_of conv].
  rewrite wrapU_id by (unfold in_u; lia). unfold pointer_result.
  rewrite (proj2 (Z.eqb_neq q 0)), Esub by lia.
  assert (E : ptr2sv rt q h' = Ret (string_view r) h').
  { rewrite (ptr2sv_pointer _ _ rt s), (ptr2sv_chars _ _ s) by (done || lia). by apply (reads_now _ _ F). }
  destruct (t_numeric s); done.
Qed.

Lemma result_number rt t r h :
  flag_cty (t_numeric rt) = Some t ->
  wp (callback_result rt (t_numeric rt) r) h (coming_back rt r h).
Proof.
  intros Ht. destruct (handed_back_number rt t r Ht) as (Hb & Hsv & Hc & Hne).
  apply (result_scalar _ t (conv t (number_res t r)) (sigchar_of t)); try done.
  - intros h'. clear -Ht. by_flag rt.
  - by apply val_ok_of_conv.
  - intros h'. by rewrite Hb, conv_signed, Hsv.
Qed.

Lemma result_returnable rt r h :
  t_numeric rt <> VOID_FLAG -> returnable rt r = true ->
  wp (callback_result rt (t_numeric rt) r) h (coming_back rt r h).
Proof.
  intros Hv Hr. destruct (flag_cty (t_numeric rt)) as [t|] eqn:Ht; [by apply (result_number _ t)|].
  unfold returnable in Hr. destruct (t_numeric rt) eqn:E; try done.
  - eapply result_scalar; [done|by rewrite E|done|destruct (SvTRUE r); cbn; tauto|].
    intros h'. unfold result_sv, handed_back. rewrite E. by destruct (SvTRUE r).
  - eapply result_scalar; [done|by rewrite E|done|exact (conv_idem _ _)|].
    intros h'. unfold result_sv, handed_back. rewrite E. cbn [signed_of]. by rewrite conv_idem.
  - eapply result_scalar; [done|by rewrite E|done|exact (conv_idem _ _)|].
    intros h'. unfold result_sv, handed_back. rewrite E. cbn [signed_of]. by rewrite conv_idem.
  - eapply result_scalar; [done|by rewrite E|done|exact (conv_idem TUChar _)|].
    intros h'. unfold result_sv, handed_back. rewrite E. exact (f_equal (fun z => Ret (char_sv z) h') (conv_signed TUChar _)).
  - apply andb_prop in Hr as [??]. rewrite <- E. by apply result_pointer.
Qed.

(** ** The whole way *)

Context {ARGS : Type} {RD : ArgReader ARGS} {M : Machine VM ARGS} {ML : MachineLaws VM ARGS}.
Variable call_sv : SV -> list SV -> C SV.
Variable exec_aggr : K -> option R.
Variable stack_junk : SV.

(** The function behind the entry point is a callback with the sub of [c]. *)
Definition perl_exec (c : CodeRef SV) (t : cty) (k : K) : C Z :=
  args ← or_fault (m_enter k);
  '(v, ch) ← cbHandlerXXXXX wchar_size double_to_float float_to_double call_sv c args;
  or_fault (m_leave v ch t).

Definition perl_exec_void (c : CodeRef SV) (k : K) : C unit :=
  args ← or_fault (m_enter k);
  _ ← cbHandlerXXXXX wchar_size double_to_float float_to_double call_sv c args;
  mret tt.

(** A function that was bound with these types, and a callback of them. *)
Record bound (types : list axt) (rt : axt) (a : fiction SV) : Prop := {
  b_signature : fi_signature a = Some (sig_of types);
  b_argtypes : fi_argtypes a = types;
  b_restype : fi_restype a = Some rt;
  b_restype_c : fi_restype_c a = t_numeric rt;
  b_aggr : fi_aggr_restype a = match t_numeric rt with STRUCT_FLAG => true | _ => false end;
}.

Record coderef_of (types : list axt) (rt : axt) (c : CodeRef SV) : Prop := {
  c_signature : cr_signature c = sig_of types;
  c_argtypes : cr_argtypes c = types;
  c_restype : cr_restype c = rt;
  c_restype_c : cr_restype_c c = t_numeric rt;
}.

Lemma Affix_fiction_bound {LS : Type} {LD : Loader SV LS} wrap lib symbol types rt (ls ls' : LS) m h a name h' :
  Affix_fiction wrap lib symbol (Some (Some types)) (Some rt) ls = (m, ls') -> m h = Ret (a, name) h' ->
  bound types rt a.
Proof.
  unfold Affix_fiction. destruct (open_library lib ls) as [[handle ls1]|]; intros [= <- _]; [|done].
  unfold mbind, C_bind.
  destruct (symbol_and_name symbol h) as [[sym nm] h1| | |]; try done.
  destruct (find_symbol ls1 handle sym); [|done]. intros [= <- _ _]. by constructor.
Qed.

#[local] Abbreviation call_result :=
  (call_result wchar_size float_to_double).

(** The call by the type of the result. *)
Lemma call_result_as types rt a vm ag c t h :
  bound types rt a -> result_cty (t_numeric rt) = Some t ->
  call_result (perl_exec_void c) (perl_exec c) exec_aggr a vm ag h
  = (x ← perl_exec c (signed_of t) (dcCall_as (signed_of t) vm (fi_entry_point a));
     sv ← result_sv rt x; mret (Some sv)) h.
Proof.
  intros [_ _ Hrt Hc _] Ht. unfold Fiction.call_result, result_sv. rewrite Hrt, Hc.
  destruct (t_numeric rt); try done; injection Ht as <-; cbn [signed_of dcCall_as];
    unfold mbind, C_bind, or_fault; repeat (case_match; try done).
Qed.

(** The handler, given arguments that will be found. *)
Lemma handler_runs types rt c l svs (p p' : ARGS) h :
  coderef_of types rt c -> found types l svs h -> read_args (map a_ty l) p = Some (l, p') ->
  wp (call_sv (cr_cv c) svs) h (fun r _ => returnable rt r = true) ->
  wp (cbHandlerXXXXX wchar_size double_to_float float_to_double call_sv c p) h (fun v h' =>
    exists r h1, call_sv (cr_cv c) svs h = Ret r h1 /\ 
      (t_numeric rt <> VOID_FLAG -> exists t x ch, v = (Some (t, x), ch) /\ coming_back rt r h1 (t, x, ch) h')).
Proof.
  intros [Hsig Htys Hrt Hc] Hf Hr Hsub. unfold cbHandlerXXXXX. rewrite Hsig, Htys.
  unfold wp at 1, mbind at 1, C_bind at 1. rewrite (callback_args_found _ _ _ _ p p' Hf Hr). cbn beta iota.
  change (wp (sv ← call_sv (cr_cv c) svs;
    match cr_restype_c c with
    | VOID_FLAG => mret (None, flag_char VOID_FLAG)
    | f => '(t, x, ch) ← callback_result (cr_restype c) f sv; mret (Some (t, x), ch)
    end) h (fun v h' => exists r h1, call_sv (cr_cv c) svs h = Ret r h1 /\
      (t_numeric rt <> VOID_FLAG -> exists t x ch, v = (Some (t, x), ch) /\ coming_back rt r h1 (t, x, ch) h'))).
  unfold wp in Hsub. unfold wp, mbind, C_bind. destruct (call_sv (cr_cv c) svs h) as [r h1| | |] eqn:E; try done.
  rewrite Hc, Hrt. destruct (decide (t_numeric rt = VOID_FLAG)) as [->|Hv]; [by exists r, h1|].
  pose proof (result_returnable rt r h1 Hv Hsub) as Hw. unfold wp in Hw.
  destruct (t_numeric rt); try done;
    destruct (callback_result rt _ r h1) as [[[t x] ch] h2| | |]; try done;
    (exists r, h1; split; [done|]; intros _; by exists t, x, ch).
Qed.

(** A finished VM calls the callback. *)
Lemma call_runs types rt a c vm ag l svs h :
  bound types rt a -> coderef_of types rt c -> found types l svs h ->
  t_numeric rt = VOID_FLAG \/ is_Some (result_cty (t_numeric rt)) ->
  (forall target k, k = dcCallVoid vm target \/ (exists t, k = dcCall_as t vm target) ->
     exists p p', m_enter k = Some p /\ read_args (map a_ty l) p = Some (l, p')) ->
  wp (call_sv (cr_cv c) svs) h (fun r _ => returnable rt r = true) ->
  wp (call_result (perl_exec_void c) (perl_exec c) exec_aggr a vm ag) h (fun v h2 =>
    exists r h1, call_sv (cr_cv c) svs h = Ret r h1 /\
      v = match t_numeric rt with VOID_FLAG => fi_res a | _ => Some (handed_back rt r) end).
Proof.
  intros Hb Hc Hf Hty Hk Hsub. destruct (decide (t_numeric rt = VOID_FLAG)) as [Hv|Hv].
  - destruct (Hk (fi_entry_point a) _ (or_introl eq_refl)) as (p & p' & He & Hr).
    unfold Fiction.call_result. rewrite (b_restype_c _ _ _ Hb), Hv. apply wp_bind.
    unfold perl_exec_void. apply wp_bind. rewrite He. apply wp_ret, wp_bind.
    eapply wp_mono; [by apply (handler_runs types rt c l svs p p')|].
    intros v h' (r & h1 & Hr1 & _). apply wp_ret, wp_ret. by exists r, h1.
  - destruct (result_cty (t_numeric rt)) as [t|] eqn:Ht.
    + unfold wp. rewrite (call_result_as types rt a vm ag c t h Hb Ht).
      destruct (Hk (fi_entry_point a) _ (or_intror (ex_intro _ (signed_of t) eq_refl))) as (p & p' & He & Hr).
      apply wp_bind. unfold perl_exec. apply wp_bind. rewrite He. apply wp_ret, wp_bind.
      eapply wp_mono; [by apply (handler_runs types rt c l svs p p')|].
      intros v h' (r & h1 & Hr1 & Hback).
      destruct (Hback Hv) as (t' & x & ch & -> & Ht' & -> & Hx & Hsv).
      assert (t' = t) as -> by congruence. rewrite (m_return _ _ Hx). apply wp_ret, wp_bind.
      unfold wp at 1. rewrite Hsv. apply wp_ret. exists r, h1. split; [done|]. by destruct (t_numeric rt).
    + destruct Hty as [?|[? ?]]; done.
Qed.

(** The types of results a callback knows. *)
Definition result_type (rt : axt) : bool :=
  match t_numeric rt with VOID_FLAG => true | f => negb (is_None_b (result_cty f)) end.

(** A call of a function that is a callback, for arguments and results the
    border lets pass: the sub is called with the scalars of [delivered], and
    its result comes back as the scalar of [handed_back].  Memory that was
    there before is as it was when the sub is called. *)
Lemma trigger_runs types rt a c vm args h :
  bound types rt a -> coderef_of types rt c -> result_type rt = true -> m_ready (length types) vm ->
  Forall2 (fun type arg => passable type arg = true) types args ->
  (forall h', wp (call_sv (cr_cv c) (zip_with delivered types args)) h' (fun r _ => returnable rt r = true)) ->
  wp (Fiction_trigger wchar_size double_to_float float_to_double sysv junk dead_string stack_junk
        (perl_exec_void c) (perl_exec c) exec_aggr a vm args) h (fun v _ =>
    exists r h0 h1, touches (fun _ => False) h h0 /\
      call_sv (cr_cv c) (zip_with delivered types args) h0 = Ret r h1 /\
      v = match t_numeric rt with
          | VOID_FLAG => match fi_res a with Some sv => sv | None => hd stack_junk args end
          | _ => handed_back rt r
          end).
Proof.
  intros Hb Hc Hrt Hready Hpass Hsub. unfold Fiction_trigger.
  destruct (m_reset _ _ Hready) as (vm0 & Hreset & Hfresh).
  assert (Hag : fi_aggr_restype a = false).
  { rewrite (b_aggr _ _ _ Hb). unfold result_type in Hrt. by destruct (t_numeric rt). }
  rewrite Hag, (b_signature _ _ _ Hb), (b_argtypes _ _ _ Hb). apply wp_bind, (wp_or_fault _ _ _ vm0 Hreset).
  apply wp_bind, wp_ret, wp_bind, wp_ret, wp_bind.
  assert (Hlen : length args = length (sig_of types)).
  { unfold sig_of. rewrite length_map. symmetry. by eapply Forall2_length. }
  rewrite Hlen, Nat.eqb_refl. cbn [negb].
  eapply wp_mono; [apply (push_svs_found (length types) vm0 types args) with (l0 := [])|]; try done.
  { intros l Hl Hok. destruct (m_call _ _ l Hfresh Hl Hok) as (vf & Hp & _). by exists vf. }
  cbn [app]. intros vf h0 (l & Hp & Hok & Hll & Htch & Hfound). apply wp_bind.
  destruct (m_call _ _ l Hfresh ltac:(lia) Hok) as (vf' & Hp' & Hk). rewrite Hp in Hp'. injection Hp' as <-.
  eapply wp_mono; [eapply (call_runs types rt a c vf None l); try done|].
  { unfold result_type in Hrt. destruct (t_numeric rt); try (by left); right; by destruct (result_cty _). }
  cbn beta. intros v h2 (r & h1 & Hr & ->). apply wp_ret. exists r, h0, h1. split_and!; try done.
  by destruct (t_numeric rt).
Qed.
End Border.
