(* ===== verification/FictionProps.v ===== *)
(** * Calls and callbacks: what Perl code can rely on

    Which values mean the same on both sides, and that affixed functions and
    callbacks are transparent for them on every machine. *)

From S2P Require Export FictionProofs.
From stdpp Require Import gmap.
#[local] Open Scope Z_scope.

(** ** Values that mean the same on both sides *)

#[local] Ltac by_flag t := destruct t as [??? f]; destruct f; cbn in *; simplify_eq; try done.

Section Meaning.
Context {SV : Type} {P : Perl SV} {PL : PerlLaws SV} {DM : DataModel} {OK : DataModelOk}.
Context {AL : Allocator} {SRV : Services SV}.
Variable double_to_float : Z -> Z.
Variable float_to_double : Z -> Z.

#[local] Abbreviation delivered := (delivered double_to_float float_to_double).
#[local] Abbreviation handed_back := (handed_back double_to_float float_to_double).
#[local] Abbreviation float_exact d := (float_to_double (conv TFloat (double_to_float d)) =? d).

(** A number in the range of its type; unsigned types narrower than 64 bits are
    read as signed ones, so that their range is half. *)
Definition number_in_range (t : cty) (d : SV) : bool :=
  match t with
  | TFloat => float_exact (SvNV d)
  | TDouble => true
  | TUShort | TUInt | TULong | TULongLong =>
    (ty_bits t =? 64) || (SvUV d <? 2 ^ (ty_bits t - 1))
  | t => conv t (SvIV d) =? SvIV d
  end.

Definition in_range (type : axt) (d : SV) : bool :=
  match t_numeric type with
  | CHAR_FLAG | SCHAR_FLAG | UCHAR_FLAG => conv TChar (char_of d) =? char_of d
  | POINTER_FLAG =>
    match pointee type with Some s => exact double_to_float float_to_double s d | None => false end
  | f => match flag_cty f with Some t => number_in_range t d | None => true end
  end.

(** The same truth value, number, character, or what a pointer leads to. *)
Definition means (type : axt) (d v : SV) : Prop :=
  match t_numeric type with
  | BOOL_FLAG => SvTRUE v = SvTRUE d
  | CHAR_FLAG | SCHAR_FLAG | UCHAR_FLAG => SvIV v = char_of d
  | POINTER_FLAG =>
    match pointee type with
    | Some s => if is_char (t_numeric s) then SvPV v = SvPV d else same s d v
    | None => False
    end
  | f =>
    match flag_cty f with
    | Some (TFloat | TDouble) => SvNV v = SvNV d
    | Some (TUShort | TUInt | TULong | TULongLong) => SvUV v = SvUV d
    | Some _ => SvIV v = SvIV d
    | None => True
    end
  end.

(** Results: what a sub returned for an unsigned type was an integer, and for a
    character one, too; [unsigned short] has its whole range, [long long] that
    of [long]. *)
Definition result_in_range (rt : axt) (r : SV) : bool :=
  match t_numeric rt with
  | CHAR_FLAG | SCHAR_FLAG | UCHAR_FLAG => in_range rt r && SvIOK r && (SvIV r =? SvUV r)
  | LONGLONG_FLAG => conv TLong (SvIV r) =? SvIV r
  | USHORT_FLAG => (SvIV r =? SvUV r) && (SvUV r <? 2 ^ 16)
  | UINT_FLAG | ULONG_FLAG | ULONGLONG_FLAG => in_range rt r && (wrapU 64 (SvIV r) =? SvUV r)
  | _ => in_range rt r
  end.

Lemma wrapU_signed t u :
  in_u 64 u -> (ty_bits t =? 64) || (u <? 2 ^ (ty_bits t - 1)) = true ->
  signed_of t <> t -> t <> TUChar -> wrapU 64 (conv (signed_of t) u) = u.
Proof.
  intros Hu Hr Ht Hc. pose proof (ty_bits_pos t) as Hb.
  assert (E : conv (signed_of t) u = wrapS (ty_bits t) u) by (by destruct t).
  rewrite E. apply orb_prop in Hr as [Hr%Z.eqb_eq|Hr%Z.ltb_lt].
  - rewrite Hr, wrapU_wrapS by lia. by apply wrapU_id.
  - rewrite wrapS_id; [by apply wrapU_id|lia|]. unfold in_s, in_u in *. lia.
Qed.

Lemma number_means t d :
  t <> TBool -> t <> TUChar -> number_in_range t d = true ->
  let v := number_out float_to_double t (conv (signed_of t) (number_arg double_to_float t d)) in
  match t with
  | TFloat | TDouble => SvNV v = SvNV d
  | TUShort | TUInt | TULong | TULongLong => SvUV v = SvUV d
  | _ => SvIV v = SvIV d
  end.
Proof.
  intros Hb Hc Hr v. subst v. pose proof (SvIV_range d) as HI. pose proof (SvUV_range d) as HU.
  pose proof (SvNV_range d) as HN.
  destruct t; try done; cbn [number_in_range number_out number_arg] in *.
  all: try (rewrite wrapU_signed by done; by apply newSVuv_uv).
  all: try (apply Z.eqb_eq in Hr; cbn [signed_of]; rewrite Hr; first [by apply newSViv_iv | by apply newSVnv_nv]).
  cbn [signed_of conv]. rewrite wrapU_id by done. by apply newSVnv_nv.
Qed.


Lemma char_means (x : Z) : conv TChar x = x -> SvIV (char_sv (conv TChar x)) = x.
Proof.
  intros E. unfold char_sv. rewrite E. apply SvIV_set_iv. rewrite <- E. cbn [conv]. unfold in_s.
  destruct dm_char_signed; [pose proof (wrapS_range 8 x)|pose proof (wrapU_range 8 x)]; unfold in_s, in_u in *; lia.
Qed.

Lemma arrives type d :
  passable type d = true -> in_range type d = true -> means type d (delivered type d).
Proof.
  intros Hp Hr. destruct (flag_cty (t_numeric type)) as [t|] eqn:Ht.
  { assert (Hm : forall v, v = number_out float_to_double t (conv (signed_of t) (number_arg double_to_float t d)) ->
      number_in_range t d = true -> means type d v).
    { intros v -> Hn. pose proof (number_means t d ltac:(clear -Ht; by_flag type) ltac:(clear -Ht; by_flag type) Hn) as H.
      unfold means. clear -H Ht. destruct (t_numeric type); try done; injection Ht as <-; exact H. }
    apply Hm; unfold delivered, in_range in *; clear -Hr Ht; destruct (t_numeric type); try done; injection Ht as <-; done. }
  unfold passable, in_range, means, delivered in *.
  destruct (t_numeric type) eqn:E; try done.
  - apply newSVbool_true.
  - apply char_means. by apply Z.eqb_eq.
  - apply char_means. by apply Z.eqb_eq.
  - apply char_means. by apply Z.eqb_eq.
  - destruct (pointee type) as [s|]; [|done]. unfold fits_value in Hp.
    destruct (is_char (t_numeric s)) eqn:Hc; [|by apply same_view].
    assert (Hv : view double_to_float float_to_double s d = string_view d) by (clear -Hc; by_flag s).
    rewrite Hv. apply same_string_view.
Qed.

Lemma ushort_back u : 0 <= u < 2 ^ 16 -> conv TUShort (conv TShort u) = u.
Proof. intros Hu. cbn. rewrite wrapU_wrapS by lia. by apply wrapU_id. Qed.

Lemma comes_back rt r :
  t_numeric rt <> VOID_FLAG -> result_type rt = true -> returnable rt r = true ->
  result_in_range rt r = true -> means rt r (handed_back rt r).
Proof.
  intros Hv Hty Hok Hr. pose proof (SvIV_range r) as HI. pose proof (SvUV_range r) as HU.
  assert (Huns : forall t, in_u 64 (SvUV r) -> wrapU 64 (SvIV r) = SvUV r ->
    number_in_range t r = true -> (t = TUInt \/ t = TULong \/ t = TULongLong) ->
    SvUV (number_out float_to_double t (conv (signed_of t) (SvIV r))) = SvUV r).
  { intros t Hu E Hn Ht. assert (E' : conv (signed_of t) (SvIV r) = conv (signed_of t) (SvUV r)).
    { rewrite <- E. rewrite conv_wrapU; [done|]. pose proof (ty_bits_pos (signed_of t)). lia. }
    rewrite E'. assert (Hnum : number_arg double_to_float t r = SvUV r) by (by destruct Ht as [->|[->| ->]]).
    rewrite <- Hnum. pose proof (number_means t r) as H.
    destruct Ht as [->|[->| ->]]; by apply H. }
  assert (Hplain : forall t, flag_cty (t_numeric rt) = Some t -> in_range rt r = true ->
    number_res double_to_float t r = number_arg double_to_float t r -> number_back float_to_double t = number_out float_to_double t ->
    means rt r (handed_back rt r)).
  { intros t Ht Hin E1 E2. destruct (handed_back_number 4 double_to_float float_to_double rt t r Ht) as (-> & _).
    rewrite E1, E2. replace (number_out _ t _) with (delivered rt r).
    - apply arrives; [|done]. clear -Ht. by_flag rt.
    - clear -Ht. by_flag rt. }
  unfold result_type, returnable, result_in_range in *.
  destruct (t_numeric rt) eqn:E; try done; try solve [eapply Hplain; done].
  8: { apply Z.eqb_eq in Hr. apply (Hplain TLongLong); try done. unfold in_range. rewrite E. cbn [flag_cty number_in_range].
       apply Z.eqb_eq, wrapS_id; [done|exact HI]. }
  { unfold means, handed_back. rewrite E. apply newSVbool_true. }
  1-3: (apply andb_prop in Hr as [[Hin Hi]%andb_prop Hu%Z.eqb_eq];
    unfold in_range, means, handed_back, char_of, char_result in *; rewrite E, Hi in *;
    rewrite <- ?Hu; apply char_means; by apply Z.eqb_eq).
  2-4: (apply andb_prop in Hr as [Hin Hu%Z.eqb_eq]; unfold in_range, means, handed_back in *; rewrite E in *;
    cbn [flag_cty] in *; cbn [number_back number_res]; apply Huns; tauto).
  - apply andb_prop in Hr as [Hu%Z.eqb_eq Hlt%Z.ltb_lt]. unfold means, handed_back. rewrite E.
    cbn [flag_cty number_back number_res signed_of]. unfold in_u in HU. rewrite Hu, ushort_back by lia. by apply newSVuv_uv.
  - apply andb_prop in Hok as [Hs _]. unfold means, handed_back. rewrite E. unfold is_string in Hs.
    assert (Hp : exists s, pointee rt = Some s /\ is_char (t_numeric s) = true).
    { unfold pointee. destruct (t_subtype rt) as [|s|]; try done. apply andb_prop in Hs as [_ Hs].
      exists s. by rewrite Hs. }
    destruct Hp as (s & -> & ->). apply same_string_view.
Qed.
End Meaning.

(** ** Whole calls *)

Section Calls.
Context {SV : Type} {P : Perl SV} {PL : PerlLaws SV} {DM : DataModel} {OK : DataModelOk}.
Context {AL : Allocator} {SRV : Services SV}.
Context {VM VT K R ARGS : Type} {CV : CallVM VM VT K R} {RD : ArgReader ARGS} {M : Machine VM ARGS}
  {ML : MachineLaws VM ARGS}.
Variable wchar_size : nat.
Variable double_to_float : Z -> Z.
Variable float_to_double : Z -> Z.
Variable sysv : bool.
Variable junk : list Z.
Variable dead_string : Z.
Variable stack_junk : SV.
Variable call_sv : SV -> list SV -> C SV.
Variable exec_aggr : K -> option R.

(** A call of an affixed function that is a callback with the sub of [c]. *)
Definition perl_call (a : fiction SV) (c : CodeRef SV) (vm : VM) (args : list SV) : C SV :=
  Fiction_trigger wchar_size double_to_float float_to_double sysv junk dead_string stack_junk
    (perl_exec_void wchar_size double_to_float float_to_double call_sv c)
    (perl_exec wchar_size double_to_float float_to_double call_sv c) exec_aggr a vm args.

Definition fits_arg (type : axt) (arg : SV) : Prop :=
  passable type arg = true /\ in_range double_to_float float_to_double type arg = true.

Lemma all_arrive types args :
  Forall2 fits_arg types args ->
  Forall3 means types args
    (zip_with (delivered double_to_float float_to_double) types args).
Proof. induction 1 as [|type arg types args [Hp Hr] _ IH]; constructor; [by apply arrives|done]. Qed.

Lemma calls_reach_perl types rt a c vm args h :
  bound types rt a -> coderef_of types rt c -> result_type rt = true -> m_ready (length types) vm ->
  Forall2 fits_arg types args ->
  (forall svs h', Forall3 means types args svs ->
     wp (call_sv (cr_cv c) svs) h' (fun r _ => returnable rt r = true /\
       result_in_range double_to_float float_to_double rt r = true)) ->
  wp (perl_call a c vm args) h (fun v _ => exists svs r h0 h1,
    Forall3 means types args svs /\
    touches (fun _ => False) h h0 /\ call_sv (cr_cv c) svs h0 = Ret r h1 /\
    means rt r v).
Proof.
  intros Hb Hc Hrt Hready Hargs Hsub. pose proof (all_arrive types args Hargs) as Harr.
  set (svs := zip_with _ types args) in *.
  eapply wp_mono; [eapply (trigger_runs wchar_size double_to_float float_to_double sysv junk dead_string
    call_sv exec_aggr stack_junk types rt a c vm args h)|]; try done.
  - eapply Forall2_impl; [exact Hargs|]. by intros ?? [].
  - intros h'. eapply wp_mono; [by apply Hsub|]. by intros r _ [].
  - intros v _ (r & h0 & h1 & Ht & Hr & ->). exists svs, r, h0, h1. split_and!; try done.
    pose proof (Hsub svs h0 Harr) as Hw. unfold wp in Hw. fold svs in Hr. rewrite Hr in Hw.
    destruct Hw as [Hok Hin].
    destruct (decide (t_numeric rt = VOID_FLAG)) as [E|E]; [unfold means; by rewrite E|].
    replace (match t_numeric rt with VOID_FLAG => _ | _ => _ end)
      with (handed_back double_to_float float_to_double rt r) by (by destruct (t_numeric rt)).
    by apply comes_back.
Qed.
End Calls.
