(* ===== verification/FictionX64.v ===== *)
(** * Calls and callbacks on x86-64

    The backend of X64.v is a machine in the sense of FictionProofs.v, so that
    calls from Perl reach a Perl callback; and what happens to unsigned
    integers that do not fit the signed type of their width. *)

From S2P Require Export FictionProps X64Props.
From stdpp Require Import gmap.
#[local] Open Scope Z_scope.

Section X64.
Variable win : bool.
Variable float_junk : DCCallVM_x64 -> Z.
Variable cb : DCCallback.
Variable mem : Z -> nat -> option (list Z).
Variable cpu0 : x64_cpu.
Variable r0 : x64_ret.
Variable slot0 : list Z.
#[local] Hint Extern 0 DataModel => exact (x64_dm win) : typeclass_instances.
#[local] Existing Instance x64_CallVM.
#[local] Existing Instance x64_ArgReader.

(** The kernel enters the thunk of [cb]; its handler gets a [DCValue] on the
    stack, which the thunk loads into the registers of the result. *)
#[local] Instance x64_Machine : Machine DCCallVM_x64 DCArgs (DM := x64_dm win) (H := x64_CallVM win float_junk)
    (H0 := x64_ArgReader win) := {
  m_ready n vm := x64_alloc win vm /\ x_vt vm <> gVT_x64_syscall_sysv_p /\
    8 * Z.of_nat n <= mTotal (mVecHead vm);
  m_fresh n vm := x64_alloc win vm /\ x64_fresh vm /\ x_vt vm <> gVT_x64_syscall_sysv_p /\
    mAggrReturnReg vm = -1 /\ 8 * Z.of_nat n <= mTotal (mVecHead vm);
  m_enter k := cpu ← kernel_enter cpu0 k; Some (dcCallback_x64 win cb mem cpu);
  m_leave v _ t :=
    slot ← match v with Some (t', x) => dcvalue_set win t' x slot0 | None => Some slot0 end;
    r ← callback_exit win cb r0 slot;
    Some (ret_value win t r);
}.

Hypothesis Hcb : cb_aggr_return_register cb = -2.
Hypothesis Hslot : length slot0 = sizeof_return_slot win.

Lemma x64_MachineLaws : MachineLaws DCCallVM_x64 DCArgs (H1 := x64_Machine).
Proof.
  constructor.
  - intros n vm (Ha & Hvt & Hn).
    destruct (reset_total win float_junk vm Ha) as (vm' & Hr & Ha' & Hf & Hvt' & Hreg & Ht).
    exists vm'. split; [exact Hr|]. cbn. rewrite Hvt', Ht. done.
  - intros n vm l (Ha & Hf & Hvt & Hreg & Hn) Hl Hok.
    assert (Hcall : forall target, exists vf cpu,
      push_args (C := x64_CallVM win float_junk) vm l = Some vf /\ x64_inv win cb vf /\
      kernel_enter cpu0 (dc_callvm_call_x64 win vf target) = Some cpu /\
      exists p', read_args (RD := x64_ArgReader win) (map a_ty l) (dcCallback_x64 win cb mem cpu) = Some (l, p')).
    { intros target.
      destruct (fresh_call win float_junk cb mem cpu0 vm l target Ha Hf Hvt) as (vf & cpu & Hp & Hi & _ & Hk & _ & Hr);
        [right; rewrite Hreg, Hcb; lia|lia|done|].
      exists vf, cpu. split_and!; try done. by eexists. }
    destruct (Hcall 0) as (vf & _ & Hp & _). exists vf. split; [exact Hp|]. intros target k Hk.
    destruct (Hcall target) as (vf' & cpu & Hp' & Hi & Hkern & p' & Hr). rewrite Hp in Hp'. injection Hp' as <-.
    exists (dcCallback_x64 win cb mem cpu), p'. split; [|exact Hr].
    assert (k = dc_callvm_call_x64 win vf target) as ->.
    { pose proof (inv_vt win cb vf Hi). destruct Hk as [-> | [t ->]]; [|by apply call_kernel].
      unfold dcCallVoid, vtable. cbn. by destruct (x_vt vf). }
    cbn. by rewrite Hkern.
  - intros t x _. destruct (scalar_exit win cb r0 slot0 (signed_of t) x Hslot) as (slot & r & Hset & _ & Hexit & Hret).
    { rewrite Hcb. apply orb_true_r. }
    assert (E : dcvalue_set win t x slot0 = Some slot) by (rewrite <- Hset; by destruct t).
    cbn. rewrite E. cbn [mbind option_bind]. by rewrite Hexit, <- Hret.
Qed.

Context {SV : Type} {P : Perl SV} {PL : PerlLaws SV} {AL : Allocator (DM := x64_dm win)} {SRV : Services SV}.
Variable wchar_size : nat.
Variable double_to_float : Z -> Z.
Variable float_to_double : Z -> Z.
Variable sysv : bool.
Variable junk : list Z.
Variable dead_string : Z.
Variable stack_junk : SV.
Variable call_sv : SV -> list SV -> C SV.
Variable exec_aggr : x64_kernel -> option x64_ret.

#[local] Abbreviation x64_perl_call := (perl_call (M := x64_Machine) wchar_size double_to_float float_to_double
  sysv junk dead_string stack_junk call_sv exec_aggr).
#[local] Abbreviation fits_arg := (fits_arg double_to_float float_to_double).
#[local] Abbreviation result_in_range := (result_in_range double_to_float float_to_double).

(** C1: calls from Perl reach a Perl callback unchanged on x86-64.  An affixed
    function whose entry point is a callback of the same signature, called with
    a truth value, integers, floating-point numbers and characters in range,
    and pointers to strings, numbers or structs, calls the sub with scalars
    that mean the same; the memory they lead to was not there before and
    nothing else has changed; and the result of the sub, a scalar or a string,
    comes back to the caller with the same meaning. *)
Theorem x64_calls_reach_perl types rt a c vm args h :
  bound types rt a -> coderef_of types rt c -> result_type rt = true ->
  x64_alloc win vm -> x_vt vm <> gVT_x64_syscall_sysv_p -> 8 * Z.of_nat (length types) <= mTotal (mVecHead vm) ->
  Forall2 fits_arg types args ->
  (forall svs h', Forall3 means types args svs ->
     wp (call_sv (cr_cv c) svs) h' (fun r _ => returnable rt r = true /\ result_in_range rt r = true)) ->
  wp (x64_perl_call a c vm args) h (fun v _ => exists svs r h0 h1,
    Forall3 means types args svs /\ (forall p b, h !! p = Some b -> h0 !! p = Some b) /\
    call_sv (cr_cv c) svs h0 = Ret r h1 /\ means rt r v).
Proof.
  intros Hb Hc Hrt Ha Hvt Hn Hargs Hsub.
  eapply wp_mono; [apply (calls_reach_perl (ML := x64_MachineLaws) (OK := x64_dm_ok win)
    wchar_size double_to_float float_to_double sysv junk dead_string stack_junk call_sv exec_aggr types rt);
    by try done|].
  intros v _ (svs & r & h0 & h1 & Hm & Ht & Hr & Hv). exists svs, r, h0, h1. split_and!; try done.
  intros p b Hp. rewrite <- Hp. apply Ht; [by eexists|auto].
Qed.

Lemma uint_extended u : 2 ^ 31 <= u < 2 ^ 32 -> wrapU 64 (conv (DM := x64_dm win) TInt u) = u + (2 ^ 64 - 2 ^ 32).
Proof.
  intros Hu. cbn [conv]. assert (E : wrapS 32 u = u - 2 ^ 32).
  { unfold wrapS. replace (u + 2 ^ (32 - 1)) with (u - 2 ^ 31 + 1 * 2 ^ 32) by lia.
    rewrite Z.mod_add, Z.mod_small by lia. lia. }
  rewrite E. unfold wrapU. rewrite <- (Z.mod_add _ 1) by lia. rewrite Z.mod_small by lia. lia.
Qed.

(** Unsigned integers are sign-extended.  The handler of a callback and
    the call read an [unsigned int] with the functions for [int]: an argument
    or a result with the top bit set arrives in Perl as a 64-bit number with
    the upper half set. *)
Theorem uint_sign_extended type rt a c vm arg h :
  bound [type] rt a -> coderef_of [type] rt c -> t_numeric type = UINT_FLAG -> t_numeric rt = UINT_FLAG ->
  x64_alloc win vm -> x_vt vm <> gVT_x64_syscall_sysv_p -> 8 <= mTotal (mVecHead vm) ->
  2 ^ 31 <= SvUV arg < 2 ^ 32 ->
  (forall svs h', wp (call_sv (cr_cv c) svs) h' (fun r _ => 2 ^ 31 <= SvIV r < 2 ^ 32)) ->
  wp (x64_perl_call a c vm [arg]) h (fun v _ => exists sv r h0 h1,
    call_sv (cr_cv c) [sv] h0 = Ret r h1 /\
    SvUV sv = SvUV arg + (2 ^ 64 - 2 ^ 32) /\ SvUV v = SvIV r + (2 ^ 64 - 2 ^ 32)).
Proof.
  intros Hb Hc Ht Hrt Ha Hvt Hn Harg Hsub.
  assert (Hret : forall r, returnable rt r = true) by (intros; unfold returnable; by rewrite Hrt).
  eapply wp_mono; [apply (trigger_runs (ML := x64_MachineLaws) (OK := x64_dm_ok win)
    wchar_size double_to_float float_to_double sysv junk dead_string call_sv exec_aggr stack_junk [type] rt a c vm [arg])|];
    try done.
  - unfold result_type. by rewrite Hrt.
  - constructor; [|constructor]. unfold passable. by rewrite Ht.
  - intros h'. eapply wp_mono; [apply Hsub|]. auto.
  - intros v _ (r & h0 & h1 & _ & Hr & ->). rewrite Hrt. eexists _, r, h0, h1. split; [exact Hr|].
    pose proof (Hsub (zip_with (delivered double_to_float float_to_double) [type] [arg]) h0) as Hw.
    unfold wp in Hw. rewrite Hr in Hw. unfold delivered, handed_back. rewrite Ht, Hrt.
    cbn [flag_cty number_back number_out number_arg number_res signed_of].
    rewrite !uint_extended by done. split; apply newSVuv_uv; unfold in_u; lia.
Qed.
End X64.
