(* ===== verification/FictionArm64.v ===== *)
(** * Calls and callbacks on ARM64

    The backend of Arm64.v is a machine as well, in its Unix, Windows and Apple
    conventions. *)

From S2P Require Export FictionProps Arm64Props.
From stdpp Require Import gmap.
#[local] Open Scope Z_scope.

Section Arm64.
Variable os : arm64_os.
Variable f2d : Z -> Z.
Variable r0 : arm64_ret.
Variable slot0 : list Z.
#[local] Hint Extern 0 DataModel => exact (arm64_dm os) : typeclass_instances.

#[local] Instance arm64_Machine : Machine DCCallVM_arm64 DCArgs (DM := arm64_dm os) (H := a64_vm os f2d)
    (H0 := arm64_ArgReader os) := {
  m_ready n vm := a64_alloc os vm /\ q_vt vm = vt_arm64_p /\ 8 * Z.of_nat n <= mTotal (q_vec vm);
  m_fresh := a64_fresh os;
  m_enter k := cpu ← kernel_enter k; Some (dcCallbackThunkEntry cpu);
  m_leave v ch t :=
    slot ← match v with Some (t', x) => dcvalue_set os t' x slot0 | None => Some slot0 end;
    r ← callback_exit r0 ch slot;
    Some (ret_value os t r);
}.

Hypothesis Hslot : length slot0 = 8%nat.

Lemma enc_conv t n x : 8 * Z.of_nat n = ty_bits t -> enc LittleEndian n (conv t x) = enc LittleEndian n x.
Proof.
  intros Hn. assert (E : conv t x = wrapU (ty_bits t) x \/ conv t x = wrapS (ty_bits t) x).
  { destruct t; cbn [conv ty_bits]; try case_match; auto. }
  rewrite <- Hn in E. destruct E as [-> | ->]; [apply enc_wrapU|]. pose proof (ty_bits_pos t). apply enc_wrapS. lia.
Qed.

Lemma a64_signed_exit t x : val_ok t x ->
  m_leave (Machine := arm64_Machine) (Some (t, x)) (sigchar_of t) (signed_of t) = Some (conv (signed_of t) x).
Proof.
  intros Hx. assert (Hx' : val_ok (signed_of t) (conv (signed_of t) x)).
  { destruct (decide (t = TBool)) as [->|Hne]; [cbn [signed_of]; by rewrite val_ok_conv|].
    apply val_ok_of_conv. by destruct t. }
  destruct (a64_scalar_exit os r0 (signed_of t) _ slot0 Hslot Hx') as (slot & r & Hset & Hexit & Hret).
  assert (E : dcvalue_set os t x slot0 = Some slot).
  { rewrite <- Hset. unfold dcvalue_set. destruct (sizeof_bits os (signed_of t)) as [_ Hb].
    replace (sizeof_cty t) with (sizeof_cty (signed_of t)) by (by destruct t). by rewrite enc_conv. }
  cbn. rewrite E. cbn [mbind option_bind].
  replace (callback_exit r0 (sigchar_of t) slot) with (callback_exit r0 (sigchar_of (signed_of t)) slot) by (by destruct t).
  rewrite Hexit. cbn [mbind option_bind]. by rewrite Hret.
Qed.

Lemma arm64_MachineLaws : MachineLaws DCCallVM_arm64 DCArgs (H1 := arm64_Machine).
Proof.
  constructor.
  - intros n vm (Ha & Hvt & Hn). by apply reset_fresh.
  - intros n vm l Hf Hl Hok.
    destruct (fresh_call_a64 os f2d n vm l 0 Hf Hl Hok) as (vf & _ & _ & Hp & _). exists vf. split; [exact Hp|].
    intros target k Hk. destruct (fresh_call_a64 os f2d n vm l target Hf Hl Hok) as (vf' & cpu & p' & Hp' & Hkern & Hr).
    rewrite Hp in Hp'. injection Hp' as <-. exists (dcCallbackThunkEntry cpu), p'. split; [|exact Hr].
    assert (k = call vf target) as ->.
    { destruct Hk as [-> | [t ->]]; [by apply callVoid_a64|by apply call_kernel_a64]. }
    cbn. by rewrite Hkern.
  - intros t x Hx. by apply a64_signed_exit.
Qed.

Context {SV : Type} {P : Perl SV} {PL : PerlLaws SV} {AL : Allocator (DM := arm64_dm os)} {SRV : Services SV}.
Variable wchar_size : nat.
Variable double_to_float : Z -> Z.
Variable float_to_double : Z -> Z.
Variable sysv : bool.
Variable junk : list Z.
Variable dead_string : Z.
Variable stack_junk : SV.
Variable call_sv : SV -> list SV -> C SV.
Variable exec_aggr : arm64_kernel -> option arm64_ret.

(** Calls from Perl reach a Perl callback unchanged on ARM64, too. *)
Theorem arm64_calls_reach_perl types rt a c vm args h :
  bound types rt a -> coderef_of types rt c -> result_type rt = true ->
  a64_alloc os vm -> q_vt vm = vt_arm64_p -> 8 * Z.of_nat (length types) <= mTotal (q_vec vm) ->
  Forall2 (fits_arg double_to_float float_to_double) types args ->
  (forall svs h', Forall3 means types args svs ->
     wp (call_sv (cr_cv c) svs) h' (fun r _ => returnable rt r = true /\
       result_in_range double_to_float float_to_double rt r = true)) ->
  wp (perl_call (M := arm64_Machine) wchar_size double_to_float float_to_double sysv junk dead_string stack_junk
        call_sv exec_aggr a c vm args) h (fun v _ => exists svs r h0 h1,
    Forall3 means types args svs /\ touches (fun _ => False) h h0 /\
    call_sv (cr_cv c) svs h0 = Ret r h1 /\ means rt r v).
Proof. intros. by apply (calls_reach_perl (ML := arm64_MachineLaws) (OK := arm64_dm_ok os)). Qed.
End Arm64.
