(* ===== verification/Library.v ===== *)
(** * The libraries of bound functions
      (lib/Affix.cxx: Affix_fiction, Affix_DESTROY, Affix_load_library,
       Affix_free_library)

    A library is open as often as it was loaded and not freed.  Binding a
    function by the path of its library loads the library once more, and the
    destructor of the function frees it; binding by an [Affix::Lib] loads
    nothing, but the destructor is the same. *)

From S2P Require Export Fiction.
From stdpp Require Import gmap.
#[local] Open Scope Z_scope.

(** The reference count the loader of the system keeps (dlopen(3), dlclose(3)). *)
Class LoaderLaws (SV LS : Type) `{Loader SV LS} := {
  opens : LS -> Z -> nat;
  opens_load : forall path ls h ls', load_library path ls = Some (h, ls') ->
    opens ls' h = S (opens ls h) /\ forall k, k <> h -> opens ls' k = opens ls k;
  opens_free : forall h ls, opens (free_library h ls) h = pred (opens ls h) /\
    forall k, k <> h -> opens (free_library h ls) k = opens ls k;
}.

Section Library.
Context {SV LS : Type} {P : Perl SV} {LD : Loader SV LS}.

(** ** What a program does with bound functions *)

Record world := World { w_ls : LS; w_live : list (fiction SV) }.

Inductive lib_op :=
  | OpAffix (wrap : bool) (lib symbol : SV) (argtypes : option (option (list axt))) (restype : option axt)
  | OpDestroy (i : nat)
  | OpLoad (lib : SV)
  | OpFree (lib : Z)
  | OpFind (lib symbol : SV).

Definition lib_step (w : world) (o : lib_op) : world :=
  match o with
  | OpAffix wrap lib symbol argtypes restype =>
    let '(m, ls) := Affix_fiction wrap lib symbol argtypes restype (w_ls w) in
    match m ∅ with
    | Ret (f, _) _ => World ls (w_live w ++ [f])
    | _ => World ls (w_live w)
    end
  | OpDestroy i =>
    match w_live w !! i with
    | Some f => World (Affix_DESTROY f (w_ls w)) (delete i (w_live w))
    | None => w
    end
  | OpLoad lib =>
    match Affix_load_library lib (w_ls w) with
    | Some (_, ls) => World ls (w_live w)
    | None => w
    end
  | OpFree lib => World (Affix_free_library lib (w_ls w)) (w_live w)
  | OpFind lib symbol => World (Affix_find_symbol lib symbol (w_ls w)).2 (w_live w)
  end.

Definition lib_run (w : world) (ops : list lib_op) : world := foldl lib_step w ops.

(** Functions bound to a library. *)
Definition bound_to (h : Z) (l : list (fiction SV)) : nat :=
  length (List.filter (fun f => fi_lib f =? h) l).

(** Functions that are bound by path; libraries are not freed by hand. *)
Definition by_path (o : lib_op) : Prop :=
  match o with
  | OpAffix _ lib _ _ _ => lib_object lib = None
  | OpFree _ => False
  | _ => True
  end.

Context {LL : LoaderLaws SV LS}.

(** No function has lost its library. *)
Definition libraries_open (w : world) : Prop := forall h, (bound_to h (w_live w) <= opens (w_ls w) h)%nat.

Lemma bound_to_snoc h l f : bound_to h (l ++ [f]) = (bound_to h l + if (fi_lib f =? h)%Z then 1 else 0)%nat.
Proof. unfold bound_to. rewrite List.filter_app, length_app. cbn. by destruct (fi_lib f =? h). Qed.

Lemma bound_to_delete h l i f : l !! i = Some f ->
  bound_to h l = (bound_to h (delete i l) + if (fi_lib f =? h)%Z then 1 else 0)%nat.
Proof.
  revert i. induction l as [|x l IH]; intros [|i] Hi; try done.
  - injection Hi as ->. unfold bound_to. cbn. destruct (fi_lib f =? h); cbn; lia.
  - cbn in Hi. specialize (IH i Hi). unfold bound_to in *.
    change (delete (S i) (x :: l)) with (x :: delete i l). cbn [List.filter]. destruct (fi_lib x =? h); cbn [length]; lia.
Qed.

Lemma load_counts path ls h ls' k : load_library path ls = Some (h, ls') ->
  opens ls' k = (opens ls k + if (h =? k)%Z then 1 else 0)%nat.
Proof.
  intros [E Eo]%opens_load. destruct (Z.eqb_spec h k) as [<-|Hne]; [rewrite E|rewrite Eo by done]; cbn; lia.
Qed.

Lemma free_counts h ls k : opens (free_library h ls) k = (opens ls k - if (h =? k)%Z then 1 else 0)%nat.
Proof.
  destruct (opens_free h ls) as [E Eo]. destruct (Z.eqb_spec h k) as [<-|Hne]; [rewrite E|rewrite Eo by done]; cbn; lia.
Qed.

(** Opening a library for a function counts, unless an object gave it. *)
Lemma open_counts lib ls h ls' k : open_library lib ls = Some (h, ls') -> lib_object lib = None ->
  opens ls' k = (opens ls k + if (h =? k)%Z then 1 else 0)%nat.
Proof.
  unfold open_library. intros Ho Hn. rewrite Hn in Ho.
  assert (Hl : exists path, load_library path ls = Some (h, ls')); [|destruct Hl; by eapply load_counts].
  repeat case_match; simplify_eq; by eexists.
Qed.

Lemma Affix_fiction_lib wrap lib symbol argtypes restype ls m ls' h f name h' :
  Affix_fiction wrap lib symbol argtypes restype ls = (m, ls') -> m h = Ret (f, name) h' ->
  exists handle, open_library lib ls = Some (handle, ls') /\ fi_lib f = handle.
Proof.
  unfold Affix_fiction. destruct (open_library lib ls) as [[handle ls1]|]; intros [= <- <-]; [|done].
  unfold mbind, C_bind. destruct (symbol_and_name symbol h) as [[sym nm] h1| | |]; try done.
  destruct (find_symbol ls1 handle sym); [|done]. intros [= <- _ _]. by exists handle.
Qed.

Lemma Affix_fiction_opens wrap lib symbol argtypes restype ls m ls' k :
  Affix_fiction wrap lib symbol argtypes restype ls = (m, ls') -> lib_object lib = None ->
  (opens ls k <= opens ls' k)%nat.
Proof.
  unfold Affix_fiction. destruct (open_library lib ls) as [[handle ls1]|] eqn:Ho; intros [= _ <-] Hn; [|done].
  rewrite (open_counts _ _ _ _ k Ho Hn). lia.
Qed.

(** Looking up a symbol opens the library once more, unless an object gives it. *)
Lemma find_symbol_opens lib symbol ls h : (opens ls h <= opens (Affix_find_symbol lib symbol ls).2 h)%nat.
Proof.
  assert (Hl : forall path, (opens ls h <= opens match load_library path ls with Some (_, ls) => ls | None => ls end h)%nat).
  { intros path. destruct (load_library path ls) as [[k ls']|] eqn:E; [|done]. rewrite (load_counts path ls k ls' h E). lia. }
  unfold Affix_find_symbol. destruct (negb (SvOK lib) && SvREADONLY lib).
  - specialize (Hl None). destruct (load_library None ls) as [[k ls']|]; [|done]. by destruct (find_symbol _ _ _).
  - destruct (lib_object lib) as [k|].
    + destruct (k =? 0); [done|]. by destruct (find_symbol _ _ _).
    + destruct (SvPOK lib || is_path lib); [|done]. specialize (Hl (Some (SvPV lib))).
      destruct (load_library _ ls) as [[k ls']|]; [|done]. by destruct (find_symbol _ _ _).
Qed.

Lemma lib_step_open w o : by_path o -> libraries_open w -> libraries_open (lib_step w o).
Proof.
  intros Ho Hw h. specialize (Hw h). destruct w as [ls l], o as [wrap lib symbol argtypes restype|i|lib|lib|lib symbol]; cbn -[bound_to] in *.
  - destruct (Affix_fiction wrap lib symbol argtypes restype ls) as [m ls'] eqn:E.
    pose proof (Affix_fiction_opens _ _ _ _ _ _ _ _ h E Ho) as Hle.
    destruct (m ∅) as [[f name] h'| | |] eqn:Em; cbn -[bound_to]; try lia.
    destruct (Affix_fiction_lib _ _ _ _ _ _ _ _ _ _ _ _ E Em) as (handle & Hopen & Hf).
    rewrite bound_to_snoc, (open_counts _ _ _ _ h Hopen Ho), Hf. lia.
  - destruct (l !! i) as [f|] eqn:Hi; [|done]. cbn -[bound_to]. unfold Affix_DESTROY. rewrite free_counts.
    rewrite (bound_to_delete h l i f Hi) in Hw. lia.
  - unfold Affix_load_library. destruct (if negb (SvOK lib) && SvREADONLY lib then _ else _) as [[k ls']|] eqn:E; [|done].
    cbn -[bound_to]. assert (opens ls' h = (opens ls h + if (k =? h)%Z then 1 else 0)%nat) as ->; [|lia].
    destruct (negb (SvOK lib) && SvREADONLY lib); by eapply load_counts.
  - done.
  - pose proof (find_symbol_opens lib symbol ls h). lia.
Qed.

(** C5: a bound function keeps its library open.  However functions are bound
    by path, failures included, destroyed, and libraries loaded besides: every
    library stays open at least as often as there are live functions of it, so
    that the entry point of a live function is never unmapped. *)
Theorem live_functions_keep_library ls ops :
  Forall by_path ops ->
  let w := lib_run (World ls []) ops in
  libraries_open w /\ forall f, In f (w_live w) -> (0 < opens (w_ls w) (fi_lib f))%nat.
Proof.
  intros Hops w. assert (Ho : libraries_open w).
  { subst w. assert (H0 : libraries_open (World ls [])) by (intros h; unfold bound_to; cbn; lia).
    revert H0. generalize (World ls []). induction Hops as [|o ops Ho _ IH]; intros w H0; [done|].
    cbn [lib_run foldl]. apply IH. by apply lib_step_open. }
  split; [done|]. intros f Hf. specialize (Ho (fi_lib f)).
  assert (0 < bound_to (fi_lib f) (w_live w))%nat; [|lia].
  unfold bound_to. destruct (List.filter _ _) as [|x l] eqn:E; [|cbn; lia]. exfalso.
  assert (Hin : In f (List.filter (fun g => fi_lib g =? fi_lib f) (w_live w))).
  { apply List.filter_In. split; [done|]. apply Z.eqb_refl. }
  by rewrite E in Hin.
Qed.

(** [find_symbol] with the path of a library opens it and returns no object to close
    it with: after [n] lookups it is open [n] times more. *)
Theorem find_symbol_leaks path symbol k n : forall ls,
  SvOK path = true -> lib_object path = None -> SvPOK path = true ->
  (forall ls, exists ls', load_library (Some (SvPV path)) ls = Some (k, ls')) ->
  opens (w_ls (lib_run (World ls []) (repeat (OpFind path symbol) n))) k = (opens ls k + n)%nat.
Proof.
  induction n as [|n IH]; intros ls Hok Hobj Hpok Hload; [cbn; lia|]. cbn [repeat lib_run foldl lib_step w_ls w_live].
  destruct (Hload ls) as (ls' & El). assert (E : (Affix_find_symbol path symbol ls).2 = ls').
  { unfold Affix_find_symbol. rewrite Hok, Hobj, Hpok. cbn [negb andb orb]. rewrite El. by destruct (find_symbol _ _ _). }
  rewrite E. fold (lib_run (World ls' []) (repeat (OpFind path symbol) n)). rewrite IH by done.
  rewrite (load_counts _ _ _ _ k El), Z.eqb_refl. lia.
Qed.

(** Binding by an object leaves the loader as it is. *)
Lemma affix_by_object ls live lib h sym argtypes restype e :
  SvOK lib = true -> lib_object lib = Some h -> av_of sym = None -> SvPOK sym = true ->
  find_symbol ls h (SvPV sym) = Some e ->
  exists f, lib_step (World ls live) (OpAffix true lib sym argtypes restype) = World ls (live ++ [f]) /\
    fi_lib f = h /\ fi_entry_point f = e.
Proof.
  intros Hok Hlib Hav Hpok Hsym. cbn [lib_step w_ls w_live]. unfold Affix_fiction.
  assert (Hopen : open_library lib ls = Some (h, ls)) by (unfold open_library; by rewrite Hok, Hlib).
  rewrite Hopen. unfold symbol_and_name. rewrite Hav, Hpok. unfold mbind, C_bind, mret, C_ret. rewrite Hsym.
  eexists. split_and!; reflexivity.
Qed.

(** A library object is closed under its functions.  Two functions bound by
    the same [Affix::Lib], which is open once: when the first is destroyed, the
    library is closed, although the second and the object are still there. *)
Theorem shared_library_closed_early ls lib h sym argtypes restype e :
  SvOK lib = true -> lib_object lib = Some h -> opens ls h = 1%nat ->
  av_of sym = None -> SvPOK sym = true -> find_symbol ls h (SvPV sym) = Some e ->
  let affix := OpAffix true lib sym argtypes restype in
  let w := lib_run (World ls []) [affix; affix; OpDestroy 0] in
  exists f, w_live w = [f] /\ fi_lib f = h /\ fi_entry_point f = e /\ opens (w_ls w) h = 0%nat.
Proof.
  intros Hok Hlib Hone Hav Hpok Hsym affix w. subst affix w. unfold lib_run. cbn [foldl].
  destruct (affix_by_object ls [] lib h sym argtypes restype e) as (f & -> & Hf & _); try done.
  destruct (affix_by_object ls ([] ++ [f]) lib h sym argtypes restype e) as (g & -> & Hg & He); try done.
  exists g. cbn. split_and!; try done. unfold Affix_DESTROY. rewrite Hf, free_counts, Z.eqb_refl, Hone. done.
Qed.
End Library.
