(* ===== verification/Pin.v ===== *)
(** * Pinned variables (lib/Affix/pin.cxx)

    A pinned scalar has magic: reading it makes a value of a C variable, and
    assigning to it stores the value there. *)

From S2P Require Export Fiction MarshalProps.
From stdpp Require Import gmap.
#[local] Open Scope Z_scope.

(** The magic of a scalar ([var_ptr]). *)
Record var_ptr := { vp_ptr : Z; vp_type_sv : axt }.

Section Pin.
Context {SV LS : Type} {P : Perl SV} {DM : DataModel} {AL : Allocator} {SRV : Services SV}
  {LD : Loader SV LS}.
Variable wchar_size : nat.
Variable double_to_float : Z -> Z.
Variable float_to_double : Z -> Z.

(** The allocator's [safefree]. *)
Variable safefree : Z -> heap -> heap.
Definition Free (p : Z) : C unit := fun h => Ret tt (safefree p h).

#[local] Abbreviation sv2ptr := (sv2ptr wchar_size double_to_float).
#[local] Abbreviation ptr2sv := (ptr2sv wchar_size float_to_double).

Definition get_pin (mg : var_ptr) : C SV := ptr2sv (vp_type_sv mg) (vp_ptr mg).

(** The size of the type is moved, whatever [sv2ptr] allocated. *)
Definition set_pin (sv : SV) (mg : var_ptr) : C unit :=
  if SvOK sv then
    block ← sv2ptr (vp_type_sv mg) sv 0;
    bs ← Load block (Z.to_nat (wrapU dm_size_bits (t_sizeof (vp_type_sv mg))));
    _ ← Store (vp_ptr mg) bs;
    Free block
  else mret tt.

Definition _pin (type : axt) (ptr : Z) : var_ptr := {| vp_ptr := ptr; vp_type_sv := type |}.

(** [pin]: the library stays loaded. *)
Definition Affix_pin (lib symbol : SV) (type : axt) (ls : LS) : C var_ptr * LS :=
  match open_library lib ls with
  | None => (croak "Failed to load library", ls)
  | Some (_lib, ls) =>
    (match find_symbol ls _lib (SvPV symbol) with
     | None => croak "Failed to locate '%s'"
     | Some ptr => mret (_pin type ptr)
     end, ls)
  end.

(** [unpin]: the magic that is left, and whether there was any. *)
Definition Affix_unpin (mg : option var_ptr) : option var_ptr * bool :=
  match mg with Some _ => (None, true) | None => (None, false) end.

(** ** Variables of scalar types *)

Context {PL : PerlLaws SV} {OK : DataModelOk}.

(** Freeing what [sv2ptr] allocated for a value leaves the memory that was
    there before as it is. *)
Definition frees_new (t : axt) (d : SV) (h : heap) : Prop :=
  forall p h1, sv2ptr t d 0 h = Ret p h1 ->
  forall h2 a, is_Some (h !! a) -> safefree p h2 !! a = h2 !! a.

Definition scalar_flag (f : flag) : bool :=
  match f with BOOL_FLAG => true | f => negb (is_None_b (flag_cty f)) end.

Lemma wp_with {A} (m : C A) h (Q : A -> heap -> Prop) :
  wp m h Q -> wp m h (fun x h' => m h = Ret x h' /\ Q x h').
Proof. unfold wp. by destruct (m h). Qed.

(** Moving a value from its block to the variable. *)
Lemma set_pin_moves t d q h bs v :
  SvOK d = true -> frees_new t d h -> 0 < q -> 0 <= t_sizeof t < 2 ^ dm_size_bits ->
  length bs = Z.to_nat (t_sizeof t) -> MarshalProofs.block q (t_sizeof t) h ->
  wp (sv2ptr t d 0) h (fun p h1 => touches (fun _ => False) h h1 /\ load p (length bs) h1 = Some bs) ->
  (forall h2, load q (length bs) h2 = Some bs -> ptr2sv t q h2 = Ret v h2) ->
  wp (set_pin d (_pin t q)) h (fun _ h' =>
    get_pin (_pin t q) h' = Ret v h' /\ touches (within q (t_sizeof t)) h h').
Proof.
  intros Hok Hfree Hq Hsz Hl Hb Hm Hread. unfold set_pin. rewrite Hok. cbn [vp_type_sv vp_ptr _pin].
  apply wp_bind. eapply wp_mono; [by apply wp_with|]. intros p h1 (Hrun & Ht & Hld).
  specialize (Hfree p h1 Hrun). apply wp_bind.
  rewrite wrapU_id by (unfold in_u; lia). rewrite <- Hl. unfold wp, Load. rewrite Hld.
  change (wp (_ ← Store q bs; Free p) h1 (fun _ h' =>
    get_pin (_pin t q) h' = Ret v h' /\ touches (within q (t_sizeof t)) h h')).
  assert (Hn : Z.of_nat (length bs) = t_sizeof t) by lia.
  apply wp_bind, wp_Store; [rewrite Hn; by eapply touches_block|].
  intros h2 Hl2 Ht2. rewrite Hn in Ht2. unfold wp.
  assert (Hold : forall a, is_Some (h !! a) -> safefree p h2 !! a = h2 !! a) by (intros; by apply Hfree).
  split.
  - unfold get_pin. cbn [vp_type_sv vp_ptr _pin]. apply Hread. rewrite <- Hl2. apply load_agree.
    intros a Ha. apply Hold, Hb. lia.
  - intros a Ha. rewrite Hold by done. destruct (Ht a Ha) as [Hs1 E1]. destruct (Ht2 a Hs1) as [Hs2 E2].
    split; [done|]. intros Hw. rewrite E2 by done. apply E1. auto.
Qed.

Lemma dm_size_big : 2 ^ 32 <= 2 ^ dm_size_bits.
Proof. destruct (dm_size_ok) as [-> | ->]; lia. Qed.

Lemma number_block t ty d h :
  flag_cty (t_numeric t) = Some ty -> SvOK d = true -> is_number ty d = true ->
  wp (sv2ptr t d 0) h (fun p h1 => touches (fun _ => False) h h1 /\
    load p (length (number_bytes double_to_float ty d)) h1 = Some (number_bytes double_to_float ty d)).
Proof.
  intros Ht Hok Hn. rewrite (sv2ptr_scalar _ _ t ty) by done. unfold sv2ptr_number. rewrite Hok, Hn.
  unfold alloc_unless. cbn [Z.eqb]. pose proof (length_number_bytes double_to_float ty d) as Hl.
  pose proof (sizeof_pos ty). apply wp_bind, wp_Newxz; [lia|]. intros p h1 _ _ Hfresh Hz Ht1.
  apply wp_bind, wp_Store; [intros a Ha; rewrite Hz by (unfold within; lia); by eexists|].
  intros h2 Hl2 Ht2. apply wp_ret. split; [|done]. rewrite Hl in Ht2. by eapply touches_fresh.
Qed.

(** C6: a pinned variable holds what is assigned to it.  For a C variable of a
    boolean or numeric type and a value in its range: assigning the value to the
    pinned scalar stores it in the variable, changes no other memory that was
    there before, and reading the scalar gives the same value. *)
Theorem pin_roundtrip t d q h :
  scalar_flag (t_numeric t) = true -> fits t d = true -> SvOK d = true ->
  exact double_to_float float_to_double t d = true ->
  0 < q -> MarshalProofs.block q (t_sizeof t) h -> frees_new t d h ->
  wp (set_pin d (_pin t q)) h (fun _ h' =>
    touches (within q (t_sizeof t)) h h' /\
    exists v, get_pin (_pin t q) h' = Ret v h' /\ same t d v).
Proof.
  intros Hs Hf Hok Hx Hq Hb Hfree.
  pose proof (same_view double_to_float float_to_double t d Hf Hx) as Hsame. pose proof dm_size_big.
  assert (Hgo : forall bs, Z.of_nat (length bs) = t_sizeof t -> t_sizeof t < 2 ^ 32 ->
    wp (sv2ptr t d 0) h (fun p h1 => touches (fun _ => False) h h1 /\ load p (length bs) h1 = Some bs) ->
    (forall h2, load q (length bs) h2 = Some bs ->
       ptr2sv t q h2 = Ret (view double_to_float float_to_double t d) h2) ->
    wp (set_pin d (_pin t q)) h (fun _ h' =>
      touches (within q (t_sizeof t)) h h' /\ exists v, get_pin (_pin t q) h' = Ret v h' /\ same t d v)).
  { intros bs Hl Hlt Hm Hread. eapply wp_mono; [eapply (set_pin_moves t d q h bs); try done; lia|].
    intros [] h' [Hg Ht]. split; [done|]. by eexists. }
  destruct (flag_cty (t_numeric t)) as [ty|] eqn:Hty.
  - destruct (fits_number double_to_float float_to_double t ty d Hf Hty) as (_ & Hsz & _ & Hn & Hne & Hv).
    apply (Hgo (number_bytes double_to_float ty d)).
    + by rewrite length_number_bytes.
    + rewrite Hsz. destruct OK as [[E|E] [E'|E']], ty; cbn; rewrite ?E, ?E'; (done || lia).
    + by apply number_block.
    + intros h2 Hl2. rewrite (ptr2sv_scalar _ _ t ty), Hv by (done || lia). unfold ptr2sv_number, mbind, C_bind, Load.
      pose proof (length_number_bytes double_to_float ty d) as Hl. rewrite <- Hl, Nat2Z.id, Hl2.
      by rewrite conv_number_bytes.
  - assert (Ht : t_numeric t = BOOL_FLAG) by (unfold scalar_flag in Hs; rewrite Hty in Hs; by destruct (t_numeric t)).
    destruct (fits_bool t d Hf Ht) as (_ & Hsz & Hro & Hav). apply (Hgo (bool_bytes d)).
    + by rewrite Hsz.
    + rewrite Hsz. done.
    + rewrite sv2ptr_boolean by done. unfold sv2ptr_bool, alloc_unless. rewrite Hav. cbn [Z.eqb].
      apply wp_bind, wp_Newxz; [done|]. intros p h1 _ _ Hfresh Hz Ht1.
      apply wp_bind, wp_Store; [intros a Ha; rewrite Hz by exact Ha; by eexists|].
      intros h2 Hl2 Ht2. apply wp_ret. split; [|done]. by eapply touches_fresh.
    + intros h2 Hl2. rewrite ptr2sv_boolean by (done || lia). unfold mbind, C_bind, Load.
      change (load q 1 h2 = Some (bool_bytes d)) in Hl2. rewrite Hl2.
      assert (Hv : view double_to_float float_to_double t d = newSVbool (SvTRUE d))
        by (clear -Ht; destruct t as [??? f]; cbn in *; by subst).
      rewrite Hv. unfold bool_bytes. by destruct (SvTRUE d), dm_endian.
Qed.


Lemma load_take n m p h bs : load p (n + m) h = Some bs -> load p n h = Some (take n bs).
Proof.
  intros [Hl Hb]%load_spec. apply load_spec. split; [rewrite length_take; lia|].
  intros i b Hi. apply Hb. apply lookup_take_Some in Hi as [? _]. done.
Qed.

(** A pinned string variable gets characters for a pointer: [sv2ptr] returns the
    address of the string, and the bytes there are moved into the variable. *)
Theorem pinned_string_overwritten t s d q h :
  t_numeric t = POINTER_FLAG -> t_subtype t = Sub s -> t_isa_type s = true -> t_isa_pointer s = false ->
  is_char (t_numeric s) = true -> t_sizeof t = SIZEOF_INTPTR_T ->
  string_ok d = true -> pointer_of d = None -> (Z.to_nat SIZEOF_INTPTR_T <= length (SvPV d))%nat ->
  MarshalProofs.block q SIZEOF_INTPTR_T h -> frees_new t d h ->
  wp (set_pin d (_pin t q)) h (fun _ h' =>
    load q (Z.to_nat SIZEOF_INTPTR_T) h' = Some (take (Z.to_nat SIZEOF_INTPTR_T) (SvPV d))).
Proof.
  intros Ht Hsub H1 H2 Hc Hsz Hs Hpo Hlong Hb Hfree. pose proof (string_ok_defined d Hs) as Hok.
  unfold set_pin. rewrite Hok. cbn [vp_type_sv vp_ptr _pin].
  apply wp_bind. apply (wp_mono _ _ (fun p h1 => sv2ptr t d 0 h = Ret p h1 /\
    touches (fun _ => False) h h1 /\ load p (Z.to_nat SIZEOF_INTPTR_T) h1 = Some (take (Z.to_nat SIZEOF_INTPTR_T) (SvPV d)))).
  { apply wp_with. rewrite (sv2ptr_pointer _ _ t s) by done.
    destruct (sv2ptr_chars wchar_size double_to_float s d 0 Hc Hok) as [u ->].
    eapply wp_mono; [by apply string_block|]. intros p h1 (_ & Htch & _ & Hld). split; [done|].
    replace (length (SvPV d) + 1)%nat with (Z.to_nat SIZEOF_INTPTR_T + (length (SvPV d) + 1 - Z.to_nat SIZEOF_INTPTR_T))%nat in Hld by lia.
    rewrite (load_take _ _ _ _ _ Hld), take_app_le by lia. done. }
  intros p h1 (Hrun & Htch & Hld). rewrite Hsz. pose proof ptr_bits as [Hbits Hpos].
  rewrite wrapU_id by (pose proof dm_size_ok; pose proof dm_size_big; unfold in_u; lia).
  apply wp_bind. unfold wp, Load. rewrite Hld.
  change (wp (_ ← Store q (take (Z.to_nat SIZEOF_INTPTR_T) (SvPV d)); Free p) h1 (fun _ h' =>
    load q (Z.to_nat SIZEOF_INTPTR_T) h' = Some (take (Z.to_nat SIZEOF_INTPTR_T) (SvPV d)))).
  assert (Hlen : length (take (Z.to_nat SIZEOF_INTPTR_T) (SvPV d)) = Z.to_nat SIZEOF_INTPTR_T) by (rewrite length_take; lia).
  apply wp_bind, wp_Store; rewrite Hlen, Z2Nat.id by lia; [by eapply touches_block|].
  intros h2 Hl2 _. unfold wp, Free. rewrite <- Hl2. apply load_agree.
  intros a Ha. apply (Hfree p h1 Hrun), Hb. lia.
Qed.

End Pin.
