(* ===== verification/Boot.v ===== *)
(** * Loading the module: subs, constants and export tags
      (boot_Affix in Affix.cxx, boot_Affix_Pointer, boot_Affix_pin, boot_Affix_Lib,
       boot_Affix_Platform, and the helpers of Utils.cxx)

    Perl's symbol table is a map from full names to subs; a call VM is made when
    the module is loaded and freed in its END block. *)

From S2P Require Import Marshal Platform.
From stdpp Require Import gmap strings pretty.
#[local] Open Scope string_scope.
#[local] Open Scope list_scope.
#[local] Open Scope Z_scope.

(** ** Perl's symbol table *)

Inductive const := IV (z : Z) | NV (z : Z) | PV (s : string) | Bool (b : bool).

(** A sub in C, with its prototype and [XSANY.any_i32], or a constant. *)
Inductive sub := XSub (c_impl proto : string) (ix : Z) | Constant (v : const).

(** [tags] holds the [%EXPORT_TAGS] of the packages; a tag that is not a reference
    to an array is [None].  [isa] holds the [@ISA]s. *)
Record perl := {
  subs : gmap string sub;
  tags : gmap string (gmap string (option (list string)));
  isa : gmap string (list string);
}.

Definition qualified (package name : string) : string := package +:+ "::" +:+ name.

Definition set_sub (full : string) (s : sub) (p : perl) : perl :=
  {| subs := <[full := s]> (subs p); tags := tags p; isa := isa p |}.

(** The actions one after the other. *)
Definition run (l : list (perl -> perl)) (p : perl) : perl := foldl (fun p f => f p) p l.

Definition newXSproto_portable (full c_impl proto : string) : perl -> perl := set_sub full (XSub c_impl proto 0).

Definition register_constant (package name : string) (v : const) : perl -> perl := set_sub (qualified package name) (Constant v).

(** The tag is added to, or made if it is no array yet. *)
Definition _export_function (_export : gmap string (option (list string))) (what _tag : string) : gmap string (option (list string)) :=
  match _export !! _tag with
  | Some (Some names) => <[_tag := Some (names ++ [what])]> _export
  | _ => <[_tag := Some [what]]> _export
  end.

Definition export_function (package what tag : string) (p : perl) : perl :=
  {| subs := subs p;
     tags := <[package := _export_function (default ∅ (tags p !! package)) what tag]> (tags p);
     isa := isa p |}.

Definition export_constant_char (package name _tag : string) (val : ascii) (p : perl) : perl :=
  export_function package name _tag (register_constant package name (PV (String val "")) p).

Definition export_constant (package name _tag : string) (val : Z) (p : perl) : perl :=
  export_function package name _tag (register_constant package name (NV val) p).

Definition set_isa (klass parent : string) (p : perl) : perl :=
  {| subs := subs p; tags := tags p; isa := <[klass := default [] (isa p !! klass) ++ [parent]]> (isa p) |}.

(** ** The parts of the module *)

Definition boot_Affix_pin : perl -> perl := run
  [newXSproto_portable "Affix::pin" "Affix_pin" "$$$$"; export_function "Affix" "pin" "base";
   newXSproto_portable "Affix::unpin" "Affix_unpin" "$"; export_function "Affix" "unpin" "base"].

Definition boot_Affix_Pointer : perl -> perl := run
  [newXSproto_portable "Affix::malloc" "Affix_malloc" "$"; export_function "Affix" "malloc" "memory";
   newXSproto_portable "Affix::calloc" "Affix_calloc" "$$"; export_function "Affix" "calloc" "memory";
   newXSproto_portable "Affix::realloc" "Affix_realloc" "$$"; export_function "Affix" "realloc" "memory";
   newXSproto_portable "Affix::free" "Affix_free" "$"; export_function "Affix" "free" "memory";
   newXSproto_portable "Affix::memchr" "Affix_memchr" "$$$"; export_function "Affix" "memchr" "memory";
   newXSproto_portable "Affix::memcmp" "Affix_memcmp" "$$$"; export_function "Affix" "memcmp" "memory";
   newXSproto_portable "Affix::memset" "Affix_memset" "$$$"; export_function "Affix" "memset" "memory";
   newXSproto_portable "Affix::memcpy" "Affix_memcpy" "$$$"; export_function "Affix" "memcpy" "memory";
   newXSproto_portable "Affix::memmove" "Affix_memmove" "$$$"; export_function "Affix" "memmove" "memory";
   newXSproto_portable "Affix::strdup" "Affix_strdup" "$"; export_function "Affix" "strdup" "memory";
   newXSproto_portable "Affix::sv2ptr" "Affix_sv2ptr" "$$";
   newXSproto_portable "Affix::ptr2sv" "Affix_ptr2sv" "$$";
   newXSproto_portable "Affix::Pointer::sv" "Affix_Pointer_sv" "$;$";
   newXSproto_portable "Affix::Pointer::raw" "Affix_Pointer_raw" "$$;$";
   newXSproto_portable "Affix::Pointer::dump" "Affix_Pointer_DumpHex" "$$";
   newXSproto_portable "Affix::DumpHex" "Affix_Pointer_DumpHex" "$$";
   newXSproto_portable "Affix::Pointer::DESTROY" "Affix_Pointer_DESTROY" "$";
   newXSproto_portable "Affix::Pointer::free" "Affix_free" "$";
   newXSproto_portable "Affix::Pointer::cast" "Affix_cast" "$";
   set_isa "Affix::Pointer::Unmanaged" "Affix::Pointer";
   set_isa "Affix::Type::Ref" "Affix::Type::Pointer";
   set_isa "Affix::Ref" "Affix::Pointer"].

(** [list_unmangled_symbols] needs the C++ ABI of GCC and clang. *)
Definition boot_Affix_Lib (c : config) : perl -> perl := run
  ((match c_compiler c with
    | C_GNU | C_CLANG =>
      [newXSproto_portable "Affix::Lib::list_unmangled_symbols" "Affix_Lib_list_unmangled_symbols" "$"]
    | _ => []
    end) ++ [newXSproto_portable "Affix::Lib::path" "Affix_Lib_path" "$"]).

(** ** Platform.cxx

    [is_defined] compares a macro's name with what it expands to. *)
Section PlatformConstants.
Context (e : env).
Let c := config_of e.

(** What the compiler says of its types. *)
Variable sizeof alignof : string -> Z.
(** [INTSIZE] of Perl. *)
Variable INTSIZE : Z.

Definition os_name (o : os) : string :=
  match o with
  | Win64 => "Win64" | Win32 => "Win32" | MacOSX => "macOS" | IPhone => "iOS" | Linux => "Linux" | FreeBSD => "FreeBSD"
  | OpenBSD => "OpenBSD" | NetBSD => "NetBSD" | DragonFlyBSD => "DragonFly BSD" | NDS => "Nintendo DS"
  | PSP => "PlayStation Portable" | BeOS => "Haiku" | Plan9 => "Plan9" | VMS => "VMS" | Minix => "Minix"
  | SunOS | OS_UNKNOWN => "Unknown"
  end.

Definition compiler_name (k : compiler) : string :=
  match k with
  | C_Intel => "Intel" | C_MSVC => "MSVC" | C_CLANG => "Clang" | C_GNU => "GNU" | C_WATCOM => "Watcom" | C_PCC => "ppc"
  | C_SUNPRO => "Oracle" | C_UNKNOWN => "Unknown"
  end.

Definition apple_silicon : bool := any_defined e ["__arm64__"; "__arm64e__"; "__aarch64__"] && bool_decide (c_os c = MacOSX).

(** The branch for 32-bit PowerPC asks for [DC__Arch_PPC64] once more. *)
Definition architecture : string :=
  if apple_silicon then "Apple Silicon"
  else match c_arch c with
  | Some AMD64 => "x86_64" | Some Intel_x86 => "x86" | Some Itanium => "Itanium" | Some PPC64 => "PPC64"
  | Some MIPS64 => "MIPS64" | Some MIPS => "MIPS" | Some ARM => "ARM" | Some ARM64 => "ARM64" | Some SuperH => "SuperH"
  | Some Sparc64 => "SPARC64" | Some Sparc => "SPARC"
  | Some PPC32 | None => "Unknown"
  end.

Definition obj_name : string :=
  match c_obj c with
  | Obj_PE => "PE" | Obj_Mach => "Mach-O" | Obj_ELF64 => "64-bit ELF" | Obj_ELF32 => "32-bit ELF" | Obj_Unknown => "Unknown"
  end.

Definition DYNCALL_VERSION : Z := 0x150c.

Definition stage : string := if Z.land DYNCALL_VERSION 0xf =? 0xf then "release" else "current".

Definition version_constants : list (string * const) :=
  [("DC_Major", IV (Z.shiftr DYNCALL_VERSION 12));
   ("DC_Minor", IV (Z.land (Z.shiftr DYNCALL_VERSION 8) 0xf));
   ("DC_Patch", IV (Z.land (Z.shiftr DYNCALL_VERSION 4) 0xf));
   ("DC_Stage", PV stage);
   ("DC_RawVersion", IV DYNCALL_VERSION)].

Definition is_arch (a : arch) : const := Bool (bool_decide (c_arch c = Some a)).

Definition basic_constants : list (string * const) :=
  [("OS", PV (os_name (c_os c)));
   ("Cygwin", Bool match c_win_env c with Some Cygwin => true | _ => false end);
   ("MinGW", Bool match c_win_env c with Some MinGW => true | _ => false end);
   ("Compiler", PV (compiler_name (c_compiler c)));
   ("Architecture", PV architecture);
   ("ARCH_Apple_Silicon", Bool apple_silicon);
   ("ARCH_x86_64", is_arch AMD64); ("ARCH_x86", is_arch Intel_x86); ("ARCH_Itanium", is_arch Itanium);
   ("ARCH_PPC64", is_arch PPC64); ("ARCH_PPC32", is_arch PPC32); ("ARCH_MIPS64", is_arch MIPS64);
   ("ARCH_MIPS", is_arch MIPS); ("ARCH_ARM", is_arch ARM); ("ARCH_ARM64", is_arch ARM64);
   ("ARCH_SuperH", is_arch SuperH); ("ARCH_Sparc64", is_arch Sparc64); ("ARCH_Sparc", is_arch Sparc)].

Definition has_mips_abi (m : mips_abi) : const :=
  Bool match c_mips_abi c, m with
       | Some MIPS_O32, MIPS_O32 | Some MIPS_N64, MIPS_N64 | Some MIPS_N32, MIPS_N32 | Some MIPS_EABI, MIPS_EABI => true
       | _, _ => false
       end.

Definition abi_constants : list (string * const) :=
  [("ARM_Thumb", Bool match c_arm c with Some ARM_THUMB => true | _ => false end);
   ("ARM_EABI", Bool match c_arm_abi c with Some ARM_EABI => true | _ => false end);
   ("ARM_OABI", Bool match c_arm_abi c with Some ARM_OABI => true | _ => false end);
   ("MIPS_O32", has_mips_abi MIPS_O32); ("MIPS_N64", has_mips_abi MIPS_N64);
   ("MIPS_N32", has_mips_abi MIPS_N32); ("MIPS_EABI", has_mips_abi MIPS_EABI);
   ("HardFloat", Bool (hf c || default false (c_hardfloat c)));
   ("BigEndian", Bool (bool_decide (c_endian c = Some BigEndian)));
   ("Syscall", Bool (feature_syscall (c_os c) (c_arch c)));
   ("AggrByValue", Bool (feature_aggr_by_val (c_arch c)))].

(** [DC__Obj_ELF] comes with one of the two widths. *)
Definition obj_constants : list (string * const) :=
  [("OBJ_PE", Bool match c_obj c with Obj_PE => true | _ => false end);
   ("OBJ_Mach", Bool match c_obj c with Obj_Mach => true | _ => false end);
   ("OBJ_ELF", Bool match c_obj c with Obj_ELF64 | Obj_ELF32 => true | _ => false end);
   ("OBJ_ELF64", Bool match c_obj c with Obj_ELF64 => true | _ => false end);
   ("OBJ_ELF32", Bool match c_obj c with Obj_ELF32 => true | _ => false end);
   ("OBJ", PV obj_name)].

Definition is_os (o : os) : const := Bool (bool_decide (c_os c = o)).

Definition os_constants : list (string * const) :=
  [("Win64", is_os Win64); ("Win32", is_os Win32); ("macOS", is_os MacOSX); ("iPhone", is_os IPhone); ("Linux", is_os Linux);
   ("FreeBSD", is_os FreeBSD); ("OpenBSD", is_os OpenBSD); ("NetBSD", is_os NetBSD); ("DragonFlyBSD", is_os DragonFlyBSD);
   ("NintendoDS", is_os NDS); ("SonyPSP", is_os PSP); ("BeOS", is_os BeOS); ("Plan9", is_os Plan9); ("VMS", is_os VMS);
   ("Minix", is_os Minix)].

(** Nobody has defined [SIZEOF_SIZE_T] where Affix.h asks for its value, so that it is
    0 in the conditions, and the last branch is taken. *)
Definition SIZEOF_SIZE_T : Z := sizeof "unsigned long long".

Definition size_constants : list (string * Z) :=
  [("SIZEOF_BOOL", sizeof "bool"); ("SIZEOF_CHAR", sizeof "char"); ("SIZEOF_SCHAR", sizeof "signed char");
   ("SIZEOF_UCHAR", sizeof "unsigned char"); ("SIZEOF_WCHAR", sizeof "wchar_t"); ("SIZEOF_SHORT", sizeof "short");
   ("SIZEOF_USHORT", sizeof "unsigned short"); ("SIZEOF_INT", INTSIZE); ("SIZEOF_UINT", sizeof "unsigned int");
   ("SIZEOF_LONG", sizeof "long"); ("SIZEOF_ULONG", sizeof "unsigned long"); ("SIZEOF_LONGLONG", sizeof "long long");
   ("SIZEOF_ULONGLONG", sizeof "unsigned long long"); ("SIZEOF_FLOAT", sizeof "float"); ("SIZEOF_DOUBLE", sizeof "double");
   ("SIZEOF_SIZE_T", SIZEOF_SIZE_T); ("SIZEOF_INTPTR_T", sizeof "intptr_t")].

Definition alignment_constants : list (string * Z) :=
  [("BYTE_ALIGN", AFFIX_ALIGNBYTES); ("ALIGNOF_BOOL", alignof "bool"); ("ALIGNOF_CHAR", alignof "char");
   ("ALIGNOF_UCHAR", alignof "unsigned char"); ("ALIGNOF_SCHAR", alignof "signed char"); ("ALIGNOF_WCHAR", alignof "wchar_t");
   ("ALIGNOF_SHORT", alignof "short"); ("ALIGNOF_USHORT", alignof "unsigned short"); ("ALIGNOF_INT", alignof "int");
   ("ALIGNOF_UINT", alignof "unsigned int"); ("ALIGNOF_LONG", alignof "long"); ("ALIGNOF_ULONG", alignof "unsigned long");
   ("ALIGNOF_LONGLONG", alignof "long long"); ("ALIGNOF_ULONGLONG", alignof "unsigned long long");
   ("ALIGNOF_FLOAT", alignof "float"); ("ALIGNOF_DOUBLE", alignof "double"); ("ALIGNOF_SIZE_T", alignof "size_t");
   ("ALIGNOF_INTPTR_T", alignof "intptr_t")].

Definition register (l : list (string * const)) : list (perl -> perl) :=
  map (fun x => register_constant "Affix::Platform" (fst x) (snd x)) l.
Definition export (package tag : string) (l : list (string * Z)) : list (perl -> perl) :=
  map (fun x => export_constant package (fst x) tag (snd x)) l.

(** [%7s] *)
Definition pad (n : nat) (s : string) : string := String.concat "" (repeat " " (n - String.length s)) +:+ s.

Definition DC_Version : string :=
  pretty (Z.shiftr DYNCALL_VERSION 12) +:+ "." +:+ pretty (Z.land (Z.shiftr DYNCALL_VERSION 8) 0xf) +:+ "-" +:+ pad 7 stage.

Definition boot_Affix_Platform : perl -> perl := run
  (register [("DC_Version", PV DC_Version)] ++ register version_constants ++
   register basic_constants ++ register abi_constants ++ register obj_constants ++
   export "Affix::Platform" "sizeof" size_constants ++ export "Affix::Platform" "all" alignment_constants ++
   register os_constants).
End PlatformConstants.

(** ** The flags and slots of Affix.h *)

Definition flag_name (f : flag) : string :=
  match f with
  | VOID_FLAG => "VOID_FLAG" | BOOL_FLAG => "BOOL_FLAG" | SCHAR_FLAG => "SCHAR_FLAG" | CHAR_FLAG => "CHAR_FLAG"
  | UCHAR_FLAG => "UCHAR_FLAG" | WCHAR_FLAG => "WCHAR_FLAG" | SHORT_FLAG => "SHORT_FLAG" | USHORT_FLAG => "USHORT_FLAG"
  | INT_FLAG => "INT_FLAG" | UINT_FLAG => "UINT_FLAG" | LONG_FLAG => "LONG_FLAG" | ULONG_FLAG => "ULONG_FLAG"
  | LONGLONG_FLAG => "LONGLONG_FLAG" | ULONGLONG_FLAG => "ULONGLONG_FLAG" | FLOAT_FLAG => "FLOAT_FLAG"
  | DOUBLE_FLAG => "DOUBLE_FLAG" | WSTRING_FLAG => "WSTRING_FLAG" | STDSTRING_FLAG => "STDSTRING_FLAG"
  | STRUCT_FLAG => "STRUCT_FLAG" | CPPSTRUCT_FLAG => "CPPSTRUCT_FLAG" | UNION_FLAG => "UNION_FLAG"
  | AFFIX_FLAG => "AFFIX_FLAG" | CODEREF_FLAG => "CODEREF_FLAG" | POINTER_FLAG => "POINTER_FLAG" | SV_FLAG => "SV_FLAG"
  end.

(** As for [SIZEOF_SIZE_T], the last branch. *)
Definition SIZE_T_FLAG : flag := ULONGLONG_FLAG.

Definition code (a : ascii) : Z := Z.of_N (N_of_ascii a).
Definition flag_const (f : flag) : string * Z := (flag_name f, code (flag_char f)).

Definition type_flags : list (string * Z) :=
  map flag_const [VOID_FLAG; BOOL_FLAG; SCHAR_FLAG; CHAR_FLAG; UCHAR_FLAG; WCHAR_FLAG; SHORT_FLAG; USHORT_FLAG; INT_FLAG;
                  UINT_FLAG; LONG_FLAG; ULONG_FLAG; LONGLONG_FLAG; ULONGLONG_FLAG] ++
  [("SIZE_T_FLAG", code (flag_char SIZE_T_FLAG))] ++
  map flag_const [FLOAT_FLAG; DOUBLE_FLAG; WSTRING_FLAG; STDSTRING_FLAG; STRUCT_FLAG; AFFIX_FLAG; CPPSTRUCT_FLAG; UNION_FLAG;
                  CODEREF_FLAG; POINTER_FLAG; SV_FLAG].

Definition convention_flags : list (string * Z) :=
  map (fun x => (fst x, code (snd x)))
    [("RESET_FLAG", ">"%char); ("THIS_FLAG", "*"%char); ("ELLIPSIS_FLAG", "e"%char); ("VARARGS_FLAG", "."%char); ("DCECL_FLAG", "D"%char);
     ("STDCALL_FLAG", "T"%char); ("MSFASTCALL_FLAG", "="%char); ("GNUFASTCALL_FLAG", "3"%char); ("MSTHIS_FLAG", "+"%char); ("GNUTHIS_FLAG", "#"%char);
     ("ARM_FLAG", "r"%char); ("THUMB_FLAG", "g"%char); ("SYSCALL_FLAG", "H"%char)].

Definition type_slots : list (string * Z) :=
  [("SLOT_TYPE_STRINGIFY", 0); ("SLOT_TYPE_NUMERIC", 1); ("SLOT_TYPE_SIZEOF", 2); ("SLOT_TYPE_ALIGNMENT", 3);
   ("SLOT_TYPE_OFFSET", 4); ("SLOT_TYPE_SUBTYPE", 5); ("SLOT_TYPE_ARRAYLEN", 6); ("SLOT_TYPE_CONST", 7);
   ("SLOT_TYPE_VOLATILE", 8); ("SLOT_TYPE_RESTRICT", 9); ("SLOT_TYPE_AGGREGATE", 11); ("SLOT_TYPE_FIELD", 12);
   ("SLOT_TYPE_TYPEDEF", 10); ("SLOT_CODEREF_ARGS", 12); ("SLOT_CODEREF_SIG", 13);
   ("SLOT_POINTER_ADDR", 0); ("SLOT_POINTER_SUBTYPE", 1); ("SLOT_POINTER_COUNT", 2); ("SLOT_POINTER_POSITION", 3)].

(** ** The module, with its call VM *)
Section Module.
Context {VM : Type}.
Variable dcNewCallVM : Z -> VM.
Context (e : env).
Variable sizeof alignof : string -> Z.
Variable INTSIZE : Z.

(** [MY_CXT.cvm]: NULL, or a VM that is there, or one that has been freed. *)
Inductive cvm := NoVM | Live (vm : VM) | Freed.

Definition affix_subs : list (perl -> perl) :=
  [newXSproto_portable "Affix::DESTROY" "Affix_DESTROY" "$;$";
   newXSproto_portable "Affix::END" "Affix_END" "";
   newXSproto_portable "Affix::sv_dump" "Affix_sv_dump" "$";
   newXSproto_portable "Affix::set_destruct_level" "Affix_set_destruct_level" "$";
   newXSproto_portable "Affix::load_library" "Affix_load_library" "$";
   newXSproto_portable "Affix::free_library" "Affix_free_library" "$;$";
   newXSproto_portable "Affix::list_symbols" "Affix_list_symbols" "$";
   newXSproto_portable "Affix::find_symbol" "Affix_find_symbol" "$$";
   newXSproto_portable "Affix::dlerror" "Affix_dlerror" "";
   set_sub "Affix::affix" (XSub "Affix_fiction" "$$;$$" 0); export_function "Affix" "affix" "base";
   set_sub "Affix::wrap" (XSub "Affix_fiction" "$$;$$" 1); export_function "Affix" "wrap" "base";
   newXSproto_portable "Affix::Typex::new" "Affix_Type_new" "$$$$$$";
   newXSproto_portable "Affix::Typex::sizeof" "Affix_Type_sizeof" "$";
   newXSproto_portable "Affix::Typex::alignment" "Affix_Type_alignment" "$";
   newXSproto_portable "Affix::Typex::offset" "Affix_Type_offset" "$;$";
   newXSproto_portable "Affix::Typex::typedef" "Affix_Type_typedef" "$$";
   newXSproto_portable "Affix::Typex::pointer" "Affix_Type_pointer" "$;$";
   newXSproto_portable "Affix::Typex::const" "Affix_Type_const" "$;$";
   newXSproto_portable "Affix::Typex::stringify" "Affix_Type_stringify" "$$";
   newXSproto_portable "Affix::Typex::DESTROY" "Affix_Type_DESTROY" "$"].

(** [vmsize] is the value of [$Affix::VMSize], if there is such a variable. *)
Definition boot_Affix (vmsize : option Z) (p : perl) : cvm * perl :=
  let cvm := Live (dcNewCallVM match vmsize with None => 8192 | Some n => wrapU 64 n end) in
  (cvm,
   run (affix_subs ++ export "Affix" "flags" type_flags ++ export "Affix" "flags" convention_flags ++
        export "Affix" "flags" type_slots ++
        [boot_Affix_pin; boot_Affix_Pointer; boot_Affix_Lib (config_of e); boot_Affix_Platform e sizeof alignof INTSIZE]) p).

(** The pointer is not reset; freeing twice is undefined. *)
Definition Affix_END (c : cvm) : option cvm :=
  match c with
  | NoVM => Some NoVM
  | Live _ => Some Freed
  | Freed => None
  end.

(** The VM a call starts with. *)
Definition vm_of_call (c : cvm) : option VM := match c with Live vm => Some vm | _ => None end.
End Module.

(** ** What is exported is there *)

Definition exported (p : perl) (package tag name : string) : Prop :=
  exists t names, tags p !! package = Some t /\ t !! tag = Some (Some names) /\ name ∈ names.

(** From [p] to [q] subs are added, and names exported only if they are defined. *)
Definition grows (p q : perl) : Prop :=
  (forall s, is_Some (subs p !! s) -> is_Some (subs q !! s)) /\
  (forall package tag name, exported q package tag name ->
     exported p package tag name \/ is_Some (subs q !! qualified package name)).

#[export] Instance grows_refl : Reflexive grows.
Proof. intros p. split; auto. Qed.

Lemma exported_export_function package what tag p package' tag' name :
  exported (export_function package what tag p) package' tag' name ->
  exported p package' tag' name \/ (package' = package /\ name = what).
Proof.
  intros (t & names & Ht & Hn & Hin). cbn in Ht. destruct (decide (package' = package)) as [->|Hp].
  - rewrite lookup_insert_eq in Ht. injection Ht as <-. unfold _export_function in Hn.
    destruct (decide (tag' = tag)) as [->|Hne].
    + destruct (default ∅ (tags p !! package) !! tag) as [[old|]|] eqn:Ho; rewrite lookup_insert_eq in Hn; injection Hn as <-.
      * apply elem_of_app in Hin as [Hin|Hin%list_elem_of_singleton]; [left|by right].
        destruct (tags p !! package) as [t|] eqn:E; [|done]. by exists t, old.
      * apply list_elem_of_singleton in Hin. by right.
      * apply list_elem_of_singleton in Hin. by right.
    + assert (default ∅ (tags p !! package) !! tag' = Some (Some names)) as Ho
        by (destruct (default ∅ (tags p !! package) !! tag) as [[]|]; by rewrite lookup_insert_ne in Hn by done).
      left. destruct (tags p !! package) as [t|] eqn:E; [|done]. by exists t, names.
  - rewrite lookup_insert_ne in Ht by done. left. by exists t, names.
Qed.

Lemma grows_set_sub p q full s : grows p q -> grows p (set_sub full s q).
Proof.
  intros [Hs He]. assert (Hmono : forall k, is_Some (subs q !! k) -> is_Some (subs (set_sub full s q) !! k)).
  { intros k Hk. cbn. destruct (decide (k = full)) as [->|]; [rewrite lookup_insert_eq; eauto|by rewrite lookup_insert_ne]. }
  split; [auto|]. intros package tag name H. destruct (He package tag name) as [|]; auto.
Qed.

Lemma grows_export_function p q package what tag :
  grows p q -> is_Some (subs q !! qualified package what) -> grows p (export_function package what tag q).
Proof.
  intros [Hs He] Hd. split; [exact Hs|]. intros package' tag' name [H|[-> ->]]%exported_export_function; auto.
Qed.

(** A sub, and then its name. *)
Lemma grows_sub_export p q full s package what tag :
  grows p q -> full = qualified package what -> grows p (export_function package what tag (set_sub full s q)).
Proof.
  intros H ->. apply grows_export_function; [by apply grows_set_sub|]. cbn. rewrite lookup_insert_eq. eauto.
Qed.

Lemma grows_set_isa p q klass parent : grows p q -> grows p (set_isa klass parent q).
Proof. done. Qed.

Lemma run_app l1 l2 p : run (l1 ++ l2) p = run l2 (run l1 p).
Proof. apply foldl_app. Qed.

Lemma grows_export package tag l : forall p q, grows p q -> grows p (run (export package tag l) q).
Proof.
  induction l as [|[name v] l IH]; intros p q H; [done|]. cbn. apply IH. by apply grows_sub_export.
Qed.

Lemma grows_register l : forall p q, grows p q -> grows p (run (register l) q).
Proof. induction l as [|[name v] l IH]; intros p q H; [done|]. cbn. apply IH. by apply grows_set_sub. Qed.

(** A list of actions, the last one first. *)
Ltac boot_step :=
  lazymatch goal with
  | |- grows _ (set_isa _ _ _) => simple apply grows_set_isa
  | |- grows _ (export_function _ _ _ (set_sub _ _ _)) => simple apply grows_sub_export; [|reflexivity]
  | |- grows _ (set_sub _ _ _) => simple apply grows_set_sub
  end.
Ltac boot_steps := cbn [run foldl]; unfold newXSproto_portable; repeat boot_step; assumption.

Lemma grows_pin p q : grows p q -> grows p (boot_Affix_pin q).
Proof. intros H. unfold boot_Affix_pin. boot_steps. Qed.

Lemma grows_Pointer p q : grows p q -> grows p (boot_Affix_Pointer q).
Proof. intros H. unfold boot_Affix_Pointer. boot_steps. Qed.

Lemma grows_Lib c p q : grows p q -> grows p (boot_Affix_Lib c q).
Proof. intros H. unfold boot_Affix_Lib. destruct (c_compiler c); cbn [app]; boot_steps. Qed.

Lemma grows_Platform e sizeof alignof INTSIZE p q : grows p q -> grows p (boot_Affix_Platform e sizeof alignof INTSIZE q).
Proof. intros H. unfold boot_Affix_Platform. rewrite !run_app. repeat first [assumption | apply grows_register | apply grows_export]. Qed.

Lemma grows_affix_subs p q : grows p q -> grows p (run affix_subs q).
Proof. intros H. unfold affix_subs. boot_steps. Qed.

(** C40: whatever the module exports when it is loaded is defined.  On every
    platform, a name in a tag of any package was in it before, or is that of a sub
    or a constant of this package. *)
Theorem boot_exports_defined {VM} (new : Z -> VM) e sizeof alignof INTSIZE vmsize p package tag name :
  let p' := snd (boot_Affix new e sizeof alignof INTSIZE vmsize p) in
  exported p' package tag name -> exported p package tag name \/ is_Some (subs p' !! qualified package name).
Proof.
  cbv zeta. assert (grows p (snd (boot_Affix new e sizeof alignof INTSIZE vmsize p))) as [_ H]; [|exact (H package tag name)].
  unfold boot_Affix. cbn [snd]. rewrite !run_app. unfold run at 1. cbn [foldl].
  apply grows_Platform, grows_Lib, grows_Pointer, grows_pin. do 3 apply grows_export. by apply grows_affix_subs.
Qed.

(** ** The call VM *)

(** Loading the module makes a VM, which the END block frees; a call after it, or a
    second END, uses memory that has been freed. *)
Theorem vm_lifetime {VM} (new : Z -> VM) e sizeof alignof INTSIZE vmsize p :
  let c := fst (boot_Affix new e sizeof alignof INTSIZE vmsize p) in
  vm_of_call c = Some (new (default 8192 (wrapU 64 <$> vmsize))) /\
  exists c', Affix_END c = Some c' /\ vm_of_call c' = None /\ Affix_END c' = None.
Proof. cbn. split; [by destruct vmsize|]. exists Freed. repeat split. Qed.

(** ** Constants *)

(** No two flags of types and calling conventions share a character, so that a
    signature can be read; only size_t stands for another type. *)
Theorem flags_distinct :
  NoDup (map snd (filter (fun x => fst x <> "SIZE_T_FLAG") (type_flags ++ convention_flags))) /\
  List.find (fun x => String.eqb (fst x) "SIZE_T_FLAG") type_flags = Some ("SIZE_T_FLAG", code (flag_char ULONGLONG_FLAG)).
Proof. split; [apply (bool_decide_unpack _); vm_compute; exact I|reflexivity]. Qed.

(** On 32-bit PowerPC the name of the architecture is not known, although the
    constant for it is true. *)
Theorem ppc32_architecture e :
  c_arch (config_of e) = Some PPC32 -> apple_silicon e = false ->
  architecture e = "Unknown" /\ ("ARCH_PPC32", Bool true) ∈ basic_constants e.
Proof.
  intros Ha Hs. unfold architecture. rewrite Hs, Ha. split; [done|]. unfold basic_constants, is_arch. rewrite Ha.
  rewrite (bool_decide_true (Some PPC32 = Some PPC32)) by done. rewrite !elem_of_cons. tauto.
Qed.

(** ** On a platform *)
Module Examples.

Definition no_perl : perl := {| subs := ∅; tags := ∅; isa := ∅ |}.
Definition linux : env :=
  list_to_map [("__linux__", 1); ("__x86_64__", 1); ("__GNUC__", 13); ("__LP64__", 1); ("__ELF__", 1)].
Definition sizeof (t : string) : Z := if String.eqb t "int" then 4 else 8.
Definition loaded : perl := snd (boot_Affix (fun n => n) linux sizeof sizeof 4 None no_perl).

Example base_tag :
  (t ← tags loaded !! "Affix"; t !! "base") = Some (Some ["affix"; "wrap"; "pin"; "unpin"]).
Proof. vm_compute. reflexivity. Qed.

Example platform_constants :
  map (fun n => subs loaded !! ("Affix::Platform::" +:+ n)) ["OS"; "Linux"; "Architecture"; "DC_Version"; "SIZEOF_INT"; "BigEndian"]
  = map (fun v => Some (Constant v)) [PV "Linux"; Bool true; PV "x86_64"; PV "1.5-current"; NV 4; Bool false].
Proof. vm_compute. reflexivity. Qed.

(** The flag of [StdString] has a name that [StdString] of Affix/Type.pm does not use. *)
Example stdstring_flag :
  subs loaded !! "Affix::STDSTRING_FLAG" = Some (Constant (NV 89)) /\ subs loaded !! "Affix::STD_STRING_FLAG" = None.
Proof. split; vm_compute; reflexivity. Qed.

Lemma boot_exports_defined_witness : is_Some (subs loaded !! "Affix::pin").
Proof.
  destruct (boot_exports_defined (fun n => n) linux sizeof sizeof 4 None no_perl "Affix" "base" "pin") as [H|H].
  - eexists _, _. split; [vm_compute; reflexivity|]. split; [vm_compute; reflexivity|]. apply (bool_decide_unpack _). reflexivity.
  - destruct H as (t & names & Ht & _). discriminate Ht.
  - exact H.
Defined.
End Examples.
