(* ===== verification/FictionExamples.v ===== *)
(** * Calls and callbacks on concrete values

    An affixed function with seven arguments, among them a string and a pointer
    to a struct, whose entry point is a callback into a Perl sub; on x86-64
    System V with the Perl of PerlModel.v. *)

From S2P Require Export FictionX64 Library Pin MarshalExamples X64Examples.
From stdpp Require Import gmap.
#[local] Open Scope Z_scope.

Section Examples.
#[local] Instance sysv_dm : DataModel := x64_dm false.
#[local] Instance sysv_ok : DataModelOk := x64_dm_ok false.

(** A loader that knows one library and one symbol, and counts. *)
#[local] Instance one_library : Loader sv nat := {|
  lib_object d := match d with Obj _ a => a | _ => None end;
  load_library path n := match path with
    | Some p => if decide (p = bytes_of "lib") then Some (7, S n) else None
    | None => None end;
  free_library h n := if h =? 7 then pred n else n;
  find_symbol n _ s := if decide (s = bytes_of "apply") then Some 4096 else None;
  stat_ok _ := false;
  find_library _ := bytes_of "lib";
  is_path _ := false;
|}.

#[local, refine] Instance one_library_laws : LoaderLaws sv nat := {
  opens n h := if h =? 7 then n else O;
}.
Proof.
  - intros path ls h ls'. cbn. destruct path as [p|]; [|done]. case_decide; [|done]. intros [= <- <-].
    split; [done|]. intros k Hk. by rewrite (proj2 (Z.eqb_neq k 7)).
  - intros h ls. cbn. split; [by destruct (h =? 7)|]. intros k Hk.
    destruct (Z.eqb_spec k 7) as [->|]; [|done]. by rewrite (proj2 (Z.eqb_neq h 7)).
Defined.

Definition float_id (x : Z) : Z := x.

Definition ex_types : list axt :=
  [scalar_type 4 INT_FLAG; String_type 4; pointer_type Thing 1; scalar_type 4 USHORT_FLAG;
   scalar_type 4 BOOL_FLAG; scalar_type 4 DOUBLE_FLAG; scalar_type 4 CHAR_FLAG].
Definition ex_values : list sv :=
  [IVal (-7); PVal (bytes_of "fiction") false; thing; UVal 32767; Bool true; NVal 4607182418800017408; IVal 65].

Definition ex_fiction : fiction sv :=
  Build_fiction 7 4096 (bytes_of "apply") (Some (sig_of ex_types)) ex_types (Some (String_type 4))
    (Some newSV) POINTER_FLAG false.
Definition ex_coderef : CodeRef sv :=
  Build_CodeRef (sig_of ex_types) ex_types (String_type 4) POINTER_FLAG (Code 1).

(** The library is found by the search, since there is no such file. *)
Example ex_affix :
  let '(m, n) := Affix_fiction false (PVal (bytes_of "short") false) (PVal (bytes_of "apply") false)
    (Some (Some ex_types)) (Some (String_type 4)) O in
  m ∅ = Ret (ex_fiction, Some (bytes_of "apply")) ∅ /\ n = 1%nat.
Proof. by vm_compute. Qed.

Definition ex_sub (cv : sv) (args : list sv) : C sv := mret (PVal (bytes_of "done") false).

#[local] Abbreviation ex_call sub := (perl_call (M := x64_Machine false ex_junk (ex_cb (-2) []) ex_mem ex_cpu ex_ret (replicate 32 9))
  4 float_id float_id true (replicate 8 0) 0 (Undef false) sub (fun _ => None)).

Lemma x64_calls_reach_perl_witness :
  Forall2 (fits_arg float_id float_id) ex_types ex_values /\
  match ex_call ex_sub ex_fiction ex_coderef (ex_vm false) ex_values ∅ with
  | Ret v _ => SvPV v = bytes_of "done" | _ => False end /\
  wp (ex_call ex_sub ex_fiction ex_coderef (ex_vm false) ex_values) ∅ (fun v _ => exists svs r h0 h1,
    Forall3 means ex_types ex_values svs /\ (forall p b, (∅ : heap) !! p = Some b -> h0 !! p = Some b) /\
    ex_sub (Code 1) svs h0 = Ret r h1 /\ means (String_type 4) r v).
Proof.
  assert (Hfit : Forall2 (fits_arg float_id float_id) ex_types ex_values).
  { repeat constructor; vm_compute; reflexivity. }
  split; [exact Hfit|]. split; [vm_compute; reflexivity|].
  apply (x64_calls_reach_perl false ex_junk (ex_cb (-2) []) ex_mem ex_cpu ex_ret (replicate 32 9) eq_refl eq_refl
    4 float_id float_id true (replicate 8 0) 0 (Undef false) ex_sub (fun _ => None)
    ex_types (String_type 4) ex_fiction ex_coderef (ex_vm false) ex_values ∅).
  - by constructor.
  - by constructor.
  - reflexivity.
  - apply ex_vm_alloc.
  - discriminate.
  - vm_compute. discriminate.
  - exact Hfit.
  - intros svs h' _. split; vm_compute; reflexivity.
Defined.

Definition uint_type : axt := scalar_type 4 UINT_FLAG.
Definition uint_fiction : fiction sv :=
  Build_fiction 7 4096 (bytes_of "apply") (Some (sig_of [uint_type])) [uint_type] (Some uint_type)
    (Some newSV) UINT_FLAG false.
Definition uint_coderef : CodeRef sv := Build_CodeRef (sig_of [uint_type]) [uint_type] uint_type UINT_FLAG (Code 1).
Definition big_sub (cv : sv) (args : list sv) : C sv := mret (UVal 3000000000).

Lemma uint_sign_extended_witness :
  match ex_call big_sub uint_fiction uint_coderef (ex_vm false) [UVal 4000000000] ∅ with
  | Ret v _ => SvUV v = 18446744072414584320 | _ => False end /\
  wp (ex_call big_sub uint_fiction uint_coderef (ex_vm false) [UVal 4000000000]) ∅ (fun v _ => exists s r h0 h1,
    big_sub (Code 1) [s] h0 = Ret r h1 /\
    SvUV s = SvUV (UVal 4000000000) + (2 ^ 64 - 2 ^ 32) /\ SvUV v = SvIV r + (2 ^ 64 - 2 ^ 32)).
Proof.
  split; [vm_compute; reflexivity|].
  apply (uint_sign_extended false ex_junk (ex_cb (-2) []) ex_mem ex_cpu ex_ret (replicate 32 9) eq_refl eq_refl
    4 float_id float_id true (replicate 8 0) 0 (Undef false) big_sub (fun _ => None)
    uint_type uint_type uint_fiction uint_coderef (ex_vm false) (UVal 4000000000) ∅).
  - by constructor.
  - by constructor.
  - reflexivity.
  - reflexivity.
  - apply ex_vm_alloc.
  - discriminate.
  - vm_compute. discriminate.
  - vm_compute. split; congruence.
  - intros svs h'. vm_compute. split; congruence.
Defined.

(** Three functions of a library, one of which cannot be bound, and one is
    destroyed. *)
Definition bind_by (lib : sv) (symbol : string) : @lib_op sv :=
  OpAffix true lib (PVal (bytes_of symbol) false) (Some (Some ex_types)) (Some (String_type 4)).

Lemma live_functions_keep_library_witness :
  let path := PVal (bytes_of "lib") false in
  let ops := [bind_by path "apply"; bind_by path "missing"; bind_by path "apply"; OpDestroy 0] in
  let w := lib_run (World O []) ops in
  w_ls w = 2%nat /\ length (w_live w) = 1%nat /\
  libraries_open w /\ forall f, In f (w_live w) -> (0 < opens (w_ls w) (fi_lib f))%nat.
Proof.
  intros path ops w. split; [vm_compute; reflexivity|]. split; [vm_compute; reflexivity|].
  apply (live_functions_keep_library (P := sv_Perl) O ops). repeat constructor.
Defined.

Lemma shared_library_closed_early_witness :
  exists f : fiction sv,
    w_live (lib_run (World 1%nat []) [bind_by (Obj void_type (Some 7)) "apply"; bind_by (Obj void_type (Some 7)) "apply"; OpDestroy 0]) = [f] /\
    fi_lib f = 7 /\ fi_entry_point f = 4096 /\
    opens (w_ls (lib_run (World 1%nat []) [bind_by (Obj void_type (Some 7)) "apply"; bind_by (Obj void_type (Some 7)) "apply"; OpDestroy 0])) 7 = 0%nat.
Proof.
  apply (shared_library_closed_early 1%nat (Obj void_type (Some 7)) 7 (PVal (bytes_of "apply") false)
           (Some (Some ex_types)) (Some (String_type 4)) 4096); reflexivity.
Defined.
(** An allocator that frees everything from the block on, and a pinned [int]. *)
Definition free_from (p : Z) (h : heap) : heap := filter (fun kv => kv.1 < p) h.
Definition int_type : axt := scalar_type 4 INT_FLAG.

Lemma free_from_new : frees_new 4 float_id free_from int_type (IVal (-5)) (zeros 16 4 ∅).
Proof.
  intros p h1 Hrun h2 a Ha.
  assert (E : match sv2ptr 4 float_id int_type (IVal (-5)) 0 (zeros 16 4 ∅) with Ret p _ => p = 32 | _ => False end)
    by (vm_compute; reflexivity).
  rewrite Hrun in E. subst p. rewrite lookup_zeros in Ha.
  destruct (Z.leb_spec 16 a), (Z.ltb_spec a (16 + Z.of_nat 4)); cbn [andb] in Ha;
    try (rewrite lookup_empty in Ha; by destruct Ha).
  unfold free_from. rewrite map_lookup_filter. destruct (h2 !! a) as [x|]; [|done]. cbn.
  case_guard as Hlt; [done|]. exfalso. apply Hlt. cbn. lia.
Qed.

Lemma pin_roundtrip_witness :
  match set_pin 4 float_id free_from (IVal (-5)) (_pin int_type 16) (zeros 16 4 ∅) with
  | Ret _ h' => match get_pin 4 float_id (_pin int_type 16) h' with Ret v _ => SvIV v = -5 | _ => False end
  | _ => False end /\
  wp (set_pin 4 float_id free_from (IVal (-5)) (_pin int_type 16)) (zeros 16 4 ∅) (fun _ h' =>
    touches (MarshalProofs.within 16 (t_sizeof int_type)) (zeros 16 4 ∅) h' /\
    exists v, get_pin 4 float_id (_pin int_type 16) h' = Ret v h' /\ same int_type (IVal (-5)) v).
Proof.
  split; [vm_compute; reflexivity|].
  apply (pin_roundtrip 4 float_id float_id free_from int_type (IVal (-5)) 16 (zeros 16 4 ∅)); try reflexivity.
  - intros a Ha. change (t_sizeof int_type) with 4 in Ha. rewrite lookup_zeros. rewrite (proj2 (Z.leb_le _ _)), (proj2 (Z.ltb_lt _ _)) by lia.
    by eexists.
  - exact free_from_new.
Defined.
End Examples.
